(* ===== verification/_CoqProject ===== *)
-Q . S2P
Prelude.v
Widths.v
Store.v
World.v
Linked.v
Cycle.v
Format.v
Master.v
Valid.v
Records.v
Encode.v
Slave.v
Wire.v
Answer.v
Handler.v
Response.v
Device.v
Session.v
Flush.v
Grammar.v
Socket.v
Sdb.v
Ring.v
FunctionGen.v
Lm32.v
SoftUart.v
Posix.v
Tunnel.v
Target.v
Access.v
AccessCorrect.v
Transfer.v
TransferCorrect.v
Mprintf.v
Flash.v
FlashCorrect.v
MiniSdb.v
Irq.v
Snoop.v
Proxy.v
Transports.v
Lister.v
LabView.v
Console.v
Scu.v
Timer.v
Display.v
Ebm.v
ScuMain.v
Fx2.v
Usb.v
UsbSerial.v
UsbFw.v
