(* ===== verification/Prelude.v ===== *)
(** * A verification library for the Etherbone stack

    The repository holds the C library of the Etherbone protocol (src/api), which
    gives a program access to a Wishbone bus over a network or a serial line, its
    command-line tools, the software of the soft CPUs and USB controllers that belong
    to it, and the hardware description of the timing system around it. This library
    models the C code of the protocol stack, of its tools and of the firmware, and
    proves what makes it correct. Definitions keep the names of the C functions they
    translate; a loop or a block that got a definition of its own is named in its
    comment; a name that two programs share has a prefix in one of them.

    ** The program and its parts

    An application opens a _socket_, opens _devices_ on it, collects reads and
    writes of a remote bus in _cycles_ and closes them; closing a cycle queues it on
    its device. A flush packs the queued cycles into _records_ of the wire format
    and hands the bytes to a _transport_; cycles that expect an answer wait in the
    _response queue_ of the socket. The event loop polls transports and devices: a
    received message is either a request, whose records run against the _virtual
    devices_ attached to the socket and are answered in place, or an answer, whose
    writes to the configuration space fill the waiting cycle and end in its
    callback. All objects live in one pool of equal cells linked by index.

    *** The library (src/api)

    - Prelude: C operators on integers, wrap-around at a width, big-endian words,
      byte ranges of buffers, assignment to array elements, automation.
    - Widths (glue/widths.c, glue/format.c, etherbone.h): masks of bus widths, their
      refinement and their text.
    - Store (memory/array.c, dynamic.c, static.c, memory-array.h): the cells of the
      pool as one inductive type with the members of the C union, the free list and
      both growth policies. [malloc] is an oracle.
    - World: the state monad [M] (pool, application memory, descriptors of virtual
      devices, external state; [None] is undefined behaviour, a wild pointer first
      of all) and the class [Env] of everything the library calls: application
      callbacks, virtual devices, transports, clock, [select]. [Node] is the
      interface of the linked cell types; walks, reversal and removal are written
      once for all of them. [msim] compares two computations on every world.
    - Linked: the representation predicate [chain] of a linked list of cells, the
      frame lemmas, and the reversal the C files repeat for each type.
    - Cycle (glue/operation.c, glue/cycle.c): the operations of the interface.
    - Format (format/format.h and the load and store macros of both sides).
    - Master (format/master.c): the whole of [eb_device_flush]. Valid, Records and
      Encode hold its parts: which operations are accepted, how a cycle is divided
      into records, which bytes leave. Flush states the function against a relational
      specification of the queue, Grammar the form of every packet it sends.
    - Slave and Session (format/slave.c): the record loop and, around it, polling,
      packet headers, probes, replies and streams.
    - Wire and Answer: master and slave composed.
    - Handler (glue/handler.c, readwrite.c, the serving half of sdb.c): virtual
      devices, bus accesses, the error register, the served device table.
    - Response (the queue of glue/socket.c, [eb_socket_write_config] of readwrite.c).
    - Device (glue/device.c): opening with its handshake, closing, accepting.
    - Socket (glue/socket.c, transport/run.c): opening, closing, the event loop; it
      closes the recursion of blocking cycles, class [Blocking] of file Cycle.
    - Sdb (the scanning half of glue/sdb.c): the chain of scan callbacks, decoding,
      searches by address and by identity.
    - Posix (transport/posix-ip.c, posix-tcp.c, posix-udp.c, dev.c,
      glue/strncasecmp.c) and Tunnel (transport/tunnel.c): transports over
      descriptors; the class [Posix] has the system calls with the documented
      behaviour the code relies on: a new descriptor was not open, reading takes
      bytes off the front of what the peer sent, [getaddrinfo] does not succeed with
      nothing.
    - Transports (transport/transports.c): the table of the four transports as an
      implementation of the transport operations of [Env]. It joins the files before
      it into one chain: the events of Flush become messages of Tunnel, these the
      datagrams of Proxy; a datagram of Posix is served by Session.
    - LabView (labview/lvEtherbone.c): the binding for LabVIEW, over an earlier
      interface of the library, class [EtherboneApi].

    *** The tools (src/api/tools, src/tools)

    - Target: what the tools see of a link, a device and the bus behind it; a script
      of cycles is executed by any bus that keeps its bytes.
    - Access and AccessCorrect (eb-read.c, eb-write.c): one word, split or widened to
      what device and link support. Transfer and TransferCorrect (eb-put.c, eb-get.c):
      a file in cycles of 32 operations. Flash and FlashCorrect (eb-flash.c): the
      sector size, the scan, erasing, programming and verifying on a NOR flash.
    - Snoop (eb-snoop.c): a memory served by callbacks. Proxy (eb-tunnel.c): a pass
      of the proxy over its clients. Lister (eb-ls.c, eb-find.c, eb-discover.c): the
      listing of a tree of buses. Console (eb-console.c, eb-info.c, eb-config-nv.c):
      a terminal for a UART.

    *** The soft CPU (src/modules, src/top/gsi_scu)

    - Lm32 (api/transport/lm32.c): opening, addresses, checksums, frames, polling.
    - Mprintf (lm32-include/mprintf.c), MiniSdb (mini_sdb.c), Irq (irq.c), Timer
      (timer.c), Display (display.c), Ebm (ebm.c and the queue of ftm/swtest/main.c);
      lm32-include/aux.c is divided among Mprintf, Irq and Timer.
    - Ring and FunctionGen (cb.c, fg.c, scu_bus.c): parameter buffers and the
      discovery of function generators on the SCU bus. Scu (stripped.c) and ScuMain
      (main.c): the firmware that uses them, with its interrupts.

    *** The USB controllers (src/hdl/eb_usb_core, src/cy7)

    - Fx2 (fx2.h, fx2regs.h): registers and the log of what is written to them. Usb
      (cdc_acm.c), UsbSerial (cyfx2usbuart), UsbFw (softuart/fw.c, Virtual.c) and
      SoftUart (softuart/softuart.c): the three programs and their serial ports.

    ** State and operations

    A C function that touches the pool is a computation in [M] of the same name;
    [eb_x_t] handles are integers, [EB_X (x)] reads the cell and is undefined on a
    cell of another kind, and an assignment to a member writes the cell back. A
    function that only computes is a plain function; one that writes an array is an
    [option], with [None] for an index out of bounds. Integers are [Z], wrapped with
    [u8] ... [u64] where the C type does it. A buffer is the list of its bytes and
    pointers into it are offsets. The state of Posix is a kernel record, monad [K]; a
    listing is text with an end, monad [listing] of file Lister. The programs on soft
    CPUs and controllers have plain records for their variables. Hardware is a class of
    its registers; a second class has the laws a theorem relies on, and an instance in
    the same file shows that they can hold.

    Loops over linked cells take the size of the pool as fuel: a list in it has no
    more cells. The record loop of the slave takes the length of the message plus
    one, which [slave_record_loop_terminates] shows to be enough; the record loop of
    the master twice the number of operations plus one, because every record but
    the last takes at least one operation off and a read-back of the error flags
    takes the other half ([records_partition_cycle]). Parsers take the length of
    their string. The loops of the tools take the eight bytes of a word, the length
    of the file, or for eb-flash 22 doublings of the sector size and the length of the image; a
    printed number has 10 digits on the soft CPU and 20 in a tool; the dispatcher runs
    over 32 interrupts, the SCU over 13 slaves; a descriptor is walked in its length;
    searches and listings of buses take the depth of the tree, the proxy the
    number of messages that wait. The theorems about these programs show each to be
    enough. Loops the outside drives (accepting, polling, draining, waiting, the wake-ups of
    UsbFw) have a fuel argument. Running out of fuel is [None] or a value no theorem
    accepts, so every theorem that names a result also says the fuel was enough.

    ** What the theorems show

    - The wire: writing an answer over the request is the same as writing it to
      another buffer; a cycle formed by the master is run by the slave operation by
      operation, and without checking exactly as that sequence; its answer fills the
      values the application asked for; packets and handshakes end to end
      (files Slave, Wire, Answer, Session).
    - The requester: which operations are refused; a cycle is partitioned into
      records in order and within the bounds of the count fields; a cycle goes into
      one packet whole or not at all, a stream carries its bytes unchanged; a flush
      settles every queued cycle in order, with exactly the packets, callbacks and
      deadlines of the specification, and each packet is well formed (Valid, Records,
      Encode, Flush, Grammar).
    - The objects: the pool is an allocator; cycles keep their operations in order
      and leak nothing when aborted; devices, sockets and responses are linked and
      unlinked exactly; error bits reach their operations; deadlines survive the
      wrap-around of their 16 bits (Store, Cycle, Device, Socket, Response).
    - The bus: virtual devices stay disjoint, an access reaches the only device at
      its address, the device table served by one library is decoded by the scan of
      another (Handler, Sdb).
    - Transports: no operation loses a descriptor whatever the system calls answer;
      messages through a tunnel arrive whole and in order until the link is closed;
      frames of the soft CPU pass the checks of a receiver (Posix, Tunnel, Lm32). What a
      flush sends leaves the far end of a tunnel as the same packets; a request that
      arrives as a datagram is answered to its sender (Transports).
    - The tools: whatever sizes device and link support, the bus holds the word, the
      file or the image afterwards and nothing else has changed; eb-snoop is such a
      bus; the proxy loses nothing; a listing has every device once and with [-v] stays
      inside the window of each bus; the console keeps the order of both directions
      (AccessCorrect, TransferCorrect, FlashCorrect, Snoop, Proxy, Lister, Console).
    - The soft CPU: parameter buffers are bounded queues that drop their oldest
      entry; a format renders its arguments; searches stay within their arrays; every
      pending interrupt is served once; acknowledged timer interrupts are the ones in
      sequence; timers, display and Etherbone master do what their hardware documents
      (Ring, FunctionGen, Mprintf, MiniSdb, Irq, Scu, ScuMain, Timer, Display, Ebm).
    - The USB controllers: requests of the host are answered, a line coding reaches the
      FPGA and comes back, bytes reach the host in order; two serial ports carry a 7-bit
      text and rest (Usb, UsbSerial, UsbFw, SoftUart).
    - LabVIEW: numbers are given out once and taken back; the memory of a handler is
      shared with the bus (LabView).

    Lemmas that show the code do what it does not mean to are, among others,
    [Socket.expire_skips_second_list], [Sdb.empty_bus_scan_fails],
    [Store.dynamic_skips_first_cells], [Handler.attach_low_address_leaks],
    [Ring.count_after_wrap], [Lm32.odd_checksum_reads_past],
    [Tunnel.cut_message_closes], [SoftUart.stop_glitch], [Lister.find_one_past],
    [LabView.read_write_silent], [Console.high_byte_lost] and
    [UsbSerial.glitch_deafens].

    ** Not modelled

    - The build with [EB_USE_MALLOC] (memory/malloc.c), in which every object is a block
      of the C library and there is no pool, and with 32-bit addresses; the model has
      the default dynamic and static pools and 64-bit buses.
    - The Windows parts of the transports and of the binding for LabVIEW.
    - Of the tools: [getopt], messages, opening and closing of the connection, the
      settings of the terminal; how many cycles are on their way at a time is up to the
      bus. The probe of the bus by eb-flash is left out.
    - Marks on the display and messages of the firmware, busy waiting, and the code of
      top/gsi_scu/main.c behind its empty loop.
    - modules/ftm/swtest/ftm.c and ftm2.c, which are not built and use names no header
      defines; the other files there are copies of those in lm32-include. The
      demonstrations of scu_bus, eb_master_core and hello_world, the eraser of the
      EEPROM of eb_usb_core and the tests.
    - The white rabbit core, a submodule, and the library of the maker of the USB
      controller: parameters of what uses them.
    - toolchain/: headers of a compiler and of its C library. C++ and hardware
      description are other languages. *)

From stdpp Require Import base numbers list gmap.
From Stdlib Require Import ZArith Lia.

#[global] Open Scope Z_scope.

(** * Notation of the C operators on integers *)

Declare Scope c_scope.
Delimit Scope c_scope with c.
Notation "x .<< y" := (Z.shiftl x y) (at level 51, left associativity) : c_scope.
Notation "x .>> y" := (Z.shiftr x y) (at level 51, left associativity) : c_scope.
Notation "x .& y" := (Z.land x y) (at level 52, left associativity) : c_scope.
Notation "x .^ y" := (Z.lxor x y) (at level 53, left associativity) : c_scope.
Notation "x .| y" := (Z.lor x y) (at level 54, left associativity) : c_scope.
#[global] Open Scope c_scope.

(** * Machine-width unsigned integers: conversion wraps modulo [2^n] *)

Definition wrap (n z : Z) : Z := z mod 2 ^ n.
Abbreviation u8 := (wrap 8).
Abbreviation u16 := (wrap 16).
Abbreviation u32 := (wrap 32).
Abbreviation u64 := (wrap 64).

(** Conversion of an unsigned 16-bit value to [int16_t]. *)
Definition s16 (z : Z) : Z := if wrap 16 z <? 2 ^ 15 then wrap 16 z else wrap 16 z - 2 ^ 16.

(** Conversion of an unsigned 32-bit value to [int]. *)
Definition s32 (z : Z) : Z := if wrap 32 z <? 2 ^ 31 then wrap 32 z else wrap 32 z - 2 ^ 32.

(** A C truth value. *)
Definition c_bool (b : bool) : Z := if b then 1 else 0.

Create HintDb cint.
Create Rewrite HintDb cintr.

Lemma wrap_range n z : 0 <= n -> 0 <= wrap n z < 2 ^ n.
Proof. intros Hn. apply Z.mod_pos_bound. lia. Qed.

Lemma wrap_small n z : 0 <= z < 2 ^ n -> wrap n z = z.
Proof. apply Z.mod_small. Qed.

Lemma wrap_wrap n z : 0 <= n -> wrap n (wrap n z) = wrap n z.
Proof. intros Hn. apply wrap_small, wrap_range, Hn. Qed.

Lemma wrap_add_l n a b : wrap n (wrap n a + b) = wrap n (a + b).
Proof. unfold wrap. rewrite Zplus_mod_idemp_l. done. Qed.

Lemma wrap_add_r n a b : wrap n (a + wrap n b) = wrap n (a + b).
Proof. unfold wrap. rewrite Zplus_mod_idemp_r. done. Qed.

Lemma wrap_sub_l n a b : wrap n (wrap n a - b) = wrap n (a - b).
Proof. unfold wrap. rewrite Zminus_mod_idemp_l. done. Qed.

Lemma wrap_land_ones n z : 0 <= n -> wrap n z = z .& Z.ones n.
Proof. intros Hn. unfold wrap. by rewrite Z.land_ones. Qed.

#[export] Hint Rewrite wrap_add_l wrap_add_r wrap_sub_l : cintr.
#[export] Hint Resolve wrap_range wrap_small : cint.

(** * Bytes and big-endian words *)

Abbreviation is_byte b := (0 <= b < 256).
Abbreviation bytes_ok := (Forall (fun b : Z => is_byte b)).

(** [be_bytes n v]: the [n] bytes of [v], most significant first. *)
Fixpoint be_bytes (n : nat) (v : Z) : list Z :=
  match n with
  | O => []
  | S k => ((v .>> (8 * Z.of_nat k)) .& 255) :: be_bytes k v
  end.

(** [be_val l]: the integer a big-endian byte string denotes. *)
Definition be_val (l : list Z) : Z := fold_left (fun acc b => acc * 256 + b) l 0.

Lemma length_be_bytes n v : length (be_bytes n v) = n.
Proof. induction n; simpl; congruence. Qed.

Lemma land_255 v : v .& 255 = v mod 256.
Proof. change 255 with (Z.ones 8). by rewrite Z.land_ones. Qed.

Lemma be_bytes_ok n v : bytes_ok (be_bytes n v).
Proof.
  induction n; simpl; constructor; [|done].
  rewrite land_255. apply Z.mod_pos_bound. lia.
Qed.

Lemma be_val_acc l a :
  fold_left (fun acc b => acc * 256 + b) l a = a * 256 ^ Z.of_nat (length l) + be_val l.
Proof.
  unfold be_val. revert a. induction l as [|b l IH]; intros a; cbn [fold_left length]; [lia|].
  rewrite (IH (a * 256 + b)), (IH (0 * 256 + b)).
  rewrite Nat2Z.inj_succ, Z.pow_succ_r by lia. lia.
Qed.

Lemma be_val_cons b l : be_val (b :: l) = b * 256 ^ Z.of_nat (length l) + be_val l.
Proof. unfold be_val at 1. cbn [fold_left]. rewrite be_val_acc. lia. Qed.

Lemma be_val_app l1 l2 :
  be_val (l1 ++ l2) = be_val l1 * 256 ^ Z.of_nat (length l2) + be_val l2.
Proof.
  unfold be_val at 1. rewrite fold_left_app. fold (be_val l1). apply be_val_acc.
Qed.

Lemma pow256 k : 0 <= k -> 256 ^ k = 2 ^ (8 * k).
Proof. intros Hk. rewrite Z.pow_mul_r by lia. done. Qed.

Lemma be_val_bytes n v : be_val (be_bytes n v) = wrap (8 * Z.of_nat n) v.
Proof.
  unfold wrap. induction n as [|n IH].
  - simpl. rewrite Z.mod_1_r. done.
  - cbn [be_bytes]. rewrite be_val_cons, IH, length_be_bytes, land_255, pow256 by lia.
    rewrite Z.shiftr_div_pow2 by lia.
    replace (8 * Z.of_nat (S n)) with (8 * Z.of_nat n + 8) by lia.
    rewrite Z.pow_add_r by lia. change (2 ^ 8) with 256.
    rewrite (Z.rem_mul_r v (2 ^ (8 * Z.of_nat n)) 256) by lia. lia.
Qed.

Lemma be_val_range l : bytes_ok l -> 0 <= be_val l < 256 ^ Z.of_nat (length l).
Proof.
  induction 1 as [|b l Hb _ IH]; [change (0 <= 0 < 1); lia|].
  rewrite be_val_cons. cbn [length]. rewrite Nat2Z.inj_succ, Z.pow_succ_r by lia. nia.
Qed.

(** Digit [j] of [v] only depends on [v] modulo a higher power of the base. *)
Lemma digit_mod v j k :
  (j < k)%nat ->
  (v / 256 ^ Z.of_nat j) mod 256 = ((v mod 256 ^ Z.of_nat k) / 256 ^ Z.of_nat j) mod 256.
Proof.
  intros Hjk. set (p := 256 ^ Z.of_nat j).
  assert (256 ^ Z.of_nat k = p * (256 * 256 ^ Z.of_nat (k - S j))) as ->.
  { subst p. rewrite <- Z.pow_succ_r, <- Z.pow_add_r by lia. f_equal. lia. }
  assert (0 < p) by (subst p; lia).
  rewrite (Z.rem_mul_r v p) by lia.
  rewrite (Z.mul_comm p), Z.div_add by lia.
  rewrite (Z.div_small (v mod p)) by (apply Z.mod_pos_bound; lia).
  rewrite Z.add_0_l, (Z.rem_mul_r (v / p) 256) by lia.
  rewrite (Z.mul_comm 256), Z.mod_add, Z.mod_mod by lia. done.
Qed.

Lemma be_bytes_mod_ext j k x y :
  (j <= k)%nat -> x mod 256 ^ Z.of_nat k = y mod 256 ^ Z.of_nat k -> be_bytes j x = be_bytes j y.
Proof.
  intros Hjk Hxy. induction j as [|j IH]; [done|]. cbn [be_bytes].
  f_equal; [|apply IH; lia].
  rewrite !land_255, !Z.shiftr_div_pow2, <- !pow256 by lia.
  by rewrite (digit_mod x j k), (digit_mod y j k), Hxy by lia.
Qed.

Lemma be_bytes_val l : bytes_ok l -> be_bytes (length l) (be_val l) = l.
Proof.
  induction 1 as [|b l Hb Hl IH]; [done|]. cbn [length be_bytes]. f_equal.
  - rewrite be_val_cons, land_255, Z.shiftr_div_pow2, <- pow256 by lia.
    pose proof (be_val_range l Hl) as Hr.
    rewrite Z.div_add_l, Z.div_small, Z.add_0_r by lia. apply Z.mod_small. lia.
  - transitivity (be_bytes (length l) (be_val l)); [|exact IH].
    apply (be_bytes_mod_ext _ (length l)); [done|].
    rewrite be_val_cons, Z.add_comm, Z.mod_add by lia. done.
Qed.

(** * Finite case analysis on bytes *)

Definition all_bytes : list Z := map Z.of_nat (seq 0 256).

Lemma all_bytes_spec b : is_byte b -> In b all_bytes.
Proof.
  intros Hb. unfold all_bytes. apply in_map_iff. exists (Z.to_nat b).
  split; [lia|]. apply in_seq. lia.
Qed.

(** A boolean property that evaluates to [true] on all 256 bytes holds of each. *)
Lemma byte_forall (P : Z -> bool) :
  forallb P all_bytes = true -> forall b, is_byte b -> P b = true.
Proof. intros HP b Hb. by apply (proj1 (forallb_forall P all_bytes) HP), all_bytes_spec. Qed.

Lemma byte_forall2 (P : Z -> Z -> bool) :
  forallb (fun a => forallb (P a) all_bytes) all_bytes = true ->
  forall a b, is_byte a -> is_byte b -> P a b = true.
Proof.
  intros HP a b Ha Hb. revert b Hb. apply byte_forall.
  revert a Ha. apply byte_forall, HP.
Qed.

(** * Byte buffers: reading and overwriting a range *)

Definition slice (b : list Z) (off n : nat) : list Z := take n (drop off b).

(** [splice b off bs]: [memcpy (b + off, bs, length bs)]; the range must lie in [b]. *)
Definition splice (b : list Z) (off : nat) (bs : list Z) : list Z :=
  take off b ++ bs ++ drop (off + length bs) b.

Lemma length_splice b off bs :
  (off + length bs <= length b)%nat -> length (splice b off bs) = length b.
Proof. intros H. unfold splice. rewrite !length_app, length_take, length_drop. lia. Qed.

Lemma length_slice b off n : (off + n <= length b)%nat -> length (slice b off n) = n.
Proof. intros H. unfold slice. rewrite length_take, length_drop. lia. Qed.

Lemma drop_splice_ge b off bs r :
  (off + length bs <= r)%nat -> (off <= length b)%nat -> drop r (splice b off bs) = drop r b.
Proof.
  intros Hr Hb. unfold splice.
  rewrite drop_app_ge by (rewrite length_take; lia).
  rewrite length_take, Nat.min_l by lia.
  rewrite drop_app_ge by lia. rewrite drop_drop. f_equal. lia.
Qed.

Lemma take_splice_end b off bs :
  (off <= length b)%nat -> take (off + length bs) (splice b off bs) = take off b ++ bs.
Proof.
  intros Hb. unfold splice. rewrite app_assoc.
  apply take_app_length'. rewrite length_app, length_take. lia.
Qed.

Lemma slice_splice_ge b off bs r n :
  (off + length bs <= r)%nat -> (off <= length b)%nat -> slice (splice b off bs) r n = slice b r n.
Proof. intros. unfold slice. by rewrite drop_splice_ge. Qed.

(** * Arrays *)

(** Assignment to an element of an array; [None] is an index out of bounds. *)
Definition array_set {A} (l : list A) (i : nat) (x : A) : option (list A) :=
  if (i <? length l)%nat then Some (<[i := x]> l) else None.

Lemma array_set_lt {A} (l : list A) i x : (i < length l)%nat -> array_set l i x = Some (<[i := x]> l).
Proof. intros Hi. unfold array_set. by rewrite (proj2 (Nat.ltb_lt _ _) Hi). Qed.

Lemma insert_next {A} (l1 : list A) x y l2 : <[length l1 := x]> (l1 ++ y :: l2) = (l1 ++ [x]) ++ l2.
Proof. rewrite insert_app_r_alt, Nat.sub_diag by done. by rewrite <- app_assoc. Qed.

(** * Proof automation *)

(** Split every boolean connective in the hypotheses into propositions. *)
Ltac bool_hyps :=
  repeat match goal with
    | H : andb _ _ = true |- _ => apply andb_prop in H as [? ?]
    | H : orb _ _ = false |- _ => apply orb_false_elim in H as [? ?]
    | H : negb _ = true |- _ => apply negb_true_iff in H
    | H : negb _ = false |- _ => apply negb_false_iff in H
    | H : (_ =? _) = true |- _ => apply Z.eqb_eq in H
    | H : (_ =? _) = false |- _ => apply Z.eqb_neq in H
    | H : (_ <? _) = true |- _ => apply Z.ltb_lt in H
    | H : (_ <? _) = false |- _ => apply Z.ltb_ge in H
    | H : (_ <=? _) = true |- _ => apply Z.leb_le in H
    | H : (_ <=? _) = false |- _ => apply Z.leb_gt in H
    end.

(** Case analysis on the condition of the first [if] of the goal. *)
Ltac case_if :=
  match goal with
  | |- context [if ?b then _ else _] => let E := fresh "E" in destruct b eqn:E
  end.

(** Case analysis on every integer comparison of the goal; impossible
    combinations are closed by [lia]. *)
Ltac zcases :=
  repeat (match goal with
    | |- context [Z.leb ?a ?b] => destruct (Z.leb_spec a b)
    | |- context [Z.ltb ?a ?b] => destruct (Z.ltb_spec a b)
    | |- context [Z.eqb ?a ?b] => destruct (Z.eqb_spec a b)
    end; cbn [andb orb negb]; try lia).

(** * Bits *)

Lemma testbit_join x n y i : 0 <= n -> 0 <= y < 2 ^ n -> 0 <= i ->
  Z.testbit (x * 2 ^ n + y) i = if i <? n then Z.testbit y i else Z.testbit x (i - n).
Proof.
  intros Hn Hy Hi. destruct (Z.ltb_spec i n) as [Hlt|Hge].
  - rewrite <- (Z.mod_pow2_bits_low _ n) by lia. f_equal.
    rewrite Z.add_comm, Z.mod_add by lia. by apply Z.mod_small.
  - replace i with (i - n + n) at 1 by lia. rewrite <- Z.div_pow2_bits by lia. f_equal.
    rewrite Z.div_add_l, Z.div_small by lia. lia.
Qed.

Lemma testbit_above x n i : 0 <= x < 2 ^ n -> n <= i -> Z.testbit x i = false.
Proof.
  intros Hx Hi. destruct (Z.eq_dec x 0) as [->|]; [apply Z.bits_0|].
  apply Z.bits_above_log2; [lia|]. apply Z.lt_le_trans with n; [|done]. apply Z.log2_lt_pow2; lia.
Qed.

(** Joining a value from below. *)
Lemma lor_join x n y : 0 <= n -> 0 <= y < 2 ^ n -> (x * 2 ^ n) .| y = x * 2 ^ n + y.
Proof.
  intros Hn Hy. apply Z.bits_inj'. intros i Hi. rewrite Z.lor_spec.
  replace (x * 2 ^ n) with (x * 2 ^ n + 0) at 1 by lia.
  rewrite !testbit_join by lia. destruct (Z.ltb_spec i n); [by rewrite Z.bits_0|].
  rewrite (testbit_above y n) by done. apply orb_false_r.
Qed.

(** Testing a bit. *)
Lemma land_bit x k : 0 <= k -> negb ((x .& 2 ^ k) =? 0) = Z.testbit x k.
Proof.
  intros Hk. destruct (Z.testbit x k) eqn:E.
  - apply negb_true_iff, Z.eqb_neq. intros H0. assert (Z.testbit (x .& 2 ^ k) k = true) as Ht.
    { by rewrite Z.land_spec, E, Z.pow2_bits_true. }
    by rewrite H0, Z.bits_0 in Ht.
  - apply negb_false_iff, Z.eqb_eq, Z.bits_inj'. intros n Hn. rewrite Z.land_spec, Z.bits_0, Z.pow2_bits_eqb by done.
    destruct (Z.eqb_spec k n) as [->|]; [by rewrite E|apply andb_false_r].
Qed.
