(* ===== verification/Widths.v ===== *)
(** Bus-width masks and their text form: [src/api/glue/widths.c],
    [src/api/glue/format.c] and the constants of [src/api/etherbone.h]. *)
From stdpp Require Import base list strings.
From Stdlib Require Import ZArith Lia Ascii.
From S2P Require Import Prelude.

(** * Status codes and mask constants of etherbone.h *)

Definition EB_OK : Z := 0.
Definition EB_FAIL : Z := -1.
Definition EB_ADDRESS : Z := -2.
Definition EB_WIDTH : Z := -3.
Definition EB_OVERFLOW : Z := -4.
Definition EB_ENDIAN : Z := -5.
Definition EB_BUSY : Z := -6.
Definition EB_TIMEOUT : Z := -7.
Definition EB_OOM : Z := -8.
Definition EB_ABI : Z := -9.
Definition EB_SEGFAULT : Z := -10.

Definition EB_DATA16 : Z := 0x02.
Definition EB_DATA32 : Z := 0x04.
Definition EB_DATA64 : Z := 0x08.
Definition EB_DATAX : Z := 0x0f.
Definition EB_ADDRX : Z := 0xf0.
Definition EB_ENDIAN_MASK : Z := 0x30.
Definition EB_BIG_ENDIAN : Z := 0x10.
Definition EB_LITTLE_ENDIAN : Z := 0x20.

(** * widths.c *)

Definition eb_width_possible (width : Z) : bool :=
  let data := width .& 0xf in
  let addr := width .>> 4 in
  negb (data =? 0) && negb (addr =? 0).

Definition eb_width_refined (width : Z) : bool :=
  let data := width .& 0xf in
  let addr := width .>> 4 in
  negb (data =? 0) && negb (addr =? 0) &&
  ((data .& (data - 1)) =? 0) && ((addr .& (addr - 1)) =? 0).

Definition eb_width_refine (width : Z) : Z :=
  let data := width .& 0xf in
  let addr := width .>> 4 in
  let addr := u8 (addr .| (addr .>> 1)) in
  let addr := u8 (addr .| (addr .>> 2)) in
  let addr := u8 (addr + 1) in
  let addr := addr .>> 1 in
  let data := u8 (data .| (data .>> 1)) in
  let data := u8 (data .| (data .>> 2)) in
  let data := u8 (data + 1) in
  let data := data .>> 1 in
  u8 ((addr .<< 4) .| data).

(** The byte widths a mask offers, and "w' offers only what w offers". *)
Definition data_bits (w : Z) : Z := w .& 0xf.
Definition addr_bits (w : Z) : Z := w .>> 4.
Definition width_sub (w' w : Z) : bool := (w' .& w) =? w'.

(** [w'] is the mask that keeps the greatest data and address width of [w]. *)
Definition greatest_in (w w' : Z) : Prop :=
  eb_width_refined w' = true /\ width_sub w' w = true /\
  forall v, is_byte v -> eb_width_refined v = true -> width_sub v w = true ->
    data_bits v <= data_bits w' /\ addr_bits v <= addr_bits w'.

Lemma refine_byte w : is_byte (eb_width_refine w).
Proof. unfold eb_width_refine. apply (wrap_range 8). lia. Qed.

Lemma refine_sub w : is_byte w -> width_sub (eb_width_refine w) w = true.
Proof. revert w. apply byte_forall. by vm_compute. Qed.

Lemma refine_refined w : is_byte w ->
  eb_width_refined (eb_width_refine w) = eb_width_possible w.
Proof.
  intros Hw. apply eqb_prop. revert w Hw.
  apply (byte_forall (fun w => Bool.eqb (eb_width_refined (eb_width_refine w)) (eb_width_possible w))).
  by vm_compute.
Qed.

Lemma refine_max w v : is_byte w -> is_byte v ->
  eb_width_refined v = true -> width_sub v w = true ->
  data_bits v <= data_bits (eb_width_refine w) /\ addr_bits v <= addr_bits (eb_width_refine w).
Proof.
  intros Hw Hv Hr Hs.
  pose proof (byte_forall2 (fun w v => implb (eb_width_refined v && width_sub v w)
      ((data_bits v <=? data_bits (eb_width_refine w)) &&
       (addr_bits v <=? addr_bits (eb_width_refine w)))) ltac:(by vm_compute) w v Hw Hv) as H.
  cbv beta in H. rewrite Hr, Hs in H. cbn [andb implb] in H. bool_hyps. lia.
Qed.

(** A refined width is one of the sixteen pairs of powers of two. *)
Lemma refined_cases w : is_byte w -> eb_width_refined w = true ->
  (data_bits w = 1 \/ data_bits w = 2 \/ data_bits w = 4 \/ data_bits w = 8) /\
  (addr_bits w = 1 \/ addr_bits w = 2 \/ addr_bits w = 4 \/ addr_bits w = 8).
Proof.
  intros Hw Hr.
  pose proof (byte_forall (fun w => implb (eb_width_refined w)
      (existsb (Z.eqb (data_bits w)) [1;2;4;8] && existsb (Z.eqb (addr_bits w)) [1;2;4;8]))
      ltac:(by vm_compute) w Hw) as H.
  cbv beta in H. rewrite Hr in H. cbn in H.
  rewrite !orb_false_r in H. apply andb_prop in H as [H1 H2].
  rewrite !orb_true_iff, !Z.eqb_eq in H1, H2. lia.
Qed.

(** * format.c: status and width strings *)

(** C strings: the character codes before the terminating NUL. *)
Definition cstr (s : string) : list Z :=
  map (fun a => Z.of_N (N_of_ascii a)) (String.list_ascii_of_string s).

Definition eb_status (code : Z) : string :=
  if code =? EB_SEGFAULT then "one or more operations failed"%string
  else if code =? EB_OK then "success"%string
  else if code =? EB_FAIL then "system failure"%string
  else if code =? EB_ADDRESS then "invalid address"%string
  else if code =? EB_WIDTH then "impossible bus width"%string
  else if code =? EB_OVERFLOW then "cycle length overflow"%string
  else if code =? EB_ENDIAN then "remote endian required"%string
  else if code =? EB_BUSY then "resource busy"%string
  else if code =? EB_TIMEOUT then "timeout"%string
  else if code =? EB_OOM then "out of memory"%string
  else if code =? EB_ABI then "library incompatible with application"%string
  else "unknown Etherbone error code"%string.

Definition endian_str : list string :=
  ["auto-endian"; "big-endian"; "little-endian"; "invalid-endian"]%string.

Definition width_str : list string :=
  ["<null>"; "8"; "16"; "8/16"; "32"; "8/32"; "16/32"; "8/16/32"; "64"; "8/64";
   "16/64"; "8/16/64"; "32/64"; "8/32/64"; "16/32/64"; "8/16/32/64"]%string.

Definition str_at (t : list string) (i : Z) : string := nth (Z.to_nat i) t EmptyString.

Definition eb_width_data (width : Z) : string := str_at width_str (width .& EB_DATAX).
Definition eb_width_address (width : Z) : string := str_at width_str ((width .& EB_ADDRX) .>> 4).
Definition eb_format_data (format : Z) : string := str_at width_str (format .& EB_DATAX).
Definition eb_format_endian (format : Z) : string := str_at endian_str ((format .& EB_ENDIAN_MASK) .>> 4).

(** [strtol (str, &next, 0)] of the C library on a 64-bit [long]: optional
    white space and sign, base 16 after [0x], base 8 after [0], else base 10;
    the result is clamped and [next] is the unread suffix (all of [str] when
    there is no digit). *)
Definition is_space (c : Z) : bool := (c =? 32) || ((9 <=? c) && (c <=? 13)).

Definition digit_of (c : Z) : Z :=
  if (48 <=? c) && (c <=? 57) then c - 48
  else if (97 <=? c) && (c <=? 122) then c - 87
  else if (65 <=? c) && (c <=? 90) then c - 55 else 255.

Fixpoint strtol_digits (base acc : Z) (s : list Z) : Z * list Z :=
  match s with
  | c :: s' => if digit_of c <? base then strtol_digits base (acc * base + digit_of c) s' else (acc, s)
  | [] => (acc, [])
  end.

Fixpoint skip_space (s : list Z) : list Z :=
  match s with
  | c :: s' => if is_space c then skip_space s' else s
  | [] => []
  end.

Definition has_digit (base : Z) (s : list Z) : bool :=
  match s with c :: _ => digit_of c <? base | [] => false end.

Definition strtol_sign (s : list Z) : bool * list Z :=
  match s with
  | c :: t => if c =? 45 then (true, t) else if c =? 43 then (false, t) else (false, s)
  | [] => (false, s)
  end.

(** Base selection; [0x] counts as a prefix only before a hexadecimal digit. *)
Definition strtol_base (s : list Z) : Z * list Z :=
  match s with
  | c :: x :: t => if negb (c =? 48) then (10, s)
                   else if ((x =? 120) || (x =? 88)) && has_digit 16 t then (16, t) else (8, s)
  | _ => (10, s)
  end.

Definition strtol (s : list Z) : Z * list Z :=
  let '(neg, s1) := strtol_sign (skip_space s) in
  let '(base, s2) := strtol_base s1 in
  if has_digit base s2 then
    let '(v, rest) := strtol_digits base 0 s2 in
    (Z.max (- 2 ^ 63) (Z.min (2 ^ 63 - 1) (if neg then - v else v)), rest)
  else (0, s).

(** [eb_parse_width]: the loop consumes at least the separator on every
    iteration, so [length str + 1] iterations are enough. *)
Fixpoint eb_parse_width_loop (fuel : nat) (widths : Z) (str : list Z) : Z :=
  match fuel with
  | O => -1
  | S fuel =>
    let '(width, next) := strtol str in
    if negb (width =? 8) && negb (width =? 16) && negb (width =? 32) && negb (width =? 64) then -1
    else
      let widths := widths .| (width / 8) in
      match next with
      | [] => widths
      | c :: str' => if negb (c =? 47) && negb (c =? 44) then -1
                     else eb_parse_width_loop fuel widths str'
      end
  end.

Definition eb_parse_width (str : list Z) : Z := eb_parse_width_loop (S (length str)) 0 str.

(** The two parsers: status and the new value of [*width]. *)
Definition eb_width_parse_data (str : list Z) (width : Z) : Z * Z :=
  let result := eb_parse_width str in
  if result <? 0 then (EB_WIDTH, width)
  else (EB_OK, u8 (result .| (width .& EB_ADDRX))).

Definition eb_width_parse_address (str : list Z) (width : Z) : Z * Z :=
  let result := eb_parse_width str in
  if result <? 0 then (EB_WIDTH, width)
  else (EB_OK, u8 ((result .<< 4) .| (width .& EB_DATAX))).

(** The suffix [strtol] leaves is no longer than its input, which is what
    bounds the loop of [eb_parse_width]. *)
Lemma strtol_digits_suffix base acc s :
  (length (strtol_digits base acc s).2 <= length s)%nat.
Proof.
  revert acc. induction s as [|c s IH]; intros acc; cbn [strtol_digits]; [done|].
  case_if; [|done]. specialize (IH (acc * base + digit_of c)). cbn [length]. lia.
Qed.

Lemma skip_space_suffix s : (length (skip_space s) <= length s)%nat.
Proof. induction s as [|c s IH]; cbn [skip_space]; [done|]. case_if; cbn [length]; lia. Qed.

Lemma strtol_sign_suffix s : (length (strtol_sign s).2 <= length s)%nat.
Proof. unfold strtol_sign. destruct s; [done|]. repeat case_if; cbn; lia. Qed.

Lemma strtol_base_suffix s : (length (strtol_base s).2 <= length s)%nat.
Proof. unfold strtol_base. destruct s as [|c [|x t]]; [done..|]. repeat case_if; cbn; lia. Qed.

Lemma strtol_suffix s : (length (strtol s).2 <= length s)%nat.
Proof.
  unfold strtol.
  pose proof (skip_space_suffix s). pose proof (strtol_sign_suffix (skip_space s)).
  destruct (strtol_sign (skip_space s)) as [neg s1]. pose proof (strtol_base_suffix s1).
  destruct (strtol_base s1) as [base s2]. pose proof (strtol_digits_suffix base 0 s2).
  case_if; [|done]. destruct (strtol_digits base 0 s2). cbn [snd] in *. lia.
Qed.

(** More iterations than the string has characters change nothing. *)
Lemma eb_parse_width_loop_fuel str n m ws :
  (length str < n)%nat -> (length str < m)%nat ->
  eb_parse_width_loop n ws str = eb_parse_width_loop m ws str.
Proof.
  revert m ws str. induction n as [|n IH]; intros [|m] ws str Hn Hm; try lia.
  cbn [eb_parse_width_loop]. pose proof (strtol_suffix str) as Hs.
  destruct (strtol str) as [w next]. case_if; [done|].
  destruct next as [|c next]; [done|]. case_if; [done|].
  cbn [snd length] in Hs. apply IH; lia.
Qed.

(** [eb_width_refine] keeps, of both the data and the address half of a
    mask with a possible width, exactly the greatest offered width. *)
Theorem eb_width_refine_greatest (w : Z) (Hw : is_byte w) (Hp : eb_width_possible w = true) :
  greatest_in w (eb_width_refine w).
Proof.
  repeat split.
  - by rewrite refine_refined.
  - by apply refine_sub.
  - by apply (refine_max w v).
  - by apply (refine_max w v).
Qed.

Lemma eb_width_refine_greatest_witness :
  greatest_in 0x76 (eb_width_refine 0x76) /\ eb_width_refine 0x76 = 0x44.
Proof. split; [apply (eb_width_refine_greatest 0x76); [lia | reflexivity] | reflexivity]. Defined.

(** Reading back the text of any non-empty width mask. *)
Lemma parse_width_str (i : Z) : 0 < i < 16 -> eb_parse_width (cstr (str_at width_str i)) = i.
Proof.
  intros Hi. apply Z.eqb_eq. revert i Hi.
  assert (forallb (fun i => implb (negb (i =? 0) && (i <? 16))
            (eb_parse_width (cstr (str_at width_str i)) =? i)) all_bytes = true) as H by (by vm_compute).
  intros i Hi. pose proof (byte_forall _ H i ltac:(lia)) as Hb. cbv beta in Hb.
  destruct (i =? 0) eqn:E; bool_hyps; [lia|].
  destruct (i <? 16) eqn:E2; bool_hyps; [exact Hb|lia].
Qed.

Lemma data_bits_range w : is_byte w -> 0 <= data_bits w < 16 /\ 0 <= addr_bits w < 16.
Proof.
  intros Hw. unfold data_bits, addr_bits. change 0xf with (Z.ones 4).
  rewrite Z.land_ones, Z.shiftr_div_pow2 by lia. split; [apply Z.mod_pos_bound; lia|].
  split; [apply Z.div_pos; lia | apply Z.div_lt_upper_bound; lia].
Qed.

(** Printing a width mask and parsing the text back gives the mask again,
    and each parser replaces its own half of [*width] only. *)
Theorem width_print_parse (w w0 : Z) (Hw : is_byte w) (Hw0 : is_byte w0)
    (Hp : eb_width_possible w = true) :
  eb_width_parse_data (cstr (eb_width_data w)) w0 = (EB_OK, data_bits w .| (w0 .& EB_ADDRX)) /\
  eb_width_parse_address (cstr (eb_width_address w)) w0 = (EB_OK, (addr_bits w .<< 4) .| (w0 .& EB_DATAX)).
Proof.
  destruct (data_bits_range w Hw) as [Hd Ha].
  unfold eb_width_possible in Hp. cbv zeta in Hp. fold (data_bits w) (addr_bits w) in Hp. bool_hyps.
  unfold eb_width_parse_data, eb_width_parse_address, eb_width_data, eb_width_address.
  assert ((w .& EB_ADDRX) .>> 4 = addr_bits w) as ->.
  { apply Z.eqb_eq. clear -Hw. revert w Hw. apply byte_forall. by vm_compute. }
  change (w .& EB_DATAX) with (data_bits w). rewrite !parse_width_str by lia.
  assert (forall d v, 0 <= d < 16 -> is_byte v -> is_byte (d .| (v .& EB_ADDRX)) /\
           is_byte ((d .<< 4) .| (v .& EB_DATAX))) as Hb.
  { intros d v Hd' Hv.
    pose proof (byte_forall2 (fun d v => implb (d <? 16)
      (((d .| (v .& EB_ADDRX)) <? 256) && (((d .<< 4) .| (v .& EB_DATAX)) <? 256)
       && (0 <=? (d .| (v .& EB_ADDRX))) && (0 <=? ((d .<< 4) .| (v .& EB_DATAX)))))
      ltac:(by vm_compute) d v ltac:(lia) Hv) as H'. cbv beta in H'.
    rewrite (proj2 (Z.ltb_lt d 16)) in H' by lia. cbn [implb] in H'. bool_hyps. lia. }
  destruct (Hb (data_bits w) w0 Hd Hw0) as [H1 _]. destruct (Hb (addr_bits w) w0 Ha Hw0) as [_ H2].
  rewrite !(proj2 (Z.ltb_ge _ 0)) by lia. unfold wrap. rewrite !Z.mod_small by lia. done.
Qed.

Lemma width_print_parse_witness :
  eb_width_parse_data (cstr (eb_width_data 0xa6)) 0x11 = (EB_OK, 0x16) /\
  eb_width_parse_address (cstr (eb_width_address 0xa6)) 0x11 = (EB_OK, 0xa1).
Proof. apply (width_print_parse 0xa6 0x11); [lia | lia | reflexivity]. Defined.
