(* ===== verification/Store.v ===== *)
(** The object store of the Etherbone library: the tagged cells of
    [union eb_memory_item] (src/api/memory/memory-array.h), the free-list
    allocator (src/api/memory/array.c, dynamic.c, static.c), the state monad in
    which the library's functions run, and singly linked lists of cells. *)
From stdpp Require Import base list gmap.
From Stdlib Require Import ZArith Lia.
From S2P Require Import Prelude Widths.

(** * Objects (glue/*.h, transport/transport.h) *)

(** [EB_POINTER] is a 16-bit index into the pool. *)
Definition EB_NULL : Z := 0xffff.

(** A function pointer of type [eb_callback_t]: the library's own callbacks by
    name, user callbacks by an identifier. *)
Inductive eb_callback :=
  | cb_block_f
  | cb_sdb_got_header_ptr
  | cb_sdb_got_header
  | cb_sdb_got_all
  | cb_user (f : Z).

#[global] Instance eb_callback_eq_dec : EqDecision eb_callback.
Proof. solve_decision. Defined.

(** A function pointer of type [sdb_callback_t]. *)
Inductive sdb_callback_t :=
  | cb_find_by_address
  | cb_find_by_identity
  | cb_sdb_user (f : Z).

Record eb_operation := mk_operation {
  op_address : Z; op_value : Z; op_flags : Z; op_format : Z; op_next : Z }.
Record eb_cycle := mk_cycle {
  cy_callback : eb_callback; cy_user_data : Z; cy_ops : Z; cy_link : Z }.
Record eb_device := mk_device {
  dv_socket : Z; dv_next : Z; dv_un_link : Z; dv_unready : Z; dv_widths : Z;
  dv_link : Z; dv_transport : Z }.
Record eb_response := mk_response {
  rs_address : Z; rs_deadline : Z; rs_next : Z; rs_cycle : Z;
  rs_write_cursor : Z; rs_status_cursor : Z }.
Record eb_socket_aux := mk_socket_aux {
  ax_time_cache : Z; ax_rba : Z; ax_first_transport : Z }.
Record eb_socket := mk_socket {
  sk_first_device : Z; sk_first_handler : Z; sk_first_response : Z;
  sk_last_response : Z; sk_aux : Z; sk_widths : Z }.
(** [hc_read]/[hc_write] are function pointers, [0] when absent. *)
Record eb_handler_callback := mk_handler_callback {
  hc_data : Z; hc_read : Z; hc_write : Z }.
Record eb_handler_address := mk_handler_address {
  ha_device : Z; ha_callback : Z; ha_next : Z }.
Record eb_transport := mk_transport {
  tr_raw : list Z; tr_link_type : Z; tr_next : Z }.
Record eb_link := mk_link { ln_raw : list Z }.
Record eb_sdb_scan := mk_sdb_scan {
  sc_user_data : Z; sc_cb : sdb_callback_t; sc_bus_base : Z }.

(** [union eb_memory_item]. The C union is untagged; a cell remembers here which
    member was last stored, [IRaw] being an allocated cell not yet written. *)
Inductive item :=
  | IFree (next : Z)
  | IRaw
  | IOperation (o : eb_operation)
  | ICycle (c : eb_cycle)
  | IDevice (d : eb_device)
  | ISocket (s : eb_socket)
  | ISocketAux (a : eb_socket_aux)
  | IHandlerCallback (h : eb_handler_callback)
  | IHandlerAddress (h : eb_handler_address)
  | IResponse (r : eb_response)
  | ITransport (t : eb_transport)
  | ILink (l : eb_link)
  | ISdbScan (s : eb_sdb_scan).

Definition is_free (it : item) : bool := match it with IFree _ => true | _ => false end.

(** * The pool *)

Definition EB_END_OF_FREE : Z := EB_NULL.

Record pool := mk_pool {
  cells : gmap Z item;         (* eb_memory_array *)
  pl_free : Z;                 (* eb_memory_free *)
  pl_used : Z;                 (* eb_memory_used *)
  pl_size : Z }.               (* eb_memory_array_size *)

(** [for (i = first; i != first + n; ++i) array[i].free_item.next = i+1;] *)
Fixpoint link_cells (n : nat) (i : Z) (m : gmap Z item) : gmap Z item :=
  match n with
  | O => m
  | S k => link_cells k (i + 1) (<[i := IFree (u16 (i + 1))]> m)
  end.

Module Dynamic.
(** Static initialisers of dynamic.c / array.c. *)
Definition initial : pool := mk_pool ∅ EB_END_OF_FREE 0 128.

(** [eb_expand_array]; [malloc_ok n] is the allocator's answer to the request
    for [n] items. [None] is the return value [-1]. *)
Definition eb_expand_array (malloc_ok : Z -> bool) (p : pool) : option pool :=
  if pl_size p =? 65536 then None
  else
    let next_size := u32 (pl_size p + pl_size p) in
    if negb (malloc_ok next_size) then None
    else
      let m := link_cells (Z.to_nat (next_size - pl_size p)) (pl_size p) (cells p) in
      let m := <[next_size - 1 := IFree EB_END_OF_FREE]> m in
      Some (mk_pool m (u16 (pl_size p)) (pl_used p) next_size).
End Dynamic.

Module Static.
(** static.c keeps the flag [setup] in a local static; the pool is set up
    exactly when it has cells. [n] is [EB_USE_STATIC]. *)
Definition initial (n : Z) : pool := mk_pool ∅ EB_END_OF_FREE 0 n.

Definition eb_expand_array (p : pool) : option pool :=
  if decide (cells p ≠ ∅) then None
  else
    let m := link_cells (Z.to_nat (pl_size p)) 0 (cells p) in
    let m := <[pl_size p - 1 := IFree EB_END_OF_FREE]> m in
    Some (mk_pool m 0 (pl_used p) (pl_size p)).
End Static.

(** array.c. The result [EB_NULL] is out-of-memory; [None] is a dangling
    free-list head, which the invariant below excludes. *)
Definition eb_new_memory_item (expand : pool -> option pool) (p : pool) : option (Z * pool) :=
  match (if pl_free p =? EB_END_OF_FREE then expand p else Some p) with
  | None => Some (EB_NULL, p)
  | Some p =>
    let alloc := pl_free p in
    match cells p !! alloc with
    | Some (IFree next) =>
        Some (alloc, mk_pool (<[alloc := IRaw]> (cells p)) next (u16 (pl_used p + 1)) (pl_size p))
    | _ => None
    end
  end.

(** Freeing a cell that is already free is an error of the caller: [None]. *)
Definition eb_free_memory_item (x : Z) (p : pool) : option pool :=
  match cells p !! x with
  | None => None
  | Some it => if is_free it then None else
      Some (mk_pool (<[x := IFree (pl_free p)]> (cells p)) x (u16 (pl_used p - 1)) (pl_size p))
  end.

(** Writing through [EB_CYCLE(x)->... = ...] and the like: the cell is allocated. *)
Definition pool_put (x : Z) (it : item) (p : pool) : option pool :=
  match cells p !! x with
  | None => None
  | Some it0 => if is_free it0 then None
                else Some (mk_pool (<[x := it]> (cells p)) (pl_free p) (pl_used p) (pl_size p))
  end.

(** ** The free list and the pool invariant *)

Fixpoint free_list (m : gmap Z item) (p : Z) (l : list Z) : Prop :=
  match l with
  | [] => p = EB_END_OF_FREE
  | x :: l' => p = x /\ x <> EB_END_OF_FREE /\
               exists n, m !! x = Some (IFree n) /\ free_list m n l'
  end.

(** Allocated cells. *)
Definition live (m : gmap Z item) (x : Z) : Prop :=
  exists it, m !! x = Some it /\ is_free it = false.

Definition live_set (m : gmap Z item) : gset Z := dom (filter (fun kv => is_free kv.2 = false) m).

(** The free list is finite and contains exactly the free cells that can be
    named; every cell lies in the array and [eb_memory_used] counts the
    allocated ones. *)
Record pool_wf (p : pool) : Prop := {
  wf_list : exists l, free_list (cells p) (pl_free p) l /\
              (forall x n, cells p !! x = Some (IFree n) -> x <> EB_NULL -> x ∈ l);
  wf_null : ~ live (cells p) EB_NULL;
  wf_range : forall x it, cells p !! x = Some it -> 0 <= x < pl_size p;
  wf_used : pl_used p = Z.of_nat (size (live_set (cells p)));
  wf_size : 0 < pl_size p <= 65536 }.

Lemma elem_of_live_set m x : x ∈ live_set m <-> live m x.
Proof.
  unfold live_set, live. rewrite elem_of_dom. split.
  - intros [it [H1 H2]%map_lookup_filter_Some]. eauto.
  - intros (it & H1 & H2). exists it. by apply map_lookup_filter_Some.
Qed.

Lemma free_list_det m p l1 l2 : free_list m p l1 -> free_list m p l2 -> l1 = l2.
Proof.
  revert p l2. induction l1 as [|x l1 IH]; intros p [|y l2]; cbn; intros H1 H2.
  - done.
  - destruct H2 as (-> & ? & _). done.
  - destruct H1 as (-> & ? & _). done.
  - destruct H1 as (-> & _ & n & E1 & H1), H2 as (-> & _ & n' & E2 & H2).
    rewrite E1 in E2. injection E2 as <-. f_equal. eauto.
Qed.

(** Every node of the list starts a suffix of it. *)
Lemma free_list_suffix m p l x :
  free_list m p l -> x ∈ l -> exists l', free_list m x (x :: l') /\ (length (x :: l') <= length l)%nat.
Proof.
  revert p. induction l as [|y l IH]; intros p Hl Hx; [by apply elem_of_nil in Hx|].
  cbn in Hl. destruct Hl as (-> & Hy & n & E & Hl).
  apply elem_of_cons in Hx as [->|Hx].
  - exists l. split; [cbn; eauto|done].
  - destruct (IH n Hl Hx) as (l' & H1 & H2). exists l'. split; [done|cbn [length] in *; lia].
Qed.

Lemma free_list_NoDup m p l : free_list m p l -> NoDup l.
Proof.
  revert p. induction l as [|y l IH]; intros p Hl; [constructor|].
  pose proof Hl as (-> & Hy & n & E & Hl').
  constructor; [|eauto]. intros Hin.
  destruct (free_list_suffix m n l y Hl' Hin) as (l' & H1 & H2).
  pose proof (free_list_det _ _ _ _ Hl H1) as Heq. injection Heq as <-. cbn in H2. lia.
Qed.

Lemma free_list_free m p l x : free_list m p l -> x ∈ l -> exists n, m !! x = Some (IFree n).
Proof.
  intros Hl Hx. destruct (free_list_suffix m p l x Hl Hx) as (l' & H & _).
  destruct H as (_ & _ & n & E & _). eauto.
Qed.

Lemma free_list_insert_ne m p l x it :
  x ∉ l -> free_list (<[x := it]> m) p l <-> free_list m p l.
Proof.
  revert p. induction l as [|y l IH]; intros p Hx; cbn [free_list]; [done|].
  apply not_elem_of_cons in Hx as [Hxy Hx].
  rewrite lookup_insert_ne by done. split; intros (-> & H & n & E & Hl);
    (split; [done|split; [done|exists n; split; [done|by apply IH]]]).
Qed.

Lemma live_insert_free m x n :
  live_set (<[x := IFree n]> m) = live_set m ∖ {[x]}.
Proof.
  apply set_eq. intros y. rewrite elem_of_difference, elem_of_singleton, !elem_of_live_set.
  unfold live. destruct (decide (x = y)) as [->|Hne].
  - rewrite lookup_insert_eq. split; [|naive_solver]. intros (it & [= <-] & ?). done.
  - rewrite lookup_insert_ne by done. naive_solver.
Qed.

Lemma live_insert_used m x it :
  is_free it = false -> live_set (<[x := it]> m) = {[x]} ∪ live_set m.
Proof.
  intros Hit. apply set_eq. intros y. rewrite elem_of_union, elem_of_singleton, !elem_of_live_set.
  unfold live. destruct (decide (x = y)) as [->|Hne].
  - rewrite lookup_insert_eq. naive_solver.
  - rewrite lookup_insert_ne by done. naive_solver.
Qed.

(** ** Growing the pool *)

Lemma lookup_link_cells n i m x :
  link_cells n i m !! x =
  if (i <=? x) && (x <? i + Z.of_nat n) then Some (IFree (u16 (x + 1))) else m !! x.
Proof.
  revert i m. induction n as [|n IH]; intros i m; cbn [link_cells].
  - case_if; [bool_hyps; lia|done].
  - rewrite IH. destruct (decide (x = i)) as [->|Hne].
    + rewrite lookup_insert_eq. zcases. done.
    + rewrite lookup_insert_ne by done. zcases; done.
Qed.

Lemma free_list_seq m k i :
  0 <= i -> i + Z.of_nat k < EB_NULL ->
  (forall x, i <= x < i + Z.of_nat k -> m !! x = Some (IFree (x + 1))) ->
  m !! (i + Z.of_nat k) = Some (IFree EB_END_OF_FREE) ->
  free_list m i (seqZ i (Z.of_nat (S k))).
Proof.
  revert i. induction k as [|k IH]; intros i Hi Hk Hx Hl; rewrite seqZ_cons by lia; cbn [free_list].
  - split; [done|]. split; [unfold EB_END_OF_FREE; lia|].
    exists EB_END_OF_FREE. rewrite Z.add_0_r in Hl. split; [done|]. by rewrite seqZ_nil by lia.
  - split; [done|]. split; [unfold EB_END_OF_FREE; lia|].
    exists (i + 1). split; [apply Hx; lia|].
    replace (Z.pred (Z.of_nat (S (S k)))) with (Z.of_nat (S k)) by lia.
    replace (Z.succ i) with (i + 1) by lia. apply IH; [lia|lia| |].
    + intros x Hx'. apply Hx. lia.
    + by replace (i + 1 + Z.of_nat k) with (i + Z.of_nat (S k)) by lia.
Qed.

(** What [eb_expand_array] promises to the allocator: called on an exhausted
    pool it either fails or returns a pool that satisfies the invariant, has a
    free cell and keeps the same contents in every allocated cell. *)
Class PoolExpander (expand : pool -> option pool) : Type := {
  size_ok : Z -> Prop;
  expand_ok : forall p p', pool_wf p -> size_ok (pl_size p) -> pl_free p = EB_END_OF_FREE ->
    expand p = Some p' ->
    pool_wf p' /\ size_ok (pl_size p') /\ pl_free p' <> EB_END_OF_FREE /\
    (forall x, live (cells p') x <-> live (cells p) x) /\
    (forall x it, cells p !! x = Some it -> is_free it = false -> cells p' !! x = Some it) }.

Section expand.
(** Both implementations link the fresh range [first, size) into a list. *)
Context (p : pool) (first size : Z).
Hypothesis Hwf : pool_wf p.
Hypothesis Hfree : pl_free p = EB_END_OF_FREE.
Hypothesis Hrange : 0 <= first < EB_NULL.
Hypothesis Hsize : first < size <= 65536.
Hypothesis Hfresh : forall x it, cells p !! x = Some it -> 0 <= x < first.

Let m := <[size - 1 := IFree EB_END_OF_FREE]>
           (link_cells (Z.to_nat (size - first)) first (cells p)).

Lemma linked_lookup x :
  m !! x = if decide (first <= x < size)
           then Some (IFree (if decide (x = size - 1) then EB_END_OF_FREE else x + 1))
           else cells p !! x.
Proof.
  unfold m. destruct (decide (x = size - 1)) as [->|Hne].
  - rewrite lookup_insert_eq. rewrite !decide_True by lia. done.
  - rewrite lookup_insert_ne, lookup_link_cells by done.
    destruct (decide (first <= x < size)) as [Hin|Hout].
    + rewrite (proj2 (Z.leb_le first x)), (proj2 (Z.ltb_lt x _)) by lia. cbn [andb].
      rewrite wrap_small by lia. done.
    + destruct (first <=? x) eqn:E1; [|done]. destruct (x <? _) eqn:E2; [|done]. bool_hyps. lia.
Qed.

Lemma linked_live x : live m x <-> live (cells p) x.
Proof.
  unfold live. rewrite linked_lookup. destruct (decide (first <= x < size)) as [Hin|Hout]; [|done].
  split; [intros (it & [= <-] & ?); done|].
  intros (it & H & _). apply Hfresh in H. lia.
Qed.

Lemma linked_keeps x it :
  cells p !! x = Some it -> m !! x = Some it.
Proof. intros H. rewrite linked_lookup. apply Hfresh in H as ?. by rewrite decide_False by lia. Qed.

Lemma linked_wf : pool_wf (mk_pool m first (pl_used p) size).
Proof.
  set (last := Z.min (size - 1) (EB_NULL - 1)).
  destruct (wf_list p Hwf) as (l0 & Hl0 & Hall).
  rewrite Hfree in Hl0. destruct l0 as [|y l0]; [|cbn in Hl0; destruct Hl0 as (<- & ? & _); done].
  constructor; cbn [cells pl_free pl_used pl_size].
  - exists (seqZ first (Z.of_nat (S (Z.to_nat (last - first))))). unfold last, EB_NULL in *. split.
    + apply free_list_seq; unfold EB_NULL; [lia|lia| |].
      * intros x Hx. rewrite linked_lookup, decide_True, decide_False by lia. done.
      * rewrite linked_lookup, decide_True by lia.
        destruct (decide _) as [|Hn]; [done|]. do 2 f_equal. unfold EB_END_OF_FREE, EB_NULL. lia.
    + intros x n Hx Hn. rewrite linked_lookup in Hx. apply elem_of_seqZ.
      destruct (decide (first <= x < size)) as [Hin|Hout]; [lia|].
      exfalso. by eapply not_elem_of_nil, Hall.
  - rewrite linked_live. apply (wf_null p Hwf).
  - intros x it Hx. rewrite linked_lookup in Hx.
    destruct (decide (first <= x < size)) as [Hin|Hout]; [lia|].
    apply Hfresh in Hx. lia.
  - rewrite (wf_used p Hwf). do 2 f_equal. apply set_eq. intros x.
    by rewrite !elem_of_live_set, linked_live.
  - lia.
Qed.
End expand.

#[export] Program Instance dynamic_expander malloc_ok :
    PoolExpander (Dynamic.eb_expand_array malloc_ok) :=
  {| size_ok n := exists k, 0 <= k <= 9 /\ n = 128 * 2 ^ k |}.
Next Obligation.
  intros malloc_ok p p' Hwf (k & Hk & Hs) Hf. unfold Dynamic.eb_expand_array.
  case_if; [done|]. case_if; [done|]. intros [= <-]. bool_hyps.
  assert (k <> 9) by (intros ->; rewrite Hs in *; done).
  assert (2 ^ k <= 2 ^ 8) by (apply Z.pow_le_mono_r; lia).
  assert (2 ^ 0 <= 2 ^ k) by (apply Z.pow_le_mono_r; lia).
  assert (pl_size p <= 32768 /\ 128 <= pl_size p) as [Hle Hge] by (rewrite Hs; lia).
  rewrite (wrap_small 32), (wrap_small 16) by lia.
  assert (forall x it, cells p !! x = Some it -> 0 <= x < pl_size p) as Hfresh by apply (wf_range p Hwf).
  split; [apply linked_wf; unfold EB_NULL; (done || lia || auto)|]. cbn [cells pl_free pl_size].
  split; [exists (k + 1); rewrite Z.pow_add_r by lia; lia|].
  split; [unfold EB_END_OF_FREE, EB_NULL; lia|].
  split; [intros x; apply linked_live; unfold EB_NULL; (done || lia || auto)|].
  intros x it Hx _. apply linked_keeps; unfold EB_NULL; (done || lia || auto).
Qed.

#[export] Program Instance static_expander : PoolExpander Static.eb_expand_array :=
  {| size_ok n := 0 < n <= 65535 |}.
Next Obligation.
  intros p p' Hwf Hs Hf. cbv beta in Hs. unfold Static.eb_expand_array.
  destruct (decide (cells p ≠ ∅)) as [|He]; [done|]. intros [= <-].
  apply dec_stable in He.
  assert (forall x it, cells p !! x = Some it -> 0 <= x < 0) as Hfresh
    by (rewrite He; intros x it H; by rewrite lookup_empty in H).
  replace (Z.to_nat (pl_size p)) with (Z.to_nat (pl_size p - 0)) by (f_equal; lia).
  split; [apply linked_wf; unfold EB_NULL; (done || lia || auto)|]. cbn [cells pl_free pl_size].
  split; [exact Hs|]. split; [done|].
  split; [intros x; apply linked_live; unfold EB_NULL; (done || lia || auto)|].
  intros x it Hx _. rewrite He, lookup_empty in Hx. done.
Qed.

(** ** Allocation and release *)

Lemma size_live_bound m :
  (forall x it, m !! x = Some it -> 0 <= x < 65536) -> ~ live m EB_NULL ->
  Z.of_nat (size (live_set m)) <= 65535.
Proof.
  intros Hr Hnull.
  assert (live_set m ⊆ list_to_set (seqZ 0 65535)) as Hsub.
  { intros x Hx%elem_of_live_set. apply elem_of_list_to_set, elem_of_seqZ.
    destruct Hx as (it & Hx & Hit). pose proof (Hr x it Hx).
    destruct (decide (x = EB_NULL)) as [->|]; [|unfold EB_NULL in *; lia].
    destruct Hnull. by exists it. }
  apply subseteq_size in Hsub. rewrite size_list_to_set, length_seqZ in Hsub by apply NoDup_seqZ. lia.
Qed.

Lemma pool_wf_replace p x it it' :
  pool_wf p -> cells p !! x = Some it -> is_free it = false -> is_free it' = false ->
  pool_wf (mk_pool (<[x := it']> (cells p)) (pl_free p) (pl_used p) (pl_size p)).
Proof.
  intros Hwf Hx Hit Hit'. destruct (wf_list p Hwf) as (l & Hl & Hall).
  assert (x ∉ l) as Hxl.
  { intros Hin. destruct (free_list_free _ _ _ _ Hl Hin) as (n & Hn). rewrite Hn in Hx.
    injection Hx as <-. done. }
  assert (live_set (<[x := it']> (cells p)) = live_set (cells p)) as Hlive.
  { rewrite live_insert_used by done. apply set_eq. intros y.
    rewrite elem_of_union, elem_of_singleton. split; [|by right].
    intros [->|]; [|done]. apply elem_of_live_set. by exists it. }
  constructor; cbn [cells pl_free pl_used pl_size].
  - exists l. split; [by apply free_list_insert_ne|].
    intros y n Hy. destruct (decide (x = y)) as [->|Hne].
    + rewrite lookup_insert_eq in Hy. injection Hy as ->. done.
    + rewrite lookup_insert_ne in Hy by done. by apply (Hall y n).
  - rewrite <- elem_of_live_set, Hlive, elem_of_live_set. apply (wf_null p Hwf).
  - intros y it0. destruct (decide (x = y)) as [->|Hne].
    + intros _. by apply (wf_range p Hwf y it).
    + rewrite lookup_insert_ne by done. apply (wf_range p Hwf).
  - rewrite Hlive. apply (wf_used p Hwf).
  - apply (wf_size p Hwf).
Qed.

Lemma take_free_wf p x n :
  pool_wf p -> pl_free p = x -> x <> EB_END_OF_FREE -> cells p !! x = Some (IFree n) ->
  pool_wf (mk_pool (<[x := IRaw]> (cells p)) n (u16 (pl_used p + 1)) (pl_size p)).
Proof.
  intros Hwf Hf Hx Hc. destruct (wf_list p Hwf) as (l & Hl & Hall).
  rewrite Hf in Hl. destruct l as [|y l]; [done|].
  pose proof (free_list_NoDup _ _ _ Hl) as Hnd. apply NoDup_cons in Hnd as [Hyl _].
  destruct Hl as (-> & _ & n' & Hn & Hl). rewrite Hc in Hn. injection Hn as <-.
  assert (~ live (cells p) y) as Hdead by (intros (it & H1 & H2); rewrite Hc in H1; by injection H1 as <-).
  assert (y ∉ live_set (cells p)) as Hnl by (by rewrite elem_of_live_set).
  constructor; cbn [cells pl_free pl_used pl_size].
  - exists l. split; [by apply free_list_insert_ne|].
    intros z k Hz Hnull. destruct (decide (y = z)) as [->|Hne].
    + by rewrite lookup_insert_eq in Hz.
    + rewrite lookup_insert_ne in Hz by done.
      specialize (Hall z k Hz Hnull). set_solver.
  - rewrite <- elem_of_live_set, live_insert_used by done.
    pose proof (wf_null p Hwf) as H0. rewrite <- elem_of_live_set in H0. set_solver.
  - intros z it Hz. destruct (decide (y = z)) as [->|Hne].
    + by apply (wf_range p Hwf z (IFree n)).
    + rewrite lookup_insert_ne in Hz by done. by apply (wf_range p Hwf z it).
  - rewrite live_insert_used, size_union, size_singleton by (done || set_solver).
    pose proof (size_live_bound (<[y := IRaw]> (cells p))) as Hb.
    rewrite live_insert_used, size_union, size_singleton in Hb by (done || set_solver).
    rewrite (wf_used p Hwf). rewrite wrap_small; [lia|].
    cut (Z.of_nat (1 + size (live_set (cells p))) <= 65535); [lia|]. apply Hb.
    + intros z it Hz. pose proof (wf_size p Hwf). destruct (decide (y = z)) as [->|Hne].
      * pose proof (wf_range p Hwf z (IFree n) Hc). lia.
      * rewrite lookup_insert_ne in Hz by done. pose proof (wf_range p Hwf z it Hz). lia.
    + rewrite <- elem_of_live_set, live_insert_used by done.
      pose proof (wf_null p Hwf) as H0. rewrite <- elem_of_live_set in H0. set_solver.
  - apply (wf_size p Hwf).
Qed.

(** The outcome of an allocation on a well-formed pool. *)
Definition alloc_post (p : pool) (x : Z) (p' : pool) : Prop :=
  x <> EB_NULL /\ ~ live (cells p) x /\ cells p' !! x = Some IRaw /\
  (forall y, live (cells p') y <-> y = x \/ live (cells p) y) /\
  (forall y it, live (cells p) y -> cells p !! y = Some it -> cells p' !! y = Some it) /\
  pool_wf p'.

Lemma alloc_head p :
  pool_wf p -> pl_free p <> EB_END_OF_FREE ->
  exists n, cells p !! pl_free p = Some (IFree n) /\
    alloc_post p (pl_free p)
      (mk_pool (<[pl_free p := IRaw]> (cells p)) n (u16 (pl_used p + 1)) (pl_size p)).
Proof.
  intros Hwf Hf. destruct (wf_list p Hwf) as ([|x l] & Hl & Hall); [done|].
  destruct Hl as (Hx & Hne & n & Hn & Hl). subst x. exists n. split; [done|].
  assert (~ live (cells p) (pl_free p)) as Hdead
    by (intros (it & H1 & H2); rewrite Hn in H1; by injection H1 as <-).
  split_and!; cbn [cells].
  - done.
  - done.
  - apply lookup_insert_eq.
  - intros y. rewrite <- !elem_of_live_set, live_insert_used by done. set_solver.
  - intros y it Hy Hyit. rewrite lookup_insert_ne; [done|]. intros Heq; by subst y.
  - by apply take_free_wf.
Qed.

Lemma eb_new_memory_item_spec expand `{Hexp : !PoolExpander expand} p :
  pool_wf p -> size_ok (pl_size p) ->
  exists x p', eb_new_memory_item expand p = Some (x, p') /\ size_ok (pl_size p') /\
    ((x = EB_NULL /\ p' = p /\ pl_free p = EB_END_OF_FREE /\ expand p = None) \/ alloc_post p x p').
Proof.
  intros Hwf Hs. unfold eb_new_memory_item. case_if; bool_hyps.
  - destruct (expand p) as [q|] eqn:Eq; [|by eexists _, p; eauto 10].
    destruct (expand_ok p q Hwf Hs E Eq) as (Hwf' & Hs' & Hf' & Hlive & Hkeep).
    destruct (alloc_head q Hwf' Hf') as (n & Hn & H1 & H2 & H3 & H4 & H5 & H6).
    rewrite Hn. eexists _, _. split; [done|]. split; [done|]. right.
    split_and!; [done|by rewrite <- Hlive|done|intros y; by rewrite H4, Hlive| |done].
    intros y it Hy Hit. apply H5; [by apply Hlive|]. apply Hkeep; [done|].
    destruct Hy as (it' & Hy1 & Hy2). rewrite Hit in Hy1. by injection Hy1 as ->.
  - destruct (alloc_head p Hwf E) as (n & Hn & Hpost). rewrite Hn. eauto 10.
Qed.

Lemma eb_free_memory_item_spec p x :
  pool_wf p -> live (cells p) x ->
  exists p', eb_free_memory_item x p = Some p' /\ pool_wf p' /\ pl_free p' = x /\
    pl_size p' = pl_size p /\
    (forall y, live (cells p') y <-> y <> x /\ live (cells p) y) /\
    (forall y, y <> x -> cells p' !! y = cells p !! y) /\
    cells p' !! x = Some (IFree (pl_free p)).
Proof.
  intros Hwf (it & Hx & Hit). unfold eb_free_memory_item. rewrite Hx, Hit.
  destruct (wf_list p Hwf) as (l & Hl & Hall).
  assert (x ∉ l) as Hxl.
  { intros Hin. destruct (free_list_free _ _ _ _ Hl Hin) as (n & Hn). rewrite Hn in Hx.
    injection Hx as <-. done. }
  assert (x <> EB_NULL) as Hxn by (intros ->; by destruct (wf_null p Hwf); exists it).
  assert (x ∈ live_set (cells p)) as Hxs by (apply elem_of_live_set; by exists it).
  eexists. split; [done|]. cbn [cells pl_free pl_size]. split_and!.
  - constructor; cbn [cells pl_free pl_used pl_size].
    + exists (x :: l). split.
      * split; [done|]. split; [done|]. exists (pl_free p). rewrite lookup_insert_eq.
        split; [done|]. by apply free_list_insert_ne.
      * intros y n Hy Hnull. apply elem_of_cons. destruct (decide (x = y)) as [|Hne]; [by left|].
        rewrite lookup_insert_ne in Hy by done. right. by apply (Hall y n).
    + rewrite <- elem_of_live_set, live_insert_free.
      pose proof (wf_null p Hwf) as H0. rewrite <- elem_of_live_set in H0. set_solver.
    + intros y it0. destruct (decide (x = y)) as [->|Hne].
      * intros _. by apply (wf_range p Hwf y it).
      * rewrite lookup_insert_ne by done. apply (wf_range p Hwf).
    + rewrite live_insert_free, size_difference, size_singleton by set_solver.
      assert (size (live_set (cells p)) <> 0%nat) by (rewrite size_non_empty_iff; set_solver).
      rewrite (wf_used p Hwf).
      assert (Z.of_nat (size (live_set (cells p))) <= 65535) as Hb.
      { apply size_live_bound; [|apply (wf_null p Hwf)].
        intros y it0 Hy. pose proof (wf_range p Hwf y it0 Hy). pose proof (wf_size p Hwf). lia. }
      rewrite wrap_small; lia.
    + apply (wf_size p Hwf).
  - done.
  - done.
  - intros y. rewrite <- !elem_of_live_set, live_insert_free. set_solver.
  - intros y Hy. by rewrite lookup_insert_ne.
  - apply lookup_insert_eq.
Qed.

(** Rewriting allocated cells, however many, keeps the invariant. *)
Lemma pool_wf_relink m' p :
  pool_wf p -> (forall x, m' !! x = cells p !! x \/ live (cells p) x /\ live m' x) ->
  pool_wf (mk_pool m' (pl_free p) (pl_used p) (pl_size p)) /\
  (forall x, live m' x <-> live (cells p) x).
Proof.
  intros Hwf Hrel.
  assert (forall x, live m' x <-> live (cells p) x) as Hlive.
  { intros x. destruct (Hrel x) as [E|[? ?]]; [unfold live; by rewrite E|done]. }
  assert (forall x n, m' !! x = Some (IFree n) <-> cells p !! x = Some (IFree n)) as Hfree.
  { intros x n. destruct (Hrel x) as [->|[(it & E & F) (it' & E' & F')]]; [done|].
    rewrite E, E'. split; intros [= ->]; done. }
  split; [|done]. destruct (wf_list p Hwf) as (l & Hl & Hall).
  constructor; cbn [cells pl_free pl_used pl_size].
  - exists l. split; [|intros x n Hx; apply (Hall x n); by apply Hfree].
    clear Hall. revert Hl. generalize (pl_free p). induction l as [|y l IH]; intros q; [done|].
    intros (-> & Hy & n & E & Hl). split; [done|]. split; [done|]. exists n.
    split; [by apply Hfree|by apply IH].
  - rewrite Hlive. apply (wf_null p Hwf).
  - intros x it E. destruct (Hrel x) as [E'|[(it' & E' & _) _]]; eapply (wf_range p Hwf);
      [by rewrite <- E'|done].
  - rewrite (wf_used p Hwf). do 2 f_equal. apply set_eq. intros x. by rewrite !elem_of_live_set, Hlive.
  - apply (wf_size p Hwf).
Qed.

(** The pool before the first allocation. *)
Lemma initial_wf n : 0 < n <= 65536 -> pool_wf (mk_pool ∅ EB_END_OF_FREE 0 n).
Proof.
  intros Hn. constructor; cbn [cells pl_free pl_used pl_size].
  - exists []. split; [done|]. intros x k H. by rewrite lookup_empty in H.
  - intros (it & H & _). by rewrite lookup_empty in H.
  - intros x it H. by rewrite lookup_empty in H.
  - done.
  - done.
Qed.

(** ** A pool with given contents *)

(** Cells [0 .. length its - 1] hold [its]; the rest of the first 128 are free. *)
Definition seed (its : list item) : pool :=
  let n := Z.of_nat (length its) in
  mk_pool (<[127 := IFree EB_END_OF_FREE]> (link_cells (Z.to_nat (128 - n)) n (map_seqZ 0 its)))
          n n 128.

Lemma size_seqZ_cells (its : list item) : size (dom (map_seqZ 0 its : gmap Z item)) = length its.
Proof.
  generalize 0. induction its as [|it its IH]; intros k; [done|]. cbn [map_seqZ].
  rewrite dom_insert_L, size_union, size_singleton, IH; [done|].
  apply disjoint_singleton_l. rewrite elem_of_dom. intros [it' Hx].
  apply lookup_map_seqZ_Some in Hx as [Hx _]. lia.
Qed.

Lemma seed_base its :
  Forall (fun it => is_free it = false) its -> (length its < 128)%nat ->
  pool_wf (mk_pool (map_seqZ 0 its) EB_END_OF_FREE (Z.of_nat (length its)) 128).
Proof.
  intros Hf Hn.
  assert (forall x it, (map_seqZ 0 its : gmap Z item) !! x = Some it ->
            0 <= x < Z.of_nat (length its) /\ is_free it = false) as Hin.
  { intros x it Hx. apply lookup_map_seqZ_Some in Hx as [H0 Hx].
    split; [apply lookup_lt_Some in Hx; lia|]. eapply Forall_lookup_1 in Hf; [|exact Hx]. done. }
  constructor; cbn [cells pl_free pl_used pl_size].
  - exists []. split; [done|]. intros x n Hx _. by destruct (Hin _ _ Hx).
  - intros (it & Hx & _). destruct (Hin _ _ Hx). unfold EB_NULL in *. lia.
  - intros x it Hx. destruct (Hin _ _ Hx). lia.
  - f_equal. rewrite <- (size_seqZ_cells its) at 1. f_equal. apply set_eq. intros x.
    rewrite elem_of_live_set, elem_of_dom. split.
    + intros [it Hx]. exists it. by destruct (Hin _ _ Hx).
    + intros (it & Hx & _). by exists it.
  - lia.
Qed.

Lemma seed_wf its :
  Forall (fun it => is_free it = false) its -> (length its < 128)%nat -> pool_wf (seed its).
Proof.
  intros Hf Hn. pose proof (seed_base its Hf Hn) as Hb.
  apply (linked_wf _ (Z.of_nat (length its)) 128 Hb); cbn; try (unfold EB_NULL; lia).
  intros x it Hx. apply lookup_map_seqZ_Some in Hx as [H0 Hx]. apply lookup_lt_Some in Hx. lia.
Qed.

(** ** The allocator against its specification *)

(** A client of the allocator: it asks for cells and gives back the [i]-th cell
    it holds. *)
Inductive alloc_op := ANew | AFree (i : nat).

Fixpoint run_client (expand : pool -> option pool) (ops : list alloc_op) (p : pool) (held : list Z)
    : option (pool * list Z) :=
  match ops with
  | [] => Some (p, held)
  | ANew :: ops =>
      match eb_new_memory_item expand p with
      | Some (x, p') => run_client expand ops p' (if x =? EB_NULL then held else x :: held)
      | None => None
      end
  | AFree i :: ops =>
      match held !! i with
      | Some x => match eb_free_memory_item x p with
                  | Some p' => run_client expand ops p' (delete i held)
                  | None => None
                  end
      | None => run_client expand ops p held
      end
  end.

(** The client holds exactly the allocated cells, each once. *)
Definition holds (p : pool) (held : list Z) : Prop :=
  NoDup held /\ (forall x, live (cells p) x <-> x ∈ held).

Lemma holds_spec p held : pool_wf p -> holds p held ->
  pl_used p = Z.of_nat (length held) /\ forall x, x ∈ held -> 0 <= x < pl_size p /\ x <> EB_NULL.
Proof.
  intros Hwf [Hnd Hl]. split.
  - rewrite (wf_used p Hwf), <- (size_list_to_set (C := gset Z) held Hnd). do 2 f_equal.
    apply set_eq. intros x. by rewrite elem_of_live_set, Hl, elem_of_list_to_set.
  - intros x Hx. apply Hl in Hx as Hx'. split.
    + destruct Hx' as (it & E & _). by apply (wf_range p Hwf x it).
    + intros ->. by apply (wf_null p Hwf).
Qed.

Lemma elem_of_delete_NoDup (l : list Z) i x y :
  NoDup l -> l !! i = Some x -> y ∈ delete i l <-> y <> x /\ y ∈ l.
Proof.
  intros Hnd Hi. rewrite (delete_Permutation l i x Hi), NoDup_cons in Hnd.
  rewrite (delete_Permutation l i x Hi) at 2. rewrite elem_of_cons. destruct Hnd. naive_solver.
Qed.

Lemma run_client_ok expand `{Hexp : !PoolExpander expand} ops p held :
  pool_wf p -> size_ok (pl_size p) -> holds p held ->
  exists p' held', run_client expand ops p held = Some (p', held') /\
    pool_wf p' /\ size_ok (pl_size p') /\ holds p' held'.
Proof.
  revert p held. induction ops as [|[|i] ops IH]; intros p held Hwf Hs [Hnd Hl]; cbn [run_client].
  - by exists p, held.
  - destruct (eb_new_memory_item_spec expand p Hwf Hs)
      as (x & p' & -> & Hs' & [(-> & -> & _)|(Hx & Hdead & _ & Hlive & _ & Hwf')]).
    + rewrite Z.eqb_refl. by apply IH.
    + rewrite (proj2 (Z.eqb_neq _ _) Hx). apply IH; [done|done|]. split.
      * apply NoDup_cons. by rewrite <- Hl.
      * intros y. by rewrite Hlive, elem_of_cons, Hl.
  - destruct (held !! i) as [x|] eqn:Ei; [|by apply IH].
    apply list_elem_of_lookup_2 in Ei as Hin. apply Hl in Hin.
    destruct (eb_free_memory_item_spec p x Hwf Hin) as (p' & -> & Hwf' & _ & Hs' & Hlive & _).
    apply IH; [done|by rewrite Hs'|]. split.
    + apply (sublist_NoDup _ held); [done|]. apply sublist_delete.
    + intros y. by rewrite Hlive, Hl, (elem_of_delete_NoDup held i x y Hnd Ei).
Qed.

(** C12: with either growth policy, whatever a client allocates and releases from
    the initial pool, no operation meets a dangling cell, the cells it holds
    are pairwise distinct, inside the array and never [EB_NULL], and
    [eb_memory_used] is their number. *)
Theorem allocator_refines_set (expand : pool -> option pool) (Hexp : PoolExpander expand)
    (n : Z) (Hn : 0 < n <= 65536) (Hs : size_ok n) (ops : list alloc_op) :
  exists p held, run_client expand ops (mk_pool ∅ EB_END_OF_FREE 0 n) [] = Some (p, held) /\
    NoDup held /\ pl_used p = Z.of_nat (length held) /\
    (forall x, x ∈ held -> 0 <= x < pl_size p /\ x <> EB_NULL) /\
    (forall x, live (cells p) x <-> x ∈ held).
Proof.
  destruct (run_client_ok expand ops _ [] (initial_wf n Hn) Hs) as (p & held & E & Hwf & _ & Hh).
  - split; [constructor|]. intros x. split; [intros (it & H & _); cbn in H; by rewrite lookup_empty in H|].
    intros H. by apply not_elem_of_nil in H.
  - exists p, held. destruct (holds_spec p held Hwf Hh) as [Hu Hr]. destruct Hh as [Hnd Hl]. done.
Qed.

Lemma allocator_refines_set_witness :
  exists p held, run_client Static.eb_expand_array [ANew; ANew; AFree 1%nat; ANew; ANew; ANew]
                   (Static.initial 3) [] = Some (p, held) /\ NoDup held.
Proof.
  destruct (allocator_refines_set Static.eb_expand_array static_expander 3 ltac:(lia) ltac:(cbn; lia)
              [ANew; ANew; AFree 1%nat; ANew; ANew; ANew]) as (p & held & E & Hnd & _).
  exists p, held. exact (conj E Hnd).
Defined.

(** *** The cells the dynamic pool cannot use *)

Definition above (n : Z) (p : pool) : Prop :=
  n <= pl_size p /\ (forall x it, cells p !! x = Some it -> n <= x).

Lemma dynamic_expand_above malloc_ok n p p' :
  0 < pl_size p <= 65536 -> above n p -> Dynamic.eb_expand_array malloc_ok p = Some p' -> above n p'.
Proof.
  intros Hsz [Hn Ha]. unfold Dynamic.eb_expand_array. case_if; [done|]. case_if; [done|].
  intros [= <-]. rewrite wrap_small by lia. split; cbn [cells pl_size]; [lia|].
  intros x it. destruct (decide (x = pl_size p + pl_size p - 1)) as [->|Hne].
  - bool_hyps. intros _. lia.
  - rewrite lookup_insert_ne, lookup_link_cells by done.
    case_if; [bool_hyps; lia|apply Ha].
Qed.

Lemma run_client_above malloc_ok n ops p held p' held' :
  pool_wf p -> @size_ok _ (dynamic_expander malloc_ok) (pl_size p) -> holds p held -> above n p ->
  run_client (Dynamic.eb_expand_array malloc_ok) ops p held = Some (p', held') -> above n p'.
Proof.
  revert p held. induction ops as [|[|i] ops IH]; intros p held Hwf Hs Hh Ha; cbn [run_client].
  - by intros [= <- <-].
  - destruct (run_client_ok _ [ANew] p held Hwf Hs Hh) as (q & held1 & E1 & Hwf1 & Hs1 & Hh1).
    cbn [run_client] in E1. destruct (eb_new_memory_item _ p) as [[x q']|] eqn:En; [|done].
    injection E1 as -> <-. intros E. apply (IH q _ Hwf1 Hs1 Hh1); [|done].
    revert En. unfold eb_new_memory_item.
    assert (0 < pl_size p <= 65536) as Hsz by (pose proof (wf_size p Hwf); lia).
    assert (forall r, above n r -> (match cells r !! pl_free r with
       | Some (IFree next) => Some (pl_free r, mk_pool (<[pl_free r := IRaw]> (cells r)) next
            (u16 (pl_used r + 1)) (pl_size r))
       | _ => None end) = Some (x, q) -> above n q) as Hgo.
    { intros r [Hn Hr]. destruct (cells r !! pl_free r) as [[]|] eqn:Er; try done.
      intros [= <- <-]. split; [done|]. cbn [cells]. intros y it.
      destruct (decide (pl_free r = y)) as [<-|Hne]; [intros _; by eapply Hr|].
      rewrite lookup_insert_ne by done. apply Hr. }
    case_if; [|by apply Hgo]. destruct (Dynamic.eb_expand_array malloc_ok p) as [r|] eqn:Er.
    + apply Hgo. by eapply dynamic_expand_above.
    + by intros [= <- <-].
  - destruct (held !! i) as [x|] eqn:Ei; [|by apply IH].
    destruct (run_client_ok _ [AFree i] p held Hwf Hs Hh) as (q & held1 & E1 & Hwf1 & Hs1 & Hh1).
    cbn [run_client] in E1. rewrite Ei in E1.
    destruct (eb_free_memory_item x p) as [q'|] eqn:Ef; [|done]. injection E1 as -> <-.
    apply (IH q _ Hwf1 Hs1 Hh1). revert Ef. unfold eb_free_memory_item.
    destruct (cells p !! x) as [it0|] eqn:Ex; [|done]. case_if; [done|]. intros [= <-].
    destruct Ha as [Hn Ha]. split; [done|]. cbn [cells]. intros y it.
    destruct (decide (x = y)) as [<-|Hne]; [intros _; by eapply Ha|].
    rewrite lookup_insert_ne by done. apply Ha.
Qed.

(** The growable pool never hands out a cell below 128: the first growth
    allocates 256 cells and links only the upper half of them into the free
    list. *)
Theorem dynamic_skips_first_cells (malloc_ok : Z -> bool) (ops : list alloc_op) (p : pool) (held : list Z)
    (Hrun : run_client (Dynamic.eb_expand_array malloc_ok) ops Dynamic.initial [] = Some (p, held)) :
  forall x, x ∈ held -> 128 <= x.
Proof.
  assert (@size_ok _ (dynamic_expander malloc_ok) 128) as Hs by by exists 0.
  assert (holds Dynamic.initial []) as Hh.
  { split; [constructor|]. intros x. split; [intros (it & H & _); cbn in H; by rewrite lookup_empty in H|].
    intros H. by apply not_elem_of_nil in H. }
  pose proof (initial_wf 128 ltac:(lia)) as Hwf.
  assert (above 128 Dynamic.initial) as Ha by by split.
  pose proof (run_client_above malloc_ok 128 ops _ [] p held Hwf Hs Hh Ha Hrun) as [_ Ha'].
  destruct (run_client_ok _ ops _ [] Hwf Hs Hh) as (p' & held' & E & _ & _ & _ & Hl).
  change (mk_pool ∅ EB_END_OF_FREE 0 128) with Dynamic.initial in E.
  rewrite Hrun in E. injection E as <- <-.
  intros x Hx. apply Hl in Hx as (it & Hx & _). by eapply Ha'.
Qed.

Lemma dynamic_skips_first_cells_witness : Forall (fun x => 128 <= x) [129; 128].
Proof.
  destruct (run_client (Dynamic.eb_expand_array (fun _ => true)) [ANew; ANew] Dynamic.initial [])
    as [[p held]|] eqn:E; [|vm_compute in E; discriminate E].
  assert (held = [129; 128]) as <- by (vm_compute in E; injection E as _ <-; reflexivity).
  apply Forall_forall. exact (dynamic_skips_first_cells (fun _ => true) [ANew; ANew] p held E).
Defined.
