(* ===== verification/World.v ===== *)
(** The world in which the library runs and the monad of its functions: the
    object pool, the memory of the application, the external state; the
    operations supplied by others (application callbacks, virtual devices,
    transports) as the interface [Env]; typed access to cells (the [EB_...(x)]
    macros of src/api/memory/memory-array.h, the [eb_new_*]/[eb_free_*] functions
    of array.c) and singly linked lists of cells. *)
From stdpp Require Import base list gmap strings.
From Stdlib Require Import ZArith Lia.
From S2P Require Import Prelude Widths Store.

(** * Self-describing bus records (etherbone.h) *)

Record sdb_product := mk_product {
  vendor_id : Z; device_id : Z; sp_version : Z; sp_date : Z; sp_name : list Z; record_type : Z }.
Record sdb_component := mk_component {
  addr_first : Z; addr_last : Z; product : sdb_product }.
Record sdb_device := mk_sdb_device {
  abi_class : Z; abi_ver_major : Z; abi_ver_minor : Z; bus_specific : Z;
  sdb_comp : sdb_component }.

Record sdb_bridge := mk_sdb_bridge { sdb_child : Z; sb_comp : sdb_component }.
(** [union sdb_record], told apart by the record type in its last byte; records
    of other types are kept as their bytes. *)
Inductive sdb_record :=
  | RDevice (d : sdb_device)
  | RBridge (b : sdb_bridge)
  | RIntegration (p : sdb_product)
  | ROther (bytes : list Z).
Record sdb_interconnect := mk_sdb_interconnect {
  sdb_magic : Z; sdb_records : Z; sdb_version : Z; sdb_bus_type : Z; si_comp : sdb_component }.
Record sdb_table := mk_sdb_table { interconnect : sdb_interconnect; records : list sdb_record }.

(** * The monad *)

(** [w_user] is the memory the application lends to the library (read
    destinations, status words), [w_sdb] the device descriptors of attached
    virtual devices, [w_ext] everything else. *)
Record world (X : Type) := mk_world {
  w_pool : pool; w_user : gmap Z Z; w_sdb : gmap Z sdb_device; w_ext : X }.
Arguments mk_world {X}. Arguments w_pool {X}. Arguments w_user {X}.
Arguments w_sdb {X}. Arguments w_ext {X}.

(** [None] is an undefined access (a dangling or mistyped cell, a double free)
    or a walk that did not end within its bound. *)
Definition M (X A : Type) : Type := world X -> option (A * world X).

Definition ret {X A} (a : A) : M X A := fun w => Some (a, w).
Definition bind {X A B} (m : M X A) (k : A -> M X B) : M X B :=
  fun w => match m w with None => None | Some (a, w') => k a w' end.
Definition fault {X A} : M X A := fun _ => None.

Declare Scope eb_scope.
Notation "'let*' x := m 'in' k" := (bind m (fun x => k))
  (at level 10, x name, m at level 100, k at level 200) : eb_scope.
Notation "'let*' ' p := m 'in' k" := (bind m (fun p => k))
  (at level 10, p strict pattern, m at level 100, k at level 200) : eb_scope.
Notation "m ;;; k" := (bind m (fun _ => k)) (at level 199, right associativity) : eb_scope.
#[global] Open Scope eb_scope.

Section monad.
Context {X : Type}.

Definition gets {A} (f : world X -> A) : M X A := fun w => Some (f w, w).
Definition when (b : bool) (m : M X unit) : M X unit := if b then m else ret tt.
Definition lift {A} (o : option A) : M X A :=
  match o with Some a => ret a | None => fault end.

(** Lift a pool operation. *)
Definition on_pool {A} (f : pool -> option (A * pool)) : M X A := fun w =>
  match f (w_pool w) with
  | Some (a, p) => Some (a, mk_world p (w_user w) (w_sdb w) (w_ext w))
  | None => None
  end.

Definition peek (x : Z) : M X item := fun w =>
  match cells (w_pool w) !! x with Some it => Some (it, w) | None => None end.
Definition poke (x : Z) (it : item) : M X unit :=
  on_pool (fun p => match pool_put x it p with Some p' => Some (tt, p') | None => None end).
Definition eb_free (x : Z) : M X unit :=
  on_pool (fun p => match eb_free_memory_item x p with Some p' => Some (tt, p') | None => None end).

Definition EB_OPERATION (x : Z) : M X eb_operation :=
  let* it := peek x in match it with IOperation o => ret o | _ => fault end.
Definition EB_CYCLE (x : Z) : M X eb_cycle :=
  let* it := peek x in match it with ICycle c => ret c | _ => fault end.
Definition EB_DEVICE (x : Z) : M X eb_device :=
  let* it := peek x in match it with IDevice d => ret d | _ => fault end.
Definition EB_SOCKET (x : Z) : M X eb_socket :=
  let* it := peek x in match it with ISocket s => ret s | _ => fault end.
Definition EB_SOCKET_AUX (x : Z) : M X eb_socket_aux :=
  let* it := peek x in match it with ISocketAux a => ret a | _ => fault end.
Definition EB_HANDLER_CALLBACK (x : Z) : M X eb_handler_callback :=
  let* it := peek x in match it with IHandlerCallback h => ret h | _ => fault end.
Definition EB_HANDLER_ADDRESS (x : Z) : M X eb_handler_address :=
  let* it := peek x in match it with IHandlerAddress h => ret h | _ => fault end.
Definition EB_RESPONSE (x : Z) : M X eb_response :=
  let* it := peek x in match it with IResponse r => ret r | _ => fault end.
Definition EB_TRANSPORT (x : Z) : M X eb_transport :=
  let* it := peek x in match it with ITransport t => ret t | _ => fault end.
Definition EB_SDB_SCAN (x : Z) : M X eb_sdb_scan :=
  let* it := peek x in match it with ISdbScan s => ret s | _ => fault end.

(** [*ptr] and [*ptr = v] on the application's memory. *)
Definition user_load (ptr : Z) : M X Z := fun w =>
  match w_user w !! ptr with Some v => Some (v, w) | None => None end.
Definition user_store (ptr v : Z) : M X unit := fun w =>
  Some (tt, mk_world (w_pool w) (<[ptr := v]> (w_user w)) (w_sdb w) (w_ext w)).
(** The descriptor a [const struct sdb_device*] points to. *)
Definition sdb_load (ptr : Z) : M X sdb_device := fun w =>
  match w_sdb w !! ptr with Some d => Some (d, w) | None => None end.

(** Iterate over a list of values. *)
Fixpoint mapM_ {A} (f : A -> M X unit) (l : list A) : M X unit :=
  match l with [] => ret tt | a :: l' => f a ;;; mapM_ f l' end.
End monad.

(** * What the library is given from outside *)

Class Env (X : Type) := {
  (** the pool's growth policy (dynamic.c or static.c) *)
  e_expand : pool -> option pool;
  (** application callbacks: [f(user_data, device, operation, status)] *)
  e_callback : Z -> Z -> Z -> Z -> Z -> M X unit;
  (** SDB application callbacks: [cb(user_data, device, table, status)] *)
  e_sdb_callback : Z -> Z -> Z -> option sdb_table -> Z -> M X unit;
  (** virtual devices: [f(data, address, width[, value])] *)
  e_dev_read : Z -> Z -> Z -> Z -> M X (Z * Z);
  e_dev_write : Z -> Z -> Z -> Z -> Z -> M X Z;
  (** [EB_VERSION_SHORT] and [EB_DATE_SHORT] of the generated version.h *)
  e_version : Z;
  e_date : Z;
  (** [gettimeofday]: seconds and microseconds; [select] on the descriptors to
      read and to write, with a timeout in microseconds, tells which are ready;
      [e_ready] is the test of readiness handed down to [t_poll] and [t_accept] *)
  e_now : M X (Z * Z);
  e_select : list Z -> list Z -> Z -> M X (list Z * list Z);
  e_ready : (Z -> Z -> bool) -> M X unit;
  (** the transport table [eb_transports[]], indexed by link type *)
  t_size : Z;
  t_mtu : Z -> Z;
  t_open : Z -> Z -> list Z -> M X Z;
  t_close : Z -> Z -> M X unit;
  t_connect : Z -> Z -> Z -> list Z -> bool -> M X Z;
  t_disconnect : Z -> Z -> Z -> M X unit;
  t_fdes : Z -> Z -> Z -> M X (list (Z * Z));
  t_accept : Z -> Z -> Z -> M X Z;
  t_poll : Z -> Z -> Z -> nat -> M X (Z * list Z);
  t_recv : Z -> Z -> Z -> nat -> M X (Z * list Z);
  t_send : Z -> Z -> Z -> list Z -> M X unit;
  t_send_buffer : Z -> Z -> Z -> bool -> M X unit }.

(** Allocation: one function for the eleven [eb_new_*] of array.c. *)
Definition eb_new {X} `{Env X} : M X Z := on_pool (eb_new_memory_item e_expand).

(** * Singly linked lists of cells *)

(** A node type gives the member of the cell's union it lives in and the field
    that links it; [cy_link] and [dv_next] are such fields as well as [next]. *)
Class Node (T : Type) := {
  to_item : T -> item;
  of_item : item -> option T;
  next_of : T -> Z;
  set_next : Z -> T -> T;
  of_to_item : forall t, of_item (to_item t) = Some t;
  to_of_item : forall it t, of_item it = Some t -> it = to_item t;
  next_set_next : forall n t, next_of (set_next n t) = n;
  set_set_next : forall n n' t, set_next n (set_next n' t) = set_next n t;
  set_next_id : forall t, set_next (next_of t) t = t;
  node_not_free : forall t, is_free (to_item t) = false }.

Ltac solve_node := try done; try (by intros []); try (by intros ? []); try (by intros ? ? []);
  try (by intros [] ? [= ->]).

#[export] Program Instance operation_node : Node eb_operation := {
  to_item := IOperation;
  of_item it := match it with IOperation o => Some o | _ => None end;
  next_of := op_next;
  set_next n o := mk_operation (op_address o) (op_value o) (op_flags o) (op_format o) n }.
Solve All Obligations with solve_node.

#[export] Program Instance cycle_node : Node eb_cycle := {
  to_item := ICycle;
  of_item it := match it with ICycle c => Some c | _ => None end;
  next_of := cy_link;
  set_next n c := mk_cycle (cy_callback c) (cy_user_data c) (cy_ops c) n }.
Solve All Obligations with solve_node.

#[export] Program Instance response_node : Node eb_response := {
  to_item := IResponse;
  of_item it := match it with IResponse r => Some r | _ => None end;
  next_of := rs_next;
  set_next n r := mk_response (rs_address r) (rs_deadline r) n (rs_cycle r)
                    (rs_write_cursor r) (rs_status_cursor r) }.
Solve All Obligations with solve_node.

#[export] Program Instance device_node : Node eb_device := {
  to_item := IDevice;
  of_item it := match it with IDevice d => Some d | _ => None end;
  next_of := dv_next;
  set_next n d := mk_device (dv_socket d) n (dv_un_link d) (dv_unready d) (dv_widths d)
                    (dv_link d) (dv_transport d) }.
Solve All Obligations with solve_node.

#[export] Program Instance handler_node : Node eb_handler_address := {
  to_item := IHandlerAddress;
  of_item it := match it with IHandlerAddress h => Some h | _ => None end;
  next_of := ha_next;
  set_next n h := mk_handler_address (ha_device h) (ha_callback h) n }.
Solve All Obligations with solve_node.

#[export] Program Instance transport_node : Node eb_transport := {
  to_item := ITransport;
  of_item it := match it with ITransport t => Some t | _ => None end;
  next_of := tr_next;
  set_next n t := mk_transport (tr_raw t) (tr_link_type t) n }.
Solve All Obligations with solve_node.

(** * Reasoning about the monad *)

Definition upd_pool {X} (p : pool) (w : world X) : world X :=
  mk_world p (w_user w) (w_sdb w) (w_ext w).

Lemma bind_some {X A B} (m : M X A) (k : A -> M X B) w a w' :
  m w = Some (a, w') -> bind m k w = k a w'.
Proof. intros E. unfold bind. by rewrite E. Qed.

Lemma bind_assoc {X A B C} (m : M X A) (f : A -> M X B) (g : B -> M X C) w :
  bind (bind m f) g w = bind m (fun a => bind (f a) g) w.
Proof. unfold bind. by destruct (m w) as [[a w']|]. Qed.

Lemma bind_ret {X A B} (a : A) (k : A -> M X B) w : bind (ret a) k w = k a w.
Proof. done. Qed.

Lemma bind_ret_eq {X A B} (a : A) (k : A -> M X B) : bind (ret a) k = k a.
Proof. done. Qed.

(** [mstep H]: execute the first action, whose result [H] states. *)
Ltac mstep H := rewrite ?bind_assoc, (bind_some _ _ _ _ _ H); cbv beta.

Section world_lemmas.
Context {X : Type}.
Implicit Types w : world X.

Lemma upd_pool_id w : upd_pool (w_pool w) w = w.
Proof. by destruct w. Qed.

Lemma peek_some x it w : cells (w_pool w) !! x = Some it -> peek x w = Some (it, w).
Proof. intros E. unfold peek. by rewrite E. Qed.

Lemma get_item {T} (sel : item -> option T) x it t w :
  cells (w_pool w) !! x = Some it -> sel it = Some t ->
  bind (peek x) (fun it => match sel it with Some t => ret t | None => fault end) w = Some (t, w).
Proof. intros E S. mstep (peek_some x it w E). by rewrite S. Qed.

Lemma EB_OPERATION_some x o w :
  cells (w_pool w) !! x = Some (IOperation o) -> EB_OPERATION x w = Some (o, w).
Proof. intros E. unfold EB_OPERATION. by mstep (peek_some _ _ _ E). Qed.
Lemma EB_CYCLE_some x o w :
  cells (w_pool w) !! x = Some (ICycle o) -> EB_CYCLE x w = Some (o, w).
Proof. intros E. unfold EB_CYCLE. by mstep (peek_some _ _ _ E). Qed.
Lemma EB_DEVICE_some x o w :
  cells (w_pool w) !! x = Some (IDevice o) -> EB_DEVICE x w = Some (o, w).
Proof. intros E. unfold EB_DEVICE. by mstep (peek_some _ _ _ E). Qed.
Lemma EB_SOCKET_some x o w :
  cells (w_pool w) !! x = Some (ISocket o) -> EB_SOCKET x w = Some (o, w).
Proof. intros E. unfold EB_SOCKET. by mstep (peek_some _ _ _ E). Qed.
Lemma EB_SOCKET_AUX_some x o w :
  cells (w_pool w) !! x = Some (ISocketAux o) -> EB_SOCKET_AUX x w = Some (o, w).
Proof. intros E. unfold EB_SOCKET_AUX. by mstep (peek_some _ _ _ E). Qed.
Lemma EB_RESPONSE_some x o w :
  cells (w_pool w) !! x = Some (IResponse o) -> EB_RESPONSE x w = Some (o, w).
Proof. intros E. unfold EB_RESPONSE. by mstep (peek_some _ _ _ E). Qed.
Lemma EB_HANDLER_ADDRESS_some x o w :
  cells (w_pool w) !! x = Some (IHandlerAddress o) -> EB_HANDLER_ADDRESS x w = Some (o, w).
Proof. intros E. unfold EB_HANDLER_ADDRESS. by mstep (peek_some _ _ _ E). Qed.
Lemma EB_HANDLER_CALLBACK_some x o w :
  cells (w_pool w) !! x = Some (IHandlerCallback o) -> EB_HANDLER_CALLBACK x w = Some (o, w).
Proof. intros E. unfold EB_HANDLER_CALLBACK. by mstep (peek_some _ _ _ E). Qed.

(** Overwriting an allocated cell keeps the pool invariant. *)
Lemma poke_spec x it it0 w :
  pool_wf (w_pool w) -> cells (w_pool w) !! x = Some it0 -> is_free it0 = false -> is_free it = false ->
  exists p', poke x it w = Some (tt, upd_pool p' w) /\ pool_wf p' /\
    cells p' = <[x := it]> (cells (w_pool w)) /\ pl_size p' = pl_size (w_pool w).
Proof.
  intros Hwf E F F'. eexists. unfold poke, on_pool, pool_put. rewrite E, F.
  split; [done|]. split; [by eapply pool_wf_replace|]. done.
Qed.

Lemma eb_free_spec x w :
  pool_wf (w_pool w) -> live (cells (w_pool w)) x ->
  exists p', eb_free x w = Some (tt, upd_pool p' w) /\ pool_wf p' /\
    pl_size p' = pl_size (w_pool w) /\ ~ live (cells p') x /\
    (forall y, y <> x -> cells p' !! y = cells (w_pool w) !! y).
Proof.
  intros Hwf Hl.
  destruct (eb_free_memory_item_spec _ x Hwf Hl) as (p' & E & Hwf' & _ & Hs & Hlive & Hsame & _).
  exists p'. unfold eb_free, on_pool. rewrite E. split; [done|]. split; [done|]. split; [done|].
  split; [rewrite Hlive; naive_solver|done].
Qed.

Context `{Env X} `{!PoolExpander e_expand}.

(** The pool part of the library's invariant. *)
Definition pool_ok w : Prop := pool_wf (w_pool w) /\ size_ok (pl_size (w_pool w)).

Lemma eb_new_spec w :
  pool_ok w ->
  exists x p', eb_new w = Some (x, upd_pool p' w) /\ pool_ok (upd_pool p' w) /\
    ((x = EB_NULL /\ p' = w_pool w) \/ alloc_post (w_pool w) x p').
Proof.
  intros [Hwf Hs]. destruct (eb_new_memory_item_spec e_expand (w_pool w) Hwf Hs)
    as (x & p' & E & Hs' & Hpost).
  exists x, p'. unfold eb_new, on_pool. rewrite E. split; [done|].
  destruct Hpost as [(-> & -> & _)|Hpost]; [by split; [|left]|].
  split; [|by right]. split; [apply Hpost|done].
Qed.
End world_lemmas.

(** Live cells other than the new one survive an allocation. *)
Lemma alloc_keeps p x p' y it :
  alloc_post p x p' -> cells p !! y = Some it -> is_free it = false -> cells p' !! y = Some it /\ y <> x.
Proof.
  intros (Hx & Hdead & _ & _ & Hkeep & _) E F.
  assert (live (cells p) y) as Hl by (by exists it).
  split; [by apply Hkeep|]. intros ->. done.
Qed.

(** * Simulation of one computation by another *)

(** [m] and [n] have the same effects and are undefined on the same worlds; their
    results are related. *)
Definition msim {X A B} (R : A -> B -> Prop) (m : M X A) (n : M X B) : Prop :=
  forall w, match m w, n w with
    | Some (a, w1), Some (b, w2) => w1 = w2 /\ R a b
    | None, None => True
    | _, _ => False
    end.

Lemma msim_ret {X A B} (R : A -> B -> Prop) a b : R a b -> msim (X := X) R (ret a) (ret b).
Proof. intros HR w. by split. Qed.

Lemma msim_bind {X A B C D} (R : A -> B -> Prop) (S : C -> D -> Prop) (m : M X A) (n : M X B) f g :
  msim R m n -> (forall a b, R a b -> msim S (f a) (g b)) -> msim S (bind m f) (bind n g).
Proof.
  intros Hm Hf w. specialize (Hm w). unfold bind.
  destruct (m w) as [[a w1]|], (n w) as [[b w2]|]; try done.
  destruct Hm as [-> HR]. exact (Hf a b HR w2).
Qed.

Lemma msim_refl {X A} (m : M X A) : msim eq m m.
Proof. intros w. by destruct (m w) as [[a w1]|]. Qed.

Lemma msim_weaken {X A B} (R S : A -> B -> Prop) (m : M X A) (n : M X B) :
  (forall a b, R a b -> S a b) -> msim R m n -> msim S m n.
Proof.
  intros HRS Hm w. specialize (Hm w). destruct (m w) as [[a w1]|], (n w) as [[b w2]|]; try done.
  destruct Hm. auto.
Qed.

Lemma msim_trans {X A B C} (R : A -> B -> Prop) (S : B -> C -> Prop) (m : M X A) (n : M X B) (k : M X C) :
  msim R m n -> msim S n k -> msim (fun a c => exists b, R a b /\ S b c) m k.
Proof.
  intros Hm Hn w. specialize (Hm w). specialize (Hn w).
  destruct (m w) as [[a w1]|], (n w) as [[b w2]|], (k w) as [[c w3]|]; try done.
  destruct Hm as [-> ?], Hn as [-> ?]. eauto.
Qed.

(** Only the left side has a continuation. *)
Lemma msim_bind_l {X A B C} (R : A -> B -> Prop) (S : C -> B -> Prop) (m : M X A) (n : M X B) f :
  msim R m n -> (forall a b, R a b -> msim S (f a) (ret b)) -> msim S (bind m f) n.
Proof.
  intros Hm Hf w. specialize (Hm w). unfold bind.
  destruct (m w) as [[a w1]|], (n w) as [[b w2]|]; try done.
  destruct Hm as [-> HR]. exact (Hf a b HR w2).
Qed.

(** Only the right side has a continuation. *)
Lemma msim_bind_k {X A B D} (R : A -> B -> Prop) (S : A -> D -> Prop) (m : M X A) (n : M X B) (g : B -> M X D) :
  msim R m n -> (forall a b, R a b -> msim S (ret a) (g b)) -> msim S m (bind n g).
Proof.
  intros Hm Hf w. specialize (Hm w). unfold bind.
  destruct (m w) as [[a w1]|], (n w) as [[b w2]|]; try done.
  destruct Hm as [-> HR]. exact (Hf a b HR w2).
Qed.

Lemma msim_bind_r {X A C} (S : A -> C -> Prop) (m : M X A) (n : M X C) :
  msim S (bind m ret) n -> msim S m n.
Proof. intros Hm w. specialize (Hm w). unfold bind, ret in Hm. by destruct (m w) as [[a w1]|]. Qed.

Lemma msim_eq_r {X A B} (R : A -> B -> Prop) (m : M X A) (n n' : M X B) :
  (forall w, n w = n' w) -> msim R m n' -> msim R m n.
Proof. intros E Hm w. rewrite E. apply Hm. Qed.

Lemma msim_assoc {X A B C D} (R : C -> D -> Prop) (m : M X A) (f : A -> M X B) (g : B -> M X C) (n : M X D) :
  msim R (bind m (fun a => bind (f a) g)) n -> msim R (bind (bind m f) g) n.
Proof. intros Hm w. rewrite bind_assoc. apply Hm. Qed.

Lemma msim_run {X A} (m n : M X A) w : msim eq m n -> m w = n w.
Proof.
  intros Hm. specialize (Hm w). destruct (m w) as [[a w1]|], (n w) as [[b w2]|]; try done.
  by destruct Hm as [-> ->].
Qed.

(** The same computation followed by related ones. *)
Lemma msim_same {X A C D} (S : C -> D -> Prop) (m : M X A) f g :
  (forall a, msim S (f a) (g a)) -> msim S (bind m f) (bind m g).
Proof. intros Hf. eapply msim_bind; [apply msim_refl|]. by intros a _ <-. Qed.

(** * A concrete environment *)

(** The environment used to evaluate the model on examples: every interaction is
    logged, received messages come from an inbox, virtual devices read back the
    address. Transport 0 is a stream, transport 1 packet based. *)
Module Sample.

Inductive event :=
  | Callback (f user device operation status : Z)
  | Sdb_callback (cb user device : Z) (table : option sdb_table) (status : Z)
  | Dev_read (data address width : Z)
  | Dev_write (data address width value : Z)
  | Sent (transport link : Z) (bytes : list Z)
  | Buffering (link : Z) (start : bool)
  | Disconnected (link : Z)
  | Closed (transport : Z).

Record ext := mk_ext { log : list event; inbox : list (list Z) }.

Definition emit (e : event) : M ext unit := fun w =>
  Some (tt, mk_world (w_pool w) (w_user w) (w_sdb w)
              (mk_ext (log (w_ext w) ++ [e]) (inbox (w_ext w)))).

Definition receive (len : nat) : M ext (Z * list Z) := fun w =>
  match inbox (w_ext w) with
  | [] => Some ((0, []), w)
  | m :: rest =>
      Some ((Z.of_nat (length (take len m)), take len m),
            mk_world (w_pool w) (w_user w) (w_sdb w) (mk_ext (log (w_ext w)) rest))
  end.

#[export] Instance env : Env ext := {|
  e_expand := Dynamic.eb_expand_array (fun _ => true);
  e_callback f user device op status := emit (Callback f user device op status);
  e_sdb_callback cb user device table status := emit (Sdb_callback cb user device table status);
  e_dev_read _ data addr width := emit (Dev_read data addr width) ;;; ret (EB_OK, addr);
  e_dev_write _ data addr width v := emit (Dev_write data addr width v) ;;; ret EB_OK;
  e_version := 0x020001;
  e_date := 0x20160405;
  e_now := gets (fun w => (Z.of_nat (length (log (w_ext w))), 0));
  e_select rfds wfds _ := ret (rfds, wfds);
  e_ready _ := ret tt;
  t_size := 2;
  t_mtu lt := if lt =? 0 then 0 else 1472;
  t_open _ _ _ := ret EB_OK;
  t_close _ tr := emit (Closed tr);
  t_connect _ _ _ _ _ := ret EB_OK;
  t_disconnect _ _ ln := emit (Disconnected ln);
  t_fdes _ _ _ := ret [];
  t_accept _ _ _ := ret 0;
  t_poll _ _ _ len := receive len;
  t_recv _ _ _ len := receive len;
  t_send _ tr ln bytes := emit (Sent tr ln bytes);
  t_send_buffer _ _ ln start := emit (Buffering ln start) |}.

Definition world_of (its : list item) (inbox : list (list Z)) : world ext :=
  mk_world (seed its) ∅ ∅ (mk_ext [] inbox).

(** The log after a run, [None] when the run is undefined. *)
Definition run {A} (m : M ext A) (w : world ext) : option (A * list event) :=
  match m w with Some (a, w') => Some (a, log (w_ext w')) | None => None end.

#[export] Instance env_expander : PoolExpander (@e_expand ext env) :=
  dynamic_expander (fun _ => true).

Lemma pool_ok_seed its inbox :
  forallb (fun it => negb (is_free it)) its && (length its <? 128)%nat = true ->
  pool_ok (world_of its inbox).
Proof.
  intros [Hf Hn]%andb_prop. split.
  - apply seed_wf; [|by apply Nat.ltb_lt]. apply Forall_forall. intros it Hin.
    apply list_elem_of_In in Hin. apply (proj1 (forallb_forall _ _) Hf) in Hin. by apply negb_true_iff.
  - exists 0. done.
Qed.

End Sample.
