(* ===== verification/Linked.v ===== *)
(** Singly linked lists in the store: the representation predicate [chain], the
    read-only walk of [for (i = first; i != EB_NULL; i = i->next)] loops and the
    in-place reversal that cycle.c, socket.c, device.c and master.c each write out
    for their own node type. *)
From stdpp Require Import base list gmap.
From Stdlib Require Import ZArith Lia.
From S2P Require Import Prelude Widths Store World.

Lemma elem_of_rev_fst {A B} (l : list (A * B)) x : x ∈ (rev l).*1 <-> x ∈ l.*1.
Proof.
  rewrite !list_elem_of_fmap. split; intros (y & -> & Hy); exists y; (split; [done|]).
  - apply list_elem_of_In in Hy. rewrite <- in_rev in Hy. by apply list_elem_of_In.
  - apply list_elem_of_In. rewrite <- in_rev. by apply list_elem_of_In.
Qed.

Section chain.
Context {T : Type} `{Node T}.
Implicit Types (m : gmap Z item) (l : list (Z * T)).

(** [chain m p l]: following the links from [p] visits the cells [l] in order.
    The link stored in a node is that of the chain; the link field of the
    listed value is immaterial. *)
Fixpoint chain m (p : Z) l : Prop :=
  match l with
  | [] => p = EB_NULL
  | (x, t) :: l' => p = x /\ x <> EB_NULL /\
      exists n, m !! x = Some (to_item (set_next n t)) /\ chain m n l'
  end.

Lemma to_item_inj t t' : to_item t = to_item t' -> t = t'.
Proof. intros E. apply (f_equal of_item) in E. rewrite !of_to_item in E. by injection E. Qed.

Lemma chain_det m p l1 l2 : chain m p l1 -> chain m p l2 -> l1.*1 = l2.*1.
Proof.
  revert p l2. induction l1 as [|[x t] l1 IH]; intros p [|[y u] l2]; cbn; intros H1 H2.
  - done.
  - by destruct H2 as (-> & ? & _).
  - by destruct H1 as (-> & ? & _).
  - destruct H1 as (-> & _ & n & E1 & H1), H2 as (-> & _ & n' & E2 & H2).
    rewrite E1 in E2. injection E2 as E2. apply to_item_inj in E2.
    apply (f_equal next_of) in E2. rewrite !next_set_next in E2. subst n'.
    f_equal. eauto.
Qed.

Lemma chain_suffix m p l x :
  chain m p l -> x ∈ l.*1 ->
  exists t l', chain m x ((x, t) :: l') /\ (length l' < length l)%nat.
Proof.
  revert p. induction l as [|[y t] l IH]; intros p Hl Hx; cbn in Hx; [by apply elem_of_nil in Hx|].
  pose proof Hl as (-> & Hy & n & E & Hl').
  apply elem_of_cons in Hx as [->|Hx].
  - exists t, l. split; [done|cbn; lia].
  - destruct (IH n Hl' Hx) as (t' & l' & H1 & H2). exists t', l'. split; [done|cbn; lia].
Qed.

Lemma chain_NoDup m p l : chain m p l -> NoDup l.*1.
Proof.
  revert p. induction l as [|[y t] l IH]; intros p Hl; cbn; [constructor|].
  pose proof Hl as (-> & Hy & n & E & Hl').
  constructor; [|eauto]. intros Hin.
  destruct (chain_suffix m n l y Hl' Hin) as (t' & l' & H1 & H2).
  pose proof (chain_det _ _ _ _ Hl H1) as Heq. cbn in Heq. injection Heq as Heq.
  apply (f_equal length) in Heq. rewrite !length_fmap in Heq. lia.
Qed.

Lemma chain_dom m p l x : chain m p l -> x ∈ l.*1 -> x ∈ dom m.
Proof.
  intros Hl Hx. destruct (chain_suffix m p l x Hl Hx) as (t & l' & (_ & _ & n & E & _) & _).
  apply elem_of_dom. by eexists.
Qed.

Lemma chain_length m p l : chain m p l -> (length l <= size m)%nat.
Proof.
  intros Hl. rewrite <- size_dom.
  assert (list_to_set l.*1 ⊆ (dom m : gset Z)) as Hsub.
  { intros x Hx%elem_of_list_to_set. by eapply chain_dom. }
  apply subseteq_size in Hsub. rewrite size_list_to_set in Hsub by (by eapply chain_NoDup).
  by rewrite length_fmap in Hsub.
Qed.

Lemma chain_insert_ne m p l x it : x ∉ l.*1 -> chain m p l -> chain (<[x := it]> m) p l.
Proof.
  revert p. induction l as [|[y t] l IH]; intros p Hx; cbn [chain]; [done|].
  cbn in Hx. apply not_elem_of_cons in Hx as [Hxy Hx].
  intros (-> & Hy & n & E & Hl). split; [done|]. split; [done|].
  exists n. rewrite lookup_insert_ne by done. auto.
Qed.

(** Chains only depend on their own cells. *)
Lemma chain_agree m m' p l :
  (forall x, x ∈ l.*1 -> m' !! x = m !! x) -> chain m p l -> chain m' p l.
Proof.
  revert p. induction l as [|[y t] l IH]; intros p Hx; cbn [chain]; [done|].
  intros (-> & Hy & n & E & Hl). split; [done|]. split; [done|]. exists n.
  rewrite Hx by (cbn; by left). split; [done|]. apply IH; [|done].
  intros x Hin. apply Hx. cbn. by right.
Qed.

(** Redirecting a node of one list to the head of another. *)
Lemma chain_splice m p l0 y u l1 q l2 :
  chain m p (l0 ++ (y, u) :: l1) -> chain m q l2 -> y ∉ l2.*1 ->
  (exists n, m !! y = Some (to_item (set_next n u)) /\ chain m n l1) /\
  chain (<[y := to_item (set_next q u)]> m) p (l0 ++ (y, u) :: l2).
Proof.
  revert p. induction l0 as [|[z v] l0 IH]; intros p Hc Hq Hy.
  - destruct Hc as (-> & Hyn & n & Ey & Hc). split; [by exists n|]. split; [done|]. split; [done|].
    exists q. rewrite lookup_insert_eq. split; [done|]. by apply chain_insert_ne.
  - pose proof (chain_NoDup _ _ _ Hc) as Hnd. cbn in Hnd. apply NoDup_cons in Hnd as [Hz _].
    destruct Hc as (-> & Hzn & n & Ez & Hc). destruct (IH n Hc Hq Hy) as (He & Hc2).
    split; [done|]. split; [done|]. split; [done|]. exists n.
    rewrite lookup_insert_ne; [done|]. intros ->. apply Hz. rewrite fmap_app, elem_of_app. right. cbn. by left.
Qed.

(** Unlinking a node by redirecting the node before it. *)
Lemma chain_remove_next m p l0 y u x t l2 :
  chain m p (l0 ++ (y, u) :: (x, t) :: l2) ->
  exists nx, m !! x = Some (to_item (set_next nx t)) /\ m !! y = Some (to_item (set_next x u)) /\
    chain m nx l2 /\ chain (<[y := to_item (set_next nx u)]> m) p (l0 ++ (y, u) :: l2).
Proof.
  intros Hc. pose proof (chain_NoDup _ _ _ Hc) as Hnd. rewrite fmap_app in Hnd.
  apply NoDup_app in Hnd as (_ & _ & Hnd). cbn in Hnd. apply NoDup_cons in Hnd as [Hy _].
  destruct (chain_splice _ _ _ _ _ _ EB_NULL [] Hc eq_refl ltac:(apply not_elem_of_nil)) as ((n & Ey & Hc1) & _).
  destruct Hc1 as (-> & Hx & nx & Ex & Hc2). exists nx. split_and!; try done.
  refine (proj2 (chain_splice _ _ _ _ _ _ nx l2 Hc Hc2 _)). set_solver.
Qed.

(** Changing the contents of one cell, not its link. *)
Lemma chain_update m p l y (f : T -> T) t0 :
  (forall n t, f (set_next n t) = set_next n (f t)) -> m !! y = Some (to_item t0) -> chain m p l ->
  chain (<[y := to_item (f t0)]> m) p (map (fun xt => if decide (xt.1 = y) then (xt.1, f xt.2) else xt) l).
Proof.
  intros Hf Ey. revert p. induction l as [|[x t] l IH]; intros p; cbn [chain map]; [done|].
  intros (-> & Hx & n & Ex & Hc). cbn [fst snd]. case_decide as Hxy.
  - subst y. split; [done|]. split; [done|]. exists n. rewrite lookup_insert_eq.
    split; [|by apply IH]. rewrite Ex in Ey. injection Ey as Ey. apply to_item_inj in Ey. by rewrite <- Ey, Hf.
  - split; [done|]. split; [done|]. exists n. rewrite lookup_insert_ne by done. split; [done|]. by apply IH.
Qed.

(** ** The walk *)

Fixpoint walk (fuel : nat) m (p : Z) : option (list (Z * T)) :=
  if p =? EB_NULL then Some []
  else match fuel with
    | O => None
    | S fuel =>
      match m !! p ≫= of_item with
      | Some t => match walk fuel m (next_of t) with
                  | Some l => Some ((p, t) :: l)
                  | None => None
                  end
      | None => None
      end
    end.

Lemma walk_sound fuel m p l : walk fuel m p = Some l -> chain m p l.
Proof.
  revert p l. induction fuel as [|fuel IH]; intros p l; cbn [walk]; case_if; bool_hyps;
    try (intros [= <-]; done).
  destruct (m !! p) as [it|] eqn:Ep; [|done]. cbn.
  destruct (of_item it) as [t|] eqn:Et; [|done]. apply to_of_item in Et as ->.
  destruct (walk fuel m (next_of t)) as [l'|] eqn:El; [|done].
  intros [= <-]. split; [done|]. split; [done|]. exists (next_of t).
  rewrite set_next_id. auto.
Qed.

Lemma walk_complete fuel m p l :
  chain m p l -> (length l <= fuel)%nat ->
  exists l', walk fuel m p = Some l' /\ chain m p l' /\ l'.*1 = l.*1 /\
    map (fun xt => (xt.1, set_next EB_NULL xt.2)) l' = map (fun xt => (xt.1, set_next EB_NULL xt.2)) l.
Proof.
  revert fuel p. induction l as [|[x t] l IH]; intros fuel p Hc Hf.
  - cbn in Hc. subst p. exists []. destruct fuel; done.
  - destruct Hc as (-> & Hx & n & E & Hc). destruct fuel as [|fuel]; cbn in Hf; [lia|].
    destruct (IH fuel n Hc ltac:(lia)) as (l' & Hw & Hc' & Hp & Hn).
    exists ((x, set_next n t) :: l'). cbn [walk].
    rewrite (proj2 (Z.eqb_neq x EB_NULL)) by done. rewrite E. cbn. rewrite of_to_item, next_set_next, Hw.
    split; [done|]. split; [|split; [by f_equal|rewrite set_set_next; by f_equal]].
    split; [done|]. split; [done|]. exists n. by rewrite set_set_next.
Qed.

Context {X : Type}.
Implicit Types w : world X.

(** [for (p = first; p != EB_NULL; p = p->next)], read-only: all the nodes. *)
Definition load_list (p : Z) : M X (list (Z * T)) := fun w =>
  match walk (size (cells (w_pool w))) (cells (w_pool w)) p with
  | Some l => Some (l, w)
  | None => None
  end.

Definition get_node (p : Z) : M X T := fun w =>
  match cells (w_pool w) !! p ≫= of_item with Some t => Some (t, w) | None => None end.

(** ** In-place reversal *)

(** [for (p = first; p != EB_NULL; p = next) { next = p->next; p->next = prev; prev = p; }] *)
Fixpoint reverse_loop (fuel : nat) (p prev : Z) : M X Z :=
  if p =? EB_NULL then ret prev
  else match fuel with
    | O => fault
    | S fuel =>
      let* t := get_node p in
      poke p (to_item (set_next prev t)) ;;;
      reverse_loop fuel (next_of t) p
    end.

Definition reverse_list (p : Z) : M X Z := fun w =>
  reverse_loop (size (cells (w_pool w))) p EB_NULL w.

Definition with_cells m w : world X :=
  mk_world (mk_pool m (pl_free (w_pool w)) (pl_used (w_pool w)) (pl_size (w_pool w)))
           (w_user w) (w_sdb w) (w_ext w).

Lemma with_cells_cells m w : cells (w_pool (with_cells m w)) = m.
Proof. done. Qed.

Lemma with_cells_twice m m' w : with_cells m (with_cells m' w) = with_cells m w.
Proof. done. Qed.

Lemma with_cells_id w : with_cells (cells (w_pool w)) w = w.
Proof. by destruct w as [[] ? ? ?]. Qed.

Lemma poke_live (x : Z) it it0 w :
  cells (w_pool w) !! x = Some it0 -> is_free it0 = false ->
  poke x it w = Some (tt, with_cells (<[x := it]> (cells (w_pool w))) w).
Proof. intros E F. unfold poke, on_pool, pool_put. by rewrite E, F. Qed.

Lemma reverse_loop_spec fuel p prev l acc w :
  chain (cells (w_pool w)) p l -> chain (cells (w_pool w)) prev acc ->
  (forall x, x ∈ l.*1 -> x ∉ acc.*1) -> (length l <= fuel)%nat ->
  exists p' m', reverse_loop fuel p prev w = Some (p', with_cells m' w) /\
    chain m' p' (rev l ++ acc) /\
    (forall x, x ∉ l.*1 -> m' !! x = cells (w_pool w) !! x) /\
    dom m' = dom (cells (w_pool w)).
Proof.
  revert fuel p prev acc w. induction l as [|[x t] l IH]; intros fuel p prev acc w Hl Ha Hd Hf.
  - cbn in Hl. subst p. exists prev, (cells (w_pool w)).
    split; [destruct fuel; cbn; by rewrite with_cells_id|]. done.
  - pose proof (chain_NoDup _ _ _ Hl) as Hnd. cbn in Hnd. apply NoDup_cons in Hnd as [Hxl _].
    destruct Hl as (-> & Hx & n & E & Hl).
    destruct fuel as [|fuel]; cbn in Hf; [lia|]. cbn [reverse_loop].
    rewrite (proj2 (Z.eqb_neq x EB_NULL)) by done.
    unfold bind at 1, get_node. rewrite E. cbn. rewrite of_to_item. unfold bind.
    rewrite (poke_live _ _ _ _ E) by apply node_not_free. rewrite next_set_next.
    set (w1 := with_cells _ w). set (m1 := <[x := _]> (cells (w_pool w))) in w1.
    assert (x ∉ acc.*1) as Hxa by (apply Hd; cbn; by left).
    assert (chain m1 x ((x, t) :: acc)) as Ha'.
    { split; [done|]. split; [done|]. exists prev. subst m1.
      rewrite lookup_insert_eq, set_set_next. split; [done|]. by apply chain_insert_ne. }
    destruct (IH fuel n x ((x, t) :: acc) w1) as (p' & m' & Hr & Hc & Hsame & Hdom).
    + by apply chain_insert_ne.
    + done.
    + intros y Hy. cbn. apply not_elem_of_cons. split; [by intros ->|].
      apply Hd. cbn. by right.
    + lia.
    + exists p', m'. rewrite Hr. subst w1. rewrite with_cells_twice. split; [done|].
      split; [cbn [rev]; by rewrite <- app_assoc|].
      split; [|rewrite Hdom; rewrite with_cells_cells; subst m1; rewrite dom_insert_L;
              apply elem_of_dom_2 in E; set_solver].
      intros y Hy. cbn in Hy. apply not_elem_of_cons in Hy as [Hne Hy].
      rewrite Hsame by done. cbn. subst m1. by rewrite lookup_insert_ne.
Qed.

Lemma reverse_list_spec p l w :
  chain (cells (w_pool w)) p l ->
  exists p' m', reverse_list p w = Some (p', with_cells m' w) /\
    chain m' p' (rev l) /\
    (forall x, x ∉ l.*1 -> m' !! x = cells (w_pool w) !! x) /\
    dom m' = dom (cells (w_pool w)).
Proof.
  intros Hl. unfold reverse_list.
  destruct (reverse_loop_spec (size (cells (w_pool w))) p EB_NULL l [] w Hl) as (p' & m' & H1 & H2 & H3).
  - done.
  - intros x _. apply not_elem_of_nil.
  - by eapply chain_length.
  - exists p', m'. rewrite app_nil_r in H2. done.
Qed.

Lemma load_list_spec p l w :
  chain (cells (w_pool w)) p l ->
  exists l', load_list p w = Some (l', w) /\ chain (cells (w_pool w)) p l' /\ l'.*1 = l.*1 /\
    map (fun xt => (xt.1, set_next EB_NULL xt.2)) l' = map (fun xt => (xt.1, set_next EB_NULL xt.2)) l.
Proof.
  intros Hl. unfold load_list.
  destruct (walk_complete (size (cells (w_pool w))) _ p l Hl) as (l' & E & H').
  - by eapply chain_length.
  - rewrite E. eauto.
Qed.

Lemma chain_cell m p l x : chain m p l -> x ∈ l.*1 -> exists t, m !! x = Some (to_item t).
Proof.
  intros Hl Hx. destruct (chain_suffix m p l x Hl Hx) as (t & l' & (_ & _ & n & E & _) & _). eauto.
Qed.

Lemma chain_live m p l x : chain m p l -> x ∈ l.*1 -> live m x.
Proof.
  intros Hl Hx. destruct (chain_cell m p l x Hl Hx) as (t & E). exists (to_item t).
  split; [done|apply node_not_free].
Qed.

(** In-place reversal keeps the pool well formed and the same cells allocated. *)
Lemma reverse_list_pool p l w :
  pool_wf (w_pool w) -> chain (cells (w_pool w)) p l ->
  exists p' w', reverse_list p w = Some (p', w') /\ w' = upd_pool (w_pool w') w /\
    pool_wf (w_pool w') /\ pl_size (w_pool w') = pl_size (w_pool w) /\
    chain (cells (w_pool w')) p' (rev l) /\
    (forall x, x ∉ l.*1 -> cells (w_pool w') !! x = cells (w_pool w) !! x) /\
    (forall x, live (cells (w_pool w')) x <-> live (cells (w_pool w)) x).
Proof.
  intros Hwf Hl. destruct (reverse_list_spec p l w Hl) as (p' & m' & E & Hc & Hsame & Hdom).
  exists p', (with_cells m' w).
  assert (forall x, m' !! x = cells (w_pool w) !! x \/ live (cells (w_pool w)) x /\ live m' x) as Hrel.
  { intros x. destruct (decide (x ∈ l.*1)) as [Hx|Hx]; [right|left; by apply Hsame].
    split; [by eapply chain_live|]. eapply chain_live; [exact Hc|].
    by apply elem_of_rev_fst. }
  assert (pool_wf (w_pool (with_cells m' w)) /\
          forall x, live m' x <-> live (cells (w_pool w)) x) as [Hwf' Hlive].
  { exact (pool_wf_relink m' (w_pool w) Hwf Hrel). }
  split_and!; done.
Qed.
End chain.
