(* ===== verification/Cycle.v ===== *)
(** Operations and cycles: [src/api/glue/operation.c], [operation.h],
    [src/api/glue/cycle.c]. *)
From stdpp Require Import base list gmap.
From Stdlib Require Import ZArith Lia.
From S2P Require Import Prelude Widths Store World Linked.

(** * operation.h *)

Definition EB_OP_WRITE : Z := 0x00.
Definition EB_OP_READ_PTR : Z := 0x01.
Definition EB_OP_READ_VAL : Z := 0x02.
Definition EB_OP_MASK : Z := 0x03.
Definition EB_OP_CFG_SPACE : Z := 0x04.
Definition EB_OP_ERROR : Z := 0x08.
Definition EB_OP_CHECKED : Z := 0x10.

(** Tests on the flags, as the code writes them. *)
Definition is_read (o : eb_operation) : bool := negb ((op_flags o .& EB_OP_MASK) =? EB_OP_WRITE).
Definition is_write (o : eb_operation) : bool := (op_flags o .& EB_OP_MASK) =? EB_OP_WRITE.
Definition is_config (o : eb_operation) : bool := negb ((op_flags o .& EB_OP_CFG_SPACE) =? 0).
Definition had_error (o : eb_operation) : bool := negb ((op_flags o .& EB_OP_ERROR) =? 0).

(** Field updates. *)
Definition op_set_flags (f : Z) (o : eb_operation) : eb_operation :=
  mk_operation (op_address o) (op_value o) f (op_format o) (op_next o).
Definition op_set_format (f : Z) (o : eb_operation) : eb_operation :=
  mk_operation (op_address o) (op_value o) (op_flags o) f (op_next o).
Definition op_set_value (v : Z) (o : eb_operation) : eb_operation :=
  mk_operation (op_address o) v (op_flags o) (op_format o) (op_next o).
Definition cy_set_ops (x : Z) (c : eb_cycle) : eb_cycle :=
  mk_cycle (cy_callback c) (cy_user_data c) x (cy_link c).
Definition cy_set_link (x : Z) (c : eb_cycle) : eb_cycle :=
  mk_cycle (cy_callback c) (cy_user_data c) (cy_ops c) x.
Definition cy_set_user (x : Z) (c : eb_cycle) : eb_cycle :=
  mk_cycle (cy_callback c) x (cy_ops c) (cy_link c).
Definition dv_set_unready (n : Z) (d : eb_device) : eb_device :=
  mk_device (dv_socket d) (dv_next d) (dv_un_link d) n (dv_widths d) (dv_link d) (dv_transport d).
Definition dv_set_un_link (x : Z) (d : eb_device) : eb_device :=
  mk_device (dv_socket d) (dv_next d) x (dv_unready d) (dv_widths d) (dv_link d) (dv_transport d).

(** [eb_socket_run] as the functions below it call it: a blocking cycle re-enters
    the socket's event loop, which may run any callback. [b_fuel] bounds the
    number of rounds a blocking call waits. *)
Class Blocking (X : Type) := { b_run : Z -> Z -> M X Z; b_fuel : nat }.

Section cycle.
Context {X : Type} `{Env X} `{Blocking X}.

(** * operation.c *)

Definition eb_operation_next (opp : Z) : M X Z :=
  let* op := EB_OPERATION opp in ret (op_next op).
Definition eb_operation_is_read (opp : Z) : M X Z :=
  let* op := EB_OPERATION opp in ret (c_bool (is_read op)).
Definition eb_operation_is_config (opp : Z) : M X Z :=
  let* op := EB_OPERATION opp in ret (c_bool (is_config op)).
Definition eb_operation_had_error (opp : Z) : M X Z :=
  let* op := EB_OPERATION opp in ret (c_bool (had_error op)).
Definition eb_operation_address (opp : Z) : M X Z :=
  let* op := EB_OPERATION opp in ret (op_address op).
Definition eb_operation_data (opp : Z) : M X Z :=
  let* op := EB_OPERATION opp in
  let k := op_flags op .& EB_OP_MASK in
  if k =? EB_OP_WRITE then ret (op_value op)
  else if k =? EB_OP_READ_PTR then user_load (op_value op)
  else if k =? EB_OP_READ_VAL then ret (op_value op)
  else ret 0.
Definition eb_operation_format (opp : Z) : M X Z :=
  let* op := EB_OPERATION opp in ret (op_format op).

(** [for (; opp != EB_NULL; opp = op->next) if (test) break; return opp;] *)
Fixpoint find_op (test : eb_operation -> bool) (fuel : nat) (opp : Z) : M X Z :=
  if opp =? EB_NULL then ret opp
  else match fuel with
    | O => fault
    | S fuel =>
      let* op := EB_OPERATION opp in
      if test op then ret opp else find_op test fuel (op_next op)
    end.

(** A list has at most as many nodes as the pool has cells. *)
Definition pool_fuel : M X nat := gets (fun w => size (cells (w_pool w))).

Definition eb_find_bus (opp : Z) : M X Z :=
  let* n := pool_fuel in find_op (fun op => negb (is_config op)) n opp.
Definition eb_find_read (opp : Z) : M X Z :=
  let* n := pool_fuel in find_op is_read n opp.

(** * cycle.c *)

(** [*ptr = status], [ptr] being the cycle's user data. *)
Definition eb_block_f (user device operation status : Z) : M X unit := user_store user status.

Definition eb_cycle_device (cyclep : Z) : M X Z :=
  let* cycle := EB_CYCLE cyclep in ret (cy_link cycle).

(** Returns the status and [*result]; [cb = None] is the null callback. *)
Definition eb_cycle_open (devicep user : Z) (cb : option eb_callback) : M X (Z * Z) :=
  let* cyclep := eb_new in
  if cyclep =? EB_NULL then ret (EB_OOM, EB_NULL)
  else
    let* device := EB_DEVICE devicep in
    if dv_un_link device =? devicep then
      eb_free cyclep ;;; ret (EB_FAIL, EB_NULL)
    else
      poke cyclep (ICycle (mk_cycle (match cb with Some f => f | None => cb_block_f end)
                             user EB_NULL devicep)) ;;;
      poke devicep (IDevice (dv_set_unready (u8 (dv_unready device + 1)) device)) ;;;
      ret (EB_OK, cyclep).

(** [for (i = first; i != EB_NULL; i = next) { next = i->next; eb_free_operation(i); }] *)
Fixpoint free_ops (fuel : nat) (i : Z) : M X unit :=
  if i =? EB_NULL then ret tt
  else match fuel with
    | O => fault
    | S fuel =>
      let* op := EB_OPERATION i in
      eb_free i ;;; free_ops fuel (op_next op)
    end.

Definition eb_cycle_destroy (cyclep : Z) : M X unit :=
  let* cycle := EB_CYCLE cyclep in
  let* n := pool_fuel in
  when (negb (cy_ops cycle =? cyclep)) (free_ops n (cy_ops cycle)) ;;;
  poke cyclep (ICycle (cy_set_ops EB_NULL cycle)).

Definition eb_cycle_abort (cyclep : Z) : M X unit :=
  let* cycle := EB_CYCLE cyclep in
  let* device := EB_DEVICE (cy_link cycle) in
  poke (cy_link cycle) (IDevice (dv_set_unready (u8 (dv_unready device - 1)) device)) ;;;
  eb_cycle_destroy cyclep ;;;
  eb_free cyclep.

Definition eb_raw_cycle_close (cyclep : Z) : M X unit :=
  let* cycle := EB_CYCLE cyclep in
  let devicep := cy_link cycle in
  let* device := EB_DEVICE devicep in
  let* ops := (if negb (cy_ops cycle =? cyclep)
               then reverse_list (T := eb_operation) (cy_ops cycle)
               else ret (cy_ops cycle)) in
  poke cyclep (ICycle (cy_set_link (dv_un_link device) (cy_set_ops ops cycle))) ;;;
  poke devicep (IDevice (dv_set_unready (u8 (dv_unready device - 1))
                          (dv_set_un_link cyclep device))).

(** The wait of a blocking cycle, [while (status > 0) eb_socket_run(socketp, -1);]. *)
Fixpoint block_loop (socketp status_ptr : Z) (fuel : nat) : M X Z :=
  let* status := user_load status_ptr in
  if 0 <? status then
    match fuel with
    | O => fault
    | S fuel => b_run socketp (-1) ;;; block_loop socketp status_ptr fuel
    end
  else ret status.

(** The local variable [status] lives at an address no one else uses. *)
Definition fresh_address : M X Z := gets (fun w => fresh (dom (w_user w))).

Definition eb_cycle_block (devicep cyclep : Z) : M X Z :=
  let* cycle := EB_CYCLE cyclep in
  if decide (cy_callback cycle = cb_block_f) then
    let* ptr := fresh_address in
    user_store ptr 1 ;;;
    poke cyclep (ICycle (cy_set_user ptr cycle)) ;;;
    let* device := EB_DEVICE devicep in
    block_loop (dv_socket device) ptr b_fuel
  else ret EB_OK.

Definition eb_cycle_close_silently (cyclep : Z) : M X Z :=
  let* devicep := eb_cycle_device cyclep in
  eb_raw_cycle_close cyclep ;;;
  eb_cycle_block devicep cyclep.

Definition eb_cycle_close (cyclep : Z) : M X Z :=
  let* devicep := eb_cycle_device cyclep in
  eb_raw_cycle_close cyclep ;;;
  let* cycle := EB_CYCLE cyclep in
  let opp := cy_ops cycle in
  when (negb (opp =? EB_NULL) && negb (opp =? cyclep))
    (let* op := EB_OPERATION opp in
     poke opp (IOperation (op_set_flags (u8 (op_flags op .| EB_OP_CHECKED)) op))) ;;;
  eb_cycle_block devicep cyclep.

(** The new operation, or [None] for the scratch object [crap], whose contents
    nobody reads. *)
Definition eb_cycle_doop (cyclep : Z) : M X (option Z) :=
  let* opp := eb_new in
  let* cycle := EB_CYCLE cyclep in
  if opp =? EB_NULL then
    eb_cycle_destroy cyclep ;;;
    let* cycle := EB_CYCLE cyclep in
    poke cyclep (ICycle (cy_set_ops cyclep cycle)) ;;;
    ret None
  else if cy_ops cycle =? cyclep then
    eb_free opp ;;; ret None
  else
    poke opp (IOperation (mk_operation 0 0 0 0 (cy_ops cycle))) ;;;
    poke cyclep (ICycle (cy_set_ops opp cycle)) ;;;
    ret (Some opp).

(** Fill in the fields of the new operation; its link is already set. *)
Definition fill_op (opp : option Z) (address value flags format : Z) : M X unit :=
  match opp with
  | None => ret tt
  | Some opp =>
      let* op := EB_OPERATION opp in
      poke opp (IOperation (mk_operation address value flags format (op_next op)))
  end.

(** [data] is the read destination, [0] for none. *)
Definition eb_cycle_read (cycle address format data : Z) : M X unit :=
  let* op := eb_cycle_doop cycle in
  fill_op op address data (if negb (data =? 0) then EB_OP_READ_PTR else EB_OP_READ_VAL) format.

Definition eb_cycle_read_config (cycle address format data : Z) : M X unit :=
  let* op := eb_cycle_doop cycle in
  fill_op op address data
    (if negb (data =? 0) then EB_OP_READ_PTR .| EB_OP_CFG_SPACE
     else EB_OP_READ_VAL .| EB_OP_CFG_SPACE) format.

Definition eb_cycle_write (cycle address format data : Z) : M X unit :=
  let* op := eb_cycle_doop cycle in
  fill_op op address data EB_OP_WRITE format.

Definition eb_cycle_write_config (cycle address format data : Z) : M X unit :=
  let* op := eb_cycle_doop cycle in
  fill_op op address data (EB_OP_WRITE .| EB_OP_CFG_SPACE) format.
End cycle.

(** * Correctness of building, queueing and aborting a cycle *)

(** A request of the application, the library call that records it and the
    operation it stands for (its link is not yet meaningful). *)
Inductive request :=
  | Rread (address format data : Z)
  | Rread_config (address format data : Z)
  | Rwrite (address format data : Z)
  | Rwrite_config (address format data : Z).

Definition read_flags (data : Z) : Z := if negb (data =? 0) then EB_OP_READ_PTR else EB_OP_READ_VAL.

Definition request_op (r : request) : eb_operation :=
  match r with
  | Rread a f d => mk_operation a d (read_flags d) f EB_NULL
  | Rread_config a f d => mk_operation a d (read_flags d .| EB_OP_CFG_SPACE) f EB_NULL
  | Rwrite a f d => mk_operation a d EB_OP_WRITE f EB_NULL
  | Rwrite_config a f d => mk_operation a d (EB_OP_WRITE .| EB_OP_CFG_SPACE) f EB_NULL
  end.

Section proofs.
Context {X : Type} `{Env X} `{!PoolExpander e_expand} `{Blocking X}.
Implicit Types w : world X.

Definition issue (cyclep : Z) (r : request) : M X unit :=
  match r with
  | Rread a f d => eb_cycle_read cyclep a f d
  | Rread_config a f d => eb_cycle_read_config cyclep a f d
  | Rwrite a f d => eb_cycle_write cyclep a f d
  | Rwrite_config a f d => eb_cycle_write_config cyclep a f d
  end.

(** Every request is [eb_cycle_doop] followed by the same assignments. *)
Lemma issue_doop cyclep r w :
  issue cyclep r w =
  bind (eb_cycle_doop cyclep) (fun op =>
    let o := request_op r in fill_op op (op_address o) (op_value o) (op_flags o) (op_format o)) w.
Proof.
  destruct r; unfold issue, eb_cycle_read, eb_cycle_read_config, request_op, read_flags;
    try (destruct (negb (data =? 0))); reflexivity.
Qed.

(** [frame S w w']: only cells in [S] change, and only the pool. *)
Definition frame (S : Z -> Prop) w w' : Prop :=
  pool_ok w' /\ w' = upd_pool (w_pool w') w /\
  forall y, ~ S y -> live (cells (w_pool w)) y -> cells (w_pool w') !! y = cells (w_pool w) !! y.

Lemma upd_pool_twice p p' w : upd_pool p (upd_pool p' w) = upd_pool p w.
Proof. done. Qed.

(** What a second step touches beyond [S] must not have existed at the start. *)
Lemma frame_trans (S S' : Z -> Prop) w1 w2 w3 :
  frame S w1 w2 -> frame S' w2 w3 -> (forall y, live (cells (w_pool w1)) y -> S' y -> S y) ->
  frame S w1 w3.
Proof.
  intros (H1 & E1 & F1) (H2 & E2 & F2) Hs. split; [done|]. split; [rewrite E2, E1; done|].
  intros y Hy Hl. rewrite F2; [by apply F1|naive_solver|].
  destruct Hl as (it & ? & ?). exists it. rewrite F1; [done|done|by exists it].
Qed.

Lemma frame_refl S w : pool_ok w -> frame S w w.
Proof. intros Hw. split_and!; [done|by destruct w|done]. Qed.

Lemma frame_weaken (S S' : Z -> Prop) w w' : frame S w w' -> (forall y, S y -> S' y) -> frame S' w w'.
Proof. intros (? & ? & F) Hs. split_and!; [done|done|]. intros y Hy. apply F. naive_solver. Qed.

Lemma poke_frame (S : Z -> Prop) x it it0 w :
  pool_ok w -> cells (w_pool w) !! x = Some it0 -> is_free it0 = false -> is_free it = false -> S x ->
  exists w', poke x it w = Some (tt, w') /\ frame S w w' /\
    cells (w_pool w') = <[x := it]> (cells (w_pool w)) /\
    (forall y, live (cells (w_pool w')) y <-> live (cells (w_pool w)) y).
Proof.
  intros [Hwf Hs] E F F' Hx. destruct (poke_spec x it it0 w Hwf E F F') as (p' & Hp & Hwf' & Hc & Hsz).
  exists (upd_pool p' w). split; [done|]. cbn [w_pool upd_pool]. split_and!.
  - split; [split; cbn; by rewrite ?Hsz|]. split; [done|].
    intros y Hy _. cbn. rewrite Hc. apply lookup_insert_ne. naive_solver.
  - done.
  - intros y. rewrite Hc, <- !elem_of_live_set, live_insert_used by done.
    assert (x ∈ live_set (cells (w_pool w))) by (apply elem_of_live_set; by exists it0). set_solver.
Qed.

Lemma free_frame (S : Z -> Prop) x w :
  pool_ok w -> live (cells (w_pool w)) x -> S x ->
  exists w', eb_free x w = Some (tt, w') /\ frame S w w' /\
    (forall y, live (cells (w_pool w')) y <-> live (cells (w_pool w)) y /\ y <> x).
Proof.
  intros [Hwf Hs] Hl Hx. destruct (eb_free_spec x w Hwf Hl) as (p' & E & Hwf' & Hsz & Hdead & Hsame).
  exists (upd_pool p' w). split; [done|]. split.
  - split_and!; [split; [done|cbn; by rewrite Hsz]|done|]. intros y Hy _. apply Hsame. naive_solver.
  - intros y. destruct (decide (y = x)) as [->|Hne]; [naive_solver|].
    unfold live. cbn. rewrite Hsame by done. naive_solver.
Qed.

(** Freeing the operations of a chain frees exactly its cells. *)
Lemma free_ops_spec n p (l : list (Z * eb_operation)) w :
  pool_ok w -> chain (cells (w_pool w)) p l -> (length l <= n)%nat ->
  exists w', free_ops n p w = Some (tt, w') /\ frame (fun y => y ∈ l.*1) w w' /\
    (forall y, live (cells (w_pool w')) y <-> live (cells (w_pool w)) y /\ y ∉ l.*1).
Proof.
  revert n p w. induction l as [|[x o] l IH]; intros n p w Hw Hc Hn.
  - cbn in Hc. subst p. exists w. split; [by destruct n|]. split; [by apply frame_refl|].
    intros y. split; [intros Hy; split; [done|apply not_elem_of_nil]|naive_solver].
  - pose proof (chain_NoDup _ _ _ Hc) as Hnd. cbn in Hnd. apply NoDup_cons in Hnd as [Hxl _].
    destruct Hc as (-> & Hx & k & E & Hc). destruct n as [|n]; cbn in Hn; [lia|].
    cbn [free_ops]. rewrite (proj2 (Z.eqb_neq x EB_NULL)) by done.
    mstep (EB_OPERATION_some _ _ _ E). destruct Hw as [Hwf Hs].
    assert (live (cells (w_pool w)) x) as Hlx by (by eexists).
    destruct (eb_free_spec x w Hwf Hlx) as (p' & Ef & Hwf' & Hs' & Hdead & Hsame). mstep Ef.
    set (w1 := upd_pool p' w).
    assert (pool_ok w1) as Hw1 by (split; [done|cbn; by rewrite Hs']).
    destruct (IH n k w1) as (w' & Er & Hf & Hl); [done| |lia|].
    { eapply chain_agree; [|exact Hc]. intros y Hy. apply Hsame. by intros ->. }
    exists w'. cbn in Er |- *. split; [exact Er|].
    assert (forall y, live (cells (w_pool w1)) y <-> live (cells (w_pool w)) y /\ y <> x) as Hl1.
    { intros y. destruct (decide (y = x)) as [->|Hne]; [naive_solver|].
      unfold live. cbn. rewrite Hsame by done. naive_solver. }
    split.
    + eapply (frame_trans _ _ _ w1); [|exact Hf|intros y _; cbn; rewrite elem_of_cons; auto].
      split_and!; [done|done|]. intros y Hy _. apply Hsame. intros ->. apply Hy. cbn. by left.
    + intros y. rewrite Hl, Hl1, elem_of_cons. naive_solver.
Qed.

(** ** The cycle object *)

(** A cycle holds either the requests recorded so far, latest first, or the
    self-pointer that records an out-of-memory. [c] gives the other fields. *)
Definition cycle_repr w (cyclep : Z) (c : eb_cycle) (st : option (list (Z * eb_operation))) : Prop :=
  match st with
  | Some l => exists p, cells (w_pool w) !! cyclep = Some (ICycle (cy_set_ops p c)) /\
                        chain (cells (w_pool w)) p l
  | None => cells (w_pool w) !! cyclep = Some (ICycle (cy_set_ops cyclep c))
  end.

(** The operation cells of a cycle. *)
Definition owned (st : option (list (Z * eb_operation))) : list Z := (default [] st).*1.

Lemma chain_op_cell m p (l : list (Z * eb_operation)) x :
  chain m p l -> x ∈ l.*1 -> exists o, m !! x = Some (IOperation o).
Proof. intros Hc Hx. destruct (chain_suffix _ _ _ _ Hc Hx) as (t & l' & (_ & _ & n & E & _) & _). eauto. Qed.

Lemma cycle_not_op m p (l : list (Z * eb_operation)) x c :
  chain m p l -> m !! x = Some (ICycle c) -> x ∉ l.*1.
Proof. intros Hc E Hx. destruct (chain_op_cell _ _ _ _ Hc Hx) as (o & Eo). by rewrite E in Eo. Qed.

Lemma chain_not_self w p (l : list (Z * eb_operation)) cyclep c :
  pool_ok w -> chain (cells (w_pool w)) p l -> cells (w_pool w) !! cyclep = Some (ICycle c) ->
  (p =? cyclep) = false.
Proof.
  intros [Hwf _] Hc E. apply Z.eqb_neq. intros ->. destruct l as [|[x o] l].
  - cbn in Hc. subst cyclep. apply (wf_null _ Hwf). by eexists.
  - destruct Hc as (-> & _ & n & E' & _). by rewrite E in E'.
Qed.

Lemma cycle_cell w cyclep c st :
  cycle_repr w cyclep c st -> exists p, cells (w_pool w) !! cyclep = Some (ICycle (cy_set_ops p c)).
Proof. destruct st; [intros (p & ? & _)|intros ?]; eauto. Qed.

Lemma cyclep_not_owned w cyclep c st : cycle_repr w cyclep c st -> cyclep ∉ owned st.
Proof.
  destruct st as [l|]; [|intros _; apply not_elem_of_nil].
  intros (p & E & Hc). by eapply cycle_not_op.
Qed.

(** The part of [eb_cycle_destroy] before the final assignment. *)
Lemma destroy_free w cyclep c st p n :
  pool_ok w -> cycle_repr w cyclep c st -> cells (w_pool w) !! cyclep = Some (ICycle (cy_set_ops p c)) ->
  n = size (cells (w_pool w)) ->
  exists w1, when (negb (p =? cyclep)) (free_ops n p) w = Some (tt, w1) /\
    frame (fun y => y ∈ owned st) w w1 /\
    (forall y, live (cells (w_pool w1)) y <-> live (cells (w_pool w)) y /\ y ∉ owned st).
Proof.
  intros Hw Hr E ->. destruct st as [l|]; cbn [cycle_repr] in Hr.
  - destruct Hr as (p' & E' & Hc). rewrite E in E'. injection E' as <-.
    rewrite (chain_not_self _ _ _ _ _ Hw Hc E). apply (free_ops_spec _ p l w Hw Hc), (chain_length _ _ _ Hc).
  - rewrite E in Hr. injection Hr as ->. rewrite Z.eqb_refl. exists w. split; [done|].
    split; [by apply frame_refl|]. intros y. unfold owned. cbn. pose proof (not_elem_of_nil y). tauto.
Qed.

Lemma eb_cycle_destroy_spec cyclep c st w :
  pool_ok w -> cycle_repr w cyclep c st ->
  exists w', eb_cycle_destroy cyclep w = Some (tt, w') /\
    frame (fun y => y = cyclep \/ y ∈ owned st) w w' /\
    cells (w_pool w') !! cyclep = Some (ICycle (cy_set_ops EB_NULL c)) /\
    (forall y, live (cells (w_pool w')) y <-> live (cells (w_pool w)) y /\ y ∉ owned st).
Proof.
  intros Hw Hr. destruct (cycle_cell _ _ _ _ Hr) as (p & E).
  unfold eb_cycle_destroy. mstep (EB_CYCLE_some _ _ _ E). cbn [cy_ops cy_set_ops].
  unfold pool_fuel, gets. unfold bind at 1.
  destruct (destroy_free w cyclep c st p _ Hw Hr E eq_refl) as (w1 & Ef & Hf & Hl). mstep Ef.
  pose proof (cyclep_not_owned _ _ _ _ Hr) as Hn.
  assert (cells (w_pool w1) !! cyclep = Some (ICycle (cy_set_ops p c))) as E1.
  { destruct Hf as (_ & _ & Hf). rewrite Hf; [done|done|by eexists]. }
  destruct (poke_frame (fun y => y = cyclep) cyclep (ICycle (cy_set_ops EB_NULL c)) _ w1 (proj1 Hf) E1)
    as (w2 & Ep & Hf2 & Hcells & Hl2); [done..|].
  exists w2. split; [exact Ep|]. split_and!.
  - eapply frame_trans; [|exact Hf2|naive_solver].
    destruct Hf as (? & ? & Hf). split_and!; [done|done|]. intros y Hy. apply Hf. naive_solver.
  - rewrite Hcells. apply lookup_insert_eq.
  - intros y. by rewrite Hl2.
Qed.

(** ** Recording a request *)

(** What one request, or several, may do to a cycle. *)
Record issued w (cyclep : Z) (c : eb_cycle) (st st' : option (list (Z * eb_operation))) w' : Prop := {
  is_frame : frame (fun y => y = cyclep \/ y ∈ owned st) w w';
  is_repr : cycle_repr w' cyclep c st';
  is_live : forall y, live (cells (w_pool w')) y <->
              (live (cells (w_pool w)) y /\ y ∉ owned st) \/ y ∈ owned st';
  is_new : forall y, y ∈ owned st' -> y ∈ owned st \/ ~ live (cells (w_pool w)) y }.

Lemma poke_cell x it it0 w :
  pool_ok w -> cells (w_pool w) !! x = Some it0 -> is_free it0 = false -> is_free it = false ->
  exists w', poke x it w = Some (tt, w') /\ frame (fun y => y = x) w w' /\
    cells (w_pool w') = <[x := it]> (cells (w_pool w)) /\
    (forall y, live (cells (w_pool w')) y <-> live (cells (w_pool w)) y).
Proof. intros. by eapply poke_frame. Qed.

(** Out of memory: the operations are released and the cycle is marked dead. *)
Lemma doop_oom cyclep c st w :
  pool_ok w -> cycle_repr w cyclep c st ->
  exists w1 c1 w', eb_cycle_destroy cyclep w = Some (tt, w1) /\ EB_CYCLE cyclep w1 = Some (c1, w1) /\
    poke cyclep (ICycle (cy_set_ops cyclep c1)) w1 = Some (tt, w') /\ issued w cyclep c st None w'.
Proof.
  intros Hw Hr. destruct (eb_cycle_destroy_spec cyclep c st w Hw Hr) as (w1 & E1 & Hf1 & Ec1 & Hl1).
  destruct (poke_cell cyclep (ICycle (cy_set_ops cyclep (cy_set_ops EB_NULL c))) _ w1 (proj1 Hf1) Ec1)
    as (w2 & E2 & Hf2 & Hc2 & Hl2); [done..|].
  exists w1, (cy_set_ops EB_NULL c), w2. split_and!; [done|by apply EB_CYCLE_some|done|]. split.
  - eapply frame_trans; [exact Hf1|exact Hf2|]. naive_solver.
  - cbn. rewrite Hc2. apply lookup_insert_eq.
  - intros y. rewrite Hl2, Hl1. unfold owned at 2. cbn. pose proof (not_elem_of_nil y). tauto.
  - intros y Hy. by apply not_elem_of_nil in Hy.
Qed.

Lemma alloc_frame w x p1 :
  alloc_post (w_pool w) x p1 -> pool_ok (upd_pool p1 w) -> frame (fun _ => False) w (upd_pool p1 w).
Proof.
  intros (_ & _ & _ & _ & Hkeep & _) Hw. split_and!; [done|done|].
  intros y _ Hl. pose proof Hl as (it & E & _). rewrite E. by apply Hkeep.
Qed.

(** The cycle after the pool has grown by a cell. *)
Lemma repr_alloc w x p1 cyclep c st :
  alloc_post (w_pool w) x p1 -> cycle_repr w cyclep c st -> cycle_repr (upd_pool p1 w) cyclep c st.
Proof.
  intros (_ & _ & _ & _ & Hkeep & _) Hr. destruct st as [l|]; cbn in *.
  - destruct Hr as (p & E & Hc). exists p. split; [apply Hkeep; [by eexists|done]|].
    eapply chain_agree; [|exact Hc]. intros y Hy. destruct (chain_op_cell _ _ _ _ Hc Hy) as (o & Eo).
    rewrite Eo. apply Hkeep; [by eexists|done].
  - apply Hkeep; [by eexists|done].
Qed.

(** A cycle that already ran out of memory drops the request. *)
Lemma issue_dead cyclep c r w x p1 :
  cycle_repr w cyclep c None ->
  eb_new w = Some (x, upd_pool p1 w) -> alloc_post (w_pool w) x p1 -> pool_ok (upd_pool p1 w) ->
  exists w', issue cyclep r w = Some (tt, w') /\ issued w cyclep c None None w'.
Proof.
  intros Hr En Ha Hw1. rewrite issue_doop. unfold eb_cycle_doop. mstep En.
  pose proof (repr_alloc _ _ _ _ _ _ Ha Hr) as E1. cbn [cycle_repr] in E1.
  mstep (EB_CYCLE_some _ _ _ E1). cbn [cy_ops cy_set_ops].
  pose proof (alloc_frame _ _ _ Ha Hw1) as Hf.
  destruct Ha as (Hx & Hdead & Hraw & Hlive & Hkeep & Hwf1).
  rewrite (proj2 (Z.eqb_neq x EB_NULL)), Z.eqb_refl by done.
  destruct (eb_free_spec x (upd_pool p1 w) Hwf1) as (p2 & Ef & Hwf2 & Hs2 & Hd2 & Hsame);
    [by eexists|].
  mstep Ef. exists (upd_pool p2 w). split; [done|].
  assert (cyclep <> x) as Hne by (intros ->; apply Hdead; by eexists).
  split.
  - split_and!; [|done|].
    + split; [done|]. cbn in Hs2 |- *. rewrite Hs2. apply Hw1.
    + intros y Hy Hl. cbn. rewrite Hsame by (intros ->; by apply Hdead).
      destruct Hf as (_ & _ & Hf). apply Hf; [tauto|done].
  - cbn. by rewrite Hsame.
  - intros y. unfold owned. cbn. pose proof (not_elem_of_nil y).
    destruct (decide (y = x)) as [->|Hy]; [tauto|].
    assert (live (cells p2) y <-> live (cells p1) y) as -> by (unfold live; by rewrite Hsame).
    rewrite Hlive. tauto.
  - intros y Hy. by apply not_elem_of_nil in Hy.
Qed.

(** Otherwise the new operation becomes the head of the list. *)
Lemma issue_live cyclep c l r w x p1 :
  pool_ok w -> cycle_repr w cyclep c (Some l) ->
  eb_new w = Some (x, upd_pool p1 w) -> alloc_post (w_pool w) x p1 -> pool_ok (upd_pool p1 w) ->
  exists w', issue cyclep r w = Some (tt, w') /\
    issued w cyclep c (Some l) (Some ((x, request_op r) :: l)) w'.
Proof.
  intros Hw Hr En Ha Hw1. rewrite issue_doop. unfold eb_cycle_doop. mstep En.
  set (w1 := upd_pool p1 w) in *. pose proof (alloc_frame _ _ _ Ha Hw1) as Hf.
  destruct (repr_alloc _ _ _ _ _ _ Ha Hr) as (p & E1 & Hc1). fold w1 in E1, Hc1.
  destruct Ha as (Hx & Hdead & Hraw & Hlive & Hkeep & Hwf1). fold w1 in Hf.
  change p1 with (w_pool w1) in Hraw, Hlive.
  mstep (EB_CYCLE_some _ _ _ E1). cbn [cy_ops cy_set_ops].
  rewrite (proj2 (Z.eqb_neq x EB_NULL)), (chain_not_self _ _ _ _ _ Hw1 Hc1 E1) by done.
  assert (cyclep <> x) as Hne by (intros ->; by rewrite Hraw in E1).
  assert (x ∉ l.*1) as Hxl.
  { intros Hin. destruct (chain_op_cell _ _ _ _ Hc1 Hin) as (o & Eo). by rewrite Hraw in Eo. }
  destruct (poke_cell x (IOperation (mk_operation 0 0 0 0 p)) _ w1 Hw1 Hraw)
    as (w2 & E2 & Hf2 & Hc2 & Hl2); [done..|]. mstep E2.
  assert (cells (w_pool w2) !! cyclep = Some (ICycle (cy_set_ops p c))) as Ecy2
    by by rewrite Hc2, lookup_insert_ne.
  destruct (poke_cell cyclep (ICycle (cy_set_ops x (cy_set_ops p c))) _ w2 (proj1 Hf2) Ecy2)
    as (w3 & E3 & Hf3 & Hc3 & Hl3); [done..|]. mstep E3. rewrite bind_ret.
  assert (cells (w_pool w3) !! x = Some (IOperation (mk_operation 0 0 0 0 p))) as Ex3
    by (rewrite Hc3, lookup_insert_ne, Hc2 by done; apply lookup_insert_eq).
  cbn zeta. cbn [fill_op]. mstep (EB_OPERATION_some _ _ _ Ex3). cbn [op_next].
  set (o' := mk_operation _ _ _ _ p).
  destruct (poke_cell x (IOperation o') _ w3 (proj1 Hf3) Ex3) as (w4 & E4 & Hf4 & Hc4 & Hl4); [done..|].
  exists w4. split; [exact E4|]. split.
  - eapply frame_trans; [|exact Hf4|intros y Hy ->; destruct Hdead; done].
    eapply frame_trans; [|exact Hf3|naive_solver].
    eapply frame_trans; [|exact Hf2|intros y Hy ->; destruct Hdead; done].
    destruct Hf as (? & ? & Hf). split_and!; [done|done|]. intros y _. apply Hf. naive_solver.
  - exists x. split; [rewrite Hc4, lookup_insert_ne, Hc3 by done; apply lookup_insert_eq|].
    split; [done|]. split; [done|]. exists p. split; [rewrite Hc4, lookup_insert_eq; by destruct r|].
    apply (chain_agree (cells (w_pool w1))); [|done]. intros y Hy.
    assert (y <> x /\ y <> cyclep) as [? ?].
    { split; intros ->; [done|]. by apply (cycle_not_op _ _ _ _ _ Hc1 E1). }
    by rewrite Hc4, lookup_insert_ne, Hc3, lookup_insert_ne, Hc2, lookup_insert_ne.
  - intros y. rewrite Hl4, Hl3, Hl2, Hlive. unfold owned. cbn. rewrite elem_of_cons.
    destruct (decide (y ∈ l.*1)) as [Hin|]; [|tauto].
    destruct Hr as (p0 & _ & Hc). destruct (chain_op_cell _ _ _ _ Hc Hin) as (o & Eo).
    assert (live (cells (w_pool w)) y) by by eexists. tauto.
  - unfold owned. cbn. intros y [->|Hy]%elem_of_cons; [by right|by left].
Qed.

Lemma issue_spec cyclep c st r w :
  pool_ok w -> cycle_repr w cyclep c st ->
  exists w' st', issue cyclep r w = Some (tt, w') /\ issued w cyclep c st st' w' /\
    (st' = None \/ exists l x, st = Some l /\ st' = Some ((x, request_op r) :: l)).
Proof.
  intros Hw Hr. destruct (eb_new_spec w Hw) as (x & p1 & En & Hw1 & Hcase).
  destruct (cycle_cell _ _ _ _ Hr) as (p & E). destruct Hcase as [[-> ->]|Ha].
  - rewrite issue_doop. unfold eb_cycle_doop. rewrite upd_pool_id in *. mstep En.
    mstep (EB_CYCLE_some _ _ _ E). rewrite Z.eqb_refl.
    destruct (doop_oom cyclep c st w Hw Hr) as (w1 & c1 & w' & E1 & E2 & E3 & Hi).
    mstep E1. mstep E2. mstep E3. exists w', None. eauto.
  - destruct st as [l|].
    + destruct (issue_live cyclep c l r w x p1) as (w' & Ei & Hi); [done..|]. eauto 10.
    + destruct (issue_dead cyclep c r w x p1) as (w' & Ei & Hi); [done..|]. eauto 10.
Qed.

Lemma issued_refl w cyclep c st : pool_ok w -> cycle_repr w cyclep c st -> issued w cyclep c st st w.
Proof.
  intros Hw Hr. split; [by apply frame_refl|done| |naive_solver].
  intros y. destruct (decide (y ∈ owned st)) as [Hy|]; [|tauto].
  destruct st as [l|]; [|by apply not_elem_of_nil in Hy].
  destruct Hr as (p & _ & Hc). pose proof (chain_live _ _ _ _ Hc Hy). tauto.
Qed.

Lemma issued_trans w1 w2 w3 cyclep c st1 st2 st3 :
  issued w1 cyclep c st1 st2 w2 -> issued w2 cyclep c st2 st3 w3 -> issued w1 cyclep c st1 st3 w3.
Proof.
  intros [F1 R1 L1 N1] [F2 R2 L2 N2]. split.
  - eapply frame_trans; [exact F1|exact F2|]. intros y Hy [->|Hin]; [by left|].
    destruct (N1 y Hin); tauto.
  - done.
  - intros y. rewrite L2, L1. specialize (N1 y). tauto.
  - intros y Hy. destruct (N2 y Hy) as [Hin|Hd]; [by apply N1|].
    rewrite L1 in Hd. destruct (decide (y ∈ owned st1)); tauto.
Qed.

Lemma issue_all_spec cyclep c reqs st w :
  pool_ok w -> cycle_repr w cyclep c st ->
  exists w' st', mapM_ (issue cyclep) reqs w = Some (tt, w') /\ issued w cyclep c st st' w' /\
    (st' = None \/ exists l xs, st = Some l /\ length xs = length reqs /\
       st' = Some (rev (zip xs (map request_op reqs)) ++ l)).
Proof.
  revert st w. induction reqs as [|r reqs IH]; intros st w Hw Hr.
  - exists w, st. split; [done|]. split; [by apply issued_refl|].
    destruct st as [l|]; [right|by left]. by exists l, [].
  - destruct (issue_spec cyclep c st r w Hw Hr) as (w1 & st1 & E1 & I1 & C1).
    destruct (IH st1 w1 (proj1 (is_frame _ _ _ _ _ _ I1)) (is_repr _ _ _ _ _ _ I1))
      as (w2 & st2 & E2 & I2 & C2).
    exists w2, st2. cbn [mapM_]. rewrite (bind_some _ _ _ _ _ E1). split; [exact E2|].
    split; [by eapply issued_trans|]. destruct C2 as [->|(l1 & xs & -> & Hlen & ->)]; [by left|right].
    destruct C1 as [|(l & x & -> & [= ->])]; [done|]. exists l, (x :: xs).
    split; [done|]. split; [cbn; by f_equal|]. cbn. by rewrite <- app_assoc.
Qed.

(** ** Closing and aborting *)

(** The operations of a closed cycle are in issue order. *)
Lemma close_ops w cyclep c st p :
  pool_ok w -> cycle_repr w cyclep c st -> cells (w_pool w) !! cyclep = Some (ICycle (cy_set_ops p c)) ->
  exists p' w', (if negb (p =? cyclep) then reverse_list (T := eb_operation) p else ret p) w = Some (p', w') /\
    frame (fun y => y ∈ owned st) w w' /\
    (forall y, live (cells (w_pool w')) y <-> live (cells (w_pool w)) y) /\
    match st with
    | Some l => chain (cells (w_pool w')) p' (rev l)
    | None => p' = cyclep
    end.
Proof.
  intros Hw Hr E. destruct st as [l|]; cbn [cycle_repr] in Hr.
  - destruct Hr as (q & E' & Hc). rewrite E in E'. injection E' as <-.
    rewrite (chain_not_self _ _ _ _ _ Hw Hc E). cbn [negb].
    destruct (reverse_list_pool p l w (proj1 Hw) Hc) as (p' & w' & Er & Hu & Hwf & Hs & Hc' & Hsame & Hlive).
    exists p', w'. split_and!; try done. split; [split; [done|by rewrite Hs; apply Hw]|].
    split; [done|]. intros y Hy _. by apply Hsame.
  - rewrite E in Hr. injection Hr as ->. rewrite Z.eqb_refl. exists cyclep, w.
    split_and!; [done|by apply frame_refl|done|done].
Qed.

Lemma raw_close_spec cyclep c d st w :
  pool_ok w -> cycle_repr w cyclep c st -> cells (w_pool w) !! cy_link c = Some (IDevice d) ->
  exists w', eb_raw_cycle_close cyclep w = Some (tt, w') /\
    frame (fun y => y = cyclep \/ y = cy_link c \/ y ∈ owned st) w w' /\
    (forall y, live (cells (w_pool w')) y <-> live (cells (w_pool w)) y) /\
    cells (w_pool w') !! cy_link c =
      Some (IDevice (dv_set_unready (u8 (dv_unready d - 1)) (dv_set_un_link cyclep d))) /\
    cycle_repr w' cyclep (cy_set_link (dv_un_link d) c) (option_map (@rev _) st).
Proof.
  intros Hw Hr Ed. destruct (cycle_cell _ _ _ _ Hr) as (p & E).
  unfold eb_raw_cycle_close. mstep (EB_CYCLE_some _ _ _ E). mstep (EB_DEVICE_some _ _ _ Ed).
  cbn [cy_ops cy_set_ops cy_link].
  destruct (close_ops w cyclep c st p Hw Hr E) as (p' & w1 & E1 & F1 & L1 & C1). mstep E1.
  pose proof (cyclep_not_owned _ _ _ _ Hr) as Hn.
  assert (cy_link c ∉ owned st) as Hnd.
  { destruct st as [l|]; [|apply not_elem_of_nil]. destruct Hr as (q & _ & Hc). intros Hin.
    destruct (chain_op_cell _ _ _ _ Hc Hin) as (o & Eo). by rewrite Ed in Eo. }
  assert (cyclep <> cy_link c) as Hne by (intros Heq; rewrite Heq, Ed in E; done).
  pose proof F1 as (Hw1 & _ & Hk1).
  assert (cells (w_pool w1) !! cyclep = Some (ICycle (cy_set_ops p c))) as Ec1
    by (rewrite Hk1; [done|done|by eexists]).
  assert (cells (w_pool w1) !! cy_link c = Some (IDevice d)) as Ed1
    by (rewrite Hk1; [done|done|by eexists]).
  destruct (poke_cell cyclep (ICycle (cy_set_link (dv_un_link d) (cy_set_ops p' (cy_set_ops p c)))) _ w1 Hw1 Ec1)
    as (w2 & E2 & F2 & Hc2 & L2); [done..|]. mstep E2.
  assert (cells (w_pool w2) !! cy_link c = Some (IDevice d)) as Ed2 by by rewrite Hc2, lookup_insert_ne.
  edestruct (poke_cell (cy_link c)) as (w3 & E3 & F3 & Hc3 & L3); [apply F2|exact Ed2|done| |].
  2: { exists w3. split; [exact E3|]. split_and!.
    - eapply frame_trans; [|exact F3|naive_solver]. eapply frame_trans; [|exact F2|naive_solver].
      destruct F1 as (? & ? & Hf). split_and!; [done|done|]. intros y Hy. apply Hf. naive_solver.
    - intros y. by rewrite L3, L2, L1.
    - rewrite Hc3. apply lookup_insert_eq.
    - assert (cells (w_pool w3) !! cyclep =
              Some (ICycle (cy_set_ops p' (cy_set_link (dv_un_link d) c)))) as Ec3
        by (rewrite Hc3, lookup_insert_ne, Hc2, lookup_insert_eq by done; done).
      destruct st as [l|]; cbn in C1 |- *; [|by subst p'].
      exists p'. split; [done|]. eapply chain_agree; [|exact C1]. intros y Hy.
      assert (y <> cyclep /\ y <> cy_link c) as [? ?].
      { split; intros ->; destruct (chain_op_cell _ _ _ _ C1 Hy) as (o & Eo); congruence. }
      by rewrite Hc3, lookup_insert_ne, Hc2, lookup_insert_ne. }
  done.
Qed.

(** C13: recording any sequence of requests on an open cycle and closing it hands
    the device a cycle that lists exactly the operations requested, in issue
    order, in fresh cells; when the pool ran out of memory the cycle is marked
    dead instead and holds no cell. In both cases the cycle is the newest entry
    of the device's queue and no longer counts as incomplete. *)
Theorem cycle_requests_fifo (cyclep : Z) (c : eb_cycle) (d : eb_device) (reqs : list request) (w : world X)
    (Hw : pool_ok w) (Hc : cells (w_pool w) !! cyclep = Some (ICycle c)) (Ho : cy_ops c = EB_NULL)
    (Hd : cells (w_pool w) !! cy_link c = Some (IDevice d)) :
  exists w', (mapM_ (issue cyclep) reqs ;;; eb_raw_cycle_close cyclep) w = Some (tt, w') /\
    pool_ok w' /\
    cells (w_pool w') !! cy_link c =
      Some (IDevice (dv_set_unready (u8 (dv_unready d - 1)) (dv_set_un_link cyclep d))) /\
    ((exists p xs, length xs = length reqs /\
        cells (w_pool w') !! cyclep = Some (ICycle (cy_set_ops p (cy_set_link (dv_un_link d) c))) /\
        chain (cells (w_pool w')) p (zip xs (map request_op reqs)) /\
        (forall y, live (cells (w_pool w')) y <-> live (cells (w_pool w)) y \/ y ∈ xs)) \/
     (cells (w_pool w') !! cyclep = Some (ICycle (cy_set_ops cyclep (cy_set_link (dv_un_link d) c))) /\
        (forall y, live (cells (w_pool w')) y <-> live (cells (w_pool w)) y))).
Proof.
  assert (cycle_repr w cyclep c (Some [])) as Hr.
  { exists EB_NULL. split; [|done]. rewrite Hc, <- Ho. by destruct c. }
  destruct (issue_all_spec cyclep c reqs (Some []) w Hw Hr) as (w1 & st & E1 & [F1 R1 L1 N1] & Cst).
  assert (cells (w_pool w1) !! cy_link c = Some (IDevice d)) as Ed1.
  { destruct F1 as (_ & _ & F1). rewrite F1; [done| |by eexists].
    intros [Heq|Hin]; [congruence|by apply not_elem_of_nil in Hin]. }
  destruct (raw_close_spec cyclep c d st w1 (proj1 F1) R1 Ed1) as (w2 & E2 & F2 & L2 & D2 & R2).
  exists w2. rewrite (bind_some _ _ _ _ _ E1). split; [exact E2|]. split; [apply F2|]. split; [done|].
  assert (forall y, live (cells (w_pool w2)) y <-> live (cells (w_pool w)) y \/ y ∈ owned st) as Hlive.
  { intros y. rewrite L2, L1. unfold owned at 1. cbn. pose proof (not_elem_of_nil y). tauto. }
  destruct Cst as [->|(l & xs & [= <-] & Hlen & ->)]; [right|left].
  - split; [exact R2|]. intros y. rewrite Hlive. unfold owned. cbn. pose proof (not_elem_of_nil y). tauto.
  - destruct R2 as (p & Ec & Hch). exists p, xs.
    rewrite app_nil_r, rev_involutive in Hch. split_and!; [done|done|done|].
    intros y. rewrite Hlive. unfold owned. cbn. rewrite app_nil_r, elem_of_rev_fst, fst_zip
      by (rewrite length_map; lia). done.
Qed.

Lemma abort_spec cyclep c d st w :
  pool_ok w -> cycle_repr w cyclep c st -> cells (w_pool w) !! cy_link c = Some (IDevice d) ->
  exists w', eb_cycle_abort cyclep w = Some (tt, w') /\
    frame (fun y => y = cyclep \/ y = cy_link c \/ y ∈ owned st) w w' /\
    (forall y, live (cells (w_pool w')) y <-> live (cells (w_pool w)) y /\ y <> cyclep /\ y ∉ owned st) /\
    cells (w_pool w') !! cy_link c = Some (IDevice (dv_set_unready (u8 (dv_unready d - 1)) d)).
Proof.
  intros Hw Hr Ed. destruct (cycle_cell _ _ _ _ Hr) as (p & E).
  unfold eb_cycle_abort. mstep (EB_CYCLE_some _ _ _ E). cbn [cy_link cy_set_ops].
  mstep (EB_DEVICE_some _ _ _ Ed).
  destruct (poke_cell (cy_link c) (IDevice (dv_set_unready (u8 (dv_unready d - 1)) d)) _ w Hw Ed)
    as (w1 & E1 & F1 & Hc1 & L1); [done..|]. mstep E1.
  assert (cyclep <> cy_link c) as Hne by (intros Heq; rewrite Heq, Ed in E; done).
  assert (cycle_repr w1 cyclep c st) as Hr1.
  { destruct st as [l|]; cbn in *; [|by rewrite Hc1, lookup_insert_ne].
    destruct Hr as (q & Eq & Hc). exists q. rewrite Hc1, lookup_insert_ne by done. split; [done|].
    apply chain_insert_ne; [|done]. intros Hin.
    destruct (chain_op_cell _ _ _ _ Hc Hin) as (o & Eo). by rewrite Ed in Eo. }
  destruct (eb_cycle_destroy_spec cyclep c st w1 (proj1 F1) Hr1) as (w2 & E2 & F2 & Ec2 & L2). mstep E2.
  destruct (eb_free_spec cyclep w2 (proj1 (proj1 F2))) as (p3 & E3 & Hwf3 & Hs3 & Hd3 & Hsame3);
    [by eexists|].
  exists (upd_pool p3 w2). split; [exact E3|].
  assert (forall y, live (cells p3) y <-> live (cells (w_pool w2)) y /\ y <> cyclep) as L3.
  { intros y. destruct (decide (y = cyclep)) as [->|Hy]; [tauto|].
    unfold live. rewrite Hsame3 by done. tauto. }
  assert (cy_link c ∉ owned st) as Hno.
  { destruct st as [l|]; [|apply not_elem_of_nil]. destruct Hr as (q & _ & Hc). intros Hin.
    destruct (chain_op_cell _ _ _ _ Hc Hin) as (o & Eo). by rewrite Ed in Eo. }
  split_and!.
  - eapply (frame_trans _ _ _ w2); [|split_and!; [split; [done|by cbn; rewrite Hs3; apply F2]|done|]|].
    + eapply frame_trans; [|exact F2|naive_solver].
      destruct F1 as (? & ? & Hf). split_and!; [done|done|]. intros y Hy. apply Hf. naive_solver.
    + intros y Hy _. apply Hsame3. exact Hy.
    + cbn. tauto.
  - intros y. cbn. rewrite L3, L2, L1. tauto.
  - cbn. rewrite Hsame3 by done. destruct F2 as (_ & _ & F2).
    rewrite F2; [rewrite Hc1; apply lookup_insert_eq|naive_solver|].
    apply L1. by eexists.
Qed.

Lemma open_spec devicep user cb d w :
  pool_ok w -> cells (w_pool w) !! devicep = Some (IDevice d) -> dv_un_link d <> devicep ->
  (eb_cycle_open devicep user cb w = Some ((EB_OOM, EB_NULL), w)) \/
  exists x w', eb_cycle_open devicep user cb w = Some ((EB_OK, x), w') /\
    ~ live (cells (w_pool w)) x /\ frame (fun y => y = devicep) w w' /\
    (forall y, live (cells (w_pool w')) y <-> y = x \/ live (cells (w_pool w)) y) /\
    cells (w_pool w') !! devicep = Some (IDevice (dv_set_unready (u8 (dv_unready d + 1)) d)) /\
    cycle_repr w' x (mk_cycle (default cb_block_f cb) user EB_NULL devicep) (Some []).
Proof.
  intros Hw Hd Hopen. unfold eb_cycle_open.
  destruct (eb_new_spec w Hw) as (x & p1 & En & Hw1 & Hcase). mstep En.
  destruct Hcase as [[-> ->]|Ha].
  { rewrite upd_pool_id in *. by left. }
  right. pose proof (alloc_frame _ _ _ Ha Hw1) as F0. set (w1 := upd_pool p1 w) in *.
  destruct Ha as (Hx & Hdead & Hraw & Hlive & Hkeep & _).
  change p1 with (w_pool w1) in Hraw, Hlive, Hkeep.
  assert (live (cells (w_pool w)) devicep) as Hld by by eexists.
  assert (devicep <> x) as Hne by (intros ->; done).
  rewrite (proj2 (Z.eqb_neq x EB_NULL)) by done.
  assert (cells (w_pool w1) !! devicep = Some (IDevice d)) as Ed1 by by apply Hkeep.
  mstep (EB_DEVICE_some _ _ _ Ed1). rewrite (proj2 (Z.eqb_neq _ _) Hopen).
  set (c := mk_cycle _ user EB_NULL devicep).
  destruct (poke_cell x (ICycle c) _ w1 Hw1 Hraw) as (w2 & E2 & F2 & Hc2 & L2); [done..|]. mstep E2.
  assert (cells (w_pool w2) !! devicep = Some (IDevice d)) as Ed2 by by rewrite Hc2, lookup_insert_ne.
  destruct (poke_cell devicep (IDevice (dv_set_unready (u8 (dv_unready d + 1)) d)) _ w2 (proj1 F2) Ed2)
    as (w3 & E3 & F3 & Hc3 & L3); [done..|]. mstep E3.
  exists x, w3. split_and!; [done|done| | | |].
  - eapply frame_trans; [|exact F3|naive_solver].
    eapply frame_trans; [|exact F2|intros y Hy ->; by destruct Hdead].
    destruct F0 as (? & ? & Hf). split_and!; [done|done|]. intros y _. apply Hf. tauto.
  - intros y. by rewrite L3, L2, Hlive.
  - rewrite Hc3. apply lookup_insert_eq.
  - exists EB_NULL. rewrite Hc3, lookup_insert_ne, Hc2, lookup_insert_eq by done. by destruct cb.
Qed.

Lemma unready_restored d : is_byte (dv_unready d) ->
  dv_set_unready (u8 (dv_unready (dv_set_unready (u8 (dv_unready d + 1)) d) - 1))
    (dv_set_unready (u8 (dv_unready d + 1)) d) = d.
Proof.
  destruct d as [? ? ? u ? ? ?]. unfold dv_set_unready. cbn. intros Hu. f_equal.
  rewrite wrap_sub_l. replace (u + 1 - 1) with u by lia. by apply wrap_small.
Qed.

(** Opening a cycle, recording any requests and aborting it releases every
    cell the cycle took, on the out-of-memory paths as well, and leaves every
    cell of the rest of the library as it was, the device's count of
    incomplete cycles included. *)
Theorem open_abort_leaks_nothing (devicep user : Z) (cb : option eb_callback) (reqs : list request)
    (d : eb_device) (w : world X) (Hw : pool_ok w)
    (Hd : cells (w_pool w) !! devicep = Some (IDevice d))
    (Hopen : dv_un_link d <> devicep) (Hu : is_byte (dv_unready d)) :
  exists w', bind (eb_cycle_open devicep user cb) (fun '(status, cyclep) =>
               if status =? EB_OK then mapM_ (issue cyclep) reqs ;;; eb_cycle_abort cyclep
               else ret tt) w = Some (tt, w') /\
    pool_ok w' /\
    (forall y, live (cells (w_pool w')) y <-> live (cells (w_pool w)) y) /\
    (forall y, live (cells (w_pool w)) y -> cells (w_pool w') !! y = cells (w_pool w) !! y).
Proof.
  destruct (open_spec devicep user cb d w Hw Hd Hopen)
    as [E|(x & w3 & E & Hdead & F3 & L3 & Ed3 & R3)]; rewrite (bind_some _ _ _ _ _ E); [by exists w|].
  cbn [Z.eqb EB_OK].
  destruct (issue_all_spec x _ reqs (Some []) w3 (proj1 F3) R3) as (w4 & st & E4 & [F4 R4 L4 N4] & _).
  rewrite (bind_some _ _ _ _ _ E4). pose proof (fun y => not_elem_of_nil (y : Z)) as Hnil.
  assert (forall y, y ∈ owned st -> ~ live (cells (w_pool w3)) y) as N4'
    by (intros y Hy; destruct (N4 y Hy) as [Hb|]; [by apply Hnil in Hb|done]).
  assert (live (cells (w_pool w)) devicep) as Hld by by eexists.
  edestruct (abort_spec x) as (w5 & E5 & F5 & L5 & Ed5); [apply F4|exact R4| |].
  { destruct F4 as (_ & _ & F4). cbn. rewrite F4; [exact Ed3| |apply L3; by right].
    intros [->|Hb]; [done|by apply Hnil in Hb]. }
  exists w5. split; [exact E5|]. split; [apply F5|].
  assert (forall y, live (cells (w_pool w5)) y <-> live (cells (w_pool w)) y) as Hl5.
  { intros y. specialize (N4' y). rewrite L5, L4, L3. rewrite L3 in N4'.
    specialize (Hnil y). unfold owned at 1. cbn. destruct (decide (y = x)) as [->|]; tauto. }
  split; [done|]. intros y Hy.
  assert (frame (fun y => y = devicep) w w5) as (_ & _ & F).
  { eapply frame_trans; [|exact F5|].
    - eapply frame_trans; [exact F3|exact F4|].
      intros z Hz [->|Hb]; [done|by apply Hnil in Hb].
    - intros z Hz [->|[->|Hin]]; [done|done|]. destruct (N4' z Hin). apply L3. by right. }
  destruct (decide (y = devicep)) as [->|Hyd]; [|by apply F].
  cbn [cy_link] in Ed5. rewrite Ed5, Hd. do 2 f_equal. exact (unready_restored d Hu).
Qed.

End proofs.

(** ** Instances on a concrete pool *)

Import Sample.

Definition sample_device : eb_device := mk_device 1 EB_NULL EB_NULL 1 0x44 EB_NULL EB_NULL.
Definition sample_cycle : eb_cycle := mk_cycle (cb_user 7) 0 EB_NULL 0.

Lemma cycle_requests_fifo_witness :
  exists w', (mapM_ (issue 1) [Rwrite 0x1000 4 17; Rread 0x2000 4 0] ;;; eb_raw_cycle_close 1)
               (world_of [IDevice sample_device; ICycle sample_cycle] []) = Some (tt, w') /\ pool_ok w'.
Proof.
  destruct (cycle_requests_fifo 1 sample_cycle sample_device
    [Rwrite 0x1000 4 17; Rread 0x2000 4 0] (world_of [IDevice sample_device; ICycle sample_cycle] []))
    as (w' & E & Hw & _); [by apply pool_ok_seed|reflexivity|reflexivity|reflexivity|].
  exists w'. exact (conj E Hw).
Defined.

Lemma open_abort_leaks_nothing_witness :
  exists w', bind (eb_cycle_open 0 5 None) (fun '(status, cyclep) =>
               if status =? EB_OK then mapM_ (issue cyclep) [Rwrite 0x1000 4 17] ;;; eb_cycle_abort cyclep
               else ret tt) (world_of [IDevice sample_device] []) = Some (tt, w') /\ pool_ok w'.
Proof.
  destruct (open_abort_leaks_nothing 0 5 None [Rwrite 0x1000 4 17] sample_device
    (world_of [IDevice sample_device] [])) as (w' & E & Hw & _);
    [by apply pool_ok_seed|reflexivity|discriminate|cbn; lia|].
  exists w'. exact (conj E Hw).
Defined.
