(* ===== verification/Format.v ===== *)
(** The Etherbone wire format shared by both ends: [src/api/format/format.h], the
    word accessors of master.c and slave.c and the quantities both derive from the
    negotiated bus width. *)
From stdpp Require Import base list.
From Stdlib Require Import ZArith Lia.
From S2P Require Import Prelude Widths.

(** * Header and record flags *)

Definition EB_HEADER_PF : Z := 0x01.
Definition EB_HEADER_PR : Z := 0x02.
Definition EB_HEADER_NR : Z := 0x04.

Definition EB_RECORD_BCA : Z := 0x80.
Definition EB_RECORD_RCA : Z := 0x40.
Definition EB_RECORD_RFF : Z := 0x20.
Definition EB_RECORD_CYC : Z := 0x08.
Definition EB_RECORD_WCA : Z := 0x04.
Definition EB_RECORD_WFF : Z := 0x02.

(** [uint8_t buffer[sizeof(eb_max_align_t)*(255+255+1+1)+8]] *)
Definition buffer_size : nat := 4104.

(** * Words *)

(** The bytes stored at [wptr]. *)
Definition EB_mWRITE (val : Z) (alignment : nat) : list Z :=
  match alignment with
  | 2%nat => be_bytes 2 val
  | 4%nat => be_bytes 4 val
  | 8%nat => be_bytes 8 val
  | _ => []
  end.

(** slave.c has its own copy. *)
Definition EB_sWRITE (val : Z) (alignment : nat) : list Z :=
  match alignment with
  | 2%nat => be_bytes 2 val
  | 4%nat => be_bytes 4 val
  | 8%nat => be_bytes 8 val
  | _ => []
  end.

Definition EB_LOAD (buffer : list Z) (rptr : nat) (alignment : nat) : Z :=
  match alignment with
  | 2%nat => be_val (slice buffer rptr 2)
  | 4%nat => be_val (slice buffer rptr 4)
  | 8%nat => be_val (slice buffer rptr 8)
  | _ => 0
  end.

(** * Quantities derived from the width of the link *)

Definition g_data (width : Z) : Z := width .& EB_DATAX.
Definition g_addr (width : Z) : Z := width .>> 4.
Definition g_biggest (width : Z) : Z := g_addr width .| g_data width.

Definition g_alignment (width : Z) : nat :=
  (2 + (if (EB_DATA32 <=? g_biggest width)%Z then 2 else 0)
     + (if (EB_DATA64 <=? g_biggest width)%Z then 4 else 0))%nat.

Definition g_record_alignment (width : Z) : nat :=
  (4 + (if (EB_DATA64 <=? g_biggest width)%Z then 4 else 0))%nat.

(** [~(eb_address_t)0 >> ((sizeof(eb_address_t) - n) << 3)] *)
Definition byte_mask (n : Z) : Z := (2 ^ 64 - 1) .>> ((8 - n) .<< 3).

(** * Facts about the widths a link can have *)

(** A width the handshake can settle on: both ends refine it. *)
Definition link_width (width : Z) : Prop := is_byte width /\ eb_width_refined width = true.

Lemma link_width_cases width : link_width width ->
  (g_data width = 1 \/ g_data width = 2 \/ g_data width = 4 \/ g_data width = 8) /\
  (g_addr width = 1 \/ g_addr width = 2 \/ g_addr width = 4 \/ g_addr width = 8).
Proof. intros [Hb Hr]. exact (refined_cases width Hb Hr). Qed.

Lemma link_width_eq width : is_byte width -> width = g_addr width * 16 + g_data width.
Proof.
  intros Hw. unfold g_addr, g_data, EB_DATAX. change 0x0f with (Z.ones 4).
  rewrite Z.land_ones, Z.shiftr_div_pow2 by lia. change (2 ^ 4) with 16.
  pose proof (Z.div_mod width 16). lia.
Qed.

(** The sixteen link widths. *)
Definition link_widths : list Z :=
  [0x11; 0x12; 0x14; 0x18; 0x21; 0x22; 0x24; 0x28; 0x41; 0x42; 0x44; 0x48; 0x81; 0x82; 0x84; 0x88].

Lemma link_width_in width : link_width width -> In width link_widths.
Proof.
  intros Hw. rewrite (link_width_eq width (proj1 Hw)).
  destruct (link_width_cases width Hw) as [[->|[->|[->| ->]]] [->|[->|[->| ->]]]]; cbn; tauto.
Qed.

(** A boolean property of link widths is checked on the sixteen of them. *)
Lemma link_width_forall (P : Z -> bool) :
  forallb P link_widths = true -> forall width, link_width width -> P width = true.
Proof. intros HP width Hw. by apply (proj1 (forallb_forall P _) HP), link_width_in. Qed.

Lemma g_alignment_cases width : g_alignment width = 2%nat \/ g_alignment width = 4%nat \/ g_alignment width = 8%nat.
Proof.
  unfold g_alignment, EB_DATA32, EB_DATA64. zcases; auto.
Qed.

Lemma g_record_alignment_cases width : g_record_alignment width = 4%nat \/ g_record_alignment width = 8%nat.
Proof. unfold g_record_alignment. case_if; auto. Qed.

(** The alignment holds a data word and an address. *)
Lemma g_alignment_fits width : link_width width ->
  g_data width <= Z.of_nat (g_alignment width) /\ g_addr width <= Z.of_nat (g_alignment width).
Proof.
  intros Hw.
  pose proof (link_width_forall (fun w => (g_data w <=? Z.of_nat (g_alignment w)) &&
    (g_addr w <=? Z.of_nat (g_alignment w))) eq_refl width Hw) as H. cbv beta in H. bool_hyps. done.
Qed.

Lemma byte_mask_ones n : 1 <= n <= 8 -> byte_mask n = Z.ones (8 * n).
Proof.
  intros Hn. unfold byte_mask. rewrite Z.shiftl_mul_pow2 by lia. change (2 ^ 3) with 8.
  assert (n = 1 \/ n = 2 \/ n = 3 \/ n = 4 \/ n = 5 \/ n = 6 \/ n = 7 \/ n = 8) as Hc by lia.
  destruct Hc as [->|[->|[->|[->|[->|[->|[->| ->]]]]]]]; reflexivity.
Qed.

(** ** Words: storing and loading *)

Lemma EB_mWRITE_bytes val k : k = 2%nat \/ k = 4%nat \/ k = 8%nat -> EB_mWRITE val k = be_bytes k val.
Proof. by intros [->|[->| ->]]. Qed.

Lemma EB_sWRITE_bytes val k : k = 2%nat \/ k = 4%nat \/ k = 8%nat -> EB_sWRITE val k = be_bytes k val.
Proof. by intros [->|[->| ->]]. Qed.

Lemma EB_LOAD_val b r k : k = 2%nat \/ k = 4%nat \/ k = 8%nat -> EB_LOAD b r k = be_val (slice b r k).
Proof. by intros [->|[->| ->]]. Qed.

Lemma length_EB_mWRITE val k : k = 2%nat \/ k = 4%nat \/ k = 8%nat -> length (EB_mWRITE val k) = k.
Proof. by intros [->|[->| ->]]. Qed.

(** Loading a word from the place it was stored at. *)
Lemma EB_LOAD_mWRITE pre v post k : k = 2%nat \/ k = 4%nat \/ k = 8%nat ->
  EB_LOAD (pre ++ EB_mWRITE v k ++ post) (length pre) k = wrap (8 * Z.of_nat k) v.
Proof.
  intros Hk. rewrite EB_LOAD_val, EB_mWRITE_bytes by done. unfold slice.
  rewrite drop_app_length, take_app_length' by (symmetry; apply length_be_bytes). apply be_val_bytes.
Qed.
