(* ===== verification/Master.v ===== *)
(** The requesting side of the wire protocol: [eb_device_flush] of
    [src/api/format/master.c]. The queued cycles of a device are checked, packed
    into records, buffered, sent and entered into the socket's response queue.

    Operations are not modified while records are formed, so the scan pointers
    [operationp] and [scanp] are suffixes of the list of the cycle's operations.
    The packet buffer is the list of its bytes before [wptr]; [cptr] is an offset. *)
From stdpp Require Import base list gmap.
From Stdlib Require Import ZArith Lia.
From S2P Require Import Prelude Widths Store World Linked Cycle Format.

(** What a callback stored in a cycle does when it is run:
    [callback (user_data, device, operation, status)]. *)
Class Callbacks (X : Type) := { call : eb_callback -> Z -> Z -> Z -> Z -> M X unit }.

(** * Is an operation executable on the device? *)

Definition op_size (data format : Z) : Z := eb_width_refine (format .& (data - 1 + data)).

Definition op_endian (data format : Z) : Z :=
  if op_size data format =? data then 0 else format .& EB_ENDIAN_MASK.

(** The format written back, if any, and the reason to reject. *)
Definition check_op (data address_mask : Z) (op : eb_operation) : option Z * Z :=
  let size := op_size data (op_format op) in
  let endian := op_endian data (op_format op) in
  if size =? 0 then (None, EB_WIDTH)
  else if (endian =? (EB_BIG_ENDIAN .| EB_LITTLE_ENDIAN)) || (negb (size =? data) && (endian =? 0))
  then (None, EB_ENDIAN)
  else (Some (endian .| size),
    if negb (is_config op) && negb ((op_address op .& (address_mask - (size - 1))) =? op_address op)
    then EB_ADDRESS
    else if is_config op && negb ((op_address op .& (0xFFFF - (size - 1))) =? op_address op)
    then EB_ADDRESS
    else if is_write op && negb ((op_value op .& byte_mask size) =? op_value op)
    then EB_WIDTH
    else EB_OK).

(** * Packing operations into a record *)

Section pack.
(** [data] is also the stride; [maxops] bounds the number of unchecked bus
    operations of a cycle. *)
Context (data maxops : Z).

(** [if (cfg == 0) ++ops;] *)
Definition count_op (cfg ops : Z) : Z := if cfg =? 0 then u32 (ops + 1) else ops.

Definition cfg_of (o : eb_operation) : Z := op_flags o .& EB_OP_CFG_SPACE.

(** The tests of both chaining loops after the address. *)
Definition chains (wcfg format wcount ops : Z) (scan : eb_operation) : bool :=
  is_write scan && (cfg_of scan =? wcfg) && (op_format scan =? format) &&
  negb (255 <=? wcount) && negb (maxops <=? ops).

(** The write loops return [wcount], [ops] and [scanp]. *)
Fixpoint chain_fifo (bwa wcfg format wcount ops : Z) (scanp : list (Z * eb_operation))
    : Z * Z * list (Z * eb_operation) :=
  match scanp with
  | [] => (wcount, ops, [])
  | (_, scan) :: next =>
      if negb (op_address scan =? bwa) then (wcount, ops, scanp)
      else if negb (chains wcfg format wcount ops scan) then (wcount, ops, scanp)
      else chain_fifo bwa wcfg format (wcount + 1) (count_op wcfg ops) next
  end.

Fixpoint chain_seq (bwa wcfg format wcount ops : Z) (scanp : list (Z * eb_operation))
    : Z * Z * list (Z * eb_operation) :=
  match scanp with
  | [] => (wcount, ops, [])
  | (_, scan) :: next =>
      let bwa := u64 (bwa + data) in
      if negb (op_address scan =? bwa) then (wcount, ops, scanp)
      else if negb (chains wcfg format wcount ops scan) then (wcount, ops, scanp)
      else chain_seq bwa wcfg format (wcount + 1) (count_op wcfg ops) next
  end.

(** The variables the write part of a record settles. *)
Record wpart := mk_wpart {
  w_count : Z; w_fifo : Z; w_cfg : Z; w_format : Z; w_low : Z; w_ops : Z;
  w_rest : list (Z * eb_operation) }.

Definition pack_writes (ops : Z) (scanp : list (Z * eb_operation)) : wpart :=
  match scanp with
  | (_, scan) :: next =>
    if (maxops <=? ops) || negb (is_write scan) then mk_wpart 0 0 0 EB_DATAX 0 ops scanp
    else
      let wcfg := cfg_of scan in
      let bwa := op_address scan in
      let format := op_format scan in
      let low_addr := u8 (bwa .& (data - 1)) in
      let ops := count_op wcfg ops in
      let single := mk_wpart 1 0 wcfg format low_addr ops next in
      match next with
      | (_, scan) :: next' =>
        if (maxops <=? ops) || negb (is_write scan) || negb (cfg_of scan =? wcfg)
           || negb (op_format scan =? format) then single
        else if op_address scan =? bwa then
          let '(wcount, ops, rest) := chain_fifo bwa wcfg format 2 (count_op wcfg ops) next' in
          mk_wpart wcount 1 wcfg format low_addr ops rest
        else if op_address scan =? u64 (bwa + data) then
          let '(wcount, ops, rest) := chain_seq (u64 (bwa + data)) wcfg format 2 (count_op wcfg ops) next' in
          mk_wpart wcount 0 wcfg format low_addr ops rest
        else single
      | [] => single
      end
  | [] => mk_wpart 0 0 0 EB_DATAX 0 ops []
  end.

(** The read loop returns [rcount], [ops] and [scanp]. *)
Fixpoint chain_reads (rcfg format low_addr rcount ops : Z) (scanp : list (Z * eb_operation))
    : Z * Z * list (Z * eb_operation) :=
  match scanp with
  | [] => (rcount, ops, [])
  | (_, scan) :: next =>
      if is_write scan || negb (cfg_of scan =? rcfg) || negb (op_format scan =? format)
         || negb ((op_address scan .& (data - 1)) =? low_addr)
         || (255 <=? rcount) || (maxops <=? ops)
      then (rcount, ops, scanp)
      else chain_reads rcfg format low_addr (rcount + 1) (count_op rcfg ops) next
  end.

(** A record: [r_count] operations are read, [r_xcount] read words requested. *)
Record plan := mk_plan {
  p_wcount : Z; p_fifo : Z; p_wcfg : Z; p_rcount : Z; p_rxcount : Z; p_rcfg : Z;
  p_format : Z; p_low : Z; p_ops : Z; p_rest : list (Z * eb_operation) }.

Definition pack_reads (wp : wpart) : plan :=
  match w_rest wp with
  | (_, scan) :: next =>
    if (maxops <=? w_ops wp) || is_write scan ||
       (negb (w_format wp =? EB_DATAX) &&
        (negb (op_format scan =? w_format wp) ||
         negb ((op_address scan .& (data - 1)) =? w_low wp)))
    then mk_plan (w_count wp) (w_fifo wp) (w_cfg wp) 0 0 0 (w_format wp) (w_low wp) (w_ops wp) (w_rest wp)
    else
      let rcfg := cfg_of scan in
      let format := op_format scan in
      let low_addr := u8 (op_address scan .& (data - 1)) in
      let '(rcount, ops, rest) := chain_reads rcfg format low_addr 1 (count_op rcfg (w_ops wp)) next in
      mk_plan (w_count wp) (w_fifo wp) (w_cfg wp) rcount rcount rcfg format low_addr ops rest
  | [] => mk_plan (w_count wp) (w_fifo wp) (w_cfg wp) 0 0 0 (w_format wp) (w_low wp) (w_ops wp) []
  end.

(** Insert a read of the error flags when the budget is used up, or at the end. *)
Definition add_readback (needs_check : bool) (p : plan) : plan :=
  if (p_rcount p =? 0) && ((p_format p =? EB_DATAX) || (p_format p =? data)) &&
     ((maxops <=? p_ops p) ||
      (match p_rest p with [] => true | _ => false end && needs_check && (0 <? p_ops p)))
  then mk_plan (p_wcount p) (p_fifo p) (p_wcfg p) (p_rcount p) 1 1 data (p_low p) (p_ops p) (p_rest p)
  else p.

Definition plan_record (needs_check : bool) (ops : Z) (operationp : list (Z * eb_operation)) : plan :=
  add_readback needs_check (pack_reads (pack_writes ops operationp)).

(** [rxcount != rcount] *)
Definition reads_errors (p : plan) : bool := negb (p_rxcount p =? p_rcount p).

Definition is_cycle_end (needs_check : bool) (p : plan) : bool :=
  match p_rest p with [] => true | _ => false end &&
  (negb needs_check || (p_ops p =? 0) || reads_errors p).

(** [ops] for the next record. *)
Definition next_ops (p : plan) : Z := if reads_errors p then 0 else p_ops p.
End pack.

(** * The bytes of a record *)

Definition plan_total (p : plan) : Z :=
  c_bool (0 <? p_wcount p) + p_wcount p + c_bool (0 <? p_rxcount p) + p_rxcount p.

Definition plan_length (width : Z) (p : plan) : nat :=
  (g_record_alignment width + Z.to_nat (plan_total p) * g_alignment width)%nat.

Definition op_shift (data : Z) (p : plan) : Z :=
  let size := p_format p .& EB_DATAX in
  let endian := p_format p .& EB_ENDIAN_MASK in
  if endian =? EB_BIG_ENDIAN then u8 (data - (p_low p + size)) else p_low p.

Definition record_flags (p : plan) (cycle_end : bool) : Z :=
  EB_RECORD_BCA .| EB_RECORD_RFF
    .| (if p_rcfg p =? 0 then 0 else EB_RECORD_RCA)
    .| (if p_wcfg p =? 0 then 0 else EB_RECORD_WCA)
    .| (if p_fifo p =? 0 then 0 else EB_RECORD_WFF)
    .| (if cycle_end then EB_RECORD_CYC else 0).

Definition record_select (data : Z) (p : plan) : Z :=
  u8 ((0xFF .>> (8 - (p_format p .& EB_DATAX))) .<< op_shift data p).

Definition record_header (width : Z) (p : plan) (cycle_end : bool) : list Z :=
  [record_flags p cycle_end; record_select (g_data width) p; u8 (p_wcount p); u8 (p_rxcount p)]
  ++ replicate (g_record_alignment width - 4) 0.

(** The two emission loops: the bytes and the new [operationp]. *)
Fixpoint emit_writes (alignment : nat) (shift : Z) (wcount : nat) (operationp : list (Z * eb_operation))
    : list Z * list (Z * eb_operation) :=
  match wcount, operationp with
  | S wcount, (_, operation) :: next =>
      let wv := u64 (op_value operation .<< (shift .<< 3)) in
      let '(bytes, rest) := emit_writes alignment shift wcount next in
      (EB_mWRITE wv alignment ++ bytes, rest)
  | _, _ => ([], operationp)
  end.

Fixpoint emit_reads (alignment : nat) (rcount : nat) (operationp : list (Z * eb_operation))
    : list Z * list (Z * eb_operation) :=
  match rcount, operationp with
  | S rcount, (_, operation) :: next =>
      let '(bytes, rest) := emit_reads alignment rcount next in
      (EB_mWRITE (op_address operation) alignment ++ bytes, rest)
  | _, _ => ([], operationp)
  end.

(** The bytes appended at [wptr] and the new [operationp]. *)
Definition emit_record (width rba : Z) (p : plan) (cycle_end : bool) (operationp : list (Z * eb_operation))
    : list Z * list (Z * eb_operation) :=
  let alignment := g_alignment width in
  let '(writes, operationp) :=
    match operationp with
    | (_, operation) :: _ =>
        if 0 <? p_wcount p then
          let '(bytes, rest) :=
            emit_writes alignment (op_shift (g_data width) p) (Z.to_nat (p_wcount p)) operationp in
          (EB_mWRITE (op_address operation) alignment ++ bytes, rest)
        else ([], operationp)
    | [] => ([], operationp)
    end in
  let errors :=
    if reads_errors p then EB_mWRITE (rba .| 1) alignment ++ EB_mWRITE (8 - g_data width) alignment
    else [] in
  let '(reads, operationp) :=
    if 0 <? p_rcount p then
      let '(bytes, rest) := emit_reads alignment (Z.to_nat (p_rcount p)) operationp in
      (EB_mWRITE rba alignment ++ bytes, rest)
    else ([], operationp) in
  (record_header width p cycle_end ++ writes ++ errors ++ reads, operationp).

(** * Flushing a device *)

Section flush.
Context {X : Type} `{Env X} `{Callbacks X}.

(** The head of a list of operations, as a pointer. *)
Definition head_ptr (operationp : list (Z * eb_operation)) : Z :=
  match operationp with (x, _) :: _ => x | [] => EB_NULL end.

(** The check loop; its result is [operationp] after the loop and [reason]. The
    new format is stored before the address is looked at. *)
Fixpoint check_ops (data address_mask : Z) (fuel : nat) (operationp : Z) : M X (Z * Z) :=
  if operationp =? EB_NULL then ret (EB_NULL, EB_OK)
  else match fuel with
    | O => fault
    | S fuel =>
      let* operation := EB_OPERATION operationp in
      let '(format, reason) := check_op data address_mask operation in
      match format with
      | Some f => poke operationp (IOperation (op_set_format f operation))
      | None => ret tt
      end ;;;
      if reason =? EB_OK then check_ops data address_mask fuel (op_next operation)
      else ret (operationp, reason)
    end.

(** The packet buffer: the bytes up to [wptr], the offset [cptr] of the cycle
    being formatted, [has_reads]. *)
Record mbuf := mk_mbuf { b_bytes : list Z; b_cptr : nat; b_reads : bool }.

(** [eob - buffer] *)
Definition limit (mtu : nat) : nat := if (mtu =? 0)%nat then buffer_size else mtu.

(** [if (has_reads == 0) buffer[2] |= EB_HEADER_NR;] *)
Definition promise (b : mbuf) : list Z :=
  if b_reads b then b_bytes b else alter (fun x => x .| EB_HEADER_NR) 2%nat (b_bytes b).

(** Make room for a record of [len] bytes; [false] is the overflow of a packet. *)
Definition ensure_space (link_type : Z) (mtu header_alignment : nat) (devicep : Z) (len : nat) (b : mbuf)
    : M X (mbuf * bool) :=
  if (limit mtu <? length (b_bytes b) + len)%nat then
    let* device := EB_DEVICE devicep in
    if (mtu =? 0)%nat then
      t_send link_type (dv_transport device) (dv_link device) (b_bytes b) ;;;
      ret (mk_mbuf [] (b_cptr b) (b_reads b), true)
    else
      let* b :=
        (if negb (b_cptr b =? header_alignment)%nat then
           let bytes := promise b in
           t_send link_type (dv_transport device) (dv_link device) (take (b_cptr b) bytes) ;;;
           ret (mk_mbuf (take header_alignment bytes ++ drop (b_cptr b) bytes) header_alignment false)
         else ret b) in
      ret (b, negb (limit mtu <? length (b_bytes b) + len)%nat)
  else ret (b, true).

(** The cycle does not fit one packet: tell the application and release it. *)
Definition abandon_cycle (cyclep responsep operationp : Z) : M X unit :=
  let* cycle := EB_CYCLE cyclep in
  call (cy_callback cycle) (cy_user_data cycle) (cy_link cycle) operationp EB_OVERFLOW ;;;
  eb_cycle_destroy cyclep ;;;
  eb_free cyclep ;;;
  eb_free responsep.

(** The [while (!cycle_end)] loop: the buffer and, unless the cycle was
    abandoned, [readback]. *)
Fixpoint record_loop (width link_type : Z) (mtu : nat) (devicep cyclep responsep rba maxops : Z)
    (needs_check : bool) (fuel : nat) (ops : Z) (readback : bool) (b : mbuf)
    (operationp : list (Z * eb_operation)) : M X (mbuf * option bool) :=
  match fuel with
  | O => fault
  | S fuel =>
    let header_alignment := g_record_alignment width in
    let p := plan_record (g_data width) maxops needs_check ops operationp in
    let* ' (b, ok) := ensure_space link_type mtu header_alignment devicep (plan_length width p) b in
    if negb ok then
      abandon_cycle cyclep responsep (head_ptr operationp) ;;;
      ret (mk_mbuf (take header_alignment (b_bytes b)) (b_cptr b) (b_reads b), None)
    else
      let cycle_end := is_cycle_end needs_check p in
      let '(bytes, operationp) := emit_record width rba p cycle_end operationp in
      let b := mk_mbuf (b_bytes b ++ bytes) (b_cptr b) (b_reads b || (0 <? p_rxcount p)) in
      let readback := readback || reads_errors p || (0 <? p_rcount p) in
      if cycle_end then ret (b, Some readback)
      else record_loop width link_type mtu devicep cyclep responsep rba maxops needs_check fuel
             (next_ops p) readback b operationp
  end.

(** After the loop: run the callback of a cycle that gets no answer, or enter
    the cycle into the response queue. *)
Definition finish_cycle (socketp cyclep responsep : Z) (needs_check readback : bool) : M X unit :=
  let* cycle := EB_CYCLE cyclep in
  if negb readback then
    call (cy_callback cycle) (cy_user_data cycle) (cy_link cycle) (cy_ops cycle) EB_OK ;;;
    eb_cycle_destroy cyclep ;;;
    eb_free cyclep ;;;
    eb_free responsep
  else
    let* socket := EB_SOCKET socketp in
    let* aux := EB_SOCKET_AUX (sk_aux socket) in
    let* write_cursor := eb_find_read (cy_ops cycle) in
    let* status_cursor := (if needs_check then eb_find_bus (cy_ops cycle) else ret EB_NULL) in
    poke responsep (IResponse (mk_response (ax_rba aux) (u16 (ax_time_cache aux + 5))
                                 (sk_last_response socket) cyclep write_cursor status_cursor)) ;;;
    poke (sk_aux socket) (ISocketAux (mk_socket_aux (ax_time_cache aux)
                                        (u16 (0x8000 .| (ax_rba aux + 2))) (ax_first_transport aux))) ;;;
    poke socketp (ISocket (mk_socket (sk_first_device socket) (sk_first_handler socket)
                             (sk_first_response socket) responsep (sk_aux socket) (sk_widths socket))).

(** The records of a cycle whose operations passed the check. *)
Definition format_cycle (width link_type : Z) (mtu : nat) (devicep cyclep responsep : Z) (b : mbuf)
    : M X mbuf :=
  let* device := EB_DEVICE devicep in
  let* cycle := EB_CYCLE cyclep in
  let* socket := EB_SOCKET (dv_socket device) in
  let* aux := EB_SOCKET_AUX (sk_aux socket) in
  let* operationp := load_list (T := eb_operation) (cy_ops cycle) in
  match operationp with
  | [] => fault
  | (_, operation) :: _ =>
    let needs_check := negb ((op_flags operation .& EB_OP_CHECKED) =? 0) in
    let maxops := if needs_check then g_data width * 8 else 2 ^ 32 - 1 in
    let* ' (b, done) := record_loop width link_type mtu devicep cyclep responsep (ax_rba aux) maxops
                          needs_check (S (2 * length operationp)) 0 false b operationp in
    match done with
    | Some readback =>
        finish_cycle (dv_socket device) cyclep responsep needs_check readback ;;;
        ret (mk_mbuf (b_bytes b) (length (b_bytes b)) (b_reads b))
    | None => ret b
    end
  end.

(** The callback of a cycle that is not sent, and its release. *)
Definition reject_cycle (cyclep operationp reason : Z) : M X unit :=
  let* cycle := EB_CYCLE cyclep in
  call (cy_callback cycle) (cy_user_data cycle) (cy_link cycle) operationp reason ;;;
  eb_cycle_destroy cyclep ;;;
  eb_free cyclep.

(** One round of the loop over the queue. *)
Definition flush_cycle (width link_type : Z) (mtu : nat) (devicep cyclep : Z) (b : mbuf) : M X mbuf :=
  let* cycle := EB_CYCLE cyclep in
  let cycle := cy_set_link devicep cycle in
  poke cyclep (ICycle cycle) ;;;
  if cy_ops cycle =? cyclep then
    call (cy_callback cycle) (cy_user_data cycle) (cy_link cycle) EB_NULL EB_OOM ;;;
    eb_free cyclep ;;; ret b
  else if cy_ops cycle =? EB_NULL then
    call (cy_callback cycle) (cy_user_data cycle) (cy_link cycle) EB_NULL EB_OK ;;;
    eb_free cyclep ;;; ret b
  else
    let* n := pool_fuel in
    let* ' (operationp, reason) := check_ops (g_data width) (byte_mask (g_addr width)) n (cy_ops cycle) in
    if negb (operationp =? EB_NULL) then
      reject_cycle cyclep operationp reason ;;; ret b
    else
      let* responsep := eb_new in
      if responsep =? EB_NULL then
        reject_cycle cyclep EB_NULL EB_OOM ;;; ret b
      else format_cycle width link_type mtu devicep cyclep responsep b.

Fixpoint flush_cycles (width link_type : Z) (mtu : nat) (devicep : Z) (fuel : nat) (cyclep : Z) (b : mbuf)
    : M X mbuf :=
  if cyclep =? EB_NULL then ret b
  else match fuel with
    | O => fault
    | S fuel =>
      let* cycle := EB_CYCLE cyclep in
      let nextp := cy_link cycle in
      let* b := flush_cycle width link_type mtu devicep cyclep b in
      flush_cycles width link_type mtu devicep fuel nextp b
    end.

(** The buffer before the first record: empty on a stream, the packet header
    otherwise. *)
Definition start_buffer (width : Z) (mtu : nat) : mbuf :=
  if (mtu =? 0)%nat then mk_mbuf [] 0 false
  else mk_mbuf ([0x4E; 0x6F; 0x10; width] ++ replicate (g_record_alignment width - 4) 0)
               (g_record_alignment width) false.

(** Send what is buffered. *)
Definition final_send (width link_type : Z) (mtu : nat) (devicep : Z) (b : mbuf) : M X unit :=
  let* device := EB_DEVICE devicep in
  if (mtu =? 0)%nat then
    when (negb (length (b_bytes b) =? 0)%nat)
      (t_send link_type (dv_transport device) (dv_link device) (b_bytes b))
  else
    when (negb (length (b_bytes b) =? g_record_alignment width)%nat)
      (t_send link_type (dv_transport device) (dv_link device) (promise b)).

Definition eb_device_flush (devicep : Z) : M X Z :=
  let* device := EB_DEVICE devicep in
  let* transport := EB_TRANSPORT (dv_transport device) in
  let width := dv_widths device in
  let link_type := tr_link_type transport in
  let mtu := Z.to_nat (t_mtu link_type) in
  if dv_link device =? EB_NULL then ret EB_FAIL
  else
    t_send_buffer link_type (dv_transport device) (dv_link device) true ;;;
    let* prevp := reverse_list (T := eb_cycle) (dv_un_link device) in
    let* n := pool_fuel in
    let* b := flush_cycles width link_type mtu devicep n prevp (start_buffer width mtu) in
    final_send width link_type mtu devicep b ;;;
    let* device := EB_DEVICE devicep in
    t_send_buffer link_type (dv_transport device) (dv_link device) false ;;;
    poke devicep (IDevice (dv_set_un_link EB_NULL device)) ;;;
    ret EB_OK.
End flush.
