(* ===== verification/Valid.v ===== *)
(** The operations [eb_device_flush] accepts: the check loop of master.c, lines
    162-213, against a declarative description of executable operations. *)
From stdpp Require Import base list gmap.
From Stdlib Require Import ZArith Lia.
From S2P Require Import Prelude Widths Store World Linked Cycle Format Master.

(** The access size and the endian of a checked operation. *)
Definition sz (o : eb_operation) : Z := op_format o .& EB_DATAX.
Definition en (o : eb_operation) : Z := op_format o .& EB_ENDIAN_MASK.

(** Number of address bytes an operation may use: configuration space is 16 bits. *)
Definition addr_bytes (width : Z) (o : eb_operation) : Z := if is_config o then 2 else g_addr width.

(** An operation the device of a link of [width] can execute. *)
Record op_ok (width : Z) (o : eb_operation) : Prop := {
  ok_size : In (sz o) [1; 2; 4; 8];
  ok_fits : sz o <= g_data width;
  ok_endian : en o = 0 \/ en o = EB_BIG_ENDIAN \/ en o = EB_LITTLE_ENDIAN;
  ok_agnostic : en o = 0 <-> sz o = g_data width;
  ok_range : 0 <= op_address o < 2 ^ (8 * addr_bytes width o);
  ok_aligned : op_address o mod sz o = 0;
  ok_value : is_write o = true -> 0 <= op_value o < 2 ^ (8 * sz o) }.

(** ** Sizes and endians, by evaluation over all formats *)

Definition format_facts (data f : Z) : bool :=
  let s := op_size data f in
  let e := op_endian data f in
  let g := e .| s in
  if (s =? 0) then (f .& (2 * data - 1)) =? 0
  else existsb (Z.eqb s) [1; 2; 4; 8] && (s <=? data) && ((s .& f) =? s)
       && ((g .& EB_DATAX) =? s) && ((g .& EB_ENDIAN_MASK) =? e)
       && forallb (fun t => implb (((t .& f) =? t) && (t <=? data)) (t <=? s)) [1; 2; 4; 8]
       && ((e =? 0) || (e =? 0x10) || (e =? 0x20) || (e =? 0x30))
       && implb (s =? data) (e =? 0).

Lemma format_facts_ok width f : link_width width -> is_byte f -> format_facts (g_data width) f = true.
Proof.
  intros Hw Hf. destruct (proj1 (link_width_cases width Hw)) as [->|[->|[->| ->]]];
    revert f Hf; apply byte_forall; by vm_compute.
Qed.

(** ** The address tests *)

Lemma pow2_size s : In s [1; 2; 4; 8] -> exists k, 0 <= k <= 3 /\ s = 2 ^ k.
Proof.
  cbn. intros [<-|[<-|[<-|[<-|[]]]]]; [exists 0|exists 1|exists 2|exists 3]; done.
Qed.

(** Masking with [ones(8n) - (s-1)] keeps [n] bytes and rounds down to a multiple
    of [s]. *)
Lemma mask_floor n s x : 1 <= n <= 8 -> In s [1; 2; 4; 8] ->
  x .& (Z.ones (8 * n) - (s - 1)) = (x mod 2 ^ (8 * n)) / s * s.
Proof.
  intros Hn Hs. destruct (pow2_size s Hs) as (k & Hk & ->).
  assert (Z.ones (8 * n) - (2 ^ k - 1) = Z.ldiff (Z.ones (8 * n)) (Z.ones k)) as ->.
  { rewrite <- Z.sub_nocarry_ldiff; [rewrite (Z.ones_equiv k); lia|].
    assert (k = 0 \/ k = 1 \/ k = 2 \/ k = 3) as Hc by lia.
    assert (Z.log2 (Z.ones k) <= 2 /\ 0 <= Z.ones k) as [? ?]
      by (destruct Hc as [->|[->|[->| ->]]]; split; vm_compute; discriminate).
    apply Z.ldiff_ones_r_low; lia. }
  rewrite Z.ldiff_land, Z.land_assoc, Z.land_ones, <- Z.ldiff_land, Z.ldiff_ones_r by lia.
  by rewrite Z.shiftl_mul_pow2, Z.shiftr_div_pow2 by lia.
Qed.

(** [x & (ones(8n) - (s-1)) == x] says that [x] has [n] bytes and is aligned. *)
Lemma mask_test n s x : 1 <= n <= 8 -> In s [1; 2; 4; 8] -> 0 <= x ->
  (x .& (Z.ones (8 * n) - (s - 1))) = x <-> x < 2 ^ (8 * n) /\ x mod s = 0.
Proof.
  intros Hn Hs Hx. rewrite mask_floor by done.
  assert (0 < s) as Hp by (cbn in Hs; lia).
  pose proof (Z.mod_pos_bound x (2 ^ (8 * n)) ltac:(apply Z.pow_pos_nonneg; lia)).
  set (y := x mod 2 ^ (8 * n)) in *. pose proof (Z.div_mod y s ltac:(lia)).
  pose proof (Z.mod_pos_bound y s Hp). split.
  - intros Heq. assert (x <= y) by lia. assert (y = x) as Hyx by (apply Z.mod_small; lia).
    split; [lia|]. rewrite Hyx in *. lia.
  - intros [Hlt Hal]. assert (y = x) as Hyx by (apply Z.mod_small; lia). rewrite Hyx in *. lia.
Qed.

Lemma value_test s v : In s [1; 2; 4; 8] -> 0 <= v ->
  (v .& byte_mask s) = v <-> v < 2 ^ (8 * s).
Proof.
  intros Hs Hv. assert (1 <= s <= 8) by (cbn in Hs; lia).
  rewrite byte_mask_ones, Z.land_ones by lia. split; intros Hx.
  - rewrite <- Hx. apply Z.mod_pos_bound, Z.pow_pos_nonneg; lia.
  - apply Z.mod_small. lia.
Qed.

(** The tests in a row: of the address, then of the value of a write. *)
Lemma tests_decide (bad wr wide : bool) (A V : Prop) : (bad = false <-> A) -> (wide = false <-> V) ->
  (if bad then EB_ADDRESS else if wr && wide then EB_WIDTH else EB_OK) = EB_OK <-> A /\ (wr = true -> V).
Proof.
  intros HA HV. destruct bad; [split; [done|intros [Hb _]; by apply HA in Hb]|]. pose proof (proj1 HA eq_refl).
  destruct wr; cbn [andb]; [|by split]. destruct wide; [split; [done|intros [_ Hb]; by apply (proj2 HV) in Hb]|].
  pose proof (proj1 HV eq_refl). by split.
Qed.

(** For any operation an application can record, the check of
    [eb_device_flush] succeeds exactly when the operation, with the format the
    check settles on, is one the link can execute; that format has the
    greatest of the offered access sizes that the data port supports. *)
Theorem check_op_accepts (width : Z) (o : eb_operation) (Hw : link_width width)
    (Hf : is_byte (op_format o)) (Ha : 0 <= op_address o) (Hv : 0 <= op_value o) :
  (snd (check_op (g_data width) (byte_mask (g_addr width)) o) = EB_OK <->
   exists f, fst (check_op (g_data width) (byte_mask (g_addr width)) o) = Some f /\
     op_ok width (op_set_format f o)) /\
  (forall f, fst (check_op (g_data width) (byte_mask (g_addr width)) o) = Some f ->
     sz (op_set_format f o) .& op_format o = sz (op_set_format f o) /\
     forall t, In t [1; 2; 4; 8] -> t .& op_format o = t -> t <= g_data width ->
       t <= sz (op_set_format f o)).
Proof.
  pose proof (format_facts_ok width (op_format o) Hw Hf) as Hff. unfold format_facts in Hff.
  unfold check_op. set (s := op_size (g_data width) (op_format o)) in *.
  set (e := op_endian (g_data width) (op_format o)) in *.
  destruct (s =? 0) eqn:Es; [split; [split; [discriminate|intros (f & Hbad & _); discriminate Hbad]|intros f Hbad; discriminate Hbad]|].
  repeat (apply andb_prop in Hff as [Hff ?]).
  assert (In s [1; 2; 4; 8]) as Hs.
  { apply existsb_exists in Hff as (t & Ht & Heq). bool_hyps. by subst t. }
  match goal with H : forallb _ _ = true |- _ => rename H into Hmax end.
  match goal with H : implb _ _ = true |- _ => rename H into Hagn end.
  match goal with H : _ || _ = true |- _ => rename H into Hend end.
  bool_hyps.
  assert (sz (op_set_format (e .| s) o) = s) as Hsz by done.
  assert (en (op_set_format (e .| s) o) = e) as Hen by done.
  destruct ((e =? (EB_BIG_ENDIAN .| EB_LITTLE_ENDIAN)) || (negb (s =? g_data width) && (e =? 0))) eqn:Ee;
    [split; [split; [discriminate|intros (f & Hbad & _); discriminate Hbad]|intros f Hbad; discriminate Hbad]|].
  cbn [fst snd].
  apply orb_false_elim in Ee as [Ee1 Ee2]. bool_hyps.
  assert (e = 0 \/ e = EB_BIG_ENDIAN \/ e = EB_LITTLE_ENDIAN) as Hend3.
  { unfold EB_BIG_ENDIAN, EB_LITTLE_ENDIAN in *. repeat (apply orb_prop in Hend as [Hend|Hend]); bool_hyps; auto. by destruct Ee1; rewrite Hend. }
  assert (e = 0 <-> s = g_data width) as Hiff.
  { destruct (Z.eqb_spec s (g_data width)) as [->|Hne]; cbn in Hagn, Ee2; bool_hyps; [done|].
    split; [done|]. intros. done. }
  assert (forall b n, 1 <= n <= 8 -> b = Z.ones (8 * n) ->
    negb ((op_address o .& (b - (s - 1))) =? op_address o) = false <->
    op_address o < 2 ^ (8 * n) /\ op_address o mod s = 0) as Haddr.
  { intros b n Hn ->. rewrite negb_false_iff, Z.eqb_eq. by apply mask_test. }
  assert (1 <= g_addr width <= 8) as Hga by (pose proof (proj2 (link_width_cases width Hw)); lia).
  split.
  2: { intros f [= <-]. rewrite Hsz. split; [done|]. intros t Ht Hto Htd.
    apply (proj1 (forallb_forall _ _) Hmax) in Ht. cbv beta in Ht.
    rewrite (proj2 (Z.eqb_eq _ _) Hto), (proj2 (Z.leb_le _ _) Htd) in Ht. cbn in Ht. bool_hyps. done. }
  assert (op_ok width (op_set_format (e .| s) o) <->
    (op_address o < 2 ^ (8 * addr_bytes width o) /\ op_address o mod s = 0) /\
    (is_write o = true -> op_value o < 2 ^ (8 * s))) as Hok.
  { split.
    - intros [_ _ _ _ Hr Hal Hval]. rewrite Hsz in *. cbn in Hr, Hal, Hval. split; [split; [apply Hr|done]|].
      intros Hwr. by apply Hval.
    - intros [[Hr Hal] Hval]. split; rewrite ?Hsz, ?Hen; try done. intros Hwr. split; [done|by apply Hval]. }
  transitivity (op_ok width (op_set_format (e .| s) o)).
  2: { split; [intros Hx; eexists; by split|]. intros (f & Hfeq & Hx). injection Hfeq as <-. exact Hx. }
  rewrite Hok. unfold addr_bytes.
  assert (negb ((op_value o .& byte_mask s) =? op_value o) = false <-> op_value o < 2 ^ (8 * s)) as Hval
    by (rewrite negb_false_iff, Z.eqb_eq; by apply value_test).
  destruct (is_config o); cbn [negb andb]; apply tests_decide; try done.
  - exact (Haddr 0xFFFF 2 ltac:(lia) eq_refl).
  - exact (Haddr (byte_mask (g_addr width)) (g_addr width) Hga (byte_mask_ones _ Hga)).
Qed.

Lemma check_op_accepts_witness :
  snd (check_op (g_data 0x44) (byte_mask (g_addr 0x44))
         (mk_operation 0x1002 0xbeef EB_OP_WRITE (0x0f .| EB_BIG_ENDIAN) EB_NULL)) = EB_ADDRESS /\
  exists f, fst (check_op (g_data 0x44) (byte_mask (g_addr 0x44))
         (mk_operation 0x1002 0xbeef EB_OP_WRITE (0x03 .| EB_BIG_ENDIAN) EB_NULL)) = Some f /\
    op_ok 0x44 (op_set_format f (mk_operation 0x1002 0xbeef EB_OP_WRITE (0x03 .| EB_BIG_ENDIAN) EB_NULL)).
Proof.
  split; [reflexivity|].
  apply (check_op_accepts 0x44 (mk_operation 0x1002 0xbeef EB_OP_WRITE (0x03 .| EB_BIG_ENDIAN) EB_NULL));
    [split; [lia|reflexivity]|split; vm_compute; [discriminate|reflexivity]|cbn; lia|cbn; lia|reflexivity].
Defined.
