(* ===== verification/Records.v ===== *)
(** How master.c divides the operations of a cycle into records: properties of the
    packing functions of Master.v, and the sequence of records of a whole cycle. *)
From stdpp Require Import base list.
From Stdlib Require Import ZArith Lia.
From S2P Require Import Prelude Widths Store World Linked Cycle Format Master.

Abbreviation node := (Z * eb_operation)%type.

(** Number of bus operations, which are the ones the error flags are kept of. *)
Definition bus_count (l : list node) : Z :=
  Z.of_nat (length (List.filter (fun xo => negb (is_config xo.2)) l)).

Lemma bus_count_nil : bus_count [] = 0.
Proof. done. Qed.

Lemma bus_count_app l1 l2 : bus_count (l1 ++ l2) = bus_count l1 + bus_count l2.
Proof. unfold bus_count. rewrite List.filter_app, length_app. lia. Qed.

Lemma bus_count_nonneg l : 0 <= bus_count l.
Proof. unfold bus_count. lia. Qed.

Lemma bus_count_cons x l : bus_count (x :: l) = (if cfg_of x.2 =? 0 then 1 else 0) + bus_count l.
Proof.
  unfold bus_count, is_config, cfg_of. cbn [List.filter]. rewrite negb_involutive.
  destruct (_ =? 0); cbn [length]; lia.
Qed.

Lemma is_read_write o : is_read o = negb (is_write o).
Proof. done. Qed.

Section packing.
Context (data maxops : Z).
Hypothesis Hmax : 0 <= maxops < 2 ^ 32.

Lemma count_op_spec cfg ops : 0 <= ops < maxops ->
  count_op cfg ops = ops + (if cfg =? 0 then 1 else 0).
Proof. intros Hops. unfold count_op. case_if; [apply wrap_small; lia|lia]. Qed.

(** A run of operations the record can take together. *)
Definition same_kind (wcfg format : Z) (o : eb_operation) : Prop :=
  cfg_of o = wcfg /\ op_format o = format.

Definition write_run (wcfg format : Z) (l : list node) : Prop :=
  Forall (fun xo => is_write xo.2 = true /\ same_kind wcfg format xo.2) l.

Lemma chains_true wcfg format wcount ops o :
  chains maxops wcfg format wcount ops o = true ->
  is_write o = true /\ same_kind wcfg format o /\ wcount < 255 /\ ops < maxops.
Proof. unfold chains, same_kind. intros H. bool_hyps. done. Qed.

(** The loop takes no further operation. *)
Ltac stop_here := exists []; unfold bus_count; cbn; split_and!; (done || lia || constructor).

Lemma chain_fifo_spec bwa wcfg format l : forall wcount ops n ops' rest,
  0 <= ops <= maxops -> wcount <= 255 ->
  chain_fifo maxops bwa wcfg format wcount ops l = (n, ops', rest) ->
  exists taken, l = taken ++ rest /\ n = wcount + Z.of_nat (length taken) /\ n <= 255 /\
    ops' = ops + bus_count taken /\ ops' <= maxops /\ write_run wcfg format taken /\
    Forall (fun xo => op_address xo.2 = bwa) taken.
Proof.
  induction l as [|[x o] l IH]; intros wcount ops n ops' rest Hops Hw; cbn [chain_fifo].
  - intros [= <- <- <-]. stop_here.
  - case_if; [intros [= <- <- <-]; stop_here|].
    case_if; [intros [= <- <- <-]; stop_here|].
    bool_hyps. apply chains_true in E0 as (Hwr & [Hc Hf] & Hn & Ho).
    rewrite count_op_spec by lia. intros Hr.
    apply IH in Hr as (taken & -> & -> & H1 & -> & H3 & H4 & H5); [|case_if; lia|lia].
    exists ((x, o) :: taken). rewrite bus_count_cons. cbn [snd length app]. rewrite Hc.
    split_and!; try done; try lia; constructor; done.
Qed.

(** [steps a l]: the addresses of [l] are [a + data], [a + 2 data], ... *)
Fixpoint steps (a : Z) (l : list node) : Prop :=
  match l with
  | [] => True
  | (_, o) :: l => op_address o = u64 (a + data) /\ steps (u64 (a + data)) l
  end.

Lemma chain_seq_spec wcfg format l : forall bwa wcount ops n ops' rest,
  0 <= ops <= maxops -> wcount <= 255 ->
  chain_seq data maxops bwa wcfg format wcount ops l = (n, ops', rest) ->
  exists taken, l = taken ++ rest /\ n = wcount + Z.of_nat (length taken) /\ n <= 255 /\
    ops' = ops + bus_count taken /\ ops' <= maxops /\ write_run wcfg format taken /\ steps bwa taken.
Proof.
  induction l as [|[x o] l IH]; intros bwa wcount ops n ops' rest Hops Hw; cbn [chain_seq].
  - intros [= <- <- <-]. stop_here.
  - case_if; [intros [= <- <- <-]; stop_here|].
    case_if; [intros [= <- <- <-]; stop_here|].
    bool_hyps. apply chains_true in E0 as (Hwr & [Hc Hf] & Hn & Ho).
    rewrite count_op_spec by lia. intros Hr.
    apply IH in Hr as (taken & -> & -> & H1 & -> & H3 & H4 & H5); [|case_if; lia|lia].
    exists ((x, o) :: taken). rewrite bus_count_cons. cbn [snd length app steps]. rewrite Hc.
    split_and!; try done; try lia; constructor; done.
Qed.

Lemma chain_reads_spec rcfg format low l : forall rcount ops n ops' rest,
  0 <= ops <= maxops -> rcount <= 255 ->
  chain_reads data maxops rcfg format low rcount ops l = (n, ops', rest) ->
  exists taken, l = taken ++ rest /\ n = rcount + Z.of_nat (length taken) /\ n <= 255 /\
    ops' = ops + bus_count taken /\ ops' <= maxops /\
    Forall (fun xo => is_read xo.2 = true /\ same_kind rcfg format xo.2 /\
                      op_address xo.2 .& (data - 1) = low) taken.
Proof.
  induction l as [|[x o] l IH]; intros rcount ops n ops' rest Hops Hw; cbn [chain_reads].
  - intros [= <- <- <-]. stop_here.
  - case_if; [intros [= <- <- <-]; stop_here|].
    bool_hyps. rewrite count_op_spec by lia. intros Hr.
    apply IH in Hr as (taken & -> & -> & H1' & -> & H3' & H4'); [|case_if; lia|lia].
    exists ((x, o) :: taken). rewrite bus_count_cons. cbn [snd length app].
    match goal with Hc : cfg_of o = rcfg |- _ => rewrite Hc end.
    split_and!; try done; try lia. constructor; [|done]. cbn. rewrite is_read_write. unfold same_kind.
    match goal with Hw : is_write o = false |- _ => by rewrite Hw end.
Qed.

Definition low_bits (low : Z) (l : list node) : Prop :=
  Forall (fun xo => op_address xo.2 .& (data - 1) = low) l.

(** The addresses the slave will reconstruct: repeated (FIFO) or increasing. *)
Definition write_addresses (fifo : Z) (ws : list node) : Prop :=
  match ws with
  | [] => True
  | (_, o) :: t => if fifo =? 0 then steps (op_address o) t
                   else Forall (fun xo => op_address xo.2 = op_address o) t
  end.

Hypothesis Hdata : data = 1 \/ data = 2 \/ data = 4 \/ data = 8.

Lemma low_mod a : a .& (data - 1) = a mod data.
Proof.
  destruct Hdata as [->|[->|[->| ->]]].
  - change (1 - 1) with (Z.ones 0). by rewrite Z.land_ones.
  - change (2 - 1) with (Z.ones 1). by rewrite Z.land_ones.
  - change (4 - 1) with (Z.ones 2). by rewrite Z.land_ones.
  - change (8 - 1) with (Z.ones 3). by rewrite Z.land_ones.
Qed.

Lemma low_small a : u8 (a .& (data - 1)) = a .& (data - 1).
Proof.
  apply wrap_small. rewrite low_mod. pose proof (Z.mod_pos_bound a data). lia.
Qed.

Lemma low_step a : u64 (a + data) .& (data - 1) = a .& (data - 1).
Proof.
  rewrite !low_mod. unfold wrap.
  rewrite Z.mod_mod_divide.
  - rewrite <- (Z.mul_1_l data) at 1. by rewrite Z.mod_add by lia.
  - exists (2 ^ 64 / data). destruct Hdata as [->|[->|[->| ->]]]; reflexivity.
Qed.

Lemma steps_low l : forall a, steps a l -> low_bits (a .& (data - 1)) l.
Proof.
  induction l as [|[x o] l IH]; intros a; [constructor|]. cbn [steps]. intros [E Hs].
  constructor; [cbn; by rewrite E, low_step|]. rewrite <- (low_step a). by apply IH.
Qed.

Lemma write_addresses_low fifo ws x o :
  write_addresses fifo ((x, o) :: ws) -> low_bits (op_address o .& (data - 1)) ((x, o) :: ws).
Proof.
  cbn [write_addresses]. intros Hw. constructor; [done|]. destruct (fifo =? 0).
  - by apply steps_low.
  - eapply Forall_impl; [exact Hw|]. cbn. by intros ? ->.
Qed.

(** The outcome of [pack_writes]. *)
Record writes_spec (ops : Z) (l : list node) (wp : wpart) (ws : list node) : Prop := {
  ws_split : l = ws ++ w_rest wp;
  ws_count : w_count wp = Z.of_nat (length ws);
  ws_max : w_count wp <= 255;
  ws_ops : w_ops wp = ops + bus_count ws;
  ws_budget : w_ops wp <= maxops;
  ws_run : write_run (w_cfg wp) (w_format wp) ws;
  ws_addr : write_addresses (w_fifo wp) ws;
  ws_none : ws = [] -> w_format wp = EB_DATAX /\ w_low wp = 0;
  ws_low : low_bits (w_low wp) ws;
  ws_head : forall x o l', l = (x, o) :: l' -> is_write o = true -> ops < maxops -> ws <> [] }.

Lemma bus_single xo : bus_count [xo] = if cfg_of xo.2 =? 0 then 1 else 0.
Proof. rewrite bus_count_cons. unfold bus_count. cbn. lia. Qed.

Lemma writes_none ops l :
  0 <= ops <= maxops ->
  match l with (_, o) :: _ => (maxops <=? ops) || negb (is_write o) = true | [] => True end ->
  writes_spec ops l (mk_wpart 0 0 0 EB_DATAX 0 ops l) [].
Proof.
  intros Hops Hl. split; cbn; unfold bus_count; cbn; try done; try lia; try constructor.
  intros x o l' -> Hw Ho. rewrite Hw in Hl. bool_hyps. rewrite orb_false_r in Hl. bool_hyps. lia.
Qed.

(** A single write, or a longer run starting with it. *)
Lemma writes_some ops x o t rest n fifo ops' :
  0 <= ops < maxops -> is_write o = true ->
  n = 1 + Z.of_nat (length t) -> n <= 255 ->
  ops' = count_op (cfg_of o) ops + bus_count t -> ops' <= maxops ->
  write_run (cfg_of o) (op_format o) t -> write_addresses fifo ((x, o) :: t) ->
  writes_spec ops ((x, o) :: t ++ rest)
    (mk_wpart n fifo (cfg_of o) (op_format o) (u8 (op_address o .& (data - 1))) ops' rest) ((x, o) :: t).
Proof.
  intros Hops Hw -> Hn -> Hle Hr Ha. rewrite count_op_spec in * by lia.
  split; cbn [w_rest w_count w_ops w_cfg w_format w_fifo w_low].
  - done.
  - cbn [length]. lia.
  - done.
  - rewrite bus_count_cons. cbn [snd]. lia.
  - done.
  - constructor; [|done]. done.
  - done.
  - done.
  - rewrite low_small. by eapply write_addresses_low.
  - done.
Qed.

Lemma pack_writes_spec ops l :
  0 <= ops <= maxops -> exists ws, writes_spec ops l (pack_writes data maxops ops l) ws.
Proof.
  intros Hops. unfold pack_writes. destruct l as [|[x o] l]; [exists []; by apply writes_none|].
  case_if; [exists []; apply writes_none; [done|exact E]|]. bool_hyps.
  assert (is_write o = true) as Hw by (by destruct (is_write o)).
  assert (0 <= count_op (cfg_of o) ops <= maxops) as Hc by (rewrite count_op_spec by lia; case_if; lia).
  assert (writes_spec ops ((x, o) :: [] ++ l) (mk_wpart 1 0 (cfg_of o) (op_format o)
    (u8 (op_address o .& (data - 1))) (count_op (cfg_of o) ops) l) [(x, o)]) as Hsingle.
  { apply writes_some; unfold bus_count; cbn; try done; try lia. constructor. }
  destruct l as [|[y o2] l]; [by eexists|]. case_if; [by eexists|]. bool_hyps.
  assert (is_write o2 = true) as Hw2 by (by destruct (is_write o2)).
  assert (forall t rest n fifo ops',
    l = t ++ rest -> n = 2 + Z.of_nat (length t) -> n <= 255 ->
    ops' = count_op (cfg_of o) (count_op (cfg_of o) ops) + bus_count t -> ops' <= maxops ->
    write_run (cfg_of o) (op_format o) t -> write_addresses fifo ((x, o) :: (y, o2) :: t) ->
    exists ws, writes_spec ops ((x, o) :: (y, o2) :: l) (mk_wpart n fifo (cfg_of o) (op_format o)
      (u8 (op_address o .& (data - 1))) ops' rest) ws) as Hrun.
  { intros t rest n fifo ops' -> -> Hn -> Hle Hr Ha. exists ((x, o) :: (y, o2) :: t).
    apply (writes_some ops x o ((y, o2) :: t)); try done.
    - lia.
    - cbn [length]. lia.
    - rewrite bus_count_cons. cbn [snd]. rewrite (count_op_spec (cfg_of o) (count_op _ _)) by lia.
      replace (cfg_of o2) with (cfg_of o) by done. lia.
    - constructor; [|done]. done. }
  assert (0 <= count_op (cfg_of o) (count_op (cfg_of o) ops) <= maxops) as Hc2.
  { rewrite count_op_spec by lia. case_if; lia. }
  case_if; [|case_if; [|by eexists]]; bool_hyps.
  - destruct (chain_fifo _ _ _ _ _ _ l) as [[n ops'] rest] eqn:Ec.
    apply chain_fifo_spec in Ec as (t & ? & ? & ? & ? & ? & ? & Hf); [|done|lia].
    apply (Hrun t); try done. cbn. by constructor.
  - destruct (chain_seq _ _ _ _ _ _ _ l) as [[n ops'] rest] eqn:Ec.
    apply chain_seq_spec in Ec as (t & ? & ? & ? & ? & ? & ? & Hf); [|done|lia].
    apply (Hrun t); try done.
Qed.

(** The outcome of planning a record: [ws] are written, [rs] read. *)
Record plan_spec (needs_check : bool) (ops : Z) (l : list node) (p : plan) (ws rs : list node) : Prop := {
  ps_split : l = ws ++ rs ++ p_rest p;
  ps_wcount : p_wcount p = Z.of_nat (length ws);
  ps_wmax : p_wcount p <= 255;
  ps_rcount : p_rcount p = Z.of_nat (length rs);
  ps_rmax : p_rcount p <= 255;
  ps_ops : p_ops p = ops + bus_count ws + bus_count rs;
  ps_budget : p_ops p <= maxops;
  ps_writes : write_run (p_wcfg p) (p_format p) ws;
  ps_addr : write_addresses (p_fifo p) ws;
  ps_wlow : low_bits (p_low p) ws;
  ps_reads : Forall (fun xo => is_read xo.2 = true /\ same_kind (p_rcfg p) (p_format p) xo.2) rs;
  ps_rlow : low_bits (p_low p) rs;
  ps_errors : reads_errors p = true ->
    rs = [] /\ p_rxcount p = 1 /\ p_rcfg p = 1 /\ p_format p = data /\ (ws = [] -> p_low p = 0);
  ps_noerrors : reads_errors p = false -> p_rxcount p = p_rcount p }.

Lemma pack_reads_spec needs_check ops l :
  0 <= ops <= maxops -> Forall (fun xo => op_format xo.2 <> EB_DATAX) l ->
  exists ws rs, plan_spec needs_check ops l (pack_reads data maxops (pack_writes data maxops ops l)) ws rs /\
    reads_errors (pack_reads data maxops (pack_writes data maxops ops l)) = false /\
    (l <> [] -> ops < maxops -> ws ++ rs <> []) /\
    (ws = [] -> rs = [] -> p_format (pack_reads data maxops (pack_writes data maxops ops l)) = EB_DATAX /\
       p_low (pack_reads data maxops (pack_writes data maxops ops l)) = 0).
Proof.
  intros Hops Hfmt. destruct (pack_writes_spec ops l Hops) as (ws & Hws).
  destruct (pack_writes data maxops ops l) as [wcount fifo wcfg format low ops' rest].
  destruct Hws as [Hsp Hc Hm Ho Hb Hr Ha Hn Hl Hh]. cbn in *. unfold pack_reads. cbn [w_rest w_ops w_format w_low w_count w_fifo w_cfg].
  assert (forall P : Prop, ws = [] -> (forall x o l', rest = (x, o) :: l' -> is_read o = true -> P) ->
            l <> [] -> ops < maxops -> P) as Hread.
  { intros P -> HP Hne Hlt. cbn in Hsp. subst rest. destruct l as [|[x o] l]; [done|].
    apply (HP x o l eq_refl). rewrite is_read_write.
    destruct (is_write o) eqn:Hw; [|done]. by destruct (Hh x o l eq_refl Hw Hlt). }
  assert (plan_spec needs_check ops l (mk_plan wcount fifo wcfg 0 0 0 format low ops' rest) ws []) as Hnone.
  { split; cbn; try done; try (unfold bus_count; cbn; lia); try constructor.
    rewrite bus_count_nil. lia. }
  destruct rest as [|[x o] rest].
  - exists ws, []. split; [exact Hnone|]. split; [done|]. split; [|naive_solver].
    intros Hne Hlt. rewrite app_nil_r. intros ->. by eapply (Hread False).
  - case_if.
    + exists ws, []. split; [exact Hnone|]. split; [done|]. split; [|naive_solver].
      intros Hne Hlt. rewrite app_nil_r. intros Hnil.
      eapply (Hread False); [done| |done|done]. intros ? ? ? [= <- <- <-] Hro.
      destruct (Hn Hnil) as [-> ->]. subst ws. rewrite is_read_write in Hro.
      unfold bus_count in Ho. cbn in Ho. rewrite Z.eqb_refl in E. cbn [negb andb] in E.
      rewrite orb_false_r in E. apply orb_prop in E as [E|E]; [bool_hyps; lia|by rewrite E in Hro].
    + destruct (chain_reads _ _ _ _ _ _ _ rest) as [[n ops2] rest2] eqn:Ec.
      bool_hyps. pose proof (bus_count_nonneg ws).
      rewrite count_op_spec in Ec by lia.
      apply chain_reads_spec in Ec as (t & -> & Hcnt & Hn255 & -> & Hb2 & Ht); [|case_if; lia|lia].
      exists ws, ((x, o) :: t).
      assert (ws <> [] -> op_format o = format /\ op_address o .& (data - 1) = low) as Hsame.
      { intros Hne. destruct ws as [|[y o1] ws]; [done|].
        assert (format <> EB_DATAX) as Hf.
        { subst l. apply Forall_app in Hfmt as [Hfmt _]. apply Forall_cons in Hfmt as [Hf _].
          apply Forall_cons in Hr as [(_ & _ & <-) _]. exact Hf. }
        rewrite (proj2 (Z.eqb_neq _ _) Hf) in *. cbn [negb andb] in *. bool_hyps. done. }
      split; [|split; [cbn; unfold reads_errors; cbn; by rewrite Z.eqb_refl|split; [by intros; destruct ws|done]]].
      split; cbn [p_rest p_wcount p_fifo p_wcfg p_rcount p_rxcount p_rcfg p_format p_low p_ops].
      all: try done.
      * cbn [length]. lia.
      * rewrite bus_count_cons. cbn [snd]. lia.
      * destruct ws as [|w ws]; [constructor|]. destruct Hsame as [-> _]; [done|]. done.
      * destruct ws as [|w ws]; [constructor|]. rewrite low_small. by destruct Hsame as [_ ->].
      * constructor; [|eapply Forall_impl; [exact Ht|]; cbn; naive_solver].
        cbn. rewrite is_read_write. unfold same_kind. by destruct (is_write o).
      * constructor; [cbn; by rewrite low_small|]. eapply Forall_impl; [exact Ht|]. cbn. rewrite low_small. naive_solver.
      * unfold reads_errors. cbn. by rewrite Z.eqb_refl.
Qed.

Lemma add_readback_spec needs_check ops l p ws rs :
  plan_spec needs_check ops l p ws rs -> reads_errors p = false ->
  (ws = [] -> rs = [] -> p_format p = EB_DATAX /\ p_low p = 0) ->
  (ws <> [] -> p_format p <> EB_DATAX) ->
  plan_spec needs_check ops l (add_readback data maxops needs_check p) ws rs.
Proof.
  intros Hp Hre Hnil Hne. unfold add_readback. case_if; [|done].
  bool_hyps. destruct Hp as [Hs Hw Hwm Hr Hrm Ho Hb Hws Ha Hwl Hrs Hrl _ _].
  assert (rs = []) as -> by (destruct rs; [done|cbn in Hr; lia]).
  assert (ws <> [] -> p_format p = data) as Hd.
  { intros Hw'. match goal with H : (_ =? EB_DATAX) || _ = true |- _ => apply orb_prop in H as [H|H] end;
      bool_hyps; [by destruct (Hne Hw')|done]. }
  split; cbn [p_rest p_wcount p_fifo p_wcfg p_rcount p_rxcount p_rcfg p_format p_low p_ops]; try done.
  - destruct ws as [|w ws]; [constructor|]. by rewrite <- Hd.
  - intros _. split_and!; try done. intros ->. by destruct Hnil.
  - unfold reads_errors. cbn. rewrite Hr. done.
Qed.

(** [2 * (operations left) + (a check is due)] decreases from record to record. *)
Definition record_measure (l : list node) (ops : Z) : nat :=
  (2 * length l + (if (0 <? ops)%Z then 1 else 0))%nat.

Definition record_due (needs_check : bool) (l : list node) (ops : Z) : Prop :=
  l <> [] \/ needs_check = true /\ 0 < ops.

Lemma plan_record_spec needs_check ops l :
  0 < maxops -> 0 <= ops <= maxops -> Forall (fun xo => op_format xo.2 <> EB_DATAX) l ->
  let p := plan_record data maxops needs_check ops l in
  (exists ws rs, plan_spec needs_check ops l p ws rs /\
     (record_due needs_check l ops -> ws ++ rs <> [] \/ reads_errors p = true)) /\
  (record_due needs_check l ops -> is_cycle_end needs_check p = false ->
     record_due needs_check (p_rest p) (next_ops p) /\
     (record_measure (p_rest p) (next_ops p) < record_measure l ops)%nat).
Proof.
  intros Hmp Hops Hfmt. cbv zeta. unfold plan_record.
  destruct (pack_reads_spec needs_check ops l Hops Hfmt) as (ws & rs & Hp & Hre & Hprog & Hnil).
  set (p := pack_reads data maxops (pack_writes data maxops ops l)) in *.
  assert (ws <> [] -> p_format p <> EB_DATAX) as Hne.
  { intros Hw. destruct ws as [|[x o] ws]; [done|]. pose proof (ps_split _ _ _ _ _ _ Hp) as Hs.
    rewrite Hs in Hfmt. apply Forall_app in Hfmt as [Hfmt _]. apply Forall_cons in Hfmt as [Hf _].
    pose proof (ps_writes _ _ _ _ _ _ Hp) as Hr. apply Forall_cons in Hr as [(_ & _ & <-) _]. exact Hf. }
  pose proof (add_readback_spec needs_check ops l p ws rs Hp Hre Hnil Hne) as Hq.
  assert (p_rest (add_readback data maxops needs_check p) = p_rest p /\
          p_ops (add_readback data maxops needs_check p) = p_ops p) as [Hrest Hpo]
    by (unfold add_readback; by case_if).
  pose proof (ps_split _ _ _ _ _ _ Hp) as Hs. pose proof (ps_ops _ _ _ _ _ _ Hp) as Ho.
  pose proof (bus_count_nonneg ws). pose proof (bus_count_nonneg rs).
  assert (record_due needs_check l ops -> ws ++ rs = [] ->
    reads_errors (add_readback data maxops needs_check p) = true /\ 0 < ops) as Hempty.
  { intros Hdue [-> ->]%app_eq_nil. cbn in Hs. rewrite bus_count_nil in Ho.
    destruct (Hnil eq_refl eq_refl) as [Hf _].
    assert (p_rcount p = 0) as Hrc by (rewrite (ps_rcount _ _ _ _ _ _ Hp); done).
    assert (maxops <= ops \/ l = [] /\ needs_check = true /\ 0 < ops) as Hc.
    { destruct (Z_lt_le_dec ops maxops) as [Hlt|]; [right|by left].
      destruct Hdue as [Hl|[? ?]]; [by destruct (Hprog Hl Hlt)|].
      destruct l; [done|]. by destruct (Hprog ltac:(done) Hlt). }
    assert (0 < ops) by (destruct Hc as [?|(_ & _ & ?)]; lia). split; [|done].
    unfold add_readback. rewrite Hrc, Hf, !Z.eqb_refl. cbn [orb andb].
    replace (p_ops p) with ops by lia. rewrite <- Hs.
    destruct Hc as [Hc|(-> & -> & Hc)].
    - by rewrite (proj2 (Z.leb_le _ _) Hc).
    - by rewrite (proj2 (Z.ltb_lt _ _) Hc), orb_true_r. }
  split.
  { exists ws, rs. split; [done|]. intros Hdue.
    destruct (decide (ws ++ rs = [])) as [He|He]; [right; by apply Hempty|by left]. }
  intros Hdue Hend. unfold is_cycle_end in Hend. rewrite Hrest, Hpo in Hend.
  unfold next_ops. rewrite Hrest, Hpo.
  destruct (decide (ws ++ rs = [])) as [He|He].
  - (* no operation fits: the error flags are read *)
    destruct (Hempty Hdue He) as [Hre' Hpos]. apply app_eq_nil in He as [-> ->]. cbn in Hs.
    rewrite Hre', orb_true_r, andb_true_r in Hend. rewrite Hre', <- Hs. rewrite <- Hs in Hend.
    assert (l <> []) by (by destruct l). split; [by left|].
    unfold record_measure. rewrite (proj2 (Z.ltb_lt _ _) Hpos). cbn. lia.
  - assert (length (p_rest p) < length l)%nat as Hlen.
    { rewrite Hs, app_assoc, length_app. destruct (ws ++ rs); [done|cbn; lia]. }
    split; [|unfold record_measure; destruct (reads_errors _); repeat case_if; lia].
    destruct (p_rest p) as [|? ?]; [right|by left]. cbn [andb] in Hend.
    apply orb_false_elim in Hend as [Hend ->]. apply orb_false_elim in Hend as [Hnc Hz].
    bool_hyps. split; [done|lia].
Qed.

Lemma next_ops_range needs_check ops l p ws rs :
  0 <= ops -> plan_spec needs_check ops l p ws rs -> 0 <= next_ops p <= maxops.
Proof.
  intros Hops Hp. pose proof (ps_ops _ _ _ _ _ _ Hp). pose proof (ps_budget _ _ _ _ _ _ Hp).
  pose proof (bus_count_nonneg ws). pose proof (bus_count_nonneg rs).
  unfold next_ops. case_if; lia.
Qed.
End packing.

(** * The records of a cycle *)

(** A record with the operations that were left when it was planned. *)
Record rec := mk_rec { r_plan : plan; r_end : bool; r_ops : list node }.

Definition r_writes (r : rec) : list node := take (Z.to_nat (p_wcount (r_plan r))) (r_ops r).
Definition r_reads (r : rec) : list node :=
  take (Z.to_nat (p_rcount (r_plan r))) (drop (Z.to_nat (p_wcount (r_plan r))) (r_ops r)).

Fixpoint cycle_records (data maxops : Z) (needs_check : bool) (fuel : nat) (ops : Z) (l : list node)
    : option (list rec) :=
  match fuel with
  | O => None
  | S fuel =>
      let p := plan_record data maxops needs_check ops l in
      if is_cycle_end needs_check p then Some [mk_rec p true l]
      else option_map (cons (mk_rec p false l))
             (cycle_records data maxops needs_check fuel (next_ops p) (p_rest p))
  end.

(** Bus operations whose error flags have not been read yet, after a record. *)
Definition unreported (acc : Z) (r : rec) : Z :=
  if reads_errors (r_plan r) then 0 else acc + bus_count (r_writes r ++ r_reads r).

(** At no time are more than [maxops] flags outstanding; a checked cycle ends
    with none outstanding. *)
Fixpoint feedback_ok (maxops : Z) (needs_check : bool) (acc : Z) (recs : list rec) : Prop :=
  match recs with
  | [] => needs_check = true -> acc = 0
  | r :: recs => acc + bus_count (r_writes r ++ r_reads r) <= maxops /\
                 feedback_ok maxops needs_check (unreported acc r) recs
  end.

(** The plan of a record describes its operations. *)
Definition rec_ok (data maxops : Z) (needs_check : bool) (r : rec) : Prop :=
  exists ops, (r_writes r ++ r_reads r <> [] \/ reads_errors (r_plan r) = true) /\
    plan_spec data maxops needs_check ops (r_ops r) (r_plan r) (r_writes r) (r_reads r).

Lemma plan_spec_parts data maxops nc ops l p ws rs e :
  plan_spec data maxops nc ops l p ws rs ->
  r_writes (mk_rec p e l) = ws /\ r_reads (mk_rec p e l) = rs.
Proof.
  intros Hp. pose proof (ps_split _ _ _ _ _ _ _ _ Hp) as Hs.
  pose proof (ps_wcount _ _ _ _ _ _ _ _ Hp) as Hw. pose proof (ps_rcount _ _ _ _ _ _ _ _ Hp) as Hr.
  unfold r_writes, r_reads. cbn [r_plan r_ops]. rewrite Hw, Hr, !Nat2Z.id, Hs.
  split; [by rewrite take_app_length|]. by rewrite drop_app_length, take_app_length.
Qed.

Definition data_ok (data : Z) : Prop := data = 1 \/ data = 2 \/ data = 4 \/ data = 8.

Lemma cycle_records_spec data maxops nc fuel : forall ops l,
  data_ok data -> 0 < maxops < 2 ^ 32 -> 0 <= ops <= maxops ->
  Forall (fun xo => op_format xo.2 <> EB_DATAX) l -> record_due nc l ops ->
  (record_measure l ops < fuel)%nat ->
  exists recs, cycle_records data maxops nc fuel ops l = Some recs /\
    concat (map (fun r => r_writes r ++ r_reads r) recs) = l /\
    (exists init last, recs = init ++ [last] /\ r_end last = true /\
       Forall (fun r => r_end r = false) init) /\
    Forall (rec_ok data maxops nc) recs /\
    feedback_ok maxops nc ops recs.
Proof.
  induction fuel as [|fuel IH]; intros ops l Hd Hm Hops Hfmt Hdue Hf; [lia|]. cbn [cycle_records].
  destruct (plan_record_spec data maxops ltac:(lia) Hd nc ops l ltac:(lia) Hops Hfmt) as [(ws & rs & Hp & Hprog) Hnext].
  set (p := plan_record data maxops nc ops l) in *.
  pose proof (ps_split _ _ _ _ _ _ _ _ Hp) as Hs. pose proof (ps_ops _ _ _ _ _ _ _ _ Hp) as Ho.
  pose proof (ps_budget _ _ _ _ _ _ _ _ Hp) as Hb.
  destruct (is_cycle_end nc p) eqn:Ee.
  - exists [mk_rec p true l]. destruct (plan_spec_parts _ _ _ _ _ _ _ _ true Hp) as [Ew Er].
    unfold is_cycle_end in Ee. apply andb_prop in Ee as [Er0 Ee].
    assert (p_rest p = []) as Hr by (by destruct (p_rest p)).
    split; [done|]. split; [cbn; rewrite Ew, Er, Hs at 1; by rewrite Hr, !app_nil_r|].
    split; [exists [], (mk_rec p true l); by split_and!|].
    split; [constructor; [|constructor]; exists ops; rewrite Ew, Er; split; [by apply Hprog|done]|].
    cbn [feedback_ok]. rewrite Ew, Er, bus_count_app. split; [lia|].
    intros ->. unfold unreported. cbn [r_plan]. rewrite Ew, Er, bus_count_app. case_if; [done|].
    cbn [negb orb] in Ee. rewrite orb_false_r in Ee. bool_hyps. lia.
  - destruct (Hnext Hdue eq_refl) as [Hdue' Hlt].
    assert (Forall (fun xo => op_format xo.2 <> EB_DATAX) (p_rest p)) as Hfmt'
      by (rewrite Hs in Hfmt; by apply Forall_app in Hfmt as [_ [_ ?]%Forall_app]).
    assert (0 <= next_ops p <= maxops) as Hrange by (eapply next_ops_range; [..|exact Hp]; lia).
    destruct (IH (next_ops p) (p_rest p) Hd Hm Hrange Hfmt' Hdue' ltac:(lia))
      as (recs & Ec & Hcat & (init & last & -> & Hl & Hi) & Hok & Hfb).
    destruct (plan_spec_parts _ _ _ _ _ _ _ _ false Hp) as [Ew Er].
    rewrite Ec. exists (mk_rec p false l :: init ++ [last]). split; [done|].
    split; [cbn; rewrite Ew, Er, Hcat, <- app_assoc; done|].
    split; [exists (mk_rec p false l :: init), last; split_and!; try done; by constructor|].
    split; [constructor; [|done]; exists ops; rewrite Ew, Er; split; [by apply Hprog|done]|].
    cbn [feedback_ok]. rewrite Ew, Er, bus_count_app. split; [lia|].
    unfold unreported. cbn [r_plan]. rewrite Ew, Er, bus_count_app.
    unfold next_ops in Hfb. destruct (reads_errors p); [done|]. by rewrite Ho, <- Z.add_assoc in Hfb.
Qed.

(** C14: the record loop of [eb_device_flush] ends after at most twice as many
    records as there are operations, plus one; its records carry every
    operation of the cycle exactly once and in issue order, exactly the last
    one ends the cycle, every count fits its byte, and a cycle that checks for
    errors reads the flags before more than [maxops] of them accumulate and
    once more at its end. *)
Theorem records_partition_cycle (data maxops : Z) (needs_check : bool) (l : list node)
    (Hd : data_ok data) (Hm : 0 < maxops < 2 ^ 32) (Hne : l <> [])
    (Hf : Forall (fun xo => op_format xo.2 <> EB_DATAX) l) :
  exists recs, cycle_records data maxops needs_check (S (2 * length l)) 0 l = Some recs /\
    concat (map (fun r => r_writes r ++ r_reads r) recs) = l /\
    (exists init last, recs = init ++ [last] /\ r_end last = true /\
       Forall (fun r => r_end r = false) init) /\
    Forall (fun r => 0 <= p_wcount (r_plan r) <= 255 /\ 0 <= p_rxcount (r_plan r) <= 255) recs /\
    feedback_ok maxops needs_check 0 recs.
Proof.
  destruct (cycle_records_spec data maxops needs_check (S (2 * length l)) 0 l) as (recs & E & Hc & Hl & Hok & Hfb);
    try done; [lia|by left|unfold record_measure; cbn; lia|].
  exists recs. split_and!; try done. eapply Forall_impl; [exact Hok|].
  intros r (ops & _ & Hp). destruct Hp as [_ Hw Hwm Hr Hrm _ _ _ _ _ _ _ He Hn].
  split; [lia|]. destruct (reads_errors (r_plan r)); [destruct He as (_ & -> & _); [done|lia]|].
  rewrite Hn by done. lia.
Qed.

Lemma records_partition_cycle_witness :
  exists recs, cycle_records 4 32 true 7 0
    [(3, mk_operation 0x100 17 EB_OP_WRITE 4 EB_NULL); (4, mk_operation 0x104 18 EB_OP_WRITE 4 EB_NULL);
     (5, mk_operation 0x200 0 EB_OP_READ_VAL 4 EB_NULL)] = Some recs /\
    feedback_ok 32 true 0 recs.
Proof.
  destruct (records_partition_cycle 4 32 true
    [(3, mk_operation 0x100 17 EB_OP_WRITE 4 EB_NULL); (4, mk_operation 0x104 18 EB_OP_WRITE 4 EB_NULL);
     (5, mk_operation 0x200 0 EB_OP_READ_VAL 4 EB_NULL)]) as (recs & E & _ & _ & _ & Hfb);
    [right; right; left; reflexivity|lia|discriminate|repeat constructor; discriminate|].
  exists recs. exact (conj E Hfb).
Defined.
