(* ===== verification/Encode.v ===== *)
(** The bytes [eb_device_flush] sends for a cycle: the layout of a record, its
    length, and what the record loop of master.c hands to the transport. *)
From stdpp Require Import base list gmap.
From Stdlib Require Import ZArith Lia.
From S2P Require Import Prelude Widths Store World Linked Cycle Format Master Records.

(** * Layout of a record *)

Definition write_words (alignment : nat) (shift : Z) (ws : list node) : list Z :=
  concat (map (fun xo => EB_mWRITE (u64 (op_value xo.2 .<< (shift .<< 3))) alignment) ws).
Definition read_words (alignment : nat) (rs : list node) : list Z :=
  concat (map (fun xo => EB_mWRITE (op_address xo.2) alignment) rs).

Definition write_section (width : Z) (p : plan) (ws : list node) : list Z :=
  match ws with
  | [] => []
  | (_, o) :: _ => EB_mWRITE (op_address o) (g_alignment width)
                   ++ write_words (g_alignment width) (op_shift (g_data width) p) ws
  end.
Definition error_section (width rba : Z) (p : plan) : list Z :=
  if reads_errors p then EB_mWRITE (rba .| 1) (g_alignment width) ++
                         EB_mWRITE (8 - g_data width) (g_alignment width)
  else [].
Definition read_section (width rba : Z) (rs : list node) : list Z :=
  match rs with [] => [] | _ => EB_mWRITE rba (g_alignment width) ++ read_words (g_alignment width) rs end.

Definition record_bytes (width rba : Z) (r : rec) : list Z :=
  record_header width (r_plan r) (r_end r) ++ write_section width (r_plan r) (r_writes r)
  ++ error_section width rba (r_plan r) ++ read_section width rba (r_reads r).

Lemma emit_writes_spec alignment shift ws rest :
  emit_writes alignment shift (length ws) (ws ++ rest) = (write_words alignment shift ws, rest).
Proof.
  induction ws as [|[x o] ws IH]; [by destruct rest|]. cbn [length app emit_writes]. by rewrite IH.
Qed.

Lemma emit_reads_spec alignment rs rest :
  emit_reads alignment (length rs) (rs ++ rest) = (read_words alignment rs, rest).
Proof.
  induction rs as [|[x o] rs IH]; [by destruct rest|]. cbn [length app emit_reads]. by rewrite IH.
Qed.

Lemma rec_ok_parts data maxops nc r : rec_ok data maxops nc r ->
  r_ops r = r_writes r ++ r_reads r ++ p_rest (r_plan r) /\
  p_wcount (r_plan r) = Z.of_nat (length (r_writes r)) /\
  p_rcount (r_plan r) = Z.of_nat (length (r_reads r)).
Proof. intros (ops & _ & Hp). destruct Hp. done. Qed.

(** What the code emits is the record's bytes, and it stops at [scanp]. *)
Lemma emit_record_spec data maxops nc width rba r : rec_ok data maxops nc r ->
  emit_record width rba (r_plan r) (r_end r) (r_ops r) = (record_bytes width rba r, p_rest (r_plan r)).
Proof.
  intros Hr. destruct (rec_ok_parts _ _ _ _ Hr) as (Hs & Hw & Hrc).
  unfold emit_record, record_bytes, error_section, write_section, read_section.
  set (p := r_plan r) in *. rewrite Hs, Hw, Hrc. set (rest := p_rest p).
  assert (forall l, l = r_reads r ++ rest ->
    (if 0 <? Z.of_nat (length (r_reads r)) then
       let '(bytes, rest) := emit_reads (g_alignment width) (Z.to_nat (Z.of_nat (length (r_reads r)))) l in
       (EB_mWRITE rba (g_alignment width) ++ bytes, rest) else ([], l)) =
    (match r_reads r with [] => [] | _ => EB_mWRITE rba (g_alignment width) ++
       read_words (g_alignment width) (r_reads r) end, rest)) as Hreads.
  { intros l ->. rewrite Nat2Z.id, emit_reads_spec. by destruct (r_reads r). }
  destruct (r_writes r) as [|[x o] ws] eqn:Ews.
  - cbn [length app]. destruct (r_reads r ++ rest) as [|[y o2] l] eqn:El;
      change (0 <? Z.of_nat 0) with false; cbv iota; rewrite (Hreads _ eq_refl); done.
  - rewrite Nat2Z.id, emit_writes_spec. cbn [app].
    rewrite (proj2 (Z.ltb_lt 0 _)) by (cbn [length]; lia).
    rewrite (Hreads _ eq_refl). by rewrite <- !app_assoc.
Qed.

(** ** Lengths *)

Lemma length_words {A} (f : A -> Z) alignment (l : list A) :
  alignment = 2%nat \/ alignment = 4%nat \/ alignment = 8%nat ->
  length (concat (map (fun x => EB_mWRITE (f x) alignment) l)) = (length l * alignment)%nat.
Proof.
  intros Ha. induction l as [|x l IH]; [done|]. cbn [map concat length].
  rewrite length_app, IH, length_EB_mWRITE by done. lia.
Qed.

Lemma length_record_header width p e : length (record_header width p e) = g_record_alignment width.
Proof.
  unfold record_header. rewrite length_app, length_replicate. cbn [length].
  destruct (g_record_alignment_cases width) as [-> | ->]; done.
Qed.

Lemma length_record_bytes data maxops nc width rba r : rec_ok data maxops nc r ->
  length (record_bytes width rba r) = plan_length width (r_plan r).
Proof.
  intros Hr. destruct (rec_ok_parts _ _ _ _ Hr) as (_ & Hw & Hrc). pose proof (g_alignment_cases width) as Ha.
  unfold record_bytes, plan_length. rewrite !length_app, length_record_header. f_equal.
  assert (length (write_section width (r_plan r) (r_writes r)) =
    ((if (0 <? length (r_writes r))%nat then 1 else 0) + length (r_writes r)) * g_alignment width)%nat as ->.
  { unfold write_section, write_words. destruct (r_writes r) as [|[x o] ws]; [done|].
    rewrite length_app, length_EB_mWRITE, length_words by done. cbn [length Nat.ltb Nat.leb]. lia. }
  assert (length (read_section width rba (r_reads r)) =
    ((if (0 <? length (r_reads r))%nat then 1 else 0) + length (r_reads r)) * g_alignment width)%nat as ->.
  { unfold read_section, read_words. destruct (r_reads r) as [|[x o] rs]; [done|].
    rewrite length_app, length_EB_mWRITE, length_words by done. cbn [length Nat.ltb Nat.leb]. lia. }
  destruct Hr as (ops & _ & Hp). unfold plan_total, error_section. rewrite Hw.
  destruct (reads_errors (r_plan r)) eqn:Ee.
  - destruct (ps_errors _ _ _ _ _ _ _ _ Hp Ee) as (-> & -> & _).
    rewrite length_app, !length_EB_mWRITE by done. cbn [length Nat.ltb Nat.leb Z.ltb Z.compare c_bool].
    destruct (r_writes r); cbn [length Nat.ltb Nat.leb]; unfold c_bool; case_if; bool_hyps; lia.
  - rewrite (ps_noerrors _ _ _ _ _ _ _ _ Hp Ee), Hrc. cbn [length].
    destruct (r_writes r), (r_reads r); cbn [length Nat.ltb Nat.leb]; unfold c_bool; repeat case_if; bool_hyps; lia.
Qed.

(** Any record fits the buffer. *)
Lemma plan_length_bound data maxops nc width r : rec_ok data maxops nc r ->
  (plan_length width (r_plan r) <= buffer_size)%nat.
Proof.
  intros (ops & _ & Hp). destruct Hp as [_ Hw Hwm Hr Hrm _ _ _ _ _ _ _ He Hn].
  assert (0 <= p_rxcount (r_plan r) <= 255) as Hx.
  { destruct (reads_errors (r_plan r)); [destruct He as (_ & -> & _); [done|lia]|]. rewrite Hn by done. lia. }
  unfold plan_length, plan_total, buffer_size, c_bool.
  assert (g_record_alignment width <= 8 /\ g_alignment width <= 8)%nat as [H1 H2].
  { split; [destruct (g_record_alignment_cases width) as [-> | ->]; lia|].
    destruct (g_alignment_cases width) as [->|[-> | ->]]; lia. }
  repeat case_if; nia.
Qed.

(** * What the record loop sends *)

Definition has_answer (r : rec) : bool := reads_errors (r_plan r) || (0 <? p_rcount (r_plan r)).

Definition cycle_bytes (width rba : Z) (recs : list rec) : list Z :=
  concat (map (record_bytes width rba) recs).

Lemma drop_promise r n b : (3 <= n)%nat -> drop n (promise (mk_mbuf b 0 r)) = drop n b.
Proof.
  intros Hn. unfold promise. cbn [b_reads b_bytes]. destruct r; [done|]. by rewrite drop_alter_lt by lia.
Qed.

Lemma length_promise b : length (promise b) = length (b_bytes b).
Proof. unfold promise. case_if; [done|apply length_alter]. Qed.

Section loop.
Context {X : Type} `{Env X} `{Callbacks X}.
Context (width link_type : Z) (devicep cyclep responsep rba maxops : Z) (nc : bool).
Context (d : eb_device).

(** Sending touches neither the library's objects nor fails: it appends the bytes
    to whatever carries them. *)
Hypothesis Hsend : forall bytes (w : world X), exists w',
  t_send link_type (dv_transport d) (dv_link d) bytes w = Some (tt, w') /\ w_pool w' = w_pool w.

Let send := t_send link_type (dv_transport d) (dv_link d).
Let hal := g_record_alignment width.

Implicit Types w : world X.

Lemma ensure_stream len b w :
  cells (w_pool w) !! devicep = Some (IDevice d) ->
  exists chunks b' w', ensure_space link_type 0 hal devicep len b w = Some ((b', true), w') /\
    mapM_ send chunks w = Some (tt, w') /\ w_pool w' = w_pool w /\
    concat chunks ++ b_bytes b' = b_bytes b /\ b_reads b' = b_reads b /\
    ((len <= buffer_size)%nat -> (length (b_bytes b') + len <= buffer_size)%nat).
Proof.
  intros Hd. unfold ensure_space, limit. cbn [Nat.eqb].
  destruct (Nat.ltb_spec buffer_size (length (b_bytes b) + len)) as [Hlt|Hge].
  - mstep (EB_DEVICE_some _ _ _ Hd). destruct (Hsend (b_bytes b) w) as (w' & Es & Ep).
    mstep Es. exists [b_bytes b], (mk_mbuf [] (b_cptr b) (b_reads b)), w'.
    split; [done|]. split; [cbn; unfold send; by mstep Es|]. split; [done|].
    split; [cbn; by rewrite !app_nil_r|]. split; [done|]. cbn. lia.
  - exists [], b, w. split_and!; try done.
Qed.

Lemma mapM_app {A} (f : A -> M X unit) l1 l2 w w1 w2 :
  mapM_ f l1 w = Some (tt, w1) -> mapM_ f l2 w1 = Some (tt, w2) -> mapM_ f (l1 ++ l2) w = Some (tt, w2).
Proof.
  revert w. induction l1 as [|a l1 IH]; intros w; cbn [mapM_ app]; [by intros [= <-]|].
  unfold bind. destruct (f a w) as [[[] w']|]; [|done]. apply IH.
Qed.

(** On a stream the concatenation of what was sent and what is buffered is the
    concatenation of the records. *)
Lemma record_loop_stream fuel : forall ops readback b l recs w,
  cells (w_pool w) !! devicep = Some (IDevice d) ->
  cycle_records (g_data width) maxops nc fuel ops l = Some recs ->
  Forall (rec_ok (g_data width) maxops nc) recs ->
  exists chunks b' w',
    record_loop width link_type 0 devicep cyclep responsep rba maxops nc fuel ops readback b l w =
      Some ((b', Some (readback || existsb has_answer recs)), w') /\
    mapM_ send chunks w = Some (tt, w') /\ w_pool w' = w_pool w /\
    concat chunks ++ b_bytes b' = b_bytes b ++ cycle_bytes width rba recs /\
    (length (b_bytes b') <= buffer_size)%nat.
Proof.
  induction fuel as [|fuel IH]; intros ops readback b l recs w Hd Hc Hok; [done|].
  cbn [cycle_records] in Hc. cbn [record_loop].
  set (p := plan_record (g_data width) maxops nc ops l) in *.
  destruct (ensure_stream (plan_length width p) b w Hd) as (ch1 & b1 & w1 & Ee & Es1 & Ep1 & Hcat1 & _ & Hfit).
  mstep Ee. cbn [negb].
  assert (forall e rest, recs = mk_rec p e l :: rest -> is_cycle_end nc p = e ->
    emit_record width rba p e l = (record_bytes width rba (mk_rec p e l), p_rest p) /\
    (length (b_bytes b1 ++ record_bytes width rba (mk_rec p e l)) <= buffer_size)%nat) as Hemit.
  { intros e rest -> He. apply Forall_cons in Hok as [Hr _].
    split; [exact (emit_record_spec _ _ _ width rba _ Hr)|].
    rewrite length_app, (length_record_bytes _ _ _ _ _ _ Hr). apply Hfit, (plan_length_bound _ _ _ _ _ Hr). }
  destruct (is_cycle_end nc p) eqn:Een.
  - injection Hc as <-. destruct (Hemit true [] eq_refl eq_refl) as [-> Hlen].
    eexists ch1, _, w1. split; [cbn [existsb]; rewrite orb_false_r, <- orb_assoc; reflexivity|].
    split; [done|]. split; [done|]. cbn [b_bytes]. split; [|done].
    unfold cycle_bytes. cbn [map concat]. by rewrite app_nil_r, app_assoc, Hcat1.
  - destruct (cycle_records _ _ _ fuel _ _) as [recs'|] eqn:Ec; [|done]. injection Hc as <-.
    destruct (Hemit false recs' eq_refl eq_refl) as [-> Hlen].
    apply Forall_cons in Hok as [_ Hok].
    destruct (IH (next_ops p) (readback || reads_errors p || (0 <? p_rcount p))
      (mk_mbuf (b_bytes b1 ++ record_bytes width rba (mk_rec p false l)) (b_cptr b1)
        (b_reads b1 || (0 <? p_rxcount p))) (p_rest p) recs' w1) as (ch2 & b2 & w2 & Er & Es2 & Ep2 & Hcat2 & Hl2);
      [by rewrite Ep1|done|done|].
    exists (ch1 ++ ch2), b2, w2. split; [cbn [existsb]; unfold has_answer at 1; cbn [r_plan]; by rewrite !orb_assoc in *|].
    split; [by eapply mapM_app|]. split; [by rewrite Ep2|]. split; [|done].
    rewrite concat_app, <- app_assoc, Hcat2. cbn [b_bytes]. unfold cycle_bytes. cbn [map concat].
    by rewrite !app_assoc, Hcat1.
Qed.

(** ** Packets *)

(** The bytes of the cycle being formatted. *)
Definition current (b : mbuf) : list Z := drop (b_cptr b) (b_bytes b).

(** A packet buffer: the header, earlier cycles up to [cptr], the current one. *)
Definition mbuf_ok (mtu : nat) (b : mbuf) : Prop :=
  (hal <= b_cptr b <= length (b_bytes b))%nat /\ (length (b_bytes b) <= mtu)%nat.

(** At most one packet is sent, and it holds the earlier cycles only. *)
Definition sent_before (b : mbuf) (sends : list (list Z)) (cptr : nat) : Prop :=
  (sends = [] /\ cptr = b_cptr b) \/
  (b_cptr b <> hal /\ cptr = hal /\ exists r rest, sends = [take (b_cptr b) (promise (mk_mbuf (b_bytes b ++ rest) 0 r))]).

Lemma hal_ge : (4 <= hal)%nat.
Proof. unfold hal. destruct (g_record_alignment_cases width) as [-> | ->]; lia. Qed.

Lemma ensure_packet mtu len b w :
  mtu <> 0%nat -> mbuf_ok mtu b -> cells (w_pool w) !! devicep = Some (IDevice d) ->
  exists sends b' w',
    ensure_space link_type mtu hal devicep len b w =
      Some ((b', (hal + length (current b) + len <=? mtu)%nat), w') /\
    mapM_ send sends w = Some (tt, w') /\ w_pool w' = w_pool w /\
    sent_before b sends (b_cptr b') /\ current b' = current b /\ mbuf_ok mtu b' /\
    ((hal + length (current b) + len <= mtu)%nat -> (length (b_bytes b') + len <= mtu)%nat) /\
    ((hal + length (current b) + len > mtu)%nat -> b_cptr b' = hal) /\
    (b_cptr b' = b_cptr b -> b_bytes b' = b_bytes b).
Proof.
  intros Hm [[Hc1 Hc2] Hl] Hd. pose proof hal_ge as Hh.
  assert (length (current b) = length (b_bytes b) - b_cptr b)%nat as Hcur by (unfold current; by rewrite length_drop).
  unfold ensure_space, limit. rewrite (proj2 (Nat.eqb_neq mtu 0) Hm).
  destruct (Nat.ltb_spec mtu (length (b_bytes b) + len)) as [Hlt|Hge].
  2: { exists [], b, w. rewrite (proj2 (Nat.leb_le _ mtu)) by lia.
       split_and!; (done || by left || (intros; lia)). }
  mstep (EB_DEVICE_some _ _ _ Hd).
  destruct (Nat.eqb_spec (b_cptr b) hal) as [He|He]; cbn [negb].
  - rewrite bind_ret. exists [], b, w. rewrite Hcur, He.
    replace (hal + (length (b_bytes b) - hal))%nat with (length (b_bytes b)) by lia.
    split; [by rewrite <- Nat.leb_antisym|]. split_and!; (done || by left || (intros; lia)).
  - destruct (Hsend (take (b_cptr b) (promise b)) w) as (w' & Es & Ep). mstep Es. rewrite bind_ret.
    set (bytes := take hal (promise b) ++ drop (b_cptr b) (promise b)).
    assert (length bytes = hal + length (current b))%nat as Hlen.
    { unfold bytes. rewrite length_app, length_take, length_drop, length_promise. lia. }
    exists [take (b_cptr b) (promise b)], (mk_mbuf bytes hal false), w'. cbn [b_bytes b_cptr].
    split; [by rewrite Hlen, <- Nat.leb_antisym|].
    split; [cbn; unfold send; by mstep Es|]. split; [done|].
    split; [right; split; [done|]; split; [done|]; exists (b_reads b), []; by rewrite app_nil_r|].
    split; [|split; [split; cbn [b_bytes b_cptr]; rewrite ?Hlen; lia|split; [rewrite Hlen; lia|split; [done|congruence]]]].
    unfold current. cbn [b_bytes b_cptr]. unfold bytes.
    rewrite drop_app_length' by (rewrite length_take, length_promise; lia).
    change (promise b) with (promise (mk_mbuf (b_bytes b) 0 (b_reads b))). apply drop_promise. lia.
Qed.

Lemma sent_before_trans b b1 sends1 sends2 cptr bytes r :
  sent_before b sends1 (b_cptr b1) ->
  (b_cptr b1 = b_cptr b -> exists rest, b_bytes b1 = b_bytes b ++ rest) ->
  sent_before (mk_mbuf (b_bytes b1 ++ bytes) (b_cptr b1) r) sends2 cptr ->
  sent_before b (sends1 ++ sends2) cptr.
Proof.
  intros [[-> E1]|(Hne & E1 & Hs1)] Hb [[-> E2]|(Hne2 & E2 & r2 & rest2 & ->)]; cbn [b_cptr b_bytes] in *.
  - left. by rewrite E2, E1.
  - right. destruct (Hb E1) as [rest Hbr]. rewrite E1 in *. split_and!; try done.
    exists r2, (rest ++ bytes ++ rest2). cbn. by rewrite Hbr, <- !app_assoc.
  - right. rewrite app_nil_r. by rewrite E2.
  - by rewrite E1 in Hne2.
Qed.

(** A cycle stays together in one packet, or is abandoned when no packet can
    hold it. *)
Lemma record_loop_packet mtu fuel : mtu <> 0%nat -> forall ops readback b l recs w,
  mbuf_ok mtu b -> cells (w_pool w) !! devicep = Some (IDevice d) ->
  cycle_records (g_data width) maxops nc fuel ops l = Some recs ->
  Forall (rec_ok (g_data width) maxops nc) recs ->
  exists sends b' w',
    mapM_ send sends w = Some (tt, w') /\ w_pool w' = w_pool w /\ sent_before b sends (b_cptr b') /\
    (if (hal + length (current b) + length (cycle_bytes width rba recs) <=? mtu)%nat
     then record_loop width link_type mtu devicep cyclep responsep rba maxops nc fuel ops readback b l w =
            Some ((b', Some (readback || existsb has_answer recs)), w') /\
          current b' = current b ++ cycle_bytes width rba recs /\ mbuf_ok mtu b' /\
          (b_cptr b' = b_cptr b -> b_bytes b' = b_bytes b ++ cycle_bytes width rba recs)
     else b_cptr b' = hal /\ length (b_bytes b') = hal /\ exists opp,
          record_loop width link_type mtu devicep cyclep responsep rba maxops nc fuel ops readback b l w =
            (abandon_cycle cyclep responsep opp ;;; ret (b', None)) w').
Proof.
  intros Hm. induction fuel as [|fuel IH]; intros ops readback b l recs w Hb Hd Hc Hok; [done|].
  cbn [cycle_records] in Hc. cbn [record_loop].
  set (p := plan_record (g_data width) maxops nc ops l) in *.
  destruct (ensure_packet mtu (plan_length width p) b w Hm Hb Hd)
    as (ch1 & b1 & w1 & Ee & Es1 & Ep1 & Hs1 & Hcur1 & Hb1 & Hfit & Hover & Hsame).
  mstep Ee.
  assert (exists e rest, recs = mk_rec p e l :: rest /\ is_cycle_end nc p = e) as (e & rest & Hrec & He).
  { destruct (is_cycle_end nc p); [injection Hc as <-; eauto|].
    destruct (cycle_records _ _ _ fuel _ _); [injection Hc as <-; eauto|done]. }
  assert (rec_ok (g_data width) maxops nc (mk_rec p e l)) as Hr by (rewrite Hrec in Hok; by apply Forall_cons in Hok as [? _]).
  pose proof (length_record_bytes _ _ _ width rba _ Hr) as Hlen. cbn [r_plan] in Hlen.
  set (bytes := record_bytes width rba (mk_rec p e l)) in *.
  assert (length (cycle_bytes width rba recs) = plan_length width p + length (cycle_bytes width rba rest))%nat as Htot
    by (rewrite Hrec; unfold cycle_bytes; cbn [map concat]; by rewrite length_app, <- Hlen).
  destruct (Nat.leb_spec (hal + length (current b) + plan_length width p) mtu) as [Hle|Hgt]; cbn [negb].
  2: { (* the record does not fit *)
    rewrite (proj2 (Nat.leb_gt _ mtu)) by lia. specialize (Hover ltac:(lia)).
    exists ch1, (mk_mbuf (take hal (b_bytes b1)) (b_cptr b1) (b_reads b1)), w1.
    split_and!; try done; [cbn [b_bytes]; rewrite length_take; destruct Hb1 as [[? ?] ?]; lia|by eexists]. }
  specialize (Hfit Hle).
  pose proof (emit_record_spec _ _ _ width rba _ Hr) as Hemit. cbn [r_plan r_end r_ops] in Hemit.
  rewrite He, Hemit. fold bytes.
  set (b2 := mk_mbuf (b_bytes b1 ++ bytes) (b_cptr b1) (b_reads b1 || (0 <? p_rxcount p))).
  assert (mbuf_ok mtu b2) as Hb2.
  { destruct Hb1 as [[? ?] ?]. split; cbn [b_bytes b_cptr b2]; rewrite length_app; lia. }
  assert (current b2 = current b ++ bytes) as Hcur2.
  { rewrite <- Hcur1. unfold b2, current. cbn [b_bytes b_cptr]. rewrite drop_app_le; [done|apply Hb1]. }
  destruct e.
  - rewrite He in Hc. injection Hc as Hc. subst recs. injection Hrec as Hrest. subst rest.
    rewrite (proj2 (Nat.leb_le _ mtu)) by (rewrite Htot; change (length (cycle_bytes width rba [])) with 0%nat; lia).
    exists ch1, b2, w1. split; [done|]. split; [done|]. split; [done|].
    unfold cycle_bytes. cbn [map concat existsb]. rewrite app_nil_r, orb_false_r. fold bytes.
    split; [unfold has_answer; cbn [r_plan]; by rewrite orb_assoc|]. split; [done|]. split; [done|].
    intros Hcp. cbn. by rewrite Hsame.
  - rewrite He in Hc. destruct (cycle_records _ _ _ fuel _ _) as [recs'|] eqn:Ec; [|done].
    injection Hc as Hc. subst recs. injection Hrec as ->. apply Forall_cons in Hok as [_ Hok].
    destruct (IH (next_ops p) (readback || reads_errors p || (0 <? p_rcount p)) b2 (p_rest p) rest w1)
      as (ch2 & b3 & w3 & Es3 & Ep3 & Hs3 & Hres); [done|by rewrite Ep1|done|done|].
    exists (ch1 ++ ch2), b3, w3. split; [by eapply mapM_app|]. split; [by rewrite Ep3|].
    split; [eapply sent_before_trans; [exact Hs1| |exact Hs3]; intros Hcp; exists []; by rewrite app_nil_r, Hsame|].
    rewrite Hcur2, length_app, Hlen in Hres. rewrite Htot.
    replace (hal + length (current b) + (plan_length width p + length (cycle_bytes width rba rest)))%nat
      with (hal + (length (current b) + plan_length width p) + length (cycle_bytes width rba rest))%nat by lia.
    destruct (Nat.leb_spec (hal + (length (current b) + plan_length width p) + length (cycle_bytes width rba rest)) mtu).
    + destruct Hres as (Er & Hcur3 & Hb3 & Hb3s). unfold cycle_bytes. cbn [map concat existsb]. fold bytes.
      fold (cycle_bytes width rba rest).
      split; [unfold has_answer at 1; cbn [r_plan]; by rewrite !orb_assoc in *|].
      split; [by rewrite Hcur3, app_assoc|]. split; [done|].
      intros Hcp. assert (b_cptr b1 = b_cptr b) as Hcp1.
      { destruct Hs1 as [[_ ?]|(Hne & Hh & _)]; [done|]. assert (b_cptr b2 = b_cptr b1) as Hb2c by done; destruct Hs3 as [[_ Hx]|(_ & Hx & _)]; congruence. }
      rewrite Hb3s by (cbn; congruence). cbn [b_bytes b2]. by rewrite (Hsame Hcp1), app_assoc.
    + exact Hres.
Qed.
End loop.

(** * The two theorems on what a flush puts on the wire *)

Section wire.
Context {X : Type} `{Env X} `{Callbacks X}.

(** The transport's [send] succeeds and does not touch the library's objects. *)
Definition send_ok (link_type : Z) (d : eb_device) : Prop :=
  forall bytes (w : world X), exists w',
    t_send link_type (dv_transport d) (dv_link d) bytes w = Some (tt, w') /\ w_pool w' = w_pool w.

(** On a streaming link the chunks handed to [send] followed by the bytes
    left in the buffer are what was buffered before followed by the records of
    the cycle, in order; the buffer never overflows, and the cycle expects an
    answer exactly when a record requests one. *)
Theorem stream_carries_cycle (width link_type : Z) (devicep cyclep responsep rba maxops : Z)
    (needs_check : bool) (d : eb_device) (b : mbuf) (l : list node) (w : world X)
    (Hw : link_width width) (Hm : 0 < maxops < 2 ^ 32) (Hne : l <> [])
    (Hf : Forall (fun xo => op_format xo.2 <> EB_DATAX) l)
    (Hd : cells (w_pool w) !! devicep = Some (IDevice d)) (Hsend : send_ok link_type d) :
  exists recs chunks b' w',
    cycle_records (g_data width) maxops needs_check (S (2 * length l)) 0 l = Some recs /\
    record_loop width link_type 0 devicep cyclep responsep rba maxops needs_check
      (S (2 * length l)) 0 false b l w = Some ((b', Some (existsb has_answer recs)), w') /\
    mapM_ (t_send link_type (dv_transport d) (dv_link d)) chunks w = Some (tt, w') /\
    concat chunks ++ b_bytes b' = b_bytes b ++ cycle_bytes width rba recs /\
    (length (b_bytes b') <= buffer_size)%nat.
Proof.
  pose proof (proj1 (link_width_cases width Hw)) as Hdata.
  destruct (cycle_records_spec (g_data width) maxops needs_check (S (2 * length l)) 0 l)
    as (recs & E & _ & _ & Hok & _); try done; [lia|by left|unfold record_measure; cbn; lia|].
  destruct (record_loop_stream width link_type devicep cyclep responsep rba maxops needs_check d Hsend
    _ 0 false b l recs w Hd E Hok) as (chunks & b' & w' & Er & Es & _ & Hcat & Hlen).
  exists recs, chunks, b', w'. done.
Qed.

(** C15: on a packet link a cycle is never split: if its records fit one packet
    behind the header, they follow each other in the buffer, at most one packet
    was sent and that holds earlier cycles only; if they do not, the cycle is
    abandoned with [EB_OVERFLOW] and the buffer is left with the bare header. *)
Theorem packet_cycle_atomic (width link_type : Z) (mtu : nat) (devicep cyclep responsep rba maxops : Z)
    (needs_check : bool) (d : eb_device) (b : mbuf) (l : list node) (w : world X)
    (Hw : link_width width) (Hm : 0 < maxops < 2 ^ 32) (Hne : l <> []) (Hmtu : mtu <> 0%nat)
    (Hf : Forall (fun xo => op_format xo.2 <> EB_DATAX) l)
    (Hb : mbuf_ok width mtu b) (Hstart : b_cptr b = length (b_bytes b))
    (Hd : cells (w_pool w) !! devicep = Some (IDevice d)) (Hsend : send_ok link_type d) :
  exists recs sends b' w',
    cycle_records (g_data width) maxops needs_check (S (2 * length l)) 0 l = Some recs /\
    mapM_ (t_send link_type (dv_transport d) (dv_link d)) sends w = Some (tt, w') /\
    sent_before width b sends (b_cptr b') /\
    (if (g_record_alignment width + length (cycle_bytes width rba recs) <=? mtu)%nat
     then record_loop width link_type mtu devicep cyclep responsep rba maxops needs_check
            (S (2 * length l)) 0 false b l w = Some ((b', Some (existsb has_answer recs)), w') /\
          drop (b_cptr b') (b_bytes b') = cycle_bytes width rba recs /\
          (length (b_bytes b') <= mtu)%nat
     else length (b_bytes b') = g_record_alignment width /\ exists opp,
          record_loop width link_type mtu devicep cyclep responsep rba maxops needs_check
            (S (2 * length l)) 0 false b l w =
          (abandon_cycle cyclep responsep opp ;;; ret (b', None)) w').
Proof.
  pose proof (proj1 (link_width_cases width Hw)) as Hdata.
  destruct (cycle_records_spec (g_data width) maxops needs_check (S (2 * length l)) 0 l)
    as (recs & E & _ & _ & Hok & _); try done; [lia|by left|unfold record_measure; cbn; lia|].
  destruct (record_loop_packet width link_type devicep cyclep responsep rba maxops needs_check d Hsend
    mtu _ Hmtu 0 false b l recs w Hb Hd E Hok) as (sends & b' & w' & Es & _ & Hs & Hres).
  assert (current b = []) as Hcur by (unfold current; rewrite Hstart; apply drop_all).
  rewrite Hcur in Hres. cbn [length app] in Hres. rewrite Nat.add_0_r in Hres.
  exists recs, sends, b', w'. split_and!; try done.
  case_if; [|by destruct Hres as (_ & ? & ?)]. destruct Hres as (Er & Hc & Hb' & _).
  split; [done|]. split; [exact Hc|apply Hb'].
Qed.
End wire.

(** ** Instances *)

Import Sample.

#[local] Instance no_callbacks : Callbacks ext := {| call _ _ _ _ _ := ret tt |}.

Lemma sample_send_ok lt d : send_ok (X := ext) lt d.
Proof. intros bytes w. eexists. split; [reflexivity|done]. Qed.

Definition sample_ops : list node :=
  [(3, mk_operation 0x100 17 EB_OP_WRITE 4 EB_NULL); (4, mk_operation 0x104 18 EB_OP_WRITE 4 EB_NULL);
   (5, mk_operation 0x200 0 EB_OP_READ_VAL 4 EB_NULL)].

Lemma sample_formats : Forall (fun xo : node => op_format xo.2 <> EB_DATAX) sample_ops.
Proof. repeat constructor; discriminate. Qed.

Lemma stream_carries_cycle_witness :
  exists recs chunks b' (w' : world ext),
    concat chunks ++ b_bytes b' = [] ++ cycle_bytes 0x44 0x8000 recs /\
    mapM_ (t_send 0 EB_NULL EB_NULL) chunks (world_of [IDevice sample_device] []) = Some (tt, w').
Proof.
  destruct (stream_carries_cycle 0x44 0 0 1 2 0x8000 32 true sample_device (mk_mbuf [] 0 false) sample_ops
    (world_of [IDevice sample_device] [])) as (recs & chunks & b' & w' & _ & _ & E & Hc & _);
    [split; [lia|reflexivity]|lia|discriminate|apply sample_formats|reflexivity|apply sample_send_ok|].
  exists recs, chunks, b', w'. exact (conj Hc E).
Defined.

Lemma packet_cycle_atomic_witness :
  exists recs (b' : mbuf), cycle_records 4 32 true 7 0 sample_ops = Some recs /\
    (length (b_bytes b') <= 1472)%nat.
Proof.
  destruct (packet_cycle_atomic 0x44 1 1472 0 1 2 0x8000 32 true sample_device (start_buffer 0x44 1472) sample_ops
    (world_of [IDevice sample_device] [])) as (recs & sends & b' & w' & E & _ & _ & Hr);
    [split; [lia|reflexivity]|lia|discriminate|discriminate|apply sample_formats| |reflexivity|reflexivity
    |apply sample_send_ok|].
  - split; [split|]; apply Nat.leb_le; reflexivity.
  - exists recs, b'. split; [exact E|]. vm_compute in E. injection E as <-. vm_compute in Hr.
    destruct Hr as (_ & _ & Hr). exact Hr.
Defined.
