(* ===== verification/Slave.v ===== *)
(** The answering side of the wire protocol: [eb_device_slave] of
    [src/api/format/slave.c]. Records are decoded from the receive buffer, run
    against the socket's bus, and the answer is written over the request in the
    same buffer.

    The buffer is the list of the bytes received, so [eos] is its length; [rptr]
    and [wptr] are offsets. *)
From stdpp Require Import base list gmap.
From Stdlib Require Import ZArith Lia.
From S2P Require Import Prelude Widths Store World Linked Format.

(** * The bus of a socket, as slave.c uses it (readwrite.h) *)

(** [error] is the shift register of error flags; the write and the read of a
    bus address return it updated. *)
Class Bus (X : Type) := {
  eb_socket_write_config : Z -> Z -> Z -> Z -> M X unit;     (* socketp widths addr value *)
  eb_socket_write : Z -> Z -> Z -> Z -> Z -> Z -> M X Z;     (* socketp widths addr_b addr_l value error *)
  eb_socket_read_config : Z -> Z -> Z -> Z -> M X Z;         (* socketp widths addr error *)
  eb_socket_read : Z -> Z -> Z -> Z -> Z -> M X (Z * Z) }.   (* socketp widths addr_b addr_l error *)

(** * Decoding the select byte *)

Definition eb_log2_table : list Z := [0; 1; 2; 4; 7; 3; 6; 5].
Definition eb_log2 (x : Z) : Z := nth (Z.to_nat (u8 (x * 0x17) .>> 5)) eb_log2_table 0.

Record selection := mk_selection {
  sel_ok : bool;
  sel_shift : Z;        (* op_shift *)
  sel_width : Z;        (* op_width, with the address width put back *)
  sel_big : Z;          (* addr_low_big_endian *)
  sel_little : Z;       (* addr_low_little_endian *)
  sel_mask : Z }.       (* data_mask *)

Definition decode_select (data addr select : Z) : selection :=
  let op_shift := eb_log2 (u8 (select .& (- select))) in
  let bits := select .>> op_shift in
  let bits1 := (bits .>> 1) + 1 in
  let op_widths := eb_log2 bits1 in
  let op_width := op_widths + 1 in
  mk_selection
    (negb (select =? 0) && ((bits .& (bits + 1)) =? 0) && ((op_width .& op_widths) =? 0)
     && ((op_shift .& op_widths) =? 0) && (op_width <=? data) && (op_shift <? data))
    op_shift
    (u8 (op_width .| (addr .<< 4)))
    (u8 (data - (op_shift + op_width)))
    op_shift
    (byte_mask op_width).

(** [address_filter_bits] *)
Definition address_filter (data addr : Z) : Z := byte_mask addr - (data - 1).

(** [error = (error << 1) | 1] *)
Definition shift_error (error : Z) : Z := u64 (error .<< 1) .| 1.

(** * The records of a message *)

(** What is left of the message and the session: [None] of the functions below
    is [goto kill]. *)
Record session := mk_session {
  s_buffer : list Z; s_wptr : nat; s_rptr : nat; s_error : Z;
  s_cycle_end : Z; s_cycle_open : bool; s_reply : bool }.

Section records.
Context {X : Type} `{Env X} `{Bus X}.
(** The link: [link_type], whether it is a stream, and the width in use. *)
Context (socketp link_type transportp linkp : Z) (widths : Z).

Let data := g_data widths.
Let addr := g_addr widths.
Let alignment := g_alignment widths.
Let record_alignment := g_record_alignment widths.

(** One iteration of [while (wcount--)]. *)
Definition write_word (sel : selection) (wconfig : bool) (bwa bwa_b bwa_l wv error : Z) : M X Z :=
  let wv := (wv .>> (sel_shift sel .<< 3)) .& sel_mask sel in
  if wconfig then
    when (sel_ok sel) (eb_socket_write_config socketp (sel_width sel) bwa wv) ;;; ret error
  else if sel_ok sel then eb_socket_write socketp (sel_width sel) bwa_b bwa_l wv error
  else ret (shift_error error).

(** The write loop: [rptr] and [error] afterwards. *)
Fixpoint write_loop (sel : selection) (wconfig wfifo : bool) (buffer : list Z) (wcount : nat)
    (rptr : nat) (bwa bwa_b bwa_l error : Z) : M X (nat * Z) :=
  match wcount with
  | O => ret (rptr, error)
  | S wcount =>
      let* error := write_word sel wconfig bwa bwa_b bwa_l (EB_LOAD buffer rptr alignment) error in
      let rptr := (rptr + alignment)%nat in
      if wfifo then write_loop sel wconfig wfifo buffer wcount rptr bwa bwa_b bwa_l error
      else write_loop sel wconfig wfifo buffer wcount rptr
             (u64 (bwa + data)) (u64 (bwa_b + data)) (u64 (bwa_l + data)) error
  end.

Definition record_writes (sel : selection) (flags : Z) (buffer : list Z) (wcount : nat)
    (rptr : nat) (error : Z) : M X (nat * Z) :=
  match wcount with
  | O => ret (rptr, error)
  | _ =>
      let wfifo := negb ((flags .& EB_RECORD_WFF) =? 0) in
      let wconfig := negb ((flags .& EB_RECORD_WCA) =? 0) in
      let bwa := EB_LOAD buffer rptr alignment in
      let rptr := (rptr + alignment)%nat in
      if wconfig then write_loop sel wconfig wfifo buffer wcount rptr bwa 0 0 error
      else
        let bwa := bwa .& address_filter data addr in
        write_loop sel wconfig wfifo buffer wcount rptr bwa (bwa .| sel_big sel) (bwa .| sel_little sel) error
  end.

(** One iteration of [while (rcount--)]: the word sent back and [error]. *)
Definition read_word (sel : selection) (rconfig : bool) (ra error : Z) : M X (Z * Z) :=
  let ra := ra .& address_filter data addr in
  let ra_b := ra .| sel_big sel in
  let ra_l := ra .| sel_little sel in
  let* ' (wv, error) :=
    (if rconfig then
       if sel_ok sel then
         let* wv := eb_socket_read_config socketp (sel_width sel) ra_b error in ret (wv, error)
       else ret (0, error)
     else if sel_ok sel then eb_socket_read socketp (sel_width sel) ra_b ra_l error
     else ret (0, shift_error error)) in
  ret (u64 ((wv .& sel_mask sel) .<< (sel_shift sel .<< 3)), error).

(** The read loop answers in place: buffer, [rptr], [wptr] and [error] afterwards. *)
Fixpoint read_loop (sel : selection) (rconfig : bool) (rcount : nat) (buffer : list Z)
    (rptr wptr : nat) (error : Z) : M X (list Z * nat * nat * Z) :=
  match rcount with
  | O => ret (buffer, rptr, wptr, error)
  | S rcount =>
      let* ' (wv, error) := read_word sel rconfig (EB_LOAD buffer rptr alignment) error in
      read_loop sel rconfig rcount (splice buffer wptr (EB_sWRITE wv alignment))
        (rptr + alignment) (wptr + alignment) error
  end.

Definition reply_header (flags cycle_end select rcount : Z) : list Z :=
  [cycle_end .| (if (flags .& EB_RECORD_BCA) =? 0 then 0 else EB_RECORD_WCA)
             .| (if (flags .& EB_RECORD_RFF) =? 0 then 0 else EB_RECORD_WFF);
   select; rcount; 0] ++ replicate (record_alignment - 4) 0.

Definition record_reads (sel : selection) (flags select rcount : Z) (s : session) : M X session :=
  if rcount =? 0 then ret s
  else
    let rconfig := negb ((flags .& EB_RECORD_RCA) =? 0) in
    let buffer := splice (s_buffer s) (s_wptr s) (reply_header flags (s_cycle_end s) select rcount) in
    let wptr := (s_wptr s + record_alignment)%nat in
    let bra := EB_LOAD buffer (s_rptr s) alignment in
    let rptr := (s_rptr s + alignment)%nat in
    let buffer := splice buffer wptr (EB_sWRITE bra alignment) in
    let wptr := (wptr + alignment)%nat in
    let* ' (buffer, rptr, wptr, error) :=
      read_loop sel rconfig (Z.to_nat rcount) buffer rptr wptr (s_error s) in
    ret (mk_session buffer wptr rptr error (s_cycle_end s) (s_cycle_end s =? 0) true).

(** [if (cycle_open && cycle_end)]: close the answer's cycle. *)
Definition terminate_cycle (s : session) : session :=
  if s_cycle_open s && negb (s_cycle_end s =? 0) then
    mk_session (splice (s_buffer s) (s_wptr s) (s_cycle_end s :: replicate (record_alignment - 1) 0))
               (s_wptr s + record_alignment) (s_rptr s) (s_error s) (s_cycle_end s) (s_cycle_open s) (s_reply s)
  else s.

(** The loop [while (total*alignment > eos-rptr)]: fetch the rest of a record from
    a stream, moving it to the front of the buffer. Every round receives at
    least one byte. *)
Fixpoint fetch_record (fuel : nat) (need : nat) (s : session) : M X (option session) :=
  if (length (s_buffer s) - s_rptr s <? need)%nat then
    match fuel with
    | O => fault
    | S fuel =>
      if negb (t_mtu link_type =? 0) then ret None
      else
        let rptr := (s_rptr s - record_alignment)%nat in
        when (s_reply s) (t_send link_type transportp linkp (take (s_wptr s) (s_buffer s))) ;;;
        let kept := drop rptr (s_buffer s) in
        let* ' (len, bytes) := t_recv link_type transportp linkp (buffer_size - length kept) in
        if len <=? 0 then ret None
        else fetch_record fuel need
               (mk_session (kept ++ bytes) 0 record_alignment (s_error s) (s_cycle_end s)
                  (s_cycle_open s) (s_reply s))
    end
  else ret (Some s).

(** The body of the record loop. *)
Definition process_record (s : session) : M X (option session) :=
  let byte i := u8 (nth (s_rptr s + i) (s_buffer s) 0) in
  let flags := byte 0%nat in
  let select := byte 1%nat in
  let wcount := byte 2%nat in
  let rcount := byte 3%nat in
  let sel := decode_select data addr select in
  let cycle_end := flags .& EB_RECORD_CYC in
  let total := wcount + rcount + c_bool (0 <? wcount) + c_bool (0 <? rcount) in
  let s := mk_session (s_buffer s) (s_wptr s) (s_rptr s + record_alignment) (s_error s)
             cycle_end (s_cycle_open s) (s_reply s) in
  let* os := fetch_record buffer_size (Z.to_nat total * alignment) s in
  match os with
  | None => ret None
  | Some s =>
    let* ' (rptr, error) :=
      record_writes sel flags (s_buffer s) (Z.to_nat wcount) (s_rptr s) (s_error s) in
    let* s := record_reads sel flags select rcount
                (mk_session (s_buffer s) (s_wptr s) rptr error (s_cycle_end s) (s_cycle_open s) (s_reply s)) in
    ret (Some (terminate_cycle s))
  end.

(** [while (rptr <= eos - record_alignment)] *)
Fixpoint process_records (fuel : nat) (s : session) : M X (option session) :=
  if (s_rptr s + record_alignment <=? length (s_buffer s))%nat then
    match fuel with
    | O => fault
    | S fuel =>
      let* os := process_record s in
      match os with
      | None => ret None
      | Some s => process_records fuel s
      end
    end
  else ret (Some s).
End records.

(** * The records of a message, answered out of place *)

(** The specification of the record loop: requests are consumed from one list,
    the answer is appended to another. *)
Module Copying.

Record state := mk_state {
  c_in : list Z; c_out : list Z; c_error : Z; c_cycle_end : Z; c_open : bool; c_reply : bool }.

Section copying.
Context {X : Type} `{Env X} `{Bus X}.
Context (socketp widths : Z).

Let alignment := g_alignment widths.
Let record_alignment := g_record_alignment widths.

Definition word (input : list Z) : Z := be_val (take alignment input).

Fixpoint writes (sel : selection) (wconfig wfifo : bool) (n : nat) (input : list Z)
    (bwa bwa_b bwa_l error : Z) : M X (list Z * Z) :=
  match n with
  | O => ret (input, error)
  | S n =>
      let* error := write_word socketp sel wconfig bwa bwa_b bwa_l (word input) error in
      let input := drop alignment input in
      if wfifo then writes sel wconfig wfifo n input bwa bwa_b bwa_l error
      else writes sel wconfig wfifo n input (u64 (bwa + g_data widths)) (u64 (bwa_b + g_data widths))
             (u64 (bwa_l + g_data widths)) error
  end.

Definition write_part (sel : selection) (flags : Z) (n : nat) (input : list Z) (error : Z)
    : M X (list Z * Z) :=
  match n with
  | O => ret (input, error)
  | _ =>
      let wfifo := negb ((flags .& EB_RECORD_WFF) =? 0) in
      let wconfig := negb ((flags .& EB_RECORD_WCA) =? 0) in
      let bwa := word input in
      let input := drop alignment input in
      if wconfig then writes sel wconfig wfifo n input bwa 0 0 error
      else
        let bwa := bwa .& address_filter (g_data widths) (g_addr widths) in
        writes sel wconfig wfifo n input bwa (bwa .| sel_big sel) (bwa .| sel_little sel) error
  end.

Fixpoint reads (sel : selection) (rconfig : bool) (n : nat) (input output : list Z) (error : Z)
    : M X (list Z * list Z * Z) :=
  match n with
  | O => ret (input, output, error)
  | S n =>
      let* ' (wv, error) := read_word socketp widths sel rconfig (word input) error in
      reads sel rconfig n (drop alignment input) (output ++ EB_sWRITE wv alignment) error
  end.

Definition read_part (sel : selection) (flags select rcount : Z) (s : state) : M X state :=
  if rcount =? 0 then ret s
  else
    let rconfig := negb ((flags .& EB_RECORD_RCA) =? 0) in
    let output := c_out s ++ reply_header widths flags (c_cycle_end s) select rcount
                  ++ EB_sWRITE (word (c_in s)) alignment in
    let* ' (input, output, error) :=
      reads sel rconfig (Z.to_nat rcount) (drop alignment (c_in s)) output (c_error s) in
    ret (mk_state input output error (c_cycle_end s) (c_cycle_end s =? 0) true).

Definition terminate (s : state) : state :=
  if c_open s && negb (c_cycle_end s =? 0) then
    mk_state (c_in s) (c_out s ++ c_cycle_end s :: replicate (record_alignment - 1) 0)
      (c_error s) (c_cycle_end s) (c_open s) (c_reply s)
  else s.

(** [None] is a truncated record. *)
Definition record (s : state) : M X (option state) :=
  let byte i := u8 (nth i (c_in s) 0) in
  let flags := byte 0%nat in
  let select := byte 1%nat in
  let wcount := byte 2%nat in
  let rcount := byte 3%nat in
  let sel := decode_select (g_data widths) (g_addr widths) select in
  let cycle_end := flags .& EB_RECORD_CYC in
  let total := wcount + rcount + c_bool (0 <? wcount) + c_bool (0 <? rcount) in
  let input := drop record_alignment (c_in s) in
  if (length input <? Z.to_nat total * alignment)%nat then ret None
  else
    let* ' (input, error) := write_part sel flags (Z.to_nat wcount) input (c_error s) in
    let* s := read_part sel flags select rcount
                (mk_state input (c_out s) error cycle_end (c_open s) (c_reply s)) in
    ret (Some (terminate s)).

Fixpoint records (fuel : nat) (s : state) : M X (option state) :=
  if (record_alignment <=? length (c_in s))%nat then
    match fuel with
    | O => fault
    | S fuel =>
      let* os := record s in
      match os with None => ret None | Some s => records fuel s end
    end
  else ret (Some s).
End copying.
End Copying.

(** * Answering in place is answering out of place *)

Section in_place.
Context {X : Type} `{Env X} `{Bus X}.
Context (socketp link_type transportp linkp widths : Z).
(** Packets: [recv] is not used. *)
Hypothesis Hmtu : t_mtu link_type <> 0.

Let al := g_alignment widths.
Let ral := g_record_alignment widths.

(** The answer written so far lies before the requests not yet read. *)
Record in_place (len : nat) (s : session) (c : Copying.state) : Prop := {
  ip_len : length (s_buffer s) = len;
  ip_order : (s_wptr s <= s_rptr s <= len)%nat;
  ip_in : drop (s_rptr s) (s_buffer s) = Copying.c_in c;
  ip_out : take (s_wptr s) (s_buffer s) = Copying.c_out c;
  ip_error : s_error s = Copying.c_error c;
  ip_end : s_cycle_end s = Copying.c_cycle_end c;
  ip_open : s_cycle_open s = Copying.c_open c;
  ip_reply : s_reply s = Copying.c_reply c }.

Lemma al_cases : al = 2%nat \/ al = 4%nat \/ al = 8%nat.
Proof. apply g_alignment_cases. Qed.

Lemma word_load buffer rptr input :
  drop rptr buffer = input -> EB_LOAD buffer rptr al = Copying.word widths input.
Proof. intros <-. rewrite EB_LOAD_val by apply al_cases. done. Qed.

Lemma write_loop_copying sel wconfig wfifo buffer n : forall rptr input bwa bwa_b bwa_l error,
  drop rptr buffer = input ->
  msim (fun a b => a.1 = (rptr + n * al)%nat /\ drop a.1 buffer = b.1 /\ a.2 = b.2)
    (write_loop socketp widths sel wconfig wfifo buffer n rptr bwa bwa_b bwa_l error)
    (Copying.writes socketp widths sel wconfig wfifo n input bwa bwa_b bwa_l error).
Proof.
  induction n as [|n IH]; intros rptr input bwa bwa_b bwa_l error Hin; cbn [write_loop Copying.writes].
  - apply msim_ret. cbn. split; [lia|done].
  - fold al. rewrite (word_load _ _ _ Hin). apply msim_same. intros error'.
    assert (drop (rptr + al) buffer = drop al input) as Hin' by (by rewrite <- Hin, drop_drop).
    case_if; (eapply msim_weaken; [|apply IH, Hin']); cbn; intros a b (-> & ? & ?); (split; [lia|done]).
Qed.

Lemma record_writes_copying sel flags buffer n rptr input error :
  drop rptr buffer = input ->
  msim (fun a b => a.1 = (rptr + (if (0 <? n)%nat then 1 + n else 0) * al)%nat /\ drop a.1 buffer = b.1 /\ a.2 = b.2)
    (record_writes socketp widths sel flags buffer n rptr error)
    (Copying.write_part socketp widths sel flags n input error).
Proof.
  intros Hin. unfold record_writes, Copying.write_part. destruct n as [|n].
  - apply msim_ret. cbn. split; [lia|done].
  - fold al. rewrite (word_load _ _ _ Hin).
    assert (drop (rptr + al) buffer = drop al input) as Hin' by (by rewrite <- Hin, drop_drop).
    destruct (negb ((flags .& EB_RECORD_WCA) =? 0));
      (eapply msim_weaken; [|apply write_loop_copying, Hin']); cbn [Nat.ltb Nat.leb];
      intros a b (-> & ? & ?); (split; [lia|done]).
Qed.

(** Writing one word of the answer, after the word it answers has been read. *)
Lemma splice_answer buffer rptr wptr v (input output : list Z) n :
  drop rptr buffer = input -> take wptr buffer = output -> (wptr <= rptr <= length buffer)%nat ->
  length v = n -> (wptr + n <= rptr)%nat ->
  drop rptr (splice buffer wptr v) = input /\ take (wptr + n) (splice buffer wptr v) = output ++ v /\
  length (splice buffer wptr v) = length buffer.
Proof.
  intros <- <- Hle <- Hn. split_and!.
  - apply drop_splice_ge; lia.
  - apply take_splice_end. lia.
  - apply length_splice. lia.
Qed.

(** The read loop: the word answered at [wptr] was read at [rptr >= wptr]. *)
Lemma read_loop_copying sel rconfig n : forall buffer rptr wptr input output error,
  drop rptr buffer = input -> take wptr buffer = output ->
  (wptr <= rptr)%nat -> (rptr + n * al <= length buffer)%nat ->
  msim (fun a b => let '(buffer', rptr', wptr', error') := a in let '(input', output', e) := b in
          length buffer' = length buffer /\ (rptr' = rptr + n * al)%nat /\ (wptr' = wptr + n * al)%nat /\
          drop rptr' buffer' = input' /\ take wptr' buffer' = output' /\ error' = e)
    (read_loop socketp widths sel rconfig n buffer rptr wptr error)
    (Copying.reads socketp widths sel rconfig n input output error).
Proof.
  pose proof al_cases as Hal.
  induction n as [|n IH]; intros buffer rptr wptr input output error Hin Hout Hle Hlen;
    cbn [read_loop Copying.reads].
  - apply msim_ret. split_and!; (done || lia).
  - fold al. rewrite (word_load _ _ _ Hin). apply msim_same. intros [wv error'].
    destruct (splice_answer buffer (rptr + al) wptr (EB_sWRITE wv al) (drop al input) output al)
      as (Hin' & Hout' & Hlen'); [by rewrite <- Hin, drop_drop|done|lia| |lia|].
    { rewrite EB_sWRITE_bytes by done. apply length_be_bytes. }
    eapply msim_weaken; [|apply IH; [exact Hin'|exact Hout'|lia|rewrite Hlen'; lia]].
    intros [[[buffer2 rptr2] wptr2] error2] [[input2 output2] e2]. rewrite Hlen'.
    intros (? & ? & ? & ? & ? & ?). split_and!; (done || lia).
Qed.

(** How much of a record the requests of its read part occupy. *)
Definition read_words_of (rcount : Z) : nat := if rcount =? 0 then 0%nat else S (Z.to_nat rcount).

Lemma record_reads_copying len sel flags select rcount s c :
  is_byte rcount -> in_place len s c -> (s_wptr s + ral <= s_rptr s)%nat ->
  (s_rptr s + read_words_of rcount * al <= len)%nat ->
  msim (fun s' c' => in_place len s' c' /\ (s_rptr s' = s_rptr s + read_words_of rcount * al)%nat /\
          (rcount = 0 -> s' = s /\ c' = c) /\
          (rcount <> 0 -> s_cycle_open s' = (s_cycle_end s' =? 0)))
    (record_reads socketp widths sel flags select rcount s)
    (Copying.read_part socketp widths sel flags select rcount c).
Proof.
  intros Hrc [Hl [Ho1 Ho2] Hin Hout He Hce Hop Hre] Hroom Hend.
  unfold record_reads, Copying.read_part, read_words_of in *.
  destruct (Z.eqb_spec rcount 0) as [->|Hne].
  { apply msim_ret. split_and!; (done || (cbn; lia)). }
  fold al ral. rewrite <- Hce.
  assert (length (reply_header widths flags (s_cycle_end s) select rcount) = ral) as Hhl.
  { unfold reply_header. fold ral. rewrite length_app, length_replicate. cbn [length].
    pose proof (g_record_alignment_cases widths) as Hr. fold ral in Hr. lia. }
  destruct (splice_answer (s_buffer s) (s_rptr s) (s_wptr s) (reply_header widths flags (s_cycle_end s) select rcount) _ _ ral Hin Hout) as (Hin1 & Hout1 & Hl1);
    [lia|exact Hhl|lia|].
  set (b1 := splice (s_buffer s) (s_wptr s) _) in *.
  rewrite (word_load _ _ _ Hin1).
  set (bra := EB_sWRITE (Copying.word widths (Copying.c_in c)) al).
  destruct (splice_answer b1 (s_rptr s + al) (s_wptr s + ral) bra (drop al (Copying.c_in c)) (Copying.c_out c ++ reply_header widths flags (s_cycle_end s) select rcount) al)
    as (Hin2 & Hout2 & Hl2); [by rewrite <- Hin1, drop_drop|exact Hout1|lia| |lia|].
  { unfold bra. rewrite EB_sWRITE_bytes by apply al_cases. apply length_be_bytes. }
  set (b2 := splice b1 (s_wptr s + ral) bra) in *.
  rewrite He, <- app_assoc in *.
  eapply msim_bind; [apply (read_loop_copying sel _ (Z.to_nat rcount) b2 _ _ _ _ _ Hin2 Hout2); lia|].
  intros [[[b3 r3] w3] e3] [[i3 o3] e3'] (H1 & H2 & H3 & H4 & H5 & H6).
  apply msim_ret. split; [|split; [cbn [s_rptr]; lia|split; done]].
  split; cbn [s_buffer s_wptr s_rptr s_error s_cycle_end s_cycle_open s_reply
    Copying.c_in Copying.c_out Copying.c_error Copying.c_cycle_end Copying.c_open Copying.c_reply]; try done; lia.
Qed.

Lemma terminate_copying len s c :
  in_place len s c ->
  (s_cycle_open s = true -> s_cycle_end s <> 0 -> (s_wptr s + ral <= s_rptr s)%nat) ->
  in_place len (terminate_cycle widths s) (Copying.terminate widths c) /\
  s_rptr (terminate_cycle widths s) = s_rptr s.
Proof.
  intros Hip Hroom. pose proof Hip as [Hl [Ho1 Ho2] Hin Hout He Hce Hop Hre].
  unfold terminate_cycle, Copying.terminate. rewrite <- Hop, <- Hce.
  destruct (s_cycle_open s) eqn:Eo, (Z.eqb_spec (s_cycle_end s) 0) as [Ez|Ez]; cbn [andb negb]; try done.
  specialize (Hroom eq_refl Ez). fold ral.
  destruct (splice_answer (s_buffer s) (s_rptr s) (s_wptr s) (s_cycle_end s :: replicate (ral - 1) 0) _ _ ral Hin Hout)
    as (Hin1 & Hout1 & Hl1); [lia| |lia|].
  { cbn [length]. rewrite length_replicate. pose proof (g_record_alignment_cases widths) as Hr. fold ral in Hr. lia. }
  split; [|done]. split; cbn [s_buffer s_wptr s_rptr s_error s_cycle_end s_cycle_open s_reply
    Copying.c_in Copying.c_out Copying.c_error Copying.c_cycle_end Copying.c_open Copying.c_reply]; try done; lia.
Qed.

Lemma fetch_packet n need s :
  fetch_record link_type transportp linkp widths (S n) need s =
  if (length (s_buffer s) - s_rptr s <? need)%nat then ret None else ret (Some s).
Proof. cbn [fetch_record]. by rewrite (proj2 (Z.eqb_neq _ 0) Hmtu). Qed.

Lemma buffer_size_pos : exists n, buffer_size = S n.
Proof. by exists (pred buffer_size). Qed.

Definition opt_rel {A B} (R : A -> B -> Prop) (a : option A) (b : option B) : Prop :=
  match a, b with Some a, Some b => R a b | None, None => True | _, _ => False end.

Lemma process_record_copying len s c :
  in_place len s c -> (s_rptr s + ral <= len)%nat ->
  msim (opt_rel (fun s' c' => in_place len s' c' /\ (s_rptr s + ral <= s_rptr s')%nat))
    (process_record socketp link_type transportp linkp widths s)
    (Copying.record socketp widths c).
Proof.
  intros Hip Hral. pose proof Hip as [Hl [Ho1 Ho2] Hin Hout He Hce Hop Hre].
  unfold process_record, Copying.record. fold al ral.
  assert (forall i, u8 (nth (s_rptr s + i) (s_buffer s) 0) = u8 (nth i (Copying.c_in c) 0)) as Hbyte
    by (intros i; by rewrite <- Hin, nth_skipn).
  rewrite !Hbyte. pose proof (fun i => wrap_range 8 (nth i (Copying.c_in c) 0) ltac:(lia)) as Hb.
  set (byte := fun i => u8 (nth i (Copying.c_in c) 0)) in *.
  change (forall i, is_byte (byte i)) in Hb.
  change (u8 (nth 0 (Copying.c_in c) 0)) with (byte 0%nat). change (u8 (nth 1 (Copying.c_in c) 0)) with (byte 1%nat).
  change (u8 (nth 2 (Copying.c_in c) 0)) with (byte 2%nat). change (u8 (nth 3 (Copying.c_in c) 0)) with (byte 3%nat).
  set (sel := decode_select _ _ _). set (flags := byte 0%nat) in *.
  pose proof (Hb 2%nat) as Hw. pose proof (Hb 3%nat) as Hr.
  set (wcount := byte 2%nat) in *. set (rcount := byte 3%nat) in *.
  set (total := wcount + rcount + _ + _).
  assert (Z.to_nat total = (if (0 <? Z.to_nat wcount)%nat then 1 + Z.to_nat wcount else 0) + read_words_of rcount)%nat as Htot.
  { unfold total, read_words_of, c_bool. destruct (Nat.ltb_spec 0 (Z.to_nat wcount)); zcases. }
  destruct buffer_size_pos as [n ->]. rewrite fetch_packet. cbn [s_buffer s_rptr].
  assert (length (drop ral (Copying.c_in c)) = (len - (s_rptr s + ral))%nat) as ->
    by (rewrite <- Hin, drop_drop, length_drop; lia).
  rewrite Hl. destruct (Nat.ltb_spec (len - (s_rptr s + ral)) (Z.to_nat total * al)) as [Hlt|Hge].
  { by apply msim_ret. }
  rewrite Htot, Nat.mul_add_distr_r in Hge. rewrite bind_ret_eq. cbn [s_buffer s_rptr s_error s_wptr s_cycle_end s_cycle_open s_reply]. rewrite He.
  assert (drop (s_rptr s + ral) (s_buffer s) = drop ral (Copying.c_in c)) as Hin1 by (by rewrite <- Hin, drop_drop).
  eapply msim_bind; [apply record_writes_copying, Hin1|].
  intros [rptr error] [input error'] Hwr. cbn [fst snd] in Hwr. destruct Hwr as (Hrp & Hin2 & <-).
  set (s1 := mk_session _ _ rptr _ _ _ _). set (c1 := Copying.mk_state input _ _ _ _ _).
  assert (in_place len s1 c1) as Hip1.
  { split; cbn; try done. rewrite Hrp. lia. }
  eapply msim_bind; [apply (record_reads_copying len sel flags _ rcount s1 c1 Hr Hip1); unfold s1; cbn [s_wptr s_rptr]; lia|].
  intros s2 c2 (Hip2 & Hr2 & Hzero & Hopen).
  apply msim_ret. cbn [opt_rel].
  destruct (terminate_copying len s2 c2 Hip2) as [Hip3 Hr3].
  { intros Hop2 Hend2. destruct (Z.eq_dec rcount 0) as [Hz|Hz].
    - destruct (Hzero Hz) as [-> _]. unfold s1. cbn [s_wptr s_rptr]. lia.
    - rewrite (Hopen Hz) in Hop2. by apply Z.eqb_eq in Hop2. }
  split; [done|]. rewrite Hr3, Hr2. unfold s1. cbn [s_rptr]. lia.
Qed.

Lemma process_records_copying len fuel : forall s c,
  in_place len s c ->
  msim (opt_rel (in_place len))
    (process_records socketp link_type transportp linkp widths fuel s)
    (Copying.records socketp widths fuel c).
Proof.
  induction fuel as [|fuel IH]; intros s c Hip; pose proof Hip as [Hl [Ho1 Ho2] Hin _ _ _ _ _];
    cbn [process_records Copying.records]; fold ral;
    assert (length (Copying.c_in c) = (len - s_rptr s)%nat) as -> by (rewrite <- Hin, length_drop, Hl; done);
    rewrite Hl; destruct (Nat.leb_spec (s_rptr s + ral) len) as [Hle|Hgt].
  - rewrite (proj2 (Nat.leb_le _ _)) by lia. intros w. done.
  - rewrite (proj2 (Nat.leb_gt _ _)) by lia. by apply msim_ret.
  - rewrite (proj2 (Nat.leb_le _ _)) by lia.
    eapply msim_bind; [by apply process_record_copying|].
    intros [s'|] [c'|]; try done.
    intros [Hip' _]. by apply IH.
  - rewrite (proj2 (Nat.leb_gt _ _)) by lia. by apply msim_ret.
Qed.

(** The state of the specification that a session stands for. *)
Definition abstract (s : session) : Copying.state :=
  Copying.mk_state (drop (s_rptr s) (s_buffer s)) (take (s_wptr s) (s_buffer s)) (s_error s)
    (s_cycle_end s) (s_cycle_open s) (s_reply s).

Lemma abstract_in_place s : (s_wptr s <= s_rptr s <= length (s_buffer s))%nat ->
  in_place (length (s_buffer s)) s (abstract s).
Proof. by split. Qed.

Lemma process_record_advances s w s' w' :
  (s_wptr s <= s_rptr s)%nat -> (s_rptr s + ral <= length (s_buffer s))%nat ->
  process_record socketp link_type transportp linkp widths s w = Some (Some s', w') ->
  length (s_buffer s') = length (s_buffer s) /\ (s_wptr s' <= s_rptr s' <= length (s_buffer s'))%nat /\
  (s_rptr s + ral <= s_rptr s')%nat.
Proof.
  intros H1 H2 E. pose proof (process_record_copying _ s (abstract s) (abstract_in_place s ltac:(lia)) H2 w) as Hm.
  rewrite E in Hm. destruct (Copying.record _ _ _ w) as [[[c'|] w2]|]; [|by destruct Hm|done].
  destruct Hm as (_ & [Hl Ho _ _ _ _ _ _] & Hr). by rewrite Hl.
Qed.

(** More iterations than there are bytes left change nothing. *)
Lemma process_records_fuel n m : forall s w,
  (s_wptr s <= s_rptr s <= length (s_buffer s))%nat ->
  (length (s_buffer s) - s_rptr s < n)%nat -> (length (s_buffer s) - s_rptr s < m)%nat ->
  process_records socketp link_type transportp linkp widths n s w =
  process_records socketp link_type transportp linkp widths m s w.
Proof.
  revert m. induction n as [|n IH]; intros [|m] s w Hle Hn Hm; try lia.
  cbn [process_records]. fold ral. destruct (Nat.leb_spec (s_rptr s + ral) (length (s_buffer s))); [|done].
  unfold bind. destruct (process_record _ _ _ _ _ s w) as [[[s'|] w']|] eqn:E; [|done|done].
  destruct (process_record_advances s w s' w') as (Hl & Ho & Hr); [lia|done|done|].
  pose proof (g_record_alignment_cases widths) as Hral. fold ral in Hral.
  apply IH; [done|rewrite Hl; lia|rewrite Hl; lia].
Qed.
End in_place.

(** C1: on a packet link, answering a message inside the receive buffer has the
    same effects on the bus and gives the same answer as answering into a
    separate buffer: whatever the message, the answer never overtakes the part
    of the request still to be read nor leaves the buffer. *)
Theorem slave_in_place_refines_copying {X : Type} `{Env X} `{Bus X}
    (socketp link_type transportp linkp widths : Z) (Hmtu : t_mtu link_type <> 0)
    (buffer : list Z) (start fuel : nat) (Hs : (start <= length buffer)%nat) (error : Z) :
  msim (opt_rel (fun s c =>
      take (s_wptr s) (s_buffer s) = Copying.c_out c /\ drop (s_rptr s) (s_buffer s) = Copying.c_in c /\
      s_error s = Copying.c_error c /\ s_cycle_end s = Copying.c_cycle_end c /\
      s_reply s = Copying.c_reply c /\
      (s_wptr s <= s_rptr s <= length buffer)%nat /\ length (s_buffer s) = length buffer))
    (process_records socketp link_type transportp linkp widths fuel
       (mk_session buffer start start error 1 false false))
    (Copying.records socketp widths fuel
       (Copying.mk_state (drop start buffer) (take start buffer) error 1 false false)).
Proof.
  eapply msim_weaken; [|apply process_records_copying; [exact Hmtu|apply abstract_in_place; cbn; lia]].
  intros [s|] [c|]; try done. cbn. by intros [? ? ? ? ? ? ? ?].
Qed.


(** ** Instances *)

Import Sample.

#[local] Instance sample_bus : Bus ext := {|
  eb_socket_write_config _ widths addr v := emit (Dev_write 0 addr widths v);
  eb_socket_write _ widths addr_b addr_l v error := emit (Dev_write 1 addr_b widths v) ;;; ret (u64 (error .<< 1));
  eb_socket_read_config _ widths addr error := ret error;
  eb_socket_read _ widths addr_b addr_l error := emit (Dev_read 1 addr_b widths) ;;; ret (addr_b, u64 (error .<< 1)) |}.

(** A packet with one record: write 17 to 0x100, read 0x200. *)
Definition sample_packet : list Z :=
  [0x4E; 0x6F; 0x10; 0x44; 0xA8; 0x0F; 1; 1; 0; 0; 1; 0; 0; 0; 0; 17; 0; 0; 0x80; 0; 0; 0; 2; 0].

Lemma slave_in_place_refines_copying_witness :
  length sample_packet = 24%nat /\
  msim (opt_rel (fun s c => take (s_wptr s) (s_buffer s) = Copying.c_out c))
    (process_records 0 1 0 0 0x44 25 (mk_session sample_packet 4 4 0 1 false false))
    (Copying.records 0 0x44 25 (Copying.mk_state (drop 4 sample_packet) (take 4 sample_packet) 0 1 false false)).
Proof.
  split; [reflexivity|].
  eapply msim_weaken; [|apply (slave_in_place_refines_copying 0 1 0 0 0x44); [discriminate|apply Nat.leb_le; reflexivity]].
  intros [s|] [c|] Hr; cbn in Hr |- *; [apply Hr|exact Hr|exact Hr|exact Hr].
Defined.

