(* ===== verification/Wire.v ===== *)
(** Both ends of the wire: what the slave side of one library does with the
    records the master side of another has formed, and what becomes of the answer.
    The requests of a cycle are executed on the remote bus one by one, in order,
    with the address, width and value the application gave; every value read comes
    back as one write to the requester's response address. *)
From stdpp Require Import base list gmap.
From Stdlib Require Import ZArith Lia.
From S2P Require Import Prelude Widths Store World Linked Cycle Format Master Valid Records Encode Slave.

(** * Byte lanes *)

(** How far a value is shifted inside the data word of the port. *)
Definition lane (data : Z) (o : eb_operation) : Z :=
  let low := op_address o mod data in
  if en o =? EB_BIG_ENDIAN then data - (low + sz o) else low.

(** The address of an operation for a big and for a little endian device. *)
Definition addr_b (data : Z) (o : eb_operation) : Z :=
  op_address o - op_address o mod data + (data - (lane data o + sz o)).
Definition addr_l (data : Z) (o : eb_operation) : Z :=
  op_address o - op_address o mod data + lane data o.

(** The width argument of a bus access: data and address width. *)
Definition access_width (width size : Z) : Z := size .| (g_addr width .<< 4).

Lemma aligned_low data s a : data_ok data -> In s [1; 2; 4; 8] -> s <= data -> a mod s = 0 ->
  0 <= a mod data /\ a mod data + s <= data /\ (a mod data) mod s = 0.
Proof.
  intros Hd Hs Hle Ha. assert (0 < s) by (cbn in Hs; lia).
  assert (exists k, 0 < k /\ data = k * s) as (k & Hk & ->).
  { cbn in Hs. destruct Hd as [->|[->|[->| ->]]];
      destruct Hs as [<-|[<-|[<-|[<-|[]]]]]; try lia;
      [exists 1|exists 2|exists 1|exists 4|exists 2|exists 1|exists 8|exists 4|exists 2|exists 1]; lia. }
  pose proof (Z.mod_pos_bound a (k * s) ltac:(lia)).
  assert ((a mod (k * s)) mod s = 0) as Hm by (rewrite Z.mod_mod_divide; [done|by exists k]).
  split; [lia|]. split; [|done].
  apply Z.mod_divide in Hm as [q Hq]; [|lia]. set (m := a mod (k * s)) in *.
  assert (q < k) by nia. nia.
Qed.

Lemma lane_range width o : link_width width -> op_ok width o ->
  0 <= lane (g_data width) o /\ lane (g_data width) o + sz o <= g_data width /\
  lane (g_data width) o mod sz o = 0.
Proof.
  intros Hw [Hs Hf He Ha Hr Hal Hv]. pose proof (proj1 (link_width_cases width Hw)) as Hd.
  destruct (aligned_low (g_data width) (sz o) (op_address o) Hd Hs Hf Hal) as (H1 & H2 & H3).
  unfold lane. case_if; [|done]. split; [lia|]. split; [lia|].
  assert (0 < sz o) by (cbn in Hs; lia).
  assert (g_data width mod sz o = 0) as Hdm.
  { cbn in Hs. destruct Hd as [E1|[E1|[E1|E1]]]; rewrite E1 in *;
      destruct Hs as [E2|[E2|[E2|[E2|[]]]]]; rewrite <- E2 in *; try lia; reflexivity. }
  apply Z.mod_divide in Hdm as [q Hq]; [|lia]. apply Z.mod_divide in H3 as [r Hr3]; [|lia].
  apply Z.mod_divide; [lia|]. exists (q - r - 1). rewrite Hq, Hr3 in *. lia.
Qed.

(** An operation sees its own address in its own endian. *)
Lemma own_address width o : link_width width -> op_ok width o ->
  (en o = EB_BIG_ENDIAN -> addr_b (g_data width) o = op_address o) /\
  (en o = EB_LITTLE_ENDIAN -> addr_l (g_data width) o = op_address o) /\
  (en o = 0 -> addr_b (g_data width) o = op_address o /\ addr_l (g_data width) o = op_address o).
Proof.
  intros Hw Ho. destruct (lane_range width o Hw Ho) as (H1 & H2 & _).
  unfold addr_b, addr_l, lane in *. split_and!; intros He; rewrite He in *.
  - change (EB_BIG_ENDIAN =? EB_BIG_ENDIAN) with true in *. cbn in *. lia.
  - change (EB_LITTLE_ENDIAN =? EB_BIG_ENDIAN) with false in *. cbn in *. lia.
  - change (0 =? EB_BIG_ENDIAN) with false in *. cbn in *.
    destruct Ho as [_ _ _ Ha _ Hal _]. rewrite (proj1 Ha He) in *. rewrite Hal in *. lia.
Qed.

(** * Executing operations one by one *)

Section perform.
Context {X : Type} `{Bus X}.
Context (socketp width : Z).

Definition perform_write (o : eb_operation) (error : Z) : M X Z :=
  if is_config o then
    eb_socket_write_config socketp (access_width width (sz o)) (op_address o) (op_value o) ;;; ret error
  else
    eb_socket_write socketp (access_width width (sz o)) (addr_b (g_data width) o) (addr_l (g_data width) o)
      (op_value o) error.

(** The value read, cut to the access size. *)
Definition perform_read (o : eb_operation) (error : Z) : M X (Z * Z) :=
  let* ' (v, error) :=
    (if is_config o then
       let* v := eb_socket_read_config socketp (access_width width (sz o)) (addr_b (g_data width) o) error in
       ret (v, error)
     else
       eb_socket_read socketp (access_width width (sz o)) (addr_b (g_data width) o) (addr_l (g_data width) o) error) in
  ret (v .& byte_mask (sz o), error).

(** Read the latest error flags. *)
Definition perform_status (error : Z) : M X Z :=
  let* v := eb_socket_read_config socketp (access_width width (g_data width)) (8 - g_data width) error in
  ret (v .& byte_mask (g_data width)).

(** The operations in order: the values read and the error register. *)
Fixpoint perform (l : list node) (error : Z) : M X (list Z * Z) :=
  match l with
  | [] => ret ([], error)
  | (_, o) :: l =>
      if is_write o then let* error := perform_write o error in perform l error
      else
        let* ' (v, error) := perform_read o error in
        let* ' (vs, error) := perform l error in
        ret (v :: vs, error)
  end.

(** A record: its operations, then the status if it asks for it. *)
Definition perform_record (r : rec) (error : Z) : M X (list Z * Z) :=
  let* ' (vs, error) := perform (r_writes r ++ r_reads r) error in
  if reads_errors (r_plan r) then let* v := perform_status error in ret (vs ++ [v], error)
  else ret (vs, error).
End perform.

(** * The select byte *)

Lemma decode_select_record data size addr shift :
  data_ok data -> In size [1; 2; 4; 8] -> In addr [1; 2; 4; 8] ->
  0 <= shift -> shift + size <= data -> shift mod size = 0 ->
  decode_select data addr (u8 ((0xFF .>> (8 - size)) .<< shift)) =
  mk_selection true shift (size .| (addr .<< 4)) (data - (shift + size)) shift (byte_mask size).
Proof.
  intros Hd Hs Ha H0 Hle Hm.
  assert (shift = 0 \/ shift = 1 \/ shift = 2 \/ shift = 3 \/ shift = 4 \/ shift = 5 \/ shift = 6 \/ shift = 7) as Hsh
    by (cbn in Hs; destruct Hd as [->|[->|[->| ->]]]; lia).
  cbn [In] in Hs, Ha.
  destruct Hs as [<-|[<-|[<-|[<-|[]]]]];
    destruct Hsh as [->|[->|[->|[->|[->|[->|[->| ->]]]]]]]; try discriminate Hm; clear Hm;
    (destruct Hd as [->|[->|[->| ->]]]; try (exfalso; lia)); clear -Ha;
    (destruct Ha as [<-|[<-|[<-|[<-|[]]]]]; reflexivity).
Qed.

Definition p_size (p : plan) : Z := p_format p .& EB_DATAX.

(** The lane of a record is that of each of its operations. *)
Record rec_geometry (width : Z) (r : rec) : Prop := {
  rg_size : In (p_size (r_plan r)) [1; 2; 4; 8];
  rg_lane : 0 <= op_shift (g_data width) (r_plan r) /\
            op_shift (g_data width) (r_plan r) + p_size (r_plan r) <= g_data width /\
            op_shift (g_data width) (r_plan r) mod p_size (r_plan r) = 0;
  rg_ops : Forall (fun xo => lane (g_data width) xo.2 = op_shift (g_data width) (r_plan r) /\
                             sz xo.2 = p_size (r_plan r)) (r_writes r ++ r_reads r);
  rg_status : reads_errors (r_plan r) = true ->
    p_size (r_plan r) = g_data width /\ op_shift (g_data width) (r_plan r) = 0 }.

Definition ops_ok (width : Z) (l : list node) : Prop := Forall (fun xo => op_ok width xo.2) l.

(** The part of the format and the low bits that all operations of a record share. *)
Lemma rec_shares width maxops nc r : link_width width ->
  rec_ok (g_data width) maxops nc r ->
  Forall (fun xo => op_format xo.2 = p_format (r_plan r) /\
                    op_address xo.2 mod g_data width = p_low (r_plan r)) (r_writes r ++ r_reads r).
Proof.
  intros Hw (ops & _ & Hp). pose proof (proj1 (link_width_cases width Hw)) as Hd.
  apply Forall_app. split; apply Forall_forall; intros xo Hin.
  - pose proof (proj1 (Forall_forall _ _) (ps_writes _ _ _ _ _ _ _ _ Hp) xo Hin) as (_ & _ & ->).
    pose proof (proj1 (Forall_forall _ _) (ps_wlow _ _ _ _ _ _ _ _ Hp) xo Hin) as Hl. cbv beta in Hl.
    split; [done|]. by rewrite <- Hl, low_mod.
  - pose proof (proj1 (Forall_forall _ _) (ps_reads _ _ _ _ _ _ _ _ Hp) xo Hin) as (_ & _ & ->).
    pose proof (proj1 (Forall_forall _ _) (ps_rlow _ _ _ _ _ _ _ _ Hp) xo Hin) as Hl. cbv beta in Hl.
    split; [done|]. by rewrite <- Hl, low_mod.
Qed.

Lemma shared_lane width p o : link_width width -> op_ok width o ->
  op_format o = p_format p -> op_address o mod g_data width = p_low p ->
  lane (g_data width) o = op_shift (g_data width) p /\ sz o = p_size p.
Proof.
  intros Hw Ho Hf Hl. destruct (lane_range width o Hw Ho) as (H1 & H2 & _).
  assert (sz o = p_size p) as Hsz by (unfold sz, p_size; by rewrite Hf).
  split; [|done]. assert (1 <= sz o) as H3 by (destruct Ho as [Hs _ _ _ _ _ _]; cbn in Hs; lia).
  pose proof (proj1 (link_width_cases width Hw)).
  unfold lane, op_shift in *. fold (p_size p). rewrite Hl, Hsz in *.
  replace (p_format p .& EB_ENDIAN_MASK) with (en o) by (unfold en; by rewrite Hf).
  case_if; [|done]. rewrite wrap_small; [done|lia].
Qed.

Lemma data_format_facts data : data_ok data -> data .& EB_DATAX = data /\ data .& EB_ENDIAN_MASK = 0.
Proof. by intros [->|[->|[->| ->]]]. Qed.

Lemma rec_geometry_ok width maxops nc r : link_width width ->
  rec_ok (g_data width) maxops nc r -> ops_ok width (r_writes r ++ r_reads r) ->
  rec_geometry width r.
Proof.
  intros Hw Hr Hok. pose proof Hr as (_ & Hne & _). pose proof (rec_shares width maxops nc r Hw Hr) as Hsh.
  pose proof (proj1 (link_width_cases width Hw)) as Hd.
  assert (Forall (fun xo : node => lane (g_data width) xo.2 = op_shift (g_data width) (r_plan r) /\
                             sz xo.2 = p_size (r_plan r)) (r_writes r ++ r_reads r)) as Hops.
  { apply Forall_forall. intros xo Hin.
    destruct (proj1 (Forall_forall _ _) Hsh xo Hin). apply shared_lane; try done.
    exact (proj1 (Forall_forall _ _) Hok xo Hin). }
  assert (reads_errors (r_plan r) = true ->
    p_size (r_plan r) = g_data width /\ op_shift (g_data width) (r_plan r) = 0) as Hst.
  { intros He. destruct Hr as (ops & _ & Hp).
    destruct (ps_errors _ _ _ _ _ _ _ _ Hp He) as (Hrs & _ & _ & Hf & Hlow).
    destruct (data_format_facts _ Hd) as [Hx He0].
    unfold p_size, op_shift. rewrite Hf, Hx, He0. split; [done|].
    change (0 =? EB_BIG_ENDIAN) with false. cbv iota.
    destruct (r_writes r) as [|xo ws]; [by apply Hlow|].
    apply Forall_cons in Hsh as [[Hf1 <-] _]. apply Forall_cons in Hok as [[_ _ _ _ _ Hal _] _].
    unfold sz in Hal. by rewrite Hf1, Hf, Hx in Hal. }
  destruct (r_writes r ++ r_reads r) as [|xo l] eqn:El.
  - destruct Hne as [|He]; [done|]. destruct (Hst He) as [Hs Hz]. split; rewrite ?El; try done.
    + rewrite Hs. cbn. destruct Hd as [-> |[-> |[-> | ->]]]; tauto.
    + rewrite Hs, Hz. split_and!; [lia|lia|]. apply Z.mod_0_l. destruct Hd as [-> |[-> |[-> | ->]]]; lia.
  - pose proof Hops as [[Hla Hsz] _]%Forall_cons. pose proof Hok as [Hox _]%Forall_cons.
    split; rewrite ?El; try done; rewrite <- ?Hla, <- ?Hsz.
    + apply Hox.
    + by apply lane_range.
Qed.

(** * Words and addresses *)

Section words.
Context (width : Z).
Hypothesis Hw : link_width width.
Let al := g_alignment width.
Let data := g_data width.

Lemma data_cases : data_ok data.
Proof. exact (proj1 (link_width_cases width Hw)). Qed.

Lemma word_mWRITE v rest :
  Copying.word width (EB_mWRITE v al ++ rest) = wrap (8 * Z.of_nat al) v /\
  drop al (EB_mWRITE v al ++ rest) = rest.
Proof.
  pose proof (g_alignment_cases width) as Ha. fold al in Ha.
  pose proof (length_EB_mWRITE v al Ha) as Hl. split.
  - unfold Copying.word. fold al. rewrite take_app_length' by done.
    rewrite EB_mWRITE_bytes by done. apply be_val_bytes.
  - by apply drop_app_length'.
Qed.

Lemma al_bounds : 2 <= Z.of_nat al <= 8 /\ data <= Z.of_nat al /\ g_addr width <= Z.of_nat al.
Proof.
  unfold al, data. destruct (g_alignment_fits width Hw). pose proof (g_alignment_cases width). lia.
Qed.

(** The address of an operation survives the wire. *)
Lemma address_word o : op_ok width o -> wrap (8 * Z.of_nat al) (op_address o) = op_address o.
Proof.
  intros [_ _ _ _ Hr _ _]. pose proof al_bounds. apply wrap_small. split; [lia|].
  eapply Z.lt_le_trans; [apply Hr|]. apply Z.pow_le_mono_r; [lia|].
  unfold addr_bytes. case_if; lia.
Qed.

(** A value shifted to its lane, sent, shifted back and masked is the value. *)
Lemma value_word v shift size :
  0 <= v < 2 ^ (8 * size) -> 0 <= shift -> In size [1; 2; 4; 8] -> shift + size <= data ->
  (wrap (8 * Z.of_nat al) (u64 (v .<< (shift .<< 3))) .>> (shift .<< 3)) .& byte_mask size = v.
Proof.
  intros Hv Hs Hsz Hle. pose proof al_bounds. assert (1 <= size <= 8) by (cbn in Hsz; lia).
  rewrite (Z.shiftl_mul_pow2 shift 3) by lia. change (2 ^ 3) with 8.
  rewrite Z.shiftl_mul_pow2 by lia.
  assert (0 < 2 ^ (shift * 8)) by (apply Z.pow_pos_nonneg; lia).
  assert (0 <= v * 2 ^ (shift * 8) < 2 ^ (8 * (shift + size))) as Hr.
  { replace (8 * (shift + size)) with (8 * size + shift * 8) by lia. rewrite Z.pow_add_r by lia. nia. }
  assert (2 ^ (8 * (shift + size)) <= 2 ^ (8 * Z.of_nat al) <= 2 ^ 64) as [Hp1 Hp2]
    by (split; apply Z.pow_le_mono_r; lia).
  rewrite (wrap_small 64), (wrap_small (8 * Z.of_nat al)) by lia.
  rewrite Z.shiftr_div_pow2, Z.div_mul by lia. rewrite value_test by (done || lia). lia.
Qed.

Lemma pow2_data : exists k, 0 <= k <= 3 /\ data = 2 ^ k.
Proof. destruct data_cases as [->|[->|[->| ->]]]; [exists 0|exists 1|exists 2|exists 3]; done. Qed.

Lemma lor_low q v : 0 <= v < data -> q * data .| v = q * data + v.
Proof.
  destruct pow2_data as (k & Hk & ->). intros Hv.
  rewrite Z.add_nocarry_lxor, Z.lxor_lor; [done| |].
  all: rewrite <- (Z.mod_small v (2 ^ k)) by lia; rewrite <- Z.land_ones by lia;
    rewrite (Z.land_comm v), Z.land_assoc, Z.land_ones, Z.mod_mul by lia; apply Z.land_0_l.
Qed.

Lemma data_in : In data [1; 2; 4; 8].
Proof. cbn. destruct data_cases as [-> |[-> |[-> | ->]]]; tauto. Qed.

Lemma addr_in : In (g_addr width) [1; 2; 4; 8].
Proof. cbn. destruct (proj2 (link_width_cases width Hw)) as [-> |[-> |[-> | ->]]]; tauto. Qed.

(** The slave keeps the part of the address above the lanes. *)
Lemma filter_address a : 0 <= a < 2 ^ (8 * g_addr width) ->
  a .& address_filter data (g_addr width) = a - a mod data.
Proof.
  intros Ha. assert (1 <= g_addr width <= 8) by (pose proof (proj2 (link_width_cases width Hw)); lia).
  unfold address_filter. rewrite byte_mask_ones, mask_floor by (lia || apply data_in).
  rewrite (Z.mod_small a) by lia. pose proof data_cases as Hd. unfold data_ok in Hd.
  pose proof (Z.div_mod a data ltac:(lia)). lia.
Qed.

Lemma filtered_or a v : 0 <= a < 2 ^ (8 * g_addr width) -> 0 <= v < data ->
  (a .& address_filter data (g_addr width)) .| v = a - a mod data + v.
Proof.
  intros Ha Hv. rewrite filter_address by done. pose proof data_cases as Hd. unfold data_ok in Hd.
  replace (a - a mod data) with (a / data * data) by (pose proof (Z.div_mod a data ltac:(lia)); lia).
  by apply lor_low.
Qed.

(** A sequential address increment acts on the lane addresses the same way. *)
Lemma step_address a a' v : 0 <= a < 2 ^ 64 -> 0 <= a' < 2 ^ 64 -> a' = u64 (a + data) -> 0 <= v < data ->
  a' - a' mod data + v = u64 (a - a mod data + v + data).
Proof.
  intros Ha Ha' -> Hv. pose proof data_cases as Hd.
  pose proof (low_step data Hd a) as Hl. rewrite !low_mod in Hl by done. rewrite Hl.
  set (a' := u64 (a + data)) in *. unfold data_ok in Hd.
  transitivity (u64 (a' - a mod data + v)).
  - symmetry. apply wrap_small. rewrite <- Hl.
    pose proof (Z.div_mod a' data ltac:(lia)). pose proof (Z.mod_pos_bound a' data ltac:(lia)).
    destruct pow2_data as (k & Hk & Ek).
    assert (2 ^ 64 = 2 ^ (64 - k) * data) as E64 by (rewrite Ek, <- Z.pow_add_r by lia; f_equal; lia).
    assert (a' / data < 2 ^ (64 - k)) by (apply Z.div_lt_upper_bound; lia). nia.
  - unfold a', wrap. rewrite <- (Zplus_mod_idemp_l (_ - _)), Zminus_mod_idemp_l, Zplus_mod_idemp_l. f_equal. lia.
Qed.
End words.

(** * The requests, executed *)

Section requests.
Context {X : Type} `{Env X} `{Bus X}.
Context (socketp width : Z).
Hypothesis Hw : link_width width.
Let al := g_alignment width.
Let data := g_data width.

(** The decoded select byte of a record with lane [shift] and access size [size]. *)
Context (shift size : Z).
Hypothesis Hsize : In size [1; 2; 4; 8].
Hypothesis Hshift : 0 <= shift.
Hypothesis Hfit : shift + size <= data.
Let sel := mk_selection true shift (access_width width size) (data - (shift + size)) shift (byte_mask size).

Definition in_lane (xo : node) : Prop := op_ok width xo.2 /\ lane data xo.2 = shift /\ sz xo.2 = size.

Lemma lane_bounds : 0 <= shift < data /\ 0 <= data - (shift + size) < data.
Proof. assert (1 <= size) by (cbn in Hsize; lia). lia. Qed.

Lemma lane_addr_b xo : in_lane xo ->
  addr_b data xo.2 = op_address xo.2 - op_address xo.2 mod data + (data - (shift + size)).
Proof. intros (_ & Hl & Hs). unfold addr_b. by rewrite Hl, Hs. Qed.

Lemma lane_addr_l xo : in_lane xo ->
  addr_l data xo.2 = op_address xo.2 - op_address xo.2 mod data + shift.
Proof. intros (_ & Hl & Hs). unfold addr_l. by rewrite Hl. Qed.

Lemma bus_address xo : in_lane xo -> is_config xo.2 = false ->
  0 <= op_address xo.2 < 2 ^ (8 * g_addr width) /\ 0 <= op_address xo.2 < 2 ^ 64.
Proof.
  intros ([_ _ _ _ Hr _ _] & _) Hc. unfold addr_bytes in Hr. rewrite Hc in Hr. split; [done|].
  split; [lia|]. eapply Z.lt_le_trans; [apply Hr|]. apply Z.pow_le_mono_r; [lia|].
  pose proof (proj2 (link_width_cases width Hw)). lia.
Qed.

(** The addresses the write loop holds before the next word. *)
Definition at_head (wconfig : bool) (bwa bwa_b bwa_l : Z) (ws : list node) : Prop :=
  match ws with
  | [] => True
  | xo :: _ => if wconfig then bwa = op_address xo.2
               else bwa_b = addr_b data xo.2 /\ bwa_l = addr_l data xo.2
  end.

Definition writes_in_lane (wconfig : bool) (ws : list node) : Prop :=
  Forall (fun xo => in_lane xo /\ is_write xo.2 = true /\ is_config xo.2 = wconfig) ws.

Lemma write_word_perform xo wconfig bwa bwa_b bwa_l wv error :
  in_lane xo -> is_write xo.2 = true -> is_config xo.2 = wconfig ->
  at_head wconfig bwa bwa_b bwa_l [xo] -> (wv .>> (shift .<< 3)) .& byte_mask size = op_value xo.2 ->
  write_word socketp sel wconfig bwa bwa_b bwa_l wv error = perform_write socketp width xo.2 error.
Proof.
  intros (Ho & Hl & Hs) Hwr Hc Hat Hv. unfold write_word, perform_write. cbn [sel sel_ok sel_shift sel_mask sel_width].
  rewrite Hv, Hc, Hs. cbn [at_head] in Hat. destruct wconfig; cbn [when].
  - by rewrite Hat.
  - by destruct Hat as [-> ->].
Qed.

Lemma at_head_next wconfig wfifo bwa bwa_b bwa_l xo ws :
  writes_in_lane wconfig (xo :: ws) -> write_addresses data (if wfifo : bool then 1 else 0) (xo :: ws) ->
  at_head wconfig bwa bwa_b bwa_l (xo :: ws) ->
  write_addresses data (if wfifo then 1 else 0) ws /\
  if wfifo then at_head wconfig bwa bwa_b bwa_l ws
  else at_head wconfig (u64 (bwa + data)) (u64 (bwa_b + data)) (u64 (bwa_l + data)) ws.
Proof.
  intros Hin Ha Hat. destruct xo as [x o], ws as [|[y o2] ws]; [by destruct wfifo|].
  pose proof Hin as [(Hx & _ & Hc) [(Hy & _ & Hc2) _]%Forall_cons]%Forall_cons.
  pose proof lane_bounds as [Hb1 Hb2]. cbn [at_head snd] in *.
  destruct wfifo; cbn [write_addresses Z.eqb steps] in *.
  - pose proof Ha as [He Ha']%Forall_cons. cbn [snd] in He. split.
    + eapply Forall_impl; [exact Ha'|]. cbn. intros ? ->. by rewrite He.
    + destruct wconfig; [by rewrite He|]. destruct Hat as [-> ->].
      pose proof (lane_addr_b _ Hx) as E1. pose proof (lane_addr_b _ Hy) as E2.
      pose proof (lane_addr_l _ Hx) as E3. pose proof (lane_addr_l _ Hy) as E4. cbn [snd] in *.
      by rewrite E1, E2, E3, E4, He.
  - destruct Ha as [He Ha']. split; [by rewrite He|].
    destruct wconfig; [by rewrite Hat|]. destruct Hat as [-> ->].
    destruct (bus_address _ Hx Hc) as [_ Hr1]. destruct (bus_address _ Hy Hc2) as [_ Hr2]. cbn [snd] in *.
    pose proof (lane_addr_b _ Hx) as E1. pose proof (lane_addr_b _ Hy) as E2.
    pose proof (lane_addr_l _ Hx) as E3. pose proof (lane_addr_l _ Hy) as E4. cbn [snd] in *.
    rewrite E1, E2, E3, E4. split; symmetry; by apply (step_address width Hw).
Qed.

Lemma writes_perform wconfig wfifo ws : forall rest bwa bwa_b bwa_l error,
  writes_in_lane wconfig ws -> write_addresses data (if wfifo : bool then 1 else 0) ws ->
  at_head wconfig bwa bwa_b bwa_l ws ->
  msim (fun a b => a.1 = rest /\ b = ([], a.2))
    (Copying.writes socketp width sel wconfig wfifo (length ws) (write_words al shift ws ++ rest) bwa bwa_b bwa_l error)
    (perform socketp width ws error).
Proof.
  induction ws as [|xo ws IH]; intros rest bwa bwa_b bwa_l error Hin Ha Hat; [by apply msim_ret|].
  destruct (at_head_next _ _ _ _ _ _ _ Hin Ha Hat) as [Ha' Hat'].
  pose proof Hin as [(Hx & Hwr & Hc) Hin']%Forall_cons.
  cbn [length Copying.writes perform]. destruct xo as [x o]. cbn [snd] in *. rewrite Hwr.
  unfold write_words. cbn [map concat snd]. fold (write_words al shift ws). rewrite <- app_assoc.
  destruct (word_mWRITE width (u64 (op_value o .<< (shift .<< 3))) (write_words al shift ws ++ rest)) as [Hword Hdrop].
  fold al in Hword, Hdrop |- *. rewrite Hword, Hdrop.
  rewrite (write_word_perform (x, o)); [|done|done|done|exact Hat|].
  2: { destruct Hx as ([_ _ _ _ _ _ Hv] & _ & Hs). cbn in Hs, Hv. rewrite Hs in Hv.
       apply (value_word width Hw); try done. by apply Hv. }
  apply msim_same. intros error'. destruct wfifo; by apply IH.
Qed.

(** The words of the answer. *)
Definition answer_words (vs : list Z) : list Z :=
  concat (map (fun v => EB_sWRITE (u64 (v .<< (shift .<< 3))) al) vs).

Definition reads_in_lane (rconfig : bool) (rs : list node) : Prop :=
  Forall (fun xo => in_lane xo /\ is_write xo.2 = false /\ is_config xo.2 = rconfig /\
                    op_address xo.2 < 2 ^ (8 * g_addr width)) rs.

Lemma read_word_perform xo rconfig ra error :
  in_lane xo -> is_config xo.2 = rconfig -> ra = op_address xo.2 -> op_address xo.2 < 2 ^ (8 * g_addr width) ->
  msim (fun a b => a = (u64 (b.1 .<< (shift .<< 3)), b.2) /\ exists u, b.1 = u .& byte_mask size)
    (read_word socketp width sel rconfig ra error) (perform_read socketp width xo.2 error).
Proof.
  intros Hx Hc -> Hr. unfold read_word, perform_read. cbn [sel sel_ok sel_shift sel_mask sel_width sel_big sel_little].
  pose proof lane_bounds as [Hb1 Hb2].
  assert (0 <= op_address xo.2 < 2 ^ (8 * g_addr width)) as Hra.
  { destruct Hx as ([_ _ _ _ Hr' _ _] & _). lia. }
  rewrite !(filtered_or width Hw) by done. fold data.
  rewrite <- (lane_addr_b xo Hx), <- (lane_addr_l xo Hx), Hc. destruct Hx as (Ho & Hl & Hs). rewrite Hs.
  apply msim_same. intros [v e]. apply msim_ret. split; [done|by exists v].
Qed.

Lemma reads_perform rconfig rs : forall rest output error,
  reads_in_lane rconfig rs ->
  msim (fun a b => a = (rest, output ++ answer_words b.1, b.2) /\ length b.1 = length rs /\
                   Forall (fun v => exists u, v = u .& byte_mask size) b.1)
    (Copying.reads socketp width sel rconfig (length rs) (read_words al rs ++ rest) output error)
    (perform socketp width rs error).
Proof.
  induction rs as [|[x o] rs IH]; intros rest output error Hin.
  - apply msim_ret. cbn. rewrite app_nil_r. by split_and!.
  - pose proof Hin as [(Hx & Hwr & Hc & Hr) Hin']%Forall_cons. cbn [snd] in *.
    cbn [length Copying.reads perform]. rewrite Hwr.
    unfold read_words. cbn [map concat snd]. fold (read_words al rs). rewrite <- app_assoc.
    destruct (word_mWRITE width (op_address o) (read_words al rs ++ rest)) as [Hword Hdrop].
    fold al in Hword, Hdrop |- *. rewrite Hword, Hdrop. unfold al at 1. rewrite (address_word width Hw) by apply Hx.
    eapply msim_bind; [apply (read_word_perform (x, o)); done|].
    intros [wv e] [v e'] [Hwv Hu]. cbn [fst snd] in Hwv, Hu. injection Hwv as -> ->.
    apply msim_bind_r. eapply msim_bind; [by apply IH|]. intros a [vs e2] (-> & Hl & Hm). apply msim_ret.
    cbn [fst snd length] in *. unfold answer_words. cbn [map concat]. rewrite <- app_assoc.
    split; [done|]. split; [by f_equal|]. by constructor.
Qed.
End requests.

(** * A record *)

Lemma perform_app {X} `{Bus X} socketp width l1 l2 error w :
  perform socketp width (l1 ++ l2) error w =
  bind (perform socketp width l1 error) (fun '(v1, e1) =>
    bind (perform socketp width l2 e1) (fun '(v2, e2) => ret (v1 ++ v2, e2))) w.
Proof.
  revert error w. induction l1 as [|[x o] l1 IH]; intros error w; cbn [app perform].
  - rewrite bind_ret. unfold bind, ret. by destruct (perform _ _ l2 error w) as [[[v e] w']|].
  - case_if; unfold bind, ret in *.
    + destruct (perform_write _ _ o error w) as [[e w']|]; [|done]. apply IH.
    + destruct (perform_read _ _ o error w) as [[[v e] w']|]; [|done]. rewrite IH.
      destruct (perform _ _ l1 e w') as [[[v1 e1] w1]|]; [|done].
      by destruct (perform _ _ l2 e1 w1) as [[[v2 e2] w2]|].
Qed.

Section record.
Context {X : Type} `{Env X} `{Bus X}.
Context (socketp width rba : Z).
Hypothesis Hw : link_width width.
Hypothesis Hrba : 0 <= rba < 2 ^ 16.
Let al := g_alignment width.
Let ral := g_record_alignment width.
Let data := g_data width.

Lemma flags_facts p e :
  is_byte (record_flags p e) /\ (record_flags p e .& EB_RECORD_CYC) = (if e then 8 else 0) /\
  negb ((record_flags p e .& EB_RECORD_WFF) =? 0) = negb (p_fifo p =? 0) /\
  negb ((record_flags p e .& EB_RECORD_WCA) =? 0) = negb (p_wcfg p =? 0) /\
  negb ((record_flags p e .& EB_RECORD_RCA) =? 0) = negb (p_rcfg p =? 0) /\
  ((record_flags p e .& EB_RECORD_BCA) =? 0) = false /\ ((record_flags p e .& EB_RECORD_RFF) =? 0) = false.
Proof.
  unfold record_flags. destruct (p_rcfg p =? 0), (p_wcfg p =? 0), (p_fifo p =? 0), e;
    (split; [split; [vm_compute; discriminate|vm_compute; reflexivity]|by split_and!]).
Qed.

Lemma header_bytes p e rest :
  drop ral (record_header width p e ++ rest) = rest /\
  nth 0 (record_header width p e ++ rest) 0 = record_flags p e /\
  nth 1 (record_header width p e ++ rest) 0 = record_select data p /\
  nth 2 (record_header width p e ++ rest) 0 = u8 (p_wcount p) /\
  nth 3 (record_header width p e ++ rest) 0 = u8 (p_rxcount p).
Proof. split; [|done]. apply drop_app_length'. symmetry. apply length_record_header. Qed.

Definition the_selection (p : plan) : selection :=
  mk_selection true (op_shift data p) (access_width width (p_size p))
    (data - (op_shift data p + p_size p)) (op_shift data p) (byte_mask (p_size p)).

Lemma select_decodes r : rec_geometry width r ->
  decode_select data (g_addr width) (record_select data (r_plan r)) = the_selection (r_plan r).
Proof.
  intros [Hs (H1 & H2 & H3) _ _]. unfold record_select, the_selection, access_width.
  apply decode_select_record; try done; [apply data_cases, Hw|apply addr_in, Hw].
Qed.

(** Which of the record's operations the lane lemmas speak of. *)
Lemma rec_in_lane r l : rec_geometry width r -> ops_ok width (r_writes r ++ r_reads r) ->
  (forall xo, In xo l -> In xo (r_writes r ++ r_reads r)) ->
  Forall (in_lane width (op_shift data (r_plan r)) (p_size (r_plan r))) l.
Proof.
  intros Hg Hok Hsub. apply Forall_forall. intros xo Hin. apply list_elem_of_In, Hsub, list_elem_of_In in Hin.
  split; [exact (proj1 (Forall_forall _ _) Hok xo Hin)|].
  exact (proj1 (Forall_forall _ _) (rg_ops _ _ Hg) xo Hin).
Qed.

Lemma cfg_is_config o c : cfg_of o = c -> is_config o = negb (c =? 0).
Proof. by intros <-. Qed.

Lemma write_part_perform maxops nc r rest error :
  rec_ok (g_data width) maxops nc r -> rec_geometry width r -> ops_ok width (r_writes r ++ r_reads r) ->
  msim (fun a b => a.1 = rest /\ b = ([], a.2))
    (Copying.write_part socketp width (the_selection (r_plan r)) (record_flags (r_plan r) (r_end r))
       (length (r_writes r)) (write_section width (r_plan r) (r_writes r) ++ rest) error)
    (perform socketp width (r_writes r) error).
Proof.
  intros (ops & _ & Hp) Hg Hok. pose proof (rg_lane _ _ Hg) as (Hl1 & Hl2 & _).
  assert (writes_in_lane width (op_shift data (r_plan r)) (p_size (r_plan r)) (negb (p_wcfg (r_plan r) =? 0)) (r_writes r)) as Hin.
  { pose proof (rec_in_lane r (r_writes r) Hg Hok ltac:(intros; apply in_or_app; tauto)) as Hil.
    apply Forall_forall. intros xo Hx. split; [exact (proj1 (Forall_forall _ _) Hil xo Hx)|].
    destruct (proj1 (Forall_forall _ _) (ps_writes _ _ _ _ _ _ _ _ Hp) xo Hx) as (Hwr & Hc & _).
    split; [done|by apply cfg_is_config]. }
  pose proof (ps_addr _ _ _ _ _ _ _ _ Hp) as Ha.
  assert (write_addresses data (if negb (p_fifo (r_plan r) =? 0) then 1 else 0) (r_writes r)) as Ha'.
  { unfold write_addresses in *. destruct (r_writes r) as [|[x o] ws]; [done|].
    by destruct (p_fifo (r_plan r) =? 0). }
  destruct (flags_facts (r_plan r) (r_end r)) as (_ & _ & Ef & Ec & _).
  unfold Copying.write_part, write_section. rewrite Ef, Ec.
  destruct (r_writes r) as [|[x o] ws] eqn:Ews; [by apply msim_ret|]. rewrite <- Ews in *.
  destruct (length (r_writes r)) as [|n] eqn:El; [by rewrite Ews in El|]. rewrite <- El, <- app_assoc.
  destruct (word_mWRITE width (op_address o) (write_words al (op_shift data (r_plan r)) (r_writes r) ++ rest)) as [Hword Hdrop].
  fold al data in Hword, Hdrop |- *. rewrite Hword, Hdrop.
  pose proof Hin as Hin0. rewrite Ews in Hin0. apply Forall_cons in Hin0 as [(Hx & _ & Hc) _].
  pose proof (address_word width Hw o (proj1 Hx)) as Haw. fold al in Haw. rewrite Haw.
  assert (forall b bb bl, at_head width (negb (p_wcfg (r_plan r) =? 0)) b bb bl [(x, o)] ->
     at_head width (negb (p_wcfg (r_plan r) =? 0)) b bb bl (r_writes r)) as Hhead by (rewrite Ews; done).
  destruct (lane_bounds width _ _ (rg_size _ _ Hg) Hl1 Hl2) as [Hb1 Hb2].
  destruct (negb (p_wcfg (r_plan r) =? 0)) eqn:Ewc.
  - apply writes_perform; try done; [apply Hg|]. by apply Hhead.
  - apply writes_perform; try done; [apply Hg|]. apply Hhead. cbn [at_head snd].
    destruct (bus_address width Hw _ _ _ Hx Hc) as [Hr _]. cbn [snd] in Hr.
    cbn [the_selection sel_big sel_little]. rewrite !(filtered_or width Hw) by done.
    pose proof (lane_addr_b width _ _ _ Hx) as E1. pose proof (lane_addr_l width _ _ _ Hx) as E2. cbn [snd] in E1, E2.
    fold data in E1, E2 |- *. by rewrite E1, E2.
Qed.

(** What follows the write part of a record. *)
Definition perform_tail (r : rec) (error : Z) : M X (list Z * Z) :=
  if reads_errors (r_plan r) then let* v := perform_status socketp width error in ret ([v], error)
  else perform socketp width (r_reads r) error.

(** The words of the read part of the request. *)
Definition tail_section (r : rec) : list Z :=
  error_section width rba (r_plan r) ++ read_section width rba (r_reads r).

Definition return_address (p : plan) : Z := if reads_errors p then rba .| 1 else rba.

(** The answer to the read part of a record. *)
Definition answer_header (r : rec) : list Z :=
  [(if r_end r then 8 else 0) .| EB_RECORD_WCA .| EB_RECORD_WFF; record_select data (r_plan r);
   p_rxcount (r_plan r); 0] ++ replicate (ral - 4) 0.
Definition answer_record (r : rec) (vs : list Z) : list Z :=
  answer_header r ++ EB_mWRITE (return_address (r_plan r)) al ++ answer_words width (op_shift data (r_plan r)) vs.

Lemma rba_word p : wrap (8 * Z.of_nat al) (return_address p) = return_address p /\ 0 <= return_address p < 2 ^ 16.
Proof.
  assert (0 <= return_address p < 2 ^ 16) as Hr.
  { unfold return_address. case_if; [|done]. split; [apply Z.lor_nonneg; lia|].
    assert (rba .| 1 <= rba + 1) as Hle.
    { rewrite <- (Z.add_lor_land rba 1). pose proof (Z.land_nonneg rba 1) as Hl. lia. }
    assert (rba .| 1 <> 2 ^ 16) as Hne; [|lia].
    intros Heq. apply (f_equal (fun z => Z.testbit z 0)) in Heq. rewrite Z.lor_spec in Heq.
    cbn in Heq. by rewrite orb_true_r in Heq. }
  split; [|done]. pose proof (al_bounds width Hw) as Hb. fold al in Hb. apply wrap_small.
  split; [lia|]. eapply Z.lt_le_trans; [apply Hr|]. apply Z.pow_le_mono_r; lia.
Qed.

Lemma EB_sWRITE_mWRITE v : EB_sWRITE v al = EB_mWRITE v al.
Proof. done. Qed.

Lemma status_word : op_ok width (mk_operation (8 - data) 0 (EB_OP_READ_VAL .| EB_OP_CFG_SPACE) data EB_NULL) /\
  8 - data < 2 ^ (8 * g_addr width).
Proof.
  pose proof (data_cases width Hw) as Hd. fold data in Hd.
  assert (8 <= 2 ^ (8 * g_addr width)) as Hp.
  { destruct (proj2 (link_width_cases width Hw)) as [-> |[-> |[-> | ->]]]; vm_compute; discriminate. }
  split; [|destruct Hd as [-> |[-> |[-> | ->]]]; lia].
  split; unfold sz, en, addr_bytes; cbn [op_format op_address is_write op_flags];
    destruct (data_format_facts data Hd) as [Hx He]; rewrite ?Hx, ?He.
  - apply data_in, Hw.
  - fold data. lia.
  - by left.
  - done.
  - change (is_config _) with true. cbn iota. change (2 ^ (8 * 2)) with 65536.
    destruct Hd as [-> |[-> |[-> | ->]]]; lia.
  - destruct Hd as [-> |[-> |[-> | ->]]]; reflexivity.
  - discriminate.
Qed.

Lemma status_perform r error : rec_geometry width r -> reads_errors (r_plan r) = true ->
  msim (fun a b => a = (u64 (b .<< (op_shift data (r_plan r) .<< 3)), error) /\
                   exists u, b = u .& byte_mask (p_size (r_plan r)))
    (read_word socketp width (the_selection (r_plan r)) true (8 - data) error)
    (perform_status socketp width error).
Proof.
  intros Hg He. destruct (rg_status _ _ Hg He) as [Hsz Hsh]. fold data in Hsz, Hsh.
  destruct status_word as [[_ _ _ _ _ Hal _] Hlt]. pose proof (data_cases width Hw) as Hd. fold data in Hd.
  unfold read_word, perform_status. cbn [the_selection sel_ok sel_width sel_big sel_little sel_mask sel_shift].
  rewrite Hsz, Hsh. rewrite !(filtered_or width Hw) by (fold data; destruct Hd as [E|[E|[E|E]]]; rewrite E in *; lia).
  fold data. assert (8 - data - (8 - data) mod data + (data - (0 + data)) = 8 - data) as ->.
  { unfold sz in Hal. cbn [op_format op_address] in Hal. rewrite (proj1 (data_format_facts data Hd)) in Hal. lia. }
  apply msim_assoc. apply msim_same. intros v. rewrite bind_ret_eq. apply msim_ret. split; [done|by exists v].
Qed.

Lemma read_part_perform maxops nc r rest s :
  rec_ok (g_data width) maxops nc r -> rec_geometry width r -> ops_ok width (r_writes r ++ r_reads r) ->
  Forall (fun xo => op_address xo.2 < 2 ^ (8 * g_addr width)) (r_reads r) ->
  Copying.c_in s = tail_section r ++ rest -> Copying.c_cycle_end s = (if r_end r then 8 else 0) ->
  msim (fun s' b =>
      Copying.c_in s' = rest /\ Copying.c_error s' = b.2 /\ Copying.c_cycle_end s' = Copying.c_cycle_end s /\
      Z.of_nat (length b.1) = p_rxcount (r_plan r) /\
      Forall (fun v => exists u, v = u .& byte_mask (p_size (r_plan r))) b.1 /\
      if p_rxcount (r_plan r) =? 0
      then Copying.c_out s' = Copying.c_out s /\ Copying.c_open s' = Copying.c_open s /\
           Copying.c_reply s' = Copying.c_reply s
      else Copying.c_out s' = Copying.c_out s ++ answer_record r b.1 /\
           Copying.c_open s' = negb (r_end r) /\ Copying.c_reply s' = true)
    (Copying.read_part socketp width (the_selection (r_plan r)) (record_flags (r_plan r) (r_end r))
       (record_select data (r_plan r)) (p_rxcount (r_plan r)) s)
    (perform_tail r (Copying.c_error s)).
Proof.
  intros (ops & _ & Hp) Hg Hok Hrange Hcin Hce. pose proof (rg_lane _ _ Hg) as (Hl1 & Hl2 & _).
  destruct (flags_facts (r_plan r) (r_end r)) as (_ & _ & _ & _ & Ercfg & Ebca & Erff).
  unfold Copying.read_part, perform_tail, tail_section, error_section, read_section in *. rewrite Ercfg.
  unfold reply_header. rewrite Ebca, Erff, Hce. fold ral.
  assert (((if r_end r then 8 else 0) =? 0) = negb (r_end r)) as -> by by destruct (r_end r).
  pose proof (rba_word (r_plan r)) as [Hrw _]. unfold return_address in Hrw.
  destruct (reads_errors (r_plan r)) eqn:Ee.
  - (* the status *)
    destruct (ps_errors _ _ _ _ _ _ _ _ Hp Ee) as (Hrs & Hx & Hrcfg & Hf & _).
    destruct (rg_status _ _ Hg Ee) as [Hsz Hsh]. rewrite Hx, Hrcfg in *. cbn [Z.eqb negb]. rewrite Hrs in Hcin.
    rewrite app_nil_r, <- app_assoc in Hcin.
    destruct (word_mWRITE width (rba .| 1) (EB_mWRITE (8 - g_data width) (g_alignment width) ++ rest)) as [Hwd Hdr].
    fold al data in Hwd, Hdr, Hcin. rewrite Hcin. fold al data. rewrite Hwd, Hdr, Hrw. change (Z.to_nat 1) with 1%nat. cbn [Copying.reads].
    destruct (word_mWRITE width (8 - data) rest) as [Hwd2 Hdr2]. fold al in Hwd2, Hdr2 |- *. rewrite Hwd2, Hdr2.
    destruct status_word as [Hsok Hslt].
    pose proof (address_word width Hw _ Hsok) as Haw. cbn [op_address] in Haw. fold al in Haw. rewrite Haw.
    apply msim_assoc. eapply msim_bind; [by apply status_perform|].
    intros [wv e] v [Hwv Hu]. injection Hwv as -> ->. rewrite bind_ret_eq. apply msim_ret.
    cbn [Copying.c_in Copying.c_out Copying.c_error Copying.c_cycle_end Copying.c_open Copying.c_reply fst snd length].
    split_and!; try done; [by constructor|].
    unfold answer_record, answer_header, return_address, answer_words. rewrite Ee, Hx.
    cbn [map concat]. by rewrite app_nil_r, <- !app_assoc.
  - rewrite (ps_noerrors _ _ _ _ _ _ _ _ Hp Ee), (ps_rcount _ _ _ _ _ _ _ _ Hp) in *.
    destruct (r_reads r) as [|xo rs] eqn:Ers.
    { cbn. apply msim_ret. cbn. by split_and!. }
    rewrite <- Ers in *. rewrite (proj2 (Z.eqb_neq _ 0)) by (rewrite Ers; cbn [length]; lia).
    rewrite Nat2Z.id. cbn [app] in Hcin. rewrite <- app_assoc in Hcin.
    destruct (word_mWRITE width rba (read_words (g_alignment width) (r_reads r) ++ rest)) as [Hwd Hdr].
    fold al in Hwd, Hdr, Hcin |- *. rewrite Hcin, Hwd, Hdr, Hrw.
    eapply msim_bind_l; [apply (reads_perform socketp width Hw); [apply Hg|done|done|]|].
    { pose proof (rec_in_lane r (r_reads r) Hg Hok ltac:(intros; apply in_or_app; tauto)) as Hil.
      apply Forall_forall. intros yo Hy. split; [exact (proj1 (Forall_forall _ _) Hil yo Hy)|].
      destruct (proj1 (Forall_forall _ _) (ps_reads _ _ _ _ _ _ _ _ Hp) yo Hy) as (Hrd & Hc & _).
      rewrite is_read_write in Hrd. split; [by destruct (is_write yo.2)|].
      split; [by apply cfg_is_config|]. exact (proj1 (Forall_forall _ _) Hrange yo Hy). }
    intros a [vs e] (-> & Hlen & Hm). apply msim_ret.
    cbn [Copying.c_in Copying.c_out Copying.c_error Copying.c_cycle_end Copying.c_open Copying.c_reply fst snd] in *.
    split_and!; try done; [by rewrite Hlen|].
    unfold answer_record, answer_header, return_address.
    rewrite Ee, (ps_noerrors _ _ _ _ _ _ _ _ Hp Ee), (ps_rcount _ _ _ _ _ _ _ _ Hp).
    by rewrite <- !app_assoc.
Qed.

Lemma perform_record_split r error w : (reads_errors (r_plan r) = true -> r_reads r = []) ->
  perform_record socketp width r error w =
  bind (perform socketp width (r_writes r) error) (fun '(v1, e1) =>
    bind (perform_tail r e1) (fun '(v2, e2) => ret (v1 ++ v2, e2))) w.
Proof.
  intros He. unfold perform_record, perform_tail. unfold bind at 1. rewrite perform_app.
  destruct (reads_errors (r_plan r)).
  - rewrite He by done. unfold bind, ret. destruct (perform _ _ (r_writes r) error w) as [[[v1 e1] w1]|]; [|done].
    cbn. rewrite app_nil_r. by destruct (perform_status _ _ e1 w1) as [[v w2]|].
  - unfold bind, ret. destruct (perform _ _ (r_writes r) error w) as [[[v1 e1] w1]|]; [|done].
    by destruct (perform _ _ (r_reads r) e1 w1) as [[[v2 e2] w2]|].
Qed.

(** The state of the slave after a record. *)
Definition terminator (r : rec) (open : bool) : list Z :=
  if open && r_end r then 8 :: replicate (ral - 1) 0 else [].

Definition after (r : rec) (vs : list Z) (error : Z) (s : Copying.state) (rest : list Z) : Copying.state :=
  if p_rxcount (r_plan r) =? 0 then
    Copying.mk_state rest (Copying.c_out s ++ terminator r (Copying.c_open s)) error
      (if r_end r then 8 else 0) (Copying.c_open s) (Copying.c_reply s)
  else
    Copying.mk_state rest (Copying.c_out s ++ answer_record r vs) error
      (if r_end r then 8 else 0) (negb (r_end r)) true.

Lemma state_eta s : s = Copying.mk_state (Copying.c_in s) (Copying.c_out s) (Copying.c_error s)
  (Copying.c_cycle_end s) (Copying.c_open s) (Copying.c_reply s).
Proof. by destruct s. Qed.

Lemma plan_total_words maxops nc r : rec_ok (g_data width) maxops nc r ->
  length (write_section width (r_plan r) (r_writes r) ++ tail_section r) = (Z.to_nat (plan_total (r_plan r)) * al)%nat.
Proof.
  intros Hr. pose proof (length_record_bytes _ _ _ width rba _ Hr) as Hl.
  unfold record_bytes, plan_length in Hl. rewrite length_app, length_record_header in Hl.
  unfold tail_section. fold al in Hl. lia.
Qed.

Lemma record_perform maxops nc r rest s :
  rec_ok (g_data width) maxops nc r -> ops_ok width (r_writes r ++ r_reads r) ->
  Forall (fun xo => op_address xo.2 < 2 ^ (8 * g_addr width)) (r_reads r) ->
  Copying.c_in s = record_bytes width rba r ++ rest ->
  msim (fun os b => os = Some (after r b.1 b.2 s rest) /\ Z.of_nat (length b.1) = p_rxcount (r_plan r) /\
                    Forall (fun v => exists u, v = u .& byte_mask (p_size (r_plan r))) b.1)
    (Copying.record socketp width s) (perform_record socketp width r (Copying.c_error s)).
Proof.
  intros Hr Hok Hrange Hcin. pose proof (rec_geometry_ok width maxops nc r Hw Hr Hok) as Hg.
  pose proof Hr as (ops & _ & Hp).
  assert (0 <= p_wcount (r_plan r) < 256 /\ 0 <= p_rxcount (r_plan r) < 256) as [Hwc Hrc].
  { destruct Hp as [_ Hx Hxm Hy Hym _ _ _ _ _ _ _ He Hn]. split; [lia|].
    destruct (reads_errors (r_plan r)); [destruct He as (_ & -> & _); [done|lia]|]. rewrite Hn by done. lia. }
  assert (Copying.c_in s = record_header width (r_plan r) (r_end r) ++
     write_section width (r_plan r) (r_writes r) ++ tail_section r ++ rest) as Hcin'.
  { rewrite Hcin. unfold record_bytes, tail_section. by rewrite <- !app_assoc. }
  unfold Copying.record. rewrite Hcin'.
  destruct (header_bytes (r_plan r) (r_end r) (write_section width (r_plan r) (r_writes r) ++ tail_section r ++ rest))
    as (Hdr & Hy0 & Hy1 & Hy2 & Hy3). fold ral in Hdr |- *. rewrite Hdr, Hy0, Hy1, Hy2, Hy3.
  destruct (flags_facts (r_plan r) (r_end r)) as (Hfb & Hce & _).
  rewrite (wrap_small 8 (record_flags _ _)) by done. rewrite !wrap_wrap by lia.
  assert (u8 (record_select data (r_plan r)) = record_select data (r_plan r)) as -> by (apply wrap_wrap; lia).
  rewrite (wrap_small 8 (p_wcount _)), (wrap_small 8 (p_rxcount _)), Hce by lia.
  pose proof (select_decodes r Hg) as Hsel. fold data. rewrite Hsel.
  pose proof (plan_total_words maxops nc r Hr) as Hlen.
  replace (p_wcount (r_plan r) + p_rxcount (r_plan r) + c_bool (0 <? p_wcount (r_plan r)) + c_bool (0 <? p_rxcount (r_plan r)))
    with (plan_total (r_plan r)) by (unfold plan_total; lia).
  rewrite app_assoc, length_app, Hlen. fold al.
  rewrite (proj2 (Nat.ltb_ge _ _)) by lia. rewrite <- app_assoc.
  rewrite (ps_wcount _ _ _ _ _ _ _ _ Hp), Nat2Z.id.
  eapply msim_eq_r; [intros w; apply perform_record_split; intros He; apply (ps_errors _ _ _ _ _ _ _ _ Hp He)|].
  eapply msim_bind; [by eapply write_part_perform|].
  intros [input e1] [v1 e1'] [Hin Hv]. cbn [fst snd] in Hin, Hv. injection Hv as -> ->. subst input.
  eapply msim_bind; [eapply (read_part_perform maxops nc r rest); try done|].
  intros s' [v2 e2] (Hi & He & Hcs & Hl & Hm & Hcase). apply msim_ret. cbn [fst snd] in *.
  split; [|done]. f_equal. unfold after. rewrite app_nil_l.
  cbn [Copying.c_cycle_end Copying.c_out Copying.c_open Copying.c_reply] in *.
  unfold Copying.terminate. fold ral. rewrite Hcs.
  assert (negb ((if r_end r then 8 else 0) =? 0) = r_end r) as -> by by destruct (r_end r).
  destruct (p_rxcount (r_plan r) =? 0); destruct Hcase as (Ho & Hop & Hre); rewrite Hop.
  - unfold terminator. destruct (Copying.c_open s), (r_end r); cbn [andb];
      rewrite (state_eta s'), ?Hi, ?He, ?Hcs, ?Ho, ?Hop, ?Hre, ?app_nil_r; done.
  - destruct (r_end r); cbn [negb andb]; rewrite (state_eta s'), ?Hi, ?He, ?Hcs, ?Ho, ?Hop, ?Hre; done.
Qed.
End record.

(** * A cycle *)

Section cycle.
Context {X : Type} `{Env X} `{Bus X}.
Context (socketp width rba : Z).
Hypothesis Hw : link_width width.
Hypothesis Hrba : 0 <= rba < 2 ^ 16.
Let al := g_alignment width.
Let ral := g_record_alignment width.
Let data := g_data width.

(** The records of a cycle one after the other: the values each of them read. *)
Fixpoint perform_cycle (recs : list rec) (error : Z) : M X (list (list Z) * Z) :=
  match recs with
  | [] => ret ([], error)
  | r :: recs =>
      let* ' (vs, error) := perform_record socketp width r error in
      let* ' (vss, error) := perform_cycle recs error in
      ret (vs :: vss, error)
  end.

(** The bytes of the answer. *)
Fixpoint answers (recs : list rec) (vss : list (list Z)) (open : bool) : list Z :=
  match recs, vss with
  | r :: recs, vs :: vss =>
      if p_rxcount (r_plan r) =? 0 then terminator width r open ++ answers recs vss open
      else answer_record width rba r vs ++ answers recs vss (negb (r_end r))
  | _, _ => []
  end.

(** The values that answer a record: as many as it asked for, of its size. *)
Definition answers_record (r : rec) (vs : list Z) : Prop :=
  Z.of_nat (length vs) = p_rxcount (r_plan r) /\
  Forall (fun v => exists u, v = u .& byte_mask (p_size (r_plan r))) vs.

(** The record asks for something to be sent back. *)
Definition asks (r : rec) : bool := negb (p_rxcount (r_plan r) =? 0).

Definition in_range (l : list node) : Prop := Forall (fun xo => op_address xo.2 < 2 ^ (8 * g_addr width)) l.

Definition record_ready (maxops : Z) (nc : bool) (r : rec) : Prop :=
  rec_ok (g_data width) maxops nc r /\ ops_ok width (r_writes r ++ r_reads r) /\ in_range (r_reads r).

Lemma records_perform maxops nc recs : forall s fuel,
  Forall (record_ready maxops nc) recs -> (length recs < fuel)%nat ->
  Copying.c_in s = cycle_bytes width rba recs ->
  msim (fun os b => exists s', os = Some s' /\ Copying.c_in s' = [] /\
          Copying.c_out s' = Copying.c_out s ++ answers recs b.1 (Copying.c_open s) /\
          Copying.c_error s' = b.2 /\ Forall2 answers_record recs b.1 /\
          Copying.c_reply s' = Copying.c_reply s || existsb asks recs /\
          Copying.c_cycle_end s' = (match last recs with
             | Some r => if r_end r then 8 else 0 | None => Copying.c_cycle_end s end))
    (Copying.records socketp width fuel s) (perform_cycle recs (Copying.c_error s)).
Proof.
  induction recs as [|r recs IH]; intros s fuel Hok Hf Hin.
  - unfold cycle_bytes in Hin. cbn in Hin. destruct fuel as [|fuel]; cbn [Copying.records];
      rewrite Hin; cbn [length]; (rewrite (proj2 (Nat.leb_gt _ _)) by
        (destruct (g_record_alignment_cases width) as [-> | ->]; lia));
      apply msim_ret; exists s; cbn; rewrite app_nil_r, orb_false_r; by split_and!.
  - apply Forall_cons in Hok as [(Hr & Hops & Hrange) Hok]. destruct fuel as [|fuel]; cbn in Hf; [lia|].
    cbn [Copying.records perform_cycle].
    assert (Copying.c_in s = record_bytes width rba r ++ cycle_bytes width rba recs) as Hin' by done.
    pose proof (length_record_bytes _ _ _ width rba _ Hr) as Hlen.
    rewrite (proj2 (Nat.leb_le _ _)) by (rewrite Hin', length_app, Hlen; unfold plan_length; lia).
    eapply msim_bind; [by eapply record_perform|].
    intros os [vs e] (-> & Hl & Hm). cbn [fst snd] in *.
    set (s1 := after width rba r vs e s (cycle_bytes width rba recs)).
    assert (Copying.c_in s1 = cycle_bytes width rba recs /\ Copying.c_error s1 = e /\
            Copying.c_cycle_end s1 = (if r_end r then 8 else 0)) as (Hi1 & He1 & Hc1)
      by (unfold s1, after; by case_if).
    specialize (IH s1 fuel Hok ltac:(lia) Hi1). rewrite He1 in IH.
    eapply msim_bind_k; [exact IH|].
    intros os [vss e2] (s' & -> & Hi & Ho & He & Hf2 & Hre & Hce). cbn [fst snd] in *.
    apply msim_ret. exists s'. cbn [fst snd]. split_and!; try done.
    + rewrite Ho. cbn [answers]. unfold s1, after. destruct (p_rxcount (r_plan r) =? 0);
        cbn [Copying.c_out Copying.c_open]; by rewrite <- app_assoc.
    + by constructor.
    + rewrite Hre. cbn [existsb]. unfold s1, after, asks. destruct (p_rxcount (r_plan r) =? 0); cbn [Copying.c_reply negb orb]; [done|].
      by rewrite orb_true_r.
    + rewrite Hce, Hc1, last_cons. by destruct (last recs).
Qed.
End cycle.
