(* ===== verification/Answer.v ===== *)
(** A whole message on the wire: the slave's record loop runs the operations of a
    cycle in order, and the answer it forms, handed to the record loop of the
    requester, becomes one configuration write per value read. *)
From stdpp Require Import base list gmap.
From Stdlib Require Import ZArith Lia.
From S2P Require Import Prelude Widths Store World Linked Cycle Format Master Valid Records Encode Slave Wire.

(** * Delivering an answer *)

Section deliver.
Context {X : Type} `{Env X} `{Bus X}.
Context (socketp width rba : Z).
Hypothesis Hw : link_width width.
Hypothesis Hrba : 0 <= rba < 2 ^ 16.
Let al := g_alignment width.
Let ral := g_record_alignment width.
Let data := g_data width.

(** The values of one record, written to the response address one by one. *)
Definition deliver_record (r : rec) (vs : list Z) : M X unit :=
  mapM_ (eb_socket_write_config socketp (access_width width (p_size (r_plan r)))
           (return_address rba (r_plan r))) vs.

Fixpoint deliver (recs : list rec) (vss : list (list Z)) : M X unit :=
  match recs, vss with
  | r :: recs, vs :: vss => deliver_record r vs ;;; deliver recs vss
  | _, _ => ret tt
  end.

Lemma masked_range v size : In size [1; 2; 4; 8] -> (exists u, v = u .& byte_mask size) ->
  0 <= v < 2 ^ (8 * size).
Proof.
  intros Hs [u ->]. assert (1 <= size <= 8) by (cbn in Hs; lia).
  rewrite byte_mask_ones, Z.land_ones by lia. apply Z.mod_pos_bound. apply Z.pow_pos_nonneg; lia.
Qed.

Lemma deliver_words p vs : forall rest ba error,
  In (p_size p) [1; 2; 4; 8] -> 0 <= op_shift data p -> op_shift data p + p_size p <= data ->
  Forall (fun v => exists u, v = u .& byte_mask (p_size p)) vs ->
  msim (fun a (_ : unit) => a = (rest, error))
    (Copying.writes socketp width (the_selection width p) true true (length vs)
       (answer_words width (op_shift data p) vs ++ rest) ba 0 0 error)
    (mapM_ (eb_socket_write_config socketp (access_width width (p_size p)) ba) vs).
Proof.
  induction vs as [|v vs IH]; intros rest ba error Hs Hsh0 Hle Hvs; [by apply msim_ret|].
  apply Forall_cons in Hvs as [Hv Hvs]. apply (masked_range v) in Hv; [|done].
  unfold answer_words. cbn [length map concat Copying.writes mapM_].
  fold (answer_words width (op_shift data p) vs). rewrite <- app_assoc.
  destruct (word_mWRITE width (u64 (v .<< (op_shift data p .<< 3))) (answer_words width (op_shift data p) vs ++ rest)) as [Hwd Hdr].
  fold al in Hwd, Hdr |- *. change (EB_sWRITE ?x al) with (EB_mWRITE x al). rewrite Hwd, Hdr.
  unfold write_word. cbn [the_selection sel_ok sel_shift sel_mask sel_width when].
  pose proof (value_word width Hw v (op_shift data p) (p_size p) Hv Hsh0 Hs Hle) as Hval.
  fold al data in Hval |- *. rewrite Hval.
  apply msim_assoc. apply msim_same. intros _. rewrite bind_ret_eq. by apply IH.
Qed.

Lemma answer_header_bytes r rest : rec_geometry width r ->
  drop ral (answer_header width r ++ rest) = rest /\
  nth 0 (answer_header width r ++ rest) 0 = ((if r_end r then 8 else 0) .| EB_RECORD_WCA .| EB_RECORD_WFF) /\
  nth 1 (answer_header width r ++ rest) 0 = record_select data (r_plan r) /\
  nth 2 (answer_header width r ++ rest) 0 = p_rxcount (r_plan r) /\
  nth 3 (answer_header width r ++ rest) 0 = 0.
Proof.
  intros _. split; [|done]. apply drop_app_length'. unfold answer_header.
  rewrite length_app, length_replicate. cbn [length].
  pose proof (g_record_alignment_cases width) as Hr. fold ral in Hr |- *. lia.
Qed.

(** What a record of the answer leaves of the state. *)
Definition delivered (s : Copying.state) (rest : list Z) (cycle_end : Z) : Copying.state :=
  Copying.mk_state rest (Copying.c_out s) (Copying.c_error s) cycle_end false (Copying.c_reply s).

Lemma length_answer_words shift vs : length (answer_words width shift vs) = (length vs * al)%nat.
Proof.
  pose proof (g_alignment_cases width) as Ha. unfold answer_words.
  induction vs as [|v vs IH]; cbn [map concat length]; [done|].
  rewrite length_app, IH, EB_sWRITE_bytes by done. rewrite length_be_bytes. fold al. lia.
Qed.

Lemma record_deliver maxops nc r vs rest s :
  record_ready width maxops nc r -> answers_record r vs -> p_rxcount (r_plan r) <> 0 ->
  Copying.c_in s = answer_record width rba r vs ++ rest -> Copying.c_open s = false ->
  msim (fun os (_ : unit) => os = Some (delivered s rest (if r_end r then 8 else 0)))
    (Copying.record socketp width s) (deliver_record r vs).
Proof.
  intros (Hr & Hok & _) (Hlen & Hvs) Hne Hin Hopen.
  pose proof (rec_geometry_ok width maxops nc r Hw Hr Hok) as Hg.
  destruct Hr as (ops & _ & Hp).
  assert (0 < p_rxcount (r_plan r) < 256) as Hrx.
  { destruct Hp as [_ _ _ Hy Hym _ _ _ _ _ _ _ He Hn].
    destruct (reads_errors (r_plan r)); [destruct He as (_ & -> & _); [done|lia]|]. rewrite Hn in * by done. lia. }
  unfold Copying.record. rewrite Hin. unfold answer_record. rewrite <- !app_assoc.
  set (body := EB_mWRITE (return_address rba (r_plan r)) al ++ answer_words width (op_shift data (r_plan r)) vs ++ rest).
  fold al data. fold body.
  destruct (answer_header_bytes r body Hg) as (Hdr & Hb0 & Hb1 & Hb2 & Hb3).
  fold ral in Hdr |- *. rewrite Hdr, Hb0, Hb1, Hb2, Hb3.
  rewrite (wrap_small 8 (p_rxcount _)) by lia.
  assert (u8 (record_select data (r_plan r)) = record_select data (r_plan r)) as -> by (apply wrap_wrap; lia).
  pose proof (select_decodes width Hw r Hg) as Hsel. fold data in Hsel. rewrite Hsel. change (u8 0) with 0.
  set (flags := u8 _). assert (flags .& EB_RECORD_CYC = (if r_end r then 8 else 0) /\
    negb ((flags .& EB_RECORD_WFF) =? 0) = true /\ negb ((flags .& EB_RECORD_WCA) =? 0) = true) as (-> & Hff & Hwa)
    by (unfold flags; by destruct (r_end r)).
  pose proof (g_alignment_cases width) as Ha. fold al in Ha.
  assert (length body = ((1 + length vs) * al + length rest)%nat) as Hbl.
  { unfold body. rewrite !length_app, length_answer_words, length_EB_mWRITE by done. lia. }
  rewrite Hbl. unfold c_bool. rewrite (proj2 (Z.ltb_lt 0 (p_rxcount _))) by lia. cbn [Z.ltb Z.compare].
  rewrite (proj2 (Nat.ltb_ge _ _)) by lia.
  unfold Copying.write_part. rewrite Hff, Hwa.
  replace (Z.to_nat (p_rxcount (r_plan r))) with (length vs) by lia.
  destruct (length vs) as [|n] eqn:El; [lia|]. rewrite <- El.
  destruct (word_mWRITE width (return_address rba (r_plan r)) (answer_words width (op_shift data (r_plan r)) vs ++ rest)) as [Hwd Hdr2].
  fold al in Hwd, Hdr2 |- *. unfold body. rewrite Hwd, Hdr2.
  pose proof (rba_word width rba Hw Hrba (r_plan r)) as [Hrw _]. fold al in Hrw. rewrite Hrw.
  eapply msim_bind_l; [apply deliver_words; [apply Hg|apply Hg|apply Hg|done]|].
  intros a [] ->. cbn [fst snd]. unfold Copying.read_part. rewrite Z.eqb_refl, bind_ret_eq.
  apply msim_ret. unfold Copying.terminate. cbn [Copying.c_open]. by rewrite Hopen.
Qed.

(** The record that only ends the answer's cycle does nothing. *)
Lemma record_terminator rest s :
  Copying.c_in s = (8 :: replicate (ral - 1) 0) ++ rest -> Copying.c_open s = false ->
  Copying.record socketp width s = ret (Some (delivered s rest 8)).
Proof.
  intros Hin Hopen. unfold Copying.record. rewrite Hin.
  assert (drop ral ((8 :: replicate (ral - 1) 0) ++ rest) = rest /\
    nth 1 ((8 :: replicate (ral - 1) 0) ++ rest) 0 = 0 /\ nth 2 ((8 :: replicate (ral - 1) 0) ++ rest) 0 = 0 /\
    nth 3 ((8 :: replicate (ral - 1) 0) ++ rest) 0 = 0) as (Hdr & H1 & H2 & H3).
  { pose proof (g_record_alignment_cases width) as Hr. fold ral in Hr.
    destruct Hr as [-> | ->]; by split_and!. }
  fold ral. rewrite Hdr, H1, H2, H3. cbn [app nth]. change (u8 0) with 0. change (u8 8) with 8.
  change (Z.to_nat 0) with 0%nat. cbn [Nat.mul Z.to_nat Z.add Z.ltb Z.compare c_bool].
  rewrite (proj2 (Nat.ltb_ge _ _)) by lia.
  cbn [Copying.write_part]. rewrite bind_ret_eq. unfold Copying.read_part. rewrite Z.eqb_refl, bind_ret_eq.
  unfold Copying.terminate. cbn [Copying.c_open]. by rewrite Hopen.
Qed.

(** The cycle of the answer is closed once the records are through: the last one
    ends it, and as long as nothing was answered it was never open. *)
Definition ends_closed (recs : list rec) (open : bool) (s : Copying.state) : Prop :=
  (open = false -> Copying.c_cycle_end s <> 0) /\
  match last recs with Some r => r_end r = true | None => Copying.c_cycle_end s <> 0 end.

Lemma answers_deliver maxops nc recs : forall vss open s fuel,
  Forall (record_ready width maxops nc) recs -> Forall2 answers_record recs vss ->
  (length recs < fuel)%nat ->
  Copying.c_in s = answers width rba recs vss open -> Copying.c_open s = false ->
  msim (fun os (_ : unit) => exists s', os = Some s' /\ Copying.c_in s' = [] /\
          Copying.c_out s' = Copying.c_out s /\ Copying.c_error s' = Copying.c_error s /\
          Copying.c_reply s' = Copying.c_reply s /\
          (ends_closed recs open s -> Copying.c_cycle_end s' <> 0))
    (Copying.records socketp width fuel s) (deliver recs vss).
Proof.
  pose proof (g_record_alignment_cases width) as Hral.
  assert (forall fuel s, Copying.c_in s = [] -> Copying.records socketp width fuel s = ret (Some s)) as Hnil.
  { intros fuel s E. destruct fuel; cbn [Copying.records]; rewrite E; cbn [length];
      by rewrite (proj2 (Nat.leb_gt _ _)) by lia. }
  induction recs as [|r recs IH]; intros vss open s fuel Hok Hans Hf Hin Hopen.
  - rewrite Hnil by done. apply msim_ret. exists s. apply Forall2_nil_inv_l in Hans as ->.
    split_and!; try done. by intros [_ ?].
  - apply Forall2_cons_inv_l in Hans as (vs & vss' & Ha & Hans & ->). rename vss' into vss.
    apply Forall_cons in Hok as [Hr Hok]. cbn [length] in Hf. cbn [answers deliver] in *.
    destruct (Z.eqb_spec (p_rxcount (r_plan r)) 0) as [Hz|Hz].
    + assert (vs = []) as -> by (destruct Ha as [Hl _]; destruct vs; [done|cbn in Hl; lia]).
      unfold deliver_record. cbn [mapM_]. rewrite bind_ret_eq. unfold terminator in Hin.
      destruct (open && r_end r) eqn:Eoe.
      * fold ral in Hin. destruct fuel as [|fuel]; [lia|]. cbn [Copying.records].
        rewrite (proj2 (Nat.leb_le _ _)) by (rewrite Hin, length_app; cbn [length]; rewrite length_replicate; fold ral; lia).
        rewrite (record_terminator _ s Hin Hopen), bind_ret_eq.
        eapply msim_weaken; [|apply (IH vss open); [done|done|lia|done|done]].
        intros os [] (s' & ? & ? & ? & ? & ? & Hce). exists s'. split_and!; try done.
        intros [Hopen2 Hlast]. apply Hce. split; [done|]. rewrite last_cons in Hlast. by destruct (last recs).
      * eapply msim_weaken; [|eapply (IH vss open); try done; lia].
        intros os [] (s' & ? & ? & ? & ? & ? & Hce). exists s'. split_and!; try done.
        intros [Hopen2 Hlast]. apply Hce. split; [done|]. rewrite last_cons in Hlast.
        destruct (last recs); [done|]. rewrite Hlast, andb_true_r in *. by apply Hopen2.
    + destruct fuel as [|fuel]; [lia|]. cbn [Copying.records].
      rewrite (proj2 (Nat.leb_le _ _)).
      2: { rewrite Hin. unfold answer_record, answer_header. rewrite !length_app, length_replicate. cbn [length]. lia. }
      eapply msim_bind; [eapply record_deliver; try done|].
      intros os [] ->. eapply msim_weaken; [|apply (IH vss (negb (r_end r))); [done|done|lia|done|done]].
      intros os [] (s' & ? & ? & ? & ? & ? & Hce). exists s'. split_and!; try done.
      intros [_ Hlast]. apply Hce. cbn [Copying.c_cycle_end delivered]. split; [by destruct (r_end r)|].
      rewrite last_cons in Hlast. destruct (last recs); [done|]. by rewrite Hlast.
Qed.
End deliver.

(** * Executing a message *)

Lemma ops_ok_formats width l : link_width width -> ops_ok width l ->
  Forall (fun xo : node => op_format xo.2 <> EB_DATAX) l.
Proof.
  intros Hw Hl. eapply Forall_impl; [exact Hl|]. cbv beta. intros xo [Hs _ _ _ _ _ _] E.
  unfold sz in Hs. rewrite E in Hs. vm_compute in Hs. destruct Hs as [Hs|[Hs|[Hs|[Hs|[]]]]]; discriminate Hs.
Qed.

(** What the operations of a cycle must satisfy to be executed remotely:
    [eb_device_flush] accepted them, and what is read has an address the
    record can express. *)
Definition executable (width : Z) (l : list node) : Prop :=
  ops_ok width l /\
  Forall (fun xo => is_write xo.2 = false -> op_address xo.2 < 2 ^ (8 * g_addr width)) l.

Lemma records_ready width maxops nc l recs :
  executable width l -> concat (map (fun r => r_writes r ++ r_reads r) recs) = l ->
  Forall (rec_ok (g_data width) maxops nc) recs -> Forall (record_ready width maxops nc) recs.
Proof.
  revert l. induction recs as [|r recs IH]; intros l [Hok Hin] Hc Hrec; [constructor|].
  cbn [map concat] in Hc. subst l. apply Forall_cons in Hrec as [Hr Hrec].
  apply Forall_app in Hok as [Hok1 Hok2]. apply Forall_app in Hin as [Hin1 Hin2].
  constructor; [|by eapply IH]. split; [done|]. split; [done|].
  destruct Hr as (ops & _ & Hp). apply Forall_app in Hin1 as [_ Hin1].
  apply Forall_forall. intros xo Hx.
  apply (proj1 (Forall_forall _ _) Hin1 xo Hx).
  destruct (proj1 (Forall_forall _ _) (ps_reads _ _ _ _ _ _ _ _ Hp) xo Hx) as (Hrd & _).
  rewrite is_read_write in Hrd. by destruct (is_write xo.2).
Qed.

Lemma cycle_bytes_bound width rba maxops nc recs :
  Forall (rec_ok (g_data width) maxops nc) recs ->
  (length recs <= length (cycle_bytes width rba recs))%nat.
Proof.
  pose proof (g_record_alignment_cases width) as Hral.
  induction 1 as [|r recs Hr _ IH]; [done|].
  unfold cycle_bytes in *. cbn [map concat]. rewrite length_app, (length_record_bytes _ _ _ width rba _ Hr).
  cbn [length]. unfold plan_length. lia.
Qed.

(** The operations of a cycle one after the other, the error flags read in between
    forgotten: only a checked cycle reads them. *)
Lemma unchecked_records data maxops fuel : data_ok data -> 0 < maxops < 2 ^ 32 -> forall ops l recs,
  0 <= ops -> ops + bus_count l < maxops -> Forall (fun xo : node => op_format xo.2 <> EB_DATAX) l ->
  cycle_records data maxops false fuel ops l = Some recs ->
  Forall (fun r => reads_errors (r_plan r) = false) recs.
Proof.
  intros Hd Hm. induction fuel as [|fuel IH]; intros ops l recs Hops Hb Hf E; [done|].
  cbn [cycle_records] in E. unfold plan_record in E.
  pose proof (bus_count_nonneg l).
  destruct (pack_reads_spec data maxops ltac:(lia) Hd false ops l ltac:(lia) Hf) as (ws & rs & Hp & Hre & _ & _).
  set (p := pack_reads data maxops (pack_writes data maxops ops l)) in *.
  pose proof (ps_split _ _ _ _ _ _ _ _ Hp) as Hs. pose proof (ps_ops _ _ _ _ _ _ _ _ Hp) as Ho.
  assert (bus_count l = bus_count ws + bus_count rs + bus_count (p_rest p)) as Hbl
    by (rewrite Hs at 1; rewrite !bus_count_app; lia).
  pose proof (bus_count_nonneg (p_rest p)).
  assert (add_readback data maxops false p = p) as Ea.
  { unfold add_readback. rewrite (proj2 (Z.leb_gt _ _)) by lia.
    rewrite andb_false_r. cbn [andb orb]. by rewrite andb_false_r. }
  rewrite Ea in E. unfold next_ops in E. rewrite Hre in E.
  destruct (is_cycle_end false p); [injection E as <-; by constructor|].
  destruct (cycle_records _ _ _ _ _ _) as [recs'|] eqn:E'; [|done]. injection E as <-.
  constructor; [done|]. eapply IH; [..|exact E']; [|lia|].
  - pose proof (bus_count_nonneg ws). pose proof (bus_count_nonneg rs). lia.
  - rewrite Hs in Hf. by apply Forall_app in Hf as [_ [_ ?]%Forall_app].
Qed.

Lemma perform_cycle_sequence {X} `{Bus X} socketp width recs : forall error,
  Forall (fun r => reads_errors (r_plan r) = false) recs ->
  msim (fun a b => concat a.1 = b.1 /\ a.2 = b.2) (perform_cycle socketp width recs error)
    (perform socketp width (concat (map (fun r => r_writes r ++ r_reads r) recs)) error).
Proof.
  induction recs as [|r recs IH]; intros error Hre; [by apply msim_ret|].
  apply Forall_cons in Hre as [Hr Hre]. cbn [perform_cycle map concat].
  eapply msim_eq_r; [intros w; apply perform_app|].
  eapply msim_bind; [unfold perform_record; rewrite Hr|].
  { apply (msim_bind_l eq (fun a b => a = b)); [apply msim_refl|]. intros [vs e] b <-. by apply msim_ret. }
  intros [vs e] b <-. eapply msim_bind; [by apply IH|].
  intros [vss e1] [vs1 e1'] [Hv He]. cbn [fst snd] in Hv, He. subst vs1 e1'. by apply msim_ret.
Qed.

(** The record loop on the bytes of a cycle; [slave_executes_cycle] states it for the reader. *)
Lemma process_cycle {X : Type} `{Env X} `{Bus X}
    (socketp link_type transportp linkp width rba maxops : Z) (nc : bool) (l : list node)
    (header : list Z) (error : Z) (Hmtu : t_mtu link_type <> 0) (Hw : link_width width)
    (Hrba : 0 <= rba < 2 ^ 16) (Hm : 0 < maxops < 2 ^ 32) (Hne : l <> []) (Hl : executable width l) :
  exists recs,
    cycle_records (g_data width) maxops nc (S (2 * length l)) 0 l = Some recs /\
    concat (map (fun r => r_writes r ++ r_reads r) recs) = l /\
    (let message := header ++ cycle_bytes width rba recs in
     msim (fun os b => exists s, os = Some s /\
        take (s_wptr s) (s_buffer s) = header ++ answers width rba recs b.1 false /\
        s_rptr s = length (s_buffer s) /\ s_error s = b.2 /\ Forall2 answers_record recs b.1 /\
        s_reply s = existsb asks recs /\ s_cycle_end s = EB_RECORD_CYC)
      (process_records socketp link_type transportp linkp width (S (length message))
        (mk_session message (length header) (length header) error 1 false false))
      (perform_cycle socketp width recs error)) /\
    Forall (fun xo => (en xo.2 = EB_BIG_ENDIAN -> addr_b (g_data width) xo.2 = op_address xo.2) /\
      (en xo.2 = EB_LITTLE_ENDIAN -> addr_l (g_data width) xo.2 = op_address xo.2) /\
      (en xo.2 = 0 -> addr_b (g_data width) xo.2 = op_address xo.2 /\
                      addr_l (g_data width) xo.2 = op_address xo.2)) l.
Proof.
  pose proof (proj1 (link_width_cases width Hw)) as Hdata. destruct Hl as [Hok Hin].
  destruct (cycle_records_spec (g_data width) maxops nc (S (2 * length l)) 0 l)
    as (recs & E & Hc & (init & rl & Hlast & Hend & _) & Hrec & _); try done; [lia|by eapply ops_ok_formats|by left|unfold record_measure; cbn; lia|].
  exists recs. split; [done|]. split; [done|]. split.
  2: { eapply Forall_impl; [exact Hok|]. intros xo Hx. by apply own_address. }
  intros message. assert (drop (length header) message = cycle_bytes width rba recs) as Hd
    by (by apply drop_app_length').
  assert (take (length header) message = header) as Ht by (by apply take_app_length').
  assert (length header <= length message)%nat as Hle by (unfold message; rewrite length_app; lia).
  pose proof (process_records_copying socketp link_type transportp linkp width Hmtu (length message)
    (S (length message)) _ _ (abstract_in_place (mk_session message (length header) (length header) error 1 false false) ltac:(cbn; lia))) as Hcopy.
  unfold abstract in Hcopy. cbn [s_buffer s_rptr s_wptr s_error s_cycle_end s_cycle_open s_reply] in Hcopy.
  rewrite Hd, Ht in Hcopy.
  eapply msim_weaken; [|eapply msim_trans; [exact Hcopy|]].
  2: { eapply (records_perform socketp width rba Hw Hrba maxops nc recs (Copying.mk_state _ _ _ _ _ _)).
       - by eapply records_ready.
       - unfold message. rewrite length_app. pose proof (cycle_bytes_bound width rba maxops nc recs Hrec). lia.
       - done. }
  intros os b (oc & Hrel & s' & -> & Hi & Ho & He & Hf & Hre & Hce).
  destruct os as [s|]; [|done]. destruct Hrel as [Hl' Hord' Hin' Hout' Herr' Hce' _ Hre']. exists s.
  cbn [Copying.c_out Copying.c_open Copying.c_reply Copying.c_cycle_end] in Ho, Hre, Hce.
  rewrite Hlast, last_snoc, Hend in Hce. rewrite Hout', Herr', Ho, Hre', Hre, Hce', Hce.
  split_and!; try done. rewrite Hi in Hin'. apply (f_equal length) in Hin'. rewrite length_drop in Hin'. cbn in Hin'. lia.
Qed.

(** C2: the slave executes the records of a cycle exactly: run on the bytes the
    master formed from the operations [l], the record loop consumes the whole
    message and has the effect of performing on its own bus every operation in
    issue order (status reads where a record asks for them), each at its width
    and its value, at the address given by the application in the endian of the
    operation; and the answer it leaves is a function of the values read, in the
    order of the reads. *)
Theorem slave_executes_cycle {X : Type} `{Env X} `{Bus X}
    (socketp link_type transportp linkp width rba maxops : Z) (nc : bool) (l : list node)
    (header : list Z) (error : Z) (Hmtu : t_mtu link_type <> 0) (Hw : link_width width)
    (Hrba : 0 <= rba < 2 ^ 16) (Hm : 0 < maxops < 2 ^ 32) (Hne : l <> []) (Hl : executable width l) :
  exists recs,
    cycle_records (g_data width) maxops nc (S (2 * length l)) 0 l = Some recs /\
    concat (map (fun r => r_writes r ++ r_reads r) recs) = l /\
    (let message := header ++ cycle_bytes width rba recs in
     msim (fun os b => exists s, os = Some s /\
        take (s_wptr s) (s_buffer s) = header ++ answers width rba recs b.1 false /\
        s_rptr s = length (s_buffer s) /\ s_error s = b.2 /\ Forall2 answers_record recs b.1 /\
        s_reply s = existsb asks recs /\ s_cycle_end s = EB_RECORD_CYC)
      (process_records socketp link_type transportp linkp width (S (length message))
        (mk_session message (length header) (length header) error 1 false false))
      (perform_cycle socketp width recs error)) /\
    Forall (fun xo => (en xo.2 = EB_BIG_ENDIAN -> addr_b (g_data width) xo.2 = op_address xo.2) /\
      (en xo.2 = EB_LITTLE_ENDIAN -> addr_l (g_data width) xo.2 = op_address xo.2) /\
      (en xo.2 = 0 -> addr_b (g_data width) xo.2 = op_address xo.2 /\
                      addr_l (g_data width) xo.2 = op_address xo.2)) l.
Proof. by apply process_cycle. Qed.

(** C3: the answer to a cycle, processed by the requester, writes every value
    read, in the order of the reads, to the configuration address the requester
    asked the answers to be sent to (the odd address for error flags), and does
    nothing else; no answer is formed in return. *)
Theorem answer_reaches_requester {X : Type} `{Env X} `{Bus X}
    (socketp link_type transportp linkp width rba maxops : Z) (nc : bool) (l : list node)
    (recs : list rec) (vss : list (list Z)) (header : list Z) (error : Z)
    (Hmtu : t_mtu link_type <> 0) (Hw : link_width width) (Hrba : 0 <= rba < 2 ^ 16)
    (Hm : 0 < maxops < 2 ^ 32) (Hne : l <> []) (Hl : executable width l)
    (Hrecs : cycle_records (g_data width) maxops nc (S (2 * length l)) 0 l = Some recs)
    (Hvss : Forall2 answers_record recs vss) :
  let message := header ++ answers width rba recs vss false in
  msim (fun os (_ : unit) => exists s, os = Some s /\
      s_wptr s = length header /\ s_rptr s = length (s_buffer s) /\
      s_error s = error /\ s_reply s = false /\ s_cycle_end s <> 0)
    (process_records socketp link_type transportp linkp width (S (length recs + length message))
      (mk_session message (length header) (length header) error 1 false false))
    (deliver socketp width rba recs vss).
Proof.
  intros message. pose proof (proj1 (link_width_cases width Hw)) as Hdata. pose proof Hl as [Hok _].
  destruct (cycle_records_spec (g_data width) maxops nc (S (2 * length l)) 0 l)
    as (recs' & E & Hc & (init & rl & Hlast & Hend & _) & Hrec & _); try done; [lia|by eapply ops_ok_formats|by left|unfold record_measure; cbn; lia|].
  rewrite Hrecs in E. injection E as <-.
  assert (drop (length header) message = answers width rba recs vss false) as Hd by (by apply drop_app_length').
  assert (take (length header) message = header) as Ht by (by apply take_app_length').
  pose proof (process_records_copying socketp link_type transportp linkp width Hmtu (length message)
    (S (length recs + length message)) _ _ (abstract_in_place (mk_session message (length header) (length header) error 1 false false)
      ltac:(cbn; unfold message; rewrite length_app; lia))) as Hcopy.
  unfold abstract in Hcopy. cbn [s_buffer s_rptr s_wptr s_error s_cycle_end s_cycle_open s_reply] in Hcopy.
  rewrite Hd, Ht in Hcopy.
  eapply msim_weaken; [|eapply msim_trans; [exact Hcopy|]].
  2: { eapply (answers_deliver socketp width rba Hw Hrba maxops nc recs vss false (Copying.mk_state _ _ _ _ _ _));
         [by eapply records_ready|done|lia|done|done]. }
  intros os [] (oc & Hrel & s' & -> & Hi & Ho & He & Hr & Hce).
  destruct os as [s|]; [|done]. destruct Hrel as [Hl' Hord' Hin' Hout' Herr' Hce' _ Hrep']. exists s.
  cbn [Copying.c_out Copying.c_open Copying.c_error Copying.c_reply] in *.
  rewrite Ho in Hout'. rewrite Hi in Hin'. apply (f_equal length) in Hout', Hin'.
  rewrite length_take in Hout'. rewrite length_drop in Hin'. cbn [length] in Hin'.
  rewrite Herr', Hrep', He, Hr, Hce'. split_and!; try done; [lia|lia|]. apply Hce.
  split; [done|]. by rewrite Hlast, last_snoc.
Qed.

(** C23: a cycle that does not check for errors is executed as the plain sequence
    of its operations: the record loop, run on the message that carries the
    cycle, has the effect of performing the operations one after the other, with
    no status read between them, as long as there are fewer than [2^32 - 1] bus
    operations; it consumes the message and answers with the values of the
    reads in their order. *)
Theorem unchecked_cycle_is_sequence {X : Type} `{Env X} `{Bus X}
    (socketp link_type transportp linkp width rba maxops : Z) (l : list node)
    (header : list Z) (error : Z) (Hmtu : t_mtu link_type <> 0) (Hw : link_width width)
    (Hrba : 0 <= rba < 2 ^ 16) (Hm : 0 < maxops < 2 ^ 32) (Hne : l <> []) (Hl : executable width l)
    (Hb : bus_count l < maxops) :
  exists recs, cycle_records (g_data width) maxops false (S (2 * length l)) 0 l = Some recs /\
  let message := header ++ cycle_bytes width rba recs in
  msim (fun os b => exists s vss, os = Some s /\ concat vss = b.1 /\
      take (s_wptr s) (s_buffer s) = header ++ answers width rba recs vss false /\
      s_rptr s = length (s_buffer s) /\ s_error s = b.2)
    (process_records socketp link_type transportp linkp width (S (length message))
      (mk_session message (length header) (length header) error 1 false false))
    (perform socketp width l error).
Proof.
  destruct (process_cycle socketp link_type transportp linkp width rba maxops false l header error
    Hmtu Hw Hrba Hm Hne Hl) as (recs & E & Hc & Hrun & _).
  exists recs. split; [done|]. cbv zeta in Hrun |- *.
  assert (Forall (fun r => reads_errors (r_plan r) = false) recs) as Hun.
  { apply (unchecked_records (g_data width) maxops (S (2 * length l)) (proj1 (link_width_cases width Hw)) Hm 0 l recs);
      [lia|lia|eapply ops_ok_formats; [exact Hw|apply Hl]|exact E]. }
  pose proof (perform_cycle_sequence socketp width recs error Hun) as Hseq. rewrite Hc in Hseq.
  eapply msim_weaken; [|eapply msim_trans; [exact Hrun|exact Hseq]].
  intros os b (c & (s & -> & Hout & Hr & He & _) & Hv & Hb2). exists s, c.1. rewrite <- Hb2. done.
Qed.

(** ** Instances *)

Section sample.
Import Sample.
#[local] Existing Instance Slave.sample_bus.

(** Write 17 to 0x100, read 0x200, read 16 bits at 0x302. *)
Definition remote_ops : list node :=
  [(3, mk_operation 0x100 17 EB_OP_WRITE 4 EB_NULL);
   (4, mk_operation 0x200 0 EB_OP_READ_VAL 4 EB_NULL);
   (5, mk_operation 0x302 0 EB_OP_READ_VAL (EB_BIG_ENDIAN .| 2) EB_NULL)].

Lemma link_width_44 : link_width 0x44.
Proof. split; [split; [discriminate|reflexivity]|reflexivity]. Qed.

Lemma remote_ops_executable : executable 0x44 remote_ops.
Proof.
  assert (forall o, existsb (Z.eqb (sz o)) [1; 2; 4; 8] && (sz o <=? 4) && (((en o =? 0) && (sz o =? 4)) || ((en o =? 16) && negb (sz o =? 4)))
    && (0 <=? op_address o) && (op_address o <? 2 ^ (8 * addr_bytes 0x44 o)) && (op_address o mod sz o =? 0)
    && (0 <=? op_value o) && (op_value o <? 2 ^ (8 * sz o)) = true -> op_ok 0x44 o) as Hok.
  { intros o Ho. repeat (apply andb_prop in Ho as [Ho ?]). apply existsb_exists in Ho as (s & Hs & Heq).
    bool_hyps. split; try done; try lia. 
    - by rewrite Heq.
    - apply orb_prop in H4 as [H4|H4]; apply andb_prop in H4 as [H4 _]; apply Z.eqb_eq in H4; [by left|right; by left].
    - change (g_data 68) with 4. apply orb_prop in H4 as [H4|H4]; apply andb_prop in H4 as [H4 H6];
        [|apply negb_true_iff in H6]; lia. }
  split; [|by repeat constructor].
  unfold ops_ok, remote_ops. rewrite !Forall_cons. split_and!; [..|done]; apply Hok; reflexivity.
Qed.

Lemma slave_executes_cycle_witness : exists recs,
  cycle_records 4 40 false 7 0 remote_ops = Some recs /\
  run (process_records 0 1 0 0 0x44 100 (mk_session ([1; 2; 3; 4] ++ cycle_bytes 0x44 0x8000 recs) 4 4 0 1 false false)) (world_of [] [])
    <> None /\
  msim (fun os b => exists s, os = Some s /\
        take (s_wptr s) (s_buffer s) = [1; 2; 3; 4] ++ answers 0x44 0x8000 recs b.1 false)
      (process_records 0 1 0 0 0x44 (S (length ([1; 2; 3; 4] ++ cycle_bytes 0x44 0x8000 recs)))
        (mk_session ([1; 2; 3; 4] ++ cycle_bytes 0x44 0x8000 recs) 4 4 0 1 false false))
      (perform_cycle 0 0x44 recs 0).
Proof.
  destruct (slave_executes_cycle 0 1 0 0 0x44 0x8000 40 false remote_ops [1; 2; 3; 4] 0)
    as (recs & E & _ & Hm & _);
    [discriminate|exact link_width_44|lia|lia|discriminate|exact remote_ops_executable|].
  exists recs. split; [exact E|]. split.
  - vm_compute in E. injection E as <-. vm_compute. discriminate.
  - eapply msim_weaken; [|exact Hm]. intros os b (s & H1 & H2 & _). exists s. exact (conj H1 H2).
Defined.

Lemma answer_reaches_requester_witness : exists recs,
  cycle_records 4 40 false 7 0 remote_ops = Some recs /\
  msim (fun os (_ : unit) => exists s, os = Some s /\ s_reply s = false)
    (process_records 0 1 0 0 0x44 (S (length recs + length ([1; 2; 3; 4] ++ answers 0x44 0x8000 recs [[0x200]; [0x302]] false)))
      (mk_session ([1; 2; 3; 4] ++ answers 0x44 0x8000 recs [[0x200]; [0x302]] false) 4 4 0 1 false false))
    (deliver 0 0x44 0x8000 recs [[0x200]; [0x302]]) /\
  run (deliver 0 0x44 0x8000 recs [[0x200]; [0x302]]) (world_of [] []) =
    Some (tt, [Dev_write 0 0x8000 0x44 0x200; Dev_write 0 0x8000 0x42 0x302]).
Proof.
  destruct (cycle_records 4 40 false 7 0 remote_ops) as [recs|] eqn:E; [|discriminate E].
  exists recs. split; [reflexivity|].
  assert (Forall2 answers_record recs [[0x200]; [0x302]]) as Hv.
  { vm_compute in E. injection E as <-. repeat constructor; [exists 0x200|exists 0x302]; reflexivity. }
  split; [|vm_compute in E; injection E as <-; vm_compute; reflexivity].
  eapply msim_weaken; [|apply (answer_reaches_requester 0 1 0 0 0x44 0x8000 40 false remote_ops recs);
    [discriminate|exact link_width_44|lia|lia|discriminate|exact remote_ops_executable|exact E|exact Hv]].
  intros os [] (s & H1 & _ & _ & _ & H2 & _). exists s. exact (conj H1 H2).
Defined.

Lemma unchecked_cycle_is_sequence_witness : exists recs,
  cycle_records 4 40 false 7 0 remote_ops = Some recs /\
  msim (fun os b => exists s, os = Some s /\ s_rptr s = length (s_buffer s) /\ s_error s = b.2)
    (process_records 0 1 0 0 0x44 (S (length ([1; 2; 3; 4] ++ cycle_bytes 0x44 0x8000 recs)))
      (mk_session ([1; 2; 3; 4] ++ cycle_bytes 0x44 0x8000 recs) 4 4 0 1 false false))
    (perform 0 0x44 remote_ops 0) /\
  run (perform 0 0x44 remote_ops 0) (world_of [] []) =
    Some (([0x200; 0x302], 0), [Dev_write 1 0x100 0x44 17; Dev_read 1 0x200 0x44; Dev_read 1 0x302 0x42]).
Proof.
  destruct (unchecked_cycle_is_sequence 0 1 0 0 0x44 0x8000 40 remote_ops [1; 2; 3; 4] 0) as (recs & E & Hm);
    [discriminate|exact link_width_44|lia|lia|discriminate|exact remote_ops_executable|vm_compute; reflexivity|].
  exists recs. split; [exact E|]. split; [|vm_compute; reflexivity].
  eapply msim_weaken; [|exact Hm]. intros os b (s & vss & H1 & _ & _ & H2 & H3). exists s. exact (conj H1 (conj H2 H3)).
Defined.
End sample.
