(* ===== verification/Handler.v ===== *)
(** The virtual devices of a socket: [eb_socket_attach] and [eb_socket_detach] of
    src/api/glue/handler.c, the device table served below 0x4000 (the first half
    of src/api/glue/sdb.c) and the bus accesses of src/api/glue/readwrite.c. *)
From stdpp Require Import base list gmap.
From Stdlib Require Import ZArith Lia.
From S2P Require Import Prelude Widths Store World Linked Cycle Format Slave.

(** [struct eb_handler] *)
Record eb_handler := mk_handler { eh_device : Z; eh_data : Z; eh_read : Z; eh_write : Z }.

Definition SDB_WISHBONE_LITTLE_ENDIAN : Z := 0x80.
Definition sdb_record_interconnect : Z := 0x00.
Definition sdb_record_device : Z := 0x01.
Definition sdb_record_bridge : Z := 0x02.
Definition sdb_record_integration : Z := 0x80.

Section handler.
Context {X : Type} `{Env X}.

Definition sk_set_first_handler (x : Z) (s : eb_socket) : eb_socket :=
  mk_socket (sk_first_device s) x (sk_first_response s) (sk_last_response s) (sk_aux s) (sk_widths s).

(** Whether [first, last] meets the range of a device. *)
Definition ranges_overlap (new_first new_last : Z) (d : sdb_device) : bool :=
  (new_first <=? addr_last (sdb_comp d)) && (addr_first (sdb_comp d) <=? new_last).

(** [for (i = first; i != EB_NULL; i = address->next) if (test(device)) break;]
    The handler found, if any. *)
Fixpoint find_handler (test : Z -> sdb_device -> bool) (fuel : nat) (addressp : Z)
    : M X (option (Z * eb_handler_address * sdb_device)) :=
  if addressp =? EB_NULL then ret None
  else match fuel with
    | O => fault
    | S fuel =>
      let* address := EB_HANDLER_ADDRESS addressp in
      let* device := sdb_load (ha_device address) in
      if test (ha_device address) device then ret (Some (addressp, address, device))
      else find_handler test fuel (ha_next address)
    end.

Definition eb_socket_attach (socketp : Z) (handler : eb_handler) : M X Z :=
  let* addressp := eb_new in
  if addressp =? EB_NULL then ret EB_OOM
  else
    let* callbackp := eb_new in
    if callbackp =? EB_NULL then eb_free addressp ;;; ret EB_OOM
    else
      let* device := sdb_load (eh_device handler) in
      let new_first := u64 (addr_first (sdb_comp device)) in
      let new_last := u64 (addr_last (sdb_comp device)) in
      if negb (new_first =? addr_first (sdb_comp device)) || negb (new_last =? addr_last (sdb_comp device))
      then ret EB_ADDRESS
      else if new_first <? 0x4000 then ret EB_ADDRESS
      else
        let* socket := EB_SOCKET socketp in
        let* n := pool_fuel in
        let* clash := find_handler (fun _ => ranges_overlap new_first new_last) n (sk_first_handler socket) in
        match clash with
        | Some _ => eb_free callbackp ;;; eb_free addressp ;;; ret EB_ADDRESS
        | None =>
            poke callbackp (IHandlerCallback (mk_handler_callback (eh_data handler) (eh_read handler) (eh_write handler))) ;;;
            poke addressp (IHandlerAddress (mk_handler_address (eh_device handler) callbackp (sk_first_handler socket))) ;;;
            poke socketp (ISocket (sk_set_first_handler addressp socket)) ;;;
            ret EB_OK
        end.

(** [*ptr = next], [ptr] being the socket's list head or the link of the handler
    before. *)
Definition relink_handler (socketp prevp next : Z) : M X unit :=
  if prevp =? EB_NULL then
    let* socket := EB_SOCKET socketp in
    poke socketp (ISocket (sk_set_first_handler next socket))
  else
    let* prev := EB_HANDLER_ADDRESS prevp in
    poke prevp (IHandlerAddress (mk_handler_address (ha_device prev) (ha_callback prev) next)).

(** The search of [eb_socket_detach]: the cell before the device's handler
    ([EB_NULL]: the socket itself) and the handler's cell. *)
Fixpoint find_link (device : Z) (fuel : nat) (prevp i : Z) : M X (Z * Z) :=
  if i =? EB_NULL then ret (prevp, i)
  else match fuel with
    | O => fault
    | S fuel =>
      let* address := EB_HANDLER_ADDRESS i in
      if ha_device address =? device then ret (prevp, i)
      else find_link device fuel i (ha_next address)
    end.

Definition eb_socket_detach (socketp device : Z) : M X Z :=
  let* socket := EB_SOCKET socketp in
  let* n := pool_fuel in
  let* ' (prevp, i) := find_link device n EB_NULL (sk_first_handler socket) in
  if i =? EB_NULL then ret EB_ADDRESS
  else
    let* address := EB_HANDLER_ADDRESS i in
    relink_handler socketp prevp (ha_next address) ;;;
    eb_free (ha_callback address) ;;;
    eb_free i ;;;
    ret EB_OK.

(** * The device table *)

Definition SDB_MAGIC : Z := 0x5344422D.

(** The bytes of [struct sdb_component], big endian. *)
Definition component_bytes (c : sdb_component) (record_type : Z) : list Z :=
  be_bytes 8 (addr_first c) ++ be_bytes 8 (addr_last c) ++
  be_bytes 8 (vendor_id (product c)) ++ be_bytes 4 (device_id (product c)) ++
  be_bytes 4 (sp_version (product c)) ++ be_bytes 4 (sp_date (product c)) ++
  take 19 (sp_name (product c)) ++ [record_type].

(** [width] bytes at [addr], big endian; [None] outside the record. *)
Definition eb_sdb_extract (bytes : list Z) (width addr : Z) : option Z :=
  let width := width .& EB_DATAX in
  if (Z.to_nat addr + Z.to_nat width <=? length bytes)%nat
  then Some (u64 (be_val (slice bytes (Z.to_nat addr) (Z.to_nat width)))) else None.

(** "Software-EB-Bus    " *)
Definition bus_name : list Z :=
  [83; 111; 102; 116; 119; 97; 114; 101; 45; 69; 66; 45; 66; 117; 115; 32; 32; 32; 32].

Definition interconnect_bytes (devices : Z) : list Z :=
  be_bytes 4 SDB_MAGIC ++ be_bytes 2 (devices + 1) ++ [1; 0] ++
  component_bytes (mk_component 0 (2 ^ 64 - 1)
    (mk_product 0x651 0x02398114 e_version e_date bus_name 0)) sdb_record_interconnect.

Definition eb_sdb_interconnect (width addr devices : Z) : option Z :=
  eb_sdb_extract (interconnect_bytes devices) width addr.

Definition device_bytes (d : sdb_device) : list Z :=
  be_bytes 2 (abi_class d) ++ [abi_ver_major d; abi_ver_minor d] ++ be_bytes 4 (bus_specific d) ++
  component_bytes (sdb_comp d) sdb_record_device.

Definition eb_sdb_device (d : sdb_device) (width addr : Z) : option Z :=
  eb_sdb_extract (device_bytes d) width addr.

(** [if (--dev == 0) break;] *)
Fixpoint nth_handler (fuel : nat) (dev addressp : Z) : M X (option eb_handler_address) :=
  if addressp =? EB_NULL then ret None
  else match fuel with
    | O => fault
    | S fuel =>
      let* address := EB_HANDLER_ADDRESS addressp in
      if dev - 1 =? 0 then ret (Some address)
      else nth_handler fuel (dev - 1) (ha_next address)
    end.

Definition eb_sdb (socketp width addr : Z) : M X Z :=
  let* socket := EB_SOCKET socketp in
  if addr <? 0x40 then
    let* l := load_list (T := eb_handler_address) (sk_first_handler socket) in
    lift (eb_sdb_interconnect width addr (Z.of_nat (length l)))
  else
    let* n := pool_fuel in
    let* found := nth_handler n (addr .>> 6) (sk_first_handler socket) in
    match found with
    | None => ret 0
    | Some address =>
        let* device := sdb_load (ha_device address) in
        lift (eb_sdb_device device width (addr .& 0x3f))
    end.

(** * Bus accesses (readwrite.c) *)

Definition contains (d : sdb_device) (addr : Z) : bool :=
  (addr_first (sdb_comp d) <=? addr) && (addr <=? addr_last (sdb_comp d)).

Definition little_endian (d : sdb_device) : bool :=
  negb ((bus_specific d .& SDB_WISHBONE_LITTLE_ENDIAN) =? 0).

(** [*error = ( *error << 1) | fail] *)
Definition push_error (error : Z) (fail : bool) : Z := u64 (error .<< 1) .| c_bool fail.

(** The result is [*error]. *)
Definition socket_write (socketp widths addr_b addr_l value error : Z) : M X Z :=
  if addr_b <? 0x4000 then ret (push_error error true)
  else
    let* socket := EB_SOCKET socketp in
    let* n := pool_fuel in
    let* found := find_handler (fun _ d => contains d addr_b) n (sk_first_handler socket) in
    match found with
    | None => ret (push_error error true)
    | Some (_, address, device) =>
        let* callback := EB_HANDLER_CALLBACK (ha_callback address) in
        if negb (hc_write callback =? 0) then
          let* status := e_dev_write (hc_write callback) (hc_data callback)
                           (if little_endian device then addr_l else addr_b) widths value in
          ret (push_error error (negb (status =? EB_OK)))
        else ret (push_error error true)
    end.

(** The error register as seen through configuration space. *)
Definition socket_read_config (socketp widths addr error : Z) : Z :=
  let buf := be_bytes 8 error ++ replicate 8 0 in
  let len := widths .& EB_DATAX in
  if 8 <=? addr then 0
  else be_val (slice buf (Z.to_nat addr) (Z.to_nat len)).

(** The value read and [*error]. *)
Definition socket_read (socketp widths addr_b addr_l error : Z) : M X (Z * Z) :=
  if addr_b <? 0x4000 then
    let* out := eb_sdb socketp widths addr_b in
    ret (out, u64 (error .<< 1))
  else
    let* socket := EB_SOCKET socketp in
    let* n := pool_fuel in
    let* found := find_handler (fun _ d => contains d addr_b) n (sk_first_handler socket) in
    match found with
    | None => ret (0, push_error error true)
    | Some (_, address, device) =>
        let* callback := EB_HANDLER_CALLBACK (ha_callback address) in
        if negb (hc_read callback =? 0) then
          let* ' (status, out) := e_dev_read (hc_read callback) (hc_data callback)
                                    (if little_endian device then addr_l else addr_b) widths in
          ret (out, push_error error (negb (status =? EB_OK)))
        else ret (0, push_error error true)
    end.
End handler.

(** * The devices on the bus of a socket *)

(** An attached device: its two cells, the address of its descriptor, the
    descriptor and its functions. *)
Record vdev := mk_vdev {
  v_cell : Z; v_callback : Z; v_ptr : Z; v_sdb : sdb_device; v_ops : eb_handler_callback }.

Definition v_node (v : vdev) : Z * eb_handler_address :=
  (v_cell v, mk_handler_address (v_ptr v) (v_callback v) EB_NULL).

(** Devices start above the reserved range and no address belongs to two of them. *)
Definition bus_ok (vs : list vdev) : Prop :=
  Forall (fun v => 0x4000 <= addr_first (sdb_comp (v_sdb v))) vs /\
  forall i j v u a, vs !! i = Some v -> vs !! j = Some u ->
    contains (v_sdb v) a = true -> contains (v_sdb u) a = true -> i = j.

Section spec.
Context {X : Type} `{Env X} `{!PoolExpander e_expand}.
Implicit Types (w : world X) (vs : list vdev).

Definition v_repr w (v : vdev) : Prop :=
  cells (w_pool w) !! v_callback v = Some (IHandlerCallback (v_ops v)) /\
  w_sdb w !! v_ptr v = Some (v_sdb v).

(** The socket's list of handlers stands for [vs]. *)
Definition handlers w (socketp : Z) vs : Prop :=
  exists s, cells (w_pool w) !! socketp = Some (ISocket s) /\
    chain (cells (w_pool w)) (sk_first_handler s) (map v_node vs) /\
    Forall (v_repr w) vs /\ NoDup (map v_callback vs).

Lemma v_node_fst vs : (map v_node vs).*1 = map v_cell vs.
Proof. induction vs as [|v vs IH]; [done|]. cbn. by f_equal. Qed.

Lemma find_handler_spec test vs : forall n p w,
  chain (cells (w_pool w)) p (map v_node vs) -> Forall (v_repr w) vs -> (length vs <= n)%nat ->
  exists r, find_handler test n p w = Some (r, w) /\
    match find (fun v => test (v_ptr v) (v_sdb v)) vs with
    | Some v => exists nx, r = Some (v_cell v, mk_handler_address (v_ptr v) (v_callback v) nx, v_sdb v)
    | None => r = None
    end.
Proof.
  induction vs as [|v vs IH]; intros n p w Hc Hv Hn.
  - cbn in Hc. subst p. exists None. by destruct n.
  - cbn [map] in Hc. destruct Hc as (-> & Hx & k & E & Hc). cbn [v_node fst snd] in *.
    apply Forall_cons in Hv as [[_ Hs] Hv]. destruct n as [|n]; cbn in Hn; [lia|].
    cbn [find_handler find]. rewrite (proj2 (Z.eqb_neq _ EB_NULL)) by done.
    mstep (EB_HANDLER_ADDRESS_some _ _ _ E). cbn [ha_device ha_next set_next handler_node].
    unfold bind, sdb_load. rewrite Hs. destruct (test (v_ptr v) (v_sdb v)).
    + eexists. split; [done|]. by eexists.
    + apply IH; [done|done|lia].
Qed.

Lemma handlers_length w socketp vs s :
  cells (w_pool w) !! socketp = Some (ISocket s) ->
  chain (cells (w_pool w)) (sk_first_handler s) (map v_node vs) ->
  (length vs <= size (cells (w_pool w)))%nat.
Proof. intros _ Hc. pose proof (chain_length _ _ _ Hc) as Hl. by rewrite length_map in Hl. Qed.

Lemma EB_SOCKET_get w socketp s : cells (w_pool w) !! socketp = Some (ISocket s) ->
  EB_SOCKET socketp w = Some (s, w).
Proof. apply EB_SOCKET_some. Qed.

(** Cells of the list are allocated. *)
Lemma handlers_live w socketp vs y :
  handlers w socketp vs -> y = socketp \/ y ∈ map v_cell vs \/ y ∈ map v_callback vs ->
  live (cells (w_pool w)) y.
Proof.
  intros (s & Es & Hc & Hv & _) [->|[Hy|Hy]].
  - by exists (ISocket s).
  - eapply (chain_live (T := eb_handler_address)); [exact Hc|by rewrite v_node_fst].
  - apply list_elem_of_fmap in Hy as (v & -> & Hin).
    destruct (proj1 (Forall_forall _ _) Hv v Hin) as [E _]. by eexists.
Qed.

Lemma handlers_frame (S : Z -> Prop) w w' socketp vs :
  handlers w socketp vs -> frame S w w' ->
  (forall y, y = socketp \/ y ∈ map v_cell vs \/ y ∈ map v_callback vs -> ~ S y) ->
  handlers w' socketp vs.
Proof.
  intros Hh (_ & Ew & Hf) HS.
  assert (forall y, y = socketp \/ y ∈ map v_cell vs \/ y ∈ map v_callback vs ->
    cells (w_pool w') !! y = cells (w_pool w) !! y) as Hsame
    by (intros y Hy; apply Hf; [by apply HS|by eapply handlers_live]).
  destruct Hh as (s & Es & Hc & Hv & Hnd). exists s. split_and!.
  - rewrite Hsame by tauto. done.
  - eapply (chain_agree (T := eb_handler_address)); [|exact Hc]. intros y Hy. rewrite v_node_fst in Hy. apply Hsame. tauto.
  - apply Forall_forall. intros v Hin. destruct (proj1 (Forall_forall _ _) Hv v Hin) as [E1 E2].
    split; [|rewrite Ew; done]. rewrite Hsame; [done|]. right. right. apply list_elem_of_fmap. eauto.
  - done.
Qed.

Lemma contains_bounds d a : contains d a = true <->
  addr_first (sdb_comp d) <= a <= addr_last (sdb_comp d).
Proof. unfold contains. rewrite andb_true_iff, !Z.leb_le. done. Qed.

(** A device whose range meets none of the others can be added. *)
Lemma bus_ok_cons v vs :
  bus_ok vs -> 0x4000 <= addr_first (sdb_comp (v_sdb v)) ->
  (forall u, In u vs -> ranges_overlap (addr_first (sdb_comp (v_sdb v))) (addr_last (sdb_comp (v_sdb v))) (v_sdb u) = false) ->
  bus_ok (v :: vs).
Proof.
  intros [Hlow Hone] Hv Hno. split; [by constructor|].
  assert (forall j u a, vs !! j = Some u -> contains (v_sdb v) a = true -> contains (v_sdb u) a = true -> False) as Hclash.
  { intros j u a Hj Hc1 Hc2. apply contains_bounds in Hc1, Hc2.
    assert (In u vs) as Hin by (apply list_elem_of_In; by eapply list_elem_of_lookup_2).
    specialize (Hno u Hin). unfold ranges_overlap in Hno.
    apply andb_false_iff in Hno as [Hno|Hno]; bool_hyps; lia. }
  intros [|i] [|j] x u a Hi Hj Hx Hu; cbn in Hi, Hj.
  - done.
  - injection Hi as <-. exfalso. by eapply Hclash.
  - injection Hj as <-. exfalso. by eapply Hclash.
  - f_equal. by eapply Hone.
Qed.

Lemma bus_ok_remove l1 v l2 : bus_ok (l1 ++ v :: l2) -> bus_ok (l1 ++ l2).
Proof.
  intros [Hlow Hone]. split.
  - apply Forall_app in Hlow as [H1 H2]. apply Forall_cons in H2 as [_ H2]. by apply Forall_app.
  - assert (forall i x, (l1 ++ l2) !! i = Some x ->
      (l1 ++ v :: l2) !! (if decide (i < length l1)%nat then i else S i) = Some x) as Hshift.
    { intros i x E. destruct (decide (i < length l1)%nat) as [Hl|Hl].
      - rewrite lookup_app_l in E |- * by done. done.
      - rewrite lookup_app_r in E by lia. rewrite lookup_app_r by lia.
        by replace (S i - length l1)%nat with (S (i - length l1)) by lia. }
    intros i j x u a Hi Hj Hx Hu. apply Hshift in Hi, Hj.
    pose proof (Hone _ _ _ _ _ Hi Hj Hx Hu) as Heq. do 2 case_decide; lia.
Qed.

(** The device found at an address is the only one there. *)
Lemma bus_find vs v a :
  bus_ok vs -> In v vs -> contains (v_sdb v) a = true ->
  find (fun v => contains (v_sdb v) a) vs = Some v.
Proof.
  intros [_ Hone] Hin Hc.
  destruct (find (fun v => contains (v_sdb v) a) vs) as [u|] eqn:E.
  - apply find_some in E as [Hu Hcu]. apply list_elem_of_In, list_elem_of_lookup in Hu as [i Hi].
    apply list_elem_of_In, list_elem_of_lookup in Hin as [j Hj].
    rewrite (Hone i j u v a Hi Hj Hcu Hc) in Hi. congruence.
  - apply (find_none _ _ E) in Hin. congruence.
Qed.

Lemma frame_sdb (S : Z -> Prop) w w' : frame S w w' -> w_sdb w' = w_sdb w.
Proof. intros (_ & E & _). by rewrite E. Qed.

(** What attaching can do to a socket that has the devices [vs]. *)
Definition attach_result (socketp : Z) (h : eb_handler) (d : sdb_device) vs w (st : Z) w' : Prop :=
  let overlaps u := ranges_overlap (addr_first (sdb_comp d)) (addr_last (sdb_comp d)) (v_sdb u) in
  match st with
  | 0 => exists v, v_ptr v = eh_device h /\ v_sdb v = d /\
           v_ops v = mk_handler_callback (eh_data h) (eh_read h) (eh_write h) /\
           handlers w' socketp (v :: vs) /\ bus_ok (v :: vs)
  | -2 => (addr_first (sdb_comp d) < 0x4000 \/ exists u, In u vs /\ overlaps u = true) /\
          handlers w' socketp vs
  | -8 => handlers w' socketp vs
  | _ => False
  end.

(** The cells of the new handler are filled in and linked. *)
Lemma link_handler w2 socketp vs s x1 x2 h d :
  pool_ok w2 -> handlers w2 socketp vs -> cells (w_pool w2) !! socketp = Some (ISocket s) ->
  x1 <> EB_NULL -> x1 <> x2 -> cells (w_pool w2) !! x1 = Some IRaw -> cells (w_pool w2) !! x2 = Some IRaw ->
  w_sdb w2 !! eh_device h = Some d ->
  exists w', (poke x2 (IHandlerCallback (mk_handler_callback (eh_data h) (eh_read h) (eh_write h))) ;;;
      poke x1 (IHandlerAddress (mk_handler_address (eh_device h) x2 (sk_first_handler s))) ;;;
      poke socketp (ISocket (sk_set_first_handler x1 s)) ;;; ret EB_OK) w2 = Some (EB_OK, w') /\
    frame (fun y => y = x1 \/ y = x2 \/ y = socketp) w2 w' /\
    handlers w' socketp
      (mk_vdev x1 x2 (eh_device h) d (mk_handler_callback (eh_data h) (eh_read h) (eh_write h)) :: vs).
Proof.
  intros Hw Hh Es Hn Hne E1 E2 Hd. pose proof Hh as (s' & Es' & Hc & Hv & Hnd).
  rewrite Es in Es'. injection Es' as <-.
  assert (forall y, y ∈ map v_cell vs \/ y ∈ map v_callback vs -> y <> x1 /\ y <> x2 /\ y <> socketp) as Hfresh.
  { intros y Hy. assert (exists it, cells (w_pool w2) !! y = Some it /\ it <> IRaw /\ forall s, it <> ISocket s) as (it & E & N1 & N2).
    { destruct Hy as [Hy|Hy].
      - destruct (chain_cell (T := eb_handler_address) _ _ _ y Hc) as (t & E); [by rewrite v_node_fst|]. by exists (to_item t).
      - apply list_elem_of_fmap in Hy as (v & -> & Hin). destruct (proj1 (Forall_forall _ _) Hv v Hin) as [E _]. by eexists. }
    split_and!; intros ->; congruence. }
  assert (socketp <> x1 /\ socketp <> x2) as [Hs1 Hs2] by (split; intros ->; congruence).
  set (P := fun y => y = x1 \/ y = x2 \/ y = socketp).
  destruct (poke_frame P x2 (IHandlerCallback (mk_handler_callback (eh_data h) (eh_read h) (eh_write h))) _ w2 Hw E2)
    as (w3 & R3 & F3 & C3 & _); [done|done|unfold P; tauto|].
  destruct (poke_frame P x1 (IHandlerAddress (mk_handler_address (eh_device h) x2 (sk_first_handler s))) IRaw w3 (proj1 F3))
    as (w4 & R4 & F4 & C4 & _); [by rewrite C3, lookup_insert_ne by congruence|done|done|unfold P; tauto|].
  destruct (poke_frame P socketp (ISocket (sk_set_first_handler x1 s)) (ISocket s) w4 (proj1 F4))
    as (w5 & R5 & F5 & C5 & _); [by rewrite C4, C3, !lookup_insert_ne by congruence|done|done|unfold P; tauto|].
  exists w5. mstep R3. mstep R4. mstep R5. split; [done|]. split.
  { eapply frame_trans; [eapply frame_trans; [exact F3|exact F4|]|exact F5|]; naive_solver. }
  assert (cells (w_pool w5) !! x1 = Some (IHandlerAddress (mk_handler_address (eh_device h) x2 (sk_first_handler s))) /\
          cells (w_pool w5) !! x2 = Some (IHandlerCallback (mk_handler_callback (eh_data h) (eh_read h) (eh_write h))) /\
          cells (w_pool w5) !! socketp = Some (ISocket (sk_set_first_handler x1 s)) /\
          forall y, ~ P y -> cells (w_pool w5) !! y = cells (w_pool w2) !! y) as (L1 & L2 & L3 & L4).
  { rewrite C5, C4, C3. split_and!.
    - by rewrite lookup_insert_ne, lookup_insert_eq by congruence.
    - by rewrite !lookup_insert_ne, lookup_insert_eq by congruence.
    - by rewrite lookup_insert_eq.
    - intros y Hy. unfold P in Hy. rewrite !lookup_insert_ne by naive_solver. done. }
  assert (forall y, y ∈ map v_cell vs \/ y ∈ map v_callback vs -> cells (w_pool w5) !! y = cells (w_pool w2) !! y) as Hsame
    by (intros y Hy; apply L4; specialize (Hfresh y Hy); unfold P; naive_solver).
  assert (w_sdb w5 = w_sdb w2) as Hsd.
  { by rewrite (frame_sdb _ _ _ F5), (frame_sdb _ _ _ F4), (frame_sdb _ _ _ F3). }
  exists (sk_set_first_handler x1 s). split; [done|]. cbn [map v_node v_cell v_ptr v_callback sk_first_handler sk_set_first_handler]. split_and!.
  - cbn [chain]. split; [done|]. split; [done|]. exists (sk_first_handler s). split; [exact L1|].
    eapply (chain_agree (T := eb_handler_address)); [|exact Hc]. intros y Hy. rewrite v_node_fst in Hy. apply Hsame. tauto.
  - constructor; [split; [exact L2|cbn; by rewrite Hsd]|].
    apply Forall_forall. intros v Hin. destruct (proj1 (Forall_forall _ _) Hv v Hin) as [Ea Eb].
    split; [|by rewrite Hsd]. rewrite Hsame; [done|]. right. apply list_elem_of_fmap. eauto.
  - constructor; [|done]. intros Hin. by destruct (Hfresh x2 (or_intror Hin)) as (_ & ? & _).
Qed.

(** C19: attaching a virtual device succeeds exactly by putting it in front of the
    list, and only if its range starts above the reserved 0x4000 and meets no
    other device, so that the bus stays unambiguous; otherwise the devices stay
    as they were. *)
Theorem attach_keeps_bus (socketp : Z) (h : eb_handler) (d : sdb_device) vs w
    (Hw : pool_ok w) (Hh : handlers w socketp vs) (Hb : bus_ok vs)
    (Hd : w_sdb w !! eh_device h = Some d)
    (Hr : 0 <= addr_first (sdb_comp d) < 2 ^ 64 /\ 0 <= addr_last (sdb_comp d) < 2 ^ 64) :
  exists st w', eb_socket_attach socketp h w = Some (st, w') /\ pool_ok w' /\
    attach_result socketp h d vs w st w'.
Proof.
  unfold eb_socket_attach. destruct Hr as [Hr1 Hr2].
  destruct (eb_new_spec w Hw) as (x1 & p1 & R1 & Hw1 & [[-> ->]|Ha1]); mstep R1.
  { rewrite Z.eqb_refl. exists EB_OOM, w. rewrite upd_pool_id. done. }
  set (w1 := upd_pool p1 w) in *. pose proof (alloc_frame _ _ _ Ha1 Hw1) as F1.
  assert (handlers w1 socketp vs) as Hh1 by (eapply handlers_frame; [exact Hh|exact F1|tauto]).
  pose proof Ha1 as (Hn1 & _ & E1 & Hl1 & _). rewrite (proj2 (Z.eqb_neq x1 EB_NULL)) by done.
  destruct (eb_new_spec w1 Hw1) as (x2 & p2 & R2 & Hw2 & [[-> ->]|Ha2]); mstep R2.
  { rewrite Z.eqb_refl, upd_pool_id.
    destruct (free_frame (fun y => y = x1) x1 w1 Hw1) as (w2 & R3 & F3 & _); [by exists IRaw|done|].
    mstep R3. exists EB_OOM, w2. split; [done|]. split; [apply F3|].
    eapply handlers_frame; [exact Hh1|exact F3|]. intros y Hy ->.
    destruct Ha1 as (_ & Hdead & _). apply Hdead. by eapply handlers_live. }
  set (w2 := upd_pool p2 w1) in *. pose proof (alloc_frame _ _ _ Ha2 Hw2) as F2.
  assert (handlers w2 socketp vs) as Hh2 by (eapply handlers_frame; [exact Hh1|exact F2|tauto]).
  pose proof Ha2 as (Hn2 & Hdead2 & E2 & Hl2 & Hkeep2 & _). rewrite (proj2 (Z.eqb_neq x2 EB_NULL)) by done.
  assert (live (cells (w_pool w1)) x1) as Hlive1 by (by exists IRaw).
  assert (x1 <> x2) as Hne by (intros ->; done).
  assert (cells (w_pool w2) !! x1 = Some IRaw) as E1' by (by apply Hkeep2).
  unfold bind at 1, sdb_load. change (w_sdb w2) with (w_sdb w). rewrite Hd.
  rewrite !(wrap_small 64) by done. rewrite !Z.eqb_refl. cbn [negb orb].
  destruct (Z.ltb_spec (addr_first (sdb_comp d)) 0x4000) as [Hlow|Hlow].
  { exists EB_ADDRESS, w2. split; [done|]. split; [done|]. split; [by left|done]. }
  pose proof Hh2 as (s & Es & Hc & Hv & Hnd). mstep (EB_SOCKET_some _ _ _ Es).
  unfold pool_fuel, gets. rewrite bind_some with (a := size (cells (w_pool w2))) (w' := w2) by done.
  destruct (find_handler_spec (fun _ => ranges_overlap (addr_first (sdb_comp d)) (addr_last (sdb_comp d))) vs
    (size (cells (w_pool w2))) _ w2 Hc Hv (handlers_length _ _ _ _ Es Hc)) as (r & Rf & Hf).
  mstep Rf. destruct (find _ vs) as [u|] eqn:Eu; [destruct Hf as (nx & ->)|subst r].
  - apply find_some in Eu as [Hin Hov].
    destruct (free_frame (fun y => y = x2) x2 w2 Hw2) as (w3 & R3 & F3 & L3); [by exists IRaw|done|].
    destruct (free_frame (fun y => y = x1) x1 w3 (proj1 F3)) as (w4 & R4 & F4 & _); [by apply L3; split; [exists IRaw|]|done|].
    mstep R3. mstep R4. exists EB_ADDRESS, w4. split; [done|]. split; [apply F4|].
    split; [right; by exists u|].
    assert (forall y, y = socketp \/ y ∈ map v_cell vs \/ y ∈ map v_callback vs -> y <> x1 /\ y <> x2) as Hfr.
    { intros y Hy. split; intros ->.
      - destruct Ha1 as (_ & Hdead & _). apply Hdead. by eapply handlers_live.
      - apply Hdead2. by eapply handlers_live. }
    eapply handlers_frame; [eapply handlers_frame; [exact Hh2|exact F3|]|exact F4|]; naive_solver.
  - destruct (link_handler w2 socketp vs s x1 x2 h d Hw2 Hh2 Es Hn1 Hne E1' E2 Hd) as (w' & R & F & Hh').
    exists EB_OK, w'. split; [exact R|]. split; [apply F|].
    eexists. split_and!; [| | |exact Hh'|]; try done.
    apply bus_ok_cons; [done|cbn; lia|]. intros v Hin. cbn [v_sdb].
    exact (find_none _ _ Eu v Hin).
Qed.

Lemma bus_lookup socketp vs a w (Hh : handlers w socketp vs) :
  exists s r, EB_SOCKET socketp w = Some (s, w) /\
    (forall n, n = size (cells (w_pool w)) ->
      find_handler (fun _ d => contains d a) n (sk_first_handler s) w = Some (r, w)) /\
    match find (fun v => contains (v_sdb v) a) vs with
    | Some v => exists nx, r = Some (v_cell v, mk_handler_address (v_ptr v) (v_callback v) nx, v_sdb v)
    | None => r = None
    end.
Proof.
  destruct Hh as (s & Es & Hc & Hv & _).
  destruct (find_handler_spec (fun _ d => contains d a) vs (size (cells (w_pool w))) _ w Hc Hv
    (handlers_length _ _ _ _ Es Hc)) as (r & Rf & Hf).
  exists s, r. split; [by apply EB_SOCKET_some|]. split; [by intros n ->|exact Hf].
Qed.

(** C18: bus accesses above the reserved range go to the one device at the
    address, with the address in the device's endian, and shift its verdict into
    the error register; where no device is attached, or the device has no such
    function, nothing happens but an error bit. *)
Theorem bus_access_dispatch (socketp widths addr_b addr_l value error : Z) vs w
    (Hh : handlers w socketp vs) (Hb : bus_ok vs) (Ha : 0x4000 <= addr_b) :
  (forall v, In v vs -> contains (v_sdb v) addr_b = true ->
     let addr := if little_endian (v_sdb v) then addr_l else addr_b in
     socket_write socketp widths addr_b addr_l value error w =
       (if hc_write (v_ops v) =? 0 then Some (push_error error true, w)
        else bind (e_dev_write (hc_write (v_ops v)) (hc_data (v_ops v)) addr widths value)
               (fun status => ret (push_error error (negb (status =? EB_OK)))) w) /\
     socket_read socketp widths addr_b addr_l error w =
       (if hc_read (v_ops v) =? 0 then Some ((0, push_error error true), w)
        else bind (e_dev_read (hc_read (v_ops v)) (hc_data (v_ops v)) addr widths)
               (fun '(status, out) => ret (out, push_error error (negb (status =? EB_OK)))) w)) /\
  ((forall v, In v vs -> contains (v_sdb v) addr_b = false) ->
     socket_write socketp widths addr_b addr_l value error w = Some (push_error error true, w) /\
     socket_read socketp widths addr_b addr_l error w = Some ((0, push_error error true), w)).
Proof.
  destruct (bus_lookup socketp vs addr_b w Hh) as (s & r & Es & Rf & Hf).
  unfold socket_write, socket_read. rewrite (proj2 (Z.ltb_ge _ _)) by lia.
  split.
  - intros v Hin Hcv. rewrite (bus_find vs v addr_b Hb Hin Hcv) in Hf. destruct Hf as (nx & ->).
    destruct Hh as (_ & _ & _ & Hv & _).
    apply list_elem_of_In in Hin. destruct (proj1 (Forall_forall _ _) Hv v Hin) as [Ecb _].
    split; mstep Es; unfold pool_fuel, gets; rewrite bind_some with (a := size (cells (w_pool w))) (w' := w) by done;
      mstep (Rf _ eq_refl); cbn [ha_callback]; mstep (EB_HANDLER_CALLBACK_some _ _ _ Ecb).
    + by destruct (hc_write (v_ops v) =? 0).
    + by destruct (hc_read (v_ops v) =? 0).
  - intros Hno. destruct (find _ vs) as [v|] eqn:E.
    + apply find_some in E as [Hin Hcv]. by rewrite (Hno v Hin) in Hcv.
    + subst r. split; mstep Es; unfold pool_fuel, gets; rewrite bind_some with (a := size (cells (w_pool w))) (w' := w) by done;
        by mstep (Rf _ eq_refl).
Qed.

Lemma find_link_spec device v l2 w : v_ptr v = device -> forall l1 n prev p,
  chain (cells (w_pool w)) p (map v_node (l1 ++ v :: l2)) ->
  Forall (fun u => v_ptr u <> device) l1 -> (length (l1 ++ v :: l2) <= n)%nat ->
  find_link device n prev p w =
    Some ((match last l1 with Some u => v_cell u | None => prev end, v_cell v), w).
Proof.
  intros Hv. induction l1 as [|u l1 IH]; intros n prev p Hc Hne Hn; (destruct n as [|n]; cbn in Hn; [lia|]);
    cbn [app map] in Hc; destruct Hc as (-> & Hx & k & E & Hc); cbn [v_node fst snd] in *;
    cbn [find_link]; rewrite (proj2 (Z.eqb_neq _ EB_NULL)) by done;
    mstep (EB_HANDLER_ADDRESS_some _ _ _ E); cbn [ha_device ha_next set_next handler_node].
  - by rewrite (proj2 (Z.eqb_eq _ _)) by done.
  - apply Forall_cons in Hne as [Hu Hne]. rewrite (proj2 (Z.eqb_neq _ _)) by done.
    rewrite (IH n (v_cell u) k Hc Hne) by lia. rewrite last_cons. by destruct (last l1).
Qed.

Lemma find_link_none device w : forall vs n prev p,
  chain (cells (w_pool w)) p (map v_node vs) -> Forall (fun u => v_ptr u <> device) vs ->
  (length vs <= n)%nat -> exists q, find_link device n prev p w = Some ((q, EB_NULL), w).
Proof.
  induction vs as [|u vs IH]; intros n prev p Hc Hne Hn.
  - cbn in Hc. subst p. exists prev. by destruct n.
  - cbn [map] in Hc. destruct Hc as (-> & Hx & k & E & Hc). cbn [v_node fst snd] in *.
    destruct n as [|n]; cbn in Hn; [lia|]. cbn [find_link]. rewrite (proj2 (Z.eqb_neq _ EB_NULL)) by done.
    mstep (EB_HANDLER_ADDRESS_some _ _ _ E). cbn [ha_device ha_next set_next handler_node].
    apply Forall_cons in Hne as [Hu Hne]. rewrite (proj2 (Z.eqb_neq _ _)) by done.
    apply IH; [done|done|lia].
Qed.

(** The list without the handler [v], before its cells are freed. *)
Lemma relink_spec socketp l1 v l2 w :
  pool_ok w -> handlers w socketp (l1 ++ v :: l2) ->
  exists w' nx, cells (w_pool w) !! v_cell v = Some (IHandlerAddress (mk_handler_address (v_ptr v) (v_callback v) nx)) /\
    relink_handler socketp (match last l1 with Some u => v_cell u | None => EB_NULL end) nx w = Some (tt, w') /\
    frame (fun y => y = socketp \/ y ∈ map v_cell l1) w w' /\ handlers w' socketp (l1 ++ l2) /\
    (forall y, live (cells (w_pool w')) y <-> live (cells (w_pool w)) y).
Proof.
  intros Hw (s & Es & Hc & Hv & Hnd). rewrite map_app in Hc. cbn [map] in Hc.
  assert (NoDup (map v_callback (l1 ++ l2))) as Hnd'.
  { rewrite map_app in Hnd |- *. cbn [map] in Hnd. apply NoDup_app in Hnd as (H1 & H2 & H3).
    apply NoDup_cons in H3 as [_ H3]. apply NoDup_app. split_and!; try done. set_solver. }
  apply Forall_app in Hv as [Hv1 Hv2]. apply Forall_cons in Hv2 as [Hvv Hv2].
  assert (Forall (v_repr w) (l1 ++ l2)) as Hv' by (by apply Forall_app).
  assert (forall w', frame (fun y => y = socketp \/ y ∈ map v_cell l1) w w' -> Forall (v_repr w') (l1 ++ l2)) as Hrepr.
  { intros w' Hf. eapply Forall_impl; [exact Hv'|]. intros u [E1 E2]. split; [|by rewrite (frame_sdb _ _ _ Hf)].
    destruct Hf as (_ & _ & Hf). rewrite Hf; [done| |by eexists].
    intros [Heq|Hin]; [by rewrite Heq, Es in E1|].
    destruct (chain_cell (T := eb_handler_address) _ _ _ (v_callback u) Hc) as (t & E); [|by rewrite E in E1].
    rewrite fmap_app, elem_of_app. left. by rewrite v_node_fst. }
  assert (forall y, y ∈ map v_cell (l1 ++ v :: l2) -> y <> socketp) as Hns.
  { intros y Hy ->. destruct (chain_cell (T := eb_handler_address) _ _ _ socketp Hc) as (t & E); [|by rewrite E in Es].
    by rewrite fmap_app, fmap_cons, !v_node_fst, map_app in *. }
  destruct l1 as [|u0 l0'] using rev_ind; [|clear IHl0'].
  - cbn [app map last] in *. destruct Hc as (Hp & Hx & nx & E & Hc). cbn [fst snd v_node] in *.
    unfold relink_handler. rewrite Z.eqb_refl.
    destruct (poke_frame (fun y => y = socketp \/ y ∈ @nil Z) socketp (ISocket (sk_set_first_handler nx s)) _ w Hw Es)
      as (w' & R & F & C & L); [done|done|by left|].
    exists w', nx. split; [exact E|]. rewrite (bind_some _ _ _ _ _ (EB_SOCKET_some _ _ _ Es)).
    split; [exact R|]. split; [exact F|]. split; [|exact L].
    exists (sk_set_first_handler nx s). rewrite C, lookup_insert_eq. split_and!; [done| |by apply Hrepr|done].
    cbn [sk_first_handler sk_set_first_handler]. apply chain_insert_ne; [|exact Hc].
    rewrite v_node_fst. intros Hin. by apply (Hns socketp); [right|].
  - rewrite last_snoc. rewrite map_app, <- app_assoc in Hc. cbn [map app] in Hc.
    destruct (chain_remove_next _ _ _ _ _ _ _ _ Hc) as (nx & Ex & Ey & Hc1 & Hc2).
    cbn [fst snd v_node set_next handler_node ha_device ha_callback] in *.
    assert (v_cell u0 <> EB_NULL) as Hnn.
    { intros Heq. pose proof Hw as [Hwf _]. apply (wf_null _ Hwf). rewrite <- Heq. by eexists. }
    unfold relink_handler. rewrite (proj2 (Z.eqb_neq _ EB_NULL)) by done.
    assert (v_cell u0 ∈ map v_cell (l0' ++ [u0])) as Hu0 by (rewrite map_app; set_solver).
    destruct (poke_frame (fun y => y = socketp \/ y ∈ map v_cell (l0' ++ [u0])) (v_cell u0)
      (IHandlerAddress (mk_handler_address (v_ptr u0) (v_callback u0) nx)) _ w Hw Ey)
      as (w' & R & F & C & L); [done|done|by right|].
    exists w', nx. split; [exact Ex|]. rewrite (bind_some _ _ _ _ _ (EB_HANDLER_ADDRESS_some _ _ _ Ey)).
    split; [exact R|]. split; [exact F|]. split; [|exact L].
    exists s. rewrite C. split_and!; [|rewrite map_app, map_app, <- app_assoc; exact Hc2|by apply Hrepr|done].
    rewrite lookup_insert_ne; [done|]. apply Hns. rewrite map_app. set_solver.
Qed.

(** Detaching a device removes the first handler attached for it, frees its
    two cells and nothing else, and leaves the other devices in place and the bus
    unambiguous; a device that is not attached is refused without effect. *)
Theorem detach_removes_device (socketp device : Z) vs w
    (Hw : pool_ok w) (Hh : handlers w socketp vs) (Hb : bus_ok vs) :
  (Forall (fun u => v_ptr u <> device) vs -> eb_socket_detach socketp device w = Some (EB_ADDRESS, w)) /\
  (forall l1 v l2, vs = l1 ++ v :: l2 -> v_ptr v = device -> Forall (fun u => v_ptr u <> device) l1 ->
     exists w', eb_socket_detach socketp device w = Some (EB_OK, w') /\ pool_ok w' /\
       handlers w' socketp (l1 ++ l2) /\ bus_ok (l1 ++ l2) /\
       forall y, live (cells (w_pool w')) y <->
                 live (cells (w_pool w)) y /\ y <> v_cell v /\ y <> v_callback v).
Proof.
  pose proof Hh as (s & Es & Hc & Hv & Hnd).
  assert (forall k : nat -> M X Z, (bind pool_fuel k) w = (k (size (cells (w_pool w)))) w) as Hfuel by (intros; done).
  pose proof (handlers_length _ _ _ _ Es Hc) as Hlen.
  unfold eb_socket_detach. split.
  - intros Hne. mstep (EB_SOCKET_some _ _ _ Es). rewrite Hfuel.
    destruct (find_link_none device w vs _ EB_NULL _ Hc Hne Hlen) as (q & R). by mstep R.
  - intros l1 v l2 -> Hd Hne. mstep (EB_SOCKET_some _ _ _ Es). rewrite Hfuel.
    mstep (find_link_spec device v l2 w Hd l1 _ EB_NULL _ Hc Hne Hlen).
    destruct (relink_spec socketp l1 v l2 w Hw Hh) as (w1 & nx & Ev & R1 & F1 & Hh1 & L1).
    assert (v_cell v <> EB_NULL) as Hnn.
    { intros Heq. pose proof Hw as [Hwf _]. apply (wf_null _ Hwf). rewrite <- Heq. by eexists. }
    rewrite (proj2 (Z.eqb_neq _ EB_NULL)) by done. mstep (EB_HANDLER_ADDRESS_some _ _ _ Ev).
    cbn [ha_next ha_callback]. mstep R1.
    assert (v ∈ l1 ++ v :: l2) as Hin by set_solver.
    destruct (proj1 (Forall_forall _ _) Hv v Hin) as [Ecb _].
    assert (v_callback v <> v_cell v) as Hcc by (intros Heq; rewrite Heq in Ecb; congruence).
    assert ((v_callback v ∉ map v_callback (l1 ++ l2)) /\ (v_cell v ∉ map v_cell (l1 ++ l2))) as [Hd1 Hd2].
    { pose proof (chain_NoDup _ _ _ Hc) as Hnc. rewrite v_node_fst in Hnc.
      rewrite map_app in Hnd, Hnc |- *. rewrite map_app. cbn [map] in Hnd, Hnc.
      apply NoDup_app in Hnd as (_ & G2 & G3). apply NoDup_cons in G3 as [G3 _].
      apply NoDup_app in Hnc as (_ & G5 & G6). apply NoDup_cons in G6 as [G6 _]. set_solver. }
    assert (forall y, y = v_callback v \/ y = v_cell v ->
      ~ (y = socketp \/ y ∈ map v_cell (l1 ++ l2) \/ y ∈ map v_callback (l1 ++ l2))) as Hsep.
    { pose proof Hh1 as (s1 & Es1 & Hc1 & Hv1 & _).
      assert (forall y, y ∈ map v_cell (l1 ++ l2) -> exists h, cells (w_pool w1) !! y = Some (IHandlerAddress h)) as Hca.
      { intros y Hy. destruct (chain_cell (T := eb_handler_address) _ _ _ y Hc1) as (t & E); [by rewrite v_node_fst|eauto]. }
      assert (cells (w_pool w1) !! v_callback v = Some (IHandlerCallback (v_ops v)) /\
              cells (w_pool w1) !! v_cell v = Some (IHandlerAddress (mk_handler_address (v_ptr v) (v_callback v) nx))) as [G1 G2].
      { destruct F1 as (_ & _ & F1). split; (rewrite F1; [done| |by eexists]).
        - intros [G|G]; [rewrite G, Es in Ecb; done|].
          destruct (chain_cell (T := eb_handler_address) _ _ _ (v_callback v) Hc) as (t & E);
            [rewrite v_node_fst, map_app; set_solver|by rewrite E in Ecb].
        - intros [G|G]; [rewrite G, Es in Ev; done|]. apply Hd2. rewrite map_app. set_solver. }
      intros y [->| ->] [G|[G|G]]; try done.
      - rewrite G, Es1 in G1. done.
      - destruct (Hca _ G) as (h & E). rewrite E in G1. done.
      - rewrite G, Es1 in G2. done.
      - apply list_elem_of_fmap in G as (u & Hu & Hinu).
        destruct (proj1 (Forall_forall _ _) Hv1 u Hinu) as [E _]. rewrite <- Hu, G2 in E. done. }
    destruct (free_frame (fun y => y = v_callback v) (v_callback v) w1 (proj1 F1)) as (w2 & R2 & F2 & L2);
      [by apply L1; eexists|done|].
    destruct (free_frame (fun y => y = v_cell v) (v_cell v) w2 (proj1 F2)) as (w3 & R3 & F3 & L3);
      [apply L2; split; [apply L1; by eexists|done]|done|].
    mstep R2. mstep R3. exists w3. split; [done|]. split; [apply F3|]. split.
    + eapply handlers_frame; [eapply handlers_frame; [exact Hh1|exact F2|]|exact F3|]; naive_solver.
    + split; [by eapply bus_ok_remove|]. intros y. rewrite L3, L2, L1. tauto.
Qed.

(** ** The table *)

(** What a reader of the bus finds below 0x4000: the interconnect record and one
    record per device, then zeroes. *)
Definition table_bytes vs : list Z :=
  interconnect_bytes (Z.of_nat (length vs)) ++ concat (map (fun v => device_bytes (v_sdb v)) vs).

Definition name_ok (d : sdb_device) : Prop := length (sp_name (product (sdb_comp d))) = 19%nat.

Lemma length_component c t : length (sp_name (product c)) = 19%nat -> length (component_bytes c t) = 56%nat.
Proof. intros Hn. unfold component_bytes. rewrite !length_app, !length_be_bytes, length_take, Hn. done. Qed.

Lemma length_interconnect n : length (interconnect_bytes n) = 64%nat.
Proof. unfold interconnect_bytes. rewrite !length_app, !length_be_bytes, length_component; done. Qed.

Lemma length_device_bytes d : name_ok d -> length (device_bytes d) = 64%nat.
Proof. intros Hn. unfold device_bytes. rewrite !length_app, !length_be_bytes, length_component; done. Qed.

Lemma slice_app_l l1 l2 off n : (off + n <= length l1)%nat -> slice (l1 ++ l2) off n = slice l1 off n.
Proof.
  intros Hle. unfold slice. rewrite drop_app_le by lia. rewrite take_app_le; [done|]. rewrite length_drop. lia.
Qed.

Lemma slice_app_r l1 l2 off n : (length l1 <= off)%nat -> slice (l1 ++ l2) off n = slice l2 (off - length l1) n.
Proof. intros Hle. unfold slice. by rewrite drop_app_ge. Qed.

(** Reading inside one block of a concatenation of equal blocks. *)
Lemma slice_blocks (f : vdev -> list Z) b vs : (forall v, In v vs -> length (f v) = b) ->
  forall i r n, (r + n <= b)%nat ->
  slice (concat (map f vs)) (i * b + r) n =
  match vs !! i with Some v => slice (f v) r n | None => slice [] r n end.
Proof.
  induction vs as [|v vs IH]; intros Hb i r n Hr; cbn [map concat].
  - unfold slice. by rewrite !drop_nil, !take_nil.
  - pose proof (Hb v (or_introl eq_refl)) as Hv. destruct i as [|i]; cbn [lookup list_lookup].
    + rewrite slice_app_l by lia. done.
    + rewrite slice_app_r by lia. rewrite Hv.
      replace (S i * b + r - b)%nat with (i * b + r)%nat by lia.
      apply IH; [|done]. intros u Hu. apply Hb. by right.
Qed.

Lemma nth_handler_spec vs w : forall n k p,
  chain (cells (w_pool w)) p (map v_node vs) -> (length vs <= n)%nat ->
  exists r, nth_handler n (Z.of_nat (S k)) p w = Some (r, w) /\
    match vs !! k with
    | Some v => exists nx, r = Some (mk_handler_address (v_ptr v) (v_callback v) nx)
    | None => r = None
    end.
Proof.
  induction vs as [|v vs IH]; intros n k p Hc Hn.
  - cbn in Hc. subst p. exists None. by destruct n.
  - cbn [map] in Hc. destruct Hc as (-> & Hx & q & E & Hc). cbn [v_node fst snd] in *.
    destruct n as [|n]; cbn in Hn; [lia|]. cbn [nth_handler]. rewrite (proj2 (Z.eqb_neq _ EB_NULL)) by done.
    mstep (EB_HANDLER_ADDRESS_some _ _ _ E). cbn [ha_next set_next handler_node].
    destruct k as [|k].
    + cbn. eexists. split; [done|]. by eexists.
    + rewrite (proj2 (Z.eqb_neq _ 0)) by lia.
      replace (Z.of_nat (S (S k)) - 1) with (Z.of_nat (S k)) by lia.
      apply (IH n k q Hc). lia.
Qed.

Lemma extract_slice l width addr size :
  bytes_ok l -> width .& EB_DATAX = Z.of_nat size -> (size <= 8)%nat -> 0 <= addr ->
  (Z.to_nat addr + size <= length l)%nat ->
  eb_sdb_extract l width addr = Some (be_val (slice l (Z.to_nat addr) size)).
Proof.
  intros Hl Hw Hs Ha Hle. unfold eb_sdb_extract. rewrite Hw, Nat2Z.id, (proj2 (Nat.leb_le _ _)) by done.
  f_equal. apply wrap_small.
  assert (bytes_ok (slice l (Z.to_nat addr) size)) as Hok
    by (unfold slice; apply Forall_take, Forall_drop, Hl).
  pose proof (be_val_range _ Hok) as Hr. rewrite length_slice, pow256 in Hr by lia.
  split; [lia|]. eapply Z.lt_le_trans; [apply Hr|]. apply Z.pow_le_mono_r; lia.
Qed.

(** Every field of a descriptor fits its type. *)
Record sdb_device_ok (d : sdb_device) : Prop := {
  do_name : name_ok d;
  do_chars : bytes_ok (sp_name (product (sdb_comp d)));
  do_major : is_byte (abi_ver_major d);
  do_minor : is_byte (abi_ver_minor d) }.

Lemma component_bytes_ok c t : bytes_ok (sp_name (product c)) -> is_byte t -> bytes_ok (component_bytes c t).
Proof.
  intros Hn Ht. unfold component_bytes. rewrite !Forall_app. split_and!; try apply be_bytes_ok.
  - by apply Forall_take.
  - by constructor.
Qed.

Lemma interconnect_bytes_ok n : bytes_ok (interconnect_bytes n).
Proof.
  unfold interconnect_bytes. rewrite !Forall_app. split_and!; try apply be_bytes_ok.
  - repeat constructor; lia.
  - apply component_bytes_ok; [cbn; unfold bus_name; repeat constructor; lia|unfold sdb_record_interconnect; lia].
Qed.

Lemma device_bytes_ok d : sdb_device_ok d -> bytes_ok (device_bytes d).
Proof.
  intros [_ Hc Hm Hn]. unfold device_bytes. rewrite !Forall_app. split_and!; try apply be_bytes_ok.
  - rewrite !Forall_cons. split_and!; try done; lia.
  - apply component_bytes_ok; [done|unfold sdb_record_device; lia].
Qed.

(** Reads below 0x4000 are served from the device table, whatever their
    width: an aligned read returns the bytes at its address, first the
    interconnect record, which counts the devices, then one record per device,
    newest first; beyond the last device it returns zero. No read leaves a
    record. *)
Theorem sdb_table_served (socketp widths addr : Z) (size : nat) vs w
    (Hh : handlers w socketp vs) (Hok : Forall (fun v => sdb_device_ok (v_sdb v)) vs)
    (Hw : widths .& EB_DATAX = Z.of_nat size) (Hs : In size [1; 2; 4; 8]%nat)
    (Ha : 0 <= addr) (Hal : addr mod Z.of_nat size = 0) :
  eb_sdb socketp widths addr w = Some (be_val (slice (table_bytes vs) (Z.to_nat addr) size), w).
Proof.
  pose proof Hh as (s & Es & Hc & Hv & _).
  set (k := Z.to_nat (addr / 64)). set (r := Z.to_nat (addr mod 64)).
  pose proof (Z.div_mod addr 64 ltac:(lia)) as Hdm. pose proof (Z.mod_pos_bound addr 64 ltac:(lia)) as Hmb.
  pose proof (Z.div_pos addr 64 Ha ltac:(lia)) as Hdp.
  assert (Z.to_nat addr = (k * 64 + r)%nat) as Haddr by (unfold k, r; lia).
  assert (r + size <= 64 /\ (size <= 8))%nat as [Hr Hs8].
  { assert (exists q, 64 = q * Z.of_nat size /\ 0 < Z.of_nat size) as (q & Hq & Hpos)
      by (destruct Hs as [<-|[<-|[<-|[<-|[]]]]]; [exists 64|exists 32|exists 16|exists 8]; lia).
    assert (addr mod 64 mod Z.of_nat size = 0) as Hm by (rewrite Z.mod_mod_divide; [done|by exists q]).
    apply Z.mod_divide in Hm as [z Hz]; [|lia]. split; [|cbn in Hs; lia].
    unfold r. rewrite Hz in *. assert (z < q) by nia. nia. }
  assert (forall v, In v vs -> length (device_bytes (v_sdb v)) = 64%nat) as Hlen.
  { intros v Hin. apply length_device_bytes. apply list_elem_of_In in Hin.
    by apply (proj1 (Forall_forall _ _) Hok v Hin). }
  unfold eb_sdb, table_bytes. mstep (EB_SOCKET_some _ _ _ Es).
  destruct (Z.ltb_spec addr 0x40) as [Hlt|Hge].
  - destruct (load_list_spec (T := eb_handler_address) _ _ w Hc) as (l & Rl & _ & Hl & _). mstep Rl.
    assert (length l = length vs) as ->.
    { apply (f_equal length) in Hl. by rewrite !length_fmap in Hl. }
    unfold eb_sdb_interconnect. rewrite (extract_slice _ _ _ size);
      [|apply interconnect_bytes_ok|done|done|done|rewrite length_interconnect; lia].
    rewrite slice_app_l; [done|]. rewrite length_interconnect. lia.
  - unfold pool_fuel, gets. rewrite bind_some with (a := base.size (cells (w_pool w))) (w' := w) by done.
    assert (addr .>> 6 = Z.of_nat (S (k - 1)) /\ (1 <= k)%nat) as [-> Hk].
    { rewrite Z.shiftr_div_pow2 by lia. change (2 ^ 6) with 64. unfold k. lia. }
    destruct (nth_handler_spec vs w (base.size (cells (w_pool w))) (k - 1) _ Hc (handlers_length _ _ _ _ Es Hc)) as (x & Rn & Hx).
    mstep Rn. rewrite slice_app_r by (rewrite length_interconnect; lia). rewrite length_interconnect.
    replace (Z.to_nat addr - 64)%nat with ((k - 1) * 64 + r)%nat by lia.
    rewrite (slice_blocks (fun v => device_bytes (v_sdb v)) 64 vs Hlen (k - 1) r size) by lia.
    destruct (vs !! (k - 1)%nat) as [v|] eqn:Ev; [destruct Hx as (nx & ->)|subst x].
    + assert (v ∈ vs) as Hin by (by eapply list_elem_of_lookup_2).
      destruct (proj1 (Forall_forall _ _) Hv v Hin) as [_ Esd]. pose proof (proj1 (Forall_forall _ _) Hok v Hin) as Hd.
      cbn [ha_device]. unfold bind, sdb_load. rewrite Esd. unfold eb_sdb_device.
      assert (addr .& 0x3f = addr mod 64) as -> by (change 0x3f with (Z.ones 6); by rewrite Z.land_ones).
      rewrite (extract_slice _ _ _ size); [done|by apply device_bytes_ok|done|done|lia|].
      apply list_elem_of_In in Hin. rewrite (Hlen v Hin). fold r. lia.
    + unfold slice. by rewrite drop_nil, take_nil.
Qed.
End spec.

(** ** Instances *)

Section sample.
Import Sample.

(** A device at 0x4000..0x40ff and a little endian one at 0x5000..0x500f. *)
Definition led : sdb_device := mk_sdb_device 0 1 2 0
  (mk_component 0x4000 0x40ff (mk_product 0x651 7 1 0x20160101 (replicate 19 65) 1)).
Definition uart : sdb_device := mk_sdb_device 0 1 0 0x80
  (mk_component 0x5000 0x500f (mk_product 0x651 8 1 0x20160102 (replicate 19 66) 1)).

(** Socket 0 with the first device attached through cells 1 and 2. *)
Definition led_dev : vdev := mk_vdev 1 2 1000 led (mk_handler_callback 5 1 1).
Definition bus_world : world ext :=
  mk_world (w_pool (world_of
      [ISocket (mk_socket EB_NULL 1 EB_NULL EB_NULL 3 0x44);
       IHandlerAddress (mk_handler_address 1000 2 EB_NULL); IHandlerCallback (mk_handler_callback 5 1 1);
       ISocketAux (mk_socket_aux 0 0x8000 EB_NULL)] []))
    ∅ (<[1000 := led]> (<[1001 := uart]> ∅)) (mk_ext [] []).

Lemma bus_world_ok : pool_ok bus_world.
Proof. exact (pool_ok_seed [ISocket _; IHandlerAddress _; IHandlerCallback _; ISocketAux _] [] eq_refl). Qed.

Lemma bus_world_handlers : handlers bus_world 0 [led_dev].
Proof.
  eexists. split; [vm_compute; reflexivity|]. split.
  - split; [reflexivity|]. split; [discriminate|]. exists EB_NULL. split; [vm_compute; reflexivity|reflexivity].
  - split; [constructor; [|constructor]; split; vm_compute; reflexivity|].
    apply NoDup_singleton.
Qed.

Lemma bus_world_bus : bus_ok [led_dev].
Proof.
  split; [constructor; [vm_compute; discriminate|constructor]|].
  intros [|i] [|j] v u a Hi Hj; try reflexivity; try (destruct i; discriminate Hi); destruct j; discriminate Hj.
Qed.

Lemma attach_keeps_bus_witness :
  (exists st w', eb_socket_attach 0 (mk_handler 1001 6 1 1) bus_world = Some (st, w') /\
     attach_result 0 (mk_handler 1001 6 1 1) uart [led_dev] bus_world st w') /\
  option_map fst (eb_socket_attach 0 (mk_handler 1001 6 1 1) bus_world) = Some EB_OK.
Proof.
  split; [|vm_compute; reflexivity].
  destruct (attach_keeps_bus 0 (mk_handler 1001 6 1 1) uart [led_dev] bus_world bus_world_ok
    bus_world_handlers bus_world_bus) as (st & w' & E & _ & Hr);
    [vm_compute; reflexivity|cbn; lia|].
  exists st, w'. exact (conj E Hr).
Defined.

Lemma bus_access_dispatch_witness :
  run (socket_write 0 0x44 0x4010 0x4010 17 0) bus_world = Some (0, [Dev_write 5 0x4010 0x44 17]) /\
  run (socket_write 0 0x44 0x4100 0x4100 17 0) bus_world = Some (1, []).
Proof.
  destruct (bus_access_dispatch 0 0x44 0x4010 0x4010 17 0 [led_dev] bus_world bus_world_handlers
    bus_world_bus ltac:(lia)) as [H1 _].
  destruct (bus_access_dispatch 0 0x44 0x4100 0x4100 17 0 [led_dev] bus_world bus_world_handlers
    bus_world_bus ltac:(lia)) as [_ H2].
  unfold run. split.
  - destruct (H1 led_dev (or_introl eq_refl) eq_refl) as [E _]. rewrite E. reflexivity.
  - destruct H2 as [E _]; [intros v [<-|[]]; reflexivity|]. rewrite E. reflexivity.
Defined.

Lemma detach_removes_device_witness :
  (exists w', eb_socket_detach 0 1000 bus_world = Some (EB_OK, w') /\ handlers w' 0 []) /\
  eb_socket_detach 0 1001 bus_world = Some (EB_ADDRESS, bus_world).
Proof.
  destruct (detach_removes_device 0 1000 [led_dev] bus_world bus_world_ok bus_world_handlers bus_world_bus) as [_ H1].
  destruct (detach_removes_device 0 1001 [led_dev] bus_world bus_world_ok bus_world_handlers bus_world_bus) as [H2 _].
  split.
  - destruct (H1 [] led_dev [] eq_refl eq_refl (Forall_nil_2 _)) as (w' & E & _ & Hh & _).
    exists w'. exact (conj E Hh).
  - apply H2. constructor; [discriminate|constructor].
Defined.

(** The vendor of the first device, and what follows the table. *)
Lemma sdb_table_served_witness :
  eb_sdb 0 0x48 0x58 bus_world = Some (0x651, bus_world) /\
  eb_sdb 0 0x44 0x80 bus_world = Some (0, bus_world).
Proof.
  assert (Forall (fun v => sdb_device_ok (v_sdb v)) [led_dev]) as Hok.
  { constructor; [|constructor]. split; [reflexivity| |cbn; lia|cbn; lia].
    cbn. rewrite !Forall_cons. split_and!; try apply Forall_nil_2; lia. }
  split.
  - rewrite (sdb_table_served 0 0x48 0x58 8 [led_dev] bus_world bus_world_handlers Hok);
      [vm_compute; reflexivity|reflexivity|right; right; right; left; reflexivity|lia|reflexivity].
  - rewrite (sdb_table_served 0 0x44 0x80 4 [led_dev] bus_world bus_world_handlers Hok);
      [vm_compute; reflexivity|reflexivity|right; right; left; reflexivity|lia|reflexivity].
Defined.

(** A device below 0x4000 is refused, but the two cells allocated for it are not
    given back. *)
Lemma attach_low_address_leaks :
  exists w', eb_socket_attach 0 (mk_handler 1002 6 1 1)
      (mk_world (w_pool bus_world) ∅ (<[1002 := mk_sdb_device 0 1 0 0 (mk_component 0x1000 0x10ff (product (sdb_comp led)))]> ∅)
         (mk_ext [] [])) = Some (EB_ADDRESS, w') /\
    pl_used (w_pool w') = pl_used (w_pool bus_world) + 2.
Proof. eexists. split; [vm_compute; reflexivity|vm_compute; reflexivity]. Qed.
End sample.
