(* ===== verification/Response.v ===== *)
(** Cycles waiting for an answer: the response queue of a socket
    (src/api/glue/socket.c) and the configuration writes that answer it
    ([eb_socket_write_config] of src/api/glue/readwrite.c). *)
From stdpp Require Import base list gmap.
From Stdlib Require Import ZArith Lia.
From S2P Require Import Prelude Widths Store World Linked Cycle Format Master Slave.

Definition sk_set_responses (first last : Z) (s : eb_socket) : eb_socket :=
  mk_socket (sk_first_device s) (sk_first_handler s) first last (sk_aux s) (sk_widths s).

Definition rs_set_next (x : Z) (r : eb_response) : eb_response :=
  mk_response (rs_address r) (rs_deadline r) x (rs_cycle r) (rs_write_cursor r) (rs_status_cursor r).
Definition rs_set_cycle (x : Z) (r : eb_response) : eb_response :=
  mk_response (rs_address r) (rs_deadline r) (rs_next r) x (rs_write_cursor r) (rs_status_cursor r).
Definition rs_set_write_cursor (x : Z) (r : eb_response) : eb_response :=
  mk_response (rs_address r) (rs_deadline r) (rs_next r) (rs_cycle r) x (rs_status_cursor r).
Definition rs_set_status_cursor (x : Z) (r : eb_response) : eb_response :=
  mk_response (rs_address r) (rs_deadline r) (rs_next r) (rs_cycle r) (rs_write_cursor r) x.

Section response.
Context {X : Type} `{Env X} `{Callbacks X}.

(** * The queue (socket.c) *)

Definition eb_response_flip (firstp : Z) : M X Z := reverse_list (T := eb_response) firstp.

(** Move the responses of a list to the front of [good] or [bad]; the result is
    [( *goodp, *badp)]. *)
Fixpoint filter_loop (devicep : Z) (fuel : nat) (responsep good bad : Z) : M X (Z * Z) :=
  if responsep =? EB_NULL then ret (good, bad)
  else match fuel with
    | O => fault
    | S fuel =>
      let* response := EB_RESPONSE responsep in
      let* cycle := EB_CYCLE (rs_cycle response) in
      if cy_link cycle =? devicep then
        poke responsep (IResponse (rs_set_next bad response)) ;;;
        filter_loop devicep fuel (rs_next response) good responsep
      else
        poke responsep (IResponse (rs_set_next good response)) ;;;
        filter_loop devicep fuel (rs_next response) responsep bad
    end.

Definition eb_socket_filter_inflight (good bad devicep firstp : Z) : M X (Z * Z) :=
  let* n := pool_fuel in filter_loop devicep n firstp good bad.

(** The first half of [eb_socket_kill_inflight]: keep the responses of other
    devices, return those of this one. *)
Definition partition_inflight (socketp devicep : Z) : M X Z :=
  let* socket := EB_SOCKET socketp in
  let* ' (good, bad) := eb_socket_filter_inflight EB_NULL EB_NULL devicep (sk_last_response socket) in
  let* flipped := eb_response_flip (sk_first_response socket) in
  let* ' (good, bad) := eb_socket_filter_inflight good bad devicep flipped in
  poke socketp (ISocket (sk_set_responses good EB_NULL socket)) ;;;
  ret bad.

(** Report a cycle as timed out and release it. *)
Definition kill_response (responsep : Z) (response : eb_response) : M X unit :=
  let* cycle := EB_CYCLE (rs_cycle response) in
  call (cy_callback cycle) (cy_user_data cycle) (cy_link cycle) (cy_ops cycle) EB_TIMEOUT ;;;
  eb_cycle_destroy (rs_cycle response) ;;;
  eb_free (rs_cycle response) ;;;
  eb_free responsep.

Fixpoint kill_loop (fuel : nat) (responsep : Z) : M X unit :=
  if responsep =? EB_NULL then ret tt
  else match fuel with
    | O => fault
    | S fuel =>
      let* response := EB_RESPONSE responsep in
      poke responsep (IResponse (rs_set_cycle EB_NULL response)) ;;;
      kill_response responsep response ;;;
      kill_loop fuel (rs_next response)
    end.

Definition eb_socket_kill_inflight (socketp devicep : Z) : M X unit :=
  let* bad := partition_inflight socketp devicep in
  let* n := pool_fuel in
  kill_loop n bad.

(** The time at which the oldest response expires, [0] if there is none. *)
Definition eb_socket_timeout (socketp : Z) : M X Z :=
  let* socket := EB_SOCKET socketp in
  let* aux := EB_SOCKET_AUX (sk_aux socket) in
  let* socket :=
    (if sk_first_response socket =? EB_NULL then
       let* first := eb_response_flip (sk_last_response socket) in
       let socket := sk_set_responses first EB_NULL socket in
       poke socketp (ISocket socket) ;;; ret socket
     else ret socket) in
  if negb (sk_first_response socket =? EB_NULL) then
    let* response := EB_RESPONSE (sk_first_response socket) in
    let udelta := u16 (rs_deadline response - u16 (ax_time_cache aux)) in
    let sdelta := s16 udelta in
    ret (u32 (ax_time_cache aux + sdelta))
  else ret 0.

(** * Answers (readwrite.c) *)

(** [*responsepp = x], [responsepp] being the socket's list head or the link of
    the response before. *)
Definition relink_response (socketp prevp x : Z) : M X unit :=
  if prevp =? EB_NULL then
    let* socket := EB_SOCKET socketp in
    poke socketp (ISocket (sk_set_responses x (sk_last_response socket) socket))
  else
    let* prev := EB_RESPONSE prevp in
    poke prevp (IResponse (rs_set_next x prev)).

(** Walk the response queue; the responses of [last_response] are appended when
    [first_response] is exhausted. The result is the place before the response
    found and the response. *)
Fixpoint find_response (socketp addr : Z) (fuel : nat) (prevp responsep : Z) : M X (option (Z * Z)) :=
  let* responsep :=
    (if responsep =? EB_NULL then
       let* socket := EB_SOCKET socketp in
       let* flipped := eb_response_flip (sk_last_response socket) in
       relink_response socketp prevp flipped ;;;
       let* socket := EB_SOCKET socketp in
       poke socketp (ISocket (sk_set_responses (sk_first_response socket) EB_NULL socket)) ;;;
       ret flipped
     else ret responsep) in
  if responsep =? EB_NULL then ret None
  else match fuel with
    | O => fault
    | S fuel =>
      let* response := EB_RESPONSE responsep in
      if rs_address response =? (addr .& 0xFFFE) then ret (Some (prevp, responsep))
      else find_response socketp addr fuel responsep (rs_next response)
    end.

(** A value read; the result is [fail]. *)
Definition answer_value (responsep value : Z) : M X bool :=
  let* response := EB_RESPONSE responsep in
  if rs_write_cursor response =? EB_NULL then ret true
  else
    let* operation := EB_OPERATION (rs_write_cursor response) in
    (if (op_flags operation .& EB_OP_MASK) =? EB_OP_READ_PTR
     then user_store (op_value operation) value
     else poke (rs_write_cursor response) (IOperation (op_set_value value operation))) ;;;
    let* next := eb_find_read (op_next operation) in
    poke responsep (IResponse (rs_set_write_cursor next response)) ;;;
    ret false.

(** How many operations the status covers. *)
Fixpoint count_status (maxops : Z) (fuel : nat) (operationp ops : Z) : M X Z :=
  if operationp =? EB_NULL then ret ops
  else match fuel with
    | O => fault
    | S fuel =>
      let* operation := EB_OPERATION operationp in
      if is_config operation then count_status maxops fuel (op_next operation) ops
      else if ops + 1 =? maxops then ret (ops + 1)
      else count_status maxops fuel (op_next operation) (ops + 1)
    end.

(** Hand out the error bits, most significant first; the result is the operation
    after the last one served. *)
Fixpoint mark_status (value : Z) (fuel : nat) (i operationp : Z) : M X Z :=
  if i <? 0 then ret operationp
  else match fuel with
    | O => fault
    | S fuel =>
      let* operation := EB_OPERATION operationp in
      if is_config operation then mark_status value fuel i (op_next operation)
      else
        poke operationp (IOperation (op_set_flags
          (op_flags operation .| (EB_OP_ERROR * ((value .>> i) .& 1))) operation)) ;;;
        mark_status value fuel (i - 1) (op_next operation)
    end.

(** Error flags; the result is [fail]. *)
Definition answer_status (responsep widths value : Z) : M X bool :=
  let* response := EB_RESPONSE responsep in
  let maxops := (widths .& EB_DATAX) * 8 in
  let* n := pool_fuel in
  let* ops := count_status maxops n (rs_status_cursor response) 0 in
  let* operationp := mark_status value n (ops - 1) (rs_status_cursor response) in
  let* cursor := eb_find_bus operationp in
  poke responsep (IResponse (rs_set_status_cursor cursor response)) ;;;
  ret (ops =? 0).

(** [EB_SEGFAULT] if an operation failed. *)
Definition cycle_status (ops : list (Z * eb_operation)) : Z :=
  if existsb (fun xo => had_error xo.2) ops then EB_SEGFAULT else EB_OK.

Definition complete_response (socketp prevp responsep : Z) (fail : bool) : M X unit :=
  let* response := EB_RESPONSE responsep in
  if fail || ((rs_write_cursor response =? EB_NULL) && (rs_status_cursor response =? EB_NULL)) then
    let cyclep := rs_cycle response in
    let* cycle := EB_CYCLE cyclep in
    relink_response socketp prevp (rs_next response) ;;;
    let* ops := load_list (T := eb_operation) (cy_ops cycle) in
    call (cy_callback cycle) (cy_user_data cycle) (cy_link cycle) (cy_ops cycle)
      (if fail then EB_FAIL else cycle_status ops) ;;;
    eb_cycle_destroy cyclep ;;;
    eb_free cyclep ;;;
    eb_free responsep
  else ret tt.

Definition socket_write_config (socketp widths addr value : Z) : M X unit :=
  let* socket := EB_SOCKET socketp in
  let* n := pool_fuel in
  let* found := find_response socketp addr (S n) EB_NULL (sk_first_response socket) in
  match found with
  | None => ret tt
  | Some (prevp, responsep) =>
      let* fail := (if (addr .& 1) =? 0 then answer_value responsep value
                    else answer_status responsep widths value) in
      complete_response socketp prevp responsep fail
  end.
End response.

(** * Error flags *)

Lemma bind_fuel {X A} (k : nat -> M X A) w : bind pool_fuel k w = k (size (cells (w_pool w))) w.
Proof. done. Qed.

Section status.
Context {X : Type} `{Env X} `{!PoolExpander e_expand}.
Implicit Types w : world X.

Definition flag_error (fail : bool) (o : eb_operation) : eb_operation :=
  op_set_flags (op_flags o .| (if fail then EB_OP_ERROR else 0)) o.

(** The bus operations of a list get the flags [fails], in order. *)
Fixpoint assign_errors (fails : list bool) (l : list (Z * eb_operation)) : list (Z * eb_operation) :=
  match fails, l with
  | [], _ => l
  | _, [] => []
  | f :: fs, (x, o) :: l =>
      if is_config o then (x, o) :: assign_errors (f :: fs) l
      else (x, flag_error f o) :: assign_errors fs l
  end.

(** The operations left after the first [n] bus operations. *)
Fixpoint after_bus (n : nat) (l : list (Z * eb_operation)) : list (Z * eb_operation) :=
  match n, l with
  | O, _ => l
  | _, [] => []
  | S k, (_, o) :: l => if is_config o then after_bus n l else after_bus k l
  end.

Fixpoint bus_length (l : list (Z * eb_operation)) : nat :=
  match l with [] => 0 | (_, o) :: l => if is_config o then bus_length l else S (bus_length l) end.

(** The suffix of a list that starts with an operation satisfying [test]. *)
Fixpoint skip_to (test : eb_operation -> bool) (l : list (Z * eb_operation)) : list (Z * eb_operation) :=
  match l with [] => [] | (x, o) :: l' => if test o then l else skip_to test l' end.

Definition first_cell (l : list (Z * eb_operation)) : Z :=
  match l with [] => EB_NULL | (x, _) :: _ => x end.

Lemma chain_first m p (l : list (Z * eb_operation)) : chain m p l -> p = first_cell l.
Proof. destruct l as [|[x o] l]; [done|]. by intros (-> & _). Qed.

(** Tests that look at flags only do not depend on the link. *)
Definition link_free (test : eb_operation -> bool) : Prop := forall n o, test (set_next n o) = test o.

Lemma find_op_spec test l : link_free test -> forall n p w,
  chain (cells (w_pool w)) p l -> (length l <= n)%nat ->
  find_op test n p w = Some (first_cell (skip_to test l), w) /\
  chain (cells (w_pool w)) (first_cell (skip_to test l)) (skip_to test l).
Proof.
  intros Ht. induction l as [|[x o] l IH]; intros n p w Hc Hn.
  - cbn in Hc. subst p. by destruct n.
  - pose proof Hc as (-> & Hx & k & E & Hc'). destruct n as [|n]; cbn in Hn; [lia|].
    cbn [find_op skip_to]. rewrite (proj2 (Z.eqb_neq _ EB_NULL)) by done.
    mstep (EB_OPERATION_some _ _ _ E). change (test (set_next k o)) with (test (set_next k o)). rewrite (Ht k o).
    destruct (test o); [by split|]. apply IH; [exact Hc'|lia].
Qed.

Lemma eb_find_bus_spec l p w :
  chain (cells (w_pool w)) p l ->
  eb_find_bus p w = Some (first_cell (skip_to (fun o => negb (is_config o)) l), w).
Proof.
  intros Hc. unfold eb_find_bus. rewrite bind_fuel.
  eapply find_op_spec; [done|exact Hc|by eapply chain_length].
Qed.

Lemma count_status_spec maxops l : forall n p w ops,
  chain (cells (w_pool w)) p l -> (length l <= n)%nat -> ops < maxops ->
  count_status maxops n p ops w = Some (Z.min maxops (ops + Z.of_nat (bus_length l)), w).
Proof.
  induction l as [|[x o] l IH]; intros n p w ops Hc Hn Hm.
  - cbn in Hc. subst p. cbn [bus_length]. rewrite Z.add_0_r, Z.min_r by lia. by destruct n.
  - destruct Hc as (-> & Hx & k & E & Hc). destruct n as [|n]; cbn in Hn; [lia|].
    cbn [count_status bus_length]. rewrite (proj2 (Z.eqb_neq _ EB_NULL)) by done.
    mstep (EB_OPERATION_some _ _ _ E). change (is_config (set_next k o)) with (is_config o).
    change (op_next (set_next k o)) with k.
    destruct (is_config o); [apply IH; [done|lia|done]|].
    destruct (Z.eqb_spec (ops + 1) maxops) as [<-|Hne].
    + rewrite Z.min_l by lia. done.
    + rewrite IH by (done || lia). do 2 f_equal. lia.
Qed.

(** Bit [i] of [value]. *)
Lemma status_bit value i : 0 <= i -> EB_OP_ERROR * ((value .>> i) .& 1) = if Z.testbit value i then EB_OP_ERROR else 0.
Proof.
  intros Hi. change 1 with (Z.ones 1). rewrite Z.land_ones by lia. change (2 ^ 1) with 2.
  rewrite Zmod_odd, <- Z.bit0_odd, Z.shiftr_spec, Z.add_0_l by lia. by destruct (Z.testbit value i).
Qed.

Lemma mark_status_spec value fails : forall l n p w,
  pool_ok w -> chain (cells (w_pool w)) p l -> (length l <= n)%nat -> (length fails <= bus_length l)%nat ->
  (forall j f, fails !! j = Some f -> Z.testbit value (Z.of_nat (length fails - 1 - j)) = f) ->
  exists w', mark_status value n (Z.of_nat (length fails) - 1) p w = Some (first_cell (after_bus (length fails) l), w') /\
    frame (fun y => y ∈ l.*1) w w' /\ chain (cells (w_pool w')) p (assign_errors fails l) /\
    chain (cells (w_pool w')) (first_cell (after_bus (length fails) l)) (after_bus (length fails) l).
Proof.
  intros l. revert fails. induction l as [|[x o] l IH]; intros fails n p w Hw Hc Hn Hlen Hbits.
  - destruct fails; [|cbn in Hlen; lia]. exists w. cbn in Hc. subst p.
    split; [by destruct n|]. split; [by apply frame_refl|done].
  - destruct fails as [|f fs].
    { exists w. cbn [length after_bus assign_errors]. rewrite <- (chain_first _ _ _ Hc).
      split; [by destruct n|]. split; [by apply frame_refl|done]. }
    pose proof Hc as (-> & Hx & k & E & Hc'). destruct n as [|n]; cbn [length] in Hn; [lia|].
    pose proof (chain_NoDup _ _ _ Hc) as Hnd. cbn in Hnd. apply NoDup_cons in Hnd as [Hxl _].
    cbn [mark_status]. rewrite (proj2 (Z.ltb_ge _ 0)) by (cbn [length]; lia).
    mstep (EB_OPERATION_some _ _ _ E). change (is_config (set_next k o)) with (is_config o).
    change (op_next (set_next k o)) with k. cbn [after_bus assign_errors bus_length] in *.
    destruct (is_config o) eqn:Ec.
    + destruct (IH (f :: fs) n k w Hw Hc' ltac:(lia) ltac:(lia) Hbits) as (w' & R & F & C1 & C2).
      exists w'. split; [exact R|]. split; [|split; [|exact C2]].
      * destruct F as (G1 & G2 & G3). split_and!; [done|done|]. intros y Hy. apply G3. set_solver.
      * split; [done|]. split; [done|]. exists k. split; [|exact C1].
        destruct F as (_ & _ & F). rewrite F; [done|done|by eexists].
    + cbn [length] in Hlen |- *. set (o' := op_set_flags _ (set_next k o)).
      destruct (poke_frame (fun y => y ∈ ((x, o) :: l).*1) x (IOperation o') _ w Hw E) as (w1 & R1 & F1 & C1 & _);
        [done|done|cbn; set_solver|].
      mstep R1. replace (Z.of_nat (S (length fs)) - 1 - 1) with (Z.of_nat (length fs) - 1) by lia.
      destruct (IH fs n k w1 (proj1 F1)) as (w' & R & F & C2 & C3).
      * rewrite C1. by apply chain_insert_ne.
      * lia.
      * lia.
      * intros j g Hj. rewrite <- (Hbits (S j) g Hj). cbn [length]. f_equal. lia.
      * exists w'. split; [exact R|]. split; [|split; [|exact C3]].
        { eapply (frame_trans _ _ _ w1); [exact F1|exact F|]. intros y _ Hy. cbn. set_solver. }
        split; [done|]. split; [done|]. exists k. split; [|exact C2].
        destruct F as (_ & _ & F). rewrite F; [|done|].
        -- rewrite C1, lookup_insert_eq. do 3 f_equal. unfold o', flag_error.
           pose proof (Hbits 0%nat f eq_refl) as Hb0. cbn [length] in Hb0.
           rewrite status_bit by (cbn [length]; lia).
           replace (Z.of_nat (S (length fs)) - 1) with (Z.of_nat (S (length fs) - 1 - 0)) by lia.
           by rewrite Hb0.
        -- exists (IOperation o'). by rewrite C1, lookup_insert_eq.
Qed.

(** The error register after a sequence of bus operations. *)
Definition error_register (e0 : Z) (fails : list bool) : Z :=
  fold_left (fun e (f : bool) => u64 (e .<< 1) .| c_bool f) fails e0.

Lemma error_register_bit e0 fails : (length fails <= 64)%nat ->
  forall j f, fails !! j = Some f -> Z.testbit (error_register e0 fails) (Z.of_nat (length fails - 1 - j)) = f.
Proof.
  intros Hlen j f. induction fails as [|b fails IH] using rev_ind; [done|].
  rewrite length_app in *. cbn [length] in *. unfold error_register. rewrite fold_left_app. cbn [fold_left].
  fold (error_register e0 fails). intros Hj. rewrite Z.lor_spec.
  apply lookup_app_Some in Hj as [Hj|[Hle Hj]].
  - pose proof (lookup_lt_Some _ _ _ Hj). specialize (IH ltac:(lia) Hj).
    replace (length fails + 1 - 1 - j)%nat with (S (length fails - 1 - j)) by lia.
    rewrite Nat2Z.inj_succ. unfold wrap. rewrite Z.mod_pow2_bits_low by lia.
    rewrite Z.shiftl_spec by lia. replace (Z.succ _ - 1) with (Z.of_nat (length fails - 1 - j)) by lia.
    rewrite IH. destruct b; cbn [c_bool]; [|by rewrite Z.bits_0, orb_false_r].
    change 1 with (2 ^ 0). rewrite Z.pow2_bits_false by lia. by rewrite orb_false_r.
  - replace (j - length fails)%nat with 0%nat in Hj by (apply lookup_lt_Some in Hj; cbn in Hj; lia).
    injection Hj as <-. replace (length fails + 1 - 1 - j)%nat with 0%nat by lia.
    change (Z.of_nat 0) with 0. unfold wrap. rewrite Z.mod_pow2_bits_low, Z.shiftl_spec_low by lia. by destruct b.
Qed.

(** C16: an error status answered by the device marks exactly the operations that
    failed: when the value has the low bits of the error register of a device
    that ran the next bus operations of the cycle with the outcomes [fails]
    (configuration operations do not count), each of them gets its own flag, the
    first operation taking the most significant of these bits, and the cursor moves on to the
    first bus operation not yet reported. *)
Theorem status_reaches_operations (responsep widths value e0 : Z) (fails : list bool) (r : eb_response)
    (l : list (Z * eb_operation)) w
    (Hw : pool_ok w) (Hr : cells (w_pool w) !! responsep = Some (IResponse r))
    (Hc : chain (cells (w_pool w)) (rs_status_cursor r) l)
    (Hm : 0 < (widths .& EB_DATAX) * 8 <= 64)
    (Hn : length fails = Nat.min (Z.to_nat ((widths .& EB_DATAX) * 8)) (bus_length l))
    (Hv : value mod 2 ^ Z.of_nat (length fails) = error_register e0 fails mod 2 ^ Z.of_nat (length fails)) :
  exists w', answer_status responsep widths value w = Some (match fails with [] => true | _ => false end, w') /\
    pool_ok w' /\ chain (cells (w_pool w')) (rs_status_cursor r) (assign_errors fails l) /\
    cells (w_pool w') !! responsep = Some (IResponse (rs_set_status_cursor
      (first_cell (skip_to (fun o => negb (is_config o)) (after_bus (length fails) l))) r)) /\
    forall y, y <> responsep -> y ∉ l.*1 -> live (cells (w_pool w)) y ->
      cells (w_pool w') !! y = cells (w_pool w) !! y.
Proof.
  unfold answer_status. mstep (EB_RESPONSE_some _ _ _ Hr). rewrite bind_fuel.
  pose proof (chain_length _ _ _ Hc) as Hlen.
  mstep (count_status_spec ((widths .& EB_DATAX) * 8) l (size (cells (w_pool w))) _ w 0 Hc Hlen ltac:(lia)).
  replace (Z.min ((widths .& EB_DATAX) * 8) (0 + Z.of_nat (bus_length l))) with (Z.of_nat (length fails)) by lia.
  destruct (mark_status_spec value fails l (size (cells (w_pool w))) _ w Hw Hc Hlen) as (w1 & R1 & F1 & C1 & C2); [lia| |].
  { intros j f Hj. pose proof (lookup_lt_Some _ _ _ Hj) as Hjl.
    rewrite <- (error_register_bit e0 fails ltac:(lia) j f Hj).
    rewrite <- (Z.mod_pow2_bits_low value (Z.of_nat (length fails))) by lia.
    rewrite Hv. by rewrite Z.mod_pow2_bits_low by lia. }
  mstep R1. mstep (eb_find_bus_spec _ _ _ C2).
  assert (responsep ∉ l.*1) as Hrl.
  { intros Hin. destruct (chain_cell (T := eb_operation) _ _ _ _ Hc Hin) as (t & E). by rewrite E in Hr. }
  assert (cells (w_pool w1) !! responsep = Some (IResponse r)) as Hr1.
  { destruct F1 as (_ & _ & F1). rewrite F1; [done|done|by eexists]. }
  destruct (poke_frame (fun y => y = responsep) responsep (IResponse (rs_set_status_cursor
      (first_cell (skip_to (fun o => negb (is_config o)) (after_bus (length fails) l))) r)) _ w1 (proj1 F1) Hr1)
    as (w2 & R2 & F2 & G2 & _); [done|done|done|].
  mstep R2. exists w2. split; [by destruct fails|]. split; [apply F2|]. split.
  - rewrite G2. apply chain_insert_ne; [|exact C1].
    assert (forall fs ll, (assign_errors fs ll).*1 = ll.*1) as Hfst.
    { intros fs ll. revert fs. induction ll as [|[y o] ll IH]; intros [|g fs]; cbn; try done.
      destruct (is_config o); cbn; by rewrite IH. }
    by rewrite Hfst.
  - split; [by rewrite G2, lookup_insert_eq|]. intros y Hy Hyl Hlive.
    rewrite G2, lookup_insert_ne by done. destruct F1 as (_ & _ & F1). by apply F1.
Qed.

Lemma timeout_spec (socketp deadline : Z) (s : eb_socket) (aux : eb_socket_aux) (r : eb_response) w
    (Hs : cells (w_pool w) !! socketp = Some (ISocket s))
    (Ha : cells (w_pool w) !! sk_aux s = Some (ISocketAux aux))
    (Hn : sk_first_response s <> EB_NULL)
    (Hr : cells (w_pool w) !! sk_first_response s = Some (IResponse r))
    (Hd : rs_deadline r = u16 deadline) (Ht : 0 <= ax_time_cache aux < 2 ^ 32)
    (Hnear : - 2 ^ 15 <= deadline - ax_time_cache aux < 2 ^ 15) :
  eb_socket_timeout socketp w = Some (u32 deadline, w).
Proof.
  unfold eb_socket_timeout. mstep (EB_SOCKET_some _ _ _ Hs). mstep (EB_SOCKET_AUX_some _ _ _ Ha).
  rewrite (proj2 (Z.eqb_neq _ EB_NULL)) by done. rewrite bind_ret. cbn [negb].
  rewrite (proj2 (Z.eqb_neq _ EB_NULL)) by done. cbn [negb]. mstep (EB_RESPONSE_some _ _ _ Hr).
  unfold ret. do 2 f_equal. rewrite Hd.
  assert (s16 (u16 (u16 deadline - u16 (ax_time_cache aux))) = deadline - ax_time_cache aux) as ->; [|f_equal; lia].
  unfold s16, wrap. rewrite !Z.mod_mod by lia. rewrite <- Zminus_mod.
  set (d := deadline - ax_time_cache aux) in *. change (2 ^ 16) with 65536 in *. change (2 ^ 15) with 32768 in *.
  destruct (Z.ltb_spec (d mod 65536) 32768) as [Hlt|Hge].
  - destruct (Z_lt_le_dec d 0) as [Hneg|Hpos]; [|rewrite Z.mod_small; lia].
    rewrite <- (Z.mod_add d 1 65536), Z.mod_small in Hlt by lia. lia.
  - destruct (Z_lt_le_dec d 0) as [Hneg|Hpos]; [|rewrite Z.mod_small in Hge; lia].
    rewrite <- (Z.mod_add d 1 65536), Z.mod_small by lia. lia.
Qed.

(** C21: the expiry time is rebuilt from its 16 low bits: if the deadline lies
    within nine hours of the cached time, [eb_socket_timeout] reports it exactly,
    also when the 16-bit counter has wrapped in between. *)
Theorem timeout_rebuilds_deadline (socketp deadline : Z) (s : eb_socket) (aux : eb_socket_aux) (r : eb_response) w
    (Hs : cells (w_pool w) !! socketp = Some (ISocket s))
    (Ha : cells (w_pool w) !! sk_aux s = Some (ISocketAux aux))
    (Hn : sk_first_response s <> EB_NULL)
    (Hr : cells (w_pool w) !! sk_first_response s = Some (IResponse r))
    (Hd : rs_deadline r = u16 deadline) (Ht : 0 <= ax_time_cache aux < 2 ^ 32)
    (Hnear : - 2 ^ 15 <= deadline - ax_time_cache aux < 2 ^ 15) :
  eb_socket_timeout socketp w = Some (u32 deadline, w).
Proof. exact (timeout_spec socketp deadline s aux r w Hs Ha Hn Hr Hd Ht Hnear). Qed.
End status.

(** * The queue of responses *)

Section queue.
Context {X : Type} `{Env X} `{!PoolExpander e_expand}.
Implicit Types w : world X.

Abbreviation responses := (list (Z * eb_response)).

(** The functional queue: [first_response], then [last_response] reversed. *)
Definition queue w (socketp : Z) (q : responses) : Prop :=
  exists s l1 l2, cells (w_pool w) !! socketp = Some (ISocket s) /\
    chain (cells (w_pool w)) (sk_first_response s) l1 /\ chain (cells (w_pool w)) (sk_last_response s) l2 /\
    q = l1 ++ rev l2 /\ NoDup q.*1.

(** The walk of [find_response]: the responses passed, those to come from the
    first list, and the second list. *)
Record walking w (socketp : Z) (s : eb_socket) (past todo l2 : responses) : Prop := {
  wk_ok : pool_ok w;
  wk_socket : cells (w_pool w) !! socketp = Some (ISocket s);
  wk_first : chain (cells (w_pool w)) (sk_first_response s) (past ++ todo);
  wk_last : chain (cells (w_pool w)) (sk_last_response s) l2;
  wk_nodup : NoDup (past ++ todo ++ rev l2).*1 }.

Definition head_cell (l : responses) : Z := match l with [] => EB_NULL | (x, _) :: _ => x end.
Definition last_cell (l : responses) : Z := match last l with None => EB_NULL | Some (x, _) => x end.

Lemma chain_head m p (l : responses) : chain m p l -> p = head_cell l.
Proof. destruct l as [|[x t] l]; [done|]. by intros (-> & _). Qed.

Lemma response_not_socket m p (l : responses) x s :
  chain m p l -> x ∈ l.*1 -> m !! x = Some (ISocket s) -> False.
Proof. intros Hc Hx E. destruct (chain_cell (T := eb_response) _ _ _ _ Hc Hx) as (t & E'). by rewrite E in E'. Qed.

(** Setting the link that ends the first list. *)
Lemma relink_end w socketp s past l2 q :
  pool_ok w -> cells (w_pool w) !! socketp = Some (ISocket s) ->
  chain (cells (w_pool w)) (sk_first_response s) past ->
  chain (cells (w_pool w)) q l2 -> NoDup (past ++ l2).*1 ->
  exists s' w', relink_response socketp (last_cell past) q w = Some (tt, w') /\
    frame (fun y => y = socketp \/ y ∈ past.*1) w w' /\
    cells (w_pool w') !! socketp = Some (ISocket s') /\ sk_last_response s' = sk_last_response s /\
    chain (cells (w_pool w')) (sk_first_response s') (past ++ l2).
Proof.
  intros Hw Hs Hf Hq Hnd. unfold relink_response, last_cell.
  assert (socketp ∉ l2.*1) as Hsl by (intros Hin; by eapply response_not_socket).
  destruct past as [|[x t] past'] eqn:Ep using rev_ind; [|clear IHpast'].
  - cbn [last]. rewrite Z.eqb_refl. mstep (EB_SOCKET_some _ _ _ Hs).
    destruct (poke_frame (fun y => y = socketp \/ y ∈ (@nil (Z * eb_response)).*1) socketp
      (ISocket (sk_set_responses q (sk_last_response s) s)) _ w Hw Hs) as (w' & R & F & C & _); [done|done|by left|].
    eexists _, w'. split; [exact R|]. split; [exact F|]. rewrite C, lookup_insert_eq. split; [done|]. split; [done|].
    by apply chain_insert_ne.
  - rewrite last_snoc. assert (x ∈ (past' ++ [(x, t)]).*1) as Hx by (rewrite fmap_app, elem_of_app; right; cbn; by left).
    assert (x <> EB_NULL) as Hxn.
    { intros ->. pose proof Hw as [Hwf _]. apply (wf_null _ Hwf). exact (chain_live _ _ _ _ Hf Hx). }
    rewrite (proj2 (Z.eqb_neq _ EB_NULL)) by done.
    assert (x ∉ l2.*1) as Hxl.
    { rewrite fmap_app in Hnd. apply NoDup_app in Hnd as (_ & Hd & _). by apply Hd. }
    destruct (chain_splice _ _ _ _ _ _ q l2 Hf Hq Hxl) as ((n & Ex & _) & Hc).
    mstep (EB_RESPONSE_some _ _ _ Ex).
    destruct (poke_frame (fun y => y = socketp \/ y ∈ (past' ++ [(x, t)]).*1) x
      (IResponse (rs_set_next q (set_next n t))) _ w Hw Ex) as (w' & R & F & C & _); [done|done|by right|].
    exists s, w'. split; [exact R|]. split; [exact F|]. rewrite C. split.
    { rewrite lookup_insert_ne; [done|]. intros ->. by rewrite Hs in Ex. }
    split; [done|]. rewrite <- app_assoc. exact Hc.
Qed.

(** Cells of responses and the socket's own. *)
Definition queue_cells (socketp : Z) (q : responses) (y : Z) : Prop := y = socketp \/ y ∈ q.*1.

Lemma walking_flip w socketp s past l2 :
  walking w socketp s past [] l2 ->
  exists s' w' flipped, (let* socket := EB_SOCKET socketp in
       let* flipped := eb_response_flip (sk_last_response socket) in
       relink_response socketp (last_cell past) flipped ;;;
       let* socket := EB_SOCKET socketp in
       poke socketp (ISocket (sk_set_responses (sk_first_response socket) EB_NULL socket)) ;;;
       ret flipped) w = Some (flipped, w') /\ flipped = head_cell (rev l2) /\
    walking w' socketp s' past (rev l2) [] /\ frame (queue_cells socketp (past ++ rev l2)) w w'.
Proof.
  intros [Hw Hs Hf Hl Hnd]. rewrite app_nil_r in Hf. cbn [app] in Hnd. mstep (EB_SOCKET_some _ _ _ Hs).
  destruct (reverse_list_pool _ _ w (proj1 Hw) Hl) as (fl & w1 & R1 & E1 & Hwf1 & Hsz1 & Hc1 & Hsame1 & Hlive1).
  unfold eb_response_flip. mstep R1.
  assert (pool_ok w1) as Hw1 by (split; [done|by rewrite Hsz1; apply Hw]).
  assert (frame (queue_cells socketp (past ++ rev l2)) w w1) as F1.
  { split_and!; [done|done|]. intros y Hy _. apply Hsame1. intros Hin. apply Hy. right.
    rewrite fmap_app, elem_of_app. right. by apply elem_of_rev_fst. }
  assert (forall y, y = socketp \/ y ∈ past.*1 -> y ∉ l2.*1) as Hsep.
  { intros y [->|Hin] Hy; [by eapply (response_not_socket _ _ l2)|].
    rewrite fmap_app in Hnd. apply NoDup_app in Hnd as (_ & Hd & _).
    apply (Hd y Hin). by apply elem_of_rev_fst. }
  assert (cells (w_pool w1) !! socketp = Some (ISocket s)) as Hs1 by (rewrite Hsame1 by (apply Hsep; by left); done).
  assert (chain (cells (w_pool w1)) (sk_first_response s) past) as Hf1.
  { eapply chain_agree; [|exact Hf]. intros y Hy. apply Hsame1, Hsep. by right. }
  destruct (relink_end w1 socketp s past (rev l2) fl Hw1 Hs1 Hf1 Hc1 Hnd) as (s2 & w2 & R2 & F2 & Hs2 & _ & Hc2).
  mstep R2. mstep (EB_SOCKET_some _ _ _ Hs2).
  destruct (poke_frame (queue_cells socketp (past ++ rev l2)) socketp
    (ISocket (sk_set_responses (sk_first_response s2) EB_NULL s2)) _ w2 (proj1 F2) Hs2) as (w3 & R3 & F3 & C3 & _);
    [done|done|by left|].
  mstep R3. eexists _, w3, fl. split; [done|]. split; [by apply (chain_head _ _ _ Hc1)|]. split.
  - split; [apply F3|by rewrite C3, lookup_insert_eq| |done|cbn; rewrite app_nil_r; done].
    rewrite C3. cbn [sk_first_response sk_set_responses]. apply chain_insert_ne; [|exact Hc2].
    intros Hin. by eapply response_not_socket.
  - eapply frame_trans; [eapply frame_trans; [exact F1|exact F2|]|exact F3|]; [|naive_solver].
    intros y _ [->|Hy]; [by left|right]. rewrite fmap_app. set_solver.
Qed.

Lemma last_cell_snoc l x t : last_cell (l ++ [(x, t)]) = x.
Proof. unfold last_cell. by rewrite last_snoc. Qed.

(** The first response with the address, in queue order, and the place before it. *)
Definition matches (addr : Z) (xr : Z * eb_response) : bool := rs_address xr.2 =? (addr .& 0xFFFE).

(** What a search that has come past [past] makes of the responses [l] that follow. *)
Definition search_result (socketp addr : Z) (past l : responses) w (r : option (Z * Z)) w' : Prop :=
  frame (queue_cells socketp (past ++ l)) w w' /\
  match find (matches addr) l with
  | None => r = None /\ exists s', walking w' socketp s' past l []
  | Some (x, t) => exists s' la lb l2', r = Some (last_cell (past ++ la), x) /\
      l = la ++ (x, t) :: lb ++ rev l2' /\ existsb (matches addr) la = false /\
      walking w' socketp s' past (la ++ (x, t) :: lb) l2'
  end.

Lemma walking_assoc w socketp s past xt todo l2 : walking w socketp s (past ++ [xt]) todo l2 <-> walking w socketp s past (xt :: todo) l2.
Proof. split; intros [G1 G2 G3 G4 G5]; split; try done; rewrite <- ?app_assoc in *; done. Qed.

(** A response that does not match is passed. *)
Lemma search_passes socketp addr past x t l w r w' : matches addr (x, t) = false ->
  search_result socketp addr (past ++ [(x, t)]) l w r w' -> search_result socketp addr past ((x, t) :: l) w r w'.
Proof.
  intros Em [F Hr]. rewrite <- app_assoc in F. split; [exact F|]. cbn [find]. rewrite Em.
  destruct (find (matches addr) l) as [[x' t']|].
  - destruct Hr as (s' & la & lb & l2' & -> & -> & Hno & Hwk). exists s', ((x, t) :: la), lb, l2'.
    rewrite <- app_assoc. split; [done|]. split; [done|]. split; [cbn [existsb]; by rewrite Em|]. by apply walking_assoc.
  - destruct Hr as (-> & s' & Hwk). split; [done|]. exists s'. by apply walking_assoc.
Qed.

Lemma walking_cell w socketp s past x t todo l2 : walking w socketp s past ((x, t) :: todo) l2 ->
  x <> EB_NULL /\ cells (w_pool w) !! x = Some (IResponse (rs_set_next (head_cell todo) t)).
Proof.
  intros [[Hwf _] _ Hf _ _]. split.
  - intros ->. apply (wf_null _ Hwf). eapply (chain_live (T := eb_response)); [exact Hf|]. rewrite fmap_app. set_solver.
  - destruct (chain_splice _ _ _ _ _ _ EB_NULL [] Hf eq_refl ltac:(apply not_elem_of_nil)) as ((n & E & Hc) & _).
    rewrite <- (chain_head _ _ _ Hc). exact E.
Qed.

(** The response at hand, from either list. *)
Lemma search_step socketp addr fuel past w s x t todo l2 :
  (forall w s past todo l2, walking w socketp s past todo l2 -> (length todo + length l2 < fuel)%nat ->
     exists r w', find_response socketp addr fuel (last_cell past) (head_cell todo) w = Some (r, w') /\
       search_result socketp addr past (todo ++ rev l2) w r w') ->
  walking w socketp s past ((x, t) :: todo) l2 -> (length todo + length l2 < fuel)%nat ->
  exists r w', (let* response := EB_RESPONSE x in
      if rs_address response =? (addr .& 0xFFFE) then ret (Some (last_cell past, x))
      else find_response socketp addr fuel x (rs_next response)) w = Some (r, w') /\
    search_result socketp addr past (((x, t) :: todo) ++ rev l2) w r w'.
Proof.
  intros IH Hwk Hlen. destruct (walking_cell _ _ _ _ _ _ _ _ Hwk) as [_ Ex].
  mstep (EB_RESPONSE_some _ _ _ Ex). change (rs_address (rs_set_next (head_cell todo) t)) with (rs_address t).
  change (rs_next (rs_set_next (head_cell todo) t)) with (head_cell todo).
  destruct (rs_address t =? (addr .& 0xFFFE)) eqn:Em.
  - exists (Some (last_cell past, x)), w. split; [done|]. split; [by apply frame_refl; apply Hwk|]. cbn [app find]. unfold matches at 1. cbn [snd].
    rewrite Em. exists s, [], todo, l2. by rewrite app_nil_r.
  - destruct (IH w s (past ++ [(x, t)]) todo l2 ltac:(by apply walking_assoc) Hlen) as (r & w' & R & Hr).
    rewrite last_cell_snoc in R. exists r, w'. split; [exact R|]. by apply search_passes.
Qed.

Lemma find_response_spec socketp addr fuel : forall w s past todo l2,
  walking w socketp s past todo l2 -> (length todo + length l2 < fuel)%nat ->
  exists r w', find_response socketp addr fuel (last_cell past) (head_cell todo) w = Some (r, w') /\
    search_result socketp addr past (todo ++ rev l2) w r w'.
Proof.
  induction fuel as [|fuel IH]; intros w s past todo l2 Hwk Hlen; [lia|]. destruct todo as [|[x t] todo].
  - cbn [head_cell find_response]. rewrite Z.eqb_refl.
    destruct (walking_flip w socketp s past l2 Hwk) as (s1 & w1 & fl & R1 & -> & Hwk1 & F1).
    rewrite (bind_some _ _ _ _ _ R1). cbn [app]. destruct (rev l2) as [|[x t] todo] eqn:El; cbn [head_cell].
    + rewrite Z.eqb_refl. exists None, w1. split; [done|]. split; [exact F1|]. cbn. split; [done|]. by exists s1.
    + destruct (walking_cell _ _ _ _ _ _ _ _ Hwk1) as [Hxn _]. rewrite (proj2 (Z.eqb_neq _ EB_NULL)) by done.
      assert (length l2 = S (length todo)) as Hl2 by (apply (f_equal length) in El; by rewrite length_rev in El).
      destruct (search_step socketp addr fuel past w1 s1 x t todo [] IH Hwk1) as (r & w' & R & F & Hr); [cbn in *; lia|].
      rewrite app_nil_r in F, Hr. exists r, w'. split; [exact R|]. split; [|exact Hr].
      eapply frame_trans; [exact F1|exact F|]. done.
  - cbn [head_cell find_response]. destruct (walking_cell _ _ _ _ _ _ _ _ Hwk) as [Hxn _].
    rewrite !(proj2 (Z.eqb_neq _ EB_NULL)) by done. rewrite bind_ret.
    rewrite !(proj2 (Z.eqb_neq _ EB_NULL)) by done.
    apply (search_step socketp addr fuel past w s x t todo l2 IH Hwk). cbn in Hlen. lia.
Qed.

(** [x] is in the queue between [la] and [lb], behind the place [prevp]. *)
Definition positioned w (socketp prevp x : Z) (la : responses) (t : eb_response) (lb : responses) : Prop :=
  exists s lb1 l2, walking w socketp s [] (la ++ (x, t) :: lb1) l2 /\ lb = lb1 ++ rev l2 /\ prevp = last_cell la.

Lemma positioned_queue w socketp prevp x la t lb :
  positioned w socketp prevp x la t lb -> queue w socketp (la ++ (x, t) :: lb).
Proof.
  intros (s & lb1 & l2 & [_ Hs Hf Hl Hnd] & -> & _). exists s, (la ++ (x, t) :: lb1), l2.
  cbn [app] in *. rewrite <- app_assoc in *. by split_and!.
Qed.

Lemma positioned_cell w socketp prevp x la t lb :
  positioned w socketp prevp x la t lb ->
  exists n, cells (w_pool w) !! x = Some (IResponse (rs_set_next n t)).
Proof.
  intros (s & lb1 & l2 & [_ _ Hf _ _] & _).
  destruct (chain_splice _ _ _ _ _ _ EB_NULL [] Hf eq_refl ltac:(apply not_elem_of_nil)) as ((n & E & _) & _). eauto.
Qed.

(** What happens to other cells and to the record itself keeps its place. *)
Lemma positioned_change w w' socketp prevp x la t t' lb :
  positioned w socketp prevp x la t lb -> pool_ok w' ->
  (forall y, y <> x -> queue_cells socketp (la ++ (x, t) :: lb) y -> cells (w_pool w') !! y = cells (w_pool w) !! y) ->
  (forall n, cells (w_pool w) !! x = Some (IResponse (rs_set_next n t)) -> cells (w_pool w') !! x = Some (IResponse (rs_set_next n t'))) ->
  positioned w' socketp prevp x la t' lb.
Proof.
  intros Hp Hw Hsame Hx. pose proof (positioned_queue _ _ _ _ _ _ _ Hp) as (_ & _ & _ & _ & _ & _ & _ & Hndq).
  destruct Hp as (s & lb1 & l2 & [Hw0 Hs Hf Hl Hnd] & -> & ->). cbn [app] in *.
  assert (NoDup (la ++ (x, t) :: lb1).*1) as Hnd1 by (exact (chain_NoDup _ _ _ Hf)).
  assert (forall l p, chain (cells (w_pool w)) p (l ++ (x, t) :: lb1) -> (forall y, y ∈ l.*1 -> y ∈ la.*1) -> NoDup (l ++ (x, t) :: lb1).*1 ->
    chain (cells (w_pool w')) p (l ++ (x, t') :: lb1)) as Hchain.
  { induction l as [|[z u] l IH]; intros p Hc Hsub Hn.
    - destruct Hc as (-> & Hxn & n & E & Hc). split; [done|]. split; [done|]. exists n. split; [by apply Hx|].
      eapply chain_agree; [|exact Hc]. intros y Hy. cbn in Hn. apply NoDup_cons in Hn as [Hn _].
      apply Hsame; [set_solver|]. right. rewrite fmap_app, elem_of_app. right. cbn. right. rewrite fmap_app. set_solver.
    - destruct Hc as (-> & Hzn & n & E & Hc). cbn in Hn. apply NoDup_cons in Hn as [Hn1 Hn2].
      split; [done|]. split; [done|]. exists n. split.
      + rewrite Hsame; [done| |right; rewrite fmap_app, elem_of_app; left; apply Hsub; cbn; by left].
        intros ->. apply Hn1. rewrite fmap_app. set_solver.
      + apply IH; [done| |done]. intros y Hy. apply Hsub. cbn. by right. }
  exists s, lb1, l2. split; [|done]. split.
  - done.
  - rewrite Hsame; [done| |by left]. intros ->. eapply response_not_socket; [exact Hf| |exact Hs].
    rewrite fmap_app, elem_of_app. right. cbn. by left.
  - cbn [app]. apply Hchain; [exact Hf|done|exact Hnd1].
  - eapply chain_agree; [|exact Hl]. intros y Hy. apply Hsame.
    + intros ->. rewrite <- app_assoc, fmap_app in Hnd. apply NoDup_app in Hnd as (_ & _ & Hnd).
      cbn in Hnd. apply NoDup_cons in Hnd as [Hnd _]. apply Hnd. rewrite fmap_app, elem_of_app. right. by apply elem_of_rev_fst.
    + right. rewrite fmap_app, elem_of_app. right. cbn. right. rewrite fmap_app, elem_of_app. right. by apply elem_of_rev_fst.
  - cbn [app]. revert Hnd. rewrite !fmap_app. done.
Qed.

(** Taking the record out of the queue. *)
Lemma unlink_spec w socketp prevp x la t lb r :
  positioned w socketp prevp x la t lb -> cells (w_pool w) !! x = Some (IResponse r) ->
  exists w', relink_response socketp prevp (rs_next r) w = Some (tt, w') /\ queue w' socketp (la ++ lb) /\
    frame (queue_cells socketp la) w w'.
Proof.
  intros (s & lb1 & l2 & [Hw Hs Hf Hl Hnd] & -> & ->) Er. cbn [app] in *.
  assert (forall y, y ∈ la.*1 \/ y ∈ lb1.*1 -> y ∉ l2.*1) as Hsep.
  { intros y Hy Hin. apply elem_of_rev_fst in Hin. rewrite !fmap_app, <- app_assoc in Hnd. cbn in Hnd.
    apply NoDup_app in Hnd as (_ & Hd & Hnd). apply NoDup_cons in Hnd as [_ Hnd].
    apply NoDup_app in Hnd as (_ & Hd2 & _). destruct Hy as [Hy|Hy].
    - apply (Hd y Hy). set_solver.
    - by apply (Hd2 y Hy). }
  assert (NoDup (la ++ lb1 ++ rev l2).*1) as Hnd'.
  { rewrite !fmap_app, <- app_assoc in Hnd. rewrite !fmap_app. cbn in Hnd.
    apply NoDup_app in Hnd as (N1 & N2 & N3). apply NoDup_cons in N3 as [_ N3]. apply NoDup_app.
    split; [done|]. split; [|done]. intros y Hy. specialize (N2 y Hy). set_solver. }
  unfold relink_response, last_cell. destruct la as [|[y u] la'] eqn:El using rev_ind; [|clear IHla'].
  - cbn [last app] in *. rewrite Z.eqb_refl. mstep (EB_SOCKET_some _ _ _ Hs).
    destruct Hf as (Hfx & Hxn & n & E & Hf). rewrite Er in E. injection E as ->. cbn [rs_next set_next response_node].
    destruct (poke_frame (queue_cells socketp []) socketp (ISocket (sk_set_responses n (sk_last_response s) s)) _ w Hw Hs)
      as (w' & R & F & C & _); [done|done|by left|].
    exists w'. split; [exact R|]. split; [|exact F]. eexists _, lb1, l2. rewrite C, lookup_insert_eq.
    split; [done|]. split; [|split; [|done]]; (apply chain_insert_ne; [|done]); intros Hin;
      [exact (response_not_socket _ _ _ _ _ Hf Hin Hs)|exact (response_not_socket _ _ _ _ _ Hl Hin Hs)].
  - rewrite last_snoc. rewrite <- app_assoc in Hf. cbn [app] in Hf.
    destruct (chain_remove_next _ _ _ _ _ _ _ _ Hf) as (nx & Ex & Ey & _ & Hc2).
    change (cells (w_pool w) !! x = Some (IResponse (rs_set_next nx t))) in Ex. rewrite Er in Ex. injection Ex as ->.
    change (rs_next (rs_set_next nx t)) with nx.
    assert (y <> EB_NULL) as Hyn by (intros ->; destruct Hw as [Hwf _]; apply (wf_null _ Hwf); by eexists).
    rewrite (proj2 (Z.eqb_neq _ EB_NULL)) by done. mstep (EB_RESPONSE_some _ _ _ Ey).
    destruct (poke_frame (queue_cells socketp (la' ++ [(y, u)])) y (IResponse (rs_set_next nx u)) _ w Hw Ey)
      as (w' & R & F & C & _); [done|done|right; rewrite fmap_app, elem_of_app; right; cbn; by left|].
    exists w'. split; [exact R|]. split; [|exact F]. exists s, (la' ++ (y, u) :: lb1), l2. rewrite C. split_and!.
    + rewrite lookup_insert_ne; [done|]. intros ->. by rewrite Hs in Ey.
    + exact Hc2.
    + apply chain_insert_ne; [|done]. apply Hsep. left. rewrite fmap_app, elem_of_app. right. cbn. by left.
    + by rewrite <- !app_assoc.
    + exact Hnd'.
Qed.

(** Looking up the response an answer is for. *)
Lemma lookup_spec w socketp addr q :
  pool_ok w -> queue w socketp q ->
  exists s r w', EB_SOCKET socketp w = Some (s, w) /\
    find_response socketp addr (S (size (cells (w_pool w)))) EB_NULL (sk_first_response s) w = Some (r, w') /\
    frame (queue_cells socketp q) w w' /\
    match find (matches addr) q with
    | None => r = None /\ queue w' socketp q
    | Some (x, t) => exists prevp la lb, r = Some (prevp, x) /\ q = la ++ (x, t) :: lb /\
        existsb (matches addr) la = false /\ positioned w' socketp prevp x la t lb
    end.
Proof.
  intros Hw (s & l1 & l2 & Hs & H1 & H2 & -> & Hnd).
  assert (walking w socketp s [] l1 l2) as Hwk by (by split).
  assert (length l1 + length l2 <= size (cells (w_pool w)))%nat as Hlen.
  { rewrite <- size_dom. assert (list_to_set (l1 ++ rev l2).*1 ⊆ (dom (cells (w_pool w)) : gset Z)) as Hsub.
    { intros y Hy%elem_of_list_to_set. rewrite fmap_app, elem_of_app, elem_of_rev_fst in Hy.
      destruct Hy as [Hy|Hy]; [exact (chain_dom _ _ _ _ H1 Hy)|exact (chain_dom _ _ _ _ H2 Hy)]. }
    apply subseteq_size in Hsub. rewrite size_list_to_set in Hsub by done.
    by rewrite length_fmap, length_app, length_rev in Hsub. }
  destruct (find_response_spec socketp addr (S (size (cells (w_pool w)))) w s [] l1 l2 Hwk ltac:(lia)) as (r & w' & R & F & Hr).
  cbn [app] in *. exists s, r, w'. split; [by apply EB_SOCKET_some|].
  rewrite <- (chain_head _ _ _ H1) in R. split; [exact R|]. split; [exact F|].
  destruct (find (matches addr) (l1 ++ rev l2)) as [[x t]|].
  - destruct Hr as (s' & la & lb & l2' & -> & Heq & Hno & Hwk'). exists (last_cell la), la, (lb ++ rev l2').
    split; [done|]. split; [done|]. split; [done|]. by exists s', lb, l2'.
  - destruct Hr as (-> & s' & [_ G2 G3 G4 G5]). split; [done|]. exists s', (l1 ++ rev l2), [].
    cbn [app rev] in *. rewrite app_nil_r in *. by split_and!.
Qed.

(** ** Killing the responses of a device *)

Lemma filter_loop_spec devicep (belongs : Z * eb_response -> bool) l : forall fuel p good bad g b w,
  pool_ok w -> chain (cells (w_pool w)) p l -> chain (cells (w_pool w)) good g -> chain (cells (w_pool w)) bad b ->
  NoDup (l ++ g ++ b).*1 -> (length l <= fuel)%nat ->
  Forall (fun xt => exists c, cells (w_pool w) !! rs_cycle xt.2 = Some (ICycle c) /\
                              belongs xt = (cy_link c =? devicep)) l ->
  exists w' good' bad', filter_loop devicep fuel p good bad w = Some ((good', bad'), w') /\
    frame (fun y => y ∈ l.*1) w w' /\
    chain (cells (w_pool w')) good' (rev (List.filter (fun xt => negb (belongs xt)) l) ++ g) /\
    chain (cells (w_pool w')) bad' (rev (List.filter belongs l) ++ b).
Proof.
  induction l as [|[x t] l IH]; intros fuel p good bad g b w Hw Hl Hg Hb Hnd Hf Hcy.
  - cbn in Hl. subst p. exists w, good, bad. split; [by destruct fuel|]. split; [by apply frame_refl|done].
  - destruct Hl as (-> & Hx & n & E & Hl). destruct fuel as [|fuel]; cbn in Hf; [lia|].
    apply Forall_cons in Hcy as [(c & Ec & Hbel) Hcy]. cbn [fst snd] in Ec.
    cbn [app] in Hnd. rewrite fmap_cons in Hnd. cbn [fst] in Hnd. apply NoDup_cons in Hnd as [Hxn Hnd].
    assert ((x ∉ l.*1) /\ (x ∉ g.*1) /\ (x ∉ b.*1)) as (Hxl & Hxg & Hxb).
    { rewrite !fmap_app, !elem_of_app in Hxn. tauto. }
    cbn [filter_loop]. rewrite (proj2 (Z.eqb_neq _ EB_NULL)) by done. mstep (EB_RESPONSE_some _ _ _ E).
    change (rs_cycle (set_next n t)) with (rs_cycle t). change (rs_next (set_next n t)) with n.
    mstep (EB_CYCLE_some _ _ _ Ec). rewrite <- Hbel.
    set (dest := if belongs (x, t) then bad else good).
    destruct (poke_frame (fun y => y ∈ ((x, t) :: l).*1) x (IResponse (rs_set_next dest t)) _ w Hw E)
      as (w1 & R & F & C & _); [done|done|cbn; by left|].
    assert (chain (cells (w_pool w1)) n l /\ chain (cells (w_pool w1)) good g /\ chain (cells (w_pool w1)) bad b) as (Hl1 & Hg1 & Hb1)
      by (rewrite C; split_and!; by apply chain_insert_ne).
    assert (Forall (fun xt => exists c, cells (w_pool w1) !! rs_cycle xt.2 = Some (ICycle c) /\
                              belongs xt = (cy_link c =? devicep)) l) as Hcy1.
    { eapply Forall_impl; [exact Hcy|]. intros [y u] (c' & Ec' & Hb'). exists c'. split; [|done].
      rewrite C, lookup_insert_ne; [done|]. intros Heq. cbn [snd] in *. rewrite <- Heq, E in Ec'. done. }
    assert (cells (w_pool w1) !! x = Some (IResponse (rs_set_next dest t))) as Ex1 by (by rewrite C, lookup_insert_eq).
    cbn [List.filter] in *. unfold dest in *. destruct (belongs (x, t)); cbn [negb].
    + assert (chain (cells (w_pool w1)) x ((x, t) :: b)) as Hb2 by (split; [done|]; split; [done|]; by exists bad).
      destruct (IH fuel n good x g ((x, t) :: b) w1 (proj1 F) Hl1 Hg1 Hb2) as (w2 & gd & bd & R2 & F2 & C2 & C3).
      * rewrite !fmap_app in Hnd |- *. cbn.
        assert (Permutation (l.*1 ++ g.*1 ++ x :: b.*1) (x :: l.*1 ++ g.*1 ++ b.*1)) as ->
          by (rewrite !app_assoc; symmetry; apply Permutation_middle).
        constructor; [|done]. rewrite !elem_of_app. tauto.
      * lia.
      * done.
      * exists w2, gd, bd. mstep R. split; [exact R2|]. split; [|split; [exact C2|]].
        -- eapply frame_trans; [exact F|exact F2|]. intros y _ Hy. cbn. by right.
        -- cbn [rev]. by rewrite <- app_assoc.
    + assert (chain (cells (w_pool w1)) x ((x, t) :: g)) as Hg2 by (split; [done|]; split; [done|]; by exists good).
      destruct (IH fuel n x bad ((x, t) :: g) b w1 (proj1 F) Hl1 Hg2 Hb1) as (w2 & gd & bd & R2 & F2 & C2 & C3).
      * rewrite !fmap_app in Hnd |- *. cbn.
        assert (Permutation (l.*1 ++ x :: g.*1 ++ b.*1) (x :: l.*1 ++ g.*1 ++ b.*1)) as ->
          by (symmetry; apply Permutation_middle).
        constructor; [|done]. rewrite !elem_of_app. tauto.
      * lia.
      * done.
      * exists w2, gd, bd. mstep R. split; [exact R2|]. split; [|split; [|exact C3]].
        -- eapply frame_trans; [exact F|exact F2|]. intros y _ Hy. cbn. by right.
        -- cbn [rev]. by rewrite <- app_assoc.
Qed.

Lemma filter_rev {A} (f : A -> bool) l : List.filter f (rev l) = rev (List.filter f l).
Proof.
  induction l as [|a l IH]; [done|]. cbn [rev List.filter]. rewrite List.filter_app, IH. cbn.
  destruct (f a); [done|]. by rewrite app_nil_r.
Qed.

Lemma filter_parts_perm (belongs : Z * eb_response -> bool) (l : responses) :
  Permutation ((rev (List.filter (fun xt => negb (belongs xt)) l)).*1 ++ (rev (List.filter belongs l)).*1) l.*1.
Proof.
  rewrite <- fmap_app. apply fmap_Permutation. rewrite <- rev_app_distr, <- Permutation_rev.
  induction l as [|a l IH]; [done|]. cbn. destruct (belongs a); cbn; [|rewrite <- Permutation_middle]; by rewrite IH.
Qed.

Lemma filter_app_rev (f : Z * eb_response -> bool) (l1 l2 : responses) :
  List.filter f (l1 ++ rev l2) = List.filter f l1 ++ rev (List.filter f l2).
Proof. by rewrite List.filter_app, filter_rev. Qed.

(** A cell of another kind is in no list of responses. *)
Lemma not_response m p (l : responses) y it : chain m p l -> m !! y = Some it -> match it with IResponse _ => False | _ => True end -> y ∉ l.*1.
Proof. intros Hc E Hn Hin. destruct (chain_cell (T := eb_response) _ _ _ _ Hc Hin) as (u & E'). rewrite E in E'. by injection E' as ->. Qed.

(** Closing a device takes exactly its cycles out of the response queue, and
    both the responses kept and those handed to the caller to be reported as timed out
    stay in the order in which they were sent. *)
Theorem kill_inflight_partitions (socketp devicep : Z) (q : responses) (belongs : Z * eb_response -> bool) w
    (Hw : pool_ok w) (Hq : queue w socketp q)
    (Hcy : Forall (fun xt => exists c, cells (w_pool w) !! rs_cycle xt.2 = Some (ICycle c) /\
                                       belongs xt = (cy_link c =? devicep)) q) :
  exists bad w', partition_inflight socketp devicep w = Some (bad, w') /\ pool_ok w' /\
    queue w' socketp (List.filter (fun xt => negb (belongs xt)) q) /\
    chain (cells (w_pool w')) bad (List.filter belongs q) /\
    (exists s, cells (w_pool w') !! socketp = Some (ISocket s) /\ sk_last_response s = EB_NULL).
Proof.
  destruct Hq as (s & l1 & l2 & Hs & H1 & H2 & -> & Hnd).
  assert (l1.*1 ## l2.*1 /\ NoDup l1.*1 /\ NoDup l2.*1) as (Hdisj & Hnd1 & Hnd2).
  { rewrite fmap_app in Hnd. apply NoDup_app in Hnd as (N1 & N2 & _). split_and!; [|done|exact (chain_NoDup _ _ _ H2)].
    intros y Hy1 Hy2. apply (N2 y Hy1). by apply elem_of_rev_fst. }
  apply Forall_app in Hcy as [Hcy1 Hcy2].
  assert (Forall (fun xt => exists c, cells (w_pool w) !! rs_cycle xt.2 = Some (ICycle c) /\ belongs xt = (cy_link c =? devicep)) l2) as Hcy2'.
  { apply Forall_forall. intros xt Hin. apply (proj1 (Forall_forall _ _) Hcy2).
    apply list_elem_of_In. rewrite <- in_rev. by apply list_elem_of_In. }
  unfold partition_inflight, eb_socket_filter_inflight. mstep (EB_SOCKET_some _ _ _ Hs).
  rewrite bind_assoc, bind_fuel.
  destruct (filter_loop_spec devicep belongs l2 (size (cells (w_pool w))) (sk_last_response s) EB_NULL EB_NULL [] [] w Hw H2 eq_refl eq_refl)
    as (w1 & g1 & b1 & R1 & F1 & G1 & B1); [by rewrite !app_nil_r|by eapply chain_length|done|].
  mstep R1. rewrite !app_nil_r in *.
  assert (chain (cells (w_pool w1)) (sk_first_response s) l1) as H1'.
  { eapply chain_agree; [|exact H1]. intros y Hy. destruct F1 as (_ & _ & F1). apply F1; [|exact (chain_live _ _ _ _ H1 Hy)].
    intros Hin. by apply (Hdisj y). }
  destruct (reverse_list_pool _ _ w1 (proj1 (proj1 F1)) H1') as (fl & w2 & R2 & E2 & Hwf2 & Hsz2 & Hc2 & Hsame2 & Hlive2).
  unfold eb_response_flip. mstep R2.
  assert (pool_ok w2) as Hw2 by (split; [done|rewrite Hsz2; apply F1]).
  assert (forall y, y ∈ (rev (List.filter (fun xt => negb (belongs xt)) l2)).*1 \/ y ∈ (rev (List.filter belongs l2)).*1 -> y ∈ l2.*1) as Hsub.
  { intros y [Hy|Hy]; rewrite elem_of_rev_fst in Hy; apply list_elem_of_fmap in Hy as (z & -> & Hz);
      apply list_elem_of_In, filter_In in Hz as [Hz _]; apply list_elem_of_In in Hz; apply list_elem_of_fmap; eauto. }
  assert (forall p (l : responses), chain (cells (w_pool w1)) p l -> (forall y, y ∈ l.*1 -> y ∈ l2.*1) -> chain (cells (w_pool w2)) p l) as Hkeep.
  { intros p l Hc Hl. eapply chain_agree; [|exact Hc]. intros y Hy. apply Hsame2. intros Hin. by apply (Hdisj y), Hl. }
  assert (forall y it, cells (w_pool w) !! y = Some it -> match it with IResponse _ => False | _ => True end ->
    is_free it = false -> cells (w_pool w2) !! y = Some it) as Hck.
  { intros y it E Hn Hfr. rewrite Hsame2 by exact (not_response _ _ _ _ _ H1 E Hn). destruct F1 as (_ & _ & F1).
    rewrite F1; [done|exact (not_response _ _ _ _ _ H2 E Hn)|by eexists]. }
  rewrite ?bind_assoc, bind_fuel.
  destruct (filter_loop_spec devicep belongs (rev l1) (size (cells (w_pool w2))) fl g1 b1 _ _ w2 Hw2 Hc2
      (Hkeep _ _ G1 (fun y Hy => Hsub y (or_introl Hy))) (Hkeep _ _ B1 (fun y Hy => Hsub y (or_intror Hy)))) as (w3 & g & b & R3 & F3 & G3 & B3).
  { rewrite !fmap_app, filter_parts_perm, <- fmap_app, fmap_app. apply NoDup_app. split; [exact (chain_NoDup _ _ _ Hc2)|split; [|done]].
    intros y Hy Hy2. rewrite elem_of_rev_fst in Hy. by apply (Hdisj y). }
  { by eapply chain_length. }
  { apply Forall_forall. intros xt Hin. apply list_elem_of_In in Hin. rewrite <- in_rev in Hin. apply list_elem_of_In in Hin.
    destruct (proj1 (Forall_forall _ _) Hcy1 xt Hin) as (c & Ec & Hb). exists c. split; [by apply Hck|done]. }
  mstep R3. rewrite filter_rev, rev_involutive in G3, B3.
  assert (cells (w_pool w3) !! socketp = Some (ISocket s)) as Hs3.
  { pose proof (Hck _ _ Hs I eq_refl) as Hs2. destruct F3 as (_ & _ & F3). rewrite F3; [done| |by eexists].
    rewrite elem_of_rev_fst. exact (not_response _ _ _ _ _ H1 Hs I). }
  destruct (poke_frame (fun y => y = socketp) socketp (ISocket (sk_set_responses g EB_NULL s)) _ w3 (proj1 F3) Hs3)
    as (w4 & R4 & F4 & C4 & _); [done|done|done|].
  mstep R4. exists b, w4. split; [done|]. split; [apply F4|].
  rewrite !filter_app_rev. split; [|split].
  - eexists _, _, []. rewrite C4, lookup_insert_eq. split; [done|]. cbn [sk_first_response sk_last_response sk_set_responses].
    split; [apply chain_insert_ne; [|exact G3]; intros Hin; exact (response_not_socket _ _ _ _ _ G3 Hin Hs3)|].
    split; [done|]. split; [by rewrite app_nil_r|]. exact (chain_NoDup _ _ _ G3).
  - rewrite C4. apply chain_insert_ne; [|exact B3]. intros Hin. exact (response_not_socket _ _ _ _ _ B3 Hin Hs3).
  - eexists. rewrite C4, lookup_insert_eq. done.
Qed.

(** ** The answer to a read *)

Context `{Callbacks X}.

(** The value is where the application asked for it: at the read destination, or
    in the operation. *)
Definition delivered (op : Z) (o : eb_operation) (value : Z) w : Prop :=
  if (op_flags o .& EB_OP_MASK) =? EB_OP_READ_PTR then w_user w !! op_value o = Some value
  else exists n, cells (w_pool w) !! op = Some (IOperation (set_next n (op_set_value value o))).

Lemma is_read_link_free : link_free is_read.
Proof. done. Qed.

Lemma eb_find_read_spec l p w :
  chain (cells (w_pool w)) p l -> eb_find_read p w = Some (first_cell (skip_to is_read l), w).
Proof.
  intros Hc. unfold eb_find_read. rewrite bind_fuel.
  eapply find_op_spec; [exact is_read_link_free|exact Hc|by eapply chain_length].
Qed.

Lemma pool_ok_user w u : pool_ok w <-> pool_ok (mk_world (w_pool w) u (w_sdb w) (w_ext w)).
Proof. done. Qed.

(** Only the record and the operation at the cursor change. *)
Lemma answer_value_spec w x t n op o l value :
  pool_ok w -> cells (w_pool w) !! x = Some (IResponse (rs_set_next n t)) ->
  chain (cells (w_pool w)) (rs_write_cursor t) ((op, o) :: l) ->
  exists w', answer_value x value w = Some (false, w') /\ pool_ok w' /\ delivered op o value w' /\
    cells (w_pool w') !! x = Some (IResponse (rs_set_next n (rs_set_write_cursor (first_cell (skip_to is_read l)) t))) /\
    (forall y, y <> x -> y <> op -> cells (w_pool w') !! y = cells (w_pool w) !! y) /\
    (cells (w_pool w') !! op = cells (w_pool w) !! op \/
     exists k, cells (w_pool w) !! op = Some (IOperation (set_next k o)) /\
               cells (w_pool w') !! op = Some (IOperation (op_set_value value (set_next k o)))).
Proof.
  intros Hw Ex Hc. unfold answer_value. mstep (EB_RESPONSE_some _ _ _ Ex).
  change (rs_write_cursor (rs_set_next n t)) with (rs_write_cursor t).
  pose proof (chain_NoDup _ _ _ Hc) as Hnd. cbn in Hnd. apply NoDup_cons in Hnd as [Hopl _].
  destruct Hc as (-> & Hop & k & Eo & Hc). rewrite (proj2 (Z.eqb_neq _ EB_NULL)) by done.
  assert (x <> op) as Hxo by (intros ->; rewrite Ex in Eo; done).
  assert (x ∉ l.*1) as Hxl.
  { intros Hin. destruct (chain_cell (T := eb_operation) _ _ _ _ Hc Hin) as (u & E). by rewrite Ex in E. }
  mstep (EB_OPERATION_some _ _ _ Eo). change (op_flags (set_next k o)) with (op_flags o).
  change (op_value (set_next k o)) with (op_value o). change (op_next (set_next k o)) with k.
  set (t' := rs_set_write_cursor (first_cell (skip_to is_read l)) t).
  destruct ((op_flags o .& EB_OP_MASK) =? EB_OP_READ_PTR) eqn:Ep.
  - unfold user_store. set (w1 := mk_world (w_pool w) (<[op_value o := value]> (w_user w)) (w_sdb w) (w_ext w)).
    rewrite (bind_some _ _ _ tt w1) by done. mstep (eb_find_read_spec l k w1 Hc).
    destruct (poke_frame (fun y => y = x) x (IResponse (rs_set_next n t')) _ w1 Hw Ex) as (w2 & R & F & C & _); [done|done|done|].
    change (poke x (IResponse (rs_set_write_cursor (first_cell (skip_to is_read l)) (rs_set_next n t))) w1 = Some (tt, w2)) in R.
    mstep R. exists w2. split; [done|]. split; [apply F|]. rewrite C. split_and!.
    + unfold delivered. rewrite Ep. destruct F as (_ & -> & _). cbn. by rewrite lookup_insert_eq.
    + by rewrite lookup_insert_eq.
    + intros y Hy _. by rewrite lookup_insert_ne.
    + left. by rewrite lookup_insert_ne.
  - destruct (poke_frame (fun y => y = op) op (IOperation (op_set_value value (set_next k o))) _ w Hw Eo) as (w1 & R1 & F1 & C1 & _); [done|done|done|].
    mstep R1. assert (chain (cells (w_pool w1)) k l) as Hc1 by (rewrite C1; by apply chain_insert_ne).
    mstep (eb_find_read_spec l k w1 Hc1).
    assert (cells (w_pool w1) !! x = Some (IResponse (rs_set_next n t))) as Ex1 by (by rewrite C1, lookup_insert_ne).
    destruct (poke_frame (fun y => y = x) x (IResponse (rs_set_next n t')) _ w1 (proj1 F1) Ex1) as (w2 & R & F & C & _); [done|done|done|].
    change (poke x (IResponse (rs_set_write_cursor (first_cell (skip_to is_read l)) (rs_set_next n t))) w1 = Some (tt, w2)) in R.
    mstep R. exists w2. split; [done|]. split; [apply F|]. rewrite C, C1. split_and!.
    + unfold delivered. rewrite Ep. exists k. rewrite C, C1, lookup_insert_ne, lookup_insert_eq by done. done.
    + by rewrite lookup_insert_eq.
    + intros y Hy Hyo. by rewrite !lookup_insert_ne.
    + right. exists k. rewrite lookup_insert_ne, lookup_insert_eq by done. done.
Qed.

Lemma cycle_status_ext (l l' : list (Z * eb_operation)) :
  map (fun xo => op_flags xo.2) l = map (fun xo => op_flags xo.2) l' -> cycle_status l = cycle_status l'.
Proof.
  intros E. unfold cycle_status.
  assert (existsb (fun xo : Z * eb_operation => had_error xo.2) l = existsb (fun xo : Z * eb_operation => had_error xo.2) l') as ->; [|done].
  revert l' E. induction l as [|[x o] l IH]; intros [|[y u] l'] E; try done.
  injection E as E1 E2. cbn in *. unfold had_error. rewrite E1. f_equal. by apply IH.
Qed.

(** What is left to do once the last answer of a cycle is in: the callback, with
    the cycle already out of the queue, then the release of the cycle. *)
Definition finish (x : Z) (t : eb_response) (c : eb_cycle) (status : Z) : M X unit :=
  call (cy_callback c) (cy_user_data c) (cy_link c) (cy_ops c) status ;;;
  eb_cycle_destroy (rs_cycle t) ;;;
  eb_free (rs_cycle t) ;;;
  eb_free x.

Lemma complete_spec w socketp prevp x la t lb c ops :
  positioned w socketp prevp x la t lb ->
  cells (w_pool w) !! rs_cycle t = Some (ICycle c) -> chain (cells (w_pool w)) (cy_ops c) ops ->
  rs_write_cursor t = EB_NULL -> rs_status_cursor t = EB_NULL ->
  exists w', pool_ok w' /\ queue w' socketp (la ++ lb) /\
    complete_response socketp prevp x false w = finish x t c (cycle_status ops) w'.
Proof.
  intros Hp Ec Hops Ew Es. destruct (positioned_cell _ _ _ _ _ _ _ Hp) as (n & Ex).
  unfold complete_response. mstep (EB_RESPONSE_some _ _ _ Ex).
  change (rs_write_cursor (rs_set_next n t)) with (rs_write_cursor t).
  change (rs_status_cursor (rs_set_next n t)) with (rs_status_cursor t).
  change (rs_cycle (rs_set_next n t)) with (rs_cycle t). rewrite Ew, Es, !Z.eqb_refl. cbn [orb andb].
  mstep (EB_CYCLE_some _ _ _ Ec).
  destruct (unlink_spec _ _ _ _ _ _ _ _ Hp Ex) as (w1 & R1 & Hq1 & F1). mstep R1.
  assert (chain (cells (w_pool w1)) (cy_ops c) ops) as Hops1.
  { eapply chain_agree; [|exact Hops]. intros y Hy. destruct F1 as (_ & _ & F1).
    apply F1; [|exact (chain_live _ _ _ _ Hops Hy)].
    destruct (chain_cell (T := eb_operation) _ _ _ _ Hops Hy) as (u & Eu).
    destruct Hp as (s & lb1 & l2 & [_ Hs Hf _ _] & _ & _). intros [->|Hin].
    - by rewrite Hs in Eu.
    - destruct (chain_cell (T := eb_response) _ _ _ y Hf) as (v & Ev); [cbn; rewrite fmap_app, elem_of_app; by left|by rewrite Ev in Eu]. }
  destruct (load_list_spec (T := eb_operation) _ _ w1 Hops1) as (ops' & R2 & _ & _ & Hn).
  mstep R2. exists w1. split; [apply F1|]. split; [done|]. unfold finish.
  rewrite (cycle_status_ext ops' ops); [done|]. apply (f_equal (map (fun xo : Z * eb_operation => op_flags xo.2))) in Hn. by rewrite !map_map in Hn.
Qed.

(** A search through the queue touches no operation and no cycle. *)
Lemma queue_spares w w0 socketp q y : queue w socketp q -> frame (queue_cells socketp q) w w0 ->
  (exists u, cells (w_pool w) !! y = Some (IOperation u)) \/ (exists u, cells (w_pool w) !! y = Some (ICycle u)) ->
  cells (w_pool w0) !! y = cells (w_pool w) !! y.
Proof.
  intros (s' & l1 & l2 & Hs & H1 & H2 & Heq & _) (_ & _ & F0) Hy.
  apply F0; [|destruct Hy as [(u & E)|(u & E)]; by eexists]. intros [->|Hin].
  - destruct Hy as [(u & E)|(u & E)]; by rewrite E in Hs.
  - rewrite Heq, fmap_app, elem_of_app, elem_of_rev_fst in Hin.
    destruct Hin as [Hin|Hin]; [destruct (chain_cell _ _ _ _ H1 Hin) as (v & Ev)|destruct (chain_cell _ _ _ _ H2 Hin) as (v & Ev)];
      destruct Hy as [(u & E)|(u & E)]; by rewrite E in Ev.
Qed.

Lemma operation_not_queued w socketp q op u : queue w socketp q -> cells (w_pool w) !! op = Some (IOperation u) ->
  op <> socketp /\ op ∉ q.*1.
Proof.
  intros (s' & l1 & l2 & Hs & H1 & H2 & Heq & _) Eop. split; [by intros ->; rewrite Hs in Eop|].
  rewrite Heq, fmap_app, elem_of_app, elem_of_rev_fst. intros [Hin|Hin];
    [destruct (chain_cell _ _ _ _ H1 Hin) as (v & Ev)|destruct (chain_cell _ _ _ _ H2 Hin) as (v & Ev)]; by rewrite Ev in Eop.
Qed.

(** Storing a value in one operation keeps the flags of all. *)
Lemma answered_flags w0 w1 x r op o value p ops :
  chain (T := eb_operation) (cells (w_pool w0)) p ops -> cells (w_pool w0) !! x = Some (IResponse r) ->
  (forall y, y <> x -> y <> op -> cells (w_pool w1) !! y = cells (w_pool w0) !! y) ->
  cells (w_pool w1) !! op = cells (w_pool w0) !! op \/
    (exists k, cells (w_pool w0) !! op = Some (IOperation (set_next k o)) /\
               cells (w_pool w1) !! op = Some (IOperation (op_set_value value (set_next k o)))) ->
  exists ops1, chain (T := eb_operation) (cells (w_pool w1)) p ops1 /\
    map (fun xo : Z * eb_operation => op_flags xo.2) ops1 = map (fun xo : Z * eb_operation => op_flags xo.2) ops.
Proof.
  intros Hc0 Ex Hsame1 Hop1. set (f := fun u => op_set_value value u).
  assert (forall y, y ∈ ops.*1 -> y <> x) as Hyx.
  { intros y Hy ->. destruct (chain_cell _ _ _ _ Hc0 Hy) as (u & Eu). by rewrite Ex in Eu. }
  destruct Hop1 as [Hsm|(k' & Ek & Ek1)].
  - exists ops. split; [|done]. eapply chain_agree; [|exact Hc0]. intros y Hy.
    destruct (decide (y = op)) as [->|Hne]; [done|]. apply Hsame1; [by apply Hyx|done].
  - exists (map (fun xt => if decide (xt.1 = op) then (xt.1, f xt.2) else xt) ops). split.
    + eapply chain_agree; [|exact (chain_update _ _ _ op f (set_next k' o) ltac:(done) Ek Hc0)].
      intros y Hy. assert (y ∈ ops.*1) as Hyo.
      { apply list_elem_of_fmap in Hy as (z & -> & Hz). apply list_elem_of_fmap in Hz as (z0 & -> & Hz0).
        apply list_elem_of_fmap. exists z0. split; [by case_decide|done]. }
      destruct (decide (y = op)) as [->|Hne]; [by rewrite lookup_insert_eq|].
      rewrite lookup_insert_ne by done. apply Hsame1; [by apply Hyx|done].
    + rewrite map_map. apply map_ext. intros [y u]. cbn [fst snd]. by case_decide.
Qed.

End queue.

(** ** Instances *)

Section sample.
Import Sample.

#[local] Instance sample_callbacks : Callbacks ext := {|
  call cb user device op status :=
    match cb with cb_user f => e_callback f user device op status | _ => ret tt end |}.

(** Two cycles in flight: cycle 2 to device 9 (a read, then a checked write),
    cycle 7 to device 10 (a read); the second is still in the second list. *)
Definition r5 : eb_response := mk_response 0x8000 (u16 70005) EB_NULL 2 3 3.
Definition r6 : eb_response := mk_response 0x8002 (u16 70006) EB_NULL 7 8 EB_NULL.
Definition o3 : eb_operation := mk_operation 0x100 0 (EB_OP_READ_VAL .| EB_OP_CHECKED) 4 4.
Definition o4 : eb_operation := mk_operation 0x104 17 EB_OP_WRITE 4 EB_NULL.
Definition o8 : eb_operation := mk_operation 0x200 0 EB_OP_READ_VAL 4 EB_NULL.
Definition inflight : list item :=
  [ISocket (mk_socket EB_NULL EB_NULL 5 6 1 0x44); ISocketAux (mk_socket_aux 70000 0x8004 EB_NULL);
   ICycle (mk_cycle (cb_user 7) 0 3 9); IOperation o3; IOperation o4; IResponse r5; IResponse r6;
   ICycle (mk_cycle (cb_user 8) 0 8 10); IOperation o8].

Lemma inflight_ok : pool_ok (world_of inflight []).
Proof. exact (pool_ok_seed inflight [] eq_refl). Qed.

Lemma inflight_queue : queue (world_of inflight []) 0 [(5, r5); (6, r6)].
Proof.
  eexists _, [(5, r5)], [(6, r6)]. split; [vm_compute; reflexivity|]. split_and!.
  - split; [reflexivity|]. split; [discriminate|]. exists EB_NULL. split; [vm_compute; reflexivity|reflexivity].
  - split; [reflexivity|]. split; [discriminate|]. exists EB_NULL. split; [vm_compute; reflexivity|reflexivity].
  - reflexivity.
  - cbn. apply NoDup_cons. split; [rewrite list_elem_of_singleton; discriminate|apply NoDup_singleton].
Qed.

Lemma inflight_ops8 : chain (cells (w_pool (world_of inflight []))) 8 [(8, o8)].
Proof. split; [reflexivity|]. split; [discriminate|]. exists EB_NULL. split; [vm_compute; reflexivity|reflexivity]. Qed.


Lemma status_reaches_operations_witness :
  exists w', answer_status 5 0x44 2 (world_of inflight []) = Some (false, w') /\
    chain (cells (w_pool w')) 3 [(3, flag_error true o3); (4, flag_error false o4)].
Proof.
  destruct (status_reaches_operations 5 0x44 2 0 [true; false] r5 [(3, o3); (4, o4)] (world_of inflight []) inflight_ok)
    as (w' & E & _ & Hc & _); [vm_compute; reflexivity| |vm_compute; split; [reflexivity|discriminate]|reflexivity|reflexivity|].
  - split; [reflexivity|]. split; [discriminate|]. exists 4. split; [vm_compute; reflexivity|].
    split; [reflexivity|]. split; [discriminate|]. exists EB_NULL. split; [vm_compute; reflexivity|reflexivity].
  - exists w'. exact (conj E Hc).
Defined.

(** The 16-bit clock has wrapped: 70005 is sent as 4469. *)
Lemma timeout_rebuilds_deadline_witness :
  eb_socket_timeout 0 (world_of inflight []) = Some (70005, world_of inflight []).
Proof.
  apply (timeout_rebuilds_deadline 0 70005 (mk_socket EB_NULL EB_NULL 5 6 1 0x44) (mk_socket_aux 70000 0x8004 EB_NULL) r5);
    [vm_compute; reflexivity|vm_compute; reflexivity|discriminate|vm_compute; reflexivity|reflexivity|cbn; lia|cbn; lia].
Defined.

Lemma kill_inflight_partitions_witness :
  exists bad w', partition_inflight 0 9 (world_of inflight []) = Some (bad, w') /\
    queue w' 0 [(6, r6)] /\ chain (cells (w_pool w')) bad [(5, r5)].
Proof.
  destruct (kill_inflight_partitions 0 9 [(5, r5); (6, r6)] (fun xt => xt.1 =? 5) (world_of inflight []) inflight_ok inflight_queue)
    as (bad & w' & E & _ & Hq & Hc & _).
  - constructor; [|constructor; [|constructor]].
    + exists (mk_cycle (cb_user 7) 0 3 9). split; [vm_compute; reflexivity|reflexivity].
    + exists (mk_cycle (cb_user 8) 0 8 10). split; [vm_compute; reflexivity|reflexivity].
  - exists bad, w'. exact (conj E (conj Hq Hc)).
Defined.
End sample.
