(* ===== verification/Device.v ===== *)
(** Remote devices: opening, handshake, closing and the one-operation cycles of
    src/api/glue/device.c. *)
From stdpp Require Import base list gmap.
From Stdlib Require Import ZArith Lia.
From S2P Require Import Prelude Widths Store World Linked Cycle Format Master Slave Response.

Definition sk_set_first_device (x : Z) (s : eb_socket) : eb_socket :=
  mk_socket x (sk_first_handler s) (sk_first_response s) (sk_last_response s) (sk_aux s) (sk_widths s).

Definition dv_set_next (x : Z) (d : eb_device) : eb_device :=
  mk_device (dv_socket d) x (dv_un_link d) (dv_unready d) (dv_widths d) (dv_link d) (dv_transport d).
Definition dv_set_widths (x : Z) (d : eb_device) : eb_device :=
  mk_device (dv_socket d) (dv_next d) (dv_un_link d) (dv_unready d) x (dv_link d) (dv_transport d).
Definition dv_set_link (x : Z) (d : eb_device) : eb_device :=
  mk_device (dv_socket d) (dv_next d) (dv_un_link d) (dv_unready d) (dv_widths d) x (dv_transport d).
Definition dv_set_transport (x : Z) (d : eb_device) : eb_device :=
  mk_device (dv_socket d) (dv_next d) (dv_un_link d) (dv_unready d) (dv_widths d) (dv_link d) x.

Section device.
Context {X : Type} `{Env X} `{Callbacks X} `{Blocking X}.

(** Find a transport that takes the address: the transport and the status of its
    [connect]. *)
Fixpoint connect_loop (fuel : nat) (transportp linkp : Z) (address : list Z) (passive : bool) (status : Z)
    : M X (Z * Z) :=
  if transportp =? EB_NULL then ret (transportp, status)
  else match fuel with
    | O => fault
    | S fuel =>
      let* transport := EB_TRANSPORT transportp in
      let* status := t_connect (tr_link_type transport) transportp linkp address passive in
      if negb (status =? EB_ADDRESS) then ret (transportp, status)
      else connect_loop fuel (tr_next transport) linkp address passive status
    end.

(** Give back what was allocated for a device that could not be opened. *)
Definition drop_device (devicep linkp : Z) : M X unit := eb_free linkp ;;; eb_free devicep.

(** Enter a connected device into the socket's list. *)
Definition enlist_device (socketp devicep transportp : Z) : M X unit :=
  let* socket := EB_SOCKET socketp in
  let* device := EB_DEVICE devicep in
  poke devicep (IDevice (dv_set_next (sk_first_device socket) (dv_set_transport transportp device))) ;;;
  poke socketp (ISocket (sk_set_first_device devicep socket)).

(** * Closing *)

(** Report the cycles of a list as timed out and release them. *)
Fixpoint close_cycles (devicep : Z) (fuel : nat) (cyclep : Z) : M X unit :=
  if cyclep =? EB_NULL then ret tt
  else match fuel with
    | O => fault
    | S fuel =>
      let* cycle := EB_CYCLE cyclep in
      poke cyclep (ICycle (cy_set_link devicep cycle)) ;;;
      call (cy_callback cycle) (cy_user_data cycle) devicep (cy_ops cycle) EB_TIMEOUT ;;;
      eb_cycle_destroy cyclep ;;;
      eb_free cyclep ;;;
      close_cycles devicep fuel (cy_link cycle)
    end.

(** The place before [devicep] in the socket's list ([EB_NULL]: the socket
    itself), and [devicep] or [EB_NULL]. *)
Fixpoint find_linked (devicep : Z) (fuel : nat) (prevp i : Z) : M X (Z * Z) :=
  if i =? EB_NULL then ret (prevp, i)
  else if i =? devicep then ret (prevp, i)
  else match fuel with
    | O => fault
    | S fuel =>
      let* idev := EB_DEVICE i in
      find_linked devicep fuel i (dv_next idev)
    end.

Definition relink_device (socketp prevp x : Z) : M X unit :=
  if prevp =? EB_NULL then
    let* socket := EB_SOCKET socketp in
    poke socketp (ISocket (sk_set_first_device x socket))
  else
    let* prev := EB_DEVICE prevp in
    poke prevp (IDevice (dv_set_next x prev)).

(** Take the device out of the list, close its link and release it. *)
Definition remove_device (socketp devicep : Z) : M X Z :=
  let* device := EB_DEVICE devicep in
  let* socket := EB_SOCKET socketp in
  let* transport := EB_TRANSPORT (dv_transport device) in
  let* n := pool_fuel in
  let* ' (prevp, i) := find_linked devicep n EB_NULL (sk_first_device socket) in
  if i =? EB_NULL then ret EB_FAIL
  else
    relink_device socketp prevp (dv_next device) ;;;
    when (negb (dv_link device =? EB_NULL))
      (t_disconnect (tr_link_type transport) (dv_transport device) (dv_link device) ;;;
       eb_free (dv_link device)) ;;;
    eb_free devicep ;;;
    ret EB_OK.

Definition eb_device_close (devicep : Z) : M X Z :=
  let* device := EB_DEVICE devicep in
  let socketp := dv_socket device in
  if negb (dv_unready device =? 0) then ret EB_BUSY
  else
    let* firstp :=
      (if negb (dv_un_link device =? devicep) then
         poke devicep (IDevice (dv_set_un_link devicep device)) ;;;
         eb_socket_kill_inflight socketp devicep ;;;
         ret (dv_un_link device)
       else ret EB_NULL) in
    let* prevp := reverse_list (T := eb_cycle) firstp in
    let* n := pool_fuel in
    close_cycles devicep n prevp ;;;
    remove_device socketp devicep.

(** * Opening *)

(** The probe: magic, version and probe flag, proposed widths, tag. *)
Definition probe_request (widths devicep : Z) : list Z :=
  [0x4E; 0x6F; 0x11; widths] ++ be_bytes 4 devicep.

(** [while (timeout > 0 && device->link != EB_NULL && device->widths == 0)] *)
Fixpoint await_answer (fuel : nat) (socketp devicep timeout : Z) : M X unit :=
  let* device := EB_DEVICE devicep in
  if (0 <? timeout) && negb (dv_link device =? EB_NULL) && (dv_widths device =? 0) then
    match fuel with
    | O => fault
    | S fuel =>
      let* got := b_run socketp timeout in
      await_answer fuel socketp devicep (timeout - got)
    end
  else ret tt.

(** [do ... while (device->widths == 0 && device->link != EB_NULL && --attempts != 0)] *)
Fixpoint probe_loop (fuel : nat) (socketp devicep proposed attempts : Z) : M X unit :=
  match fuel with
  | O => fault
  | S fuel =>
    let* device := EB_DEVICE devicep in
    let* transport := EB_TRANSPORT (dv_transport device) in
    t_send (tr_link_type transport) (dv_transport device) (dv_link device) (probe_request proposed devicep) ;;;
    await_answer b_fuel socketp devicep 3000000 ;;;
    let* device := EB_DEVICE devicep in
    if (dv_widths device =? 0) && negb (dv_link device =? EB_NULL) && negb (attempts - 1 =? 0)
    then probe_loop fuel socketp devicep proposed (attempts - 1)
    else ret tt
  end.

(** After the probes: settle on a width. *)
Definition settle_width (devicep proposed : Z) : M X (Z * Z) :=
  let* device := EB_DEVICE devicep in
  if dv_link device =? EB_NULL then eb_device_close devicep ;;; ret (EB_FAIL, EB_NULL)
  else if dv_widths device =? 0 then eb_device_close devicep ;;; ret (EB_TIMEOUT, EB_NULL)
  else
    let device := dv_set_widths (dv_widths device .& proposed) device in
    poke devicep (IDevice device) ;;;
    if eb_width_possible (dv_widths device) then
      poke devicep (IDevice (dv_set_widths (eb_width_refine (dv_widths device)) device)) ;;;
      ret (EB_OK, devicep)
    else eb_device_close devicep ;;; ret (EB_WIDTH, EB_NULL).

(** Returns the status and [*result]. *)
Definition eb_device_open (socketp : Z) (address : list Z) (proposed_widths attempts : Z) : M X (Z * Z) :=
  let* devicep := eb_new in
  if devicep =? EB_NULL then ret (EB_OOM, EB_NULL)
  else
    let* linkp := eb_new in
    if linkp =? EB_NULL then eb_free devicep ;;; ret (EB_OOM, EB_NULL)
    else
      let* socket := EB_SOCKET socketp in
      let* aux := EB_SOCKET_AUX (sk_aux socket) in
      let proposed := proposed_widths .& sk_widths socket in
      if negb (eb_width_possible proposed) then
        drop_device devicep linkp ;;; ret (EB_WIDTH, EB_NULL)
      else
        poke devicep (IDevice (mk_device socketp 0 EB_NULL 0 0 linkp 0)) ;;;
        let* n := pool_fuel in
        let* ' (transportp, status) := connect_loop n (ax_first_transport aux) linkp address false EB_OK in
        if transportp =? EB_NULL then drop_device devicep linkp ;;; ret (EB_ADDRESS, EB_NULL)
        else if negb (status =? EB_OK) then drop_device devicep linkp ;;; ret (status, EB_NULL)
        else
          enlist_device socketp devicep transportp ;;;
          let* transport := EB_TRANSPORT transportp in
          let attempts := if t_mtu (tr_link_type transport) =? 0 then 1 else attempts in
          if attempts =? 0 then
            if negb (eb_width_refined proposed) then
              eb_device_close devicep ;;; ret (EB_WIDTH, EB_NULL)
            else
              let* device := EB_DEVICE devicep in
              poke devicep (IDevice (dv_set_widths proposed device)) ;;;
              ret (EB_OK, devicep)
          else
            probe_loop b_fuel socketp devicep proposed attempts ;;;
            settle_width devicep proposed.

Definition eb_socket_passive (socketp : Z) (address : list Z) : M X Z :=
  let* devicep := eb_new in
  if devicep =? EB_NULL then ret EB_OOM
  else
    let* linkp := eb_new in
    if linkp =? EB_NULL then eb_free devicep ;;; ret EB_OOM
    else
      let* socket := EB_SOCKET socketp in
      let* aux := EB_SOCKET_AUX (sk_aux socket) in
      poke devicep (IDevice (mk_device socketp 0 devicep 0 0 linkp 0)) ;;;
      let* n := pool_fuel in
      let* ' (transportp, status) := connect_loop n (ax_first_transport aux) linkp address true EB_OK in
      if transportp =? EB_NULL then drop_device devicep linkp ;;; ret EB_ADDRESS
      else if negb (status =? EB_OK) then drop_device devicep linkp ;;; ret status
      else
        enlist_device socketp devicep transportp ;;;
        ret EB_OK.

(** A connection accepted on [linkp] becomes a passive device; the result is the
    link to accept the next one on. *)
Definition eb_device_new_slave (socketp transportp linkp : Z) : M X Z :=
  let refuse :=
    let* transport := EB_TRANSPORT transportp in
    t_disconnect (tr_link_type transport) transportp linkp ;;; ret linkp in
  let* devicep := eb_new in
  if devicep =? EB_NULL then refuse
  else
    let* new_linkp := eb_new in
    if new_linkp =? EB_NULL then eb_free devicep ;;; refuse
    else
      let* socket := EB_SOCKET socketp in
      poke devicep (IDevice (mk_device socketp (sk_first_device socket) devicep 0 0 linkp transportp)) ;;;
      poke socketp (ISocket (sk_set_first_device devicep socket)) ;;;
      ret new_linkp.

(** * Queries and single operations *)

Definition eb_device_width (devicep : Z) : M X Z :=
  let* device := EB_DEVICE devicep in ret (dv_widths device).
Definition eb_device_socket (devicep : Z) : M X Z :=
  let* device := EB_DEVICE devicep in ret (dv_socket device).

Definition eb_device_read (devicep address format data user_data : Z) (cb : option eb_callback) : M X Z :=
  let* ' (out, cycle) := eb_cycle_open devicep user_data cb in
  if negb (out =? EB_OK) then ret out
  else eb_cycle_read cycle address format data ;;; eb_cycle_close cycle.

Definition eb_device_write (devicep address format data user_data : Z) (cb : option eb_callback) : M X Z :=
  let* ' (out, cycle) := eb_cycle_open devicep user_data cb in
  if negb (out =? EB_OK) then ret out
  else eb_cycle_write cycle address format data ;;; eb_cycle_close cycle.
End device.

(** * The list of devices *)

(** An operation of a transport: it ends, and leaves the library's memory alone. *)
Definition outside {X A} (m : M X A) : Prop := forall w, exists a x',
  m w = Some (a, mk_world (w_pool w) (w_user w) (w_sdb w) x').

(** The socket's devices, the last one entered first. *)
Definition devices {X} (w : world X) (socketp : Z) (l : list (Z * eb_device)) : Prop :=
  exists s, cells (w_pool w) !! socketp = Some (ISocket s) /\ chain (cells (w_pool w)) (sk_first_device s) l.

Section device_list.
Context {X : Type} `{Env X} `{!PoolExpander e_expand} `{Callbacks X} `{Blocking X}.
Implicit Types (w : world X) (l : list (Z * eb_device)).

Lemma devices_agree w w' socketp l :
  (forall y, y = socketp \/ y ∈ l.*1 -> cells (w_pool w') !! y = cells (w_pool w) !! y) ->
  devices w socketp l -> devices w' socketp l.
Proof.
  intros Hsame (s & Es & Hc). exists s. rewrite Hsame by (by left). split; [done|].
  eapply chain_agree; [|exact Hc]. intros y Hy. apply Hsame. by right.
Qed.

Lemma devices_apart w socketp l y : devices w socketp l -> y ∈ l.*1 -> y <> socketp.
Proof.
  intros (s & Es & Hc) Hy ->. destruct (chain_cell (T := eb_device) _ _ _ _ Hc Hy) as (d & E). by rewrite E in Es.
Qed.

Lemma find_device_spec x d l2 w : forall l1 n prev p,
  chain (cells (w_pool w)) p (l1 ++ (x, d) :: l2) -> (length (l1 ++ (x, d) :: l2) <= n)%nat ->
  find_linked x n prev p w = Some ((match last l1 with Some u => u.1 | None => prev end, x), w).
Proof.
  induction l1 as [|[y u] l1 IH]; intros n prev p Hc Hn; (destruct n as [|n]; cbn in Hn; [lia|]);
    pose proof (chain_NoDup _ _ _ Hc) as Hnd; cbn [app] in Hc; destruct Hc as (-> & Hx & k & E & Hc);
    cbn [find_linked]; rewrite (proj2 (Z.eqb_neq _ EB_NULL)) by done.
  - by rewrite Z.eqb_refl.
  - cbn in Hnd. apply NoDup_cons in Hnd as [Hy _]. rewrite fmap_app, elem_of_app in Hy.
    rewrite (proj2 (Z.eqb_neq y x)) by (intros ->; apply Hy; right; cbn; by left).
    mstep (EB_DEVICE_some _ _ _ E). cbn [dv_next set_next device_node].
    rewrite (IH n y k Hc) by lia. rewrite last_cons. by destruct (last l1).
Qed.

(** The list without the device, whose cell is still there. *)
Lemma relink_device_spec socketp l1 x d l2 w :
  pool_ok w -> devices w socketp (l1 ++ (x, d) :: l2) ->
  exists w' nx, cells (w_pool w) !! x = Some (IDevice (dv_set_next nx d)) /\
    relink_device socketp (match last l1 with Some u => u.1 | None => EB_NULL end) nx w = Some (tt, w') /\
    frame (fun y => y = socketp \/ y ∈ l1.*1) w w' /\ devices w' socketp (l1 ++ l2) /\
    (forall y, live (cells (w_pool w')) y <-> live (cells (w_pool w)) y).
Proof.
  intros Hw Hdev. pose proof (fun y => devices_apart w socketp _ y Hdev) as Hns. destruct Hdev as (s & Es & Hc).
  destruct l1 as [|[y u] l1 _] using rev_ind.
  - cbn [app last] in *. destruct Hc as (Hp & Hx & nx & E & Hc).
    destruct (poke_frame (fun y => y = socketp \/ y ∈ @nil Z) socketp (ISocket (sk_set_first_device nx s)) _ w Hw Es)
      as (w' & R & F & C & L); [done|done|by left|].
    exists w', nx. split; [exact E|]. unfold relink_device. rewrite Z.eqb_refl.
    rewrite (bind_some _ _ _ _ _ (EB_SOCKET_some _ _ _ Es)). split; [exact R|]. split; [exact F|]. split; [|exact L].
    exists (sk_set_first_device nx s). rewrite C, lookup_insert_eq. split; [done|]. cbn [sk_first_device sk_set_first_device].
    apply chain_insert_ne; [|exact Hc]. intros Hin. apply (Hns socketp); [|done]. cbn. by right.
  - rewrite last_snoc. cbn [fst]. rewrite <- app_assoc in Hc, Hns. cbn [app] in Hc, Hns.
    destruct (chain_remove_next _ _ _ _ _ _ _ _ Hc) as (nx & Ex & Ey & Hc1 & Hc2).
    assert (y <> EB_NULL) as Hnn.
    { intros Heq. pose proof Hw as [Hwf _]. apply (wf_null _ Hwf). rewrite <- Heq. by eexists. }
    assert (y ∈ (l1 ++ [(y, u)]).*1) as Hy by (rewrite fmap_app, elem_of_app; right; cbn; by left).
    destruct (poke_frame (fun z => z = socketp \/ z ∈ (l1 ++ [(y, u)]).*1) y (IDevice (dv_set_next nx u)) _ w Hw Ey)
      as (w' & R & F & C & L); [done|done|by right|].
    exists w', nx. split; [exact Ex|]. unfold relink_device. rewrite (proj2 (Z.eqb_neq _ EB_NULL)) by done.
    rewrite (bind_some _ _ _ _ _ (EB_DEVICE_some _ _ _ Ey)). split; [exact R|]. split; [exact F|]. split; [|exact L].
    exists s. rewrite C. split; [|rewrite <- app_assoc; exact Hc2].
    rewrite lookup_insert_ne; [done|]. apply Hns. rewrite fmap_app, elem_of_app. right. cbn. by left.
Qed.

(** Whatever the transports do, only the library changes the pool. *)
Lemma outside_step {A} (m : M X A) w :
  outside m -> pool_ok w ->
  exists a w', m w = Some (a, w') /\ pool_ok w' /\ w_pool w' = w_pool w /\ w_sdb w' = w_sdb w.
Proof.
  intros Hm Hw. destruct (Hm w) as (a & x' & E). exists a. eexists. split; [exact E|]. by split_and!.
Qed.

(** Closing a passive device takes exactly that device out of the socket's
    list, wherever it stands, closes its link and releases its two cells and
    nothing else; with a cycle still open on it the device is left alone. *)
Theorem passive_close_removes_device (socketp x : Z) (d : eb_device) (tr : eb_transport) (ln : eb_link) l1 l2 w
    (Hw : pool_ok w) (Hdev : devices w socketp (l1 ++ (x, d) :: l2)) (Hs : dv_socket d = socketp)
    (Hpassive : dv_un_link d = x)
    (Htr : cells (w_pool w) !! dv_transport d = Some (ITransport tr))
    (Hln : cells (w_pool w) !! dv_link d = Some (ILink ln))
    (Hout : outside (t_disconnect (tr_link_type tr) (dv_transport d) (dv_link d))) :
  if dv_unready d =? 0 then
    exists w', eb_device_close x w = Some (EB_OK, w') /\ pool_ok w' /\ devices w' socketp (l1 ++ l2) /\
      forall y, live (cells (w_pool w')) y <-> live (cells (w_pool w)) y /\ y <> x /\ y <> dv_link d
  else eb_device_close x w = Some (EB_BUSY, w).
Proof.
  pose proof (devices_apart w socketp _ x Hdev) as Hxs. rewrite fmap_app, elem_of_app in Hxs.
  specialize (Hxs ltac:(right; cbn; by left)). pose proof Hdev as (s & Es & Hc).
  destruct (relink_device_spec socketp l1 x d l2 w Hw Hdev) as (w1 & nx & Ex & R1 & F1 & D1 & L1).
  unfold eb_device_close. mstep (EB_DEVICE_some _ _ _ Ex). cbn [dv_unready dv_set_next dv_un_link dv_socket].
  destruct (dv_unready d =? 0); cbn [negb]; [|done]. rewrite Hpassive, Z.eqb_refl. cbn [negb].
  rewrite bind_ret.
  assert (reverse_list (T := eb_cycle) EB_NULL w = Some (EB_NULL, w)) as Hrev.
  { unfold reverse_list. by destruct (base.size _). }
  mstep Hrev. rewrite bind_fuel.
  assert (forall n, close_cycles x n EB_NULL w = Some (tt, w)) as Hcl by (by intros []).
  mstep (Hcl (base.size (cells (w_pool w)))). unfold remove_device. rewrite Hs.
  mstep (EB_DEVICE_some _ _ _ Ex). mstep (EB_SOCKET_some _ _ _ Es). cbn [dv_transport dv_set_next].
  unfold EB_TRANSPORT. mstep (peek_some _ _ _ Htr). rewrite bind_ret. rewrite bind_fuel.
  mstep (find_device_spec x d l2 w l1 _ EB_NULL _ Hc (chain_length _ _ _ Hc)).
  assert (x <> EB_NULL /\ dv_link d <> EB_NULL) as [Hnn Hln0].
  { pose proof Hw as [Hwf _]. split; intros Heq; apply (wf_null _ Hwf); rewrite <- Heq; by eexists. }
  rewrite (proj2 (Z.eqb_neq _ EB_NULL)) by done. cbn [dv_next dv_link dv_set_next]. mstep R1.
  rewrite (proj2 (Z.eqb_neq _ EB_NULL)) by done. cbn [negb when].
  destruct (outside_step _ w1 Hout (proj1 F1)) as (? & w2 & R2 & Hw2 & P2 & _). mstep R2.
  assert (forall y, y = x \/ y = dv_link d -> ~ (y = socketp \/ y ∈ (l1 ++ l2).*1)) as Hsep.
  { pose proof (chain_NoDup _ _ _ Hc) as Hnd. rewrite fmap_app in Hnd. cbn in Hnd.
    intros y [->| ->] [Hy|Hy]; [done| | |].
    - rewrite fmap_app, elem_of_app in Hy. apply NoDup_app in Hnd as (_ & N1 & N2). apply NoDup_cons in N2 as [N2 _]. set_solver.
    - by rewrite Hy, Es in Hln.
    - destruct (chain_cell (T := eb_device) _ _ _ (dv_link d) Hc) as (u & E); [|by rewrite E in Hln].
      rewrite fmap_app in Hy |- *. cbn. set_solver. }
  assert (x <> dv_link d) as Hxl by (intros Heq; rewrite <- Heq, Ex in Hln; done).
  destruct (free_frame (fun y => y = dv_link d) (dv_link d) w2 Hw2) as (w3 & R3 & F3 & L3);
    [rewrite P2; apply L1; by eexists|done|].
  destruct (free_frame (fun y => y = x) x w3 (proj1 F3)) as (w4 & R4 & F4 & L4);
    [apply L3; split; [rewrite P2; apply L1; by eexists|done]|done|].
  mstep R3. mstep R4. exists w4. split; [done|]. split; [apply F4|]. split.
  - eapply devices_agree; [|exact D1]. intros y Hy. pose proof Hy as Hyl.
    assert (live (cells (w_pool w1)) y) as Hl1.
    { destruct D1 as (s1 & Es1 & Hc1). destruct Hy as [->|Hy]; [by eexists|exact (chain_live _ _ _ _ Hc1 Hy)]. }
    destruct F4 as (_ & _ & F4), F3 as (_ & _ & F3). rewrite F4, F3, P2; try done.
    + intros ->. apply (Hsep (dv_link d)); [by right|done].
    + by rewrite P2.
    + intros ->. apply (Hsep x); [by left|done].
    + apply L3. rewrite P2. split; [done|]. intros ->. apply (Hsep (dv_link d)); [by right|done].
  - intros y. rewrite L4, L3, P2, L1. tauto.
Qed.

(** A fresh cell becomes the first device of the socket. *)
Lemma link_device socketp s l x f w w2 :
  devices w socketp l -> cells (w_pool w) !! socketp = Some (ISocket s) -> pool_ok w2 ->
  (forall y, live (cells (w_pool w)) y -> cells (w_pool w2) !! y = cells (w_pool w) !! y) ->
  ~ live (cells (w_pool w)) x -> cells (w_pool w2) !! x = Some IRaw -> x <> EB_NULL -> dv_next f = sk_first_device s ->
  exists w', (forall A (k : M X A), (poke x (IDevice f) ;;; poke socketp (ISocket (sk_set_first_device x s)) ;;; k) w2 = k w') /\ pool_ok w' /\
    devices w' socketp ((x, f) :: l) /\ (forall y, live (cells (w_pool w')) y <-> live (cells (w_pool w2)) y).
Proof.
  intros Hdev Es Hw2 Hsame Hdead Ex2 Hn Hf. pose proof Hdev as (s' & Es' & Hc). rewrite Es in Es'. injection Es' as <-.
  destruct (poke_frame (fun y => y = x) x (IDevice f) IRaw w2 Hw2 Ex2) as (w3 & R3 & F3 & C3 & L3); [done|done|done|].
  assert (x <> socketp) as Hxs by (intros ->; apply Hdead; by eexists).
  assert (cells (w_pool w2) !! socketp = Some (ISocket s)) as Es2 by (rewrite Hsame; [done|by eexists]).
  destruct (poke_frame (fun y => y = socketp) socketp (ISocket (sk_set_first_device x s)) (ISocket s) w3 (proj1 F3))
    as (w4 & R4 & F4 & C4 & L4); [rewrite C3, lookup_insert_ne by done; done|done|done|done|].
  exists w4. split; [intros A k; by rewrite (bind_some _ _ _ _ _ R3), (bind_some _ _ _ _ _ R4)|]. split; [apply F4|]. split; [|intros y; by rewrite L4, L3].
  exists (sk_set_first_device x s). rewrite C4, lookup_insert_eq. split; [done|].
  cbn [sk_first_device sk_set_first_device chain]. split; [done|]. split; [done|]. exists (sk_first_device s).
  rewrite lookup_insert_ne by done. rewrite C3, lookup_insert_eq. split; [destruct f; cbn in Hf; by rewrite Hf|].
  assert (forall y, y ∈ l.*1 -> live (cells (w_pool w)) y) as Hll by (intros y Hy; exact (chain_live _ _ _ _ Hc Hy)).
  assert (x ∉ l.*1) as Hxl by (intros Hin; by apply Hdead, Hll).
  assert (socketp ∉ l.*1) as Hsl by (intros Hin; by apply (devices_apart w socketp l socketp Hdev)).
  apply chain_insert_ne; [done|]. apply chain_insert_ne; [done|].
  eapply chain_agree; [|exact Hc]. intros y Hy. by apply Hsame, Hll.
Qed.

(** Accepting a connection either enters a passive device for it at the head
    of the list and returns a fresh cell for the next connection, or, out of
    memory, hangs up, leaves devices and cells as they were and returns the same
    link cell. *)
Theorem accept_adds_or_hangs_up (socketp transportp linkp : Z) (tr : eb_transport) l w
    (Hw : pool_ok w) (Hdev : devices w socketp l)
    (Htr : cells (w_pool w) !! transportp = Some (ITransport tr))
    (Hln : live (cells (w_pool w)) linkp)
    (Hout : outside (t_disconnect (tr_link_type tr) transportp linkp)) :
  exists r w', eb_device_new_slave socketp transportp linkp w = Some (r, w') /\ pool_ok w' /\
    ((exists x next, r <> linkp /\ ~ live (cells (w_pool w)) r /\ ~ live (cells (w_pool w)) x /\ x <> r /\
        devices w' socketp ((x, mk_device socketp next x 0 0 linkp transportp) :: l) /\
        forall y, live (cells (w_pool w')) y <-> live (cells (w_pool w)) y \/ y = x \/ y = r) \/
     (r = linkp /\ devices w' socketp l /\
        forall y, live (cells (w_pool w')) y <-> live (cells (w_pool w)) y)).
Proof.
  pose proof Hdev as (s & Es & Hc). unfold eb_device_new_slave.
  set (refuse := bind (EB_TRANSPORT transportp) _).
  assert (forall w', pool_ok w' -> cells (w_pool w') !! transportp = Some (ITransport tr) ->
    exists w'', refuse w' = Some (linkp, w'') /\ pool_ok w'' /\ w_pool w'' = w_pool w') as Hrefuse.
  { intros w' Hw' E. unfold refuse, EB_TRANSPORT. mstep (peek_some _ _ _ E). rewrite bind_ret.
    destruct (outside_step _ w' Hout Hw') as (? & w'' & R & G1 & G2 & _). mstep R. by exists w''. }
  destruct (eb_new_spec w Hw) as (x & p1 & R1 & Hw1 & Hpost1). mstep R1.
  destruct Hpost1 as [[-> ->]|Ha1].
  { rewrite upd_pool_id, Z.eqb_refl. destruct (Hrefuse w Hw Htr) as (w2 & R & Hw2 & P2).
    exists linkp, w2. split; [done|]. split; [done|]. right. rewrite P2. split; [done|].
    split; [|done]. eapply devices_agree; [|exact Hdev]. intros y _. by rewrite P2. }
  set (w1 := upd_pool p1 w) in *. pose proof (alloc_frame _ _ _ Ha1 Hw1) as F1.
  pose proof Ha1 as (Hn1 & Hdead1 & E1 & Hl1 & Hkeep1 & _). rewrite (proj2 (Z.eqb_neq x EB_NULL)) by done.
  destruct (eb_new_spec w1 Hw1) as (r & p2 & R2 & Hw2 & Hpost2). mstep R2.
  destruct Hpost2 as [[-> ->]|Ha2].
  { rewrite upd_pool_id, Z.eqb_refl.
    destruct (free_frame (fun y => y = x) x w1 Hw1) as (w2 & R3 & F3 & L3); [by exists IRaw|done|]. mstep R3.
    assert (forall y, live (cells (w_pool w)) y -> cells (w_pool w2) !! y = cells (w_pool w) !! y) as Hsame.
    { intros y Hy. destruct F3 as (_ & _ & F3), F1 as (_ & _ & F1). rewrite F3;
        [exact (F1 y (fun f => f) Hy)|intros Heq; by subst|apply Hl1; by right]. }
    destruct (Hrefuse w2 (proj1 F3)) as (w3 & R & Hw3 & P3); [rewrite Hsame by (by eexists); done|].
    exists linkp, w3. split; [done|]. split; [done|]. right. rewrite P3. split; [done|]. split.
    - eapply devices_agree; [|exact Hdev]. intros y Hy. rewrite P3. apply Hsame.
      destruct Hy as [->|Hy]; [by eexists|exact (chain_live _ _ _ _ Hc Hy)].
    - intros y. rewrite L3. unfold w1; cbn. rewrite Hl1. split; [intros [[?|?] ?]; done|]. intros Hy. split; [tauto|]. intros ->. done. }
  set (w2 := upd_pool p2 w1) in *. pose proof Ha2 as (Hn2 & Hdead2 & E2 & Hl2 & Hkeep2 & _).
  rewrite (proj2 (Z.eqb_neq r EB_NULL)) by done.
  assert (forall y, live (cells (w_pool w)) y -> cells (w_pool w2) !! y = cells (w_pool w) !! y) as Hsame.
  { intros y Hy. pose proof Hy as (it & E & Fr). rewrite E. apply Hkeep2; [apply Hl1; tauto|]. by apply Hkeep1. }
  assert (~ live (cells (w_pool w)) r /\ x <> r) as [Hr Hxr].
  { split; [intros Hl; apply Hdead2; apply Hl1; tauto|]. intros ->. apply Hdead2. by exists IRaw. }
  assert (cells (w_pool w2) !! socketp = Some (ISocket s)) as Es2 by (rewrite Hsame; [done|by eexists]).
  mstep (EB_SOCKET_some _ _ _ Es2).
  assert (cells (w_pool w2) !! x = Some IRaw) as Ex2 by (apply Hkeep2; [by exists IRaw|done]).
  destruct (link_device socketp s l x (mk_device socketp (sk_first_device s) x 0 0 linkp transportp) w w2) as (w3 & R3 & Hw3 & Hd3 & L3); try done.
  exists r, w3. split; [apply R3|]. split; [done|]. left. exists x, (sk_first_device s).
  split; [by intros ->|]. split; [done|]. split; [done|]. split; [done|]. split; [done|].
  intros y. rewrite L3. unfold w2, w1; cbn. rewrite Hl2. unfold w1; cbn. rewrite Hl1. tauto.
Qed.
End device_list.

(** ** Instances *)

Section sample.
Import Sample.
#[local] Existing Instance Response.sample_callbacks.
#[local] Instance idle : Blocking ext := {| b_run _ _ := ret 0; b_fuel := 3 |}.

(** A socket with two passive devices. *)
Definition two_devices : list item :=
  [ISocket (mk_socket 3 EB_NULL EB_NULL EB_NULL EB_NULL 0xff); ITransport (mk_transport [] 0 EB_NULL); ILink (mk_link []);
   IDevice (mk_device 0 4 3 0 0x44 2 1); IDevice (mk_device 0 EB_NULL 4 0 0x44 5 1); ILink (mk_link [])].

Lemma two_devices_listed : devices (world_of two_devices []) 0
  ([(3, mk_device 0 4 3 0 0x44 2 1)] ++ (4, mk_device 0 EB_NULL 4 0 0x44 5 1) :: []).
Proof.
  eexists. split; [vm_compute; reflexivity|]. cbn [sk_first_device app chain].
  split; [done|]. split; [done|]. exists 4. split; [vm_compute; reflexivity|].
  split; [done|]. split; [done|]. exists EB_NULL. split; [vm_compute; reflexivity|done].
Qed.

Lemma passive_close_removes_device_witness : exists w', eb_device_close 4 (world_of two_devices []) = Some (EB_OK, w') /\
  devices w' 0 [(3, mk_device 0 4 3 0 0x44 2 1)] /\ ~ live (cells (w_pool w')) 4.
Proof.
  destruct (passive_close_removes_device 0 4 (mk_device 0 EB_NULL 4 0 0x44 5 1) (mk_transport [] 0 EB_NULL) (mk_link [])
    [(3, mk_device 0 4 3 0 0x44 2 1)] [] (world_of two_devices []) (pool_ok_seed two_devices [] eq_refl) two_devices_listed)
    as (w' & R & _ & D & L); [reflexivity|reflexivity|vm_compute; reflexivity|vm_compute; reflexivity| |].
  - intros w. eexists tt, _. reflexivity.
  - exists w'. split; [exact R|]. split; [exact D|]. intros Hl. apply L in Hl. tauto.
Defined.

Lemma accept_adds_or_hangs_up_witness : exists r w',
  eb_device_new_slave 0 1 6 (world_of (two_devices ++ [ILink (mk_link [])]) []) = Some (r, w') /\ pool_ok w'.
Proof.
  destruct (accept_adds_or_hangs_up 0 1 6 (mk_transport [] 0 EB_NULL)
    [(3, mk_device 0 4 3 0 0x44 2 1); (4, mk_device 0 EB_NULL 4 0 0x44 5 1)]
    (world_of (two_devices ++ [ILink (mk_link [])]) []) (pool_ok_seed (two_devices ++ [ILink (mk_link [])]) [] eq_refl)) as (r & w' & R & Hw' & _).
  - eexists. split; [vm_compute; reflexivity|]. cbn [sk_first_device chain].
    split; [done|]. split; [done|]. exists 4. split; [vm_compute; reflexivity|].
    split; [done|]. split; [done|]. exists EB_NULL. split; [vm_compute; reflexivity|done].
  - vm_compute; reflexivity.
  - eexists. split; [vm_compute; reflexivity|reflexivity].
  - intros w. eexists tt, _. reflexivity.
  - by exists r, w'.
Defined.
End sample.
