(* ===== verification/Session.v ===== *)
(** A message at the slave: the whole of [eb_device_slave] of
    src/api/format/slave.c — polling, the packet header and the two probes, the
    records (file Slave), the reply, cycles continued over several receptions of
    a stream, and the destruction of a link that breaks the protocol. *)
From stdpp Require Import base list gmap.
From Stdlib Require Import ZArith Lia.
From S2P Require Import Prelude Widths Store World Linked Cycle Format Master Valid Records Encode Slave Wire Answer.
From S2P Require Import Handler Response Device.

(** The bus of a socket, as handler.c, readwrite.c and socket.c implement it. *)
#[export] Instance socket_bus {X} `{Env X} `{Callbacks X} : Bus X := {|
  eb_socket_write_config := socket_write_config;
  eb_socket_write := socket_write;
  eb_socket_read_config socketp widths addr error := ret (socket_read_config socketp widths addr error);
  eb_socket_read := socket_read |}.

Section session.
Context {X : Type} `{Env X} `{Callbacks X} `{Blocking X} `{Bus X}.

(** [kill:] close a passive device; of an active one only the link. *)
Definition kill (transportp linkp devicep : Z) (passive : bool) : M X Z :=
  if devicep =? EB_NULL then ret 0
  else if passive then eb_device_close devicep ;;; ret 0
  else
    let* device := EB_DEVICE devicep in
    let* transport := EB_TRANSPORT transportp in
    t_disconnect (tr_link_type transport) transportp linkp ;;;
    eb_free (dv_link device) ;;;
    poke devicep (IDevice (dv_set_link EB_NULL device)) ;;;
    ret 0.

(** [for (devp = first; devp != EB_NULL; devp = dev->next) if (devp == tag) break;] *)
Fixpoint find_tag (tag : Z) (fuel : nat) (devp : Z) : M X Z :=
  if devp =? EB_NULL then ret devp
  else match fuel with
    | O => fault
    | S fuel =>
      let* dev := EB_DEVICE devp in
      if devp =? tag then ret devp else find_tag tag fuel (dv_next dev)
    end.

(** What the packet header decides: close the link, return a value at once, or go
    on with the records at a width. *)
Inductive verdict :=
  | Kill
  | Return (n : Z)
  | Records (widths : Z) (buffer : list Z).

Definition byte_at (buffer : list Z) (i : nat) : Z := nth i buffer 0.

(** A probe request: negotiate the width and answer with ours. *)
Definition answer_probe (socketp link_type transportp linkp devicep : Z) (passive : bool) (buffer : list Z) : M X verdict :=
  let* socket := EB_SOCKET socketp in
  let widths := eb_width_refine (byte_at buffer 3 .& sk_widths socket) in
  let buffer := splice buffer 2 [0x10 .| EB_HEADER_PR .| EB_HEADER_NR; sk_widths socket] in
  when passive
    (let* device := EB_DEVICE devicep in poke devicep (IDevice (dv_set_widths widths device))) ;;;
  t_send link_type transportp linkp (take 8 buffer) ;;;
  ret (if eb_width_possible widths then Return 1 else Kill).

(** A probe response: the device named by the tag learns the widths of the other
    side. *)
Definition accept_probe (socketp : Z) (buffer : list Z) : M X verdict :=
  let tag := be_val (slice buffer 4 4) in
  let* socket := EB_SOCKET socketp in
  let* n := pool_fuel in
  let* devp := find_tag tag n (sk_first_device socket) in
  if devp =? EB_NULL then ret Kill
  else
    let* dev := EB_DEVICE devp in
    poke devp (IDevice (dv_set_widths (byte_at buffer 3) dev)) ;;;
    ret (Return 0).

Definition handle_header (socketp link_type transportp linkp devicep : Z) (passive active : bool) (len : Z) (buffer : list Z)
    : M X verdict :=
  if negb (byte_at buffer 0 =? 0x4E) || negb (byte_at buffer 1 =? 0x6F) || (len <? 4) then ret Kill
  else if negb ((byte_at buffer 2 .& EB_HEADER_PF) =? 0) then
    if negb (len =? 8) then ret Kill
    else if active then ret Kill
    else answer_probe socketp link_type transportp linkp devicep passive buffer
  else if negb ((byte_at buffer 2 .& EB_HEADER_PR) =? 0) then
    if negb (len =? 8) then ret Kill
    else if passive then ret Kill
    else accept_probe socketp buffer
  else if negb ((byte_at buffer 2 .& 0xf0) =? 0x10) then ret Kill
  else
    let* socket := EB_SOCKET socketp in
    let widths := eb_width_refine (byte_at buffer 3 .& sk_widths socket) in
    ret (if eb_width_possible widths
         then Records widths (splice buffer 2 [byte_at buffer 2 .| EB_HEADER_NR]) else Kill).

(** The records, the reply, and on a stream the rest of an open cycle: [None] is
    [goto kill]. *)
Fixpoint session_loop (socketp link_type transportp linkp widths : Z) (fuel : nat) (s : session) : M X (option Z) :=
  let* os := process_records socketp link_type transportp linkp widths (S (length (s_buffer s)) + b_fuel) s in
  match os with
  | None => ret None
  | Some s =>
    when (s_reply s) (t_send link_type transportp linkp (take (s_wptr s) (s_buffer s))) ;;;
    if s_cycle_end s =? 0 then
      if negb (t_mtu link_type =? 0) then ret None
      else
        let kept := drop (s_rptr s) (s_buffer s) in
        let* ' (len, bytes) := t_recv link_type transportp linkp (buffer_size - length kept) in
        if len <=? 0 then ret None
        else match fuel with
          | O => fault
          | S fuel =>
            session_loop socketp link_type transportp linkp widths fuel
              (mk_session (kept ++ bytes) 0 0 (s_error s) (s_cycle_end s) (s_cycle_open s) (s_reply s))
          end
    else if negb (s_rptr s =? length (s_buffer s))%nat then ret None
    else ret (Some 1)
  end.

(** The kind of link: its cell, whether a header is due, the width if not, and
    whether the device is passive or active. *)
Record link_kind := mk_link_kind {
  lk_linkp : Z; lk_header : bool; lk_widths : Z; lk_passive : bool; lk_active : bool }.

Definition classify (link_type devicep : Z) : M X link_kind :=
  if negb (devicep =? EB_NULL) then
    let* device := EB_DEVICE devicep in
    let passive := dv_un_link device =? devicep in
    ret (if t_mtu link_type =? 0
         then mk_link_kind (dv_link device) (dv_widths device =? 0) (dv_widths device) passive (negb passive)
         else mk_link_kind (dv_link device) true 0 passive (negb passive))
  else ret (mk_link_kind EB_NULL true 0 false false).

(** The result is positive if there may be more to read. *)
Definition eb_device_slave (socketp transportp devicep : Z) : M X Z :=
  let* transport := EB_TRANSPORT transportp in
  let link_type := tr_link_type transport in
  let* lk := classify link_type devicep in
  let* ' (len, buffer) := t_poll link_type transportp (lk_linkp lk) buffer_size in
  if len =? 0 then ret 0
  else if len <? 2 then kill transportp (lk_linkp lk) devicep (lk_passive lk)
  else
    let* v :=
      (if lk_header lk
       then handle_header socketp link_type transportp (lk_linkp lk) devicep (lk_passive lk) (lk_active lk) len buffer
       else ret (Records (lk_widths lk) buffer)) in
    match v with
    | Kill => kill transportp (lk_linkp lk) devicep (lk_passive lk)
    | Return n => ret n
    | Records widths buffer =>
        let start := if lk_header lk then g_record_alignment widths else O in
        let* r := session_loop socketp link_type transportp (lk_linkp lk) widths b_fuel
                    (mk_session buffer start start 0 1 false false) in
        match r with
        | Some n => ret n
        | None => kill transportp (lk_linkp lk) devicep (lk_passive lk)
        end
    end.
End session.

(** * A packet from one library to another *)

(** The packet header: magic, version and flags, width, padding. *)
Definition packet_header (flags width : Z) : list Z :=
  [0x4E; 0x6F; 0x10 .| flags; width] ++ replicate (g_record_alignment width - 4) 0.

Lemma length_packet_header flags width : length (packet_header flags width) = g_record_alignment width.
Proof.
  unfold packet_header. rewrite length_app, length_replicate. cbn [length].
  pose proof (g_record_alignment_cases width). lia.
Qed.

(** It is the header the master side starts a packet with. *)
Lemma packet_header_start width mtu : mtu <> 0%nat -> b_bytes (start_buffer width mtu) = packet_header 0 width.
Proof. intros Hm. unfold start_buffer. by rewrite (proj2 (Nat.eqb_neq _ _)). Qed.

Lemma packet_header_answer width rest :
  splice (packet_header 0 width ++ rest) 2 [0x10 .| EB_HEADER_NR] = packet_header EB_HEADER_NR width ++ rest.
Proof. done. Qed.

Lemma packet_header_again width rest :
  splice (packet_header EB_HEADER_NR width ++ rest) 2 [0x14 .| EB_HEADER_NR] = packet_header EB_HEADER_NR width ++ rest.
Proof. done. Qed.

Section packets.
Context {X : Type} `{Env X} `{Callbacks X} `{Blocking X} `{Bus X}.
Implicit Types w : world X.

Lemma session_loop_eq socketp link_type transportp linkp widths fuel s :
  t_mtu link_type <> 0 ->
  session_loop socketp link_type transportp linkp widths fuel s =
  (let* os := process_records socketp link_type transportp linkp widths (S (length (s_buffer s)) + b_fuel) s in
   match os with
   | None => ret None
   | Some s =>
     when (s_reply s) (t_send link_type transportp linkp (take (s_wptr s) (s_buffer s))) ;;;
     if s_cycle_end s =? 0 then ret None
     else if negb (s_rptr s =? length (s_buffer s))%nat then ret None
     else ret (Some 1)
   end).
Proof. intros Hm. destruct fuel; cbn [session_loop]; by rewrite (proj2 (Z.eqb_neq _ 0) Hm). Qed.

Lemma process_packet_fuel socketp link_type transportp linkp widths buffer start n m :
  t_mtu link_type <> 0 -> (start <= length buffer)%nat ->
  (length buffer < n)%nat -> (length buffer < m)%nat ->
  msim eq (process_records socketp link_type transportp linkp widths n (mk_session buffer start start 0 1 false false))
          (process_records socketp link_type transportp linkp widths m (mk_session buffer start start 0 1 false false)).
Proof.
  intros Hm Hs Hn Hmm w.
  rewrite (process_records_fuel socketp link_type transportp linkp widths Hm n m) by (cbn; lia).
  apply msim_refl.
Qed.

Lemma link_width_possible width : link_width width -> eb_width_possible width = true.
Proof. intros Hw. exact (link_width_forall eb_width_possible eq_refl width Hw). Qed.

(** The header of a data packet is accepted when the socket supports its width. *)
Lemma data_header socketp link_type transportp linkp devicep passive active flags width rest s w :
  flags = 0 \/ flags = EB_HEADER_NR -> link_width width ->
  cells (w_pool w) !! socketp = Some (ISocket s) -> eb_width_refine (width .& sk_widths s) = width ->
  handle_header socketp link_type transportp linkp devicep passive active
    (Z.of_nat (length (packet_header flags width ++ rest))) (packet_header flags width ++ rest) w =
  Some (Records width (packet_header EB_HEADER_NR width ++ rest), w).
Proof.
  intros Hf Hw Hs Hwid. unfold handle_header.
  assert (4 <= Z.of_nat (length (packet_header flags width ++ rest))) as Hlen.
  { rewrite length_app, length_packet_header. pose proof (g_record_alignment_cases width). lia. }
  rewrite (proj2 (Z.ltb_ge _ _)) by lia.
  assert (byte_at (packet_header flags width ++ rest) 3 = width) as H3 by done.
  assert (byte_at (packet_header flags width ++ rest) 0 = 0x4E /\
          byte_at (packet_header flags width ++ rest) 1 = 0x6F /\
          byte_at (packet_header flags width ++ rest) 2 = (0x10 .| flags)) as (-> & -> & ->) by done.
  change (0x4E =? 0x4E) with true. change (0x6F =? 0x6F) with true. cbn [negb orb].
  assert (((0x10 .| flags) .& EB_HEADER_PF) = 0 /\ ((0x10 .| flags) .& EB_HEADER_PR) = 0 /\
          ((0x10 .| flags) .& 0xf0) = 0x10) as (-> & -> & ->) by (by destruct Hf as [-> | ->]).
  change (0 =? 0) with true. change (0x10 =? 0x10) with true. cbn [negb].
  mstep (EB_SOCKET_some _ _ _ Hs). rewrite H3, Hwid, (link_width_possible width Hw).
  by destruct Hf as [-> | ->].
Qed.

(** A packet with one cycle, from the poll to the answer. *)
Lemma packet_served_spec (socketp transportp width rba maxops : Z) (nc : bool) (l : list node) (recs : list rec)
    (tr : eb_transport) (s : eb_socket) w w1
    (Hmtu : t_mtu (tr_link_type tr) <> 0) (Hw : link_width width)
    (Hrba : 0 <= rba < 2 ^ 16) (Hm : 0 < maxops < 2 ^ 32) (Hne : l <> []) (Hl : executable width l)
    (Hrecs : cycle_records (g_data width) maxops nc (S (2 * length l)) 0 l = Some recs)
    (Htr : cells (w_pool w) !! transportp = Some (ITransport tr))
    (Hpoll : let message := packet_header 0 width ++ cycle_bytes width rba recs in
             t_poll (tr_link_type tr) transportp EB_NULL buffer_size w = Some ((Z.of_nat (length message), message), w1))
    (Hs : cells (w_pool w1) !! socketp = Some (ISocket s))
    (Hwid : eb_width_refine (width .& sk_widths s) = width) :
  eb_device_slave socketp transportp EB_NULL w =
  (let* ' (vss, _) := perform_cycle socketp width recs 0 in
   when (existsb asks recs) (t_send (tr_link_type tr) transportp EB_NULL
     (packet_header EB_HEADER_NR width ++ answers width rba recs vss false)) ;;;
   ret 1) w1.
Proof.
  unfold eb_device_slave. unfold EB_TRANSPORT. mstep (peek_some _ _ _ Htr). rewrite bind_ret.
  unfold classify. rewrite Z.eqb_refl. cbn [negb]. rewrite bind_ret. cbn [lk_linkp lk_header lk_passive lk_active].
  rewrite (bind_some _ _ _ _ _ Hpoll).
  assert (4 <= Z.of_nat (length (packet_header 0 width ++ cycle_bytes width rba recs))) as Hlen.
  { rewrite length_app, length_packet_header. pose proof (g_record_alignment_cases width). lia. }
  rewrite (proj2 (Z.eqb_neq _ 0)), (proj2 (Z.ltb_ge _ 2)) by lia.
  rewrite (bind_some _ _ _ _ _ (data_header socketp _ transportp EB_NULL EB_NULL false false 0 width _ s w1 (or_introl eq_refl) Hw Hs Hwid)).
  apply msim_run. rewrite session_loop_eq by done. cbn [s_buffer].
  destruct (slave_executes_cycle socketp (tr_link_type tr) transportp EB_NULL width rba maxops nc l
    (packet_header EB_HEADER_NR width) 0 Hmtu Hw Hrba Hm Hne Hl) as (recs' & E & _ & Hex & _).
  rewrite Hrecs in E. injection E as <-. cbv zeta in Hex. rewrite length_packet_header in Hex.
  apply msim_assoc. eapply msim_bind.
  - eapply msim_trans; [|exact Hex]. apply process_packet_fuel; [done| |lia|lia].
    rewrite length_app, length_packet_header. lia.
  - intros os [vss e] (os' & -> & s' & -> & Ht & Hrp & _ & _ & Hre & Hce). rewrite Hre, Ht, Hce, Hrp.
    change (EB_RECORD_CYC =? 0) with false. rewrite Nat.eqb_refl. cbn [negb].
    apply msim_assoc. apply msim_same. intros []. apply msim_ret. done.
Qed.

(** C6: a packet that the master side of another library formed is served: every
    operation of the cycle is performed on the local bus in order, and if the
    records ask for anything the answer, and nothing else, is sent back; the
    packet does not break the link. *)
Theorem packet_served (socketp transportp width rba maxops : Z) (nc : bool) (l : list node) (recs : list rec)
    (tr : eb_transport) (s : eb_socket) w w1
    (Hmtu : t_mtu (tr_link_type tr) <> 0) (Hw : link_width width)
    (Hrba : 0 <= rba < 2 ^ 16) (Hm : 0 < maxops < 2 ^ 32) (Hne : l <> []) (Hl : executable width l)
    (Hrecs : cycle_records (g_data width) maxops nc (S (2 * length l)) 0 l = Some recs)
    (Htr : cells (w_pool w) !! transportp = Some (ITransport tr))
    (Hpoll : let message := packet_header 0 width ++ cycle_bytes width rba recs in
             t_poll (tr_link_type tr) transportp EB_NULL buffer_size w = Some ((Z.of_nat (length message), message), w1))
    (Hs : cells (w_pool w1) !! socketp = Some (ISocket s))
    (Hwid : eb_width_refine (width .& sk_widths s) = width) :
  eb_device_slave socketp transportp EB_NULL w =
  (let* ' (vss, _) := perform_cycle socketp width recs 0 in
   when (existsb asks recs) (t_send (tr_link_type tr) transportp EB_NULL
     (packet_header EB_HEADER_NR width ++ answers width rba recs vss false)) ;;;
   ret 1) w1.
Proof. by eapply packet_served_spec. Qed.

(** C7: the packet with the answer, received by the device that asked, hands every
    value to the response its cycle waits in; nothing is sent back and the link
    stays open. *)
Theorem answer_packet_delivered (socketp transportp devicep width rba maxops : Z) (nc : bool) (l : list node)
    (recs : list rec) (vss : list (list Z)) (tr : eb_transport) (s : eb_socket) (d : eb_device) w w1
    (Hmtu : t_mtu (tr_link_type tr) <> 0) (Hw : link_width width)
    (Hrba : 0 <= rba < 2 ^ 16) (Hm : 0 < maxops < 2 ^ 32) (Hne : l <> []) (Hl : executable width l)
    (Hrecs : cycle_records (g_data width) maxops nc (S (2 * length l)) 0 l = Some recs)
    (Hvss : Forall2 answers_record recs vss)
    (Hdev : devicep <> EB_NULL) (Hd : cells (w_pool w) !! devicep = Some (IDevice d))
    (Htr : cells (w_pool w) !! transportp = Some (ITransport tr))
    (Hpoll : let message := packet_header EB_HEADER_NR width ++ answers width rba recs vss false in
             t_poll (tr_link_type tr) transportp (dv_link d) buffer_size w = Some ((Z.of_nat (length message), message), w1))
    (Hs : cells (w_pool w1) !! socketp = Some (ISocket s))
    (Hwid : eb_width_refine (width .& sk_widths s) = width) :
  eb_device_slave socketp transportp devicep w = (deliver socketp width rba recs vss ;;; ret 1) w1.
Proof.
  unfold eb_device_slave. unfold EB_TRANSPORT. mstep (peek_some _ _ _ Htr). rewrite bind_ret.
  unfold classify. rewrite (proj2 (Z.eqb_neq _ EB_NULL)) by done. cbn [negb].
  mstep (EB_DEVICE_some _ _ _ Hd). rewrite bind_ret. rewrite (proj2 (Z.eqb_neq _ 0) Hmtu).
  cbn [lk_linkp lk_header lk_passive lk_active].
  rewrite (bind_some _ _ _ _ _ Hpoll).
  assert (4 <= Z.of_nat (length (packet_header EB_HEADER_NR width ++ answers width rba recs vss false))) as Hlen.
  { rewrite length_app, length_packet_header. pose proof (g_record_alignment_cases width). lia. }
  rewrite (proj2 (Z.eqb_neq _ 0)), (proj2 (Z.ltb_ge _ 2)) by lia.
  rewrite (bind_some _ _ _ _ _ (data_header socketp _ transportp (dv_link d) devicep _ _ EB_HEADER_NR width _ s w1 (or_intror eq_refl) Hw Hs Hwid)).
  apply msim_run. rewrite session_loop_eq by done. cbn [s_buffer].
  pose proof (answer_reaches_requester socketp (tr_link_type tr) transportp (dv_link d) width rba maxops nc l recs vss
    (packet_header EB_HEADER_NR width) 0 Hmtu Hw Hrba Hm Hne Hl Hrecs Hvss) as Hex.
  cbv zeta in Hex. rewrite length_packet_header in Hex.
  apply msim_assoc. eapply msim_bind.
  - eapply msim_trans; [|exact Hex]. apply process_packet_fuel; [done| |lia|lia].
    rewrite length_app, length_packet_header. lia.
  - intros os [] (os' & -> & s' & -> & _ & Hrp & _ & Hre & Hce). rewrite Hre, Hrp. cbn [when].
    rewrite (proj2 (Z.eqb_neq _ 0) Hce), Nat.eqb_refl. cbn [negb]. rewrite bind_ret_eq.
    by apply msim_ret.
Qed.
End packets.

(** * The handshake *)

Section handshake.
Context {X : Type} `{Env X} `{!PoolExpander e_expand} `{Callbacks X} `{Blocking X}.
Implicit Types w : world X.

Lemma land_byte a b : is_byte a -> is_byte b -> is_byte (a .& b).
Proof.
  intros Ha Hb. assert (b = b .& Z.ones 8) as -> by (rewrite Z.land_ones by lia; symmetry; by apply Z.mod_small).
  rewrite Z.land_assoc, Z.land_ones by lia. by apply Z.mod_pos_bound.
Qed.

Lemma refine_possible x : is_byte x -> eb_width_possible (eb_width_refine x) = eb_width_possible x.
Proof.
  intros Hx. pose proof (byte_forall (fun x => Bool.eqb (eb_width_possible (eb_width_refine x)) (eb_width_possible x)) eq_refl x Hx) as E.
  by apply Bool.eqb_prop in E.
Qed.

Lemma find_tag_spec tag (l : list (Z * eb_device)) : forall n p w,
  chain (cells (w_pool w)) p l -> tag ∈ l.*1 -> (length l <= n)%nat ->
  find_tag tag n p w = Some (tag, w).
Proof.
  induction l as [|[x d] l IH]; intros n p w Hc Hin Hn; [by apply elem_of_nil in Hin|].
  destruct Hc as (-> & Hx & k & E & Hc). destruct n as [|n]; cbn in Hn; [lia|].
  cbn [find_tag]. rewrite (proj2 (Z.eqb_neq _ EB_NULL)) by done. mstep (EB_DEVICE_some _ _ _ E).
  destruct (Z.eqb_spec x tag) as [->|Hne]; [done|].
  apply IH; [exact Hc| |lia]. cbn in Hin. apply elem_of_cons in Hin as [->|Hin]; done.
Qed.

(** The probe response. *)
Definition probe_response (widths devicep : Z) : list Z :=
  [0x4E; 0x6F; 0x16; widths] ++ be_bytes 4 devicep.

Lemma probe_answered socketp link_type transportp linkp devicep tag proposed s d w :
  pool_ok w -> is_byte proposed -> is_byte (sk_widths s) ->
  cells (w_pool w) !! socketp = Some (ISocket s) -> cells (w_pool w) !! devicep = Some (IDevice d) ->
  exists w', pool_ok w' /\
    cells (w_pool w') !! devicep = Some (IDevice (dv_set_widths (eb_width_refine (proposed .& sk_widths s)) d)) /\
    handle_header socketp link_type transportp linkp devicep true false 8 (probe_request proposed tag) w =
    (t_send link_type transportp linkp (probe_response (sk_widths s) tag) ;;;
     ret (if eb_width_possible (proposed .& sk_widths s) then Return 1 else Kill)) w'.
Proof.
  intros Hw Hp Hsw Hs Hd. unfold handle_header.
  change (byte_at (probe_request proposed tag) 0) with 0x4E. change (byte_at (probe_request proposed tag) 1) with 0x6F.
  change (byte_at (probe_request proposed tag) 2) with 0x11.
  change (0x11 .& EB_HEADER_PF =? 0) with false. cbn [Z.eqb negb orb Z.ltb Z.compare Pos.compare Pos.compare_cont Pos.eqb].
  unfold answer_probe. mstep (EB_SOCKET_some _ _ _ Hs). change (byte_at (probe_request proposed tag) 3) with proposed.
  cbn [when]. mstep (EB_DEVICE_some _ _ _ Hd).
  destruct (poke_frame (fun y => y = devicep) devicep
    (IDevice (dv_set_widths (eb_width_refine (proposed .& sk_widths s)) d)) _ w Hw Hd) as (w' & R & F & C & _);
    [done|done|done|].
  mstep R. exists w'. split; [apply F|]. split; [by rewrite C, lookup_insert_eq|].
  rewrite refine_possible by (by apply land_byte). done.
Qed.

Lemma probe_accepted socketp link_type transportp linkp devicep answering widths s d l w :
  pool_ok w -> cells (w_pool w) !! socketp = Some (ISocket s) ->
  chain (T := eb_device) (cells (w_pool w)) (sk_first_device s) l -> devicep ∈ l.*1 -> 0 <= devicep < 2 ^ 16 ->
  cells (w_pool w) !! devicep = Some (IDevice d) ->
  exists w', pool_ok w' /\ cells (w_pool w') !! devicep = Some (IDevice (dv_set_widths widths d)) /\
    handle_header socketp link_type transportp linkp answering false true 8 (probe_response widths devicep) w =
    Some (Return 0, w').
Proof.
  intros Hw Hs Hc Hin Hr Hd. unfold handle_header.
  change (byte_at (probe_response widths devicep) 0) with 0x4E. change (byte_at (probe_response widths devicep) 1) with 0x6F.
  change (byte_at (probe_response widths devicep) 2) with 0x16.
  change (0x16 .& EB_HEADER_PF =? 0) with true. change (0x16 .& EB_HEADER_PR =? 0) with false.
  cbn [Z.eqb negb orb Z.ltb Z.compare Pos.compare Pos.compare_cont Pos.eqb].
  unfold accept_probe. change (slice (probe_response widths devicep) 4 4) with (be_bytes 4 devicep).
  rewrite be_val_bytes, wrap_small by (cbn; lia). mstep (EB_SOCKET_some _ _ _ Hs). rewrite bind_fuel.
  mstep (find_tag_spec devicep l _ _ w Hc Hin (chain_length _ _ _ Hc)).
  assert (devicep <> EB_NULL) as Hne.
  { intros ->. destruct Hw as [Hwf _]. apply (wf_null _ Hwf). by eexists. }
  rewrite (proj2 (Z.eqb_neq _ EB_NULL)) by done. mstep (EB_DEVICE_some _ _ _ Hd).
  change (byte_at (probe_response widths devicep) 3) with widths.
  destruct (poke_frame (fun y => y = devicep) devicep (IDevice (dv_set_widths widths d)) _ w Hw Hd) as (w' & R & F & C & _);
    [done|done|done|].
  mstep R. exists w'. split; [apply F|]. split; [by rewrite C, lookup_insert_eq|done].
Qed.

Lemma settle_spec devicep proposed d w :
  pool_ok w -> cells (w_pool w) !! devicep = Some (IDevice d) -> dv_link d <> EB_NULL ->
  eb_width_possible (dv_widths d .& proposed) = true ->
  exists w', pool_ok w' /\ settle_width devicep proposed w = Some ((EB_OK, devicep), w') /\
    cells (w_pool w') !! devicep = Some (IDevice (dv_set_widths (eb_width_refine (dv_widths d .& proposed)) d)).
Proof.
  intros Hw Hd Hl Hp. unfold settle_width. mstep (EB_DEVICE_some _ _ _ Hd).
  rewrite (proj2 (Z.eqb_neq _ EB_NULL)) by done.
  assert (dv_widths d <> 0) as Hz by (intros Hz; rewrite Hz in Hp; discriminate Hp).
  rewrite (proj2 (Z.eqb_neq _ 0)) by done.
  destruct (poke_frame (fun y => y = devicep) devicep (IDevice (dv_set_widths (dv_widths d .& proposed) d)) _ w Hw Hd)
    as (w1 & R1 & F1 & C1 & _); [done|done|done|].
  mstep R1. cbn [dv_widths dv_set_widths]. rewrite Hp.
  destruct (poke_frame (fun y => y = devicep) devicep
    (IDevice (dv_set_widths (eb_width_refine (dv_widths d .& proposed)) (dv_set_widths (dv_widths d .& proposed) d)))
    (IDevice (dv_set_widths (dv_widths d .& proposed) d)) w1 (proj1 F1)) as (w2 & R2 & F2 & C2 & _);
    [by rewrite C1, lookup_insert_eq|done|done|done|].
  mstep R2. exists w2. split; [apply F2|]. split; [done|]. by rewrite C2, lookup_insert_eq.
Qed.

(** C17: the handshake: the passive end answers a probe with its own widths and
    fixes the widest access both allow; the active end, on receiving that answer, settles
    on the same width, so both run the wire format with equal parameters. *)
Theorem handshake_agrees (proposed devicep : Z)
    (sockp ltp tp lnp devp : Z) (sp : eb_socket) (dp : eb_device) (wp : world X)
    (socka lta ta lna answering : Z) (sa : eb_socket) (da : eb_device) (devs : list (Z * eb_device)) (wa : world X)
    (Hb : is_byte proposed) (Hbs : is_byte (sk_widths sp))
    (Hposs : eb_width_possible (proposed .& sk_widths sp) = true)
    (Hwp : pool_ok wp) (Hsp : cells (w_pool wp) !! sockp = Some (ISocket sp))
    (Hdp : cells (w_pool wp) !! devp = Some (IDevice dp))
    (Hwa : pool_ok wa) (Hsa : cells (w_pool wa) !! socka = Some (ISocket sa))
    (Hch : chain (cells (w_pool wa)) (sk_first_device sa) devs) (Hin : devicep ∈ devs.*1)
    (Hr : 0 <= devicep < 2 ^ 16) (Hda : cells (w_pool wa) !! devicep = Some (IDevice da)) (Hlink : dv_link da <> EB_NULL) :
  let width := eb_width_refine (proposed .& sk_widths sp) in
  link_width width /\
  (exists wp', cells (w_pool wp') !! devp = Some (IDevice (dv_set_widths width dp)) /\
     handle_header sockp ltp tp lnp devp true false 8 (probe_request proposed devicep) wp =
     (t_send ltp tp lnp (probe_response (sk_widths sp) devicep) ;;; ret (Return 1)) wp') /\
  (exists wa1 wa2,
     handle_header socka lta ta lna answering false true 8 (probe_response (sk_widths sp) devicep) wa = Some (Return 0, wa1) /\
     settle_width devicep proposed wa1 = Some ((EB_OK, devicep), wa2) /\
     cells (w_pool wa2) !! devicep = Some (IDevice (dv_set_widths width da))).
Proof.
  intros width. pose proof (land_byte _ _ Hb Hbs) as Hx. split; [|split].
  - pose proof (byte_forall (fun x => implb (eb_width_possible x)
      ((0 <=? eb_width_refine x) && (eb_width_refine x <? 256) && eb_width_refined (eb_width_refine x))) eq_refl _ Hx) as E.
    cbv beta in E. rewrite Hposs in E. cbn [implb] in E. bool_hyps. by split.
  - destruct (probe_answered sockp ltp tp lnp devp devicep proposed sp dp wp) as (wp' & _ & Hd & E); try done.
    rewrite Hposs in E. by exists wp'.
  - destruct (probe_accepted socka lta ta lna devicep answering (sk_widths sp) sa da devs wa) as (wa1 & Hwa1 & Hd1 & E1); try done.
    destruct (settle_spec devicep proposed (dv_set_widths (sk_widths sp) da) wa1) as (wa2 & _ & E2 & Hd2); try done.
    { cbn. by rewrite Z.land_comm. }
    exists wa1, wa2. split; [done|]. split; [done|]. rewrite Hd2. cbn [dv_widths dv_set_widths].
    by rewrite (Z.land_comm (sk_widths sp)).
Qed.
End handshake.

(** ** Instances *)

Section sample.
Import Sample.
#[local] Existing Instance Slave.sample_bus.
#[local] Existing Instance Response.sample_callbacks.
#[local] Instance idle : Blocking ext := {| b_run _ _ := ret 0; b_fuel := 3 |}.

Definition remote_records : list rec :=
  match cycle_records 4 40 false 7 0 remote_ops with Some recs => recs | None => [] end.
Definition request_packet : list Z := packet_header 0 0x44 ++ cycle_bytes 0x44 0x8000 remote_records.
Definition answer_packet : list Z :=
  packet_header EB_HEADER_NR 0x44 ++ answers 0x44 0x8000 remote_records [[0x200]; [0x302]] false.

(** Socket 0, its packet transport 1, a device 2 on link 3. *)
Definition station : list item :=
  [ISocket (mk_socket 2 EB_NULL EB_NULL EB_NULL EB_NULL 0xff); ITransport (mk_transport [] 1 EB_NULL);
   IDevice (mk_device 0 EB_NULL EB_NULL 0 0x44 3 1); ILink (mk_link [])].

Lemma packet_served_witness :
  eb_device_slave 0 1 EB_NULL (world_of station [request_packet]) =
  (let* ' (vss, _) := perform_cycle 0 0x44 remote_records 0 in
   when (existsb asks remote_records) (t_send 1 1 EB_NULL
     (packet_header EB_HEADER_NR 0x44 ++ answers 0x44 0x8000 remote_records vss false)) ;;;
   ret 1) (world_of station []) /\
  run (eb_device_slave 0 1 EB_NULL) (world_of station [request_packet]) =
    Some (1, [Dev_write 1 0x100 0x44 17; Dev_read 1 0x200 0x44; Dev_read 1 0x302 0x42; Sent 1 EB_NULL answer_packet]).
Proof.
  split; [|vm_compute; reflexivity].
  apply (packet_served 0 1 0x44 0x8000 40 false remote_ops remote_records (mk_transport [] 1 EB_NULL)
    (mk_socket 2 EB_NULL EB_NULL EB_NULL EB_NULL 0xff) (world_of station [request_packet]) (world_of station []));
    [discriminate|exact link_width_44|lia|lia|discriminate|exact remote_ops_executable|vm_compute; reflexivity
    |vm_compute; reflexivity|vm_compute; reflexivity|vm_compute; reflexivity|reflexivity].
Defined.

Lemma answer_packet_delivered_witness :
  eb_device_slave 0 1 2 (world_of station [answer_packet]) =
  (deliver 0 0x44 0x8000 remote_records [[0x200]; [0x302]] ;;; ret 1) (world_of station []) /\
  run (eb_device_slave 0 1 2) (world_of station [answer_packet]) =
    Some (1, [Dev_write 0 0x8000 0x44 0x200; Dev_write 0 0x8000 0x42 0x302]).
Proof.
  split; [|vm_compute; reflexivity].
  assert (Forall2 answers_record remote_records [[0x200]; [0x302]]) as Hv.
  { destruct remote_records as [|r recs] eqn:E; vm_compute in E; [discriminate|].
    injection E as <- <-. repeat constructor; [exists 0x200|exists 0x302]; reflexivity. }
  apply (answer_packet_delivered 0 1 2 0x44 0x8000 40 false remote_ops remote_records [[0x200]; [0x302]] (mk_transport [] 1 EB_NULL)
    (mk_socket 2 EB_NULL EB_NULL EB_NULL EB_NULL 0xff) (mk_device 0 EB_NULL EB_NULL 0 0x44 3 1)
    (world_of station [answer_packet]) (world_of station []));
    [discriminate|exact link_width_44|lia|lia|discriminate|exact remote_ops_executable|vm_compute; reflexivity
    |exact Hv|discriminate|vm_compute; reflexivity|vm_compute; reflexivity|vm_compute; reflexivity|vm_compute; reflexivity|reflexivity].
Defined.

Lemma station_ok : pool_ok (world_of station []).
Proof. exact (pool_ok_seed station [] eq_refl). Qed.

(** The active end proposes any width, the passive end has 32-bit addresses and
    16 or 32 bits of data. *)
Lemma handshake_agrees_witness :
  eb_width_refine (0xff .& 0x46) = 0x44 /\ exists wa2,
    bind (handle_header 0 1 1 3 2 false true 8 (probe_response 0x46 2)) (fun _ => settle_width 2 0xff)
      (world_of station []) = Some ((EB_OK, 2), wa2) /\
    cells (w_pool wa2) !! 2 = Some (IDevice (mk_device 0 EB_NULL EB_NULL 0 0x44 3 1)).
Proof.
  split; [reflexivity|].
  destruct (handshake_agrees 0xff 2 0 1 1 EB_NULL 2 (mk_socket 2 EB_NULL EB_NULL EB_NULL EB_NULL 0x46)
    (mk_device 0 EB_NULL 2 0 0 3 1)
    (world_of [ISocket (mk_socket 2 EB_NULL EB_NULL EB_NULL EB_NULL 0x46); ITransport (mk_transport [] 1 EB_NULL);
               IDevice (mk_device 0 EB_NULL 2 0 0 3 1); ILink (mk_link [])] [])
    0 1 1 3 2 (mk_socket 2 EB_NULL EB_NULL EB_NULL EB_NULL 0xff) (mk_device 0 EB_NULL EB_NULL 0 0x44 3 1)
    [(2, mk_device 0 EB_NULL EB_NULL 0 0x44 3 1)] (world_of station [])) as (_ & _ & wa1 & wa2 & E1 & E2 & Hd);
    [lia|cbn; lia|reflexivity|exact (pool_ok_seed [ISocket _; ITransport _; IDevice _; ILink _] [] eq_refl)
    |vm_compute; reflexivity|vm_compute; reflexivity|exact station_ok|vm_compute; reflexivity| |cbn; by left|lia
    |vm_compute; reflexivity|discriminate|].
  - split; [reflexivity|]. split; [discriminate|]. exists EB_NULL. split; [vm_compute; reflexivity|reflexivity].
  - exists wa2. split; [|exact Hd]. rewrite (bind_some _ _ _ _ _ E1). exact E2.
Defined.
End sample.
