(* ===== verification/Flush.v ===== *)
(** What a flush does to the queue of a device: a relational specification of
    [eb_device_flush] of [src/api/format/master.c] on packet links and the proof
    that the function implements it. The specification speaks of cycles,
    payloads, packets and callbacks; the pool, the pointers and the buffer are
    the implementation's. *)
From stdpp Require Import base list gmap.
From Stdlib Require Import ZArith Lia.
From S2P Require Import Prelude Widths Store World Linked Cycle Format Master Valid Records Encode Slave Wire Answer Handler Response Session.

(** * What the outside sees *)

Section events.
Context {X : Type} `{Env X} `{!PoolExpander e_expand} `{Callbacks X}.
Implicit Types w : world X.

(** A packet handed to the device's link, the start or the end of a batch of them,
    or a callback. *)
Inductive event :=
  | Packet (bytes : list Z)
  | Batch (start : bool)
  | Notify (f : eb_callback) (user device operation status : Z).

Definition perform_event (link_type transportp linkp : Z) (e : event) : M X unit :=
  match e with
  | Packet bytes => t_send link_type transportp linkp bytes
  | Batch start => t_send_buffer link_type transportp linkp start
  | Notify f user device operation status => call f user device operation status
  end.

(** An action of the outside that always succeeds and neither reads nor writes
    the library's objects. *)
Definition quiet (m : M X unit) : Prop := forall w, exists v,
  m w = Some (tt, v) /\ w_pool v = w_pool w /\ forall p, m (upd_pool p w) = Some (tt, upd_pool p v).

(** From [w] to [w'] the outside saw [evs] and the pool changed. *)
Definition emits (act : event -> M X unit) (evs : list event) w w' : Prop :=
  exists v, mapM_ act evs w = Some (tt, v) /\ w' = upd_pool (w_pool w') v.

(** Allocated cells outside [S] keep their contents. *)
Definition touches (S : Z -> Prop) w w' : Prop :=
  pool_ok w' /\
  forall y, ~ S y -> live (cells (w_pool w)) y -> cells (w_pool w') !! y = cells (w_pool w) !! y.

(** At least [n] cells are free. *)
Definition room w (n : nat) : Prop :=
  ~ live (cells (w_pool w)) EB_NULL /\
  exists l, free_list (cells (w_pool w)) (pl_free (w_pool w)) l /\ (n <= length l)%nat.

Implicit Types (act : event -> M X unit) (evs : list event).

Lemma quiet_mapM act evs : (forall e, quiet (act e)) -> quiet (mapM_ act evs).
Proof.
  intros Hq. induction evs as [|e evs IH]; intros w; [by exists w|]. cbn [mapM_].
  destruct (Hq e w) as (v & E & P & U). destruct (IH v) as (v' & E' & P' & U').
  exists v'. rewrite (bind_some _ _ _ _ _ E). split; [done|]. split; [congruence|].
  intros p. by rewrite (bind_some _ _ _ _ _ (U p)).
Qed.

Lemma emits_nil act w w' : w' = upd_pool (w_pool w') w -> emits act [] w w'.
Proof. intros E. by exists w. Qed.

Lemma emits_trans act (e1 e2 : list event) w1 w2 w3 : (forall e, quiet (act e)) ->
  emits act e1 w1 w2 -> emits act e2 w2 w3 -> emits act (e1 ++ e2) w1 w3.
Proof.
  intros Hq (v1 & E1 & P1) (v2 & E2 & P2).
  destruct (quiet_mapM act e2 Hq v1) as (v & Ev & Pv & Uv).
  exists v. split; [by eapply mapM_app|]. rewrite P1, Uv in E2. injection E2 as <-. by rewrite P2.
Qed.

Lemma emits_one act e w : (forall e, quiet (act e)) -> exists w', act e w = Some (tt, w') /\
  emits act [e] w w' /\ w_pool w' = w_pool w.
Proof.
  intros Hq. destruct (Hq e w) as (v & E & P & U). exists v. split; [done|]. split; [|done].
  exists v. cbn [mapM_]. rewrite (bind_some _ _ _ _ _ E). split; [done|by destruct v].
Qed.

Lemma frame_touches act S w w' : frame S w w' -> touches S w w' /\ emits act [] w w'.
Proof. intros (? & ? & ?). split; [by split|by apply emits_nil]. Qed.

Lemma touches_same S w w' : pool_ok w -> w_pool w' = w_pool w -> touches S w w'.
Proof. intros [Hw Hs] E. unfold touches, pool_ok. by rewrite E. Qed.

Lemma touches_trans (S S' : Z -> Prop) w1 w2 w3 :
  touches S w1 w2 -> touches S' w2 w3 -> (forall y, live (cells (w_pool w1)) y -> S' y -> S y) ->
  touches S w1 w3.
Proof.
  intros (H1 & F1) (H2 & F2) Hs. split; [done|].
  intros y Hy Hl. rewrite F2; [by apply F1|naive_solver|].
  destruct Hl as (it & ? & ?). exists it. rewrite F1; [done|done|by exists it].
Qed.

Lemma touches_mono (S S' : Z -> Prop) w1 w2 :
  touches S w1 w2 -> (forall y, live (cells (w_pool w1)) y -> S y -> S' y) -> touches S' w1 w2.
Proof. intros (H1 & F1) Hs. split; [done|]. intros y Hy Hl. apply F1; naive_solver. Qed.

Lemma touches_cell S w w' x it : touches S w w' -> ~ S x ->
  cells (w_pool w) !! x = Some it -> is_free it = false -> cells (w_pool w') !! x = Some it.
Proof. intros (_ & F) Hx E Hf. rewrite F; [done|done|by exists it]. Qed.

Lemma touches_chain {T} `{Node T} S w w' p (l : list (Z * T)) :
  touches S w w' -> (forall x, x ∈ l.*1 -> ~ S x) -> chain (cells (w_pool w)) p l ->
  chain (cells (w_pool w')) p l.
Proof.
  intros (_ & F) Hx Hc. eapply chain_agree; [|exact Hc]. intros y Hy. apply F; [by apply Hx|].
  exact (chain_live _ _ _ _ Hc Hy).
Qed.
End events.

(** * Free cells *)

Section room.
Context {X : Type} `{Env X} `{!PoolExpander e_expand} `{Callbacks X}.
Implicit Types w : world X.

(** [m] does not consume cells. *)
Definition keeps_room {A} (m : M X A) : Prop := forall w a w' n, m w = Some (a, w') -> room w n -> room w' n.

Lemma keeps_ret {A} (a : A) : keeps_room (ret a).
Proof. by intros w b w' n [= <- <-]. Qed.

Lemma keeps_bind {A B} (m : M X A) (k : A -> M X B) :
  keeps_room m -> (forall a, keeps_room (k a)) -> keeps_room (bind m k).
Proof.
  intros Hm Hk w b w' n. unfold bind. destruct (m w) as [[a v]|] eqn:E; [|done].
  intros E' Hr. exact (Hk a _ _ _ _ E' (Hm _ _ _ _ E Hr)).
Qed.

Lemma keeps_when b m : keeps_room m -> keeps_room (when b m).
Proof. destruct b; [done|]. intros _. apply keeps_ret. Qed.

Lemma keeps_fault {A} : keeps_room (@fault X A).
Proof. done. Qed.

Lemma keeps_read {A} (m : M X A) : (forall w a w', m w = Some (a, w') -> w' = w) -> keeps_room m.
Proof. intros Hm w a w' n E Hr. by rewrite (Hm _ _ _ E). Qed.

Lemma keeps_quiet m : quiet m -> keeps_room m.
Proof.
  intros Hq w a w' n E. destruct (Hq w) as (v & Ev & P & _). rewrite Ev in E. injection E as <- <-.
  unfold room. by rewrite P.
Qed.

Lemma free_list_skip (m : gmap Z item) p l x it : m !! x = Some it -> is_free it = false ->
  free_list m p l -> x ∉ l.
Proof.
  intros E F Hl Hin. destruct (free_list_free _ _ _ _ Hl Hin) as (k & Ek). rewrite E in Ek. by injection Ek as ->.
Qed.

Lemma live_insert_ne (m : gmap Z item) x y it : y <> x -> live (<[x := it]> m) y -> live m y.
Proof. intros Hne (it' & E & F). rewrite lookup_insert_ne in E by done. by exists it'. Qed.

Lemma keeps_poke x it : keeps_room (poke x it).
Proof.
  intros w a w' n E (Hnull & l & Hl & Hn). unfold poke, on_pool, pool_put in E.
  destruct (cells (w_pool w) !! x) as [it0|] eqn:Ex; [|done]. destruct (is_free it0) eqn:F; [done|].
  injection E as _ <-. cbn. assert (EB_NULL <> x) as Hx by (intros Hbad; subst x; destruct Hnull; by exists it0).
  split; [intros Hlv; by apply Hnull, (live_insert_ne _ _ _ _ Hx Hlv)|].
  exists l. split; [|done]. cbn. apply free_list_insert_ne; [|done].
  exact (free_list_skip _ _ _ _ _ Ex F Hl).
Qed.

Lemma keeps_free x : keeps_room (eb_free x).
Proof.
  intros w a w' n E (Hnull & l & Hl & Hn). unfold eb_free, on_pool, eb_free_memory_item in E.
  destruct (cells (w_pool w) !! x) as [it0|] eqn:Ex; [|done]. destruct (is_free it0) eqn:F; [done|].
  injection E as _ <-. cbn. assert (EB_NULL <> x) as Hx by (intros Hbad; subst x; destruct Hnull; by exists it0).
  pose proof (free_list_skip _ _ _ _ _ Ex F Hl) as Hxl.
  split; [intros Hlv; by apply Hnull, (live_insert_ne _ _ _ _ Hx Hlv)|].
  exists (x :: l). split; [|cbn; lia]. split; [done|]. split; [by intros Hbad; apply Hx|].
  exists (pl_free (w_pool w)). cbn. rewrite lookup_insert_eq. split; [done|]. by apply free_list_insert_ne.
Qed.

(** Allocation takes one cell, and fails only when there is none. *)
Lemma room_new x w w' n : eb_new w = Some (x, w') -> room w (S n) -> x <> EB_NULL /\ room w' n.
Proof.
  unfold eb_new, on_pool, eb_new_memory_item. intros E (Hnull & l & Hl & Hn).
  destruct l as [|y l]; cbn in Hn; [lia|]. destruct Hl as (Hf & Hy & k & Ek & Hl).
  rewrite Hf, (proj2 (Z.eqb_neq y EB_END_OF_FREE) Hy) in E.
  cbv beta iota zeta in E. rewrite Hf, Ek in E. injection E as <- <-. split; [done|]. cbn.
  split; [intros Hlv; by apply Hnull, (live_insert_ne _ y _ IRaw); [intros Hb; by apply Hy|]|].
  exists l. split; [|lia]. cbn. apply free_list_insert_ne; [|done].
  pose proof (free_list_NoDup (cells (w_pool w)) y (y :: l)) as Hnd.
  specialize (Hnd ltac:(split; [done|]; split; [done|]; by exists k)). by apply NoDup_cons in Hnd as [? _].
Qed.

Lemma keeps_peek x : keeps_room (peek x).
Proof. apply keeps_read. intros w a w'. unfold peek. case_match; [by intros [= _ <-]|done]. Qed.

Lemma keeps_gets {A} (f : world X -> A) : keeps_room (gets f).
Proof. apply keeps_read. by intros w a w' [= _ <-]. Qed.

Lemma keeps_get_node {T} `{Node T} p : keeps_room (get_node (T := T) p).
Proof. apply keeps_read. intros w a w'. unfold get_node. case_match; [by intros [= _ <-]|done]. Qed.

Lemma keeps_load_list {T} `{Node T} p : keeps_room (load_list (T := T) p).
Proof. apply keeps_read. intros w a w'. unfold load_list. case_match; [by intros [= _ <-]|done]. Qed.
End room.

Create HintDb room.
#[export] Hint Resolve keeps_ret keeps_fault keeps_poke keeps_free keeps_peek keeps_gets
  keeps_get_node keeps_load_list keeps_when : room.

(** [keep]: a sequence of actions that keep cells keeps them. *)
Ltac keep := repeat first
  [ progress eauto 2 with room
  | match goal with
    | |- keeps_room (bind _ _) => apply keeps_bind; [|intros]
    | |- keeps_room (when _ _) => apply keeps_when
    | |- keeps_room (match ?x with _ => _ end) => destruct x
    | |- keeps_room (let '_ := ?x in _) => destruct x
    end ].

Section keeping.
Context {X : Type} `{Env X} `{!PoolExpander e_expand} `{Callbacks X}.

Lemma keeps_reverse {T} `{Node T} n : forall p q, keeps_room (reverse_loop (T := T) (X := X) n p q).
Proof. induction n; intros p q; cbn [reverse_loop]; keep. Qed.

Lemma keeps_reverse_list {T} `{Node T} p : keeps_room (reverse_list (T := T) (X := X) p).
Proof. intros w. apply keeps_reverse. Qed.

Lemma keeps_free_ops n : forall p, keeps_room (free_ops (X := X) n p).
Proof. induction n; intros p; cbn [free_ops]; unfold EB_OPERATION; keep. Qed.

Lemma keeps_destroy c : keeps_room (eb_cycle_destroy (X := X) c).
Proof. unfold eb_cycle_destroy, EB_CYCLE, pool_fuel. keep. apply keeps_free_ops. Qed.

Lemma keeps_find_op test n : forall p, keeps_room (find_op (X := X) test n p).
Proof. induction n; intros p; cbn [find_op]; unfold EB_OPERATION; keep. Qed.

Lemma keeps_check_ops data mask n : forall p, keeps_room (check_ops (X := X) data mask n p).
Proof. induction n; intros p; cbn [check_ops]; unfold EB_OPERATION; keep. Qed.

Lemma keeps_find_bus p : keeps_room (eb_find_bus (X := X) p).
Proof. unfold eb_find_bus, pool_fuel. keep. apply keeps_find_op. Qed.

Lemma keeps_find_read p : keeps_room (eb_find_read (X := X) p).
Proof. unfold eb_find_read, pool_fuel. keep. apply keeps_find_op. Qed.
End keeping.

#[export] Hint Resolve keeps_reverse_list keeps_destroy keeps_check_ops keeps_find_bus keeps_find_read : room.

(** * The check loop and the release of a cycle *)

Section check.
Context {X : Type} `{Env X} `{!PoolExpander e_expand} `{Callbacks X}.
Implicit Types w : world X.

Lemma release_spec w cyclep c st :
  pool_ok w -> cycle_repr w cyclep c st ->
  exists w', (eb_cycle_destroy cyclep ;;; eb_free cyclep) w = Some (tt, w') /\
    frame (fun y => y = cyclep \/ y ∈ owned st) w w' /\
    (forall y, live (cells (w_pool w')) y <-> live (cells (w_pool w)) y /\ y <> cyclep /\ y ∉ owned st).
Proof.
  intros Hw Hr. destruct (eb_cycle_destroy_spec cyclep c st w Hw Hr) as (w1 & E1 & F1 & Ec & L1).
  destruct (free_frame (fun y => y = cyclep) cyclep w1 (proj1 F1) ltac:(by eexists) eq_refl) as (w2 & E2 & F2 & L2).
  exists w2. rewrite (bind_some _ _ _ _ _ E1). split; [done|]. split.
  - eapply frame_trans; [exact F1|exact F2|]. intros y _ ->. by left.
  - intros y. rewrite L2, L1. tauto.
Qed.

Context (data mask : Z).

(** The operation with the format the check settles on. *)
Definition checked (o : eb_operation) : eb_operation :=
  match fst (check_op data mask o) with Some f => op_set_format f o | None => o end.

(** The first operation the device cannot execute, and why. *)
Fixpoint first_bad (l : list node) : option (Z * Z) :=
  match l with
  | [] => None
  | (x, o) :: l => if snd (check_op data mask o) =? EB_OK then first_bad l else Some (x, snd (check_op data mask o))
  end.

Lemma check_ops_spec l : forall n p w,
  pool_ok w -> chain (cells (w_pool w)) p l -> (length l <= n)%nat ->
  exists w' l',
    check_ops data mask n p w = Some (default (EB_NULL, EB_OK) (first_bad l), w') /\
    frame (fun y => y ∈ l.*1) w w' /\ chain (cells (w_pool w')) p l' /\ l'.*1 = l.*1 /\
    (first_bad l = None -> l' = map (fun xo => (xo.1, checked xo.2)) l) /\
    (forall y, live (cells (w_pool w')) y <-> live (cells (w_pool w)) y).
Proof.
  induction l as [|[x o] l IH]; intros n p w Hw Hc Hn.
  - cbn in Hc. subst p. exists w, []. split; [by destruct n|]. split; [by apply frame_refl|]. done.
  - pose proof (chain_NoDup _ _ _ Hc) as Hnd. cbn in Hnd. apply NoDup_cons in Hnd as [Hxl _].
    destruct Hc as (-> & Hx & k & E & Hc). destruct n as [|n]; cbn in Hn; [lia|].
    cbn [check_ops first_bad]. rewrite (proj2 (Z.eqb_neq _ EB_NULL)) by done.
    mstep (EB_OPERATION_some _ _ _ E).
    change (check_op data mask (set_next k o)) with (check_op data mask o).
    set (o1 := checked o).
    assert (exists w1, (match fst (check_op data mask o) with
        | Some f => poke x (IOperation (op_set_format f (set_next k o))) | None => ret tt end) w = Some (tt, w1) /\
      frame (fun y => y = x) w w1 /\ cells (w_pool w1) !! x = Some (IOperation (set_next k o1)) /\
      (forall y, live (cells (w_pool w1)) y <-> live (cells (w_pool w)) y)) as (w1 & E1 & F1 & Ex1 & L1).
    { unfold o1, checked. destruct (fst (check_op data mask o)) as [f|].
      - destruct (poke_cell x (IOperation (op_set_format f (set_next k o))) _ w Hw E) as (w1 & E1 & F1 & C1 & L1); [done..|].
        exists w1. split; [done|]. split; [done|]. split; [by rewrite C1, lookup_insert_eq|done].
      - exists w. split; [done|]. split; [by apply frame_refl|]. by split. }
    destruct (check_op data mask o) as [format reason]. cbn [fst snd] in *. mstep E1.
    assert (chain (cells (w_pool w1)) k l) as Hc1.
    { eapply touches_chain; [exact (proj1 (frame_touches (fun _ => ret tt) _ _ _ F1))| |exact Hc]. intros y Hy ->. done. }
    destruct (Z.eqb_spec reason EB_OK) as [->|Hbad].
    + change (op_next (set_next k o)) with k.
      destruct (IH n k w1 (proj1 F1) Hc1 ltac:(lia)) as (w' & l' & E' & F' & Hc' & Hl' & Hall & L').
      exists w', ((x, o1) :: l'). split; [exact E'|]. split.
      { eapply frame_trans; [eapply frame_weaken; [exact F1|]|exact F'|]; intros y; cbn; rewrite elem_of_cons; [by left|by right]. }
      split; [|split; [cbn; by rewrite Hl'|split; [intros Hb; cbn; by rewrite (Hall Hb)|intros y; by rewrite L', L1]]].
      split; [done|]. split; [done|]. exists k. split; [|done].
      destruct F' as (_ & _ & F'). rewrite F'; [done|done|by eexists].
    + exists w1, ((x, o1) :: l). split; [done|].
      split; [eapply frame_weaken; [exact F1|]; intros y; cbn; rewrite elem_of_cons; by left|].
      split; [split; [done|]; split; [done|]; by exists k|]. split; [done|]. split; [done|exact L1].
Qed.
End check.

(** * The specification *)

(** A queued cycle: its object and its operations, [None] when an allocation
    failed while it was being filled. *)
Record entry := mk_entry { e_cycle : Z; e_obj : eb_cycle; e_ops : option (list node) }.

(** What becomes of a cycle: the callback is told that it was refused, or its
    payload is sent and either the callback told that it is done, or a response
    awaits the answer. *)
Inductive outcome :=
  | Refused (operation status : Z)
  | Done (payload : list Z)
  | Waiting (payload : list Z) (responsep : Z) (response : eb_response).

Definition responses_of (os : list outcome) : list (Z * eb_response) :=
  flat_map (fun o => match o with Waiting _ x r => [(x, r)] | _ => [] end) os.

(** [aux->rba = 0x8000 | (aux->rba + 2)] *)
Definition next_rba (rba : Z) : Z := u16 (0x8000 .| (rba + 2)).
Definition rba_after (rba : Z) (o : outcome) : Z :=
  match o with Waiting _ _ _ => next_rba rba | _ => rba end.

Section spec.
Context (width : Z) (mtu : nat) (devicep time : Z).
Let data := g_data width.
Let mask := byte_mask (g_addr width).
Let hal := g_record_alignment width.

Definition checks (ops : list node) : bool :=
  match ops with (_, o) :: _ => negb ((op_flags o .& EB_OP_CHECKED) =? 0) | [] => false end.
Definition budget (ops : list node) : Z := if checks ops then data * 8 else 2 ^ 32 - 1.

(** The operations as sent: the formats are those the check chose; the links
    between the cells are immaterial. An empty cycle is not sent. *)
Definition sendable (l ops : list node) : Prop :=
  l <> [] /\ first_bad data mask l = None /\
  map (fun xt => (xt.1, set_next EB_NULL xt.2)) ops =
    map (fun xt => (xt.1, set_next EB_NULL (checked data mask xt.2))) l.

(** What may become of a cycle when the next response address is [rba];
    [exhausted] is the condition under which the pool can run out of cells. *)
Inductive settles (exhausted : Prop) (rba : Z) (e : entry) : outcome -> Prop :=
  | settles_dead : e_ops e = None -> settles exhausted rba e (Refused EB_NULL EB_OOM)
  | settles_empty : e_ops e = Some [] -> settles exhausted rba e (Refused EB_NULL EB_OK)
  | settles_bad l x reason : e_ops e = Some l -> first_bad data mask l = Some (x, reason) ->
      settles exhausted rba e (Refused x reason)
  | settles_full l ops : e_ops e = Some l -> sendable l ops -> exhausted -> settles exhausted rba e (Refused EB_NULL EB_OOM)
  | settles_overflow l ops recs x : e_ops e = Some l -> sendable l ops ->
      cycle_records data (budget ops) (checks ops) (S (2 * length ops)) 0 ops = Some recs ->
      (mtu < hal + length (cycle_bytes width rba recs))%nat ->
      settles exhausted rba e (Refused x EB_OVERFLOW)
  | settles_done l ops recs : e_ops e = Some l -> sendable l ops ->
      cycle_records data (budget ops) (checks ops) (S (2 * length ops)) 0 ops = Some recs ->
      existsb has_answer recs = false ->
      settles exhausted rba e (Done (cycle_bytes width rba recs))
  | settles_waiting l ops recs x : e_ops e = Some l -> sendable l ops ->
      cycle_records data (budget ops) (checks ops) (S (2 * length ops)) 0 ops = Some recs ->
      existsb has_answer recs = true ->
      settles exhausted rba e (Waiting (cycle_bytes width rba recs) x
        (mk_response rba (u16 (time + 5)) EB_NULL (e_cycle e) (first_cell (skip_to is_read ops))
          (if checks ops then first_cell (skip_to (fun o => negb (is_config o)) ops) else EB_NULL))).

(** The outcomes of a queue, oldest cycle first. *)
Inductive settle_all (exhausted : Prop) : Z -> list entry -> list outcome -> Prop :=
  | settle_nil rba : settle_all exhausted rba [] []
  | settle_cons rba e o es os : settles exhausted rba e o ->
      settle_all exhausted (rba_after rba o) es os -> settle_all exhausted rba (e :: es) (o :: os).

Definition notify (e : entry) (operation status : Z) : event :=
  Notify (cy_callback (e_obj e)) (cy_user_data (e_obj e)) devicep operation status.

(** A packet: the header, with or without the promise that no answer is expected,
    and whole payloads. *)
Definition packet (buf : list (list Z)) (bytes : list Z) : Prop :=
  exists flags, (flags = 0 \/ flags = EB_HEADER_NR) /\ bytes = packet_header flags width ++ concat buf.

(** The events of a flush. [buf] holds the payloads not sent yet; they are sent
    when the next one does not fit, and at the end. *)
Inductive flushed : list (list Z) -> list (entry * outcome) -> list event -> Prop :=
  | flushed_end : flushed [] [] []
  | flushed_send buf bytes : buf <> [] -> packet buf bytes -> flushed buf [] [Packet bytes]
  | flushed_full buf bytes q evs : buf <> [] -> packet buf bytes -> flushed [] q evs ->
      flushed buf q (Packet bytes :: evs)
  | flushed_refused buf e op st q evs : flushed buf q evs ->
      flushed buf ((e, Refused op st) :: q) (notify e op st :: evs)
  | flushed_done buf e payload q evs :
      (hal + length (concat (buf ++ [payload])) <= mtu)%nat -> flushed (buf ++ [payload]) q evs ->
      flushed buf ((e, Done payload) :: q) (notify e (cy_ops (e_obj e)) EB_OK :: evs)
  | flushed_waiting buf e payload x r q evs :
      (hal + length (concat (buf ++ [payload])) <= mtu)%nat -> flushed (buf ++ [payload]) q evs ->
      flushed buf ((e, Waiting payload x r) :: q) evs.
End spec.

(** * The buffer *)

Section buffer.
Context {X : Type} `{Env X} `{!PoolExpander e_expand} `{Callbacks X}.
Context (width link_type : Z) (mtu : nat) (devicep : Z) (d : eb_device).
Context (Hw : link_width width) (Hmtu : mtu <> 0%nat).
Implicit Types w : world X.

Let act := perform_event link_type (dv_transport d) (dv_link d).
Let hal := g_record_alignment width.
Context (Hquiet : forall e, quiet (act e)).

Definition headed (b : mbuf) (rest : list Z) : Prop :=
  exists flags, (flags = 0 \/ flags = EB_HEADER_NR) /\ b_bytes b = packet_header flags width ++ rest.

(** Between two cycles the buffer holds the header and whole payloads. *)
Definition buffers (buf : list (list Z)) (b : mbuf) : Prop :=
  headed b (concat buf) /\ b_cptr b = length (b_bytes b) /\ (length (b_bytes b) <= mtu)%nat /\
  Forall (fun p => p <> []) buf.

Lemma promise_headed b rest : headed b rest ->
  exists flags, (flags = 0 \/ flags = EB_HEADER_NR) /\ promise b = packet_header flags width ++ rest.
Proof.
  intros (f & Hf & E). unfold promise. case_if; [by exists f|]. exists EB_HEADER_NR. split; [by right|].
  rewrite E. by destruct Hf as [-> | ->].
Qed.

Lemma headed_take b rest : headed b rest -> take hal (b_bytes b) ++ rest = b_bytes b.
Proof.
  intros (f & Hf & E). rewrite E, take_app_length'; [done|]. by rewrite length_packet_header.
Qed.

Lemma ensure_space_headed len b w b' ok w' rest :
  (hal <= b_cptr b)%nat ->
  ensure_space link_type mtu hal devicep len b w = Some ((b', ok), w') -> headed b rest ->
  exists rest', headed b' rest' /\ (hal <= b_cptr b')%nat.
Proof.
  intros Hc E Hb. unfold ensure_space in E. destruct (limit mtu <? _)%nat; [|injection E as <- _ _; by exists rest].
  unfold bind at 1 in E. destruct (EB_DEVICE devicep w) as [[d' w1]|]; [|done].
  rewrite (proj2 (Nat.eqb_neq mtu 0) Hmtu) in E. destruct (negb (b_cptr b =? hal)%nat).
  2: { rewrite bind_ret in E. injection E as <- _ _. by exists rest. }
  destruct (promise_headed b rest Hb) as (f & Hf & Ep). cbv zeta in E. unfold bind, ret in E.
  destruct (t_send _ _ _ _ w1) as [[[] w2]|]; [|done]. injection E as <- _ _.
  eexists. split; [|done]. exists f. split; [done|]. cbn [b_bytes]. rewrite Ep, take_app_length'; [done|].
  by rewrite length_packet_header.
Qed.

Lemma record_loop_headed cyclep responsep rba maxops nc fuel : forall ops readback b l w b' r w' rest,
  (hal <= b_cptr b)%nat -> headed b rest ->
  record_loop width link_type mtu devicep cyclep responsep rba maxops nc fuel ops readback b l w = Some ((b', r), w') ->
  exists rest', headed b' rest'.
Proof.
  induction fuel as [|fuel IH]; intros ops readback b l w b' r w' rest Hc Hb E; [done|].
  cbn [record_loop] in E. unfold bind at 1 in E.
  destruct (ensure_space _ _ _ _ _ _ w) as [[[b1 ok] w1]|] eqn:Ee; [|done].
  destruct (ensure_space_headed _ _ _ _ _ _ _ Hc Ee Hb) as (rest1 & Hb1 & Hc1).
  destruct ok; cbn [negb] in E; cbv zeta in E.
  - destruct (emit_record _ _ _ _ _) as [bytes l1]. destruct (is_cycle_end _ _).
    + injection E as <- _ _. exists (rest1 ++ bytes). destruct Hb1 as (f & Hf & Eb). exists f.
      split; [done|]. cbn. by rewrite Eb, <- app_assoc.
    + eapply (IH _ _ _ _ _ _ _ _ (rest1 ++ bytes)); [..|exact E]; [done|]. destruct Hb1 as (f & Hf & Eb). exists f.
      split; [done|]. cbn. by rewrite Eb, <- app_assoc.
  - unfold bind at 1 in E. destruct (abandon_cycle _ _ _ w1) as [[[] w2]|]; [|done]. injection E as <- _ _.
    exists []. destruct Hb1 as (f & Hf & Eb). exists f. split; [done|]. cbn [b_bytes].
    rewrite Eb, take_app_length', app_nil_r; [done|]. by rewrite length_packet_header.
Qed.

(** What was sent: nothing, or one packet with all the payloads. *)
Definition sent (buf buf' : list (list Z)) (evs : list event) : Prop :=
  (evs = [] /\ buf' = buf) \/ (buf <> [] /\ buf' = [] /\ exists bytes, evs = [Packet bytes] /\ packet width buf bytes).

Lemma sent_packets buf b sends cptr : buffers buf b -> sent_before width b sends cptr ->
  exists buf', sent buf buf' (map Packet sends) /\
    ((sends = [] /\ cptr = b_cptr b /\ buf' = buf) \/ (cptr = hal /\ buf' = [] /\ cptr <> b_cptr b)).
Proof.
  intros ((f & Hf & E) & Hc & _ & _) [[-> ->]|(Hne & -> & r & rest & ->)].
  - exists buf. split; [by left|by left].
  - exists []. split; [|by right]. right. split.
    { intros ->. apply Hne. rewrite Hc, E. cbn [concat]. by rewrite app_nil_r, length_packet_header. }
    split; [done|]. eexists. split; [done|].
    destruct (promise_headed (mk_mbuf (b_bytes b ++ rest) 0 r) (concat buf ++ rest)) as (f' & Hf' & Ep).
    { exists f. split; [done|]. cbn [b_bytes]. by rewrite E, <- app_assoc. }
    exists f'. split; [done|]. rewrite Ep, app_assoc, take_app_length'; [done|].
    rewrite Hc, E, !length_app, !length_packet_header. done.
Qed.

Lemma emits_sends sends w w' : mapM_ (t_send link_type (dv_transport d) (dv_link d)) sends w = Some (tt, w') ->
  emits act (map Packet sends) w w'.
Proof.
  intros E. exists w'. split; [|by destruct w']. revert w E. induction sends as [|b sends IH]; intros w; [done|].
  cbn [mapM_ map]. unfold bind. change (act (Packet b)) with (t_send link_type (dv_transport d) (dv_link d) b).
  destruct (t_send _ _ _ b w) as [[[] w1]|]; [apply IH|done].
Qed.

Lemma quiet_sends : send_ok link_type d.
Proof.
  intros bytes w. destruct (Hquiet (Packet bytes) w) as (v & E & P & _). by exists v.
Qed.

Lemma buffers_empty b buf : buffers buf b -> length (b_bytes b) = hal -> buf = [].
Proof.
  intros ((f & _ & E) & _ & _ & Hne) Hl. rewrite E, length_app, length_packet_header in Hl. fold hal in Hl.
  destruct buf as [|p buf]; [done|]. apply Forall_cons in Hne as [Hp _]. cbn in Hl. rewrite length_app in Hl.
  destruct p; [done|]. cbn in Hl. lia.
Qed.

(** One cycle through the record loop. *)
Lemma loop_step cyclep responsep rba maxops nc ops recs buf b w :
  0 < maxops < 2 ^ 32 -> ops <> [] -> Forall (fun xo => op_format xo.2 <> EB_DATAX) ops ->
  cells (w_pool w) !! devicep = Some (IDevice d) -> buffers buf b ->
  cycle_records (g_data width) maxops nc (S (2 * length ops)) 0 ops = Some recs ->
  let payload := cycle_bytes width rba recs in
  exists buf' evs b' w', emits act evs w w' /\ w_pool w' = w_pool w /\ sent buf buf' evs /\
    if (hal + length payload <=? mtu)%nat
    then record_loop width link_type mtu devicep cyclep responsep rba maxops nc (S (2 * length ops)) 0 false b ops w =
           Some ((b', Some (existsb has_answer recs)), w') /\
         buffers (buf' ++ [payload]) (mk_mbuf (b_bytes b') (length (b_bytes b')) (b_reads b'))
    else buf' = [] /\ length (b_bytes b') = hal /\ b_cptr b' = hal /\ exists opp,
         record_loop width link_type mtu devicep cyclep responsep rba maxops nc (S (2 * length ops)) 0 false b ops w =
           (abandon_cycle cyclep responsep opp ;;; ret (b', None)) w'.
Proof.
  intros Hm Hne Hf Hd Hb Hrecs payload.
  pose proof (proj1 (link_width_cases width Hw)) as Hdata.
  destruct (cycle_records_spec (g_data width) maxops nc (S (2 * length ops)) 0 ops)
    as (recs' & E & _ & (init & last & Hlast & _) & Hok & _); try done; [lia|by left|unfold record_measure; cbn; lia|].
  rewrite Hrecs in E. injection E as <-.
  pose proof Hb as (Hhead & Hcptr & Hlen & Hne').
  assert (hal <= b_cptr b)%nat as Hhal.
  { destruct Hhead as (f & _ & E). rewrite Hcptr, E, length_app, length_packet_header. fold hal. lia. }
  destruct (record_loop_packet width link_type devicep cyclep responsep rba maxops nc d quiet_sends
    mtu (S (2 * length ops)) Hmtu 0 false b ops recs w) as (sends & b' & w' & Es & Ep & Hs & Hres);
    [split; [|done]; fold hal; lia|done|done|done|].
  assert (current b = []) as Hcur by (unfold current; rewrite Hcptr; apply drop_all).
  rewrite Hcur in Hres. cbn [length app] in Hres. rewrite Nat.add_0_r in Hres. fold hal in Hres.
  destruct (sent_packets buf b sends (b_cptr b') Hb Hs) as (buf' & Hsent & Hbuf').
  exists buf', (map Packet sends), b', w'. split; [by apply emits_sends|]. split; [done|]. split; [done|].
  fold payload in Hres. destruct (Nat.leb_spec (hal + length payload) mtu) as [Hle|Hgt].
  - destruct Hres as (Er & Hc' & [_ Hl'] & Hsame). split; [exact Er|].
    assert (headed b' (concat (buf' ++ [payload]))) as Hh.
    { rewrite concat_app. cbn [concat]. rewrite app_nil_r.
      destruct Hbuf' as [(_ & Hcp & ->)|(Hcp & -> & _)].
      - destruct Hhead as (f & Hff & E). exists f. split; [done|]. by rewrite (Hsame Hcp), E, <- app_assoc.
      - assert (exists rest, headed b' rest) as (rest & f & Hff & E) by (eapply record_loop_headed; eauto).
        exists f. split; [done|]. cbn [concat app]. rewrite E. f_equal. rewrite <- Hc'. unfold current.
        rewrite E, drop_app_length'; [done|]. by rewrite Hcp, length_packet_header. }
    split; [exact Hh|]. split; [done|]. split; [done|]. apply Forall_app. split.
    + destruct Hbuf' as [(_ & _ & ->)|(_ & -> & _)]; [done|constructor].
    + constructor; [|constructor]. intros Hnil. apply (f_equal length) in Hnil.
      unfold payload, cycle_bytes in Hnil. rewrite Hlast, map_app, concat_app, length_app in Hnil. cbn [map concat] in Hnil.
      rewrite app_nil_r in Hnil. rewrite Hlast in Hok. apply Forall_app in Hok as [_ Hok]. apply Forall_cons in Hok as [Hr _].
      rewrite (length_record_bytes _ _ _ _ _ _ Hr) in Hnil. unfold plan_length in Hnil. cbn in Hnil.
      destruct (g_record_alignment_cases width); lia.
  - destruct Hres as (Hc & Hl & opp & Er). destruct Hbuf' as [(-> & Hcp & ->)|(_ & -> & _)].
    + split; [apply (buffers_empty b); [done|]; rewrite <- Hcptr; congruence|]. eauto.
    + eauto 10.
Qed.
End buffer.

(** * One cycle of the queue *)

Section step.
Context {X : Type} `{Env X} `{!PoolExpander e_expand} `{Callbacks X}.
Context (width link_type : Z) (mtu : nat) (devicep : Z) (d : eb_device) (s0 : eb_socket) (a0 : eb_socket_aux).
Context (Hw : link_width width) (Hmtu : mtu <> 0%nat).
Implicit Types (w : world X) (e : entry).

Let act := perform_event link_type (dv_transport d) (dv_link d).
Let time := ax_time_cache a0.
Let data := g_data width.
Let mask := byte_mask (g_addr width).
Let hal := g_record_alignment width.
Context (Hquiet : forall ev, quiet (act ev)).

(** The cell of a queued cycle and its operations. *)
Definition entry_ok w e : Prop :=
  (exists n, cells (w_pool w) !! e_cycle e = Some (ICycle (cy_set_link n (e_obj e)))) /\
  match e_ops e with
  | None => cy_ops (e_obj e) = e_cycle e
  | Some l => chain (cells (w_pool w)) (cy_ops (e_obj e)) l /\ Forall (fun xo => is_byte (op_format xo.2)) l
  end.

(** A cycle that waits for its answer. *)
Definition in_flight w e : Prop :=
  cells (w_pool w) !! e_cycle e = Some (ICycle (cy_set_link devicep (e_obj e))) /\
  exists l ops, e_ops e = Some l /\ sendable width l ops /\ chain (cells (w_pool w)) (cy_ops (e_obj e)) ops.

(** The socket with the responses [lst], newest first, in its second list. *)
Definition server w (rba : Z) (lst : list (Z * eb_response)) : Prop :=
  exists p, cells (w_pool w) !! dv_socket d = Some (ISocket (sk_set_responses (sk_first_response s0) p s0)) /\
    cells (w_pool w) !! sk_aux s0 = Some (ISocketAux (mk_socket_aux time rba (ax_first_transport a0))) /\
    chain (cells (w_pool w)) p lst.

Definition own_cells e (y : Z) : Prop := y = e_cycle e \/ y ∈ owned (e_ops e).

Definition kept e (o : outcome) w (y : Z) : Prop :=
  match o with
  | Waiting _ x _ => y = x \/ live (cells (w_pool w)) y
  | _ => live (cells (w_pool w)) y /\ ~ own_cells e y
  end.

(** Callback and release. *)
Lemma reject_spec w e st op status :
  pool_ok w -> cycle_repr w (e_cycle e) (cy_set_link devicep (e_obj e)) st ->
  exists w', reject_cycle (e_cycle e) op status w = Some (tt, w') /\
    touches (fun y => y = e_cycle e \/ y ∈ owned st) w w' /\ emits act [notify devicep e op status] w w' /\
    (forall y, live (cells (w_pool w')) y <-> live (cells (w_pool w)) y /\ y <> e_cycle e /\ y ∉ owned st).
Proof.
  intros Hp Hr. destruct (cycle_cell _ _ _ _ Hr) as (p & E). unfold reject_cycle. mstep (EB_CYCLE_some _ _ _ E).
  destruct (emits_one act (notify devicep e op status) w Hquiet) as (w1 & E1 & M1 & P1).
  change (act (notify devicep e op status)) with (call (cy_callback (e_obj e)) (cy_user_data (e_obj e)) devicep op status) in E1.
  cbn [cy_callback cy_user_data cy_link cy_set_ops cy_set_link].
  rewrite (bind_some _ _ _ _ _ E1).
  destruct (release_spec w1 (e_cycle e) (cy_set_link devicep (e_obj e)) st) as (w2 & E2 & F2 & L2).
  { apply (touches_same (fun _ => False) w w1 Hp P1). }
  { destruct st; cbn [cycle_repr] in *; by rewrite P1. }
  exists w2. split; [exact E2|]. destruct (frame_touches act _ _ _ F2) as [T2 M2]. split_and!.
  - exact (touches_trans _ _ _ _ _ (touches_same _ w w1 Hp P1) T2 (fun y _ Hy => Hy)).
  - rewrite <- (app_nil_r [_]). eapply emits_trans; [exact Hquiet|exact M1|exact M2].
  - intros y. by rewrite L2, P1.
Qed.

Lemma abandon_reject c r o w :
  abandon_cycle c r o w = (reject_cycle c o EB_OVERFLOW ;;; eb_free r) w.
Proof.
  unfold abandon_cycle, reject_cycle, bind. destruct (EB_CYCLE c w) as [[cy w1]|]; [|done].
  destruct (call _ _ _ _ _ w1) as [[[] w2]|]; [|done]. by destruct (eb_cycle_destroy c w2) as [[[] w3]|].
Qed.

Lemma finish_reject socketp c r nc cy w : cells (w_pool w) !! c = Some (ICycle cy) ->
  finish_cycle socketp c r nc false w = (reject_cycle c (cy_ops cy) EB_OK ;;; eb_free r) w.
Proof.
  intros E. unfold finish_cycle, reject_cycle. mstep (EB_CYCLE_some _ _ _ E). cbn [negb].
  rewrite (bind_some _ _ _ _ _ (EB_CYCLE_some _ _ _ E)). unfold bind.
  destruct (call _ _ _ _ _ w) as [[[] w2]|]; [|done]. by destruct (eb_cycle_destroy c w2) as [[[] w3]|].
Qed.

(** Release of a cycle without operations. *)
Lemma destroy_trivial c cy w : cells (w_pool w) !! c = Some (ICycle cy) -> cy_ops cy = c \/ cy_ops cy = EB_NULL ->
  (eb_cycle_destroy c ;;; eb_free c) w = eb_free c w.
Proof.
  intros E Ho. unfold eb_cycle_destroy. mstep (EB_CYCLE_some _ _ _ E). rewrite bind_assoc, bind_fuel, bind_assoc.
  assert (when (negb (cy_ops cy =? c)) (free_ops (size (cells (w_pool w))) (cy_ops cy)) w = Some (tt, w)) as R.
  { destruct Ho as [-> | ->]; [by rewrite Z.eqb_refl|]. destruct (negb _); [|done].
    by destruct (size (cells (w_pool w))). }
  rewrite (bind_some _ _ _ _ _ R). rewrite (bind_some _ _ _ _ _ (poke_live c _ _ w E eq_refl)).
  unfold eb_free, on_pool, eb_free_memory_item. cbn [w_pool with_cells cells]. rewrite lookup_insert_eq, E. cbn.
  by rewrite insert_insert_eq.
Qed.

Lemma entry_own w e y : entry_ok w e -> own_cells e y ->
  (exists c, cells (w_pool w) !! y = Some (ICycle c)) \/ (exists o, cells (w_pool w) !! y = Some (IOperation o)).
Proof.
  intros ((n & Ec) & Ho) [->|Hin]; [left; by eexists|]. right. destruct (e_ops e) as [l|].
  - destruct (chain_cell (T := eb_operation) _ _ _ y (proj1 Ho) Hin) as (o & Eo). by exists o.
  - by apply not_elem_of_nil in Hin.
Qed.

Lemma server_kept w w' e rba lst : entry_ok w e -> touches (own_cells e) w w' -> server w rba lst -> server w' rba lst.
Proof.
  intros He Ht (p & Es & Ea & Hc). exists p.
  assert (forall y it, cells (w_pool w) !! y = Some it -> is_free it = false ->
    (forall c, it <> ICycle c) -> (forall o, it <> IOperation o) -> cells (w_pool w') !! y = Some it) as Hk.
  { intros y it E F Hc1 Ho1. apply (touches_cell _ _ _ _ _ Ht); [|done|done]. intros Hy.
    destruct (entry_own w e y He Hy) as [(c & Ec)|(o & Eo)]; [rewrite E in Ec; injection Ec as ->; by destruct (Hc1 c)|].
    rewrite E in Eo. injection Eo as ->. by destruct (Ho1 o). }
  split; [by apply Hk|]. split; [by apply Hk|].
  eapply chain_agree; [|exact Hc]. intros y Hy. destruct (chain_cell (T := eb_response) _ _ _ y Hc Hy) as (r & Er).
  rewrite Er. by apply Hk.
Qed.

(** What one cycle of the queue does. *)
Record stepped (exhausted : Prop) e (o : outcome) (buf buf' : list (list Z)) (evs : list event) (rba : Z) w w' : Prop := {
  st_touch : touches (fun y => own_cells e y \/ y = dv_socket d \/ y = sk_aux s0) w w';
  st_emits : emits act evs w w';
  st_flushed : forall q evs', flushed width mtu devicep buf' q evs' ->
                 flushed width mtu devicep buf ((e, o) :: q) (evs ++ evs');
  st_settles : settles width mtu time exhausted rba e o;
  st_live : forall y, live (cells (w_pool w')) y <-> kept e o w y;
  st_fresh : match o with Waiting _ x _ => ~ live (cells (w_pool w)) x | _ => True end;
  st_server : forall lst, server w rba lst -> server w' (rba_after rba o) (responses_of [o] ++ lst);
  st_flight : match o with Waiting _ _ _ => in_flight w' e | _ => True end }.

(** Freeing cells that were allocated on the way. *)
Lemma free_all_spec xs : forall w, pool_ok w -> NoDup xs -> (forall x, x ∈ xs -> live (cells (w_pool w)) x) ->
  exists w', mapM_ eb_free xs w = Some (tt, w') /\ frame (fun y => y ∈ xs) w w' /\
    (forall y, live (cells (w_pool w')) y <-> live (cells (w_pool w)) y /\ y ∉ xs).
Proof.
  induction xs as [|x xs IH]; intros w Hp Hnd Hl.
  - exists w. split; [done|]. split; [by apply frame_refl|]. intros y. pose proof (not_elem_of_nil y). tauto.
  - apply NoDup_cons in Hnd as [Hx Hnd]. cbn [mapM_].
    destruct (free_frame (fun y => y = x) x w Hp (Hl x ltac:(by left)) eq_refl) as (w1 & E1 & F1 & L1).
    destruct (IH w1 (proj1 F1) Hnd) as (w2 & E2 & F2 & L2).
    { intros y Hy. apply L1. split; [apply Hl; by right|]. by intros ->. }
    exists w2. rewrite (bind_some _ _ _ _ _ E1). split; [done|]. split.
    + eapply frame_trans; [eapply frame_weaken; [exact F1|]|exact F2|]; intros y; rewrite elem_of_cons; [by left|by right].
    + intros y. rewrite L2, L1, elem_of_cons. tauto.
Qed.

(** The callback runs and the cycle is released, with the cells [xs] that were
    allocated meanwhile. *)
Lemma ended_step exhausted e o op status buf buf' evs rba w w2 st2 xs :
  entry_ok w e -> match o with Waiting _ _ _ => False | _ => True end ->
  touches (own_cells e) w w2 -> emits act evs w w2 ->
  (forall y, live (cells (w_pool w2)) y <-> y ∈ xs \/ live (cells (w_pool w)) y) ->
  NoDup xs -> (forall x, x ∈ xs -> ~ live (cells (w_pool w)) x) ->
  cycle_repr w2 (e_cycle e) (cy_set_link devicep (e_obj e)) st2 -> owned st2 = owned (e_ops e) ->
  (forall q evs', flushed width mtu devicep buf' q evs' ->
     flushed width mtu devicep buf ((e, o) :: q) (evs ++ notify devicep e op status :: evs')) ->
  settles width mtu time exhausted rba e o ->
  exists w', (reject_cycle (e_cycle e) op status ;;; mapM_ eb_free xs) w2 = Some (tt, w') /\
    pool_ok w' /\ stepped exhausted e o buf buf' (evs ++ [notify devicep e op status]) rba w w'.
Proof.
  intros He Ho T2 M2 L2 Hnd Hfresh Hr Hown Hfl Hset.
  destruct (reject_spec w2 e st2 op status (proj1 T2) Hr) as (w3 & E3 & T3 & M3 & L3). rewrite Hown in T3, L3.
  assert (forall x, own_cells e x -> live (cells (w_pool w)) x) as Hol.
  { intros x Hx. destruct (entry_own w e x He Hx) as [(c & Ec)|(c & Ec)]; by eexists. }
  destruct (free_all_spec xs w3 (proj1 T3) Hnd) as (w4 & E4 & F4 & L4).
  { intros x Hx. apply L3. split; [apply L2; by left|]. unfold own_cells in Hol. split; [intros ->|intros Hin];
      (eapply Hfresh; [exact Hx|apply Hol; auto]). }
  destruct (frame_touches act _ _ _ F4) as [T4 M4].
  assert (touches (own_cells e) w w4) as T.
  { eapply touches_trans; [exact (touches_trans _ _ _ _ _ T2 T3 (fun y _ Hy => Hy))|exact T4|].
    intros y Hl Hy. by destruct (Hfresh y Hy). }
  exists w4. rewrite (bind_some _ _ _ _ _ E3). split; [exact E4|]. split; [apply T4|].
  split; try (by destruct o).
  - eapply touches_mono; [exact T|]. auto.
  - rewrite <- (app_nil_r (evs ++ _)). eapply emits_trans; [exact Hquiet| |exact M4].
    eapply emits_trans; [exact Hquiet|exact M2|exact M3].
  - intros q evs' Hq. rewrite <- app_assoc. by apply Hfl.
  - intros y. rewrite L4, L3, L2. specialize (Hfresh y). unfold own_cells. destruct o; cbn [kept]; unfold own_cells; tauto || done.
  - intros lst Hs. destruct o; cbn; try done; by apply (server_kept w w4 e).
Qed.

Lemma flushed_sent buf buf' evs q es :
  sent width buf buf' evs -> flushed width mtu devicep buf' q es -> flushed width mtu devicep buf q (evs ++ es).
Proof. intros [[-> ->]|(Hne & -> & bytes & -> & Hp)] Hf; [done|]. by apply flushed_full. Qed.

Lemma buffers_bound buf b : buffers width mtu buf b -> (hal + length (concat buf) <= mtu)%nat.
Proof.
  intros ((f & _ & E) & _ & Hl & _). rewrite E, length_app, length_packet_header in Hl. exact Hl.
Qed.

Lemma find_status_spec (nc : bool) ops p w : chain (cells (w_pool w)) p ops ->
  (if nc then eb_find_bus p else ret EB_NULL) w =
    Some (if nc then first_cell (skip_to (fun o => negb (is_config o)) ops) else EB_NULL, w).
Proof. intros Hc. destruct nc; [by apply eb_find_bus_spec|done]. Qed.

(** The cycle enters the response queue. *)
Lemma queue_response e l ops x rba lst w :
  pool_ok w -> server w rba lst -> cells (w_pool w) !! x = Some IRaw ->
  (forall y, own_cells e y -> (exists c, cells (w_pool w) !! y = Some (ICycle c)) \/ (exists o, cells (w_pool w) !! y = Some (IOperation o))) ->
  cells (w_pool w) !! e_cycle e = Some (ICycle (cy_set_link devicep (e_obj e))) ->
  e_ops e = Some l -> sendable width l ops -> chain (cells (w_pool w)) (cy_ops (e_obj e)) ops ->
  let r := mk_response rba (u16 (time + 5)) EB_NULL (e_cycle e) (first_cell (skip_to is_read ops))
             (if checks ops then first_cell (skip_to (fun o => negb (is_config o)) ops) else EB_NULL) in
  exists w', finish_cycle (dv_socket d) (e_cycle e) x (checks ops) true w = Some (tt, w') /\
    touches (fun y => y = x \/ y = dv_socket d \/ y = sk_aux s0) w w' /\ emits act [] w w' /\
    (forall y, live (cells (w_pool w')) y <-> live (cells (w_pool w)) y) /\
    (forall lst, server w rba lst -> server w' (next_rba rba) ((x, r) :: lst)) /\ in_flight w' e.
Proof.
  intros Hp (p & Es & Ea & _) Ex He Ec Hl Hs Hch r.
  assert (x <> dv_socket d /\ x <> sk_aux s0 /\ dv_socket d <> sk_aux s0) as (N1 & N2 & N3).
  { split_and!; [intros ->; by rewrite Es in Ex|intros ->; by rewrite Ea in Ex|intros Heq; rewrite Heq, Ea in Es; discriminate Es]. }
  unfold finish_cycle. mstep (EB_CYCLE_some _ _ _ Ec). cbn [negb]. mstep (EB_SOCKET_some _ _ _ Es).
  cbn [sk_aux sk_set_responses]. mstep (EB_SOCKET_AUX_some _ _ _ Ea).
  cbn [cy_ops cy_set_link]. mstep (eb_find_read_spec _ _ _ Hch). mstep (find_status_spec (checks ops) ops _ w Hch).
  cbn [ax_rba ax_time_cache ax_first_transport sk_last_response sk_set_responses].
  destruct (poke_cell x (IResponse (set_next p r)) _ w Hp Ex) as (w1 & R1 & F1 & C1 & L1); [done..|]. mstep R1.
  destruct (poke_cell (sk_aux s0) (ISocketAux (mk_socket_aux time (next_rba rba) (ax_first_transport a0))) _ w1 (proj1 F1)
    ltac:(rewrite C1, lookup_insert_ne by done; exact Ea)) as (w2 & R2 & F2 & C2 & L2); [done..|]. mstep R2.
  destruct (poke_cell (dv_socket d) (ISocket (sk_set_responses (sk_first_response s0) x s0)) _ w2 (proj1 F2)
    ltac:(rewrite C2, C1, lookup_insert_ne, lookup_insert_ne by done; exact Es)) as (w3 & R3 & F3 & C3 & L3); [done..|].
  exists w3. split; [exact R3|].
  assert (frame (fun y => y = x \/ y = dv_socket d \/ y = sk_aux s0) w w3) as F.
  { eapply frame_trans; [eapply frame_trans; [eapply frame_weaken; [exact F1|]|exact F2|]|exact F3|]; naive_solver. }
  destruct (frame_touches act _ _ _ F) as [T M]. split; [done|]. split; [done|].
  split; [intros y; by rewrite L3, L2, L1|].
  assert (forall y, own_cells e y -> y <> x /\ y <> dv_socket d /\ y <> sk_aux s0) as Hown.
  { intros y Hy. destruct (He y Hy) as [(c & E)|(c & E)]; split_and!; intros ->; congruence. }
  split.
  - intros lst' (p' & Es' & _ & Hc). rewrite Es in Es'. injection Es' as <-. exists x. split; [by rewrite C3, lookup_insert_eq|]. split; [by rewrite C3, lookup_insert_ne, C2, lookup_insert_eq|].
    split; [done|]. split; [intros ->; apply (wf_null _ (proj1 Hp)); by eexists|]. exists p.
    split; [by rewrite C3, lookup_insert_ne, C2, lookup_insert_ne, C1, lookup_insert_eq|].
    eapply touches_chain; [exact T| |exact Hc]. intros y Hy.
    destruct (chain_cell (T := eb_response) _ _ _ y Hc Hy) as (u & Eu). cbn in Eu. intros [->|[->| ->]]; congruence.
  - split; [apply (touches_cell _ _ _ _ _ T); [|done|done]; pose proof (Hown (e_cycle e) ltac:(by left)); tauto|].
    exists l, ops. split; [done|]. split; [done|]. eapply touches_chain; [exact T| |exact Hch]. intros y Hy.
    assert (y ∈ l.*1) as Hyl.
    { destruct Hs as (_ & _ & Hs). apply (f_equal (map fst)) in Hs. rewrite !map_map in Hs. cbn in Hs.
      change (map (fun x : node => x.1) ops) with (ops.*1) in Hs. by rewrite Hs in Hy. }
    pose proof (Hown y ltac:(right; by rewrite Hl)). tauto.
Qed.

Lemma checked_format o : is_byte (op_format o) -> snd (check_op data mask o) = EB_OK ->
  op_format (checked data mask o) <> EB_DATAX.
Proof.
  intros Hb. pose proof (format_facts_ok width (op_format o) Hw Hb) as Hff. unfold format_facts in Hff.
  fold data in Hff. unfold checked, check_op.
  set (s := op_size data (op_format o)) in *. set (en := op_endian data (op_format o)) in *.
  destruct (s =? 0); [discriminate|].
  case_if; [discriminate|]. intros _. cbn [fst op_format op_set_format].
  repeat (apply andb_prop in Hff as [Hff ?]). apply existsb_exists in Hff as (t & Ht & Heq). bool_hyps. subst t.
  intros Hd. rewrite Hd in *. clearbody s en.
  assert (s = EB_DATAX) as -> by (symmetry; assumption). cbn in Ht. unfold EB_DATAX in Ht. lia.
Qed.

Lemma sendable_formats l ops : Forall (fun xo => is_byte (op_format xo.2)) l -> sendable width l ops ->
  Forall (fun xo => op_format xo.2 <> EB_DATAX) ops.
Proof.
  intros Hb (_ & Hbad & Hs). assert (Forall (fun xo : node => op_format (checked data mask xo.2) <> EB_DATAX) l) as Hl.
  { fold data mask in Hbad. clear Hs. induction l as [|[x o] l IH]; [constructor|]. apply Forall_cons in Hb as [Hb1 Hb2]. cbn [first_bad] in Hbad.
    destruct (Z.eqb_spec (snd (check_op data mask o)) EB_OK) as [Ho|]; [|done].
    constructor; [by apply checked_format|by apply IH]. }
  apply (f_equal (map (fun xo : node => op_format xo.2))) in Hs. rewrite !map_map in Hs. cbn in Hs.
  apply (proj1 (List.Forall_map (fun xo : node => op_format xo.2) (fun f => f <> EB_DATAX) ops)).
  rewrite Hs. apply (proj2 (List.Forall_map _ _ _)). exact Hl.
Qed.

Lemma budget_range ops : 0 < budget width ops < 2 ^ 32.
Proof.
  unfold budget. destruct (checks ops); [|lia].
  destruct (proj1 (link_width_cases width Hw)) as [->|[->|[->| ->]]]; lia.
Qed.

Lemma free_one (m : M X unit) x w w' : (m ;;; mapM_ eb_free [x]) w = Some (tt, w') -> (m ;;; eb_free x) w = Some (tt, w').
Proof.
  unfold bind. destruct (m w) as [[[] w1]|]; [|done]. cbn [mapM_]. unfold bind, ret.
  by destruct (eb_free x w1) as [[[] w2]|].
Qed.

(** A cycle that awaits its answer, from the world [w4] after the record loop. *)
Lemma queued_step exhausted e l ops recs x rba lst buf buf' evs w w4 :
  e_ops e = Some l -> sendable width l ops -> ops.*1 = l.*1 ->
  cycle_records data (budget width ops) (checks ops) (S (2 * length ops)) 0 ops = Some recs ->
  existsb has_answer recs = true -> (hal + length (concat (buf' ++ [cycle_bytes width rba recs])) <= mtu)%nat ->
  ~ live (cells (w_pool w)) x -> (forall y, live (cells (w_pool w4)) y <-> y ∈ [x] \/ live (cells (w_pool w)) y) ->
  cells (w_pool w4) !! x = Some IRaw -> touches (own_cells e) w w4 -> emits act evs w w4 -> sent width buf buf' evs ->
  (forall lst, server w rba lst -> server w4 rba lst) -> server w4 rba lst ->
  cells (w_pool w4) !! e_cycle e = Some (ICycle (cy_set_link devicep (e_obj e))) ->
  chain (cells (w_pool w4)) (cy_ops (e_obj e)) ops ->
  exists r w', finish_cycle (dv_socket d) (e_cycle e) x (checks ops) true w4 = Some (tt, w') /\ pool_ok w' /\
    stepped exhausted e (Waiting (cycle_bytes width rba recs) x r) buf (buf' ++ [cycle_bytes width rba recs]) evs rba w w'.
Proof.
  intros Hl Hsend Hfst Hrecs Easks Hbound Hx L4 Ex T4 M4 Hsent Hsv Hsrv4 Ec Hco.
  assert (forall z, own_cells e z -> (exists c, cells (w_pool w4) !! z = Some (ICycle c)) \/ (exists o, cells (w_pool w4) !! z = Some (IOperation o))) as Hoc.
  { intros z [->|Hz]; [left; by eexists|right]. rewrite Hl in Hz. change (owned (Some l)) with (l.*1) in Hz. rewrite <- Hfst in Hz.
    destruct (chain_cell (T := eb_operation) _ _ _ z Hco Hz) as (u & Eu). by exists u. }
  destruct (queue_response e l ops x rba lst w4 (proj1 T4) Hsrv4 Ex Hoc Ec Hl Hsend Hco) as (w' & R & T & M' & L' & Hs' & Hfl).
  eexists _, w'. split; [exact R|]. split; [apply T|]. split.
  - eapply (touches_trans _ _ w w4); [eapply touches_mono; [exact T4|]; intros y _ Hy; by left|exact T|].
    intros y Hlv [->|Hy]; [done|by right].
  - rewrite <- (app_nil_r evs). eapply emits_trans; [exact Hquiet|exact M4|exact M'].
  - intros q evs' Hq. eapply flushed_sent; [exact Hsent|]. by apply flushed_waiting.
  - by eapply settles_waiting.
  - intros y. by rewrite L', L4, list_elem_of_singleton.
  - done.
  - intros lst' Hs. by apply Hs', Hsv.
  - done.
Qed.

(** The world [w4] after the record loop of a cycle, [x] its response cell. *)
Record packed (e : entry) (l ops : list node) recs x (buf buf' : list (list Z)) (evs : list event) w w4 : Prop := {
  pk_entry : entry_ok w e;
  pk_ops : e_ops e = Some l;
  pk_send : sendable width l ops;
  pk_first : ops.*1 = l.*1;
  pk_recs : cycle_records data (budget width ops) (checks ops) (S (2 * length ops)) 0 ops = Some recs;
  pk_touches : touches (own_cells e) w w4;
  pk_emits : emits act evs w w4;
  pk_live : forall y, live (cells (w_pool w4)) y <-> y ∈ [x] \/ live (cells (w_pool w)) y;
  pk_fresh : ~ live (cells (w_pool w)) x;
  pk_cell : cells (w_pool w4) !! x = Some IRaw;
  pk_cycle : cells (w_pool w4) !! e_cycle e = Some (ICycle (cy_set_link devicep (e_obj e)));
  pk_chain : chain (cells (w_pool w4)) (cy_ops (e_obj e)) ops;
  pk_sent : sent width buf buf' evs }.

(** What [ended_step] asks of the cycle and of the cell. *)
Lemma packed_ends e l ops recs x buf buf' evs w w4 : packed e l ops recs x buf buf' evs w w4 ->
  NoDup [x] /\ (forall y, y ∈ [x] -> ~ live (cells (w_pool w)) y) /\
  cycle_repr w4 (e_cycle e) (cy_set_link devicep (e_obj e)) (Some ops) /\ owned (Some ops) = owned (e_ops e).
Proof.
  intros P. split; [apply NoDup_singleton|]. split; [by intros y ->%list_elem_of_singleton; apply P|].
  split; [exists (cy_ops (e_obj e)); split; [apply P|apply P]|].
  rewrite (pk_ops _ _ _ _ _ _ _ _ _ _ P). exact (pk_first _ _ _ _ _ _ _ _ _ _ P).
Qed.

(** A cycle that awaits no answer is called back and released. *)
Lemma done_step exhausted e l ops recs x rba buf buf' evs w w4 : packed e l ops recs x buf buf' evs w w4 ->
  existsb has_answer recs = false -> (hal + length (concat (buf' ++ [cycle_bytes width rba recs])) <= mtu)%nat ->
  exists w', finish_cycle (dv_socket d) (e_cycle e) x (checks ops) false w4 = Some (tt, w') /\ pool_ok w' /\
    stepped exhausted e (Done (cycle_bytes width rba recs)) buf (buf' ++ [cycle_bytes width rba recs])
      (evs ++ [notify devicep e (cy_ops (e_obj e)) EB_OK]) rba w w'.
Proof.
  intros P Easks Hbound. destruct (packed_ends _ _ _ _ _ _ _ _ _ _ P) as (Hnd & Hfresh & Hr4 & Hown). destruct P.
  destruct (ended_step exhausted e (Done (cycle_bytes width rba recs)) (cy_ops (e_obj e)) EB_OK buf
    (buf' ++ [cycle_bytes width rba recs]) evs rba w w4 (Some ops) [x]) as (w' & R & Hp' & Hst); try done.
  { intros q evs' Hq. eapply flushed_sent; [done|]. by apply flushed_done. }
  { by eapply settles_done. }
  exists w'. split; [|done]. rewrite (finish_reject _ _ _ _ _ w4 pk_cycle0). exact (free_one _ _ _ _ R).
Qed.

(** A cycle that does not fit a packet is refused; [opp] is what its callback gets. *)
Lemma overflow_step exhausted e l ops recs x rba buf evs w w4 opp : packed e l ops recs x buf [] evs w w4 ->
  (mtu < hal + length (cycle_bytes width rba recs))%nat ->
  exists w', abandon_cycle (e_cycle e) x opp w4 = Some (tt, w') /\ pool_ok w' /\
    stepped exhausted e (Refused opp EB_OVERFLOW) buf [] (evs ++ [notify devicep e opp EB_OVERFLOW]) rba w w'.
Proof.
  intros P Hgt. destruct (packed_ends _ _ _ _ _ _ _ _ _ _ P) as (Hnd & Hfresh & Hr4 & Hown). destruct P.
  destruct (ended_step exhausted e (Refused opp EB_OVERFLOW) opp EB_OVERFLOW buf [] evs rba w w4 (Some ops) [x]) as (w' & R & Hp' & Hst); try done.
  { intros q evs' Hq. eapply flushed_sent; [done|]. by apply flushed_refused. }
  { by eapply settles_overflow. }
  exists w'. split; [|done]. rewrite abandon_reject. exact (free_one _ _ _ _ R).
Qed.

(** A buffer of the length of a packet header is empty. *)
Lemma emptied_buffers (b : mbuf) rest : headed width b rest -> length (b_bytes b) = hal -> b_cptr b = hal -> (hal <= mtu)%nat ->
  buffers width mtu [] b.
Proof.
  intros (f & Hff & E) Hl Hc Hm. assert (rest = []) as ->.
  { rewrite E, length_app, length_packet_header in Hl. fold hal in Hl. destruct rest; [done|cbn in Hl; lia]. }
  split; [by exists f|]. split; [congruence|]. split; [lia|done].
Qed.

(** What the record loop leaves. *)
Lemma loop_packed e l x buf b rba lst w w3 ops :
  entry_ok w e -> e_ops e = Some l -> sendable width l ops -> ops <> [] -> ops.*1 = l.*1 ->
  pool_ok w3 -> touches (own_cells e) w w3 -> emits act [] w w3 ->
  ~ live (cells (w_pool w)) x -> (forall y, live (cells (w_pool w3)) y <-> y = x \/ live (cells (w_pool w)) y) ->
  cells (w_pool w3) !! x = Some IRaw -> cells (w_pool w3) !! devicep = Some (IDevice d) ->
  cells (w_pool w3) !! e_cycle e = Some (ICycle (cy_set_link devicep (e_obj e))) ->
  chain (cells (w_pool w3)) (cy_ops (e_obj e)) ops -> server w rba lst -> buffers width mtu buf b ->
  exists recs buf' evs b' w4, packed e l ops recs x buf buf' evs w w4 /\ w_pool w4 = w_pool w3 /\
    let payload := cycle_bytes width rba recs in
    let loop := record_loop width link_type mtu devicep (e_cycle e) x rba (budget width ops) (checks ops) (S (2 * length ops)) 0 false b ops w3 in
    if (hal + length payload <=? mtu)%nat
    then loop = Some ((b', Some (existsb has_answer recs)), w4) /\
         buffers width mtu (buf' ++ [payload]) (mk_mbuf (b_bytes b') (length (b_bytes b')) (b_reads b'))
    else buf' = [] /\ length (b_bytes b') = hal /\ b_cptr b' = hal /\ exists opp,
         loop = (abandon_cycle (e_cycle e) x opp ;;; ret (b', None)) w4.
Proof.
  intros He Hl Hsend Hone Hfst Hp3 T3 M3 Hx L3 Ex Ed Ec Hco Hsrv Hb.
  assert (Forall (fun xo => is_byte (op_format xo.2)) l) as Hbytes by (destruct He as [_ Ho]; rewrite Hl in Ho; apply Ho).
  pose proof (sendable_formats l ops Hbytes Hsend) as Hfmt. pose proof (budget_range ops) as Hm.
  destruct (cycle_records_spec data (budget width ops) (checks ops) (S (2 * length ops)) 0 ops)
    as (recs & Hrecs & _); try done; [apply (link_width_cases width Hw)|lia|by left|unfold record_measure; cbn; lia|].
  destruct (loop_step width link_type mtu devicep d Hw Hmtu Hquiet (e_cycle e) x rba (budget width ops) (checks ops) ops recs
    buf b w3 Hm Hone Hfmt Ed Hb Hrecs) as (buf' & evs & b' & w4 & M4 & P4 & Hsent & Hres).
  exists recs, buf', evs, b', w4. split; [|by split]. split; try done; try (by rewrite P4).
  - exact (touches_trans _ _ _ _ _ T3 (touches_same (fun _ => False) w3 w4 Hp3 P4) ltac:(done)).
  - exact (emits_trans act [] evs w w3 w4 Hquiet M3 M4).
  - intros y. by rewrite P4, L3, list_elem_of_singleton.
Qed.

(** The records of a cycle that passed the check, from a fresh response cell. *)
Lemma format_step exhausted e l x buf b rba lst w w3 :
  entry_ok w e -> e_ops e = Some l -> l <> [] -> first_bad data mask l = None ->
  pool_ok w3 -> touches (own_cells e) w w3 -> emits act [] w w3 ->
  ~ live (cells (w_pool w)) x -> (forall y, live (cells (w_pool w3)) y <-> y = x \/ live (cells (w_pool w)) y) ->
  cells (w_pool w3) !! x = Some IRaw -> cells (w_pool w3) !! devicep = Some (IDevice d) ->
  cells (w_pool w3) !! e_cycle e = Some (ICycle (cy_set_link devicep (e_obj e))) ->
  chain (cells (w_pool w3)) (cy_ops (e_obj e)) (map (fun xo => (xo.1, checked data mask xo.2)) l) ->
  server w rba lst -> buffers width mtu buf b ->
  exists o buf' evs b' w', format_cycle width link_type mtu devicep (e_cycle e) x b w3 = Some (b', w') /\
    pool_ok w' /\ stepped exhausted e o buf buf' evs rba w w' /\ buffers width mtu buf' b'.
Proof.
  intros He Hl Hne Hbad Hp3 T3 M3 Hx L3 Ex Ed Ec Hch Hsrv Hb.
  pose proof (server_kept w w3 e rba lst He T3 Hsrv) as Hsrv3. pose proof Hsrv3 as (p & Es & Ea & _).
  unfold format_cycle. mstep (EB_DEVICE_some _ _ _ Ed). mstep (EB_CYCLE_some _ _ _ Ec).
  mstep (EB_SOCKET_some _ _ _ Es). cbn [sk_aux sk_set_responses]. mstep (EB_SOCKET_AUX_some _ _ _ Ea).
  cbn [cy_ops cy_set_link ax_rba].
  destruct (load_list_spec (T := eb_operation) _ _ w3 Hch) as (ops & El & Hco & Hfst & Hstrip). mstep El.
  assert (sendable width l ops) as Hsend by (split; [done|split; [done|by rewrite Hstrip, map_map]]).
  assert (ops.*1 = l.*1) as Hfst' by (rewrite Hfst; clear; induction l as [|xo l IH]; [done|cbn; by f_equal]).
  assert (ops <> []) as Hone by (intros ->; by destruct l).
  destruct (loop_packed e l x buf b rba lst w w3 ops) as (recs & buf' & evs & b' & w4 & P & P4 & Hres); try done.
  destruct ops as [|[y op0] ops0] eqn:Eops; [done|]. rewrite <- Eops in *. cbv zeta in Hres.
  destruct (Nat.leb_spec (hal + length (cycle_bytes width rba recs)) mtu) as [Hle|Hgt]; fold hal in Hres.
  - destruct Hres as (Er & Hb'). pose proof (buffers_bound _ _ Hb') as Hbound. destruct (existsb has_answer recs) eqn:Easks.
    + assert (forall lst, server w rba lst -> server w4 rba lst) as Hsv by (intros lst' Hs; apply (server_kept w w4 e rba lst' He); [apply P|done]).
      destruct (queued_step exhausted e l ops recs x rba lst buf buf' evs w w4) as (r & w' & R & Hp' & Hst); try (by apply P); try done; [by apply Hsv|].
      exists (Waiting (cycle_bytes width rba recs) x r), (buf' ++ [cycle_bytes width rba recs]), evs, (mk_mbuf (b_bytes b') (length (b_bytes b')) (b_reads b')), w'.
      split; [|done]. rewrite Eops in *. refine (eq_trans (bind_some _ _ _ _ _ Er) _). cbv iota. by rewrite (bind_some _ _ _ _ _ R).
    + destruct (done_step exhausted e l ops recs x rba buf buf' evs w w4 P Easks Hbound) as (w' & R & Hp' & Hst).
      eexists _, _, _, (mk_mbuf (b_bytes b') (length (b_bytes b')) (b_reads b')), w'. split; [|split; [exact Hp'|split; [exact Hst|exact Hb']]].
      rewrite Eops in *. refine (eq_trans (bind_some _ _ _ _ _ Er) _). cbv iota. by rewrite (bind_some _ _ _ _ _ R).
  - destruct Hres as (-> & Hl' & Hc' & opp & Er). destruct (overflow_step exhausted e l ops recs x rba buf evs w w4 opp P Hgt) as (w' & R & Hp' & Hst).
    rewrite (bind_some _ _ _ _ _ R) in Er. eexists _, _, _, b', w'. split; [|split; [exact Hp'|split; [exact Hst|]]].
    + rewrite Eops in *. exact (bind_some _ _ _ _ _ Er).
    + pose proof (buffers_bound _ _ Hb) as Hbd. pose proof Hb as (Hh & Hcp & Hlen & _).
      assert (exists rest, headed width b' rest) as (rest & Hrest).
      { eapply record_loop_headed; [..|exact Er]; [exact Hmtu| |exact Hh].
        destruct Hh as (f & _ & E). rewrite Hcp, E, length_app, length_packet_header. lia. }
      eapply emptied_buffers; [exact Hrest|done|done|lia].
Qed.

Lemma reject_trivial e op status (b : mbuf) w :
  cells (w_pool w) !! e_cycle e = Some (ICycle (cy_set_link devicep (e_obj e))) ->
  cy_ops (e_obj e) = e_cycle e \/ cy_ops (e_obj e) = EB_NULL ->
  (call (cy_callback (e_obj e)) (cy_user_data (e_obj e)) devicep op status ;;; eb_free (e_cycle e) ;;; ret b) w =
  (reject_cycle (e_cycle e) op status ;;; ret b) w.
Proof.
  intros E Ho. unfold reject_cycle. mstep (EB_CYCLE_some _ _ _ E). cbn [cy_callback cy_user_data cy_link cy_set_link].
  destruct (emits_one act (notify devicep e op status) w Hquiet) as (w1 & E1 & _ & P1).
  change (act (notify devicep e op status)) with (call (cy_callback (e_obj e)) (cy_user_data (e_obj e)) devicep op status) in E1.
  rewrite (bind_some _ _ _ _ _ E1).
  pose proof (destroy_trivial (e_cycle e) (cy_set_link devicep (e_obj e)) w1 ltac:(by rewrite P1) Ho) as R.
  unfold bind in R |- *. rewrite E1, <- R. by destruct (eb_cycle_destroy _ w1) as [[[] w2]|].
Qed.

Lemma first_bad_in l x reason : first_bad data mask l = Some (x, reason) -> x ∈ l.*1.
Proof.
  induction l as [|[y o] l IH]; [done|]. cbn [first_bad fmap list_fmap fst]. destruct (_ =? EB_OK); [|intros [= -> _]; by left].
  intros E. right. by apply IH.
Qed.

(** A cycle that is refused before its records are formed. *)
Lemma refused_step exhausted e op status buf b rba w w2 st2 :
  entry_ok w e -> touches (own_cells e) w w2 -> emits act [] w w2 ->
  (forall y, live (cells (w_pool w2)) y <-> live (cells (w_pool w)) y) ->
  cycle_repr w2 (e_cycle e) (cy_set_link devicep (e_obj e)) st2 -> owned st2 = owned (e_ops e) ->
  settles width mtu time exhausted rba e (Refused op status) -> buffers width mtu buf b ->
  exists o buf' evs b' w', (reject_cycle (e_cycle e) op status ;;; ret b) w2 = Some (b', w') /\
    pool_ok w' /\ stepped exhausted e o buf buf' evs rba w w' /\ buffers width mtu buf' b'.
Proof.
  intros He T2 M2 L2 Hr Hown Hset Hb.
  destruct (ended_step exhausted e (Refused op status) op status buf buf [] rba w w2 st2 [] He I T2 M2) as (w' & R & Hp' & Hst);
    try done.
  { intros y. rewrite L2. pose proof (not_elem_of_nil y). tauto. }
  { constructor. }
  { by intros y Hy%not_elem_of_nil. }
  { intros q evs' Hq. by apply flushed_refused. }
  exists (Refused op status), buf, [notify devicep e op status], b, w'. split; [|done].
  unfold bind in R |- *. destruct (reject_cycle _ _ _ w2) as [[[] w3]|]; [|done]. cbn in R. injection R as ->. done.
Qed.

(** A cycle that passed the check gets a response cell, if there is one. *)
Lemma response_step exhausted e l buf b rba lst w w2 :
  entry_ok w e -> e_ops e = Some l -> l <> [] -> first_bad data mask l = None ->
  cells (w_pool w) !! devicep = Some (IDevice d) -> server w rba lst -> buffers width mtu buf b ->
  touches (own_cells e) w w2 -> emits act [] w w2 -> (forall y, live (cells (w_pool w2)) y <-> live (cells (w_pool w)) y) ->
  cells (w_pool w2) !! e_cycle e = Some (ICycle (cy_set_link devicep (e_obj e))) ->
  chain (cells (w_pool w2)) (cy_ops (e_obj e)) (map (fun xo => (xo.1, checked data mask xo.2)) l) -> exhausted \/ room w2 1 ->
  exists o buf' evs b' w',
    (let* responsep := eb_new in
     if responsep =? EB_NULL then reject_cycle (e_cycle e) EB_NULL EB_OOM ;;; ret b
     else format_cycle width link_type mtu devicep (e_cycle e) responsep b) w2 = Some (b', w') /\
    pool_ok w' /\ stepped exhausted e o buf buf' evs rba w w' /\ buffers width mtu buf' b'.
Proof.
  intros He Eops Hne Ebad Ed Hsrv Hb T12 M12 L12 Ec2 Hch2 Hex.
  assert (cycle_repr w2 (e_cycle e) (cy_set_link devicep (e_obj e)) (Some (map (fun xo => (xo.1, checked data mask xo.2)) l))) as Hr2
    by (exists (cy_ops (e_obj e)); by split).
  assert (owned (Some (map (fun xo : node => (xo.1, checked data mask xo.2)) l)) = owned (e_ops e)) as Hown
    by (rewrite Eops; cbn; clear; induction l as [|xo l IH]; [done|cbn; by f_equal]).
  destruct (eb_new_spec w2 (proj1 T12)) as (x & p3 & R3 & Hp3 & Hx). mstep R3.
  destruct (Z.eqb_spec x EB_NULL) as [->|Hxn].
  - destruct Hx as [[_ ->]|(Hbad & _)]; [|done]. rewrite upd_pool_id in R3 |- *.
    assert (exhausted) as Hexh by (destruct Hex as [|Hroom]; [done|by destruct (room_new _ _ _ _ R3 Hroom)]).
    apply (refused_step exhausted e EB_NULL EB_OOM buf b rba w w2 _ He T12 M12 L12 Hr2 Hown); [|done].
    eapply (settles_full _ _ _ _ _ _ l (map (fun xo => (xo.1, checked data mask xo.2)) l)); [done| |done].
    split; [done|]. split; [done|]. by rewrite map_map.
  - destruct Hx as [[Hbad _]|(_ & Hdead & Ex & L3 & Hkeep & Hwf3)]; [done|]. rewrite L12 in Hdead.
    assert (touches (fun _ => False) w2 (upd_pool p3 w2)) as T3.
    { split; [done|]. intros y _ (it & E & F). cbn. rewrite E. apply Hkeep; [by exists it|done]. }
    assert (touches (own_cells e) w (upd_pool p3 w2)) as T13 by exact (touches_trans _ _ _ _ _ T12 T3 ltac:(done)).
    assert (~ own_cells e devicep) as Hdev.
    { intros Hy. destruct (entry_own w e devicep He Hy) as [(c & E)|(c & E)]; congruence. }
    apply (format_step exhausted e l x buf b rba lst w); try done.
    + exact (emits_trans act [] [] w w2 _ Hquiet M12 (emits_nil act w2 (upd_pool p3 w2) eq_refl)).
    + intros y. cbn. by rewrite L3, L12.
    + by apply (touches_cell _ _ _ _ _ T13).
    + exact (touches_cell _ _ _ _ _ T3 (fun Hf => Hf) Ec2 eq_refl).
    + eapply touches_chain; [exact T3|by intros ? _ []|exact Hch2].
Qed.

Lemma flush_cycle_step exhausted e buf b rba lst w :
  pool_ok w -> entry_ok w e -> cells (w_pool w) !! devicep = Some (IDevice d) -> server w rba lst ->
  buffers width mtu buf b -> exhausted \/ room w 1 ->
  exists o buf' evs b' w', flush_cycle width link_type mtu devicep (e_cycle e) b w = Some (b', w') /\
    pool_ok w' /\ stepped exhausted e o buf buf' evs rba w w' /\ buffers width mtu buf' b'.
Proof.
  intros Hp He Ed Hsrv Hb Hex. pose proof He as ((n & Ec) & Ho).
  unfold flush_cycle. mstep (EB_CYCLE_some _ _ _ Ec).
  destruct (poke_cell (e_cycle e) (ICycle (cy_set_link devicep (e_obj e))) _ w Hp Ec) as (w1 & R1 & F1 & C1 & L1); [done..|].
  cbv zeta. change (cy_set_link devicep (cy_set_link n (e_obj e))) with (cy_set_link devicep (e_obj e)). mstep R1.
  cbn [cy_ops cy_callback cy_user_data cy_link cy_set_link].
  assert (cells (w_pool w1) !! e_cycle e = Some (ICycle (cy_set_link devicep (e_obj e)))) as Ec1 by (by rewrite C1, lookup_insert_eq).
  destruct (frame_touches act _ _ _ (frame_weaken _ (own_cells e) _ _ F1 (fun y Hy => or_introl Hy))) as [T1 M1].
  assert (forall y, live (cells (w_pool w1)) y <-> live (cells (w_pool w)) y) as L1' by exact L1.
  destruct (e_ops e) as [l|] eqn:Eops.
  2: { rewrite Ho, Z.eqb_refl. rewrite (reject_trivial e EB_NULL EB_OOM b w1 Ec1 (or_introl Ho)).
    apply (refused_step exhausted e EB_NULL EB_OOM buf b rba w w1 None He T1 M1 L1'); try done.
    - cbn [cycle_repr]. rewrite Ec1. destruct (e_obj e). cbn in Ho |- *. by rewrite Ho.
    - by rewrite Eops.
    - by apply settles_dead. }
  destruct Ho as [Hch Hbytes].
  assert (chain (cells (w_pool w1)) (cy_ops (e_obj e)) l) as Hch1.
  { rewrite C1. apply chain_insert_ne; [|done]. by eapply cycle_not_op. }
  rewrite (chain_not_self w1 _ l _ _ (proj1 T1) Hch1 Ec1).
  destruct l as [|[x0 o0] l0] eqn:El.
  { cbn in Hch1. rewrite Hch1, Z.eqb_refl. rewrite (reject_trivial e EB_NULL EB_OK b w1 Ec1 (or_intror Hch1)).
    apply (refused_step exhausted e EB_NULL EB_OK buf b rba w w1 (Some []) He T1 M1 L1'); try done.
    - exists EB_NULL. split; [|done]. rewrite Ec1. destruct (e_obj e). cbn in Hch1 |- *. by rewrite Hch1.
    - by rewrite Eops.
    - by apply settles_empty. }
  rewrite <- El in *. assert (l <> []) as Hne by (by rewrite El).
  assert (cy_ops (e_obj e) <> EB_NULL) as Hnn by (rewrite El in Hch1; by destruct Hch1 as (-> & ? & _)).
  rewrite (proj2 (Z.eqb_neq _ _) Hnn). rewrite bind_fuel.
  destruct (check_ops_spec data mask l (size (cells (w_pool w1))) (cy_ops (e_obj e)) w1 (proj1 T1) Hch1 (chain_length _ _ _ Hch1))
    as (w2 & l' & R2 & F2 & Hch2 & Hl' & Hall & L2).
  fold data mask. rewrite (bind_some _ _ _ _ _ R2).
  destruct (frame_touches act _ _ _ F2) as [T2 M2].
  assert (touches (own_cells e) w w2) as T12.
  { eapply touches_trans; [exact T1|exact T2|]. intros y _ Hy. right. by rewrite Eops. }
  assert (emits act [] w w2) as M12 by exact (emits_trans act [] [] w w1 w2 Hquiet M1 M2).
  assert (forall y, live (cells (w_pool w2)) y <-> live (cells (w_pool w)) y) as L12 by (intros y; by rewrite L2, L1).
  assert (e_cycle e ∉ l.*1) as Hcl by (by eapply cycle_not_op).
  assert (cells (w_pool w2) !! e_cycle e = Some (ICycle (cy_set_link devicep (e_obj e)))) as Ec2
    by (by apply (touches_cell _ _ _ _ _ T2)).
  assert (cycle_repr w2 (e_cycle e) (cy_set_link devicep (e_obj e)) (Some l')) as Hr2
    by (exists (cy_ops (e_obj e)); by split).
  assert (owned (Some l') = owned (e_ops e)) as Hown by (by rewrite Eops).
  destruct (first_bad data mask l) as [[x reason]|] eqn:Ebad; cbn [from_option id]; cbv beta iota.
  { assert (x <> EB_NULL) as Hx.
    { intros ->. apply (wf_null _ (proj1 Hp)). exact (chain_live _ _ _ _ Hch (first_bad_in _ _ _ Ebad)). }
    rewrite (proj2 (Z.eqb_neq _ _) Hx). cbn [negb].
    apply (refused_step exhausted e x reason buf b rba w w2 (Some l')); try done. by eapply settles_bad. }
  rewrite Z.eqb_refl. cbn [negb]. specialize (Hall eq_refl). subst l'.
  apply (response_step exhausted e l buf b rba lst w w2); try done. destruct Hex as [|Hroom]; [by left|right].
  exact (keeps_check_ops _ _ _ _ _ _ _ _ R2 (keeps_poke _ _ _ _ _ _ R1 Hroom)).
Qed.

(** ** Cells used *)

Lemma room_mono w n m : room w n -> (m <= n)%nat -> room w m.
Proof. intros (Hn & l & Hl & Hlen) Hm. split; [done|]. exists l. split; [done|lia]. Qed.

Context (Hsend : forall tr lk bytes, quiet (t_send link_type tr lk bytes)).
Context (Hcall : forall f u dv op st, quiet (call f u dv op st)).

Lemma keeps_call f u dv op st : keeps_room (call f u dv op st).
Proof. apply keeps_quiet, Hcall. Qed.

Lemma keeps_send tr lk bytes : keeps_room (t_send link_type tr lk bytes).
Proof. apply keeps_quiet, Hsend. Qed.

Hint Resolve keeps_call keeps_send : room.

Lemma keeps_reject c op st : keeps_room (reject_cycle c op st).
Proof. unfold reject_cycle, EB_CYCLE. keep. Qed.

Lemma keeps_abandon c r op : keeps_room (abandon_cycle c r op).
Proof. unfold abandon_cycle, EB_CYCLE. keep. Qed.

Lemma keeps_ensure_space len b : keeps_room (ensure_space link_type mtu hal devicep len b).
Proof. unfold ensure_space, EB_DEVICE. keep. Qed.

Hint Resolve keeps_reject keeps_abandon keeps_ensure_space : room.

Lemma keeps_record_loop cyclep responsep rba maxops nc fuel : forall ops readback b l,
  keeps_room (record_loop width link_type mtu devicep cyclep responsep rba maxops nc fuel ops readback b l).
Proof. induction fuel; intros ops readback b l; cbn [record_loop]; cbv zeta; keep. Qed.

Lemma keeps_finish socketp c r nc rb : keeps_room (finish_cycle socketp c r nc rb).
Proof. unfold finish_cycle, EB_CYCLE, EB_SOCKET, EB_SOCKET_AUX. keep. Qed.

Hint Resolve keeps_record_loop keeps_finish : room.

Lemma keeps_format c r b : keeps_room (format_cycle width link_type mtu devicep c r b).
Proof. unfold format_cycle, EB_DEVICE, EB_CYCLE, EB_SOCKET, EB_SOCKET_AUX. keep. Qed.

Hint Resolve keeps_format : room.

(** A cycle takes one cell at most. *)
Lemma flush_cycle_room c b w b' w' n :
  flush_cycle width link_type mtu devicep c b w = Some (b', w') -> room w (S n) -> room w' n.
Proof.
  unfold flush_cycle, EB_CYCLE, pool_fuel. intros E Hr.
  assert (forall A (m : M X A) (k : A -> M X mbuf) v, bind m k v = Some (b', w') -> keeps_room m -> room v (S n) ->
    exists a v', k a v' = Some (b', w') /\ room v' (S n)) as Hstep.
  { intros A m k v. unfold bind. destruct (m v) as [[a v']|] eqn:Em; [|done]. intros Ek Hm Hv. eauto. }
  assert (forall (m : M X mbuf) v, m v = Some (b', w') -> keeps_room m -> room v (S n) -> room w' n) as Hend.
  { intros m v Em Hm Hv. apply (room_mono _ (S n)); [exact (Hm _ _ _ _ Em Hv)|lia]. }
  destruct (Hstep _ _ _ _ E ltac:(keep) Hr) as (cy & w1 & E1 & R1). clear E. cbv zeta in E1.
  destruct (Hstep _ _ _ _ E1 ltac:(keep) R1) as ([] & w2 & E2 & R2). clear E1.
  destruct (_ =? c); [exact (Hend _ _ E2 ltac:(keep) R2)|].
  destruct (_ =? EB_NULL); [exact (Hend _ _ E2 ltac:(keep) R2)|].
  destruct (Hstep _ _ _ _ E2 ltac:(keep) R2) as (k & w3 & E3 & R3). clear E2.
  destruct (Hstep _ _ _ _ E3 ltac:(keep) R3) as ([opp reason] & w4 & E4 & R4). clear E3.
  destruct (negb _); [exact (Hend _ _ E4 ltac:(keep) R4)|].
  unfold bind at 1 in E4. destruct (eb_new w4) as [[x w5]|] eqn:En; [|done].
  destruct (room_new _ _ _ _ En R4) as [Hx R5]. rewrite (proj2 (Z.eqb_neq _ _) Hx) in E4.
  exact (keeps_format _ _ _ _ _ _ _ E4 R5).
Qed.

(** ** The queue *)

Definition queue_cells (q : list entry) (y : Z) : Prop :=
  (exists e, e ∈ q /\ own_cells e y) \/ y = dv_socket d \/ y = sk_aux s0.

Definition waits (o : outcome) : bool := match o with Waiting _ _ _ => true | _ => false end.

(** Cells given back: those of the cycles that do not wait for an answer. *)
Definition given_back (q : list entry) (os : list outcome) (y : Z) : Prop :=
  exists e o, (e, o) ∈ zip q os /\ waits o = false /\ own_cells e y.

(** Distinct cycles, distinct operations. *)
Definition apart (q : list entry) : Prop := NoDup (concat (map (fun e => e_cycle e :: owned (e_ops e)) q)).

Lemma own_in e y : own_cells e y <-> y ∈ e_cycle e :: owned (e_ops e).
Proof. unfold own_cells. by rewrite elem_of_cons. Qed.

Lemma apart_cons e q : apart (e :: q) ->
  apart q /\ forall e' y, e' ∈ q -> own_cells e y -> own_cells e' y -> False.
Proof.
  unfold apart. cbn [map concat]. intros Hnd. apply NoDup_app in Hnd as (_ & Hd & Hq). split; [done|].
  intros e' y He' Hy Hy'. apply (Hd y); [by apply own_in|]. apply list_elem_of_In, in_concat.
  exists (e_cycle e' :: owned (e_ops e')). split; [|by apply list_elem_of_In, own_in].
  apply in_map_iff. exists e'. split; [done|by apply list_elem_of_In].
Qed.

Lemma entry_kept S w w' e : entry_ok w e -> touches S w w' -> (forall y, own_cells e y -> ~ S y) -> entry_ok w' e.
Proof.
  intros ((n & Ec) & Ho) T Hs. split.
  - exists n. apply (touches_cell _ _ _ _ _ T); [|done|done]. apply Hs. by left.
  - destruct (e_ops e) as [l|] eqn:El; [|done]. destruct Ho as [Hc Hb]. split; [|done].
    eapply touches_chain; [exact T| |exact Hc]. intros y Hy. apply Hs. right. by rewrite El.
Qed.

Lemma flight_kept S w w' e : in_flight w e -> touches S w w' -> (forall y, own_cells e y -> ~ S y) -> in_flight w' e.
Proof.
  intros (Ec & l & ops & El & Hs & Hc) T HS. split; [apply (touches_cell _ _ _ _ _ T); [apply HS; by left|done|done]|].
  exists l, ops. split; [done|]. split; [done|]. eapply touches_chain; [exact T| |exact Hc]. intros y Hy.
  apply HS. right. rewrite El. destruct Hs as (_ & _ & Hs). apply (f_equal (map fst)) in Hs. rewrite !map_map in Hs. cbn in Hs.
  change (map (fun x : node => x.1) ops) with (ops.*1) in Hs. rewrite Hs in Hy. exact Hy.
Qed.

(** What the loop over the queue does. *)
Record processed (exhausted : Prop) q os (buf buf' : list (list Z)) (evs : list event) (rba : Z) w w' : Prop := {
  pr_touch : touches (queue_cells q) w w';
  pr_emits : emits act evs w w';
  pr_flushed : forall tail, flushed width mtu devicep buf' [] tail -> flushed width mtu devicep buf (zip q os) (evs ++ tail);
  pr_settles : settle_all width mtu time exhausted rba q os;
  pr_live : forall y, live (cells (w_pool w')) y <->
              y ∈ (responses_of os).*1 \/ (live (cells (w_pool w)) y /\ ~ given_back q os y);
  pr_server : forall lst, server w rba lst -> server w' (foldl rba_after rba os) (rev (responses_of os) ++ lst);
  pr_flight : Forall (fun eo => waits eo.2 = true -> in_flight w' eo.1) (zip q os) }.

Lemma responses_cons o os : responses_of (o :: os) = responses_of [o] ++ responses_of os.
Proof. unfold responses_of. cbn [flat_map]. by rewrite app_nil_r. Qed.

Lemma own_live w e y : entry_ok w e -> own_cells e y -> live (cells (w_pool w)) y.
Proof. intros He Hy. destruct (entry_own w e y He Hy) as [(c & E)|(c & E)]; by eexists. Qed.

Lemma own_not_server w e y rba lst : entry_ok w e -> server w rba lst -> own_cells e y -> y <> dv_socket d /\ y <> sk_aux s0.
Proof.
  intros He (p & Es & Ea & _) Hy. destruct (entry_own w e y He Hy) as [(c & E)|(c & E)]; split; intros ->; congruence.
Qed.

Lemma given_back_cons e o q os y : given_back (e :: q) (o :: os) y <-> (waits o = false /\ own_cells e y) \/ given_back q os y.
Proof.
  unfold given_back. cbn [zip zip_with]. split.
  - intros (e' & o' & Hin & Hw' & Hy). apply elem_of_cons in Hin as [[= -> ->]|Hin]; [by left|right; eauto].
  - intros [[Ho Hy]|(e' & o' & Hin & Ho & Hy)]; [exists e, o|exists e', o']; (split; [|done]); [by left|by right].
Qed.

Lemma processed_cons exhausted e q o os buf buf1 buf' evs1 evs2 rba lst w w1 w' :
  entry_ok w e -> Forall (entry_ok w) q -> server w rba lst ->
  (forall e' y, e' ∈ q -> own_cells e y -> own_cells e' y -> False) ->
  stepped exhausted e o buf buf1 evs1 rba w w1 -> processed exhausted q os buf1 buf' evs2 (rba_after rba o) w1 w' ->
  processed exhausted (e :: q) (o :: os) buf buf' (evs1 ++ evs2) rba w w'.
Proof.
  intros He Hq Hsrv Hd S1 P2.
  assert (forall y, given_back q os y -> exists e', e' ∈ q /\ own_cells e' y) as Hgb.
  { intros y (e' & o' & Hin & _ & Hy). exists e'. split; [by eapply elem_of_zip_l|done]. }
  split.
  - eapply touches_trans; [eapply touches_mono; [exact (st_touch _ _ _ _ _ _ _ _ _ S1)|]|exact (pr_touch _ _ _ _ _ _ _ _ _ P2)|].
    + intros y _ [Hy|Hy]; [left; exists e; split; [by left|done]|by right].
    + intros y _ [(e' & He' & Hy)|Hy]; [left; exists e'; split; [by right|done]|by right].
  - eapply emits_trans; [exact Hquiet|exact (st_emits _ _ _ _ _ _ _ _ _ S1)|exact (pr_emits _ _ _ _ _ _ _ _ _ P2)].
  - intros tail Ht. rewrite <- app_assoc. apply (st_flushed _ _ _ _ _ _ _ _ _ S1). by apply (pr_flushed _ _ _ _ _ _ _ _ _ P2).
  - apply settle_cons; [exact (st_settles _ _ _ _ _ _ _ _ _ S1)|exact (pr_settles _ _ _ _ _ _ _ _ _ P2)].
  - intros y. rewrite (pr_live _ _ _ _ _ _ _ _ _ P2), (st_live _ _ _ _ _ _ _ _ _ S1), given_back_cons, responses_cons, fmap_app, elem_of_app.
    pose proof (st_fresh _ _ _ _ _ _ _ _ _ S1) as Hfr.
    destruct o as [op st|pl|pl x r]; cbn [kept waits responses_of flat_map app fmap list_fmap fst];
      rewrite ?list_elem_of_singleton, ?elem_of_nil; [naive_solver..|].
    assert (y = x -> ~ given_back q os y) as Hx.
    { intros -> Hg. destruct (Hgb x Hg) as (e' & He' & Hy). apply Hfr. rewrite Forall_forall in Hq. by eapply own_live; [apply Hq|]. }
    naive_solver.
  - intros lst' Hs. rewrite responses_cons. cbn [foldl]. rewrite rev_app_distr, <- app_assoc.
    replace (rev (responses_of [o])) with (responses_of [o]) by (by destruct o).
    apply (pr_server _ _ _ _ _ _ _ _ _ P2). by apply (st_server _ _ _ _ _ _ _ _ _ S1).
  - cbn [zip zip_with]. constructor; [|exact (pr_flight _ _ _ _ _ _ _ _ _ P2)]. cbn [fst snd]. intros Ho.
    pose proof (st_flight _ _ _ _ _ _ _ _ _ S1) as Hfl. destruct o; try done.
    eapply flight_kept; [exact Hfl|exact (pr_touch _ _ _ _ _ _ _ _ _ P2)|].
    intros y Hy [(e' & He' & Hy')|Hy']; [by eapply Hd|].
    destruct (own_not_server w e y rba lst He Hsrv Hy). destruct Hy'; done.
Qed.

Lemma flush_cycles_spec q : forall exhausted fuel p b buf rba lst w,
  pool_ok w -> chain (T := eb_cycle) (cells (w_pool w)) p (map (fun e => (e_cycle e, e_obj e)) q) ->
  Forall (entry_ok w) q -> apart q -> cells (w_pool w) !! devicep = Some (IDevice d) -> server w rba lst ->
  buffers width mtu buf b -> exhausted \/ room w (length q) -> (length q <= fuel)%nat ->
  exists os buf' evs b' w', flush_cycles width link_type mtu devicep fuel p b w = Some (b', w') /\
    buffers width mtu buf' b' /\ processed exhausted q os buf buf' evs rba w w'.
Proof.
  induction q as [|e q IH]; intros exhausted fuel p b buf rba lst w Hp Hc Hq Hap Hd Hs Hb Hr Hf.
  - cbn in Hc. subst p. exists [], buf, [], b, w. split; [by destruct fuel|]. split; [done|]. split; try done.
    + apply emits_nil. by destruct w.
    + apply settle_nil.
    + intros y. cbn. split; [intros Hl; right; split; [done|]|intros [Hy|[Hy _]]; [by apply elem_of_nil in Hy|done]]. intros (e & o & Hin & _). by apply elem_of_nil in Hin.
  - destruct fuel as [|fuel]; cbn in Hf; [lia|]. apply Forall_cons in Hq as [He Hq]. apply apart_cons in Hap as [Hap Hdis].
    cbn [map] in Hc. destruct Hc as (-> & Hn & k & Ec & Hc). cbn [flush_cycles].
    rewrite (proj2 (Z.eqb_neq _ EB_NULL) Hn). mstep (EB_CYCLE_some _ _ _ Ec).
    destruct (flush_cycle_step exhausted e buf b rba lst w Hp He Hd Hs Hb) as (o & buf1 & evs1 & b1 & w1 & R1 & Hp1 & S1 & Hb1).
    { destruct Hr as [|Hr]; [by left|right]. apply (room_mono _ _ _ Hr). cbn. lia. }
    mstep R1. change (cy_link (set_next k (e_obj e))) with k.
    assert (forall e' y, e' ∈ q -> own_cells e' y -> ~ (own_cells e y \/ y = dv_socket d \/ y = sk_aux s0)) as Hout.
    { intros e' y He' Hy [Hy'|Hy']; [by eapply Hdis|]. rewrite Forall_forall in Hq.
      destruct (own_not_server w e' y rba lst (Hq e' He') Hs Hy). destruct Hy'; done. }
    pose proof (st_touch _ _ _ _ _ _ _ _ _ S1) as T1.
    destruct (IH exhausted fuel k b1 buf1 (rba_after rba o) (responses_of [o] ++ lst) w1 Hp1) as (os & buf' & evs2 & b' & w' & R2 & Hb2 & P2);
      [| |done| |by apply (st_server _ _ _ _ _ _ _ _ _ S1)|done| |lia|].
    + eapply touches_chain; [exact T1| |exact Hc]. intros y Hy. rewrite <- list_fmap_compose in Hy.
      apply list_elem_of_fmap in Hy as (e' & -> & He'). apply (Hout e'); [done|]. by left.
    + rewrite Forall_forall in Hq |- *. intros e' He'. eapply entry_kept; [by apply Hq|exact T1|]. intros y Hy. by eapply Hout.
    + refine (touches_cell _ _ _ _ _ T1 _ Hd eq_refl). intros [Hy|Hy].
      * destruct (entry_own w e devicep He Hy) as [(c & E)|(c & E)]; congruence.
      * destruct Hs as (p & Es & Ea & _). destruct Hy as [Hy|Hy]; rewrite Hy in Hd; congruence.
    + destruct Hr as [|Hr]; [by left|right]. exact (flush_cycle_room _ _ _ _ _ _ R1 Hr).
    + exists (o :: os), buf', (evs1 ++ evs2), b', w'. split; [exact R2|]. split; [done|]. by eapply processed_cons.
Qed.

(** ** The whole function *)

Lemma final_send_spec buf b w :
  cells (w_pool w) !! devicep = Some (IDevice d) -> buffers width mtu buf b ->
  exists evs w', final_send width link_type mtu devicep b w = Some (tt, w') /\
    flushed width mtu devicep buf [] evs /\ emits act evs w w' /\ w_pool w' = w_pool w.
Proof.
  intros Hd Hb. unfold final_send. mstep (EB_DEVICE_some _ _ _ Hd). rewrite (proj2 (Nat.eqb_neq mtu 0) Hmtu).
  fold hal. destruct (Nat.eqb_spec (length (b_bytes b)) hal) as [Hl|Hl]; cbn [negb when].
  - exists [], w. assert (buf = []) as -> by (by eapply buffers_empty). split; [done|]. split; [constructor|].
    split; [apply emits_nil; by destruct w|done].
  - pose proof Hb as (Hh & _). destruct (promise_headed width b _ Hh) as (f & Hf & Ep).
    destruct (emits_one act (Packet (promise b)) w Hquiet) as (w' & E & M & P).
    exists [Packet (promise b)], w'. split; [exact E|]. split; [|done].
    apply flushed_send; [|by exists f]. intros ->. apply Hl. destruct Hh as (f' & _ & ->).
    by rewrite length_app, length_packet_header, Nat.add_0_r.
Qed.

Lemma chain_lookup {T} `{Node T} (m : gmap Z item) p (l : list (Z * T)) x t :
  chain m p l -> (x, t) ∈ l -> exists n, m !! x = Some (to_item (set_next n t)).
Proof.
  revert p. induction l as [|[y u] l IH]; intros p Hc Hin; [by apply elem_of_nil in Hin|].
  destruct Hc as (-> & _ & n & E & Hc). apply elem_of_cons in Hin as [[= -> ->]|Hin]; [by exists n|by eapply IH].
Qed.

(** The queue, newest cycle first, before the flush turns it round. *)
Lemma invert_queue q w : pool_ok w ->
  chain (T := eb_cycle) (cells (w_pool w)) (dv_un_link d) (map (fun e => (e_cycle e, e_obj e)) (rev q)) ->
  Forall (entry_ok w) q ->
  exists p w', reverse_list (T := eb_cycle) (dv_un_link d) w = Some (p, w') /\
    chain (T := eb_cycle) (cells (w_pool w')) p (map (fun e => (e_cycle e, e_obj e)) q) /\
    Forall (entry_ok w') q /\ frame (fun y => exists e, e ∈ q /\ y = e_cycle e) w w' /\
    (forall y, live (cells (w_pool w')) y <-> live (cells (w_pool w)) y).
Proof.
  intros Hp Hc Hq.
  destruct (reverse_list_pool _ _ w (proj1 Hp) Hc) as (p & w' & R & Hu & Hwf & Hsz & Hc' & Hsame & Hlive).
  rewrite <- map_rev, rev_involutive in Hc'.
  assert (forall y, ~ (exists e, e ∈ q /\ y = e_cycle e) -> cells (w_pool w') !! y = cells (w_pool w) !! y) as Hk.
  { intros y Hy. apply Hsame. intros Hin. apply Hy. rewrite <- list_fmap_compose in Hin.
    apply list_elem_of_fmap in Hin as (e & -> & He). exists e. split; [|done].
    apply list_elem_of_In. apply list_elem_of_In, in_rev in He. done. }
  exists p, w'. split; [done|]. split; [done|]. split; [|split; [|done]].
  - rewrite Forall_forall in Hq |- *. intros e He. destruct (Hq e He) as [_ Ho]. split.
    + destruct (chain_lookup _ _ _ (e_cycle e) (e_obj e) Hc') as (n & E); [|by exists n].
      apply list_elem_of_fmap. by exists e.
    + destruct (e_ops e) as [l|]; [|done]. destruct Ho as [Hch Hb]. split; [|done].
      eapply chain_agree; [|exact Hch]. intros y Hy. apply Hk. intros (e' & He' & ->).
      destruct (chain_cell (T := eb_operation) _ _ _ _ Hch Hy) as (u & Eu). cbn in Eu.
      destruct (Hq e' He') as ((n & En) & _). congruence.
  - split; [split; [done|by rewrite Hsz; apply Hp]|]. split; [done|]. intros y Hy _. by apply Hk.
Qed.

Lemma flushed_nil tail : flushed width mtu devicep [] [] tail -> tail = [].
Proof. by inversion 1. Qed.

(** The queue, from its inversion to the last packet. *)
Lemma flush_queue_spec exhausted q rba lst w :
  pool_ok w -> cells (w_pool w) !! devicep = Some (IDevice d) ->
  chain (T := eb_cycle) (cells (w_pool w)) (dv_un_link d) (map (fun e => (e_cycle e, e_obj e)) (rev q)) ->
  Forall (entry_ok w) q -> apart q -> server w rba lst -> (hal <= mtu)%nat -> exhausted \/ room w (length q) ->
  exists os evs w', (forall k : M X Z, (let* prevp := reverse_list (T := eb_cycle) (dv_un_link d) in
      let* n := pool_fuel in
      let* b := flush_cycles width link_type mtu devicep n prevp (start_buffer width mtu) in
      final_send width link_type mtu devicep b ;;; k) w = k w') /\
    processed exhausted q os [] [] evs rba w w'.
Proof.
  intros Hp Hd Hc Hq Hap Hs Hfit Hr.
  destruct (invert_queue q w Hp Hc Hq) as (p & w1 & R1 & Hc1 & Hq1 & F1 & L1).
  destruct (frame_touches act _ _ _ F1) as [T1 M1].
  assert (forall y it, cells (w_pool w) !! y = Some it -> is_free it = false -> (forall c, it <> ICycle c) ->
    cells (w_pool w1) !! y = Some it) as Hk.
  { intros y it E Hfr Hnc. refine (touches_cell _ _ _ _ _ T1 _ E Hfr). intros (e & He & ->).
    rewrite Forall_forall in Hq. destruct (Hq e He) as ((n & En) & _). rewrite E in En. injection En as ->. by eapply Hnc. }
  assert (forall rba' lst', server w rba' lst' -> server w1 rba' lst') as Hsv.
  { intros rba' lst' (p' & Es & Ea & Hch). exists p'. split; [by apply Hk|]. split; [by apply Hk|].
    eapply chain_agree; [|exact Hch]. intros y Hy. destruct (chain_cell (T := eb_response) _ _ _ y Hch Hy) as (r & Er).
    rewrite Er. by apply Hk. }
  assert (buffers width mtu [] (start_buffer width mtu)) as Hb.
  { split; [exists 0; split; [by left|]; by rewrite (packet_header_start width mtu Hmtu), app_nil_r|].
    rewrite (packet_header_start width mtu Hmtu), length_packet_header.
    split; [unfold start_buffer; by rewrite (proj2 (Nat.eqb_neq mtu 0) Hmtu)|]. by split. }
  destruct (flush_cycles_spec q exhausted (size (cells (w_pool w1))) p (start_buffer width mtu) [] rba lst w1 (proj1 T1) Hc1 Hq1 Hap)
    as (os & buf' & evs & b' & w2 & R2 & Hb2 & P2); [by apply Hk|by apply Hsv|done| | |].
  { destruct Hr as [|Hr]; [by left|right]. exact (keeps_reverse_list _ _ _ _ _ R1 Hr). }
  { pose proof (chain_length _ _ _ Hc1) as Hlen. by rewrite length_map in Hlen. }
  destruct P2 as [T2 M2 Hf2 S2 L2 V2 G2].
  destruct (final_send_spec buf' b' w2) as (evs' & w3 & R3 & Hf3 & M3 & P3); [|done|].
  { refine (touches_cell _ _ _ _ _ T2 _ (Hk _ _ Hd eq_refl ltac:(done)) eq_refl). intros [(e & He & Hy)|Hy].
    - rewrite Forall_forall in Hq. destruct (entry_own w e devicep (Hq e He) Hy) as [(c & E)|(c & E)]; congruence.
    - destruct Hs as (p' & Es & Ea & _). destruct Hy as [Hy|Hy]; rewrite Hy in Hd; congruence. }
  exists os, (evs ++ evs'), w3. split; [intros k; mstep R1; rewrite bind_fuel; mstep R2; by mstep R3|]. split; [| | |done| | |].
  - eapply touches_trans; [eapply touches_trans; [eapply touches_mono; [exact T1|]|exact T2|]|exact (touches_same (fun _ => False) w2 w3 (proj1 T2) P3)|]; try done.
    intros y _ (e & He & ->). left. exists e. split; [done|by left].
  - eapply (emits_trans act evs evs'); [exact Hquiet| |exact M3]. exact (emits_trans act [] evs w w1 w2 Hquiet M1 M2).
  - intros tail ->%flushed_nil. rewrite app_nil_r. by apply Hf2.
  - intros y. rewrite P3, L2, L1. done.
  - intros lst' Hs'. unfold server. rewrite P3. by apply V2, Hsv.
  - eapply Forall_impl; [exact G2|]. intros eo Hw'. unfold in_flight. by rewrite P3.
Qed.
End step.

(** * The theorem *)

Section theorem.
Context {X : Type} `{Env X} `{!PoolExpander e_expand} `{Callbacks X}.
Implicit Types w : world X.

(** The whole of a flush. *)
Lemma device_flush_spec (exhausted : Prop) (q : list entry) (devicep rba : Z) (d : eb_device) (s0 : eb_socket)
    (a0 : eb_socket_aux) (tr : eb_transport) (lst : list (Z * eb_response)) (w : world X)
    (Hp : pool_ok w) (Hd : cells (w_pool w) !! devicep = Some (IDevice d))
    (Htr : cells (w_pool w) !! dv_transport d = Some (ITransport tr))
    (Hlink : dv_link d <> EB_NULL) (Hw : link_width (dv_widths d))
    (Hmtu : Z.of_nat (g_record_alignment (dv_widths d)) <= t_mtu (tr_link_type tr))
    (Hq : chain (T := eb_cycle) (cells (w_pool w)) (dv_un_link d) (map (fun e => (e_cycle e, e_obj e)) (rev q)))
    (Hok : Forall (entry_ok w) q) (Hap : apart q) (Hsrv : server d s0 a0 w rba lst)
    (Hroom : exhausted \/ room w (length q))
    (Hcall : forall f u dv op st, quiet (X := X) (call f u dv op st))
    (Hsend : forall tp lk bytes, quiet (X := X) (t_send (tr_link_type tr) tp lk bytes))
    (Hbatch : forall tp lk start, quiet (X := X) (t_send_buffer (tr_link_type tr) tp lk start)) :
  exists os evs w', eb_device_flush devicep w = Some (EB_OK, w') /\ pool_ok w' /\
    settle_all (dv_widths d) (Z.to_nat (t_mtu (tr_link_type tr))) (ax_time_cache a0) exhausted rba q os /\
    flushed (dv_widths d) (Z.to_nat (t_mtu (tr_link_type tr))) devicep [] (zip q os) evs /\
    emits (perform_event (tr_link_type tr) (dv_transport d) (dv_link d)) (Batch true :: evs ++ [Batch false]) w w' /\
    cells (w_pool w') !! devicep = Some (IDevice (dv_set_un_link EB_NULL d)) /\
    server d s0 a0 w' (foldl rba_after rba os) (rev (responses_of os) ++ lst) /\
    Forall (fun eo => waits eo.2 = true -> in_flight (dv_widths d) devicep w' eo.1) (zip q os) /\
    (forall y, live (cells (w_pool w')) y <->
       y ∈ (responses_of os).*1 \/ (live (cells (w_pool w)) y /\ ~ given_back q os y)).
Proof.
  set (width := dv_widths d) in *. set (lt := tr_link_type tr) in *. set (mtu := Z.to_nat (t_mtu lt)).
  assert (forall ev, quiet (perform_event lt (dv_transport d) (dv_link d) ev)) as Hquiet by (intros []; [apply Hsend|apply Hbatch|apply Hcall]).
  assert (g_record_alignment width <= mtu)%nat as Hfits by lia.
  assert (mtu <> 0%nat) as Hm by (pose proof (g_record_alignment_cases width); lia).
  unfold eb_device_flush. mstep (EB_DEVICE_some _ _ _ Hd). unfold EB_TRANSPORT. mstep (peek_some _ _ _ Htr). rewrite bind_ret.
  cbv zeta. fold width lt mtu. rewrite (proj2 (Z.eqb_neq _ EB_NULL) Hlink).
  destruct (emits_one _ (Batch true) w Hquiet) as (w1 & E1 & M1 & P1). change (perform_event lt (dv_transport d) (dv_link d) (Batch true))
    with (t_send_buffer lt (dv_transport d) (dv_link d) true) in E1. mstep E1.
  pose proof (touches_same (fun _ => False) w w1 Hp P1) as T1.
  destruct (flush_queue_spec width lt mtu devicep d s0 a0 Hw Hm Hquiet Hsend Hcall exhausted q rba lst w1 (proj1 T1)) as (os & evs & w2 & R2 & [T2 M2 Hf S2 L2 V2 G2]);
    try (by rewrite P1); try done; [unfold entry_ok in *; by rewrite P1|unfold server in *; by rewrite P1|unfold room in *; by rewrite P1|].
  assert (cells (w_pool w1) !! devicep = Some (IDevice d)) as Hd1 by (by rewrite P1).
  assert (~ queue_cells d s0 q devicep) as Hout.
  { intros [(e & He & Hy)|Hy].
    - rewrite Forall_forall in Hok. destruct (entry_own w e devicep (Hok e He) Hy) as [(c & E)|(c & E)]; congruence.
    - destruct Hsrv as (p' & Es & Ea & _). destruct Hy as [Hy|Hy]; rewrite Hy in Hd; congruence. }
  pose proof (touches_cell _ _ _ _ _ T2 Hout Hd1 eq_refl) as Hd2.
  rewrite R2. mstep (EB_DEVICE_some _ _ _ Hd2).
  destruct (emits_one _ (Batch false) w2 Hquiet) as (w3 & E3 & M3 & P3). change (perform_event lt (dv_transport d) (dv_link d) (Batch false))
    with (t_send_buffer lt (dv_transport d) (dv_link d) false) in E3. mstep E3.
  destruct (poke_cell devicep (IDevice (dv_set_un_link EB_NULL d)) (IDevice d) w3) as (w4 & R4 & F4 & C4 & L4);
    [exact (proj1 (touches_same (fun _ => False) w2 w3 (proj1 T2) P3))|by rewrite P3|done|done|]. mstep R4.
  destruct (frame_touches (perform_event lt (dv_transport d) (dv_link d)) _ _ _ F4) as [T4 M4].
  assert (touches (fun y => y = devicep) w2 w4) as T24 by
    exact (touches_trans _ _ _ _ _ (touches_same (fun y => y = devicep) w2 w3 (proj1 T2) P3) T4 (fun y _ Hy => Hy)).
  exists os, evs, w4. split; [done|]. split; [apply T4|]. split; [done|].
  split; [by specialize (Hf [] (flushed_end _ _ _)); rewrite app_nil_r in Hf|].
  split; [|split; [by rewrite C4, lookup_insert_eq|split; [|split]]].
  - apply (emits_trans _ [Batch true] (evs ++ [Batch false]) w w1 w4 Hquiet M1).
    apply (emits_trans _ evs [Batch false] w1 w2 w4 Hquiet M2).
    exact (emits_trans _ [Batch false] [] w2 w3 w4 Hquiet M3 M4).
  - specialize (V2 lst ltac:(unfold server in *; by rewrite P1)).
    destruct V2 as (p & Es & Ea & Hch). exists p.
    split; [refine (touches_cell _ _ _ _ _ T24 _ Es eq_refl); intros Hx; rewrite Hx in Es; congruence|].
    split; [refine (touches_cell _ _ _ _ _ T24 _ Ea eq_refl); intros Hx; rewrite Hx in Ea; congruence|].
    eapply touches_chain; [exact T24| |exact Hch]. intros y Hy ->.
    destruct (chain_cell (T := eb_response) _ _ _ _ Hch Hy) as (u & Eu). cbn in Eu. congruence.
  - rewrite Forall_forall in G2 |- *. intros [e o] Hin Ho. eapply flight_kept; [exact (G2 _ Hin Ho)|exact T24|].
    intros y Hy ->. apply Hout. left. exists e. split; [by eapply elem_of_zip_l|done].
  - intros y. by rewrite L4, P3, L2, P1.
Qed.

End theorem.

(** ** Instances *)

Lemma room_free {X} `{Env X} `{!PoolExpander e_expand} (w : world X) (xs : list Z) :
  pool_ok w -> NoDup xs -> (forall x, x ∈ xs -> x <> EB_NULL /\ exists n, cells (w_pool w) !! x = Some (IFree n)) ->
  room w (length xs).
Proof.
  intros [Hwf _] Hnd Hx. split; [apply (wf_null _ Hwf)|]. destruct (wf_list _ Hwf) as (l & Hl & Hall).
  exists l. split; [done|]. apply NoDup_incl_length; [by apply NoDup_ListNoDup|].
  intros x Hin. apply list_elem_of_In in Hin. destruct (Hx x Hin) as (Hn & n & E).
  apply list_elem_of_In. exact (Hall x n E Hn).
Qed.

Section sample.
Import Sample.
#[local] Existing Instance Response.sample_callbacks.

(** Cycle 5 reads and checks, cycle 6 is empty, cycle 7 writes only. *)
Definition outbox : list item :=
  [ISocket (mk_socket 2 EB_NULL EB_NULL EB_NULL 1 0x44); ISocketAux (mk_socket_aux 100 0x8000 EB_NULL);
   IDevice (mk_device 0 EB_NULL 7 0 0x44 3 4); ILink (mk_link []); ITransport (mk_transport [] 1 EB_NULL);
   ICycle (mk_cycle (cb_user 70) 0 8 EB_NULL); ICycle (mk_cycle (cb_user 71) 0 EB_NULL 5);
   ICycle (mk_cycle (cb_user 72) 0 9 6);
   IOperation (mk_operation 0x200 0 (EB_OP_READ_VAL .| EB_OP_CHECKED) 4 EB_NULL);
   IOperation (mk_operation 0x100 17 EB_OP_WRITE 4 EB_NULL)].

Definition outbox_queue : list entry :=
  [mk_entry 5 (mk_cycle (cb_user 70) 0 8 EB_NULL) (Some [(8, mk_operation 0x200 0 (EB_OP_READ_VAL .| EB_OP_CHECKED) 4 EB_NULL)]);
   mk_entry 6 (mk_cycle (cb_user 71) 0 EB_NULL 5) (Some []);
   mk_entry 7 (mk_cycle (cb_user 72) 0 9 6) (Some [(9, mk_operation 0x100 17 EB_OP_WRITE 4 EB_NULL)])].

Lemma emit_quiet ev : quiet (emit ev).
Proof. intros w. eexists. split; [reflexivity|]. by split. Qed.

Lemma call_quiet f u dv op st : quiet (X := ext) (call f u dv op st).
Proof. destruct f; try (intros w; exists w; split_and!; done); apply (emit_quiet (Callback _ _ _ _ _)). Qed.

Lemma outbox_ok : pool_ok (world_of outbox []).
Proof. exact (pool_ok_seed outbox [] eq_refl). Qed.

Lemma outbox_entries : Forall (entry_ok (world_of outbox [])) outbox_queue.
Proof.
  assert (forall o, is_byte (op_format o) -> forall x, Forall (fun xo : node => is_byte (op_format xo.2)) [(x, o)]) as Hf
    by (intros o Ho x; constructor; [exact Ho|constructor]).
  constructor; [|constructor; [|constructor; [|constructor]]].
  - split; [exists EB_NULL; vm_compute; reflexivity|].
    split; [apply (walk_sound 5); vm_compute; reflexivity|apply Hf; cbn; lia].
  - split; [exists 5; vm_compute; reflexivity|]. split; [reflexivity|constructor].
  - split; [exists 6; vm_compute; reflexivity|].
    split; [apply (walk_sound 5); vm_compute; reflexivity|apply Hf; cbn; lia].
Qed.

End sample.
