(* ===== verification/Grammar.v ===== *)
(** The form of a packet: a header and whole records whose counts agree with their
    lengths. Everything [eb_device_flush] (file Flush) sends has it. *)
From stdpp Require Import base list gmap.
From Stdlib Require Import ZArith Lia.
From S2P Require Import Prelude Widths Store World Linked Cycle Format Master Valid Records Encode Slave Wire Answer Handler Response Device Session Flush.

Section grammar.
Context (width : Z).
Let hal := g_record_alignment width.
Let al := g_alignment width.

Definition zeros (l : list Z) : bool := forallb (Z.eqb 0) l.

(** A record: known flags, the padding of its header, and an address in front of the
    writes and of the reads it announces. *)
Definition record_words (wcount rcount : Z) : Z := c_bool (0 <? wcount) + wcount + c_bool (0 <? rcount) + rcount.
Definition body_length (wcount rcount : Z) : nat := (hal - 4 + Z.to_nat (record_words wcount rcount) * al)%nat.

Fixpoint records_formed (fuel : nat) (l : list Z) : bool :=
  match l with
  | [] => true
  | flags :: _ :: wcount :: rcount :: body =>
    match fuel with
    | O => false
    | S fuel =>
      let n := body_length wcount rcount in
      ((flags .& 0x11) =? 0) && ((flags .& (EB_RECORD_BCA .| EB_RECORD_RFF)) =? (EB_RECORD_BCA .| EB_RECORD_RFF))
      && (n <=? length body)%nat && zeros (take (hal - 4) body) && records_formed fuel (drop n body)
    end
  | _ => false
  end.

Definition packet_formed (mtu : nat) (l : list Z) : bool :=
  forallb (fun b => (0 <=? b) && (b <? 256)) l && (length l <=? mtu)%nat &&
  (bool_decide (take hal l = packet_header 0 width) || bool_decide (take hal l = packet_header EB_HEADER_NR width)) &&
  negb (bool_decide (drop hal l = [])) && records_formed (length l) (drop hal l).

(** ** Bytes *)

Lemma bytes_word v : bytes_ok (EB_mWRITE v al).
Proof. unfold al. rewrite EB_mWRITE_bytes by apply g_alignment_cases. apply be_bytes_ok. Qed.

Lemma bytes_words (f : node -> Z) ws : bytes_ok (concat (map (fun xo => EB_mWRITE (f xo) al) ws)).
Proof. induction ws as [|x ws IH]; [constructor|]. cbn [map concat]. apply Forall_app_2; [apply bytes_word|exact IH]. Qed.

Lemma bytes_zeros n : bytes_ok (replicate n 0).
Proof. apply Forall_replicate. lia. Qed.

Lemma flags_formed p e : let flags := record_flags p e in
  is_byte flags /\ (flags .& 0x11) = 0 /\ (flags .& (EB_RECORD_BCA .| EB_RECORD_RFF)) = EB_RECORD_BCA .| EB_RECORD_RFF.
Proof. unfold record_flags. destruct (p_rcfg p =? 0), (p_wcfg p =? 0), (p_fifo p =? 0), e; vm_compute; intuition congruence. Qed.

Lemma bytes_record data maxops nc rba r : rec_ok data maxops nc r -> bytes_ok (record_bytes width rba r).
Proof.
  intros Hr. unfold record_bytes. apply Forall_app_2; [|apply Forall_app_2; [|apply Forall_app_2]].
  - unfold record_header. apply Forall_app_2; [|apply bytes_zeros].
    constructor; [apply flags_formed|]. repeat (constructor; [apply wrap_range; lia|]). constructor.
  - unfold write_section. destruct (r_writes r) as [|[x o] ws]; [constructor|]. apply Forall_app_2; [apply bytes_word|apply bytes_words].
  - unfold error_section. destruct (reads_errors _); [apply Forall_app_2; apply bytes_word|constructor].
  - unfold read_section. destruct (r_reads r) as [|y rs]; [constructor|]. apply Forall_app_2; [apply bytes_word|apply bytes_words].
Qed.

(** ** Records *)

Lemma zeros_replicate n : zeros (replicate n 0) = true.
Proof. by induction n. Qed.

Lemma record_counts data maxops nc r : rec_ok data maxops nc r ->
  0 <= p_wcount (r_plan r) <= 255 /\ 0 <= p_rxcount (r_plan r) <= 255.
Proof.
  intros (ops & _ & Hp). pose proof (ps_wcount _ _ _ _ _ _ _ _ Hp). pose proof (ps_wmax _ _ _ _ _ _ _ _ Hp).
  pose proof (ps_rcount _ _ _ _ _ _ _ _ Hp). pose proof (ps_rmax _ _ _ _ _ _ _ _ Hp). split; [lia|].
  destruct (reads_errors (r_plan r)) eqn:Ee; [destruct (ps_errors _ _ _ _ _ _ _ _ Hp Ee) as (_ & -> & _); lia|].
  rewrite (ps_noerrors _ _ _ _ _ _ _ _ Hp Ee). lia.
Qed.

Lemma record_formed data maxops nc rba r fuel rest : rec_ok data maxops nc r ->
  records_formed (S fuel) (record_bytes width rba r ++ rest) = records_formed fuel rest.
Proof.
  intros Hr. pose proof (length_record_bytes data maxops nc width rba r Hr) as Hl. destruct (record_counts _ _ _ _ Hr) as [Hw Hx].
  assert (exists body, record_bytes width rba r = [record_flags (r_plan r) (r_end r); record_select (g_data width) (r_plan r);
      p_wcount (r_plan r); p_rxcount (r_plan r)] ++ replicate (hal - 4) 0 ++ body) as (body & E).
  { eexists. unfold record_bytes, record_header. rewrite (wrap_small 8 (p_wcount _)), (wrap_small 8 (p_rxcount _)) by lia.
    reflexivity. }
  rewrite E in *. cbn [app records_formed]. set (n := body_length (p_wcount (r_plan r)) (p_rxcount (r_plan r))).
  assert (length (replicate (hal - 4) 0 ++ body) = n) as Hn.
  { change (S (S (S (S (length (replicate (hal - 4) 0 ++ body))))) = plan_length width (r_plan r)) in Hl.
    unfold plan_length, plan_total in Hl. unfold n, body_length, record_words. fold hal al in Hl.
    assert (4 <= hal)%nat by (unfold hal; destruct (g_record_alignment_cases width) as [-> | ->]; lia). lia. }
  destruct (flags_formed (r_plan r) (r_end r)) as (_ & -> & ->).
  change (0 =? 0) with true. rewrite Z.eqb_refl. rewrite (proj2 (Nat.leb_le _ _)) by (rewrite length_app; lia).
  rewrite <- app_assoc at 1. rewrite take_app_length' by (symmetry; apply length_replicate). rewrite zeros_replicate, drop_app_length' by done. done.
Qed.

(** Bytes that are a sequence of [n] records, wherever they stand. *)
Definition formed (l : list Z) : Prop :=
  bytes_ok l /\ exists n, (n <= length l)%nat /\ forall fuel rest, (n <= fuel)%nat ->
    records_formed fuel (l ++ rest) = records_formed (fuel - n) rest.

Lemma formed_nil : formed [].
Proof. split; [constructor|]. exists 0%nat. split; [done|]. intros fuel rest _. by rewrite Nat.sub_0_r. Qed.

Lemma formed_app l1 l2 : formed l1 -> formed l2 -> formed (l1 ++ l2).
Proof.
  intros [B1 (n1 & H1 & F1)] [B2 (n2 & H2 & F2)]. split; [by apply Forall_app_2|]. exists (n1 + n2)%nat. rewrite length_app. split; [lia|].
  intros fuel rest Hf. rewrite <- app_assoc, F1, F2 by lia. f_equal. lia.
Qed.

Lemma formed_concat ls : Forall formed ls -> formed (concat ls).
Proof. induction 1; [apply formed_nil|]. by apply formed_app. Qed.

Lemma formed_record data maxops nc rba r : rec_ok data maxops nc r -> formed (record_bytes width rba r).
Proof.
  intros Hr. split; [by eapply bytes_record|]. exists 1%nat. split.
  - rewrite (length_record_bytes data maxops nc) by done. unfold plan_length. destruct (g_record_alignment_cases width) as [-> | ->]; lia.
  - intros [|fuel] rest Hf; [lia|]. rewrite (record_formed data maxops nc) by done. f_equal. lia.
Qed.

Lemma formed_cycle data maxops nc rba recs : Forall (rec_ok data maxops nc) recs -> formed (cycle_bytes width rba recs).
Proof. intros Hr. apply formed_concat, List.Forall_map. eapply Forall_impl; [exact Hr|]. intros r Hr'. by eapply formed_record. Qed.

Lemma packet_of_formed mtu buf bytes : is_byte width -> Forall formed buf -> Forall (fun p => p <> []) buf -> buf <> [] ->
  (hal + length (concat buf) <= mtu)%nat -> packet width buf bytes -> packet_formed mtu bytes = true.
Proof.
  intros Hw Hb Hne Hbuf Hmtu (flags & Hf & ->). destruct (formed_concat buf Hb) as [Hbytes (n & Hn & Hall)].
  assert (length (packet_header flags width) = hal) as Hl by apply length_packet_header.
  assert (bytes_ok (packet_header flags width)) as Hh.
  { unfold packet_header. apply Forall_app_2; [|apply bytes_zeros]. destruct Hf as [-> | ->]; repeat (constructor; [first [exact Hw | lia | vm_compute; intuition congruence]|]); constructor. }
  unfold packet_formed. rewrite take_app_length', drop_app_length' by done.
  assert (forallb (fun b => (0 <=? b) && (b <? 256)) (packet_header flags width ++ concat buf) = true) as ->.
  { apply forallb_forall. intros b Hin. apply andb_true_intro. apply list_elem_of_In in Hin.
    pose proof (proj1 (Forall_forall _ _) (Forall_app_2 _ _ _ Hh Hbytes) b Hin) as Hr. cbn in Hr. split; [apply Z.leb_le|apply Z.ltb_lt]; lia. }
  rewrite (proj2 (Nat.leb_le _ _)) by (rewrite length_app; lia).
  assert (bool_decide (packet_header flags width = packet_header 0 width) || bool_decide (packet_header flags width = packet_header EB_HEADER_NR width) = true) as ->.
  { apply orb_true_iff. destruct Hf as [-> | ->]; [left|right]; by apply bool_decide_true. }
  assert (concat buf <> []) as Hc.
  { destruct buf as [|p buf]; [done|]. apply Forall_cons in Hne as [Hp _]. destruct p; [done|]. done. }
  rewrite bool_decide_false by done. cbn [andb negb]. rewrite <- (app_nil_r (concat buf)) at 2.
  rewrite Hall by (rewrite length_app; lia). by destruct (_ - n)%nat.
Qed.

(** ** Events *)

Definition event_formed (mtu : nat) (e : event) : Prop := match e with Packet bytes => packet_formed mtu bytes = true | _ => True end.
Definition payload_formed (o : outcome) : Prop :=
  match o with Done p | Waiting p _ _ => formed p /\ p <> [] | Refused _ _ => True end.

Definition pending_formed (mtu : nat) (buf : list (list Z)) : Prop :=
  Forall formed buf /\ Forall (fun p => p <> []) buf /\ (buf <> [] -> (hal + length (concat buf) <= mtu)%nat).

Lemma pending_more mtu buf p : pending_formed mtu buf -> formed p -> p <> [] -> (hal + length (concat (buf ++ [p])) <= mtu)%nat ->
  pending_formed mtu (buf ++ [p]).
Proof. intros (H1 & H2 & _) Hp Hne Hl. split; [|split]; [by apply Forall_app_2; [|constructor]..|done]. Qed.

Lemma flushed_formed mtu devicep buf q evs : is_byte width -> flushed width mtu devicep buf q evs ->
  pending_formed mtu buf -> Forall (fun eo => payload_formed eo.2) q -> Forall (event_formed mtu) evs.
Proof.
  intros Hw. induction 1 as [|buf bytes Hne Hp|buf bytes q evs Hne Hp Hf IH|buf e op st q evs Hf IH|buf e payload q evs Hl Hf IH|buf e payload x r q evs Hl Hf IH];
    intros Hbuf Hq.
  - constructor.
  - destruct Hbuf as (H1 & H2 & H3). constructor; [|constructor]. exact (packet_of_formed mtu buf bytes Hw H1 H2 Hne (H3 Hne) Hp).
  - destruct Hbuf as (H1 & H2 & H3). constructor; [exact (packet_of_formed mtu buf bytes Hw H1 H2 Hne (H3 Hne) Hp)|]. apply IH; [|done]. repeat split; constructor || done.
  - apply Forall_cons in Hq as [_ Hq]. constructor; [done|]. by apply IH.
  - apply Forall_cons in Hq as [[Hp Hne] Hq]. constructor; [done|]. apply IH; [by apply pending_more|done].
  - apply Forall_cons in Hq as [[Hp Hne] Hq]. apply IH; [by apply pending_more|done].
Qed.
End grammar.

(** * What a flush sends *)

Section theorem.
Context {X : Type} `{Env X} `{!PoolExpander e_expand} `{Callbacks X}.
Implicit Types w : world X.

Lemma records_payload width mtu (aux : eb_socket_aux) l ops recs rba : link_width width -> mtu <> 0%nat ->
  Forall (fun xo => is_byte (op_format xo.2)) l -> sendable width l ops ->
  cycle_records (g_data width) (budget width ops) (checks ops) (S (2 * length ops)) 0 ops = Some recs ->
  formed width (cycle_bytes width rba recs) /\ cycle_bytes width rba recs <> [].
Proof.
  intros Hw Hm Hb Hs Hrecs. pose proof (sendable_formats width mtu aux Hw Hm l ops Hb Hs) as Hfmt. pose proof (budget_range width mtu aux Hw Hm ops) as Hbud.
  assert (ops <> []) as Hone by (intros ->; destruct Hs as (Hne & _ & Hs); by destruct l).
  destruct (cycle_records_spec (g_data width) (budget width ops) (checks ops) (S (2 * length ops)) 0 ops)
    as (recs' & E & _ & (init & last & -> & _) & Hok & _); try done; [apply (link_width_cases width Hw)|lia|by left|unfold record_measure; cbn; lia|].
  rewrite Hrecs in E. injection E as ->. split; [by eapply formed_cycle|].
  unfold cycle_bytes. rewrite map_app, concat_app. cbn [map concat]. apply Forall_app in Hok as [_ Hlast]. apply Forall_cons in Hlast as [Hlast _].
  pose proof (length_record_bytes _ _ _ width rba last Hlast) as Hl. unfold plan_length in Hl.
  intros Ec. apply (f_equal length) in Ec. rewrite !length_app in Ec. cbn [length] in Ec.
  pose proof (g_record_alignment_cases width). lia.
Qed.

Lemma settled_payload width mtu time exhausted rba w e o (aux : eb_socket_aux) : link_width width -> mtu <> 0%nat -> entry_ok w e ->
  settles width mtu time exhausted rba e o -> payload_formed width o.
Proof.
  intros Hw Hm [_ He] Hs. destruct Hs as [| | | | |l ops recs El Hsend Hr _|l ops recs x El Hsend Hr _]; try done;
    rewrite El in He; destruct He as [_ Hb]; by eapply records_payload.
Qed.

Lemma all_payloads width mtu time exhausted w (aux : eb_socket_aux) q os : link_width width -> mtu <> 0%nat ->
  Forall (entry_ok w) q -> forall rba, settle_all width mtu time exhausted rba q os -> Forall (fun eo => payload_formed width eo.2) (zip q os).
Proof.
  intros Hw Hm. revert os. induction q as [|e q IH]; intros os Hok rba Hs; [constructor|].
  apply Forall_cons in Hok as [He Hok]. inversion Hs as [|? ? ? o os' H1 H2]; subst. constructor; [|by eapply IH].
  by eapply settled_payload.
Qed.

End theorem.

Section sample.
Import Sample.
#[local] Existing Instance Response.sample_callbacks.

(** The queue of the sample of Flush; its packet, and what is not a packet. *)
Definition sent_packet : list Z := packet_header 0 0x44 ++
  [160; 15; 0; 1;  0; 0; 128; 0;  0; 0; 2; 0;  232; 15; 0; 1;  0; 0; 128; 1;  0; 0; 0; 4;
   168; 15; 1; 0;  0; 0; 1; 0;  0; 0; 0; 17].

End sample.
