(* ===== verification/Socket.v ===== *)
(** The socket and its event loop: opening, closing, the collection of
    descriptors and [eb_socket_check] of src/api/glue/socket.c, and
    [eb_socket_run] of src/api/transport/run.c, which closes the recursion that
    blocking cycles open (the class [Blocking] of file Cycle). *)
From stdpp Require Import base list gmap.
From Stdlib Require Import ZArith Lia.
From S2P Require Import Prelude Widths Store World Linked Cycle Format Master Slave Handler Response Device Session.

Definition EB_ABI_CODE : Z := 0x0488.
Definition EB_DESCRIPTOR_IN : Z := 0x1.
Definition EB_DESCRIPTOR_OUT : Z := 0x2.

(** * Time (run.c) *)

(** The descriptor sets of [select]: [struct eb_block_sets]. *)
Record eb_block_sets := mk_sets { bs_nfd : Z; bs_rfds : list Z; bs_wfds : list Z }.

Definition eb_update_sets (set : eb_block_sets) (fd mode : Z) : eb_block_sets :=
  mk_sets (Z.max (bs_nfd set) fd)
    (if negb ((mode .& EB_DESCRIPTOR_IN) =? 0) then fd :: bs_rfds set else bs_rfds set)
    (if negb ((mode .& EB_DESCRIPTOR_OUT) =? 0) then fd :: bs_wfds set else bs_wfds set).

Definition eb_check_sets (set : eb_block_sets) (fd mode : Z) : bool :=
  (negb ((mode .& EB_DESCRIPTOR_IN) =? 0) && existsb (Z.eqb fd) (bs_rfds set)) ||
  (negb ((mode .& EB_DESCRIPTOR_OUT) =? 0) && existsb (Z.eqb fd) (bs_wfds set)).

(** How long to sleep, in microseconds: the timeout asked for, [-1] being ten
    minutes, but not beyond the first deadline ([0]: there is none). *)
Definition sleep_time (timeout_us eb_deadline start : Z) : Z :=
  let timeout_us := if timeout_us =? -1 then 600 * 1000000 else timeout_us in
  let timeout_us :=
    if negb (eb_deadline =? 0) then Z.min timeout_us ((eb_deadline - start) * 1000000) else timeout_us in
  if timeout_us <? 0 then 0 else timeout_us.

Section socket.
Context {X : Type} `{Env X} `{Callbacks X} `{Blocking X}.

(** * Step 1 of [eb_socket_check]: expired cycles *)

Definition kill_first (socketp : Z) : M X unit :=
  let* socket := EB_SOCKET socketp in
  let responsep := sk_first_response socket in
  let* response := EB_RESPONSE responsep in
  let* cycle := EB_CYCLE (rs_cycle response) in
  poke socketp (ISocket (sk_set_responses (rs_next response) (sk_last_response socket) socket)) ;;;
  call (cy_callback cycle) (cy_user_data cycle) (cy_link cycle) (cy_ops cycle) EB_TIMEOUT ;;;
  eb_cycle_destroy (rs_cycle response) ;;;
  eb_free (rs_cycle response) ;;;
  eb_free responsep.

(** [while (socket->first_response != EB_NULL && eb_socket_timeout(socketp) <= now)] *)
Fixpoint expire_loop (socketp now : Z) (fuel : nat) : M X unit :=
  let* socket := EB_SOCKET socketp in
  if sk_first_response socket =? EB_NULL then ret tt
  else
    let* deadline := eb_socket_timeout socketp in
    if deadline <=? now then
      match fuel with
      | O => fault
      | S fuel => kill_first socketp ;;; expire_loop socketp now fuel
      end
    else ret tt.

(** * Step 2: transports and devices *)

(** Accept connections while there is a link to accept them on. *)
Fixpoint accept_loop (socketp transportp : Z) (fuel : nat) (new_linkp : Z) : M X Z :=
  if new_linkp =? EB_NULL then ret new_linkp
  else
    let* transport := EB_TRANSPORT transportp in
    let* got := t_accept (tr_link_type transport) transportp new_linkp in
    if 0 <? got then
      match fuel with
      | O => fault
      | S fuel =>
        let* new_linkp := eb_device_new_slave socketp transportp new_linkp in
        accept_loop socketp transportp fuel new_linkp
      end
    else ret new_linkp.

(** [while (eb_device_slave(socketp, transportp, EB_NULL, user, ready) > 0)] *)
Fixpoint toplevel_loop (socketp transportp : Z) (fuel : nat) : M X unit :=
  let* got := eb_device_slave socketp transportp EB_NULL in
  if 0 <? got then
    match fuel with O => fault | S fuel => toplevel_loop socketp transportp fuel end
  else ret tt.

Fixpoint poll_transports (socketp : Z) (fuel : nat) (transportp new_linkp : Z) : M X Z :=
  if transportp =? EB_NULL then ret new_linkp
  else match fuel with
    | O => fault
    | S fuel =>
      let* transport := EB_TRANSPORT transportp in
      let* new_linkp := accept_loop socketp transportp b_fuel new_linkp in
      toplevel_loop socketp transportp b_fuel ;;;
      poll_transports socketp fuel (tr_next transport) new_linkp
    end.

(** [while (device->link != EB_NULL && eb_device_slave(...) > 0)] *)
Fixpoint device_loop (socketp devicep : Z) (fuel : nat) : M X unit :=
  let* device := EB_DEVICE devicep in
  if dv_link device =? EB_NULL then ret tt
  else
    let* got := eb_device_slave socketp (dv_transport device) devicep in
    if 0 <? got then
      match fuel with O => fault | S fuel => device_loop socketp devicep fuel end
    else ret tt.

(** [if (device->un_link.passive != devicep) eb_device_flush(devicep);] When the
    slave has just closed the passive device, the code reads [un_link] from the
    cell it freed, where nothing has overwritten it: still passive. *)
Definition flush_active (devicep : Z) : M X unit :=
  let* it := peek devicep in
  match it with
  | IDevice device =>
      if negb (dv_un_link device =? devicep) then let* _ := eb_device_flush devicep in ret tt else ret tt
  | IFree _ => ret tt
  | _ => fault
  end.

Fixpoint poll_devices (socketp : Z) (fuel : nat) (devicep : Z) : M X unit :=
  if devicep =? EB_NULL then ret tt
  else match fuel with
    | O => fault
    | S fuel =>
      let* device := EB_DEVICE devicep in
      device_loop socketp devicep b_fuel ;;;
      flush_active devicep ;;;
      poll_devices socketp fuel (dv_next device)
    end.

(** [ready] tells the transports which descriptors have input. *)
Definition eb_socket_check (socketp now : Z) (ready : Z -> Z -> bool) : M X unit :=
  e_ready ready ;;;
  let* socket := EB_SOCKET socketp in
  let auxp := sk_aux socket in
  expire_loop socketp now b_fuel ;;;
  let* new_linkp := eb_new in
  when (negb (new_linkp =? EB_NULL)) (poke new_linkp (ILink (mk_link []))) ;;;
  let* aux := EB_SOCKET_AUX auxp in
  poke auxp (ISocketAux (mk_socket_aux now (ax_rba aux) (ax_first_transport aux))) ;;;
  let* n := pool_fuel in
  let* new_linkp := poll_transports socketp n (ax_first_transport aux) new_linkp in
  let* socket := EB_SOCKET socketp in
  let* n := pool_fuel in
  poll_devices socketp n (sk_first_device socket) ;;;
  when (negb (new_linkp =? EB_NULL)) (eb_free new_linkp).

(** * Descriptors *)

(** The descriptors of the transports, then those of the devices with a link. *)
Fixpoint transport_descriptors (fuel : nat) (transportp : Z) : M X (list (Z * Z)) :=
  if transportp =? EB_NULL then ret []
  else match fuel with
    | O => fault
    | S fuel =>
      let* transport := EB_TRANSPORT transportp in
      let* fds := t_fdes (tr_link_type transport) transportp EB_NULL in
      let* rest := transport_descriptors fuel (tr_next transport) in
      ret (fds ++ rest)
    end.

Fixpoint device_descriptors (fuel : nat) (devicep : Z) : M X (list (Z * Z)) :=
  if devicep =? EB_NULL then ret []
  else match fuel with
    | O => fault
    | S fuel =>
      let* device := EB_DEVICE devicep in
      let* fds :=
        (if negb (dv_link device =? EB_NULL) then
           let* transport := EB_TRANSPORT (dv_transport device) in
           t_fdes (tr_link_type transport) (dv_transport device) (dv_link device)
         else ret []) in
      let* rest := device_descriptors fuel (dv_next device) in
      ret (fds ++ rest)
    end.

(** The descriptors reported to the callback, in order. *)
Definition eb_socket_descriptors (socketp : Z) : M X (list (Z * Z)) :=
  let* socket := EB_SOCKET socketp in
  let* aux := EB_SOCKET_AUX (sk_aux socket) in
  let* n := pool_fuel in
  let* fds := transport_descriptors n (ax_first_transport aux) in
  let* n := pool_fuel in
  let* fds' := device_descriptors n (sk_first_device socket) in
  ret (fds ++ fds').

(** * The event loop *)

Definition no_sets : eb_block_sets := mk_sets 0 [] [].

(** Seconds beyond 32 bits are cut where [eb_socket_check] takes a [uint32_t]. *)
Definition eb_socket_run (socketp timeout_us : Z) : M X Z :=
  let* ' (start, start_us) := e_now in
  eb_socket_check socketp (u32 start) (eb_check_sets no_sets) ;;;
  let* eb_deadline := eb_socket_timeout socketp in
  let timeout_us := sleep_time timeout_us eb_deadline start in
  let* fds := eb_socket_descriptors socketp in
  let sets := fold_left (fun set fm => eb_update_sets set fm.1 fm.2) fds no_sets in
  let* ' (rfds, wfds) := e_select (bs_rfds sets) (bs_wfds sets) timeout_us in
  let* ' (stop, stop_us) := e_now in
  eb_socket_check socketp (u32 stop) (eb_check_sets (mk_sets (bs_nfd sets) rfds wfds)) ;;;
  ret ((stop - start) * 1000000 + (stop_us - start_us)).

(** * Opening and closing *)

(** Release the handlers, then the transports. *)
Fixpoint free_handlers (fuel : nat) (i : Z) : M X unit :=
  if i =? EB_NULL then ret tt
  else match fuel with
    | O => fault
    | S fuel =>
      let* handler := EB_HANDLER_ADDRESS i in
      eb_free (ha_callback handler) ;;;
      eb_free i ;;;
      free_handlers fuel (ha_next handler)
    end.

Fixpoint close_transports (fuel : nat) (transportp : Z) : M X unit :=
  if transportp =? EB_NULL then ret tt
  else match fuel with
    | O => fault
    | S fuel =>
      let* transport := EB_TRANSPORT transportp in
      t_close (tr_link_type transport) transportp ;;;
      eb_free transportp ;;;
      close_transports fuel (tr_next transport)
    end.

Definition eb_socket_close (socketp : Z) : M X Z :=
  let* socket := EB_SOCKET socketp in
  if negb (sk_first_device socket =? EB_NULL) then ret EB_BUSY
  else
    let* n := pool_fuel in
    free_handlers n (sk_first_handler socket) ;;;
    let auxp := sk_aux socket in
    let* aux := EB_SOCKET_AUX auxp in
    let* n := pool_fuel in
    close_transports n (ax_first_transport aux) ;;;
    eb_free socketp ;;;
    eb_free auxp ;;;
    ret EB_OK.

(** Open the transports from [link_type] on: whether all of them were tried, the
    status and the list of those opened. *)
Fixpoint open_transports (port : list Z) (fuel : nat) (link_type status first_transport : Z) : M X (bool * Z * Z) :=
  if link_type =? t_size then ret (true, status, first_transport)
  else match fuel with
    | O => fault
    | S fuel =>
      let* transportp := eb_new in
      if transportp =? EB_NULL then ret (false, EB_OOM, first_transport)
      else
        poke transportp (ITransport (mk_transport [] 0 EB_NULL)) ;;;
        let* status := t_open link_type transportp port in
        if status =? EB_ADDRESS then
          eb_free transportp ;;; open_transports port fuel (u8 (link_type + 1)) status first_transport
        else if negb (status =? EB_OK) then
          eb_free transportp ;;; ret (false, status, first_transport)
        else
          let* transport := EB_TRANSPORT transportp in
          poke transportp (ITransport (mk_transport (tr_raw transport) link_type first_transport)) ;;;
          open_transports port fuel (u8 (link_type + 1)) status transportp
    end.

(** Returns the status and what is stored in [*result], if anything. *)
Definition eb_socket_open (abi_code : Z) (port : list Z) (supported_widths : Z) : M X (Z * option Z) :=
  if negb (abi_code =? EB_ABI_CODE) then ret (EB_ABI, None)
  else if negb (eb_width_possible supported_widths) then ret (EB_WIDTH, Some EB_NULL)
  else
    let* socketp := eb_new in
    if socketp =? EB_NULL then ret (EB_OOM, Some EB_NULL)
    else
      let* auxp := eb_new in
      if auxp =? EB_NULL then eb_free socketp ;;; ret (EB_OOM, Some EB_NULL)
      else
        let* ' (all, status, first_transport) := open_transports port (Z.to_nat t_size) 0 EB_OK EB_NULL in
        poke socketp (ISocket (mk_socket EB_NULL EB_NULL EB_NULL EB_NULL auxp supported_widths)) ;;;
        poke auxp (ISocketAux (mk_socket_aux 0 0x8000 first_transport)) ;;;
        if negb all then
          eb_socket_close socketp ;;; ret (status, None)
        else
          eb_socket_run socketp 0 ;;;
          ret (status, Some socketp).
End socket.

(** The recursion through blocking calls, unrolled: a callback run at level [n]
    may block in loops of at most [fuel] rounds at level [n - 1]. *)
Fixpoint run_level {X} `{Env X} `{Callbacks X} (fuel n : nat) : Blocking X :=
  {| b_run socketp timeout_us :=
       match n with
       | O => fault
       | S n => @eb_socket_run X _ _ (run_level fuel n) socketp timeout_us
       end;
     b_fuel := fuel |}.

(** * Releasing cells *)

Section release.
Context {X : Type} `{Env X} `{!PoolExpander e_expand}.
Implicit Types w : world X.

(** From [w] to [w'] exactly the cells [S] are released; the others keep their
    contents. *)
Definition released (S : list Z) w w' : Prop :=
  pool_ok w' /\ (forall y, live (cells (w_pool w')) y <-> live (cells (w_pool w)) y /\ y ∉ S) /\
  (forall y, y ∉ S -> cells (w_pool w') !! y = cells (w_pool w) !! y) /\ w_sdb w' = w_sdb w.

Lemma released_nil w w' : pool_ok w' -> w_pool w' = w_pool w -> w_sdb w' = w_sdb w -> released [] w w'.
Proof. intros Hw E Es. split; [done|]. rewrite E. split_and!; [|done|done]. intros y. pose proof (not_elem_of_nil y). tauto. Qed.

Lemma EB_TRANSPORT_some x t w :
  cells (w_pool w) !! x = Some (ITransport t) -> EB_TRANSPORT x w = Some (t, w).
Proof. intros E. unfold EB_TRANSPORT. by mstep (peek_some _ _ _ E). Qed.

Lemma released_trans S1 S2 w1 w2 w3 : released S1 w1 w2 -> released S2 w2 w3 -> released (S1 ++ S2) w1 w3.
Proof.
  intros (_ & L1 & C1 & S1') (Hw & L2 & C2 & S2'). split; [done|]. split_and!; [| |congruence].
  - intros y. rewrite L2, L1, elem_of_app. tauto.
  - intros y Hy. rewrite elem_of_app in Hy. rewrite C2, C1; tauto.
Qed.

Lemma release_one x w : pool_ok w -> live (cells (w_pool w)) x ->
  exists w', eb_free x w = Some (tt, w') /\ released [x] w w'.
Proof.
  intros [Hwf Hs] Hl. destruct (eb_free_spec x w Hwf Hl) as (p' & E & Hwf' & Hsz & Hdead & Hsame).
  exists (upd_pool p' w). split; [done|]. split; [split; [done|cbn; by rewrite Hsz]|]. split_and!; [| |done].
  - intros y. rewrite list_elem_of_singleton. destruct (decide (y = x)) as [->|Hne]; [cbn; tauto|].
    unfold live. cbn. rewrite Hsame by done. tauto.
  - intros y Hy. rewrite list_elem_of_singleton in Hy. by apply Hsame.
Qed.

Lemma released_live S w w' y : released S w w' -> live (cells (w_pool w)) y -> y ∉ S -> live (cells (w_pool w')) y.
Proof. intros (_ & L & _) Hy Hs. by apply L. Qed.

(** A list of cells apart from those released. *)
Lemma released_chain `{Node T} S w w' p (l : list (Z * T)) :
  released S w w' -> (forall y, y ∈ l.*1 -> y ∉ S) -> chain (cells (w_pool w)) p l -> chain (cells (w_pool w')) p l.
Proof. intros (_ & _ & C & _) Hs Hc. eapply chain_agree; [|exact Hc]. intros y Hy. apply C, Hs, Hy. Qed.

Context `{Callbacks X} `{Blocking X}.

Lemma close_transports_spec n : forall p (ts : list (Z * eb_transport)) w,
  (forall lt tp, outside (t_close lt tp)) ->
  pool_ok w -> chain (cells (w_pool w)) p ts -> (length ts <= n)%nat ->
  exists w', close_transports n p w = Some (tt, w') /\ released ts.*1 w w'.
Proof.
  induction n as [|n IH]; intros p ts w Hout Hw Hc Hn; destruct ts as [|[x t] ts]; cbn in Hn; try lia.
  1, 2: cbn in Hc; subst p; exists w; split; [done|by apply released_nil].
  pose proof (chain_NoDup _ _ _ Hc) as Hnd. cbn in Hnd. apply NoDup_cons in Hnd as [Hx _].
  destruct Hc as (-> & Hxn & k & E & Hc). cbn [close_transports]. rewrite (proj2 (Z.eqb_neq _ EB_NULL)) by done.
  mstep (EB_TRANSPORT_some _ _ _ E). cbn [tr_link_type tr_next set_next transport_node].
  destruct (outside_step _ w (Hout (tr_link_type t) x) Hw) as (? & w1 & R1 & Hw1 & P1 & S1). mstep R1.
  destruct (release_one x w1 Hw1) as (w2 & R2 & F2); [rewrite P1; by eexists|]. mstep R2.
  pose proof (released_trans _ _ _ _ _ (released_nil _ _ Hw1 P1 S1) F2) as F. cbn [app] in F.
  destruct (IH k ts w2 Hout (proj1 F2)) as (w3 & R3 & F3); [|lia|].
  { eapply released_chain; [exact F| |exact Hc]. intros y Hy. rewrite list_elem_of_singleton. by intros ->. }
  exists w3. split; [exact R3|]. exact (released_trans _ _ _ _ _ F F3).
Qed.

Lemma free_handlers_spec n : forall p (vs : list vdev) w,
  pool_ok w -> chain (cells (w_pool w)) p (map v_node vs) -> Forall (v_repr w) vs ->
  NoDup (map v_callback vs) -> (length vs <= n)%nat ->
  exists w', free_handlers n p w = Some (tt, w') /\ released (flat_map (fun v => [v_callback v; v_cell v]) vs) w w'.
Proof.
  induction n as [|n IH]; intros p vs w Hw Hc Hv Hd Hn; destruct vs as [|v vs]; cbn in Hn; try lia.
  1, 2: cbn in Hc; subst p; exists w; split; [done|by apply released_nil].
  pose proof (chain_NoDup _ _ _ Hc) as Hnd. rewrite v_node_fst in Hnd. cbn in Hnd. apply NoDup_cons in Hnd as [Hx _].
  cbn in Hd. apply NoDup_cons in Hd as [Hcb Hd]. apply Forall_cons in Hv as [[Ecb _] Hv].
  cbn [map] in Hc. destruct Hc as (-> & Hxn & k & E & Hc). cbn [v_node fst snd] in *.
  assert (v_cell v <> v_callback v) as Hne by (intros Heq; rewrite <- Heq, E in Ecb; done).
  assert (forall u, u ∈ vs -> v_cell u <> v_callback v /\ v_callback u <> v_cell v) as Hsep.
  { intros u Hu. pose proof (proj1 (Forall_forall _ _) Hv u Hu) as [Eu _]. split; intros Heq.
    - destruct (chain_cell (T := eb_handler_address) _ _ _ (v_cell u) Hc) as (t & Et);
        [rewrite v_node_fst; by apply list_elem_of_fmap_2|]. rewrite Heq, Ecb in Et. done.
    - rewrite Heq, E in Eu. done. }
  cbn [free_handlers]. rewrite (proj2 (Z.eqb_neq _ EB_NULL)) by done.
  mstep (EB_HANDLER_ADDRESS_some _ _ _ E). cbn [ha_callback ha_next set_next handler_node].
  destruct (release_one (v_callback v) w Hw) as (w1 & R1 & F1); [by eexists|]. mstep R1.
  destruct (release_one (v_cell v) w1 (proj1 F1)) as (w2 & R2 & F2).
  { eapply released_live; [exact F1|by eexists|]. by rewrite list_elem_of_singleton. }
  mstep R2. pose proof (released_trans _ _ _ _ _ F1 F2) as F. cbn [app] in F.
  destruct (IH k vs w2 (proj1 F2)) as (w3 & R3 & F3); [| |done|lia|].
  - eapply released_chain; [exact F| |exact Hc]. intros y Hy. rewrite v_node_fst in Hy.
    rewrite elem_of_cons, list_elem_of_singleton. intros [->| ->]; [|done].
    apply list_elem_of_fmap in Hy as (u & Heq & Hu). destruct (Hsep u Hu); congruence.
  - apply Forall_forall. intros u Hu. pose proof (proj1 (Forall_forall _ _) Hv u Hu) as [Eu Su].
    destruct F as (_ & _ & F & Fs). split; [|by rewrite Fs]. rewrite F; [done|]. rewrite elem_of_cons, list_elem_of_singleton.
    intros [Heq|Heq]; [|destruct (Hsep u Hu); congruence].
    apply Hcb. rewrite <- Heq. by apply list_elem_of_fmap_2.
  - exists w3. split; [exact R3|]. exact (released_trans _ _ _ _ _ F F3).
Qed.
End release.

(** * Closing *)

Section close.
Context {X : Type} `{Env X} `{!PoolExpander e_expand} `{Callbacks X} `{Blocking X}.
Context (Hclose : forall lt tp, outside (t_close lt tp)).
Implicit Types w : world X.

(** The cells of a socket: its own two, those of its handlers, its transports. *)
Definition socket_cells (socketp auxp : Z) (vs : list vdev) (ts : list (Z * eb_transport)) : list Z :=
  flat_map (fun v => [v_callback v; v_cell v]) vs ++ ts.*1 ++ [socketp; auxp].

Lemma elem_of_handler_cells (vs : list vdev) y :
  y ∈ flat_map (fun v => [v_callback v; v_cell v]) vs -> exists v, v ∈ vs /\ (y = v_callback v \/ y = v_cell v).
Proof.
  intros Hy. apply list_elem_of_In, in_flat_map in Hy as (v & Hv & Hy). exists v.
  split; [by apply list_elem_of_In|]. destruct Hy as [<-|[<-|[]]]; tauto.
Qed.

Lemma close_spec (socketp : Z) (s : eb_socket) (aux : eb_socket_aux) (vs : list vdev)
    (ts : list (Z * eb_transport)) w
    (Hw : pool_ok w) (Hh : handlers w socketp vs) (Hs : cells (w_pool w) !! socketp = Some (ISocket s))
    (Ha : cells (w_pool w) !! sk_aux s = Some (ISocketAux aux))
    (Ht : chain (cells (w_pool w)) (ax_first_transport aux) ts) :
  if sk_first_device s =? EB_NULL then
    exists w', eb_socket_close socketp w = Some (EB_OK, w') /\ released (socket_cells socketp (sk_aux s) vs ts) w w'
  else eb_socket_close socketp w = Some (EB_BUSY, w).
Proof.
  unfold eb_socket_close. mstep (EB_SOCKET_some _ _ _ Hs).
  destruct (sk_first_device s =? EB_NULL); cbn [negb]; [|done].
  destruct Hh as (s' & Es' & Hc & Hv & Hd). rewrite Hs in Es'. injection Es' as <-.
  assert (forall v, v ∈ vs -> (exists h, cells (w_pool w) !! v_callback v = Some (IHandlerCallback h)) /\
                              (exists h, cells (w_pool w) !! v_cell v = Some (IHandlerAddress h))) as Hkinds.
  { intros v Hin. pose proof (proj1 (Forall_forall _ _) Hv v Hin) as [E _]. split; [by eexists|].
    destruct (chain_cell (T := eb_handler_address) _ _ _ (v_cell v) Hc) as (t & E2); [|by eexists].
    rewrite v_node_fst. by apply list_elem_of_fmap_2. }
  rewrite bind_fuel. destruct (free_handlers_spec (base.size (cells (w_pool w))) _ vs w Hw Hc Hv Hd) as (w1 & R1 & F1).
  { pose proof (chain_length _ _ _ Hc) as Hl. by rewrite length_map in Hl. }
  mstep R1.
  assert (forall y it, cells (w_pool w) !! y = Some it ->
    match it with IHandlerCallback _ | IHandlerAddress _ => False | _ => True end ->
    y ∉ flat_map (fun v => [v_callback v; v_cell v]) vs) as Hapart.
  { intros y it E Hit Hin. apply elem_of_handler_cells in Hin as (v & Hin & Hy).
    destruct (Hkinds v Hin) as [(h1 & E1) (h2 & E2)]. destruct Hy as [->| ->]; rewrite ?E1, ?E2 in E; by injection E as <-. }
  assert (cells (w_pool w1) !! sk_aux s = Some (ISocketAux aux)) as Ha1.
  { destruct F1 as (_ & _ & F1 & _). rewrite F1; [done|]. by eapply Hapart. }
  mstep (EB_SOCKET_AUX_some _ _ _ Ha1). rewrite bind_fuel.
  assert (chain (cells (w_pool w1)) (ax_first_transport aux) ts) as Ht1.
  { eapply released_chain; [exact F1| |exact Ht]. intros y Hy.
    destruct (chain_cell (T := eb_transport) _ _ _ y Ht Hy) as (t & E). by eapply Hapart. }
  destruct (close_transports_spec _ _ ts w1 Hclose (proj1 F1) Ht1 (chain_length _ _ _ Ht1)) as (w2 & R2 & F2).
  mstep R2. pose proof (released_trans _ _ _ _ _ F1 F2) as F.
  assert (forall y it, cells (w_pool w) !! y = Some it ->
    match it with ISocket _ | ISocketAux _ => True | _ => False end ->
    y ∉ flat_map (fun v => [v_callback v; v_cell v]) vs ++ ts.*1) as Hleft.
  { intros y it E Hit Hin. apply elem_of_app in Hin as [Hin|Hin].
    - revert Hin. eapply Hapart; [exact E|]. by destruct it.
    - destruct (chain_cell (T := eb_transport) _ _ _ y Ht Hin) as (t & E2). rewrite E2 in E. by injection E as <-. }
  assert (sk_aux s <> socketp) as Hne by (intros Heq; rewrite Heq, Hs in Ha; done).
  destruct (release_one socketp w2 (proj1 F2)) as (w3 & R3 & F3).
  { eapply released_live; [exact F|by eexists|by eapply Hleft]. }
  mstep R3. pose proof (released_trans _ _ _ _ _ F F3) as F'.
  destruct (release_one (sk_aux s) w3 (proj1 F3)) as (w4 & R4 & F4).
  { eapply released_live; [exact F3| |by rewrite list_elem_of_singleton].
    eapply released_live; [exact F|by eexists|by eapply Hleft]. }
  mstep R4. exists w4. split; [done|]. pose proof (released_trans _ _ _ _ _ F' F4) as F5.
  unfold socket_cells. by rewrite <- !app_assoc in F5.
Qed.

(** Closing a socket without devices releases its two cells and those of its
    handlers and transports, each exactly once, and nothing else; a socket that
    still has devices is left untouched. *)
Theorem close_releases_socket (socketp : Z) (s : eb_socket) (aux : eb_socket_aux) (vs : list vdev)
    (ts : list (Z * eb_transport)) w
    (Hw : pool_ok w) (Hh : handlers w socketp vs) (Hs : cells (w_pool w) !! socketp = Some (ISocket s))
    (Ha : cells (w_pool w) !! sk_aux s = Some (ISocketAux aux))
    (Ht : chain (cells (w_pool w)) (ax_first_transport aux) ts) :
  if sk_first_device s =? EB_NULL then
    exists w', eb_socket_close socketp w = Some (EB_OK, w') /\ released (socket_cells socketp (sk_aux s) vs ts) w w'
  else eb_socket_close socketp w = Some (EB_BUSY, w).
Proof. exact (close_spec socketp s aux vs ts w Hw Hh Hs Ha Ht). Qed.
End close.

(** * Opening *)

(** [open] of a transport may fill in its own cell. *)
Definition opens {X} `{Env X} `{!PoolExpander e_expand} (x : Z) (m : M X Z) : Prop :=
  forall w t, pool_ok w -> cells (w_pool w) !! x = Some (ITransport t) ->
  exists st w', m w = Some (st, w') /\ pool_ok w' /\ (exists t', cells (w_pool w') !! x = Some (ITransport t')) /\
    (forall y, y <> x -> cells (w_pool w') !! y = cells (w_pool w) !! y) /\ w_sdb w' = w_sdb w.

Section open.
Context {X : Type} `{Env X} `{!PoolExpander e_expand} `{Callbacks X} `{Blocking X}.
Context (Hclose : forall lt tp, outside (t_close lt tp)).
Context (Hopen : forall lt tp port, opens tp (t_open lt tp port)).
Implicit Types w : world X.

(** From [w] to [w'] the cells [S] are new; the old ones keep their contents. *)
Definition acquired (S : list Z) w w' : Prop :=
  pool_ok w' /\ Forall (fun y => ~ live (cells (w_pool w)) y) S /\
  (forall y, live (cells (w_pool w')) y <-> live (cells (w_pool w)) y \/ y ∈ S) /\
  (forall y, live (cells (w_pool w)) y -> cells (w_pool w') !! y = cells (w_pool w) !! y) /\ w_sdb w' = w_sdb w.

Lemma acquired_trans S1 S2 w1 w2 w3 : acquired S1 w1 w2 -> acquired S2 w2 w3 -> acquired (S1 ++ S2) w1 w3.
Proof.
  intros (_ & D1 & L1 & C1 & E1) (Hw & D2 & L2 & C2 & E2). split; [done|]. split_and!.
  - apply Forall_app. split; [done|]. eapply Forall_impl; [exact D2|]. intros y Hy Hl. apply Hy, L1. by left.
  - intros y. rewrite L2, L1, elem_of_app. tauto.
  - intros y Hy. rewrite C2, C1; [done..|]. apply L1. by left.
  - congruence.
Qed.

Lemma acquired_nil w : pool_ok w -> acquired [] w w.
Proof. intros Hw. split; [done|]. split_and!; [constructor| |done|done]. intros y. pose proof (not_elem_of_nil y). tauto. Qed.

(** Releasing what was acquired leads back. *)
Lemma acquired_released S w w1 w2 : acquired S w w1 -> released S w1 w2 -> acquired [] w w2.
Proof.
  intros (_ & D & L & C & E) (Hw & L2 & C2 & E2). split; [done|].
  assert (forall y, live (cells (w_pool w)) y -> y ∉ S) as Hold.
  { intros y Hy Hin. by apply (proj1 (Forall_forall _ _) D y Hin). }
  split_and!; [constructor| | |congruence].
  - intros y. rewrite L2, L. pose proof (not_elem_of_nil y). split; [tauto|]. intros [Hl|?]; [|done]. auto.
  - intros y Hy. rewrite C2, C; auto.
Qed.

Lemma acquire_one w : pool_ok w ->
  exists x w', eb_new w = Some (x, w') /\
    ((x = EB_NULL /\ w' = w) \/ (x <> EB_NULL /\ acquired [x] w w' /\ cells (w_pool w') !! x = Some IRaw)).
Proof.
  intros Hw. destruct (eb_new_spec w Hw) as (x & p & R & Hw' & Hpost). exists x, (upd_pool p w). split; [done|].
  destruct Hpost as [[-> ->]|(Hn & Hdead & E & L & Hkeep & _)]; [left; by rewrite upd_pool_id|right].
  split; [done|]. split; [|done]. split; [done|]. split_and!; [by constructor| | |done].
  - intros y. cbn. rewrite L, list_elem_of_singleton. tauto.
  - intros y Hl. pose proof Hl as (it & Ey & _). rewrite Ey. by apply Hkeep.
Qed.

(** Writing into new cells. *)
Lemma acquired_poke S w w1 x it it0 : acquired S w w1 -> x ∈ S ->
  cells (w_pool w1) !! x = Some it0 -> is_free it0 = false -> is_free it = false ->
  exists w2, poke x it w1 = Some (tt, w2) /\ acquired S w w2 /\
    cells (w_pool w2) = <[x := it]> (cells (w_pool w1)).
Proof.
  intros (Hw & D & L & C & Es) Hx E F F'.
  destruct (poke_frame (fun y => y = x) x it it0 w1 Hw E F F' eq_refl) as (w2 & R & (Hw2 & Eq & _) & C2 & L2).
  exists w2. split; [done|]. split; [|done]. split; [done|]. split_and!; [done| | |by rewrite Eq].
  - intros y. by rewrite L2, L.
  - intros y Hy. rewrite C2, lookup_insert_ne; [by apply C|]. intros ->.
    by apply (proj1 (Forall_forall _ _) D y Hx).
Qed.

Lemma acquired_chain `{Node T} S w w' p (l : list (Z * T)) :
  acquired S w w' -> chain (cells (w_pool w)) p l -> chain (cells (w_pool w')) p l.
Proof.
  intros (_ & _ & _ & C & _) Hc. eapply chain_agree; [|exact Hc]. intros y Hy. apply C.
  exact (chain_live _ _ _ _ Hc Hy).
Qed.

(** Opening the transports: on whatever ground it ends, the cells acquired are
    those of the transports in the list. *)
Lemma open_transports_spec port n : forall lt st p (ts : list (Z * eb_transport)) w,
  0 <= lt -> lt + Z.of_nat n = t_size -> t_size < 256 -> st = EB_OK \/ st = EB_ADDRESS ->
  pool_ok w -> chain (cells (w_pool w)) p ts ->
  exists all st' p' ts' w', open_transports port n lt st p w = Some ((all, st', p'), w') /\
    acquired ts'.*1 w w' /\ chain (cells (w_pool w')) p' (ts' ++ ts) /\
    (if all then st' = EB_OK \/ st' = EB_ADDRESS else st' <> EB_OK).
Proof.
  induction n as [|n IH]; intros lt st p ts w H0lt Hn Hsz Hst Hw Hc; cbn [open_transports].
  { replace lt with t_size by lia. rewrite Z.eqb_refl.
    exists true, st, p, [], w. split; [done|]. split; [by apply acquired_nil|]. by split. }
  rewrite (proj2 (Z.eqb_neq _ _)) by lia.
  destruct (acquire_one w Hw) as (x & w1 & R1 & [(-> & ->)|(Hx & A1 & E1)]); mstep R1.
  { exists false, EB_OOM, p, [], w. split; [done|]. split; [by apply acquired_nil|]. by split. }
  rewrite (proj2 (Z.eqb_neq _ EB_NULL)) by done.
  assert (x ∈ [x]) as Hin by (by apply list_elem_of_singleton).
  destruct (acquired_poke [x] w w1 x (ITransport (mk_transport [] 0 EB_NULL)) IRaw A1 Hin E1 eq_refl eq_refl) as (w2 & R2 & A2 & C2).
  mstep R2. assert (cells (w_pool w2) !! x = Some (ITransport (mk_transport [] 0 EB_NULL))) as E2
    by (by rewrite C2, lookup_insert_eq).
  destruct (Hopen lt x port w2 _ (proj1 A2) E2) as (st1 & w3 & R3 & Hw3 & (t' & E3) & C3 & S3). mstep R3.
  assert (acquired [x] w w3) as A3.
  { pose proof A2 as (_ & D & L & C & Es). split; [done|].
    assert (forall y, live (cells (w_pool w3)) y <-> live (cells (w_pool w2)) y) as L3.
    { intros y. destruct (decide (y = x)) as [->|Hne]; [|unfold live; by rewrite C3].
      split; intros _; by eexists. }
    split_and!; [done| | |congruence].
    - intros y. by rewrite L3, L.
    - intros y Hy. rewrite C3; [by apply C|]. intros ->. by apply (proj1 (Forall_forall _ _) D x Hin). }
  assert (live (cells (w_pool w3)) x) as Hl3 by (by eexists).
  assert (u8 (lt + 1) = lt + 1) as Hu by (apply wrap_small; lia).
  destruct (st1 =? EB_ADDRESS) eqn:Ea; [|destruct (st1 =? EB_OK) eqn:Eo; cbn [negb]].
  - destruct (release_one x w3 Hw3 Hl3) as (w4 & R4 & F4). mstep R4. rewrite Hu.
    pose proof (acquired_released _ _ _ _ A3 F4) as A4.
    destruct (IH (lt + 1) st1 p ts w4) as (all & st' & p' & ts' & w5 & R5 & A5 & Hc5 & Hst5); try lia.
    + apply A4.
    + by eapply acquired_chain.
    + exists all, st', p', ts', w5. split; [done|]. split; [|by split]. exact (acquired_trans _ _ _ _ _ A4 A5).
  - mstep (EB_TRANSPORT_some _ _ _ E3).
    destruct (acquired_poke [x] w w3 x (ITransport (mk_transport (tr_raw t') lt p)) _ A3 Hin E3 eq_refl eq_refl) as (w4 & R4 & A4 & C4).
    mstep R4. rewrite Hu.
    destruct (IH (lt + 1) st1 x ((x, mk_transport (tr_raw t') lt p) :: ts) w4) as (all & st' & p' & ts' & w5 & R5 & A5 & Hc5 & Hst5); try lia.
    + apply A4.
    + split; [done|]. split; [done|]. exists p. split; [by rewrite C4, lookup_insert_eq|].
      by eapply acquired_chain.
    + exists all, st', p', (ts' ++ [(x, mk_transport (tr_raw t') lt p)]), w5. split; [done|].
      split; [|split; [by rewrite <- app_assoc|done]]. pose proof (acquired_trans _ _ _ _ _ A4 A5) as (G1 & G2 & G3 & G4).
      rewrite fmap_app. split; [done|]. split_and!; [| |apply G4|apply G4].
      * apply Forall_app in G2 as [G2 G2']. by apply Forall_app.
      * intros y. rewrite G3, !elem_of_app. cbn. tauto.
  - destruct (release_one x w3 Hw3 Hl3) as (w4 & R4 & F4). mstep R4.
    pose proof (acquired_released _ _ _ _ A3 F4) as A4.
    exists false, st1, p, [], w4. split; [done|]. split; [done|]. split; [by eapply acquired_chain|by apply Z.eqb_neq].
Qed.

End open.

(** * Expired cycles *)

Section expire.
Context {X : Type} `{Env X} `{!PoolExpander e_expand} `{Callbacks X} `{Blocking X}.
Implicit Types w : world X.


(** Cycles that are only in the second list are not looked at. *)
Lemma expire_skips_second_list socketp now n s w :
  cells (w_pool w) !! socketp = Some (ISocket s) -> sk_first_response s = EB_NULL ->
  expire_loop socketp now n w = Some (tt, w).
Proof.
  intros Hs Hf. destruct n; cbn [expire_loop]; mstep (EB_SOCKET_some _ _ _ Hs); by rewrite Hf.
Qed.
End expire.

(** ** Instances *)

Section sample.
Import Sample.
#[local] Existing Instance Response.sample_callbacks.
#[local] Existing Instance Device.idle.
Definition port : list Z := [48].

Lemma close_outside lt tp : outside (t_close lt tp).
Proof. intros w. eexists tt, _. reflexivity. Qed.

Lemma open_opens lt tp p : opens tp (t_open lt tp p).
Proof. intros w t Hw E. exists EB_OK, w. split; [done|]. split; [done|]. split; [by exists t|done]. Qed.

Lemma close_releases_socket_witness : exists w',
  eb_socket_close 0 bus_world = Some (EB_OK, w') /\ ~ live (cells (w_pool w')) 2.
Proof.
  destruct (close_releases_socket close_outside 0 (mk_socket EB_NULL 1 EB_NULL EB_NULL 3 0x44) (mk_socket_aux 0 0x8000 EB_NULL)
    [led_dev] [] bus_world bus_world_ok bus_world_handlers) as (w' & R & F);
    [vm_compute; reflexivity|vm_compute; reflexivity|reflexivity|].
  exists w'. split; [exact R|]. destruct F as (_ & L & _). intros Hl.
  apply (proj2 (proj1 (L 2) Hl)). apply list_elem_of_In. vm_compute. tauto.
Defined.

Lemma open_status : option_map (fun r => r.1.1) (eb_socket_open EB_ABI_CODE port 0x44 (world_of [] [])) = Some EB_OK.
Proof. vm_compute. reflexivity. Qed.


End sample.
