(* ===== verification/Sdb.v ===== *)
(** Discovery of remote devices: the scanning half of src/api/glue/sdb.c. A scan
    reads the address of the device table from the configuration space, then the
    head of the table, then all of it; each step is a cycle whose callback starts
    the next one. *)
From stdpp Require Import base list gmap.
From Stdlib Require Import ZArith Lia.
From S2P Require Import Prelude Widths Store World Linked Cycle Format Master Records Handler Device.

(** * The layout of the table *)

(** An [n]-byte big-endian field at offset [off]. *)
Definition field (bytes : list Z) (off n : nat) : Z := be_val (slice bytes off n).

(** [struct sdb_product] at [off]: 40 bytes, the last one the record type. *)
Definition eb_sdb_product_decode (bytes : list Z) (off : nat) : sdb_product :=
  mk_product (field bytes off 8) (field bytes (off + 8) 4) (field bytes (off + 12) 4) (field bytes (off + 16) 4)
    (slice bytes (off + 20) 19) (field bytes (off + 39) 1).

(** [struct sdb_component] at [off]: 56 bytes; addresses are relative to the bus. *)
Definition eb_sdb_component_decode (bytes : list Z) (off : nat) (bus_base : Z) : sdb_component :=
  mk_component (u64 (field bytes off 8 + bus_base)) (u64 (field bytes (off + 8) 8 + bus_base))
    (eb_sdb_product_decode bytes (off + 16)).

Definition record_type_of (bytes : list Z) : Z := field bytes 63 1.

(** One record of 64 bytes: the [switch] of [eb_sdb_decode]. *)
Definition decode_record (bus_base : Z) (bytes : list Z) : sdb_record :=
  let t := record_type_of bytes in
  if t =? sdb_record_device then
    RDevice (mk_sdb_device (field bytes 0 2) (field bytes 2 1) (field bytes 3 1) (field bytes 4 4)
      (eb_sdb_component_decode bytes 8 bus_base))
  else if t =? sdb_record_bridge then
    RBridge (mk_sdb_bridge (u64 (field bytes 0 8 + bus_base)) (eb_sdb_component_decode bytes 8 bus_base))
  else if t =? sdb_record_integration then
    RIntegration (eb_sdb_product_decode bytes 24)
  else ROther bytes.

Definition decode_interconnect (bus_base : Z) (bytes : list Z) : sdb_interconnect :=
  mk_sdb_interconnect (field bytes 0 4) (field bytes 4 2) (field bytes 6 1) (field bytes 7 1)
    (eb_sdb_component_decode bytes 8 bus_base).

(** The [n] records that follow. *)
Fixpoint decode_records (bus_base : Z) (n : nat) (bytes : list Z) : list sdb_record :=
  match n with
  | O => []
  | S n => decode_record bus_base (take 64 bytes) :: decode_records bus_base n (drop 64 bytes)
  end.

Section sdb.
Context {X : Type} `{Env X} `{Blocking X}.

(** * Collecting what was read *)

(** [(status, bytes written to ptr)]: -1 an operation failed, 1 there is more
    data than [max_len], 0 otherwise. *)
Fixpoint fill_loop (fuel : nat) (room : Z) (ops : Z) (acc : list Z) : M X (Z * list Z) :=
  if ops =? EB_NULL then ret (0, acc)
  else
    let* error := eb_operation_had_error ops in
    if negb (error =? 0) then ret (-1, acc)
    else
      let* data := eb_operation_data ops in
      let* format := eb_operation_format ops in
      let stride := format .& EB_DATAX in
      if room <? stride then ret (1, acc)
      else match fuel with
        | O => fault
        | S fuel =>
          let* next := eb_operation_next ops in
          fill_loop fuel (room - stride) next (acc ++ be_bytes (Z.to_nat stride) data)
        end.

Definition eb_sdb_fill_block (max_len : Z) (ops : Z) : M X (Z * list Z) :=
  let* n := pool_fuel in fill_loop n max_len ops [].

(** [for (; address < end; address += stride) eb_cycle_read(cycle, address, EB_DATAX, 0);]
    with [f] the kind of read. *)
Fixpoint read_range (f : Z -> Z -> Z -> Z -> M X unit) (fuel : nat) (cycle address last stride : Z) : M X unit :=
  if address <? last then
    match fuel with
    | O => fault
    | S fuel => f cycle address EB_DATAX 0 ;;; read_range f fuel cycle (u64 (address + stride)) last stride
    end
  else ret tt.

Definition read_block (f : Z -> Z -> Z -> Z -> M X unit) (cycle address last stride : Z) : M X unit :=
  read_range f (Z.to_nat (last - address)) cycle address last stride.

(** * Starting a scan *)

(** Start a cycle with callback [cb] that reads [len] bytes from [address]. *)
Definition read_header (device scanp : Z) (cb : eb_callback) (f : Z -> Z -> Z -> Z -> M X unit) (address len stride : Z)
    : M X Z :=
  let* ' (status, cycle) := eb_cycle_open device scanp (Some cb) in
  if negb (status =? EB_OK) then ret status
  else
    read_block f cycle address (u64 (address + len)) stride ;;;
    eb_cycle_close cycle ;;;
    ret EB_OK.

Definition eb_sdb_scan_bus (device : Z) (bridge : sdb_bridge) (data : Z) (cb : sdb_callback_t) : M X Z :=
  if negb (record_type (product (sb_comp bridge)) =? sdb_record_bridge) then ret EB_ADDRESS
  else
    let* scanp := eb_new in
    if scanp =? EB_NULL then ret EB_OOM
    else
      poke scanp (ISdbScan (mk_sdb_scan data cb (addr_first (sb_comp bridge)))) ;;;
      let* width := eb_device_width device in
      let* status := read_header device scanp cb_sdb_got_header eb_cycle_read (sdb_child bridge) 32 (width .& EB_DATAX) in
      if negb (status =? EB_OK) then eb_free scanp ;;; ret status else ret EB_OK.

(** The table's address is in the configuration space, bytes 8 to 15. *)
Definition eb_sdb_scan_root (device data : Z) (cb : sdb_callback_t) : M X Z :=
  let* scanp := eb_new in
  if scanp =? EB_NULL then ret EB_OOM
  else
    poke scanp (ISdbScan (mk_sdb_scan data cb 0)) ;;;
    let* width := eb_device_width device in
    let* status := read_header device scanp cb_sdb_got_header_ptr eb_cycle_read_config 8 8 (width .& EB_DATAX) in
    if negb (status =? EB_OK) then eb_free scanp ;;; ret status else ret EB_OK.

(** * Callbacks of the application *)

(** [struct eb_find_by_address] and [struct eb_find_by_identity] are local
    variables of the caller: their fields are consecutive words of memory, and
    the descriptors they point to are 64 bytes apart. *)
Definition fa_address (data : Z) : Z := data.
Definition fa_output (data : Z) : Z := data + 1.
Definition fa_status (data : Z) : Z := data + 2.
Definition fi_vendor_id (data : Z) : Z := data.
Definition fi_output (data : Z) : Z := data + 1.
Definition fi_device_id (data : Z) : Z := data + 2.
Definition fi_size (data : Z) : Z := data + 3.
Definition fi_fill (data : Z) : Z := data + 4.
Definition fi_pending (data : Z) : Z := data + 5.
Definition fi_status (data : Z) : Z := data + 6.

(** [memcpy(output, des, sizeof(struct sdb_device))] *)
Definition sdb_store (ptr : Z) (d : sdb_device) : M X unit := fun w =>
  Some (tt, mk_world (w_pool w) (w_user w) (<[ptr := d]> (w_sdb w)) (w_ext w)).

Definition within (addr : Z) (c : sdb_component) : bool := (addr_first c <=? addr) && (addr <=? addr_last c).

(** The first record that covers the address decides. *)
Fixpoint search_address (data dev address : Z) (l : list sdb_record) : M X unit :=
  match l with
  | [] => user_store (fa_status data) EB_ADDRESS
  | des :: l =>
      match des with
      | RBridge b =>
          if within address (sb_comp b) then
            let* status := eb_sdb_scan_bus dev b data cb_find_by_address in
            when (negb (status =? EB_OK)) (user_store (fa_status data) status)
          else search_address data dev address l
      | RDevice d =>
          if within address (sdb_comp d) then
            let* output := user_load (fa_output data) in
            sdb_store output d ;;; user_store (fa_status data) EB_OK
          else search_address data dev address l
      | _ => search_address data dev address l
      end
  end.

Definition eb_cb_find_by_address (data dev : Z) (sdb : option sdb_table) (status : Z) : M X unit :=
  if negb (status =? EB_OK) then user_store (fa_status data) status
  else
    let* sdb := lift sdb in
    let* address := user_load (fa_address data) in
    search_address data dev address (records sdb).

(** Descend into every bridge, count every device of the identity and keep the
    first [size] of them. *)
Fixpoint search_identity (data dev : Z) (l : list sdb_record) : M X unit :=
  match l with
  | [] => ret tt
  | des :: l =>
      match des with
      | RBridge b =>
          let* status := eb_sdb_scan_bus dev b data cb_find_by_identity in
          if status =? EB_OK then
            let* pending := user_load (fi_pending data) in user_store (fi_pending data) (pending + 1)
          else user_store (fi_status data) status
      | RDevice d =>
          let* vendor := user_load (fi_vendor_id data) in
          let* id := user_load (fi_device_id data) in
          when ((vendor_id (product (sdb_comp d)) =? vendor) && (device_id (product (sdb_comp d)) =? id))
            (let* fill := user_load (fi_fill data) in
             let* n := user_load (fi_size data) in
             let* output := user_load (fi_output data) in
             when (fill <? n) (sdb_store (output + fill * 64) d) ;;;
             user_store (fi_fill data) (fill + 1))
      | _ => ret tt
      end ;;;
      search_identity data dev l
  end.

Definition eb_cb_find_by_identity (data dev : Z) (sdb : option sdb_table) (status : Z) : M X unit :=
  let* pending := user_load (fi_pending data) in
  user_store (fi_pending data) (pending - 1) ;;;
  if negb (status =? EB_OK) then user_store (fi_status data) status
  else
    let* sdb := lift sdb in
    search_identity data dev (records sdb).

Definition call_sdb (cb : sdb_callback_t) (data device : Z) (sdb : option sdb_table) (status : Z) : M X unit :=
  match cb with
  | cb_find_by_address => eb_cb_find_by_address data device sdb status
  | cb_find_by_identity => eb_cb_find_by_identity data device sdb status
  | cb_sdb_user f => e_sdb_callback f data device sdb status
  end.

(** * The steps of a scan *)

(** Hand the table to the application. The buffer of [size] bytes lies on the
    stack: bytes the operations did not fill in are undefined. *)
Definition eb_sdb_decode (scan : eb_sdb_scan) (device size ops : Z) : M X unit :=
  let* ' (st, buf) := eb_sdb_fill_block size ops in
  if negb (st =? 0) then call_sdb (sc_cb scan) (sc_user_data scan) device None EB_FAIL
  else if (length buf <? 64)%nat then fault
  else
    let head := decode_interconnect (sc_bus_base scan) (take 64 buf) in
    if size <? 64 * sdb_records head then call_sdb (sc_cb scan) (sc_user_data scan) device None EB_FAIL
    else
      let n := Z.to_nat (sdb_records head - 1) in
      if (length buf <? 64 + 64 * n)%nat then fault
      else call_sdb (sc_cb scan) (sc_user_data scan) device
             (Some (mk_sdb_table head (decode_records (sc_bus_base scan) n (drop 64 buf)))) EB_OK.

(** The smallest of the buffers [eb_sdb_decode4] to [eb_sdb_decode256] that holds
    so many devices. *)
Definition decode_size (devices : Z) : option Z :=
  option_map (fun x => 64 * (x + 1)) (List.find (fun x => devices <? x) [4; 8; 16; 32; 64; 128; 256]).

Definition eb_sdb_got_all (mydata device ops status : Z) : M X unit :=
  let scanp := u16 mydata in
  let* scan := EB_SDB_SCAN scanp in
  let cb := sc_cb scan in let data := sc_user_data scan in
  if negb (status =? EB_OK) then
    eb_free scanp ;;; call_sdb cb data device None status
  else
    let* ' (st, header) := eb_sdb_fill_block 64 ops in
    if negb (st =? 1) then
      eb_free scanp ;;; call_sdb cb data device None EB_FAIL
    else if (length header <? 6)%nat then fault
    else
      let devices := u16 (field header 4 2 - 1) in
      match decode_size devices with
      | Some size => eb_sdb_decode scan device size ops
      | None => call_sdb cb data device None EB_OOM
      end ;;;
      eb_free scanp.

Definition eb_sdb_got_header (mydata device ops status : Z) : M X unit :=
  let scanp := u16 mydata in
  let* scan := EB_SDB_SCAN scanp in
  let cb := sc_cb scan in let data := sc_user_data scan in
  let* width := eb_device_width device in
  if negb (status =? EB_OK) then
    eb_free scanp ;;; call_sdb cb data device None status
  else
    let* ' (st, header) := eb_sdb_fill_block 64 ops in
    if negb (st =? 0) then
      eb_free scanp ;;; call_sdb cb data device None EB_FAIL
    else if (length header <? 6)%nat then fault
    else if negb (field header 0 4 =? SDB_MAGIC) then
      eb_free scanp ;;; call_sdb cb data device None EB_FAIL
    else
      let* address := eb_operation_address ops in
      let* status := read_header device scanp cb_sdb_got_all eb_cycle_read address (field header 4 2 .<< 6) (width .& EB_DATAX) in
      when (negb (status =? EB_OK)) (eb_free scanp ;;; call_sdb cb data device None status).

(** The address is read in pieces of the bus width: [None] if one failed. *)
Fixpoint header_address (fuel : nat) (stride ops address : Z) : M X (option Z) :=
  if ops =? EB_NULL then ret (Some address)
  else match fuel with
    | O => fault
    | S fuel =>
      let* error := eb_operation_had_error ops in
      if negb (error =? 0) then ret None
      else
        let* data := eb_operation_data ops in
        let* next := eb_operation_next ops in
        header_address fuel stride next (u64 (u64 (address .<< (stride * 8)) + data))
    end.

Definition eb_sdb_got_header_ptr (mydata device ops status : Z) : M X unit :=
  let scanp := u16 mydata in
  let* scan := EB_SDB_SCAN scanp in
  let cb := sc_cb scan in let data := sc_user_data scan in
  let* width := eb_device_width device in
  let stride := width .& EB_DATAX in
  if negb (status =? EB_OK) then
    eb_free scanp ;;; call_sdb cb data device None status
  else
    let* n := pool_fuel in
    let* address := header_address n stride ops 0 in
    match address with
    | None => eb_free scanp ;;; call_sdb cb data device None EB_FAIL
    | Some address =>
        let* status := read_header device scanp cb_sdb_got_header eb_cycle_read address 32 stride in
        when (negb (status =? EB_OK)) (eb_free scanp ;;; call_sdb cb data device None status)
    end.

(** * Searching *)

(** The first of [n] words of memory no one else uses. *)
Definition fresh_block : M X Z := gets (fun w => 1 + set_fold Z.max 0 (dom (w_user w))).

(** [while (flag > 0) eb_socket_run(socket, -1);] *)
Fixpoint wait_positive (fuel : nat) (device flag : Z) : M X unit :=
  let* v := user_load flag in
  if 0 <? v then
    match fuel with
    | O => fault
    | S fuel =>
      let* socket := eb_device_socket device in
      b_run socket (-1) ;;; wait_positive fuel device flag
    end
  else ret tt.

Definition eb_sdb_find_by_address (device address output : Z) : M X Z :=
  let* data := fresh_block in
  user_store (fa_address data) address ;;;
  user_store (fa_output data) output ;;;
  let* status := eb_sdb_scan_root device data cb_find_by_address in
  user_store (fa_status data) status ;;;
  when (status =? EB_OK) (user_store (fa_status data) 1 ;;; wait_positive b_fuel device (fa_status data)) ;;;
  user_load (fa_status data).

(** Returns the status and the number of devices found. *)
Definition eb_sdb_find_by_identity (device vendor_id device_id output devices : Z) : M X (Z * Z) :=
  let* data := fresh_block in
  user_store (fi_vendor_id data) vendor_id ;;;
  user_store (fi_device_id data) device_id ;;;
  user_store (fi_size data) devices ;;;
  user_store (fi_fill data) 0 ;;;
  user_store (fi_pending data) 1 ;;;
  user_store (fi_output data) output ;;;
  let* status := eb_sdb_scan_root device data cb_find_by_identity in
  user_store (fi_status data) status ;;;
  when (status =? EB_OK) (wait_positive b_fuel device (fi_pending data)) ;;;
  let* fill := user_load (fi_fill data) in
  let* status := user_load (fi_status data) in
  ret (status, fill).
End sdb.

(** The library's callbacks and those of the application. *)
#[export] Instance library_callbacks {X} `{Env X} `{Blocking X} : Callbacks X := {|
  call cb user device op status :=
    match cb with
    | cb_block_f => eb_block_f user device op status
    | cb_sdb_got_header_ptr => eb_sdb_got_header_ptr user device op status
    | cb_sdb_got_header => eb_sdb_got_header user device op status
    | cb_sdb_got_all => eb_sdb_got_all user device op status
    | cb_user f => e_callback f user device op status
    end |}.

(** * Decoding what a bus serves *)

Section layout.
Context {X : Type} `{Env X}.

(** A descriptor as the reader of a table sees it: every field at its width, the
    addresses shifted to the bus. *)
Definition component_seen (bus_base t : Z) (c : sdb_component) : sdb_component :=
  mk_component (u64 (addr_first c + bus_base)) (u64 (addr_last c + bus_base))
    (mk_product (u64 (vendor_id (product c))) (u32 (device_id (product c))) (u32 (sp_version (product c)))
      (u32 (sp_date (product c))) (sp_name (product c)) t).
Definition device_seen (bus_base : Z) (d : sdb_device) : sdb_device :=
  mk_sdb_device (u16 (abi_class d)) (abi_ver_major d) (abi_ver_minor d) (u32 (bus_specific d))
    (component_seen bus_base sdb_record_device (sdb_comp d)).
Definition bus_seen (bus_base devices : Z) : sdb_interconnect :=
  mk_sdb_interconnect SDB_MAGIC (u16 (devices + 1)) 1 0
    (component_seen bus_base sdb_record_interconnect
      (mk_component 0 (2 ^ 64 - 1) (mk_product 0x651 0x02398114 e_version e_date bus_name 0))).

Lemma slice_all l n : n = length l -> slice l 0 n = l.
Proof. intros ->. unfold slice. by rewrite drop_0, firstn_all. Qed.

Lemma slice_prefix l1 l2 n : n = length l1 -> slice (l1 ++ l2) 0 n = l1.
Proof. intros ->. rewrite slice_app_l by lia. by apply slice_all. Qed.

(** Find the part of a concatenation that a slice is about. *)
Ltac known_lengths :=
  rewrite ?length_be_bytes; repeat match goal with Hl : length ?l = _ |- context [length ?l] => rewrite Hl end;
  cbn [length Nat.sub Nat.add].
Ltac pick_slice :=
  repeat (first [rewrite slice_prefix by (known_lengths; reflexivity)
                |rewrite slice_all by (known_lengths; reflexivity)
                |rewrite slice_app_r by (known_lengths; lia)]; known_lengths).

Lemma component_roundtrip base (c : sdb_component) t pre :
  length pre = 8%nat -> length (sp_name (product c)) = 19%nat ->
  eb_sdb_component_decode (pre ++ component_bytes c t) 8 base = component_seen base t c.
Proof.
  intros Hp Hn. unfold eb_sdb_component_decode, eb_sdb_product_decode, component_bytes, field, component_seen.
  rewrite (take_ge (sp_name _)) by lia. cbn [Nat.add].
  pick_slice. rewrite !be_val_bytes. cbn [Z.of_nat Z.mul Pos.mul]. rewrite !wrap_add_l. reflexivity.
Qed.

Lemma record_roundtrip base d : name_ok d -> decode_record base (device_bytes d) = RDevice (device_seen base d).
Proof.
  intros Hn. unfold decode_record, record_type_of.
  assert (device_bytes d = (be_bytes 2 (abi_class d) ++ [abi_ver_major d; abi_ver_minor d] ++ be_bytes 4 (bus_specific d)) ++
            component_bytes (sdb_comp d) sdb_record_device) as E by (unfold device_bytes; by rewrite <- !app_assoc).
  set (pre := be_bytes 2 (abi_class d) ++ [abi_ver_major d; abi_ver_minor d] ++ be_bytes 4 (bus_specific d)) in E.
  assert (length pre = 8%nat) as Hp by (unfold pre; rewrite !length_app, !length_be_bytes; done).
  rewrite E. rewrite (component_roundtrip base _ _ pre Hp Hn).
  assert (field (pre ++ component_bytes (sdb_comp d) sdb_record_device) 63 1 = sdb_record_device) as ->.
  { unfold field, component_bytes. red in Hn. rewrite (take_ge (sp_name _)) by lia. pick_slice. reflexivity. }
  cbn [Z.eqb]. unfold device_seen. f_equal.
  unfold field. rewrite !slice_app_l by (rewrite Hp; lia). unfold pre.
  f_equal.
  - rewrite slice_prefix by (by rewrite length_be_bytes). by rewrite be_val_bytes.
  - pick_slice. by rewrite be_val_bytes.
Qed.

Lemma interconnect_roundtrip base n : decode_interconnect base (interconnect_bytes n) = bus_seen base n.
Proof.
  unfold decode_interconnect, interconnect_bytes, bus_seen.
  set (pre := be_bytes 4 SDB_MAGIC ++ be_bytes 2 (n + 1) ++ [1; 0]).
  assert (length pre = 8%nat) as Hp by (unfold pre; rewrite !length_app, !length_be_bytes; done).
  match goal with |- context [component_bytes ?c ?t] => set (comp := component_bytes c t) end.
  assert (be_bytes 4 SDB_MAGIC ++ be_bytes 2 (n + 1) ++ [1; 0] ++ comp = pre ++ comp) as ->
    by (unfold pre; by rewrite <- !app_assoc).
  unfold comp. rewrite component_roundtrip by done. fold comp. unfold field.
  rewrite !slice_app_l by (rewrite Hp; lia). unfold pre. f_equal; pick_slice; rewrite ?be_val_bytes; reflexivity.
Qed.

(** The table of a bus with these devices, read at [bus_base]. *)
Definition table_seen (bus_base : Z) (vs : list vdev) : sdb_table :=
  mk_sdb_table (bus_seen bus_base (Z.of_nat (length vs))) (map (fun v => RDevice (device_seen bus_base (v_sdb v))) vs).

Lemma records_roundtrip base vs : Forall (fun v => name_ok (v_sdb v)) vs ->
  decode_records base (length vs) (concat (map (fun v => device_bytes (v_sdb v)) vs)) =
  map (fun v => RDevice (device_seen base (v_sdb v))) vs.
Proof.
  induction 1 as [|v vs Hv _ IH]; [done|]. cbn [length decode_records map concat].
  pose proof (length_device_bytes _ Hv) as Hl.
  rewrite take_app_length', drop_app_length' by done. by rewrite record_roundtrip, IH.
Qed.
End layout.

(** * The last step of a scan *)

Section got_all.
Context {X : Type} `{Env X} `{Blocking X}.
Implicit Types (w : world X) (l : list node).

(** A read without error whose value came back in the operation. *)
Definition answered (size : nat) (o : eb_operation) : Prop :=
  had_error o = false /\ (op_flags o .& EB_OP_MASK) = EB_OP_READ_VAL /\ (op_format o .& EB_DATAX) = Z.of_nat size.

Lemma fill_loop_spec size n : forall room p acc l w, (0 < size)%nat -> 0 <= room ->
  chain (cells (w_pool w)) p l -> Forall (fun xo => answered size xo.2) l -> (length l <= n)%nat ->
  fill_loop n room p acc w =
    Some ((if Z.of_nat (length l * size) <=? room then 0 else 1,
           acc ++ concat (map (fun xo => be_bytes size (op_value xo.2)) (take (Z.to_nat (room / Z.of_nat size)) l))), w).
Proof.
  induction n as [|n IH]; intros room p acc [|[x o] l] w Hs Hr Hc Hl Hn; cbn in Hn; try lia.
  1, 2: cbn in Hc; subst p; cbn [fill_loop]; rewrite Z.eqb_refl, take_nil; cbn [map concat]; rewrite app_nil_r;
    change (Z.of_nat (length (@nil node) * size)) with 0; by rewrite (proj2 (Z.leb_le 0 room) Hr).
  destruct Hc as (-> & Hx & k & E & Hc). apply Forall_cons in Hl as [(He & Hf & Hz) Hl]. cbn [fst snd] in *.
  cbn [fill_loop]. rewrite (proj2 (Z.eqb_neq _ EB_NULL)) by done.
  unfold eb_operation_had_error, eb_operation_data, eb_operation_format, eb_operation_next.
  mstep (EB_OPERATION_some _ _ _ E). change (had_error (set_next k o)) with (had_error o). rewrite He.
  rewrite bind_ret. cbn [c_bool]. change (negb (0 =? 0)) with false. cbv iota.
  mstep (EB_OPERATION_some _ _ _ E). change (op_flags (set_next k o)) with (op_flags o).
  cbv zeta. rewrite Hf. change (EB_OP_READ_VAL =? EB_OP_WRITE) with false.
  change (EB_OP_READ_VAL =? EB_OP_READ_PTR) with false. change (EB_OP_READ_VAL =? EB_OP_READ_VAL) with true.
  cbv iota. rewrite bind_ret.
  mstep (EB_OPERATION_some _ _ _ E). rewrite bind_ret. change (op_format (set_next k o)) with (op_format o).
  change (op_value (set_next k o)) with (op_value o). rewrite Hz, Nat2Z.id.
  destruct (Z.ltb_spec room (Z.of_nat size)) as [Hlt|Hge].
  - rewrite Z.div_small by lia. cbn [Z.to_nat take map concat]. rewrite app_nil_r.
    rewrite (proj2 (Z.leb_gt _ _)) by (cbn [length Nat.mul]; lia). done.
  - mstep (EB_OPERATION_some _ _ _ E). rewrite bind_ret. change (op_next (set_next k o)) with k.
    rewrite (IH (room - Z.of_nat size) _ _ l w Hs ltac:(lia) Hc Hl ltac:(lia)). do 3 f_equal.
    + destruct (Z.leb_spec (Z.of_nat (length l * size)) (room - Z.of_nat size)), (Z.leb_spec (Z.of_nat (length ((x, o) :: l) * size)) room); cbn [length Nat.mul] in *; (done || lia).
    + assert (Z.to_nat (room / Z.of_nat size) = S (Z.to_nat ((room - Z.of_nat size) / Z.of_nat size))) as ->.
      { replace (room - Z.of_nat size) with (room + (-1) * Z.of_nat size) by lia.
        rewrite Z.div_add by lia. assert (1 <= room / Z.of_nat size) by (apply Z.div_le_lower_bound; lia). lia. }
      cbn [take map concat snd]. by rewrite <- app_assoc.
Qed.

(** The words read from consecutive addresses, put together again. *)
Lemma concat_slices (tb : list Z) size m : (m * size <= length tb)%nat ->
  concat (map (fun i => slice tb (i * size) size) (seq 0 m)) = take (m * size) tb.
Proof.
  induction m as [|m IH]; intros Hm; [done|]. rewrite seq_S, map_app, concat_app, IH by lia.
  cbn [map concat Nat.add]. rewrite app_nil_r. unfold slice. rewrite take_take_drop. f_equal. lia.
Qed.

Lemma concat_words (tb : list Z) size l m :
  bytes_ok tb -> map (fun xo : node => op_value xo.2) l = map (fun i => be_val (slice tb (i * size) size)) (seq 0 m) ->
  (m * size <= length tb)%nat -> forall j, (j <= m)%nat ->
  concat (map (fun xo : node => be_bytes size (op_value xo.2)) (take j l)) = take (j * size) tb.
Proof.
  intros Hb Hv Hm j Hj.
  rewrite <- (map_map (fun xo : node => op_value xo.2) (be_bytes size)), <- firstn_map, Hv, firstn_map.
  rewrite take_seq, Nat.min_l by done. rewrite map_map, <- concat_slices by nia. f_equal. apply map_ext_in.
  intros i Hi. apply in_seq in Hi. assert (length (slice tb (i * size) size) = size) as Hlen by (apply length_slice; nia).
  rewrite <- Hlen at 1. apply be_bytes_val. unfold slice. by apply Forall_take, Forall_drop.
Qed.

Lemma decode_size_some n : (n < 256)%nat ->
  exists size, decode_size (Z.of_nat n) = Some size /\ 64 * Z.of_nat (1 + n) <= size < 2 ^ 16.
Proof.
  intros Hn. assert (forallb (fun n => match decode_size (Z.of_nat n) with
    | Some size => (64 * Z.of_nat (1 + n) <=? size) && (size <? 2 ^ 16) | None => false end) (seq 0 256) = true) as Hall
    by (vm_compute; reflexivity).
  rewrite forallb_forall in Hall. specialize (Hall n ltac:(apply in_seq; lia)).
  destruct (decode_size (Z.of_nat n)) as [size|]; [|done]. exists size. bool_hyps. split; [done|lia].
Qed.

Lemma length_table vs : Forall (fun v => name_ok (v_sdb v)) vs -> length (table_bytes vs) = (64 * (1 + length vs))%nat.
Proof.
  intros Hn. unfold table_bytes. rewrite length_app, length_interconnect.
  assert (length (concat (map (fun v => device_bytes (v_sdb v)) vs)) = (64 * length vs)%nat) as ->; [|lia].
  induction Hn as [|v vs Hv _ IH]; [done|]. cbn [map concat]. rewrite length_app, length_device_bytes, IH by done. cbn. lia.
Qed.

Lemma table_ok vs : Forall (fun v => sdb_device_ok (v_sdb v)) vs -> bytes_ok (table_bytes vs).
Proof.
  intros Hv. unfold table_bytes. apply Forall_app. split; [apply interconnect_bytes_ok|].
  induction Hv as [|v vs Hv _ IH]; [constructor|]. cbn [map concat]. apply Forall_app. split; [by apply device_bytes_ok|done].
Qed.

(** Decoding the table out of any buffer that is large enough. *)
Lemma decode_spec (scan : eb_sdb_scan) device bsize ops size l vs w :
  (0 < size)%nat -> chain (cells (w_pool w)) ops l -> Forall (fun xo => answered size xo.2) l ->
  Forall (fun v => sdb_device_ok (v_sdb v)) vs -> (length l * size = 64 * (1 + length vs))%nat ->
  map (fun xo : node => op_value xo.2) l = map (fun i => be_val (slice (table_bytes vs) (i * size) size)) (seq 0 (length l)) ->
  64 * Z.of_nat (1 + length vs) <= bsize < 2 ^ 16 -> (length vs < 256)%nat ->
  eb_sdb_decode scan device bsize ops w =
    call_sdb (sc_cb scan) (sc_user_data scan) device (Some (table_seen (sc_bus_base scan) vs)) EB_OK w.
Proof.
  intros Hs Hc Ha Hok Hlen Hv Hb Hn. assert (Forall (fun v => name_ok (v_sdb v)) vs) as Hnames
    by (eapply Forall_impl; [exact Hok|]; by intros v []).
  pose proof (length_table vs Hnames) as Hlt. unfold eb_sdb_decode, eb_sdb_fill_block, pool_fuel, gets.
  rewrite bind_assoc. rewrite bind_some with (a := base.size (cells (w_pool w))) (w' := w) by done.
  mstep (fill_loop_spec size _ bsize ops [] l w Hs ltac:(lia) Hc Ha (chain_length _ _ _ Hc)).
  rewrite (proj2 (Z.leb_le _ bsize)) by lia. change (negb (0 =? 0)) with false. cbv iota. cbn [app].
  assert (length l <= Z.to_nat (bsize / Z.of_nat size))%nat as Htake.
  { apply Nat2Z.inj_le. rewrite Z2Nat.id by (apply Z.div_pos; lia). apply Z.div_le_lower_bound; lia. }
  rewrite (take_ge l) by done.
  assert (concat (map (fun xo : node => be_bytes size (op_value xo.2)) l) = table_bytes vs) as ->.
  { rewrite <- (firstn_all l) at 1. rewrite (concat_words (table_bytes vs) size l (length l)); [|by apply table_ok|done|lia|lia].
    apply take_ge. lia. }
  rewrite Hlt, (proj2 (Nat.ltb_ge _ 64)) by lia.
  assert (take 64 (table_bytes vs) = interconnect_bytes (Z.of_nat (length vs)) /\
          drop 64 (table_bytes vs) = concat (map (fun v => device_bytes (v_sdb v)) vs)) as [-> ->].
  { unfold table_bytes. split; [by apply take_app_length'; rewrite length_interconnect|by apply drop_app_length'; rewrite length_interconnect]. }
  rewrite interconnect_roundtrip. cbn [sdb_records bus_seen].
  rewrite (wrap_small 16) by lia. rewrite (proj2 (Z.ltb_ge bsize _)) by lia.
  replace (Z.to_nat (Z.of_nat (length vs) + 1 - 1)) with (length vs) by lia.
  rewrite (proj2 (Nat.ltb_ge _ _)) by lia. rewrite records_roundtrip by done. done.
Qed.

(** The table is read word by word, [size] bytes at a time. *)
Record table_read (size : nat) (ops : Z) l vs w : Prop := {
  tr_size : In size [1; 2; 4; 8]%nat;
  tr_chain : chain (cells (w_pool w)) ops l;
  tr_answered : Forall (fun xo => answered size xo.2) l;
  tr_length : (length l * size = 64 * (1 + length vs))%nat;
  tr_values : map (fun xo : node => op_value xo.2) l =
              map (fun i => be_val (slice (table_bytes vs) (i * size) size)) (seq 0 (length l)) }.

(** C24: what a library serves as its device table, read word by word at any bus
    width, is decoded by the scan of another into the descriptors of exactly the
    devices attached, in order, with their addresses moved to where the bus is;
    the scan record is released afterwards. *)
Theorem scan_decodes_served_table (mydata device ops : Z) (scan : eb_sdb_scan) (size : nat) l vs w
    (Hscan : cells (w_pool w) !! u16 mydata = Some (ISdbScan scan))
    (Hread : table_read size ops l vs w)
    (Hok : Forall (fun v => sdb_device_ok (v_sdb v)) vs) (Hn : (1 <= length vs < 256)%nat) :
  eb_sdb_got_all mydata device ops EB_OK w =
  (call_sdb (sc_cb scan) (sc_user_data scan) device (Some (table_seen (sc_bus_base scan) vs)) EB_OK ;;;
   eb_free (u16 mydata)) w.
Proof.
  destruct Hread as [Hs Hc Ha Hlen Hv]. assert (0 < size)%nat as Hs0 by (cbn in Hs; lia).
  assert (Forall (fun v => name_ok (v_sdb v)) vs) as Hnames by (eapply Forall_impl; [exact Hok|]; by intros v []).
  pose proof (length_table vs Hnames) as Hlt.
  unfold eb_sdb_got_all, EB_SDB_SCAN. mstep (peek_some _ _ _ Hscan). rewrite bind_ret.
  change (negb (EB_OK =? EB_OK)) with false. cbv iota zeta.
  unfold eb_sdb_fill_block, pool_fuel, gets. rewrite bind_assoc.
  rewrite bind_some with (a := base.size (cells (w_pool w))) (w' := w) by done.
  mstep (fill_loop_spec size _ 64 ops [] l w Hs0 ltac:(lia) Hc Ha (chain_length _ _ _ Hc)).
  rewrite (proj2 (Z.leb_gt _ 64)) by lia. change (negb (1 =? 1)) with false. cbv iota. cbn [app].
  assert (exists j, Z.to_nat (64 / Z.of_nat size) = j /\ (j * size = 64)%nat) as (j & -> & Hj).
  { destruct Hs as [<-|[<-|[<-|[<-|[]]]]]; eexists; split; reflexivity. }
  rewrite (concat_words (table_bytes vs) size l (length l)), Hj; [|by apply table_ok|done|lia|nia].
  assert (take 64 (table_bytes vs) = interconnect_bytes (Z.of_nat (length vs))) as ->
    by (unfold table_bytes; apply take_app_length'; by rewrite length_interconnect).
  rewrite length_interconnect. change (64 <? 6)%nat with false. cbv iota.
  assert (field (interconnect_bytes (Z.of_nat (length vs))) 4 2 = u16 (Z.of_nat (length vs) + 1)) as ->.
  { exact (f_equal sdb_records (interconnect_roundtrip 0 (Z.of_nat (length vs)))). }
  rewrite wrap_sub_l, wrap_small by lia. replace (Z.of_nat (length vs) + 1 - 1) with (Z.of_nat (length vs)) by lia.
  destruct (decode_size_some (length vs) ltac:(lia)) as (bsize & -> & Hb).
  unfold bind. by rewrite (decode_spec scan device bsize ops size l vs w Hs0 Hc Ha Hok Hlen Hv Hb (proj2 Hn)).
Qed.

(** A bus without devices is reported as a failure: its table is no longer than
    the head. *)
Lemma empty_bus_scan_fails (mydata device ops : Z) (scan : eb_sdb_scan) (size : nat) l w
    (Hscan : cells (w_pool w) !! u16 mydata = Some (ISdbScan scan)) (Hread : table_read size ops l [] w) :
  eb_sdb_got_all mydata device ops EB_OK w =
  (eb_free (u16 mydata) ;;; call_sdb (sc_cb scan) (sc_user_data scan) device None EB_FAIL) w.
Proof.
  destruct Hread as [Hs Hc Ha Hlen Hv]. assert (0 < size)%nat as Hs0 by (cbn in Hs; lia).
  unfold eb_sdb_got_all, EB_SDB_SCAN. mstep (peek_some _ _ _ Hscan). rewrite bind_ret.
  change (negb (EB_OK =? EB_OK)) with false. cbv iota zeta.
  unfold eb_sdb_fill_block, pool_fuel, gets. rewrite bind_assoc.
  rewrite bind_some with (a := base.size (cells (w_pool w))) (w' := w) by done.
  mstep (fill_loop_spec size _ 64 ops [] l w Hs0 ltac:(lia) Hc Ha (chain_length _ _ _ Hc)).
  cbn [length] in Hlen. by rewrite (proj2 (Z.leb_le _ 64)) by lia.
Qed.
End got_all.

(** * What is read *)

Section ranges.
Context {X : Type} `{Env X} `{Blocking X}.
Implicit Types w : world X.

(** A block of [n] words of [stride] bytes below the end of the address space is
    read word by word. *)
Lemma read_block_words f cycle address stride n w :
  0 < stride -> 0 <= address -> address + Z.of_nat n * stride < 2 ^ 64 ->
  read_block f cycle address (address + Z.of_nat n * stride) stride w =
  mapM_ (fun i => f cycle (address + Z.of_nat i * stride) EB_DATAX 0) (seq 0 n) w.
Proof.
  intros Hs Ha Hmax. unfold read_block.
  assert (n <= Z.to_nat (address + Z.of_nat n * stride - address))%nat as Hfuel by nia.
  revert Hfuel. generalize (Z.to_nat (address + Z.of_nat n * stride - address)). intros fuel.
  assert (forall k j w, (j + k = n)%nat -> forall fuel, (k <= fuel)%nat ->
    read_range f fuel cycle (address + Z.of_nat j * stride) (address + Z.of_nat n * stride) stride w =
    mapM_ (fun i => f cycle (address + Z.of_nat i * stride) EB_DATAX 0) (seq j k) w) as Hloop.
  { induction k as [|k IH]; intros j w' Hj fuel' Hf.
    - replace j with n by lia. destruct fuel' as [|fuel']; cbn [read_range seq mapM_]; by rewrite Z.ltb_irrefl.
    - destruct fuel' as [|fuel']; [lia|]. cbn [read_range seq mapM_].
      rewrite (proj2 (Z.ltb_lt _ _)) by nia. unfold bind.
      destruct (f cycle (address + Z.of_nat j * stride) EB_DATAX 0 w') as [[[] w1]|]; [|done].
      rewrite wrap_small by nia. replace (address + Z.of_nat j * stride + stride) with (address + Z.of_nat (S j) * stride) by lia.
      apply IH; lia. }
  intros Hf. specialize (Hloop n 0%nat w eq_refl fuel Hf). by rewrite Z.mul_0_l, Z.add_0_r in Hloop.
Qed.

(** Every step of a scan opens a cycle on the device, reads its block one bus
    word at a time, every address of the block once and in order, and closes the
    cycle; if no cycle can be opened nothing is read and the status is returned. *)
Theorem scan_reads_block (device scanp : Z) (cb : eb_callback) (f : Z -> Z -> Z -> Z -> M X unit)
    (address : Z) (size n : nat) w
    (Hs : (0 < size)%nat) (Ha : 0 <= address) (Hmax : address + Z.of_nat (n * size) < 2 ^ 64) :
  read_header device scanp cb f address (Z.of_nat (n * size)) (Z.of_nat size) w =
  (let* ' (status, cycle) := eb_cycle_open device scanp (Some cb) in
   if negb (status =? EB_OK) then ret status
   else
     mapM_ (fun i => f cycle (address + Z.of_nat i * Z.of_nat size) EB_DATAX 0) (seq 0 n) ;;;
     eb_cycle_close cycle ;;;
     ret EB_OK) w.
Proof.
  unfold read_header. unfold bind. destruct (eb_cycle_open device scanp (Some cb) w) as [[[status cycle] w1]|]; [|done].
  destruct (negb (status =? EB_OK)); [done|]. rewrite (wrap_small 64) by lia. rewrite Nat2Z.inj_mul in *.
  by rewrite read_block_words by lia.
Qed.
End ranges.

(** * Searching the table *)

Section search.
Context {X : Type} `{Env X} `{Blocking X}.
Implicit Types w : world X.

Definition with_user (u : gmap Z Z) w : world X := mk_world (w_pool w) u (w_sdb w) (w_ext w).
Definition with_sdb (m : gmap Z sdb_device) w : world X := mk_world (w_pool w) (w_user w) m (w_ext w).

Lemma user_load_some ptr v w : w_user w !! ptr = Some v -> user_load ptr w = Some (v, w).
Proof. intros E. unfold user_load. by rewrite E. Qed.

(** The record covers the address. *)
Definition covers (address : Z) (r : sdb_record) : bool :=
  match r with
  | RDevice d => within address (sdb_comp d)
  | RBridge b => within address (sb_comp b)
  | _ => false
  end.

(** A search by address is decided by the first record that covers the
    address: a device is stored and the search ends well, a bridge continues it
    on the bus behind, and if there is none it ends with [EB_ADDRESS]; an error
    of the scan is passed on. *)
Theorem address_search_first (data dev address output status : Z) (table : sdb_table) w
    (Ha : w_user w !! fa_address data = Some address) (Ho : w_user w !! fa_output data = Some output) :
  eb_cb_find_by_address data dev (Some table) status w =
  if negb (status =? EB_OK) then user_store (fa_status data) status w
  else match List.find (covers address) (records table) with
       | Some (RDevice d) => user_store (fa_status data) EB_OK (with_sdb (<[output := d]> (w_sdb w)) w)
       | Some (RBridge b) =>
           (let* status := eb_sdb_scan_bus dev b data cb_find_by_address in
            when (negb (status =? EB_OK)) (user_store (fa_status data) status)) w
       | _ => user_store (fa_status data) EB_ADDRESS w
       end.
Proof.
  unfold eb_cb_find_by_address. destruct (negb (status =? EB_OK)); [done|].
  cbn [lift]. rewrite bind_ret. mstep (user_load_some _ _ _ Ha).
  induction (records table) as [|r l IH]; [done|]. cbn [search_address List.find covers].
  destruct r as [d|b|p|bs]; cbn [covers]; [| |exact IH|exact IH].
  - destruct (within address (sdb_comp d)); [|exact IH]. by mstep (user_load_some _ _ _ Ho).
  - destruct (within address (sb_comp b)); [done|exact IH].
Qed.

Definition matching (vendor id : Z) (r : sdb_record) : option sdb_device :=
  match r with
  | RDevice d => if (vendor_id (product (sdb_comp d)) =? vendor) && (device_id (product (sdb_comp d)) =? id)
                 then Some d else None
  | _ => None
  end.
Definition is_bridge (r : sdb_record) : bool := match r with RBridge _ => true | _ => false end.

(** The descriptors [ds] stored from entry [fill] of an array of [n]. *)
Fixpoint store_found (output fill n : Z) (ds : list sdb_device) (m : gmap Z sdb_device) : gmap Z sdb_device :=
  match ds with
  | [] => m
  | d :: ds => store_found output (fill + 1) n ds (if fill <? n then <[output + fill * 64 := d]> m else m)
  end.

Lemma store_found_below output n ds p : forall fill m,
  (forall i, fill <= i < n -> p <> output + i * 64) -> store_found output fill n ds m !! p = m !! p.
Proof.
  induction ds as [|d ds IH]; intros fill m Hne; [done|]. cbn [store_found].
  rewrite IH by (intros i Hi; apply Hne; lia). destruct (Z.ltb_spec fill n); [|done].
  rewrite lookup_insert_ne; [done|]. intros Heq. by apply (Hne fill); [lia|].
Qed.

Lemma store_found_get output n ds : forall fill m i d, ds !! i = Some d -> fill + Z.of_nat i < n ->
  store_found output fill n ds m !! (output + (fill + Z.of_nat i) * 64) = Some d.
Proof.
  induction ds as [|e ds IH]; intros fill m i d Hd Hlt; [done|]. cbn [store_found]. destruct i as [|i].
  - injection Hd as ->. rewrite (proj2 (Z.ltb_lt _ _)) by lia. rewrite store_found_below by lia.
    rewrite Z.add_0_r. apply lookup_insert_eq.
  - replace (fill + Z.of_nat (S i)) with (fill + 1 + Z.of_nat i) by lia. apply IH; [done|lia].
Qed.

Lemma search_identity_run data dev vendor id n output l : forall fill w,
  forallb (fun r => negb (is_bridge r)) l = true ->
  w_user w !! fi_vendor_id data = Some vendor -> w_user w !! fi_device_id data = Some id ->
  w_user w !! fi_size data = Some n -> w_user w !! fi_output data = Some output -> w_user w !! fi_fill data = Some fill ->
  exists w', search_identity data dev l w = Some (tt, w') /\ w_pool w' = w_pool w /\
    w_user w' !! fi_fill data = Some (fill + Z.of_nat (length (omap (matching vendor id) l))) /\
    w_sdb w' = store_found output fill n (omap (matching vendor id) l) (w_sdb w).
Proof.
  induction l as [|r l IH]; intros fill w Hb Hv Hi Hn Ho Hf.
  - exists w. cbn. split_and!; try done. by rewrite Z.add_0_r.
  - cbn [forallb] in Hb. apply andb_prop in Hb as [Hr Hb].
    destruct r as [d|b|p|bs]; [|discriminate Hr| |]; cbn [search_identity omap list_omap matching];
      [|unfold bind at 1; cbn [ret]; by apply IH..].
    mstep (user_load_some _ _ _ Hv). mstep (user_load_some _ _ _ Hi).
    destruct (_ && _); cbn [when]; [|rewrite bind_ret; by apply IH].
    mstep (user_load_some _ _ _ Hf). mstep (user_load_some _ _ _ Hn). mstep (user_load_some _ _ _ Ho).
    set (w1 := if fill <? n then with_sdb (<[output + fill * 64 := d]> (w_sdb w)) w else w).
    assert (when (fill <? n) (sdb_store (output + fill * 64) d) w = Some (tt, w1)) as R1
      by (unfold w1; by destruct (fill <? n)).
    mstep R1. assert (w_user w1 = w_user w /\ w_pool w1 = w_pool w) as [Hu1 Hp1] by (unfold w1; by destruct (fill <? n)).
    rewrite (bind_some _ _ _ tt (with_user (<[fi_fill data := fill + 1]> (w_user w1)) w1)) by done.
    destruct (IH (fill + 1) (with_user (<[fi_fill data := fill + 1]> (w_user w1)) w1) Hb) as (w' & R & Hp & Hu & Hsd);
      [cbn; rewrite Hu1, lookup_insert_ne by (unfold fi_fill, fi_vendor_id, fi_device_id, fi_size, fi_output; lia); done..
      |cbn; by rewrite lookup_insert_eq|].
    exists w'. split; [exact R|]. split; [by rewrite Hp|]. split.
    + rewrite Hu. cbn [length]. f_equal. lia.
    + rewrite Hsd. cbn [store_found]. f_equal. unfold w1. by destruct (fill <? n).
Qed.

(** A search by identity on a bus without bridges counts every matching
    device, also those the array has no room for, and stores the first of them in
    order, never beyond the end of the array. *)
Theorem identity_search_counts (data dev vendor id n output : Z) (l : list sdb_record) w
    (Hv : w_user w !! fi_vendor_id data = Some vendor) (Hi : w_user w !! fi_device_id data = Some id)
    (Hn : w_user w !! fi_size data = Some n) (Ho : w_user w !! fi_output data = Some output)
    (Hf : w_user w !! fi_fill data = Some 0) (Hb : forallb (fun r => negb (is_bridge r)) l = true) :
  let ds := omap (matching vendor id) l in
  exists w', search_identity data dev l w = Some (tt, w') /\ w_pool w' = w_pool w /\
    w_user w' !! fi_fill data = Some (Z.of_nat (length ds)) /\
    (forall i d, ds !! i = Some d -> Z.of_nat i < n -> w_sdb w' !! (output + Z.of_nat i * 64) = Some d) /\
    (forall p, (forall i, 0 <= i < n -> p <> output + i * 64) -> w_sdb w' !! p = w_sdb w !! p).
Proof.
  intros ds. destruct (search_identity_run data dev vendor id n output l 0 w Hb Hv Hi Hn Ho Hf) as (w' & R & Hp & Hu & Hsd).
  exists w'. split_and!; try done.
  - intros i d Hd Hlt. rewrite Hsd. by apply (store_found_get output n ds 0).
  - intros p Hne. rewrite Hsd. by apply store_found_below.
Qed.
End search.

(** ** Instances *)

Section sample.
Import Sample.
#[local] Instance idle : Blocking ext := {| b_run _ _ := ret 0; b_fuel := 3 |}.

(** The table of the bus with one device, read in words of 8 bytes into the
    operations 1 to 16; cell 0 is the scan record. *)
Definition table_op (i : nat) : eb_operation :=
  mk_operation (Z.of_nat i * 8) (be_val (slice (table_bytes [led_dev]) (i * 8) 8)) EB_OP_READ_VAL 8
    (if (i <? 15)%nat then Z.of_nat i + 2 else EB_NULL).
Definition table_cells : list item :=
  ISdbScan (mk_sdb_scan 77 (cb_sdb_user 9) 0x100000) :: map (fun i => IOperation (table_op i)) (seq 0 16).
Definition table_ops : list node := map (fun i => (Z.of_nat i + 1, table_op i)) (seq 0 16).
Definition scan_world : world ext := world_of table_cells [].

Lemma table_walk : walk 20 (cells (w_pool scan_world)) 1 = Some table_ops.
Proof. vm_compute. reflexivity. Qed.

Lemma led_ok : Forall (fun v => sdb_device_ok (v_sdb v)) [led_dev].
Proof.
  constructor; [|constructor]. split; [reflexivity| |cbn; lia|cbn; lia].
  cbn [product sdb_comp v_sdb led_dev led sp_name]. apply Forall_replicate. lia.
Qed.

Lemma table_is_read : table_read 8 1 table_ops [led_dev] scan_world.
Proof.
  split; [cbn; tauto|exact (walk_sound _ _ _ _ table_walk)| |reflexivity|vm_compute; reflexivity].
  unfold table_ops. apply Forall_map, Forall_forall. intros i _. split; [reflexivity|]. split; reflexivity.
Qed.

Lemma scan_decodes_served_table_witness :
  eb_sdb_got_all 0 3 1 EB_OK scan_world =
    (call_sdb (cb_sdb_user 9) 77 3 (Some (table_seen 0x100000 [led_dev])) EB_OK ;;; eb_free 0) scan_world /\
  run (eb_sdb_got_all 0 3 1 EB_OK) scan_world =
    Some (tt, [Sdb_callback 9 77 3 (Some (table_seen 0x100000 [led_dev])) EB_OK]).
Proof.
  split; [|vm_compute; reflexivity].
  exact (scan_decodes_served_table 0 3 1 (mk_sdb_scan 77 (cb_sdb_user 9) 0x100000) 8 table_ops [led_dev] scan_world
    eq_refl table_is_read led_ok ltac:(cbn; lia)).
Defined.

(** An active device on a 32-bit bus. *)
Definition active_world : world ext :=
  world_of [ISocket (mk_socket 1 EB_NULL EB_NULL EB_NULL EB_NULL 0x44); IDevice (mk_device 0 EB_NULL EB_NULL 0 0x44 2 3);
            ILink (mk_link []); ITransport (mk_transport [] 1 EB_NULL)] [].

Lemma scan_reads_block_witness :
  read_header 1 7 cb_sdb_got_header eb_cycle_read 0x1000 32 4 active_world =
  (let* ' (status, cycle) := eb_cycle_open 1 7 (Some cb_sdb_got_header) in
   if negb (status =? EB_OK) then ret status
   else
     mapM_ (fun i => eb_cycle_read cycle (0x1000 + Z.of_nat i * Z.of_nat 4) EB_DATAX 0) (seq 0 8) ;;;
     eb_cycle_close cycle ;;;
     ret EB_OK) active_world.
Proof. exact (scan_reads_block 1 7 cb_sdb_got_header eb_cycle_read 0x1000 4 8 active_world ltac:(lia) ltac:(lia) ltac:(lia)). Defined.

Definition searching : world ext :=
  mk_world (w_pool active_world)
    (<[fa_address 10 := 0x5004]> (<[fa_output 10 := 2000]> ∅)) ∅ (mk_ext [] []).

Lemma address_search_first_witness :
  eb_cb_find_by_address 10 1 (Some (mk_sdb_table (bus_seen 0 2) [RDevice led; RDevice uart])) EB_OK searching =
  user_store (fa_status 10) EB_OK (with_sdb (<[2000 := uart]> ∅) searching).
Proof.
  exact (address_search_first 10 1 0x5004 2000 EB_OK (mk_sdb_table (bus_seen 0 2) [RDevice led; RDevice uart]) searching
    eq_refl eq_refl).
Defined.

(** Three matching devices, an array of two. *)
Definition counting : world ext :=
  mk_world (w_pool active_world)
    (<[fi_vendor_id 10 := 0x651]> (<[fi_device_id 10 := 7]> (<[fi_size 10 := 2]> (<[fi_output 10 := 2000]> (<[fi_fill 10 := 0]> ∅)))))
    ∅ (mk_ext [] []).

Lemma identity_search_counts_witness :
  exists w', search_identity 10 1 [RDevice led; RDevice uart; RDevice led; RDevice led] counting = Some (tt, w') /\
    w_user w' !! fi_fill 10 = Some 3 /\ w_sdb w' !! 2064 = Some led /\ w_sdb w' !! 2128 = None.
Proof.
  destruct (identity_search_counts 10 1 0x651 7 2 2000 [RDevice led; RDevice uart; RDevice led; RDevice led] counting
    eq_refl eq_refl eq_refl eq_refl eq_refl eq_refl) as (w' & R & _ & Hf & Hin & Hout).
  exists w'. split; [exact R|]. split; [exact Hf|]. split; [exact (Hin 1%nat led eq_refl ltac:(lia))|].
  rewrite Hout; [reflexivity|lia].
Defined.
End sample.
