(* ===== verification/Ring.v ===== *)
(** The parameter buffers of the function generators: [src/top/gsi_scu/cb.c] and
    [init_buffers] of [src/top/gsi_scu/fg.c], against bounded queues that keep the
    newest [BUFFER_SIZE] elements. *)
From stdpp Require Import base list strings.
From Stdlib Require Import ZArith Lia.
From S2P Require Import Prelude.

(** * fg.h *)

Definition BUFFER_SIZE : Z := 10.
Definition MAX_SCU_SLAVES : Z := 12.
Definition MAX_FG_PER_SLAVE : Z := 2.
Definition MAX_FG_DEVICES : Z := MAX_FG_PER_SLAVE * MAX_SCU_SLAVES.

Record param_set := mk_param_set { coeff_a : Z; coeff_b : Z; coeff_c : Z; control : Z }.
Record circ_buffer := mk_circ_buffer { wr_ptr : Z; rd_ptr : Z; cb_size : Z; cb_pset : list param_set }.


(** * cb.c *)

(** A call of [mprintf]: the format and the arguments. *)
Record print := mprintf { format : string; args : list Z }.
Definition newline : string := String (Ascii.ascii_of_nat 10) EmptyString.
Definition line (s : string) : string := String.append s newline.

(** [cb] is the array of buffers; [None] is an access outside an array or a
    division by zero. *)
Definition cbisEmpty (cb : list circ_buffer) (num : nat) : option bool :=
  b ← cb !! num; Some (wr_ptr b =? rd_ptr b).

Definition cbisFull (cb : list circ_buffer) (num : nat) : option bool :=
  b ← cb !! num;
  if cb_size b =? 0 then None else Some (u32 (wr_ptr b + 1) mod cb_size b =? rd_ptr b).

Definition cbgetCount (cb : list circ_buffer) (num : nat) : option Z :=
  b ← cb !! num; Some (Z.abs (s32 (u32 (wr_ptr b - rd_ptr b)))).

(** [(ptr + 1) % size] on [unsigned int]. *)
Definition succ_ptr (size ptr : Z) : Z := u32 (ptr + 1) mod size.

Definition cbWrite (cb : list circ_buffer) (num : nat) (pset : param_set) : option (list circ_buffer) :=
  b ← cb !! num;
  let wptr := s32 (wr_ptr b) in
  let size := s32 (cb_size b) in
  if negb (size =? 0) && (0 <=? wptr) && (wptr <? Z.of_nat (length (cb_pset b))) then
    let psets := <[Z.to_nat wptr := pset]> (cb_pset b) in
    let wr := u32 (Z.rem (wptr + 1) size) in
    let rd := if wr =? rd_ptr b then succ_ptr (cb_size b) (rd_ptr b) else rd_ptr b in
    Some (<[num := mk_circ_buffer wr rd (cb_size b) psets]> cb)
  else None.

(** The element read, [None] when [*pset] is left alone, and what is printed. *)
Definition cbRead (cb : list circ_buffer) (num : nat)
    : option (list circ_buffer * option param_set * list print) :=
  b ← cb !! num;
  let rptr := s32 (rd_ptr b) in
  let wptr := s32 (wr_ptr b) in
  let size := s32 (cb_size b) in
  if wptr =? rptr then Some (cb, None, [])
  else if negb (size =? 0) && (0 <=? rptr) then
    pset ← cb_pset b !! Z.to_nat rptr;
    Some (<[num := mk_circ_buffer (wr_ptr b) (u32 (Z.rem (rptr + 1) size)) (cb_size b) (cb_pset b)]> cb,
          Some pset,
          mprintf "%x(%d) " [coeff_c pset; rptr] ::
          (if coeff_c pset mod 10 =? 0 then [mprintf newline []] else []))
  else None.

(** The dump copies the elements through a pointer that was never set: only of an
    empty array is there anything printed. *)
Definition cbDump (cb : list circ_buffer) (num : nat) : option (list print) :=
  b ← cb !! num;
  if 0 <? cb_size b then None
  else Some [mprintf (line "dumped cb[%d]: ") [Z.of_nat num];
             mprintf (line "wr_ptr: %d rd_ptr: %d size: %d") [wr_ptr b; rd_ptr b; cb_size b]].

(** * init_buffers of fg.c *)

Definition init_buffer (b : circ_buffer) : circ_buffer :=
  mk_circ_buffer 0 0 (BUFFER_SIZE + 1) (cb_pset b).

Fixpoint init_loop (n : nat) (i : nat) (buf : list circ_buffer) : option (list circ_buffer) :=
  match n with
  | O => Some buf
  | S n => b ← buf !! i; init_loop n (S i) (<[i := init_buffer b]> buf)
  end.

Definition init_buffers (buf : list circ_buffer) : option (list circ_buffer) :=
  init_loop (Z.to_nat MAX_FG_DEVICES) 0 buf.

(** * The specification: bounded queues *)

Inductive cb_op :=
  | Write (num : nat) (pset : param_set)
  | Read (num : nat)
  | Empty (num : nat)
  | Full (num : nat).

Inductive obs := Nothing | Value (pset : option param_set) | Answer (b : bool).

(** Append, and drop the oldest element when there is no room. *)
Definition push (p : param_set) (q : list param_set) : list param_set :=
  let q := q ++ [p] in if (length q <=? Z.to_nat BUFFER_SIZE)%nat then q else tail q.

Definition queue_step (op : cb_op) (qs : list (list param_set)) : option (list (list param_set) * obs) :=
  match op with
  | Write num p => q ← qs !! num; Some (<[num := push p q]> qs, Nothing)
  | Read num => q ← qs !! num; Some (<[num := tail q]> qs, Value (head q))
  | Empty num => q ← qs !! num; Some (qs, Answer (length q =? 0)%nat)
  | Full num => q ← qs !! num; Some (qs, Answer (length q =? Z.to_nat BUFFER_SIZE)%nat)
  end.

Definition cb_step (op : cb_op) (cb : list circ_buffer) : option (list circ_buffer * obs) :=
  match op with
  | Write num p => cb ← cbWrite cb num p; Some (cb, Nothing)
  | Read num => '(cb, p, _) ← cbRead cb num; Some (cb, Value p)
  | Empty num => b ← cbisEmpty cb num; Some (cb, Answer b)
  | Full num => b ← cbisFull cb num; Some (cb, Answer b)
  end.

Fixpoint run {S} (step : cb_op -> S -> option (S * obs)) (ops : list cb_op) (s : S) : option (S * list obs) :=
  match ops with
  | [] => Some (s, [])
  | op :: ops => '(s, o) ← step op s; '(s, os) ← run step ops s; Some (s, o :: os)
  end.

(** A buffer and the elements it holds, oldest first. *)
Record holds (b : circ_buffer) (q : list param_set) : Prop := {
  h_size : cb_size b = BUFFER_SIZE + 1;
  h_array : length (cb_pset b) = Z.to_nat (BUFFER_SIZE + 1);
  h_rd : 0 <= rd_ptr b < BUFFER_SIZE + 1;
  h_wr : wr_ptr b = (rd_ptr b + Z.of_nat (length q)) mod (BUFFER_SIZE + 1);
  h_len : Z.of_nat (length q) <= BUFFER_SIZE;
  h_elem : forall i p, q !! i = Some p ->
             cb_pset b !! Z.to_nat ((rd_ptr b + Z.of_nat i) mod (BUFFER_SIZE + 1)) = Some p }.

Lemma s32_small z : 0 <= z < 2 ^ 31 -> s32 z = z.
Proof. intros Hz. unfold s32. rewrite wrap_small by lia. destruct (Z.ltb_spec z (2 ^ 31)); lia. Qed.

(** [lia] with remainders by constants. *)
Ltac mod_lia := Z.div_mod_to_equations; lia.

Section proofs.
Implicit Types (b : circ_buffer) (q : list param_set).

Lemma holds_ptrs b q : holds b q ->
  cb_size b = 11 /\ length (cb_pset b) = 11%nat /\ 0 <= rd_ptr b < 11 /\ 0 <= wr_ptr b < 11 /\
  wr_ptr b = (rd_ptr b + Z.of_nat (length q)) mod 11 /\ (length q <= 10)%nat.
Proof.
  intros [Hs Ha Hr Hw Hl _]. unfold BUFFER_SIZE in *. change (10 + 1) with 11 in *.
  split_and!; try done; try lia; mod_lia.
Qed.

Lemma holds_elem b q i p : holds b q -> q !! i = Some p ->
  cb_pset b !! Z.to_nat ((rd_ptr b + Z.of_nat i) mod 11) = Some p.
Proof. intros Hh. exact (h_elem _ _ Hh i p). Qed.

Lemma mk_holds wr rd psets q : length psets = 11%nat -> 0 <= rd < 11 ->
  wr = (rd + Z.of_nat (length q)) mod 11 -> (length q <= 10)%nat ->
  (forall i p, q !! i = Some p -> psets !! Z.to_nat ((rd + Z.of_nat i) mod 11) = Some p) ->
  holds (mk_circ_buffer wr rd 11 psets) q.
Proof. intros. split; try done. unfold BUFFER_SIZE. lia. Qed.

Lemma write_spec cb num b q p : cb !! num = Some b -> holds b q ->
  exists b', cbWrite cb num p = Some (<[num := b']> cb) /\ holds b' (push p q).
Proof.
  intros Hb Hh. destruct (holds_ptrs b q Hh) as (Hs & Ha & Hr & Hw & Hwq & Hl).
  unfold cbWrite. rewrite Hb. cbn [mbind option_bind]. rewrite Hs, Ha, (s32_small (wr_ptr b)) by lia.
  change (s32 11) with 11. rewrite (proj2 (Z.leb_le 0 _)), (proj2 (Z.ltb_lt _ _)) by lia. cbn [negb andb Z.eqb].
  rewrite Z.rem_mod_nonneg, (wrap_small 32) by mod_lia. unfold succ_ptr. rewrite (wrap_small 32 (rd_ptr b + 1)) by lia.
  eexists. split; [reflexivity|]. unfold push. rewrite length_app. cbn [length].
  destruct (Nat.leb_spec (length q + 1) (Z.to_nat BUFFER_SIZE)) as [Hlt|Hge]; change (Z.to_nat BUFFER_SIZE) with 10%nat in *.
  - destruct (Z.eqb_spec ((wr_ptr b + 1) mod 11) (rd_ptr b)) as [He|_]; [exfalso; mod_lia|].
    apply mk_holds; [by rewrite length_insert|done|rewrite length_app; cbn [length]; mod_lia|rewrite length_app; cbn; lia|].
    intros i p' Hi. apply lookup_app_Some in Hi as [Hi|[Hi Hi']].
    + pose proof (lookup_lt_Some _ _ _ Hi). rewrite list_lookup_insert_ne by mod_lia. by apply (holds_elem b q).
    + destruct (i - length q)%nat as [|k] eqn:Ek; [|done]. injection Hi' as <-.
      replace ((rd_ptr b + Z.of_nat i) mod 11) with (wr_ptr b) by (rewrite Hwq; do 2 f_equal; lia).
      rewrite list_lookup_insert_eq by lia. done.
  - destruct (Z.eqb_spec ((wr_ptr b + 1) mod 11) (rd_ptr b)) as [_|He]; [|exfalso; mod_lia].
    destruct q as [|x q]; [cbn in Hge; lia|]. cbn [app tail length] in *.
    apply mk_holds; [by rewrite length_insert|mod_lia|rewrite length_app; cbn [length]; mod_lia|rewrite length_app; cbn; lia|].
    intros i p' Hi. apply lookup_app_Some in Hi as [Hi|[Hi Hi']].
    + pose proof (lookup_lt_Some _ _ _ Hi). rewrite list_lookup_insert_ne by mod_lia.
      rewrite <- (holds_elem b (x :: q) (S i) p' Hh Hi). do 2 f_equal. rewrite Zplus_mod_idemp_l. f_equal. lia.
    + destruct (i - length q)%nat as [|k] eqn:Ek; [|done]. injection Hi' as <-.
      replace (((rd_ptr b + 1) mod 11 + Z.of_nat i) mod 11) with (wr_ptr b)
        by (rewrite Hwq, Zplus_mod_idemp_l; f_equal; lia).
      rewrite list_lookup_insert_eq by lia. done.
Qed.

Lemma read_spec cb num b q : cb !! num = Some b -> holds b q ->
  exists b' ps, cbRead cb num = Some (<[num := b']> cb, head q, ps) /\ holds b' (tail q).
Proof.
  intros Hb Hh. destruct (holds_ptrs b q Hh) as (Hs & Ha & Hr & Hw & Hwq & Hl).
  unfold cbRead. rewrite Hb. cbn [mbind option_bind]. rewrite Hs, !s32_small by lia.
  change (11 =? 0) with false. rewrite (proj2 (Z.leb_le 0 (rd_ptr b))) by lia. cbn [negb andb].
  destruct q as [|x q]; cbn [head tail length] in *.
  - rewrite (proj2 (Z.eqb_eq _ _)) by mod_lia. exists b, []. by rewrite list_insert_id.
  - rewrite (proj2 (Z.eqb_neq _ _)) by mod_lia. rewrite Z.rem_mod_nonneg, (wrap_small 32) by mod_lia.
    pose proof (holds_elem b (x :: q) 0 x Hh eq_refl) as Hx. rewrite Z.add_0_r, Z.mod_small in Hx by lia. rewrite Hx.
    cbn [mbind option_bind]. eexists _, _. split; [reflexivity|].
    apply mk_holds; [done|mod_lia|mod_lia|lia|]. intros i p' Hi.
    rewrite <- (holds_elem b (x :: q) (S i) p' Hh Hi). do 2 f_equal. rewrite Zplus_mod_idemp_l. f_equal. lia.
Qed.

Lemma empty_spec cb num b q : cb !! num = Some b -> holds b q -> cbisEmpty cb num = Some (length q =? 0)%nat.
Proof.
  intros Hb Hh. destruct (holds_ptrs b q Hh) as (Hs & Ha & Hr & Hw & Hwq & Hl).
  unfold cbisEmpty. rewrite Hb. cbn [mbind option_bind]. f_equal. apply eq_true_iff_eq.
  rewrite Z.eqb_eq, Nat.eqb_eq. mod_lia.
Qed.

Lemma full_spec cb num b q : cb !! num = Some b -> holds b q ->
  cbisFull cb num = Some (length q =? Z.to_nat BUFFER_SIZE)%nat.
Proof.
  intros Hb Hh. destruct (holds_ptrs b q Hh) as (Hs & Ha & Hr & Hw & Hwq & Hl).
  unfold cbisFull. rewrite Hb. cbn [mbind option_bind]. rewrite Hs. change (11 =? 0) with false. cbv iota.
  rewrite wrap_small by lia. f_equal. apply eq_true_iff_eq. rewrite Z.eqb_eq, Nat.eqb_eq.
  change (Z.to_nat BUFFER_SIZE) with 10%nat. mod_lia.
Qed.

(** [cbgetCount] is the number of elements as long as the write pointer has not
    wrapped round; after that it is the number of free slots. *)
Lemma count_after_wrap cb num b q : cb !! num = Some b -> holds b q ->
  cbgetCount cb num = Some (if rd_ptr b <=? wr_ptr b then Z.of_nat (length q) else BUFFER_SIZE + 1 - Z.of_nat (length q)).
Proof.
  intros Hb Hh. destruct (holds_ptrs b q Hh) as (Hs & Ha & Hr & Hw & Hwq & Hl).
  unfold cbgetCount. rewrite Hb. cbn [mbind option_bind]. f_equal. unfold s32. rewrite wrap_wrap by lia. unfold wrap, BUFFER_SIZE.
  destruct (Z.leb_spec (rd_ptr b) (wr_ptr b)).
  - rewrite Z.mod_small by lia. rewrite (proj2 (Z.ltb_lt _ _)) by lia. mod_lia.
  - rewrite <- (Z.mod_unique (wr_ptr b - rd_ptr b) (2 ^ 32) (-1) (wr_ptr b - rd_ptr b + 2 ^ 32)) by lia.
    rewrite (proj2 (Z.ltb_ge _ _)) by lia. mod_lia.
Qed.
End proofs.

Lemma init_loop_spec rest : forall past,
  init_loop (length rest) (length past) (past ++ rest) = Some (past ++ map init_buffer rest).
Proof.
  induction rest as [|b rest IH]; intros past; cbn [length init_loop map]; [done|].
  rewrite list_lookup_middle by done. cbn [mbind option_bind].
  rewrite insert_app_r_alt, Nat.sub_diag by done. cbn [insert list_insert].
  specialize (IH (past ++ [init_buffer b])). rewrite length_app, Nat.add_1_r, <- !app_assoc in IH. exact IH.
Qed.

Definition op_num (op : cb_op) : nat :=
  match op with Write num _ => num | Read num => num | Empty num => num | Full num => num end.

(** One operation on related states gives related states and the same answer. *)
Lemma step_refines op cb qs : Forall2 holds cb qs -> (op_num op < length cb)%nat ->
  exists cb' qs' o, cb_step op cb = Some (cb', o) /\ queue_step op qs = Some (qs', o) /\
    Forall2 holds cb' qs' /\ length cb' = length cb.
Proof.
  intros H2 Hn. destruct (lookup_lt_is_Some_2 cb (op_num op) Hn) as [b Hb].
  destruct (Forall2_lookup_l _ _ _ _ _ H2 Hb) as (q & Hq & Hh).
  destruct op as [num p|num|num|num]; cbn [op_num] in *; cbn [cb_step queue_step]; rewrite Hq; cbn [mbind option_bind].
  - destruct (write_spec cb num b q p Hb Hh) as (b' & -> & Hh'). cbn [mbind option_bind].
    eexists _, _, _. split; [done|]. split; [done|]. split; [by apply Forall2_insert|apply length_insert].
  - destruct (read_spec cb num b q Hb Hh) as (b' & ps & -> & Hh'). cbn [mbind option_bind].
    eexists _, _, _. split; [done|]. split; [done|]. split; [by apply Forall2_insert|apply length_insert].
  - rewrite (empty_spec cb num b q Hb Hh). cbn [mbind option_bind]. eauto 10.
  - rewrite (full_spec cb num b q Hb Hh). cbn [mbind option_bind]. eauto 10.
Qed.

Lemma run_refines ops : forall cb qs, Forall2 holds cb qs -> Forall (fun op => (op_num op < length cb)%nat) ops ->
  exists cb' qs' os, run cb_step ops cb = Some (cb', os) /\ run queue_step ops qs = Some (qs', os) /\ Forall2 holds cb' qs'.
Proof.
  induction ops as [|op ops IH]; intros cb qs H2 Hn; [by exists cb, qs, []|].
  apply Forall_cons in Hn as [Hop Hn].
  destruct (step_refines op cb qs H2 Hop) as (cb1 & qs1 & o & E1 & E2 & H3 & Hl).
  destruct (IH cb1 qs1 H3) as (cb' & qs' & os & R1 & R2 & H4); [by rewrite Hl|].
  exists cb', qs', (o :: os). cbn [run]. rewrite E1, E2. cbn [mbind option_bind]. by rewrite R1, R2.
Qed.

Lemma init_holds b : length (cb_pset b) = Z.to_nat (BUFFER_SIZE + 1) -> holds (init_buffer b) [].
Proof. intros Hl. apply mk_holds; [exact Hl|lia|done|cbn; lia|by intros i p Hi; destruct i]. Qed.

(** C25: after [init_buffers] any sequence of writes, reads and tests on the
    buffers of the function generators answers as queues would that hold up to
    [BUFFER_SIZE] elements each, drop the oldest when an eleventh is written,
    and do not disturb one another; no operation leaves its arrays. *)
Theorem ring_refines_queue (ops : list cb_op) (bufs : list circ_buffer)
    (Hbufs : length bufs = Z.to_nat MAX_FG_DEVICES)
    (Harr : Forall (fun b => length (cb_pset b) = Z.to_nat (BUFFER_SIZE + 1)) bufs)
    (Hnum : Forall (fun op => (op_num op < Z.to_nat MAX_FG_DEVICES)%nat) ops) :
  exists cb qs os, (cb ← init_buffers bufs; run cb_step ops cb) = Some (cb, os) /\
    run queue_step ops (replicate (Z.to_nat MAX_FG_DEVICES) []) = Some (qs, os) /\
    Forall2 holds cb qs.
Proof.
  unfold init_buffers. rewrite <- Hbufs. pose proof (init_loop_spec bufs []) as Hi. cbn [app length] in Hi. rewrite Hi.
  cbn [mbind option_bind].
  apply run_refines.
  - clear Hbufs Hnum Hi. induction Harr; [constructor|]. cbn [map length replicate]. constructor; [by apply init_holds|done].
  - eapply Forall_impl; [exact Hnum|]. intros op. by rewrite length_map, Hbufs.
Qed.

(** ** Instances *)

Definition sample_set (n : Z) : param_set := mk_param_set 0 0 n 0.
Definition sample_bufs : list circ_buffer :=
  replicate 24 (mk_circ_buffer 7 9 0 (replicate 11 (sample_set 0))).
(** Twelve writes into a buffer of ten. *)
Definition sample_run : list cb_op :=
  map (fun n => Write 3 (sample_set (Z.of_nat n))) (seq 1 12) ++ [Full 3; Empty 2; Read 3; Read 2; Full 3].

Lemma ring_refines_queue_witness :
  exists cb qs os, (cb ← init_buffers sample_bufs; run cb_step sample_run cb) = Some (cb, os) /\
    run queue_step sample_run (replicate 24 []) = Some (qs, os) /\
    drop 12 os = [Answer true; Answer true; Value (Some (sample_set 3)); Value None; Answer false].
Proof.
  destruct (ring_refines_queue sample_run sample_bufs) as (cb & qs & os & R1 & R2 & _); [reflexivity| | |].
  - apply Forall_replicate. reflexivity.
  - unfold sample_run. apply Forall_app. split.
    + apply Forall_fmap, Forall_forall. intros n _. change (3 < 24)%nat. lia.
    + repeat constructor; cbn [op_num]; change (Z.to_nat MAX_FG_DEVICES) with 24%nat; lia.
  - exists cb, qs, os. split; [exact R1|]. split; [exact R2|].
    assert (run queue_step sample_run (replicate 24 []) ≫= (fun so => Some (drop 12 so.2)) =
      Some [Answer true; Answer true; Value (Some (sample_set 3)); Value None; Answer false]) as R by (vm_compute; reflexivity).
    change (Z.to_nat MAX_FG_DEVICES) with 24%nat in R2. rewrite R2 in R. injection R as R. exact R.
Defined.
