(* ===== verification/FunctionGen.v ===== *)
(** Discovery of the function generators on the SCU bus: [scan_scu_bus] and
    [scan_for_fgs] of [src/top/gsi_scu/fg.c] and [probe_scu_bus] of
    [src/top/gsi_scu/scu_bus.c]. *)
From stdpp Require Import base list.
From Stdlib Require Import ZArith Lia.
From S2P Require Import Prelude Ring.

(** * fg.h, scu_bus.h *)

Definition CID_SYS : Z := 0x4.
Definition CID_GROUP : Z := 0x5.
Definition SLAVE_VERSION : Z := 0x6.

(** Pointers into the bus structure are indices: a slave, or a device of a slave. *)
Record fg_dev := mk_fg_dev {
  dev_number : Z; version : Z; offset : Z; running : Z; timeout : Z; rampcnt : Z; endvalue : Z;
  dev_slave : option nat }.
Record scu_slave := mk_scu_slave {
  unique_id : Z; slave_version : Z; cid_group : Z; cid_sys : Z; slot : Z; devs : list fg_dev }.
Record scu_bus := mk_scu_bus { bus_id : Z; slaves : list scu_slave }.

Definition zero_dev : fg_dev := mk_fg_dev 0 0 0 0 0 0 0 None.
Definition zero_slave : scu_slave :=
  mk_scu_slave 0 0 0 0 0 (replicate (S (Z.to_nat MAX_FG_PER_SLAVE)) zero_dev).

(** [list->devs]: [None] is the null pointer. *)
Definition fg_list : Type := list (option (nat * nat)).

(** * fg.c *)

Section scan.
(** The halfword at an index of the bus. *)
Context (base_adr : Z -> Z).

Definition occupied (i : Z) : bool := negb (base_adr (i * 2 ^ 16 + 0x10) =? 0xdead).

(** The fields of a slave that was found; the others stay as [memset] left them. *)
Definition found_slave (i : Z) : scu_slave :=
  mk_scu_slave
    (u64 (u64 (base_adr (i * 2 ^ 16 + 0x40)) .<< 48) .| u64 (u64 (base_adr (i * 2 ^ 16 + 0x41)) .<< 32)
     .| u64 (u64 (base_adr (i * 2 ^ 16 + 0x42)) .<< 16) .| u64 (base_adr (i * 2 ^ 16 + 0x43)))
    (base_adr (i * 2 ^ 16 + SLAVE_VERSION)) (base_adr (i * 2 ^ 16 + CID_GROUP))
    (base_adr (i * 2 ^ 16 + CID_SYS)) i (devs zero_slave).

Fixpoint scan_slots (slots : list Z) (j : nat) (sl : list scu_slave) : option (list scu_slave * nat) :=
  match slots with
  | [] => Some (sl, j)
  | i :: slots =>
      if occupied i then sl ← array_set sl j (found_slave i); scan_slots slots (S j) sl
      else scan_slots slots j sl
  end.

(** The slots [1 .. MAX_SCU_SLAVES]. *)
Definition all_slots : list Z := map Z.of_nat (seq 1 (Z.to_nat MAX_SCU_SLAVES)).

Definition set_unique_id (x : Z) (s : scu_slave) : scu_slave :=
  mk_scu_slave x (slave_version s) (cid_group s) (cid_sys s) (slot s) (devs s).

(** The bus and the number of slaves found. *)
Definition scan_scu_bus (bus : scu_bus) (id : Z) : option (scu_bus * Z) :=
  let sl := replicate (length (slaves bus)) zero_slave in
  '(sl, j) ← scan_slots all_slots 0 sl;
  s ← sl !! j;
  sl ← array_set sl j (set_unique_id 0 s);
  Some (mk_scu_bus id sl, Z.of_nat j).

(** [probe_scu_bus]: the slots whose slave has the identifiers, ended by [0]; [n] is
    the room in [slaves]. *)
Definition probe_scu_bus (system_addr group_addr : Z) (n : nat) : option (list Z) :=
  let found := filter (fun i => base_adr (i * 2 ^ 16 + CID_SYS) = system_addr /\
                                base_adr (i * 2 ^ 16 + CID_GROUP) = group_addr) all_slots in
  if (length found <? n)%nat then Some (found ++ [0]) else None.
End scan.

(** One device of slave [i] is described and entered into the list. *)
Definition add_fg (i : nat) (k : nat) (off : Z) (sl : list scu_slave) (l : fg_list) (j : nat)
    : option (list scu_slave * fg_list * nat) :=
  s ← sl !! i;
  d ← devs s !! k;
  ds ← array_set (devs s) k (mk_fg_dev (Z.of_nat k) 0x1 off (running d) (timeout d) (rampcnt d) (endvalue d) (Some i));
  sl ← array_set sl i (mk_scu_slave (unique_id s) (slave_version s) (cid_group s) (cid_sys s) (slot s) ds);
  l ← (if (Z.of_nat j <? MAX_FG_DEVICES) then array_set l j (Some (i, k)) else Some l);
  Some (sl, l, S j).

(** One round of the loop over the slaves. *)
Definition add_slave (i : nat) (s : scu_slave) (sl : list scu_slave) (l : fg_list) (j : nat)
    : option (list scu_slave * fg_list * nat) :=
  if cid_sys s =? 55 then
    if (cid_group s =? 3) || (cid_group s =? 38) then
      '(sl, l, j) ← add_fg i 0 0x300 sl l j; add_fg i 1 0x320 sl l j
    else if cid_group s =? 26 then add_fg i 0 0x300 sl l j
    else Some (sl, l, j)
  else Some (sl, l, j).

Fixpoint fgs_loop (fuel : nat) (i : nat) (sl : list scu_slave) (l : fg_list) (j : nat)
    : option (list scu_slave * fg_list * nat) :=
  s ← sl !! i;
  if unique_id s =? 0 then Some (sl, l, j)
  else match fuel with
    | O => None
    | S fuel => '(sl, l, j) ← add_slave i s sl l j; fgs_loop fuel (S i) sl l j
    end.

(** The function ends without a [return]: there is no result. *)
Definition scan_for_fgs (bus : scu_bus) (l : fg_list) : option (scu_bus * fg_list) :=
  '(sl, l, j) ← fgs_loop (length (slaves bus)) 0 (slaves bus) l 0;
  l ← array_set l j None;
  Some (mk_scu_bus (bus_id bus) sl, l).

(** [ReadTempDevices]: the 1-wire library scans a bus and describes up to
    [W1_MAX_DEVICES] devices by their identifiers, [0] where there is none; a
    temperature is read from a device, in units of [2^-16] degrees. The last
    thermometer (family [0x42]) names the bus. *)
Section temperatures.
Context {W : Type} (w1_scan_bus : Z -> W -> Z * list Z * W) (w1_read_temp : Z -> nat -> W -> Z * W).

Fixpoint temp_loop (bus : Z) (roms : list Z) (i : nat) (id temp : Z) (w : W) : Z * Z * W :=
  match roms with
  | [] => (id, temp, w)
  | rom :: roms =>
      if negb (rom =? 0) && (u8 rom =? 0x42) then
        let '(tvalue, w) := w1_read_temp bus i w in
        temp_loop bus roms (S i) rom (u16 (tvalue .>> 12)) w
      else temp_loop bus roms (S i) id temp w
  end.

Definition ReadTempDevices (bus id temp : Z) (w : W) : Z * Z * W :=
  let '(n, roms, w) := w1_scan_bus bus w in
  if 0 <? n then temp_loop bus roms 0 id temp w else (id, temp, w).

Definition thermometer (rom : Z) : bool := negb (rom =? 0) && (u8 rom =? 0x42).

Lemma last_cons_default {A} (x : A) l : forall d, List.last (x :: l) d = List.last l x.
Proof. revert x. induction l as [|y l IH]; intros x d; [done|]. change (List.last (y :: l) d = List.last (y :: l) x). by rewrite !IH. Qed.

(** The identifier is that of the last thermometer, and stays when there is none. *)
Lemma temp_loop_id bus roms : forall i id temp w,
  (temp_loop bus roms i id temp w).1.1 = List.last (List.filter thermometer roms) id.
Proof.
  induction roms as [|rom roms IH]; intros i id temp w; [done|]. cbn [temp_loop List.filter]. fold (thermometer rom).
  destruct (thermometer rom); [|apply IH]. destruct (w1_read_temp bus i w) as [tvalue w']. rewrite IH.
  by rewrite last_cons_default.
Qed.
End temperatures.

(** * What is found *)

(** The generators of a slave, by its identifiers. *)
Definition generators (s : scu_slave) : list nat :=
  if cid_sys s =? 55 then
    if (cid_group s =? 3) || (cid_group s =? 38) then [0%nat; 1%nat]
    else if cid_group s =? 26 then [0%nat] else []
  else [].

(** The slaves up to the first whose identifier reads as [0]. *)
Fixpoint visible (l : list scu_slave) : list scu_slave :=
  match l with [] => [] | s :: l => if unique_id s =? 0 then [] else s :: visible l end.

(** References to the generators of the slaves from index [i]. *)
Fixpoint references (i : nat) (l : list scu_slave) : list (nat * nat) :=
  match l with [] => [] | s :: l => map (pair i) (generators s) ++ references (S i) l end.

Lemma length_references l : forall i, (length (references i l) <= 2 * length l)%nat.
Proof.
  induction l as [|s l IH]; intros i; [done|]. cbn [references length]. rewrite length_app, length_map.
  specialize (IH (S i)). unfold generators. repeat case_if; cbn [length]; lia.
Qed.

Lemma scan_slots_spec base slots : forall past rest,
  (length slots <= length rest)%nat ->
  scan_slots base slots (length past) (past ++ rest) =
  Some (past ++ map (found_slave base) (List.filter (occupied base) slots) ++
        drop (length (List.filter (occupied base) slots)) rest,
        (length past + length (List.filter (occupied base) slots))%nat).
Proof.
  induction slots as [|i slots IH]; intros past rest Hl; cbn [scan_slots List.filter].
  - cbn [map length app drop]. by rewrite Nat.add_0_r.
  - cbn [length] in Hl. destruct (occupied base i).
    + destruct rest as [|y rest]; cbn [length] in Hl; [lia|].
      rewrite array_set_lt by (rewrite length_app; cbn; lia). cbn [mbind option_bind].
      rewrite insert_next. specialize (IH (past ++ [found_slave base i]) rest ltac:(lia)).
      rewrite length_app, Nat.add_1_r in IH. rewrite IH. cbn [map length app drop]. rewrite <- app_assoc.
      do 2 f_equal. lia.
    + apply IH. lia.
Qed.

Lemma length_found base : (length (List.filter (occupied base) all_slots) <= 12)%nat.
Proof. change 12%nat with (length all_slots). apply List.filter_length_le. Qed.

(** What identifies a slave, and the number of its devices, stay. *)
Definition same_slave (s s' : scu_slave) : Prop :=
  unique_id s = unique_id s' /\ cid_group s = cid_group s' /\ cid_sys s = cid_sys s' /\
  length (devs s) = length (devs s').

Definition fg_offset (k : nat) : Z := if (k =? 0)%nat then 0x300 else 0x320.

(** The device a reference points to is described. *)
Definition described (sl : list scu_slave) (r : nat * nat) : Prop :=
  exists s d, sl !! r.1 = Some s /\ devs s !! r.2 = Some d /\ dev_number d = Z.of_nat r.2 /\
    version d = 1 /\ offset d = fg_offset r.2 /\ dev_slave d = Some r.1.

Lemma same_refl sl : Forall2 same_slave sl sl.
Proof. induction sl; constructor; [by split_and!|done]. Qed.

Lemma same_trans l1 l2 l3 : Forall2 same_slave l1 l2 -> Forall2 same_slave l2 l3 -> Forall2 same_slave l1 l3.
Proof.
  intros H12. revert l3. induction H12 as [|x y l1 l2 (? & ? & ? & ?) _ IH]; intros l3 H23; inversion H23 as [|? z ? ? (? & ? & ? & ?)]; subst; constructor.
  - split_and!; congruence.
  - by apply IH.
Qed.

Lemma add_fg_spec i k sl s past y rest :
  sl !! i = Some s -> (k < 2)%nat -> length (devs s) = 3%nat -> (length past < 24)%nat ->
  exists sl', add_fg i k (fg_offset k) sl (map Some past ++ y :: rest) (length past) =
      Some (sl', map Some (past ++ [(i, k)]) ++ rest, S (length past)) /\
    Forall2 same_slave sl sl' /\ described sl' (i, k) /\ (forall r, described sl r -> described sl' r).
Proof.
  intros Hs Hk Hd Hp. unfold add_fg. rewrite Hs. cbn [mbind option_bind].
  destruct (lookup_lt_is_Some_2 (devs s) k ltac:(lia)) as [d Ed]. rewrite Ed. cbn [mbind option_bind].
  rewrite (array_set_lt (devs s) k) by lia. cbn [mbind option_bind].
  pose proof (lookup_lt_Some _ _ _ Hs) as Hi. rewrite (array_set_lt sl i) by done. cbn [mbind option_bind].
  rewrite (proj2 (Z.ltb_lt _ _)) by (unfold MAX_FG_DEVICES, MAX_FG_PER_SLAVE, MAX_SCU_SLAVES; lia).
  rewrite array_set_lt by (rewrite length_app, length_map; cbn; lia). cbn [mbind option_bind].
  assert (<[length past := Some (i, k)]> (map Some past ++ y :: rest) = (map Some past ++ [Some (i, k)]) ++ rest) as ->
    by (rewrite <- (length_map (@Some (nat * nat)) past) at 1; apply insert_next).
  eexists. split; [by rewrite map_app|].
  set (d' := mk_fg_dev _ _ _ _ _ _ _ _). set (s' := mk_scu_slave _ _ _ _ _ _).
  split; [|split].
  - rewrite <- (list_insert_id sl i s Hs) at 1. apply Forall2_insert; [apply same_refl|].
    split_and!; try done. cbn. by rewrite length_insert.
  - exists s', d'. cbn [fst snd]. rewrite list_lookup_insert_eq by done. split; [done|]. cbn [devs s'].
    rewrite list_lookup_insert_eq by lia. by split_and!.
  - intros [i' k'] (s1 & d1 & E1 & E2 & Hr). cbn [fst snd] in *.
    destruct (decide (i' = i)) as [->|Hne].
    + rewrite Hs in E1. injection E1 as <-. destruct (decide (k' = k)) as [->|Hnk].
      * exists s', d'. cbn [fst snd]. rewrite list_lookup_insert_eq by done. cbn [devs s'].
        rewrite list_lookup_insert_eq by lia. by split_and!.
      * exists s', d1. cbn [fst snd]. rewrite list_lookup_insert_eq by done. cbn [devs s'].
        by rewrite list_lookup_insert_ne.
    + exists s1, d1. cbn [fst snd]. by rewrite list_lookup_insert_ne.
Qed.

Lemma add_slave_spec i sl s past rest :
  sl !! i = Some s -> length (devs s) = 3%nat -> (length past + length (generators s) <= 24)%nat ->
  (length past + length rest = 25)%nat ->
  exists sl', add_slave i s sl (map Some past ++ rest) (length past) =
      Some (sl', map Some (past ++ map (pair i) (generators s)) ++ drop (length (generators s)) rest,
            (length past + length (generators s))%nat) /\
    Forall2 same_slave sl sl' /\ Forall (described sl') (map (pair i) (generators s)) /\
    (forall r, described sl r -> described sl' r).
Proof.
  intros Hs Hd Hp Hr. unfold add_slave, generators in *.
  destruct (cid_sys s =? 55).
  2: { exists sl. cbn [length map drop]. rewrite app_nil_r, Nat.add_0_r. split; [done|]. split; [apply same_refl|]. split; [constructor|done]. }
  destruct ((cid_group s =? 3) || (cid_group s =? 38)); [|destruct (cid_group s =? 26)]; cbn [length map drop] in *.
  - destruct rest as [|y1 [|y2 rest]]; cbn [length] in Hr; [lia|lia|].
    destruct (add_fg_spec i 0 sl s past y1 (y2 :: rest) Hs ltac:(lia) Hd ltac:(lia)) as (sl1 & E1 & S1 & D1 & K1).
    change 0x300 with (fg_offset 0). rewrite E1. cbn [mbind option_bind].
    destruct (Forall2_lookup_l _ _ _ _ _ S1 Hs) as (s1 & Hs1 & (_ & _ & _ & Hd1)).
    pose proof (add_fg_spec i 1 sl1 s1 (past ++ [(i, 0%nat)]) y2 rest Hs1 ltac:(lia) ltac:(lia)
      ltac:(rewrite length_app; cbn; lia)) as (sl2 & E2 & S2 & D2 & K2).
    rewrite length_app, Nat.add_1_r in E2. change 0x320 with (fg_offset 1). rewrite E2.
    exists sl2. rewrite <- app_assoc. split; [cbn; do 2 f_equal; lia|]. split; [by eapply same_trans|].
    split; [constructor; [by apply K2|by constructor]|]. intros r Hr'. by apply K2, K1.
  - destruct rest as [|y1 rest]; cbn [length] in Hr; [lia|].
    destruct (add_fg_spec i 0 sl s past y1 rest Hs ltac:(lia) Hd ltac:(lia)) as (sl1 & E1 & S1 & D1 & K1).
    change 0x300 with (fg_offset 0). rewrite E1. exists sl1. split; [do 2 f_equal; lia|]. split; [done|].
    split; [by constructor|done].
  - exists sl. rewrite app_nil_r, Nat.add_0_r. split; [done|]. split; [apply same_refl|]. split; [constructor|done].
Qed.

Lemma same_generators s s' : same_slave s s' -> generators s = generators s'.
Proof. intros (_ & Hg & Hs & _). unfold generators. by rewrite Hg, Hs. Qed.

Lemma same_references l l' : Forall2 same_slave l l' -> forall i, references i (visible l) = references i (visible l').
Proof.
  induction 1 as [|s s' l l' Hs _ IH]; intros i; [done|]. cbn [visible]. rewrite (proj1 Hs).
  destruct (unique_id s' =? 0); [done|]. cbn [references]. by rewrite (same_generators s s' Hs), IH.
Qed.

Lemma fgs_loop_spec fuel : forall i sl past rest,
  (i + length (visible (drop i sl)) < length sl)%nat -> (length (visible (drop i sl)) <= fuel)%nat ->
  Forall (fun s => length (devs s) = 3%nat) sl ->
  (length past + length (references i (visible (drop i sl))) <= 24)%nat -> (length past + length rest = 25)%nat ->
  Forall (described sl) past ->
  let refs := references i (visible (drop i sl)) in
  exists sl', fgs_loop fuel i sl (map Some past ++ rest) (length past) =
      Some (sl', map Some (past ++ refs) ++ drop (length refs) rest, (length past + length refs)%nat) /\
    Forall2 same_slave sl sl' /\ Forall (described sl') (past ++ refs).
Proof.
  induction fuel as [|fuel IH]; intros i sl past rest Hi Hf Hd Hp Hr Hpast refs.
  - destruct (lookup_lt_is_Some_2 sl i ltac:(lia)) as [s Hs]. cbn [fgs_loop]. rewrite Hs. cbn [mbind option_bind].
    subst refs. rewrite (drop_S _ _ _ Hs) in *. cbn [visible] in *. destruct (unique_id s =? 0); [|cbn in Hf; lia].
    exists sl. cbn [references length drop]. rewrite app_nil_r, Nat.add_0_r. split; [done|]. split; [apply same_refl|done].
  - destruct (lookup_lt_is_Some_2 sl i ltac:(lia)) as [s Hs]. cbn [fgs_loop]. rewrite Hs. cbn [mbind option_bind].
    subst refs. rewrite (drop_S _ _ _ Hs) in *. cbn [visible] in *. destruct (unique_id s =? 0).
    { exists sl. cbn [references length drop]. rewrite app_nil_r, Nat.add_0_r. split; [done|]. split; [apply same_refl|done]. }
    cbn [references length] in *. rewrite length_app, length_map in Hp.
    destruct (add_slave_spec i sl s past rest Hs) as (sl1 & E1 & S1 & D1 & K1); [by eapply Forall_lookup_1 in Hd|lia|done|].
    rewrite E1. cbn [mbind option_bind].
    assert (Forall2 same_slave (drop (S i) sl) (drop (S i) sl1)) as Sd by (by apply Forall2_drop).
    assert (length (visible (drop (S i) sl1)) = length (visible (drop (S i) sl))) as Hvl.
    { clear - Sd. induction Sd as [|x y l l' (Hu & _) _ IH]; [done|]. cbn [visible]. rewrite Hu. destruct (_ =? 0); [done|]. cbn. by rewrite IH. }
    pose proof (Forall2_length _ _ _ S1) as Hlen.
    destruct (IH (S i) sl1 (past ++ map (pair i) (generators s)) (drop (length (generators s)) rest)) as (sl2 & E2 & S2 & D2).
    + rewrite Hvl, <- Hlen. lia.
    + rewrite Hvl. lia.
    + apply Forall_lookup. intros n s1 Hn. destruct (Forall2_lookup_r _ _ _ _ _ S1 Hn) as (s0 & Hs0 & (_ & _ & _ & <-)).
      by eapply Forall_lookup_1 in Hd.
    + rewrite <- (same_references _ _ Sd). rewrite length_app, length_map. lia.
    + rewrite length_app, length_map, length_drop. lia.
    + apply Forall_app. split; [|done]. eapply Forall_impl; [exact Hpast|]. intros r. apply K1.
    + rewrite length_app, length_map in E2. rewrite <- (same_references _ _ Sd) in E2, D2. exists sl2.
      rewrite E2, length_app, length_map, <- !app_assoc in *. rewrite drop_drop.
      replace (length (references (S i) (visible (drop (S i) sl))) + length (generators s))%nat
        with (length (generators s) + length (references (S i) (visible (drop (S i) sl))))%nat by lia.
      split; [do 2 f_equal; lia|]. split; [by eapply same_trans|done].
Qed.

Lemma visible_zeros l n : visible (l ++ replicate n zero_slave) = visible l.
Proof. induction l as [|s l IH]; cbn [visible app]; [by destruct n|]. by rewrite IH. Qed.

Lemma length_visible l : (length (visible l) <= length l)%nat.
Proof. induction l as [|s l IH]; cbn [visible length]; [done|]. case_if; cbn [length]; lia. Qed.

Lemma zero_devs base slots n :
  Forall (fun s => length (devs s) = 3%nat) (map (found_slave base) slots ++ replicate n zero_slave).
Proof.
  apply Forall_app. split; [|by apply Forall_replicate].
  induction slots; constructor; done.
Qed.

(** The scan of the bus. *)
Lemma scan_scu_bus_spec base bus id : length (slaves bus) = S (Z.to_nat MAX_SCU_SLAVES) ->
  let found := map (found_slave base) (List.filter (occupied base) all_slots) in
  scan_scu_bus base bus id =
    Some (mk_scu_bus id (found ++ replicate (13 - length found) zero_slave), Z.of_nat (length found)).
Proof.
  intros Hl found. unfold scan_scu_bus. rewrite Hl. change (S (Z.to_nat MAX_SCU_SLAVES)) with 13%nat.
  pose proof (length_found base) as Hn. pose proof (scan_slots_spec base all_slots [] (replicate 13 zero_slave)) as Hs.
  cbn [app length Nat.add] in Hs. rewrite Hs by (rewrite length_replicate; change (length all_slots) with 12%nat; lia). clear Hs.
  fold found. unfold found in *. rewrite length_map in *. set (k := length (List.filter (occupied base) all_slots)) in *.
  rewrite drop_replicate. cbn [mbind option_bind]. cbv beta iota.
  replace (13 - k)%nat with (S (12 - k)) by lia. cbn [replicate].
  assert (k = length (map (found_slave base) (List.filter (occupied base) all_slots))) as Hk by (by rewrite length_map).
  rewrite list_lookup_middle by done. cbn [mbind option_bind].
  rewrite array_set_lt by (rewrite length_app, <- Hk; cbn; lia). cbn [mbind option_bind].
  rewrite Hk at 1. rewrite insert_next, <- app_assoc. done.
Qed.

(** The scan finds the occupied slots of the SCU bus in ascending order, at
    most twelve, and lists the function generators of the slaves it finds, two for an
    ADDAC and one for a DIOB card of the CSCO, each described and with its
    slave, up to the first slave whose identifier reads as zero; both arrays
    have room for every bus and for the entry that ends them. *)
Theorem generators_found (base_adr : Z -> Z) (bus : scu_bus) (id : Z) (l : fg_list)
    (Hbus : length (slaves bus) = S (Z.to_nat MAX_SCU_SLAVES)) (Hl : length l = S (Z.to_nat MAX_FG_DEVICES)) :
  let found := map (found_slave base_adr) (List.filter (occupied base_adr) all_slots) in
  let refs := references 0 (visible found) in
  exists bus1 bus2,
    scan_scu_bus base_adr bus id = Some (bus1, Z.of_nat (length found)) /\
    slaves bus1 = found ++ replicate (13 - length found) zero_slave /\
    scan_for_fgs bus1 l = Some (bus2, map Some refs ++ None :: drop (S (length refs)) l) /\
    Z.of_nat (length refs) <= MAX_FG_DEVICES /\
    Forall2 same_slave (slaves bus1) (slaves bus2) /\ Forall (described (slaves bus2)) refs.
Proof.
  intros found refs.
  assert (length found <= 12)%nat as Hn by (unfold found; rewrite length_map; apply length_found).
  assert (length refs <= 24)%nat as Hr.
  { unfold refs. pose proof (length_references (visible found) 0). pose proof (length_visible found). lia. }
  pose proof (scan_scu_bus_spec base_adr bus id Hbus) as Hscan. cbv zeta in Hscan. fold found in Hscan.
  set (sl := found ++ replicate (13 - length found) zero_slave) in *.
  assert (length sl = 13)%nat as Hsl by (unfold sl; rewrite length_app, length_replicate; lia).
  assert (visible (drop 0 sl) = visible found) as Hv by (unfold sl; cbn [drop]; apply visible_zeros).
  pose proof (fgs_loop_spec (length sl) 0 sl [] l) as Hf. rewrite Hv in Hf. fold refs in Hf. cbv zeta in Hf.
  change (Z.to_nat MAX_FG_DEVICES) with 24%nat in Hl.
  destruct Hf as (sl2 & E & S2 & D2); [pose proof (length_visible found); lia|pose proof (length_visible found); lia
    |apply zero_devs|cbn [length]; lia|cbn [length]; lia|constructor|].
  cbn [map app length Nat.add] in E, D2.
  exists (mk_scu_bus id sl), (mk_scu_bus id sl2). split; [exact Hscan|]. split; [done|].
  split; [|split; [unfold MAX_FG_DEVICES, MAX_FG_PER_SLAVE, MAX_SCU_SLAVES; lia|by split]].
  unfold scan_for_fgs. cbn [slaves bus_id]. rewrite E. cbn [mbind option_bind]. cbv beta iota.
  destruct (drop (length refs) l) as [|y rest] eqn:Ed; [apply (f_equal length) in Ed; rewrite length_drop in Ed; cbn in Ed; lia|].
  rewrite array_set_lt by (rewrite length_app, length_map; cbn; lia). cbn [mbind option_bind].
  assert (<[length refs := None]> (map Some refs ++ y :: rest) = (map Some refs ++ [None]) ++ rest) as ->.
  { rewrite <- (length_map (@Some (nat * nat)) refs) at 1. apply insert_next. }
  replace (drop (S (length refs)) l) with rest by (rewrite <- Nat.add_1_r, <- drop_drop, Ed; done).
  by rewrite <- app_assoc.
Qed.

(** ** Instances *)

(** An ADDAC in slot 2, a DIOB in slot 5, something else in slot 7. *)
Definition sample_base (a : Z) : Z :=
  let card sys group k := match k with 0x4 => sys | 0x5 => group | 0x6 => 3 | 0x43 => 0x99 | _ => 0 end in
  match a / 2 ^ 16 with
  | 2 => card 55 38 (a mod 2 ^ 16)
  | 5 => card 55 26 (a mod 2 ^ 16)
  | 7 => card 40 1 (a mod 2 ^ 16)
  | _ => 0xdead
  end.

Lemma generators_found_witness :
  exists bus1 bus2,
    scan_scu_bus sample_base (mk_scu_bus 0 (replicate 13 zero_slave)) 77 = Some (bus1, 3) /\
    scan_for_fgs bus1 (replicate 25 None) = Some (bus2, [Some (0, 0); Some (0, 1); Some (1, 0)]%nat ++ replicate 22 None) /\
    map slot (slaves bus1) = [2; 5; 7; 0; 0; 0; 0; 0; 0; 0; 0; 0; 0].
Proof.
  destruct (generators_found sample_base (mk_scu_bus 0 (replicate 13 zero_slave)) 77 (replicate 25 None) eq_refl eq_refl)
    as (bus1 & bus2 & E1 & Hs & E2 & _).
  exists bus1, bus2. split; [exact E1|]. split; [exact E2|]. rewrite Hs. reflexivity.
Defined.
