(* ===== verification/Lm32.v ===== *)
(** The UDP transport of the soft CPU: [src/api/transport/lm32.c]. Parsing of a
    device address into the link, the checksums, the headers and the frame
    handed to the network interface. A character string is the list of its
    characters without the terminator, a buffer the list of its bytes, and an
    access outside of an array is [None]. The CPU is big-endian. *)
From stdpp Require Import base list strings.
From Stdlib Require Import ZArith Lia.
From S2P Require Import Prelude Widths.

(** * Offsets in the headers *)

Definition IP_START : nat := 0.
Definition IP_VER_IHL : nat := 0.
Definition IP_DSCP_ECN : nat := IP_VER_IHL + 1.
Definition IP_TOL : nat := IP_DSCP_ECN + 1.
Definition IP_ID : nat := IP_TOL + 2.
Definition IP_FLG_FRG : nat := IP_ID + 2.
Definition IP_TTL : nat := IP_FLG_FRG + 2.
Definition IP_PROTO : nat := IP_TTL + 1.
Definition IP_CHKSUM : nat := IP_PROTO + 1.
Definition IP_SPA : nat := IP_CHKSUM + 2.
Definition IP_DPA : nat := IP_SPA + 4.
Definition IP_END : nat := IP_DPA + 4.
Definition UDP_START : nat := IP_END.
Definition UDP_SPP : nat := IP_END.
Definition UDP_DPP : nat := UDP_SPP + 2.
Definition UDP_LEN : nat := UDP_DPP + 2.
Definition UDP_CHKSUM : nat := UDP_LEN + 2.
Definition UDP_END : nat := UDP_CHKSUM + 2.

(** The lengths are macros without parentheses; these are the sums the code
    writes out with them. *)
Definition plus_headers (len : Z) : Z :=
  len + Z.of_nat IP_END - Z.of_nat IP_START + Z.of_nat UDP_END - Z.of_nat UDP_START.
Definition plus_udp_header (len : Z) : Z := len + Z.of_nat UDP_END - Z.of_nat UDP_START.
Definition headers_plus (len : Z) : Z :=
  Z.of_nat UDP_END - Z.of_nat UDP_START + Z.of_nat IP_END - Z.of_nat IP_START + len.

Definition MAC : Z := 1.
Definition IP : Z := 2.
Definition PORT : Z := 3.
Definition myPort : Z := 0xEBD0.

Record eb_lm32_udp_link := mk_udp_link { mac : list Z; ipv4 : list Z; port : Z }.

(** * Strings *)

(** What follows the first [delimeter], or the end of the string. *)
Fixpoint strsplit (numstr : list Z) (delimeter : Z) : list Z :=
  match numstr with
  | [] => []
  | c :: pch => if c =? delimeter then pch else strsplit pch delimeter
  end.

(** [strtol (s, &end, base)] of the C library for a fixed base, on a 32-bit [long]. *)
Definition skip_prefix (base : Z) (s : list Z) : list Z :=
  match s with
  | c :: x :: t =>
      if (base =? 16) && (c =? 48) && ((x =? 120) || (x =? 88)) && has_digit 16 t then t else s
  | _ => s
  end.

Definition strtol_in (base : Z) (s : list Z) : Z * list Z :=
  let '(neg, s1) := strtol_sign (skip_space s) in
  let s2 := skip_prefix base s1 in
  if has_digit base s2 then
    let '(v, rest) := strtol_digits base 0 s2 in
    (Z.max (- 2 ^ 31) (Z.min (2 ^ 31 - 1) (if neg then - v else v)), rest)
  else (0, s).

Definition atoi (s : list Z) : Z := (strtol_in 10 s).1.

(** The value [strsplit] gives to [pend] is overwritten by [strtol]; a pointer
    past the terminator is [None]. Every round stores a byte, so [len] rounds
    are enough. *)
Fixpoint bytes_loop (fuel : nat) (pch : option (list Z)) (bytes : list Z) (byteCount len base : Z)
    : option (list Z) :=
  if byteCount <? len then
    match fuel, pch with
    | S fuel, Some s =>
        let '(tmpconv, pend) := strtol_in base s in
        '(bytes, byteCount) ←
          (if 255 <? tmpconv
           then bytes ← array_set bytes (Z.to_nat byteCount) ((tmpconv .>> 8) .& 0xff); Some (bytes, u8 (byteCount + 1))
           else Some (bytes, byteCount));
        bytes ← array_set bytes (Z.to_nat byteCount) (tmpconv .& 0xff);
        bytes_loop fuel (match pend with [] => None | _ :: pch => Some pch end) bytes (u8 (byteCount + 1)) len base
    | _, _ => None
    end
  else Some bytes.

Definition numStrToBytes (numstr bytes : list Z) (len base : Z) : option (list Z) :=
  bytes_loop (Z.to_nat len) (Some numstr) bytes 0 len base.

(** The delimiter only serves [strsplit] there. *)
Definition addressStrToBytes (addressStr addressBytes : list Z) (addtype : Z) : option (list Z) :=
  if addtype =? MAC then numStrToBytes addressStr addressBytes 6 16
  else if addtype =? IP then numStrToBytes addressStr addressBytes 4 10
  else Some addressBytes.

(** [strncmp (literal, pch, length literal) == 0]. *)
Definition starts_with (literal : string) (pch : list Z) : bool :=
  bool_decide (take (length (cstr literal)) pch = cstr literal).

Definition slash : Z := 47.

(** The null pointer is refused; [strsplit] never returns one. *)
Definition eb_lm32_udp_connect (link : eb_lm32_udp_link) (address : option (list Z))
    : option (Z * eb_lm32_udp_link) :=
  match address with
  | None => Some (EB_FAIL, link)
  | Some pch =>
      if negb (starts_with "hw" pch) then Some (EB_FAIL, link) else
      let pch := strsplit pch slash in
      mac ← addressStrToBytes pch (mac link) MAC;
      let link := mk_udp_link mac (ipv4 link) (port link) in
      let pch := strsplit pch slash in
      if negb (starts_with "udp" pch) then Some (EB_FAIL, link) else
      let pch := strsplit pch slash in
      ipv4 ← addressStrToBytes pch (ipv4 link) IP;
      let link := mk_udp_link mac ipv4 (port link) in
      let pch := strsplit pch slash in
      if negb (starts_with "port" pch) then Some (EB_FAIL, link) else
      let pch := strsplit pch slash in
      Some (EB_OK, mk_udp_link mac ipv4 (u16 (atoi pch)))
  end.

(** * Checksums *)

(** The loops over the halfwords of a buffer: the index after the last one
    and the sum, a 32-bit word. *)
Fixpoint sum_loop (join : Z -> Z -> Z) (fuel : nat) (buf : list Z) (i limit : nat) (sum : Z) : option (nat * Z) :=
  match fuel with
  | O => None
  | S fuel =>
      if (i <? limit)%nat then
        hi ← buf !! i; lo ← buf !! S i;
        sum_loop join fuel buf (i + 2) limit (u32 (sum + join hi lo))
      else Some (i, sum)
  end.

Definition join_ip (hi lo : Z) : Z := (hi .<< 8) .| lo.
Definition join_udp (hi lo : Z) : Z := ((hi .<< 8) .& 0xFF00) .| (lo .& 0x00FF).

(** The carries are added twice and the sum is inverted. *)
Definition fold_carries (sum : Z) : Z :=
  let sum := u32 ((sum .>> 16) + (sum .& 0xffff)) in
  let sum := u32 (sum + (sum .>> 16)) in
  u32 (Z.lnot sum) .& 0xffff.

Definition myIP_checksum (buf : list Z) (shorts : nat) : option Z :=
  '(_, sum) ← sum_loop join_ip (S (2 * shorts)) buf 0 (2 * shorts) 0;
  Some (fold_carries sum).

Definition udp_checksum (hdrbuf databuf : list Z) (len : Z) : option Z :=
  '(i, sum) ← sum_loop join_udp (S (Z.to_nat len)) databuf 0 (Z.to_nat len) 0;
  sum ← (if negb (len .& 1 =? 0) then last ← databuf !! S i; Some (u32 (sum + (last .<< 8))) else Some sum);
  let half off := hi ← hdrbuf !! off; lo ← hdrbuf !! S off; Some (join_udp hi lo) in
  spa0 ← half IP_SPA; spa1 ← half (IP_SPA + 2)%nat; dpa0 ← half IP_DPA; dpa1 ← half (IP_DPA + 2)%nat;
  proto ← hdrbuf !! IP_PROTO;
  spp ← half UDP_SPP; dpp ← half UDP_DPP; ulen ← half UDP_LEN; chk ← half UDP_CHKSUM;
  let pseudosum :=
    u32 (u32 (u32 (u32 (u32 (u32 (u32 (u32 (u32 spa0 + spa1) + dpa0) + dpa1) + (proto .& 0xff)) + spp) + dpp) + ulen) + chk) in
  Some (fold_carries (u32 (sum + u32 (u32 (pseudosum + len) + 8)))).

(** * Headers and frames *)

Definition memcpy (b : list Z) (off : nat) (bs : list Z) : option (list Z) :=
  if (off + length bs <=? length b)%nat then Some (splice b off bs) else None.

Definition createUdpIpHdr (own_ip : list Z) (link : eb_lm32_udp_link) (hdrbuf databuf : list Z) (len : Z)
    : option (list Z) :=
  let iptol := u16 (plus_headers len) in
  let udplen := u16 (plus_udp_header len) in
  h ← array_set hdrbuf IP_VER_IHL 0x45;
  h ← array_set h IP_DSCP_ECN 0x00;
  h ← array_set h IP_TOL (u8 (iptol .>> 8));
  h ← array_set h (IP_TOL + 1) (u8 (iptol .& 0xff));
  h ← array_set h IP_ID 0x00;
  h ← array_set h (IP_ID + 1) 0x00;
  h ← array_set h IP_FLG_FRG 0x00;
  h ← array_set h (IP_FLG_FRG + 1) 0x00;
  h ← array_set h IP_PROTO 0x11;
  h ← array_set h IP_TTL 0x10;
  h ← array_set h IP_CHKSUM 0x00;
  h ← array_set h (IP_CHKSUM + 1) 0x00;
  h ← memcpy h IP_SPA own_ip;
  h ← memcpy h IP_DPA (take 4 (ipv4 link));
  ipchksum ← myIP_checksum h 10;
  h ← array_set h IP_CHKSUM (u8 (ipchksum .>> 8));
  h ← array_set h (IP_CHKSUM + 1) (u8 ipchksum);
  h ← memcpy h UDP_SPP (be_bytes 2 myPort);
  h ← memcpy h UDP_DPP (be_bytes 2 (port link));
  h ← array_set h UDP_LEN (u8 (udplen .>> 8));
  h ← array_set h (UDP_LEN + 1) (u8 udplen);
  h ← array_set h UDP_CHKSUM 0x00;
  h ← array_set h (UDP_CHKSUM + 1) 0x00;
  sum ← udp_checksum h databuf len;
  h ← array_set h UDP_CHKSUM (u8 (sum .>> 8));
  array_set h (UDP_CHKSUM + 1) (u8 sum).

(** The frame handed to [ptpd_netif_sendto] and the hardware address it goes to;
    [tx_buf] is the uninitialised buffer of 1500 bytes. *)
Definition eb_lm32_udp_send (own_ip : list Z) (tx_buf : list Z) (link : eb_lm32_udp_link) (buf : list Z) (len : Z)
    : option (list Z * list Z) :=
  tx ← createUdpIpHdr own_ip link tx_buf buf (u16 len);
  tx ← (if (Z.to_nat len <=? length buf)%nat then memcpy tx UDP_END (take (Z.to_nat len) buf) else None);
  if (Z.to_nat (headers_plus len) <=? length tx)%nat
  then Some (take 6 (mac link), take (Z.to_nat (headers_plus len)) tx) else None.

(** Opening: the network interface gives a socket or none. *)
Definition eb_lm32_udp_open (sock4 : option Z) : Z * option Z :=
  match sock4 with None => (EB_BUSY, None) | Some s => (EB_OK, Some s) end.

(** Polling: the result of [ptpd_netif_recvfrom] is kept in an [uint16_t]. The payload is
    copied over the argument [buf] itself, a pointer of four bytes; the buffer of the
    caller stays as it is, and a longer payload overruns the stack, [None]. *)
Definition minus_headers (rx_len : Z) : Z :=
  rx_len - Z.of_nat UDP_END - Z.of_nat UDP_START + Z.of_nat IP_END - Z.of_nat IP_START.
Definition eb_lm32_udp_poll (received len : Z) : option Z :=
  let rx_len := u16 received in
  if rx_len <=? 0 then Some (-1)
  else if rx_len <? len then Some (-1)
  else if (0 <=? minus_headers rx_len) && (minus_headers rx_len <=? 4) then Some (minus_headers rx_len) else None.

(** The other operations do nothing. *)
Definition eb_lm32_udp_recv : Z := 0.
Definition eb_lm32_udp_accept : Z := 0.

(** No frame with a payload of more than four bytes can be received, and a failed
    reception is taken for a frame of 65535 bytes. *)
Lemma poll_overruns received len : 32 < received < 2 ^ 16 -> len <= received -> eb_lm32_udp_poll received len = None.
Proof.
  intros Hr Hl. unfold eb_lm32_udp_poll. rewrite wrap_small by lia.
  rewrite (proj2 (Z.leb_gt _ 0)), (proj2 (Z.ltb_ge received len)) by lia. change (minus_headers received) with (received - 28 - 20 + 20 - 0).
  rewrite (proj2 (Z.leb_gt _ 4)) by lia. by rewrite andb_false_r.
Qed.

Lemma poll_failed_reception len : len < 2 ^ 16 -> eb_lm32_udp_poll (-1) len = None.
Proof. intros Hl. change (eb_lm32_udp_poll (-1) len) with (eb_lm32_udp_poll 65535 len). apply poll_overruns; lia. Qed.

(** * The one's complement sum of RFC 1071 *)

(** Addition with the carry added back at the bottom. *)
Definition oc_add (a b : Z) : Z := if a + b <? 2 ^ 16 then a + b else a + b - (2 ^ 16 - 1).

(** The halfwords of a message; an odd last byte is padded. *)
Fixpoint halfwords (l : list Z) : list Z :=
  match l with
  | hi :: lo :: l => be_val [hi; lo] :: halfwords l
  | [hi] => [be_val [hi; 0]]
  | [] => []
  end.

Definition oc_sum (l : list Z) : Z := fold_left oc_add (halfwords l) 0.

(** Sums are compared through their representative between 0 and 65535. *)
Definition canon (s : Z) : Z := if s =? 0 then 0 else (s - 1) mod 65535 + 1.
Definition total (l : list Z) : Z := foldr Z.add 0 (halfwords l).

Lemma halfwords_app l1 l2 : Nat.even (length l1) = true -> halfwords (l1 ++ l2) = halfwords l1 ++ halfwords l2.
Proof.
  revert l1. fix IH 1. intros [|a [|b l1]] H; [done|done|].
  cbn [app halfwords]. f_equal. apply IH. exact H.
Qed.

Lemma total_app l1 l2 : Nat.even (length l1) = true -> total (l1 ++ l2) = total l1 + total l2.
Proof.
  intros H. unfold total. rewrite halfwords_app by done. generalize (halfwords l1). intros l.
  induction l as [|x l IH]; cbn; [done|lia].
Qed.

Lemma halfwords_ok l : bytes_ok l -> Forall (fun w => 0 <= w < 2 ^ 16) (halfwords l).
Proof.
  revert l. fix IH 1. intros [|a [|b l]] H; [constructor|..].
  - inversion H; subst. repeat constructor; cbn; lia.
  - inversion H as [|x1 l1 Ha H1]; subst. inversion H1 as [|x2 l2 Hb H2]; subst.
    cbn [halfwords]. constructor; [cbn; lia|by apply IH].
Qed.

Lemma canon_range s : 0 <= s -> 0 <= canon s <= 65535.
Proof. unfold canon. intros. case_if; [lia|]. pose proof (Z.mod_pos_bound (s - 1) 65535). lia. Qed.

Lemma canon_small s : 0 <= s <= 65535 -> canon s = s.
Proof. unfold canon. intros. case_if; bool_hyps; [lia|]. rewrite Z.mod_small; lia. Qed.

Lemma oc_add_canon s w : 0 <= s -> 0 <= w < 2 ^ 16 -> oc_add (canon s) w = canon (s + w).
Proof.
  unfold oc_add, canon. intros. pose proof (Z.mod_pos_bound (s - 1) 65535).
  zcases; Z.div_mod_to_equations; lia.
Qed.

Lemma oc_sum_total l : bytes_ok l -> oc_sum l = canon (total l) /\ 0 <= total l.
Proof.
  intros Hl. apply halfwords_ok in Hl. unfold oc_sum, total. revert Hl. generalize (halfwords l). clear l. intros l Hl.
  assert (forall s, 0 <= s -> fold_left oc_add l (canon s) = canon (s + foldr Z.add 0 l) /\ 0 <= foldr Z.add 0 l) as H.
  { induction Hl as [|w l Hw Hl IH]; intros s Hs; cbn [fold_left foldr]; [split; [f_equal; lia|lia]|].
    rewrite oc_add_canon by done. destruct (IH (s + w)) as [-> ?]; [lia|]. split; [f_equal; lia|lia]. }
  exact (H 0 ltac:(lia)).
Qed.

(** A sum together with the complement of its representative. *)
Lemma canon_complement s : 0 <= s -> canon (s + (65535 - canon s)) = 65535.
Proof.
  intros Hs. assert (exists q, 0 <= q /\ canon s = s - 65535 * q) as (q & Hq0 & Hq).
  { unfold canon. case_if; bool_hyps; [exists 0; lia|]. exists ((s - 1) / 65535).
    split; [apply Z.div_pos; lia|]. pose proof (Z.div_mod (s - 1) 65535). lia. }
  pose proof (canon_range s Hs). replace (s + (65535 - canon s)) with (65534 + 1 + (0 + q) * 65535) by lia.
  unfold canon. case_if; bool_hyps; [lia|].
  replace (65534 + 1 + (0 + q) * 65535 - 1) with (65534 + q * 65535) by lia.
  by rewrite Z.mod_add.
Qed.

Lemma fold_carries_spec s : 0 <= s < 2 ^ 32 -> fold_carries s = 65535 - canon s.
Proof.
  intros Hs. unfold fold_carries. change 0xffff with (Z.ones 16).
  rewrite !Z.land_ones, !Z.shiftr_div_pow2 by lia.
  change (2 ^ 16) with 65536. change (2 ^ 32) with 4294967296 in Hs.
  set (t := s / 65536 + s mod 65536).
  assert (0 <= t <= 131070) as Ht by (unfold t; Z.div_mod_to_equations; lia).
  rewrite (wrap_small 32 t), (wrap_small 32 (t + _)) by (change (2 ^ 32) with 4294967296; Z.div_mod_to_equations; lia).
  unfold wrap, Z.lnot. change (2 ^ 32) with 4294967296.
  set (u := t + t / 65536).
  assert (Z.pred (- u) mod 4294967296 mod 65536 = 65535 - u mod 65536) as ->.
  { clearbody u. Z.div_mod_to_equations. lia. }
  assert (s = t + 65535 * (s / 65536) /\ 0 <= s / 65536 /\ (t = 0 -> s = 0)) as (E & Hh & H0)
    by (unfold t; Z.div_mod_to_equations; lia).
  clearbody t. f_equal. unfold canon. case_if; bool_hyps.
  { assert (t = 0) as Ht0 by lia. unfold u. by rewrite Ht0. }
  destruct (Z.lt_ge_cases t 65536) as [Hlt|Hge].
  - unfold u. rewrite (Z.div_small t) by lia. rewrite Z.mod_small by lia.
    rewrite <- (Z.mod_unique_pos (s - 1) 65535 (s / 65536) (t - 1)); lia.
  - assert (t / 65536 = 1) as Hq by (Z.div_mod_to_equations; lia). unfold u. rewrite Hq.
    rewrite <- (Z.mod_unique_pos (t + 1) 65536 1 (t - 65535)) by lia.
    rewrite <- (Z.mod_unique_pos (s - 1) 65535 (s / 65536 + 1) (t - 65536)); lia.
Qed.

(** * The checksum loops *)

Lemma halves_val hi lo : is_byte hi -> is_byte lo ->
  join_ip hi lo = be_val [hi; lo] /\ join_udp hi lo = be_val [hi; lo].
Proof.
  intros Hh Hl.
  assert ((join_ip hi lo =? be_val [hi; lo]) && (join_udp hi lo =? be_val [hi; lo]) = true) as H.
  { refine (byte_forall2 (fun hi lo => (join_ip hi lo =? be_val [hi; lo]) && (join_udp hi lo =? be_val [hi; lo])) _ hi lo Hh Hl).
    vm_compute. reflexivity. }
  by bool_hyps.
Qed.

Lemma total_bound_even k l : bytes_ok l -> length l = (2 * k)%nat -> 0 <= total l <= 65535 * Z.of_nat k.
Proof.
  revert l. induction k as [|k IH]; intros l H Hl; [destruct l; [cbn; lia|discriminate]|].
  destruct l as [|a [|b l]]; [cbn in Hl; lia..|].
  inversion H as [|x1 l1 Ha H1]; subst. inversion H1 as [|x2 l2 Hb H2]; subst.
  specialize (IH l H2 ltac:(cbn in Hl; lia)). unfold total in *. cbn [halfwords foldr be_val fold_left]. lia.
Qed.

Lemma sum_loop_spec join buf : (forall hi lo, is_byte hi -> is_byte lo -> join hi lo = be_val [hi; lo]) ->
  bytes_ok buf -> forall k fuel i sum,
  (i + 2 * k <= length buf)%nat -> (k < fuel)%nat -> 0 <= sum -> sum + 65535 * Z.of_nat k < 2 ^ 32 ->
  sum_loop join fuel buf i (i + 2 * k) sum = Some ((i + 2 * k)%nat, sum + total (slice buf i (2 * k))).
Proof.
  intros Hj Hb. induction k as [|k IH]; intros [|fuel] i sum Hl Hf Hs Hmax; try lia; cbn [sum_loop].
  - rewrite Nat.add_0_r, Nat.ltb_irrefl. do 2 f_equal. unfold slice, total. rewrite take_0. cbn. lia.
  - rewrite (proj2 (Nat.ltb_lt _ _)) by lia.
    assert (exists hi lo, drop i buf = hi :: lo :: drop (i + 2) buf /\ buf !! i = Some hi /\ buf !! S i = Some lo) as (hi & lo & Ed & Eh & El).
    { destruct (lookup_lt_is_Some_2 buf i) as [hi Eh]; [lia|]. destruct (lookup_lt_is_Some_2 buf (S i)) as [lo El]; [lia|].
      exists hi, lo. split; [|done]. rewrite (drop_S _ _ _ Eh), (drop_S _ _ _ El). do 2 f_equal. f_equal. lia. }
    rewrite Eh, El. cbn [mbind option_bind].
    pose proof (Forall_lookup_1 _ _ _ _ Hb Eh) as Hh. pose proof (Forall_lookup_1 _ _ _ _ Hb El) as Hlo. cbn beta in Hh, Hlo.
    rewrite (Hj hi lo) by done. assert (0 <= be_val [hi; lo] <= 65535) as Hw by (cbn; lia).
    rewrite wrap_small by lia. replace (i + 2 * S k)%nat with (i + 2 + 2 * k)%nat by lia.
    rewrite (IH fuel (i + 2)%nat) by lia. do 2 f_equal. unfold slice. rewrite Ed.
    replace (2 * S k)%nat with (S (S (2 * k))) by lia. cbn [take]. unfold total. cbn [halfwords foldr]. lia.
Qed.

Lemma myIP_checksum_spec buf k : bytes_ok buf -> (2 * k <= length buf)%nat -> Z.of_nat k <= 2 ^ 15 ->
  myIP_checksum buf k = Some (65535 - oc_sum (take (2 * k) buf)).
Proof.
  intros Hb Hl Hk. unfold myIP_checksum.
  rewrite (sum_loop_spec join_ip buf) with (i := 0%nat) (k := k); [|intros; by apply halves_val|done|lia..].
  cbn [mbind option_bind Nat.add]. f_equal. change (slice buf 0 (2 * k)) with (take (2 * k) buf).
  assert (bytes_ok (take (2 * k) buf)) as Ht by by apply Forall_take.
  pose proof (total_bound_even k _ Ht ltac:(rewrite length_take; lia)).
  rewrite fold_carries_spec by lia. destruct (oc_sum_total _ Ht) as [-> _]. by f_equal.
Qed.

(** The sum of a message with the complement in its checksum field. *)
Lemma total_half x : 0 <= x < 2 ^ 16 -> total (be_bytes 2 x) = x.
Proof.
  intros Hx. unfold total. cbn [be_bytes halfwords foldr].
  change [(x .>> (8 * Z.of_nat 1)) .& 255; (x .>> (8 * Z.of_nat 0)) .& 255] with (be_bytes 2 x).
  rewrite be_val_bytes, wrap_small by done. lia.
Qed.

Lemma bytes_of_half x : 0 <= x < 2 ^ 16 -> [u8 (x .>> 8); u8 x] = be_bytes 2 x.
Proof.
  intros Hx. cbn [be_bytes]. rewrite !land_255. change (8 * Z.of_nat 1) with 8. change (8 * Z.of_nat 0) with 0.
  by rewrite Z.shiftr_0_r.
Qed.

Lemma sealed_sum l1 l2 c : bytes_ok (l1 ++ l2) -> Nat.even (length l1) = true ->
  c = 65535 - oc_sum (l1 ++ [0; 0] ++ l2) -> 0 <= c < 2 ^ 16 /\ oc_sum (l1 ++ be_bytes 2 c ++ l2) = 65535.
Proof.
  intros Hok He ->. apply Forall_app in Hok as [H1 H2].
  assert (bytes_ok (l1 ++ [0; 0] ++ l2)) as H0 by (repeat apply Forall_app_2; [done|repeat constructor; lia|done]).
  destruct (oc_sum_total _ H0) as [E Hp]. rewrite total_app, (total_app [0; 0]) in E, Hp by done.
  change (total [0; 0]) with 0 in *. pose proof (canon_range _ Hp) as Hr. rewrite <- E in Hr.
  split; [lia|]. set (c := 65535 - oc_sum _) in *.
  assert (bytes_ok (l1 ++ be_bytes 2 c ++ l2)) as Hc by (repeat apply Forall_app_2; [done|apply be_bytes_ok|done]).
  destruct (oc_sum_total _ Hc) as [-> _]. rewrite total_app, (total_app (be_bytes 2 c)), total_half by (done || lia).
  replace (total l1 + (c + total l2)) with (total l1 + (0 + total l2) + (65535 - canon (total l1 + (0 + total l2)))) by lia.
  by apply canon_complement.
Qed.

(** * Headers *)

Definition ip_header (total_length checksum : Z) (src dst : list Z) : list Z :=
  ([0x45; 0] ++ be_bytes 2 total_length ++ [0; 0; 0; 0; 16; 17]) ++ be_bytes 2 checksum ++ (src ++ dst).
Definition udp_header (src dst length checksum : Z) : list Z :=
  (be_bytes 2 src ++ be_bytes 2 dst ++ be_bytes 2 length) ++ be_bytes 2 checksum.
Definition pseudo_header (src dst : list Z) (length : Z) : list Z := (src ++ dst) ++ [0; 17] ++ be_bytes 2 length.

Ltac explode l H n :=
  lazymatch n with
  | O => idtac
  | S ?m => let x := fresh "x" in destruct l as [|x l]; [cbn in H; lia|]; explode l H m
  end.

(** The header the code computes, its two checksums apart. *)
Lemma header_shape own link hdrbuf databuf len : length own = 4%nat -> length (ipv4 link) = 4%nat ->
  0 <= len -> len + 28 < 2 ^ 16 -> 0 <= port link < 2 ^ 16 -> (28 <= length hdrbuf)%nat ->
  (forall b k c, myIP_checksum b k = Some c -> 0 <= c < 2 ^ 16) ->
  (forall h b n c, udp_checksum h b n = Some c -> 0 <= c < 2 ^ 16) ->
  createUdpIpHdr own link hdrbuf databuf len =
    c ← myIP_checksum (ip_header (len + 28) 0 own (ipv4 link) ++ drop 20 hdrbuf) 10;
    s ← udp_checksum (ip_header (len + 28) c own (ipv4 link) ++ udp_header myPort (port link) (len + 8) 0 ++ drop 28 hdrbuf) databuf len;
    Some (ip_header (len + 28) c own (ipv4 link) ++ udp_header myPort (port link) (len + 8) s ++ drop 28 hdrbuf).
Proof.
  intros Ho Hi Hl Hl2 Hp Hh Hc1 Hc2. unfold createUdpIpHdr, plus_headers, plus_udp_header.
  change (Z.of_nat IP_END) with 20. change (Z.of_nat IP_START) with 0. change (Z.of_nat UDP_END) with 28. change (Z.of_nat UDP_START) with 20.
  replace (len + 20 - 0 + 28 - 20) with (len + 28) by lia. replace (len + 28 - 20) with (len + 8) by lia.
  rewrite !(wrap_small 16) by lia.
  pose proof (bytes_of_half (len + 28) ltac:(lia)) as E1. pose proof (bytes_of_half (len + 8) ltac:(lia)) as E2.
  assert (forall x, 0 <= x < 2 ^ 16 -> u8 (x .>> 8) = (x .>> 8) .& 255 /\ u8 x = (x .>> 0) .& 255) as E3.
  { intros x Hx. by injection (bytes_of_half x Hx). }
  destruct link as [m ip p]. cbn [ipv4 port mac] in *.
  explode own Ho 4%nat. explode ip Hi 4%nat. destruct own; [|cbn in Ho; lia]. destruct ip; [|cbn in Hi; lia].
  explode hdrbuf Hh 28%nat. clear Ho Hi Hh.
  unfold ip_header, udp_header. rewrite <- E1, <- E2. clear E1 E2.
  rewrite (land_255 (len + 28)). change ((len + 28) mod 256) with (u8 (len + 28)). rewrite wrap_wrap by lia.
  cbv -[wrap Z.shiftr Z.land Z.add Z.modulo myIP_checksum udp_checksum].
  destruct (myIP_checksum _ _) as [c|] eqn:Ec; [|done].
  destruct (E3 c (Hc1 _ _ _ Ec)) as [-> ->].
  destruct (udp_checksum _ _ _) as [k|] eqn:Ek; [|done].
  by destruct (E3 k (Hc2 _ _ _ _ Ek)) as [-> ->].
Qed.

Lemma fold_carries_range s : 0 <= fold_carries s < 2 ^ 16.
Proof. unfold fold_carries. change 0xffff with (Z.ones 16). rewrite Z.land_ones by lia. apply Z.mod_pos_bound. lia. Qed.

(** The covered bytes of a UDP datagram, its checksum field apart. *)
Definition udp_covered (src dst : list Z) (sp dp length : Z) : list Z :=
  pseudo_header src dst length ++ be_bytes 2 sp ++ be_bytes 2 dp ++ be_bytes 2 length.

Lemma be_bytes_two x : exists a b, be_bytes 2 x = [a; b] /\ is_byte a /\ is_byte b.
Proof.
  pose proof (be_bytes_ok 2 x) as H. inversion H as [|a l Ha H1 E]; subst. inversion H1 as [|b l2 Hb H2 E2]; subst.
  eexists _, _. split; [reflexivity|done].
Qed.

Lemma udp_checksum_spec own ip t c sp dp rest data k : bytes_ok own -> length own = 4%nat ->
  bytes_ok ip -> length ip = 4%nat -> bytes_ok data -> (2 * k <= length data)%nat -> Z.of_nat (2 * k) + 8 < 2 ^ 16 ->
  let len := Z.of_nat (2 * k) in
  udp_checksum (ip_header t c own ip ++ udp_header sp dp (len + 8) 0 ++ rest) data len =
  Some (65535 - oc_sum (udp_covered own ip sp dp (len + 8) ++ [0; 0] ++ take (2 * k) data)).
Proof.
  intros Hbo Ho Hbi Hi Hbd Hk Hmax len. unfold udp_checksum. assert (Z.to_nat len = (2 * k)%nat) as -> by (unfold len; lia).
  rewrite (sum_loop_spec join_udp data) with (i := 0%nat) (k := k); [|intros; by apply halves_val|done|lia..].
  cbn [mbind option_bind Nat.add]. replace (len .& 1 =? 0) with true.
  2:{ symmetry. apply Z.eqb_eq. change 1 with (Z.ones 1). rewrite Z.land_ones by lia. unfold len. Z.div_mod_to_equations; lia. }
  cbn [negb mbind option_bind]. change (slice data 0 (2 * k)) with (take (2 * k) data).
  assert (bytes_ok (take (2 * k) data)) as Ht by by apply Forall_take.
  pose proof (total_bound_even k _ Ht ltac:(rewrite length_take; lia)) as Hb.
  assert (bytes_ok (udp_covered own ip sp dp (len + 8) ++ [0; 0] ++ take (2 * k) data)) as Hall.
  { unfold udp_covered, pseudo_header. repeat apply Forall_app_2; try done; try apply be_bytes_ok; repeat constructor; lia. }
  destruct (oc_sum_total _ Hall) as [-> _].
  assert (bytes_ok (udp_covered own ip sp dp (len + 8))) as Hcov by by apply Forall_app in Hall as [? _].
  rewrite total_app by (unfold udp_covered, pseudo_header; by rewrite !length_app, Ho, Hi).
  rewrite (total_app [0; 0]) by done. change (total [0; 0]) with 0.
  pose proof (total_bound_even 9 _ Hcov ltac:(unfold udp_covered, pseudo_header; by rewrite !length_app, Ho, Hi)) as Hc.
  assert (total (be_bytes 2 (len + 8)) = len + 8) as E8 by (apply total_half; lia).
  explode own Ho 4%nat. explode ip Hi 4%nat. destruct own; [|cbn in Ho; lia]. destruct ip; [|cbn in Hi; lia].
  rewrite !Forall_cons in Hbo, Hbi. destruct_and! Hbo. destruct_and! Hbi.
  unfold udp_covered, pseudo_header, ip_header, udp_header in *.
  destruct (be_bytes_two t) as (t0 & t1 & -> & _). destruct (be_bytes_two c) as (c0 & c1 & -> & _).
  destruct (be_bytes_two sp) as (s0 & s1 & Es & Hs0 & Hs1). destruct (be_bytes_two dp) as (d0 & d1 & Ed & Hd0 & Hd1).
  destruct (be_bytes_two (len + 8)) as (l0 & l1 & El & Hl0 & Hl1). rewrite Es, Ed, El in *.
  cbn -[join_udp be_val Z.add Z.mul Z.of_nat fold_carries canon total wrap take].
  assert (forall hi lo, is_byte hi -> is_byte lo -> join_udp hi lo = be_val [hi; lo]) as Hj by (intros; by apply halves_val).
  rewrite !Hj by lia. unfold total in Hc, E8 |- *.
  cbn -[be_val Z.mul Z.of_nat take] in Hc, E8 |- *.
  change (join_udp _ _) with 0. change (17 .& 255) with 17. change (be_val [0; 17]) with 17.
  repeat match goal with |- context [be_val ?w] => 
    assert (0 <= be_val w <= 65535) by (cbn; lia); let v := fresh "v" in set (v := be_val w) in *; clearbody v end.
  change (k + (k + 0))%nat with (2 * k)%nat. fold (total (take (2 * k) data)).
  set (d := total (take (2 * k) data)) in *. clearbody d.
  repeat match goal with |- context [wrap 32 ?a] =>
    lazymatch a with context [wrap _ _] => fail | _ => rewrite (wrap_small 32 a) by lia end end.
  rewrite fold_carries_spec by lia. do 3 f_equal. lia.
Qed.

(** * Addresses *)

(** Numbers in a base up to 16, without leading zeros. *)
Definition digit_char (d : Z) : Z := if d <? 10 then 48 + d else 87 + d.

Fixpoint digits (fuel : nat) (base v : Z) : list Z :=
  match fuel with
  | O => []
  | S fuel => (if v <? base then [] else digits fuel base (v / base)) ++ [digit_char (v mod base)]
  end.

Definition hex2 (b : Z) : list Z := [digit_char (b / 16); digit_char (b mod 16)].
Definition dec (v : Z) : list Z := digits 5 10 v.

Fixpoint separated (sep : Z) (l : list (list Z)) : list Z :=
  match l with
  | [] => []
  | [t] => t
  | t :: l => t ++ sep :: separated sep l
  end.

(** [hw/<mac>/udp/<ip>/port/<port>] *)
Definition address_text (m ip : list Z) (p : Z) : list Z :=
  separated slash [cstr "hw"; separated 58 (map hex2 m); cstr "udp"; separated 46 (map dec ip); cstr "port"; dec p].

(** A numeral ends at a character that is no digit of any base. *)
Definition ends (rest : list Z) : Prop := match rest with [] => True | c :: _ => digit_of c = 255 end.

Lemma digit_of_char d : 0 <= d < 16 -> digit_of (digit_char d) = d.
Proof. intros Hd. unfold digit_char. destruct (Z.ltb_spec d 10); unfold digit_of; zcases. Qed.

Lemma strtol_digits_stop base acc rest : base <= 16 -> ends rest -> strtol_digits base acc rest = (acc, rest).
Proof. intros Hb He. destruct rest as [|c rest]; [done|]. cbn in *. rewrite He. case_if; [bool_hyps; lia|done]. Qed.

Lemma strtol_digits_text base fuel v rest : 2 <= base <= 16 -> 0 <= v < base ^ Z.of_nat fuel ->
  strtol_digits base 0 (digits fuel base v ++ rest) = strtol_digits base v rest.
Proof.
  intros Hb. revert v rest. induction fuel as [|fuel IH]; intros v rest Hv; [cbn in *; f_equal; lia|].
  pose proof (Z.mod_pos_bound v base ltac:(lia)) as Hm. cbn [digits].
  assert (forall acc, strtol_digits base acc (digit_char (v mod base) :: rest) = strtol_digits base (acc * base + v mod base) rest) as Hd.
  { intros acc. cbn [strtol_digits]. rewrite digit_of_char by lia. by rewrite (proj2 (Z.ltb_lt _ _)) by lia. }
  case_if; bool_hyps.
  - cbn [app]. rewrite Hd. f_equal. rewrite Z.mod_small by lia. lia.
  - rewrite <- app_assoc. cbn [app]. rewrite IH.
    + rewrite Hd. f_equal. pose proof (Z.div_mod v base). lia.
    + rewrite Nat2Z.inj_succ, Z.pow_succ_r in Hv by lia.
      split; [apply Z.div_pos; lia|apply Z.div_lt_upper_bound; lia].
Qed.

(** Reading a numeral that starts with a digit and is followed by its end. *)
Lemma strtol_in_text base d t rest v : base = 10 \/ base = 16 -> 0 <= d < base -> ends rest ->
  (t = [] \/ exists e t', t = digit_char e :: t' /\ 0 <= e < 16) -> 0 <= v < 2 ^ 31 ->
  strtol_digits base 0 ((digit_char d :: t) ++ rest) = (v, rest) ->
  strtol_in base ((digit_char d :: t) ++ rest) = (v, rest).
Proof.
  intros Hbase Hd He Ht Hv E. unfold strtol_in. cbn [app skip_space] in *.
  assert (is_space (digit_char d) = false) as -> by (unfold digit_char, is_space; destruct (Z.ltb_spec d 10); zcases).
  assert (strtol_sign (digit_char d :: t ++ rest) = (false, digit_char d :: t ++ rest)) as ->.
  { unfold strtol_sign. assert (digit_char d <> 45 /\ digit_char d <> 43) as [H1 H2] by (unfold digit_char; case_if; bool_hyps; lia).
    apply Z.eqb_neq in H1 as ->. by apply Z.eqb_neq in H2 as ->. }
  assert (skip_prefix base (digit_char d :: t ++ rest) = digit_char d :: t ++ rest) as ->.
  { assert (forall x, digit_of x <= 15 \/ digit_of x = 255 -> (x =? 120) || (x =? 88) = false) as Hx.
    { intros x Hx. apply orb_false_iff. split; apply Z.eqb_neq; intros ->; cbn in Hx; lia. }
    unfold skip_prefix. destruct (t ++ rest) as [|x l] eqn:Et; [done|].
    rewrite (Hx x); [by rewrite andb_false_r|].
    destruct Ht as [->|(e & t' & -> & He')]; cbn in Et.
    - subst. cbn in He. by right.
    - injection Et as <- _. rewrite digit_of_char by lia. lia. }
  cbn [has_digit]. rewrite digit_of_char by lia. rewrite (proj2 (Z.ltb_lt _ _)) by lia.
  rewrite E. f_equal. lia.
Qed.

Definition digital (base : Z) : list Z -> Prop := Forall (fun c => exists d, 0 <= d < base /\ c = digit_char d).

Lemma digits_digital base fuel v : 2 <= base -> 0 <= v -> digital base (digits fuel base v).
Proof.
  intros Hb. revert v. induction fuel as [|fuel IH]; intros v Hv; [constructor|]. cbn [digits].
  apply Forall_app_2; [case_if; [constructor|apply IH, Z.div_pos; lia]|].
  constructor; [|constructor]. exists (v mod base). split; [apply Z.mod_pos_bound; lia|done].
Qed.

Lemma hex2_digital b : is_byte b -> digital 16 (hex2 b).
Proof. intros Hb. repeat constructor; eexists; (split; [|reflexivity]); Z.div_mod_to_equations; lia. Qed.

(** Reading back a numeral. *)
Lemma read_digital base text v rest : base = 10 \/ base = 16 -> digital base text -> text <> [] -> ends rest ->
  0 <= v < 2 ^ 31 -> strtol_digits base 0 (text ++ rest) = (v, rest) -> strtol_in base (text ++ rest) = (v, rest).
Proof.
  intros Hb Ht Hne He Hv E. destruct text as [|c t]; [done|].
  inversion Ht as [|c' t' (d & Hd & ->) Ht']; subst. apply strtol_in_text; try done.
  destruct t as [|c t]; [by left|right]. inversion Ht' as [|c' t' (e & He' & ->) _]; subst. exists e, t. split; [done|lia].
Qed.

Lemma read_hex b rest : is_byte b -> ends rest -> strtol_in 16 (hex2 b ++ rest) = (b, rest).
Proof.
  intros Hb He. apply read_digital; [by right|by apply hex2_digital|done|done|lia|].
  unfold hex2. cbn [app strtol_digits]. rewrite !digit_of_char by (Z.div_mod_to_equations; lia).
  rewrite !(proj2 (Z.ltb_lt _ 16)) by (Z.div_mod_to_equations; lia).
  rewrite strtol_digits_stop by done. f_equal. Z.div_mod_to_equations; lia.
Qed.

Lemma read_dec v rest : 0 <= v < 10 ^ 5 -> ends rest -> strtol_in 10 (dec v ++ rest) = (v, rest).
Proof.
  intros Hv He. apply read_digital; [by left|apply digits_digital; lia| |done|lia|].
  { unfold dec. cbn [digits]. by destruct (if v <? 10 then [] else _). }
  unfold dec. rewrite strtol_digits_text by (cbn; lia). by rewrite strtol_digits_stop.
Qed.

(** The bytes of an address in their text. *)
Lemma bytes_loop_text base sep f : (forall b rest, is_byte b -> ends rest -> strtol_in base (f b ++ rest) = (b, rest)) ->
  digit_of sep = 255 -> forall vs fuel pch stored olds rest, bytes_ok vs -> length olds = length vs ->
  (length stored + length vs < 256)%nat -> (length vs <= fuel)%nat -> ends rest ->
  (vs <> [] -> pch = Some (separated sep (map f vs) ++ rest)) ->
  bytes_loop fuel pch (stored ++ olds) (Z.of_nat (length stored)) (Z.of_nat (length stored + length vs)) base = Some (stored ++ vs).
Proof.
  intros Hf Hsep. induction vs as [|v vs IH]; intros fuel pch stored olds rest Hv Ho Hlt Hfuel He Hp.
  - destruct olds; [|done]. destruct fuel; cbn [bytes_loop]; by rewrite Nat.add_0_r, Z.ltb_irrefl.
  - destruct olds as [|o olds]; [done|]. destruct fuel as [|fuel]; cbn [length] in *; [lia|].
    cbn [bytes_loop]. rewrite (proj2 (Z.ltb_lt _ _)) by lia. rewrite Hp by done.
    apply Forall_cons in Hv as [Hb Hv].
    set (rest' := match vs with [] => rest | _ => sep :: separated sep (map f vs) ++ rest end).
    assert (separated sep (map f (v :: vs)) ++ rest = f v ++ rest') as ->.
    { unfold rest'. cbn [map separated]. destruct vs as [|w vs]; cbn [map]; [done|]. by rewrite <- app_assoc. }
    rewrite Hf by (done || unfold rest'; by destruct vs).
    rewrite (proj2 (Z.ltb_ge 255 v)) by lia. cbn [mbind option_bind].
    rewrite Nat2Z.id, array_set_lt by (rewrite length_app; cbn; lia). cbn [mbind option_bind].
    rewrite insert_next. change 0xff with (Z.ones 8). rewrite Z.land_ones, Z.mod_small by lia.
    rewrite wrap_small by lia.
    specialize (IH fuel (match rest' with [] => None | _ :: pch => Some pch end) (stored ++ [v]) olds rest).
    rewrite length_app in IH. cbn [length] in IH.
    replace (Z.of_nat (length stored) + 1) with (Z.of_nat (length stored + 1)) by lia.
    replace (length stored + S (length vs))%nat with (length stored + 1 + length vs)%nat by lia.
    rewrite (app_assoc stored [v] vs : stored ++ v :: vs = _). apply IH; try done; try lia.
    intros Hne. unfold rest'. by destruct vs.
Qed.

(** No character of a numeral or of a separator is a slash. *)
Definition no_slash : list Z -> Prop := Forall (fun c => c <> slash).

Lemma strsplit_text text rest : no_slash text -> strsplit (text ++ slash :: rest) slash = rest.
Proof.
  induction 1 as [|c text Hc _ IH]; cbn [app strsplit]; [by rewrite Z.eqb_refl|].
  by rewrite (proj2 (Z.eqb_neq _ _)) by done.
Qed.

Lemma digital_no_slash base text : base <= 16 -> digital base text -> no_slash text.
Proof.
  intros Hb H. eapply Forall_impl; [exact H|]. intros c (d & Hd & ->). unfold digit_char, slash. case_if; bool_hyps; lia.
Qed.

Lemma separated_no_slash sep l : sep <> slash -> Forall no_slash l -> no_slash (separated sep l).
Proof.
  intros Hs. induction 1 as [|t l Ht Hl IH]; [constructor|]. cbn [separated].
  destruct l; [done|]. apply Forall_app_2; [done|]. by constructor.
Qed.

(** Connecting to an address stores it in the link. *)
Lemma connect_spec link m ip p : length (mac link) = 6%nat -> length (ipv4 link) = 4%nat ->
  bytes_ok m -> length m = 6%nat -> bytes_ok ip -> length ip = 4%nat -> 0 <= p < 2 ^ 16 ->
  eb_lm32_udp_connect link (Some (address_text m ip p)) = Some (EB_OK, mk_udp_link m ip p).
Proof.
  intros Hlm Hli Hm Hm6 Hi Hi4 Hp. unfold eb_lm32_udp_connect, address_text.
  assert (no_slash (separated 58 (map hex2 m))) as Nm.
  { apply separated_no_slash; [done|]. apply Forall_map. eapply Forall_impl; [exact Hm|].
    intros b Hb. by apply (digital_no_slash 16), hex2_digital. }
  assert (no_slash (separated 46 (map dec ip))) as Ni.
  { apply separated_no_slash; [done|]. apply Forall_map. eapply Forall_impl; [exact Hi|].
    intros b Hb. cbn beta in Hb. apply (digital_no_slash 10); [done|]. apply digits_digital; lia. }
  set (mt := separated 58 (map hex2 m)) in *. set (it := separated 46 (map dec ip)) in *.
  cbn [separated]. set (rest2 := cstr "port" ++ slash :: dec p). set (rest1 := it ++ slash :: rest2).
  set (rest0 := cstr "udp" ++ slash :: rest1).
  assert (starts_with "hw" (cstr "hw" ++ slash :: mt ++ slash :: rest0) = true) as -> by done.
  cbn [negb]. assert (strsplit (cstr "hw" ++ slash :: mt ++ slash :: rest0) slash = mt ++ slash :: rest0) as -> by done.
  assert (addressStrToBytes (mt ++ slash :: rest0) (mac link) MAC = Some m) as ->.
  { pose proof (bytes_loop_text 16 58 hex2 read_hex eq_refl m 6 (Some (mt ++ slash :: rest0)) [] (mac link) (slash :: rest0)) as H.
    rewrite Hm6 in H. apply H; try done; cbn; lia. }
  cbn [mbind option_bind]. rewrite (strsplit_text mt) by done.
  assert (starts_with "udp" rest0 = true) as -> by done. cbn [negb].
  assert (strsplit rest0 slash = rest1) as -> by done. cbn [ipv4].
  assert (addressStrToBytes rest1 (ipv4 link) IP = Some ip) as ->.
  { pose proof (bytes_loop_text 10 46 dec (fun b rest Hb => read_dec b rest ltac:(lia)) eq_refl ip 4
      (Some rest1) [] (ipv4 link) (slash :: rest2)) as H.
    rewrite Hi4 in H. apply H; try done; cbn; lia. }
  cbn [mbind option_bind]. unfold rest1. rewrite (strsplit_text it) by done.
  assert (starts_with "port" rest2 = true) as -> by done. cbn [negb].
  assert (strsplit rest2 slash = dec p) as -> by done.
  unfold atoi. pose proof (read_dec p [] ltac:(lia) I) as E. rewrite app_nil_r in E. rewrite E. cbn [fst].
  by rewrite wrap_small.
Qed.

(** * What a station on the network makes of a frame *)

(** The checks of RFC 791 and RFC 768 on a datagram without options or
    fragments: version, lengths, protocol and both checksums; then the
    addresses, the ports and the payload. *)
Definition udp_receive (f : list Z) : option (list Z * list Z * Z * Z * list Z) :=
  let src := slice f 12 4 in
  let dst := slice f 16 4 in
  let ulen := be_val (slice f 24 2) in
  if bool_decide (take 2 f = [0x45; 0]) && (be_val (slice f 2 2) =? Z.of_nat (length f)) && bool_decide (f !! 9%nat = Some 17)
     && (oc_sum (take 20 f) =? 0xffff) && (ulen =? Z.of_nat (length f) - 20)
     && (oc_sum (pseudo_header src dst ulen ++ drop 20 f) =? 0xffff)
  then Some (src, dst, be_val (slice f 20 2), be_val (slice f 22 2), drop 28 f) else None.

Lemma udp_receive_frame src dst sp dp data c k n : length src = 4%nat -> length dst = 4%nat ->
  0 <= sp < 2 ^ 16 -> 0 <= dp < 2 ^ 16 -> n = Z.of_nat (length data) -> n + 28 < 2 ^ 16 ->
  oc_sum (ip_header (n + 28) c src dst) = 0xffff ->
  oc_sum (udp_covered src dst sp dp (n + 8) ++ be_bytes 2 k ++ data) = 0xffff ->
  udp_receive (ip_header (n + 28) c src dst ++ udp_header sp dp (n + 8) k ++ data) = Some (src, dst, sp, dp, data).
Proof.
  intros Hs Hd Hsp Hdp Hn Hmax Hip Hudp.
  explode src Hs 4%nat. explode dst Hd 4%nat. destruct src as [|? src]; [|cbn in Hs; lia]. destruct dst as [|? dst]; [|cbn in Hd; lia].
  unfold ip_header, udp_header, udp_covered, pseudo_header in *.
  assert (forall x, 0 <= x < 2 ^ 16 -> be_val (be_bytes 2 x) = x) as Hbe by (intros; rewrite be_val_bytes; by apply wrap_small).
  pose proof (Hbe (n + 28) ltac:(lia)) as E0. pose proof (Hbe (n + 8) ltac:(lia)) as E1.
  pose proof (Hbe sp Hsp) as E2. pose proof (Hbe dp Hdp) as E3. clear Hbe.
  destruct (be_bytes_two (n + 28)) as (a0 & a1 & Ea & _). destruct (be_bytes_two (n + 8)) as (b0 & b1 & Eb & _).
  destruct (be_bytes_two sp) as (s0 & s1 & Es & _). destruct (be_bytes_two dp) as (d0 & d1 & Ed & _).
  destruct (be_bytes_two c) as (c0 & c1 & Ec & _). destruct (be_bytes_two k) as (k0 & k1 & Ek & _).
  rewrite Ea, Eb, Es, Ed, Ec, Ek in *. cbn [app] in *.
  unfold udp_receive, slice. cbn -[be_val oc_sum Z.of_nat Z.sub bool_decide pseudo_header].
  unfold pseudo_header. rewrite E0, E1, E2, E3. cbn [app].
  rewrite Eb. cbn [app]. rewrite Hip, Hudp, Z.eqb_refl.
  rewrite (proj2 (Z.eqb_eq (n + 28) _)) by (cbn [length]; lia).
  rewrite (proj2 (Z.eqb_eq (n + 8) _)) by (cbn [length]; lia). by rewrite !bool_decide_true.
Qed.

Lemma length_ip_header t c src dst : length src = 4%nat -> length dst = 4%nat -> length (ip_header t c src dst) = 20%nat.
Proof. intros Hs Hd. unfold ip_header. rewrite !length_app, Hs, Hd. done. Qed.

Lemma bytes_ok_ip_header t c src dst : bytes_ok src -> bytes_ok dst -> bytes_ok (ip_header t c src dst).
Proof.
  intros Hs Hd. unfold ip_header. repeat apply Forall_app_2; try done; try apply be_bytes_ok; repeat constructor; lia.
Qed.

(** The checksums the code finds while it builds the headers are the ones that seal them. *)
Lemma create_spec own link hdrbuf data k c s : bytes_ok own -> length own = 4%nat ->
  bytes_ok (ipv4 link) -> length (ipv4 link) = 4%nat -> 0 <= port link < 2 ^ 16 -> bytes_ok data ->
  length data = (2 * k)%nat -> bytes_ok hdrbuf -> (28 <= length hdrbuf)%nat ->
  let n := Z.of_nat (2 * k) in n + 28 < 2 ^ 16 ->
  c = 65535 - oc_sum (([0x45; 0] ++ be_bytes 2 (n + 28) ++ [0; 0; 0; 0; 16; 17]) ++ [0; 0] ++ (own ++ ipv4 link)) ->
  s = 65535 - oc_sum (udp_covered own (ipv4 link) myPort (port link) (n + 8) ++ [0; 0] ++ data) ->
  createUdpIpHdr own link hdrbuf data n =
    Some (ip_header (n + 28) c own (ipv4 link) ++ udp_header myPort (port link) (n + 8) s ++ drop 28 hdrbuf).
Proof.
  intros Hbo Ho Hbi Hi Hp Hbd Hk Hbt Ht n Hn -> ->.
  rewrite header_shape; [|done|done|lia|lia|done|lia|..].
  - rewrite (myIP_checksum_spec _ 10); [| |rewrite length_app, length_ip_header by done; lia|lia].
    2:{ apply Forall_app_2; [by apply bytes_ok_ip_header|by apply Forall_drop]. }
    rewrite take_app_length' by (by rewrite length_ip_header). cbn [mbind option_bind].
    pose proof (udp_checksum_spec own (ipv4 link) (n + 28)
      (65535 - oc_sum (([0x45; 0] ++ be_bytes 2 (n + 28) ++ [0; 0; 0; 0; 16; 17]) ++ [0; 0] ++ (own ++ ipv4 link)))
      myPort (port link) (drop 28 hdrbuf) data k Hbo Ho Hbi Hi Hbd ltac:(lia) ltac:(lia)) as E. cbv zeta in E. fold n in E.
    assert (take (2 * k) data = data) as Ed by (apply take_ge; lia). rewrite Ed in E.
    change (oc_sum (ip_header (n + 28) 0 own (ipv4 link)))
      with (oc_sum (([0x45; 0] ++ be_bytes 2 (n + 28) ++ [0; 0; 0; 0; 16; 17]) ++ [0; 0] ++ (own ++ ipv4 link))).
    rewrite E. done.
  - intros b j x E. unfold myIP_checksum in E. destruct (sum_loop _ _ _ _ _ _) as [[]|]; cbn in E; [|done].
    injection E as <-. apply fold_carries_range.
  - intros h b j x E. unfold udp_checksum in E. 
    repeat (apply bind_Some in E as (? & _ & E); try case_match). injection E as <-. apply fold_carries_range.
Qed.

(** C28: a device address is read back into the link, and what is sent to the
    link, an even number of bytes up to the transfer unit, leaves as a frame to
    the hardware address whose headers and both checksums a receiver accepts
    and from which it takes the two Internet addresses, the ports and the
    bytes that were sent. *)
Theorem udp_frame_accepted (own tx_buf : list Z) (link0 : eb_lm32_udp_link) (m ip : list Z) (p : Z) (data : list Z)
    (Hown : bytes_ok own /\ length own = 4%nat) (Htx : bytes_ok tx_buf /\ length tx_buf = 1500%nat)
    (Hlink : length (mac link0) = 6%nat /\ length (ipv4 link0) = 4%nat)
    (Hm : bytes_ok m /\ length m = 6%nat) (Hip : bytes_ok ip /\ length ip = 4%nat) (Hp : 0 <= p < 2 ^ 16)
    (Hdata : bytes_ok data) (Heven : Nat.even (length data) = true) (Hmtu : (length data <= 1472)%nat) :
  exists link frame,
    eb_lm32_udp_connect link0 (Some (address_text m ip p)) = Some (EB_OK, link) /\
    eb_lm32_udp_send own tx_buf link data (Z.of_nat (length data)) = Some (m, frame) /\
    udp_receive frame = Some (own, ip, myPort, p, data).
Proof.
  destruct Hown as [Hbo Ho], Htx as [Hbt Ht], Hlink as [Hl6 Hl4], Hm as [Hbm Hm6], Hip as [Hbi Hi4].
  exists (mk_udp_link m ip p). apply Nat.even_spec in Heven as [k Hk].
  set (n := Z.of_nat (length data)). assert (n = Z.of_nat (2 * k)) as En by (unfold n; lia).
  set (A := [0x45; 0] ++ be_bytes 2 (n + 28) ++ [0; 0; 0; 0; 16; 17]).
  set (c := 65535 - oc_sum (A ++ [0; 0] ++ (own ++ ip))).
  set (cov := udp_covered own ip myPort p (n + 8)). set (s := 65535 - oc_sum (cov ++ [0; 0] ++ data)).
  destruct (sealed_sum A (own ++ ip) c) as [Hc Hip]; [|done|done|].
  { unfold A. repeat apply Forall_app_2; try done; try apply be_bytes_ok; repeat constructor; lia. }
  destruct (sealed_sum cov data s) as [Hs Hudp]; [| |done|].
  { unfold cov, udp_covered, pseudo_header. repeat apply Forall_app_2; try done; try apply be_bytes_ok; repeat constructor; lia. }
  { unfold cov, udp_covered, pseudo_header. by rewrite !length_app, Ho, Hi4. }
  exists (ip_header (n + 28) c own ip ++ udp_header myPort p (n + 8) s ++ data).
  split; [by apply connect_spec|]. split; [|apply udp_receive_frame; (done || lia)].
  unfold eb_lm32_udp_send. rewrite wrap_small by lia. rewrite En at 1.
  rewrite (create_spec own (mk_udp_link m ip p) tx_buf data k c s); try done; try lia; [|by rewrite <- En..].
  rewrite <- En. cbn [mbind option_bind ipv4 port mac].
  assert (Z.to_nat n = length data) as -> by (unfold n; lia). rewrite Nat.leb_refl, (take_ge data) by done.
  set (hdr := ip_header (n + 28) c own ip ++ udp_header myPort p (n + 8) s).
  assert (length hdr = 28%nat) as Hh by (unfold hdr; rewrite length_app, length_ip_header by done; done).
  rewrite (app_assoc (ip_header _ _ _ _)). fold hdr. unfold memcpy. change UDP_END with 28%nat.
  rewrite (proj2 (Nat.leb_le _ _)) by (rewrite length_app, length_drop; lia). cbn [mbind option_bind].
  assert (Z.to_nat (headers_plus n) = (28 + length data)%nat) as -> by (change (headers_plus n) with (28 - 20 + 20 - 0 + n); unfold n; lia).
  rewrite length_splice by (rewrite length_app, length_drop; lia).
  rewrite (proj2 (Nat.leb_le _ _)) by (rewrite length_app, length_drop; lia).
  rewrite take_splice_end by (rewrite length_app, length_drop; lia).
  rewrite take_app_length' by done. rewrite (take_ge m) by lia. unfold hdr. by rewrite <- app_assoc.
Qed.

(** Bytes beyond an odd length enter the checksum: the loop reads the byte after
    the last one, and the padding reads the third one. *)
Lemma odd_checksum_reads_past :
  let hdr := ip_header 29 0 [192; 168; 191; 254] [192; 168; 191; 131] ++ udp_header myPort 60368 9 0 in
  bool_decide (udp_checksum hdr [7; 0; 0; 0] 1 = udp_checksum hdr [7; 1; 0; 0] 1) = false /\
  bool_decide (udp_checksum hdr [7; 0; 0; 0] 1 = udp_checksum hdr [7; 0; 0; 1] 1) = false /\
  udp_checksum hdr [7] 1 = None.
Proof. vm_compute. repeat split. Qed.

(** Twelve bytes to 00:14:d1:fa:01:aa, 192.168.191.131, port 60368. *)
Lemma udp_frame_accepted_witness :
  let m := [0x00; 0x14; 0xd1; 0xfa; 0x01; 0xaa] in
  let ip := [192; 168; 191; 131] in
  let data := [0x4e; 0x6f; 0x11; 0x44; 0; 0; 0; 0; 0; 0; 1; 0] in
  address_text m ip 60368 = cstr "hw/00:14:d1:fa:01:aa/udp/192.168.191.131/port/60368" /\
  exists link frame,
    eb_lm32_udp_connect (mk_udp_link (replicate 6 0) (replicate 4 0) 0) (Some (address_text m ip 60368)) = Some (EB_OK, link) /\
    eb_lm32_udp_send [192; 168; 191; 254] (replicate 1500 0) link data 12 = Some (m, frame) /\
    udp_receive frame = Some ([192; 168; 191; 254], ip, 60368, 60368, data).
Proof.
  intros m ip data. split; [reflexivity|].
  apply (udp_frame_accepted [192; 168; 191; 254] (replicate 1500 0) _ m ip 60368 data);
    repeat split; try (by apply Forall_replicate); try lia; repeat constructor; lia.
Defined.
