(* ===== verification/SoftUart.v ===== *)
(** The software serial port of the USB bridge: [src/cy7/softuart/softuart.c].
    The registers of the controller and the variables of the driver are one
    record; [tick] and [line] are its two interrupt sources, the overflow of
    timer 0 and a falling edge on the receive pin. *)
From stdpp Require Import base list.
From Stdlib Require Import ZArith Lia.
From S2P Require Import Prelude.

Definition UART_STATE_IDLE : Z := 0x00.
Definition UART_STATE_RX_START : Z := 0x01.
Definition UART_STATE_RX_GET_DATA : Z := 0x02.
Definition UART_STATE_TX_START : Z := 0x04.
Definition UART_STATE_TX_TRANSMIT_DATA : Z := 0x05.
Definition tmr0_preload_value : Z := 0x2F.
Definition tmr0_preload_start_bit : Z := 0x98.

Record uart := mk_uart {
  uart_state : Z; uart_rx_byte : Z; uart_tx_byte : Z; uart_bit_count : Z;
  uart_byte_received : Z; uart_byte_to_transmit : Z;
  OEA : Z; IOA : Z; OED : Z; IOD : Z; PORTACFG : Z;
  TCON : Z; TMOD : Z; TH0 : Z; TL0 : Z; CKCON : Z;
  IT0 : Z; EX0 : Z; ET0 : Z }.

(** Assignments. *)
Definition set_state (x : Z) (u : uart) : uart :=
  mk_uart x (uart_rx_byte u) (uart_tx_byte u) (uart_bit_count u) (uart_byte_received u) (uart_byte_to_transmit u)
    (OEA u) (IOA u) (OED u) (IOD u) (PORTACFG u) (TCON u) (TMOD u) (TH0 u) (TL0 u) (CKCON u) (IT0 u) (EX0 u) (ET0 u).
Definition set_rx_byte (x : Z) (u : uart) : uart :=
  mk_uart (uart_state u) x (uart_tx_byte u) (uart_bit_count u) (uart_byte_received u) (uart_byte_to_transmit u)
    (OEA u) (IOA u) (OED u) (IOD u) (PORTACFG u) (TCON u) (TMOD u) (TH0 u) (TL0 u) (CKCON u) (IT0 u) (EX0 u) (ET0 u).
Definition set_tx_byte (x : Z) (u : uart) : uart :=
  mk_uart (uart_state u) (uart_rx_byte u) x (uart_bit_count u) (uart_byte_received u) (uart_byte_to_transmit u)
    (OEA u) (IOA u) (OED u) (IOD u) (PORTACFG u) (TCON u) (TMOD u) (TH0 u) (TL0 u) (CKCON u) (IT0 u) (EX0 u) (ET0 u).
Definition set_bit_count (x : Z) (u : uart) : uart :=
  mk_uart (uart_state u) (uart_rx_byte u) (uart_tx_byte u) x (uart_byte_received u) (uart_byte_to_transmit u)
    (OEA u) (IOA u) (OED u) (IOD u) (PORTACFG u) (TCON u) (TMOD u) (TH0 u) (TL0 u) (CKCON u) (IT0 u) (EX0 u) (ET0 u).
Definition set_byte_received (x : Z) (u : uart) : uart :=
  mk_uart (uart_state u) (uart_rx_byte u) (uart_tx_byte u) (uart_bit_count u) x (uart_byte_to_transmit u)
    (OEA u) (IOA u) (OED u) (IOD u) (PORTACFG u) (TCON u) (TMOD u) (TH0 u) (TL0 u) (CKCON u) (IT0 u) (EX0 u) (ET0 u).
Definition set_IOA (x : Z) (u : uart) : uart :=
  mk_uart (uart_state u) (uart_rx_byte u) (uart_tx_byte u) (uart_bit_count u) (uart_byte_received u) (uart_byte_to_transmit u)
    (OEA u) x (OED u) (IOD u) (PORTACFG u) (TCON u) (TMOD u) (TH0 u) (TL0 u) (CKCON u) (IT0 u) (EX0 u) (ET0 u).
Definition set_PORTACFG (x : Z) (u : uart) : uart :=
  mk_uart (uart_state u) (uart_rx_byte u) (uart_tx_byte u) (uart_bit_count u) (uart_byte_received u) (uart_byte_to_transmit u)
    (OEA u) (IOA u) (OED u) (IOD u) x (TCON u) (TMOD u) (TH0 u) (TL0 u) (CKCON u) (IT0 u) (EX0 u) (ET0 u).
Definition set_TCON (x : Z) (u : uart) : uart :=
  mk_uart (uart_state u) (uart_rx_byte u) (uart_tx_byte u) (uart_bit_count u) (uart_byte_received u) (uart_byte_to_transmit u)
    (OEA u) (IOA u) (OED u) (IOD u) (PORTACFG u) x (TMOD u) (TH0 u) (TL0 u) (CKCON u) (IT0 u) (EX0 u) (ET0 u).
Definition set_TL0 (x : Z) (u : uart) : uart :=
  mk_uart (uart_state u) (uart_rx_byte u) (uart_tx_byte u) (uart_bit_count u) (uart_byte_received u) (uart_byte_to_transmit u)
    (OEA u) (IOA u) (OED u) (IOD u) (PORTACFG u) (TCON u) (TMOD u) (TH0 u) x (CKCON u) (IT0 u) (EX0 u) (ET0 u).

(** * The driver *)

Definition int0_init (u : uart) : uart :=
  mk_uart (uart_state u) (uart_rx_byte u) (uart_tx_byte u) (uart_bit_count u) (uart_byte_received u) (uart_byte_to_transmit u)
    (OEA u) (IOA u) (OED u) (IOD u) 0x01 (TCON u) (TMOD u) (TH0 u) (TL0 u) (CKCON u) 1 1 (ET0 u).

Definition tmr0_init (u : uart) : uart :=
  mk_uart (uart_state u) (uart_rx_byte u) (uart_tx_byte u) (uart_bit_count u) (uart_byte_received u) (uart_byte_to_transmit u)
    (OEA u) (IOA u) (OED u) (IOD u) (PORTACFG u) (TCON u .& 0xEF) (TMOD u .| 0x02) tmr0_preload_value (TL0 u)
    (CKCON u .| 0x08) (IT0 u) (EX0 u) 1.

Definition software_uart_init (u : uart) : uart :=
  int0_init (tmr0_init
    (mk_uart UART_STATE_IDLE 0 0 0 0 0
      0xFE (IOA u .| 0x02) 0xFF 0xFF (PORTACFG u) (TCON u) (TMOD u) (TH0 u) (TL0 u) (CKCON u) (IT0 u) (EX0 u) (ET0 u))).

Definition uart_transmit_byte (tx_byte_from_usb : Z) (u : uart) : uart :=
  let u := set_tx_byte tx_byte_from_usb u in
  let u := set_state UART_STATE_TX_START u in
  let u := set_TL0 0xF0 u in
  set_TCON (TCON u .| 0x10) u.

Definition int0_isr (u : uart) : uart :=
  if uart_state u =? UART_STATE_IDLE then
    let u := set_TL0 tmr0_preload_start_bit u in
    let u := set_TCON (TCON u .| 0x10) u in
    let u := set_state UART_STATE_RX_START u in
    set_PORTACFG 0x00 u
  else u.

(** The level of the transmit pin. *)
Definition PA1 (u : uart) : Z := (IOA u .>> 1) .& 1.

(** The handler returns the levels it puts on the transmit pin, in order. *)
Definition tmr0_isr (u : uart) : uart * list Z :=
  if uart_state u =? UART_STATE_RX_START then
    if (IOA u .& 0x01) =? 0x00 then
      (set_rx_byte 0x00 (set_bit_count 0 (set_state UART_STATE_RX_GET_DATA (set_PORTACFG 0x00 u))), [])
    else (set_state UART_STATE_IDLE u, [])
  else if uart_state u =? UART_STATE_RX_GET_DATA then
    let u := if uart_bit_count u <? 8
             then let u := set_rx_byte (u8 (uart_rx_byte u .| ((IOA u .& 0x01) .<< uart_bit_count u))) u in
                  set_bit_count (u8 (uart_bit_count u + 1)) u
             else u in
    if uart_bit_count u =? 8 then
      let u := set_PORTACFG 0x01 u in
      let u := set_state UART_STATE_IDLE u in
      let u := set_byte_received 1 u in
      (set_TCON (TCON u .& 0xEF) u, [])
    else (u, [])
  else if uart_state u =? UART_STATE_TX_START then
    let u := set_IOA (IOA u .& 0xFD) u in
    (set_state UART_STATE_TX_TRANSMIT_DATA (set_bit_count 0 u), [PA1 u])
  else if uart_state u =? UART_STATE_TX_TRANSMIT_DATA then
    let '(u, out) :=
      if uart_bit_count u <=? 8 then
        let u := if 0x01 =? (0x01 .& (uart_tx_byte u .>> uart_bit_count u))
                 then set_IOA (IOA u .| 0x02) u else set_IOA (IOA u .& 0xFD) u in
        (set_bit_count (u8 (uart_bit_count u + 1)) u, [PA1 u])
      else (u, []) in
    if uart_bit_count u =? 9 then
      let u := set_IOA (IOA u .| 0x02) u in
      (set_TCON (TCON u .& 0xEF) (set_state UART_STATE_IDLE u), out ++ [PA1 u])
    else (u, out)
  else (u, []).

(** * The interrupts *)

(** Timer 0 overflows when it runs. *)
Definition tick (u : uart) : uart * list Z :=
  if negb (TCON u .& 0x10 =? 0) && (ET0 u =? 1) then tmr0_isr u else (u, []).

(** A level arrives on the receive pin; a falling edge interrupts when the pin
    is configured for it. *)
Definition line (level : Z) (u : uart) : uart :=
  let fell := (IOA u .& 1 =? 1) && (level =? 0) in
  let u := set_IOA ((IOA u .& 0xFE) .| level) u in
  if fell && (PORTACFG u .& 1 =? 1) && (EX0 u =? 1) then int0_isr u else u.

(** Two ports wired to each other; the second one samples half a bit after the
    first one's timer. *)
Definition drive (levels : list Z) (u : uart) : uart := fold_left (fun u l => line l u) levels u.
Definition round (ab : uart * uart) : uart * uart :=
  let '(a, out) := tick ab.1 in
  let '(b, back) := tick (drive out ab.2) in
  (drive back a, b).

Fixpoint rounds (n : nat) (ab : uart * uart) : uart * uart :=
  match n with O => ab | S n => round (rounds n ab) end.

(** Ten rounds carry a byte: the start bit, eight bits and the stop bit. *)
Definition send_byte (b : Z) (ab : uart * uart) : uart * uart :=
  rounds 10 (uart_transmit_byte b ab.1, ab.2).

(** The bytes the receiver has after each byte sent. *)
Fixpoint send_text (bs : list Z) (ab : uart * uart) : (uart * uart) * list Z :=
  match bs with
  | [] => (ab, [])
  | b :: bs =>
      let ab := send_byte b ab in
      let '(ab', got) := send_text bs ab in
      (ab', uart_rx_byte ab.2 :: got)
  end.

(** * Bits *)

Lemma land_1 x : x .& 1 = Z.b2z (Z.testbit x 0).
Proof. change 1 with (Z.ones 1) at 1. rewrite Z.land_ones by lia. by rewrite Z.bit0_mod. Qed.

Lemma pa1_high x : ((x .| 0x02) .>> 1) .& 1 = 1.
Proof. by rewrite land_1, Z.shiftr_spec, Z.lor_spec, orb_true_r. Qed.

Lemma pa1_low x : ((x .& 0xFD) .>> 1) .& 1 = 0.
Proof. by rewrite land_1, Z.shiftr_spec, Z.land_spec, andb_false_r. Qed.

Lemma level_read x l : l = 0 \/ l = 1 -> ((x .& 0xFE) .| l) .& 1 = l.
Proof. intros [-> | ->]; rewrite land_1, Z.lor_spec, Z.land_spec, andb_false_r; done. Qed.

Lemma run_on x : (x .| 0x10) .& 0x10 = 0x10.
Proof.
  apply Z.bits_inj'. intros n Hn. rewrite Z.land_spec, Z.lor_spec.
  by destruct (Z.testbit x n), (Z.testbit 0x10 n).
Qed.

Lemma run_off x : (x .& 0xEF) .& 0x10 = 0.
Proof. by rewrite <- Z.land_assoc, Z.land_0_r. Qed.

(** The bit that goes out in round [k] and the bits collected before it. *)
Definition bit (b k : Z) : Z := Z.b2z (Z.testbit b k).

Lemma bit_cases b k : bit b k = 0 \/ bit b k = 1.
Proof. unfold bit. destruct (Z.testbit b k); [by right|by left]. Qed.

Lemma collect_bit b k : is_byte b -> (k < 8)%nat ->
  (0x01 =? (0x01 .& (b .>> Z.of_nat k))) = (bit b (Z.of_nat k) =? 1) /\
  u8 (b mod 2 ^ Z.of_nat k .| (bit b (Z.of_nat k) .<< Z.of_nat k)) = b mod 2 ^ Z.of_nat (S k).
Proof.
  intros Hb Hk.
  assert (forallb (fun k => Bool.eqb (0x01 =? (0x01 .& (b .>> Z.of_nat k))) (bit b (Z.of_nat k) =? 1)
    && (u8 (b mod 2 ^ Z.of_nat k .| (bit b (Z.of_nat k) .<< Z.of_nat k)) =? b mod 2 ^ Z.of_nat (S k))) (seq 0 8) = true) as H.
  { revert b Hb. apply (byte_forall (fun b => forallb (fun k => Bool.eqb (0x01 =? (0x01 .& (b .>> Z.of_nat k))) (bit b (Z.of_nat k) =? 1)
      && (u8 (b mod 2 ^ Z.of_nat k .| (bit b (Z.of_nat k) .<< Z.of_nat k)) =? b mod 2 ^ Z.of_nat (S k))) (seq 0 8))).
    vm_compute. reflexivity. }
  rewrite forallb_forall in H. specialize (H k ltac:(apply in_seq; lia)). apply andb_prop in H as [H1 H2].
  apply eqb_prop in H1. by apply Z.eqb_eq in H2.
Qed.

(** * The phases of a transfer *)

(** The transmitter has sent the start bit and [k] bits of [b]. *)
Record sending (b : Z) (k : nat) (u : uart) : Prop := {
  sn_state : uart_state u = UART_STATE_TX_TRANSMIT_DATA;
  sn_byte : uart_tx_byte u = b;
  sn_count : uart_bit_count u = Z.of_nat k;
  sn_run : TCON u .& 0x10 = 0x10;
  sn_irq : ET0 u = 1 /\ EX0 u = 1 /\ PORTACFG u = 1 }.

(** The receiver has collected [k] bits of [b]. *)
Record receiving (b : Z) (k : nat) (u : uart) : Prop := {
  rc_state : uart_state u = UART_STATE_RX_GET_DATA;
  rc_byte : uart_rx_byte u = b mod 2 ^ Z.of_nat k;
  rc_count : uart_bit_count u = Z.of_nat k;
  rc_run : TCON u .& 0x10 = 0x10;
  rc_irq : ET0 u = 1 /\ EX0 u = 1 /\ PORTACFG u = 0 }.

(** A port at rest that listens. *)
Record ready (u : uart) : Prop := {
  rd_state : uart_state u = UART_STATE_IDLE;
  rd_run : TCON u .& 0x10 = 0;
  rd_irq : ET0 u = 1 /\ EX0 u = 1 /\ PORTACFG u = 1 }.

(** One that neither listens nor ever will. *)
Record deaf (u : uart) : Prop := {
  df_state : uart_state u = UART_STATE_IDLE;
  df_cfg : PORTACFG u = 0 }.

Lemma line_level l u : l = 0 \/ l = 1 -> IOA (line l u) .& 1 = l.
Proof.
  intros Hl. unfold line. assert (forall u, IOA (int0_isr u) = IOA u) as Hi by (intros; unfold int0_isr; by case_if).
  case_if; rewrite ?Hi; by apply level_read.
Qed.

(** A receiver whose pin is not configured for the interrupt only sees its pin change. *)
Lemma line_quiet l u : PORTACFG u = 0 -> line l u = set_IOA ((IOA u .& 0xFE) .| l) u.
Proof. intros H. unfold line. cbn [PORTACFG set_IOA]. rewrite H. by rewrite andb_false_r. Qed.

Lemma deaf_forever u l : deaf u -> deaf (line l u) /\ deaf (tick u).1 /\
  uart_rx_byte (line l u) = uart_rx_byte u /\ uart_rx_byte (tick u).1 = uart_rx_byte u.
Proof.
  intros [Hs Hc]. rewrite line_quiet by done. unfold tick, tmr0_isr. rewrite Hs.
  case_if; repeat split; done.
Qed.

(** The handler in each phase. *)
Lemma isr_tx_start u : uart_state u = UART_STATE_TX_START ->
  tmr0_isr u = (set_state UART_STATE_TX_TRANSMIT_DATA (set_bit_count 0 (set_IOA (IOA u .& 0xFD) u)), [0]).
Proof. intros Hs. unfold tmr0_isr. rewrite Hs. cbn. unfold PA1. cbn. by rewrite pa1_low. Qed.

Lemma isr_rx_start u : uart_state u = UART_STATE_RX_START ->
  tmr0_isr u = (if IOA u .& 1 =? 0
                then set_rx_byte 0 (set_bit_count 0 (set_state UART_STATE_RX_GET_DATA (set_PORTACFG 0 u)))
                else set_state UART_STATE_IDLE u, []).
Proof. intros Hs. unfold tmr0_isr. rewrite Hs. cbn. by case_if. Qed.

Lemma isr_tx_bit b k u : is_byte b -> (k < 8)%nat -> sending b k u -> exists x,
  tmr0_isr u = (set_bit_count (Z.of_nat (S k)) (set_IOA x u), [bit b (Z.of_nat k)]).
Proof.
  intros Hb Hk [Hs Hy Hn _ _]. destruct (collect_bit b k Hb Hk) as [Ebit _].
  unfold tmr0_isr. rewrite Hs, Hn, Hy. change (UART_STATE_TX_TRANSMIT_DATA =? UART_STATE_TX_TRANSMIT_DATA) with true.
  do 3 (change (UART_STATE_TX_TRANSMIT_DATA =? _) with false at 1). cbv iota.
  rewrite (proj2 (Z.leb_le _ _)), Ebit by lia.
  assert (u8 (Z.of_nat k + 1) = Z.of_nat (S k)) as Ek by (rewrite wrap_small; lia).
  destruct (bit_cases b (Z.of_nat k)) as [-> | ->]; eexists; unfold PA1; cbn -[Z.of_nat wrap];
    rewrite Hn, Ek, ?pa1_low, ?pa1_high, (proj2 (Z.eqb_neq _ 9)) by lia; reflexivity.
Qed.

Lemma isr_tx_stop b u : is_byte b -> sending b 8 u -> exists x,
  tmr0_isr u = (set_TCON (TCON u .& 0xEF) (set_state UART_STATE_IDLE (set_IOA (x .| 0x02) (set_bit_count 9 u))), [0; 1]).
Proof.
  intros Hb [Hs Hy Hn _ _]. unfold tmr0_isr. rewrite Hs, Hn, Hy.
  change (UART_STATE_TX_TRANSMIT_DATA =? UART_STATE_TX_TRANSMIT_DATA) with true.
  do 3 (change (UART_STATE_TX_TRANSMIT_DATA =? _) with false at 1). cbv iota.
  assert ((0x01 =? (0x01 .& (b .>> Z.of_nat 8))) = false) as ->.
  { apply negb_true_iff. refine (byte_forall (fun b => negb (0x01 =? (0x01 .& (b .>> Z.of_nat 8)))) _ b Hb). vm_compute. reflexivity. }
  change (Z.of_nat 8 <=? 8) with true. cbv iota. cbn [uart_bit_count set_bit_count set_IOA].
  assert (u8 (uart_bit_count u + 1) = 9) as -> by (by rewrite Hn).
  eexists. unfold PA1. cbn [IOA set_bit_count set_IOA Z.eqb Pos.eqb app]. rewrite pa1_low, pa1_high. reflexivity.
Qed.

Lemma isr_rx_bit b k u : is_byte b -> (k < 8)%nat -> receiving b k u -> IOA u .& 1 = bit b (Z.of_nat k) ->
  let u' := set_bit_count (Z.of_nat (S k)) (set_rx_byte (b mod 2 ^ Z.of_nat (S k)) u) in
  tmr0_isr u = (if (k =? 7)%nat
                then set_TCON (TCON u .& 0xEF) (set_byte_received 1 (set_state UART_STATE_IDLE (set_PORTACFG 1 u')))
                else u', []).
Proof.
  intros Hb Hk [Hs Hy Hn _ _] Hl. destruct (collect_bit b k Hb Hk) as [_ Ecol].
  unfold tmr0_isr. rewrite Hs, Hn, Hy, Hl. change (UART_STATE_RX_GET_DATA =? UART_STATE_RX_START) with false.
  change (UART_STATE_RX_GET_DATA =? UART_STATE_RX_GET_DATA) with true. cbv iota zeta.
  rewrite (proj2 (Z.ltb_lt _ _)), Ecol by lia. cbn [uart_bit_count set_bit_count set_rx_byte].
  assert (u8 (uart_bit_count u + 1) = Z.of_nat (S k)) as -> by (rewrite Hn, wrap_small; lia).
  assert ((Z.of_nat (S k) =? 8) = (k =? 7)%nat) as ->.
  { destruct (Nat.eqb_spec k 7) as [-> | H]; [done|]. apply Z.eqb_neq. lia. }
  by destruct (k =? 7)%nat.
Qed.

Lemma tick_runs u : TCON u .& 0x10 = 0x10 -> ET0 u = 1 -> tick u = tmr0_isr u.
Proof. intros Hr He. unfold tick. by rewrite Hr, He. Qed.

Lemma tick_stopped u : TCON u .& 0x10 = 0 -> tick u = (u, []).
Proof. intros Hr. unfold tick. by rewrite Hr. Qed.

(** A falling edge starts a port that listens. *)
Lemma line_starts u : ready u -> IOA u .& 1 = 1 -> exists v,
  line 0 u = v /\ uart_state v = UART_STATE_RX_START /\ IOA v .& 1 = 0 /\ TCON v .& 0x10 = 0x10 /\
  ET0 v = 1 /\ EX0 v = 1 /\ PORTACFG v = 0 /\ uart_rx_byte v = uart_rx_byte u /\ uart_byte_received v = uart_byte_received u.
Proof.
  intros [Hs Hr (He & Hx & Hc)] Hl. eexists. split; [reflexivity|]. unfold line. cbn [PORTACFG EX0 set_IOA].
  rewrite Hl, Hc, Hx. cbn [Z.eqb Pos.eqb andb]. change (1 .& 1 =? 1) with true. cbv iota.
  unfold int0_isr. cbn [uart_state set_IOA]. rewrite Hs. cbn [Z.eqb UART_STATE_IDLE].
  repeat split; try done; [by apply level_read; left|apply run_on].
Qed.

(** Without a falling edge nothing starts. *)
Lemma line_rests l u : (IOA u .& 1 = 0 \/ l = 1) -> line l u = set_IOA ((IOA u .& 0xFE) .| l) u.
Proof. intros H. unfold line. destruct H as [-> | ->]; [done|by rewrite andb_false_r]. Qed.

Lemma start_round b a r : ready a -> ready r -> IOA r .& 1 = 1 ->
  let '(a', r') := round (uart_transmit_byte b a, r) in sending b 0 a' /\ receiving b 0 r'.
Proof.
  intros [Hs Hr (He & Hx & Hc)] Hrd Hl. unfold round. cbn [fst snd].
  rewrite tick_runs by (done || apply run_on). rewrite isr_tx_start by done. cbn [drive fold_left].
  destruct (line_starts r Hrd Hl) as (v & -> & Hv1 & Hv2 & Hv3 & Hv4 & Hv5 & Hv6 & _).
  rewrite tick_runs by done. rewrite isr_rx_start, Hv2 by done. cbn [Z.eqb fold_left].
  split; constructor; try done; [apply run_on|by rewrite Z.mod_1_r].
Qed.

Lemma bit_round b k a r : is_byte b -> (k < 8)%nat -> sending b k a -> receiving b k r ->
  let '(a', r') := round (a, r) in
  sending b (S k) a' /\
  if (k =? 7)%nat
  then ready r' /\ uart_rx_byte r' = b /\ uart_byte_received r' = 1 /\ IOA r' .& 1 = bit b 7
  else receiving b (S k) r'.
Proof.
  intros Hb Hk Ha Hr. unfold round. cbn [fst snd].
  rewrite (tick_runs a) by apply Ha. destruct (isr_tx_bit b k a Hb Hk Ha) as [x ->]. cbn [drive fold_left].
  destruct Ha as [Hs Hy Hn Hru Hi], Hr as [Hs' Hy' Hn' Hru' (He' & Hx' & Hc')]. rewrite line_quiet by done.
  set (r1 := set_IOA _ r). pose proof (bit_cases b (Z.of_nat k)) as Hbit.
  assert (IOA r1 .& 1 = bit b (Z.of_nat k)) as Hl by (by apply level_read).
  rewrite (tick_runs r1) by done. rewrite (isr_rx_bit b k r1) by done. cbn [fold_left].
  split; [by constructor|]. destruct (Nat.eqb_spec k 7) as [-> | H]; [|by constructor].
  repeat split; try done; [apply run_off|by apply Z.mod_small].
Qed.

(** The last round: a byte below 128 leaves both ports as they were; the low
    level that the handler puts out before the stop bit of any other byte is a
    falling edge, and the receiver that saw it stays deaf. *)
Lemma stop_round b a r : is_byte b -> sending b 8 a -> ready r -> IOA r .& 1 = bit b 7 ->
  let '(a', r') := round (a, r) in
  ready a' /\ PA1 a' = 1 /\ uart_rx_byte r' = uart_rx_byte r /\ uart_byte_received r' = uart_byte_received r /\
  if b <? 128 then ready r' /\ IOA r' .& 1 = 1 else deaf r'.
Proof.
  intros Hb Ha Hr Hl. unfold round. cbn [fst snd].
  rewrite (tick_runs a) by apply Ha. destruct (isr_tx_stop b a Hb Ha) as [x ->]. destruct Ha as [_ _ _ _ Hi].
  assert (let a' := set_TCON (TCON a .& 0xEF) (set_state UART_STATE_IDLE (set_IOA (x .| 0x02) (set_bit_count 9 a))) in
    ready a' /\ PA1 a' = 1) as Hdone.
  { split; [constructor; try done; apply run_off|apply pa1_high]. }
  assert ((b <? 128) = (bit b 7 =? 0)) as ->.
  { apply eqb_prop. refine (byte_forall (fun b => Bool.eqb (b <? 128) (bit b 7 =? 0)) _ b Hb). vm_compute. reflexivity. }
  cbn [drive fold_left]. destruct (bit_cases b 7) as [E|E]; rewrite E in *; cbn [Z.eqb].
  - rewrite (line_rests 0 r) by (by left). set (r1 := set_IOA _ r).
    assert (ready r1) as Hr1 by by destruct Hr. rewrite (line_rests 1 r1) by (by right).
    rewrite tick_stopped by apply Hr. cbn [fold_left]. destruct Hdone as [Hd1 Hd2].
    repeat (split; [done|]). split; [by destruct Hr|by apply level_read; right].
  - destruct (line_starts r Hr Hl) as (v & -> & Hv1 & Hv2 & Hv3 & Hv4 & Hv5 & Hv6 & Hv7 & Hv8).
    rewrite line_quiet by done. rewrite tick_runs by done. rewrite isr_rx_start by done.
    cbn [IOA set_IOA]. rewrite level_read by (by right). cbn [Z.eqb fold_left].
    destruct Hdone as [Hd1 Hd2]. repeat (split; [done|]). exact Hv6.
Qed.

Lemma rounds_S n ab : rounds (S n) ab = round (rounds n ab).
Proof. done. Qed.

Lemma send_byte_spec b a r : is_byte b -> ready a -> ready r -> IOA r .& 1 = 1 ->
  let '(a', r') := send_byte b (a, r) in
  ready a' /\ PA1 a' = 1 /\ uart_rx_byte r' = b /\ uart_byte_received r' = 1 /\
  if b <? 128 then ready r' /\ IOA r' .& 1 = 1 else deaf r'.
Proof.
  intros Hb Ha Hr Hl. unfold send_byte. cbn [fst snd]. set (ab := (uart_transmit_byte b a, r)).
  assert (forall k, (k <= 7)%nat -> let '(a', r') := rounds (S k) ab in sending b k a' /\ receiving b k r') as Hbits.
  { induction k as [|k IH]; intros Hk; [by apply start_round|]. specialize (IH ltac:(lia)).
    rewrite rounds_S.
    destruct (rounds (S k) ab) as [a1 r1]. destruct IH as [Ha1 Hr1].
    pose proof (bit_round b k a1 r1 Hb ltac:(lia) Ha1 Hr1) as H1. destruct (round (a1, r1)) as [a2 r2].
    rewrite (proj2 (Nat.eqb_neq k 7)) in H1 by lia. exact H1. }
  specialize (Hbits 7%nat ltac:(lia)). rewrite (rounds_S 9), (rounds_S 8). destruct (rounds 8 ab) as [a7 r7].
  destruct Hbits as [Ha7 Hr7]. pose proof (bit_round b 7 a7 r7 Hb ltac:(lia) Ha7 Hr7) as H8.
  destruct (round (a7, r7)) as [a8 r8]. cbn [Nat.eqb] in H8. destruct H8 as (Ha8 & Hr8 & Hby & Hrc & Hl8).
  pose proof (stop_round b a8 r8 Hb Ha8 Hr8 Hl8) as H9. destruct (round (a8, r8)) as [a9 r9].
  destruct H9 as (H1 & H2 & H3 & H4 & H5). rewrite H3, H4. by repeat (split; [done|]).
Qed.

Lemma init_ready u : ready (software_uart_init u).
Proof. constructor; try done. apply run_off. Qed.

(** C29: two ports that were initialised and are wired to each other carry a text
    of bytes below 128 in order, each in ten ticks of the timer, and both rest
    and listen afterwards; one more byte, whatever it is, arrives as well, but
    when it is 128 or more the receiver never answers its line again. *)
Theorem uart_carries_text (ra rr : uart) (text : list Z) (last : Z)
    (Htext : Forall (fun b => 0 <= b < 128) text) (Hlast : is_byte last) (Hidle : IOA rr .& 1 = 1) :
  let '((a, r), got) := send_text (text ++ [last]) (software_uart_init ra, software_uart_init rr) in
  got = text ++ [last] /\ ready a /\ PA1 a = 1 /\ uart_byte_received r = 1 /\
  if last <? 128 then ready r
  else forall events : list (option Z),
         let r' := fold_left (fun u e => match e with Some level => line level u | None => (tick u).1 end) events r in
         deaf r' /\ uart_rx_byte r' = last.
Proof.
  assert (IOA (software_uart_init rr) .& 1 = 1) as Hl.
  { change (IOA (software_uart_init rr)) with (IOA rr .| 0x02). by rewrite land_1, Z.lor_spec, orb_false_r, <- land_1. }
  pose proof (init_ready ra) as Ha. pose proof (init_ready rr) as Hr. revert Ha Hr Hl.
  generalize (software_uart_init ra), (software_uart_init rr). clear Hidle ra rr.
  induction Htext as [|b text Hb _ IH]; intros a r Ha Hr Hl; cbn [app send_text].
  - pose proof (send_byte_spec last a r Hlast Ha Hr Hl) as H. destruct (send_byte last (a, r)) as [a' r'].
    destruct H as (H1 & H2 & H3 & H4 & H5). cbn [snd]. rewrite H3. repeat (split; [done|]).
    case_if; [by destruct H5|]. intros events. clear H4. revert r' H3 H5.
    induction events as [|e events IH]; intros r' H3 H5; [done|]. cbn [fold_left].
    destruct e as [l|]; (apply IH; [|by apply deaf_forever]); rewrite <- H3; apply (deaf_forever r'); done.
  - pose proof (send_byte_spec b a r ltac:(lia) Ha Hr Hl) as H. destruct (send_byte b (a, r)) as [a' r'].
    destruct H as (H1 & _ & H3 & _ & H5). cbn [snd]. rewrite H3, (proj2 (Z.ltb_lt b 128)) in * by lia. destruct H5 as [H5 H6].
    specialize (IH a' r' H1 H5 H6). destruct (send_text (text ++ [last]) (a', r')) as [[a1 r1] got].
    destruct IH as (-> & IH). split; [done|exact IH].
Qed.

(** ** Instances *)

Definition power_on (pins : Z) : uart := mk_uart 0 0 0 0 0 0 0 pins 0 0 0 0 0 0 0 0 0 0 0.

(** "EB" and a byte with its high bit set, then a new start bit. *)
Lemma uart_carries_text_witness :
  let '((a, r), got) := send_text ([69; 66] ++ [200]) (software_uart_init (power_on 0), software_uart_init (power_on 1)) in
  got = [69; 66; 200] /\ PA1 a = 1 /\ PORTACFG r = 0 /\ uart_rx_byte (line 0 (line 1 r)) = 200.
Proof.
  pose proof (uart_carries_text (power_on 0) (power_on 1) [69; 66] 200 ltac:(repeat constructor; lia) ltac:(lia) eq_refl) as H.
  destruct (send_text _ _) as [[a r] got]. destruct H as (Hg & _ & Hp & _ & H). cbn [Z.ltb Z.compare Pos.compare Pos.compare_cont] in H.
  split; [exact Hg|]. split; [exact Hp|]. split; [apply (H [])|apply (H [Some 1; Some 0])].
Defined.

Lemma stop_glitch : (tick (rounds 9 (uart_transmit_byte 200 (software_uart_init (power_on 0)), power_on 1)).1).2 = [0; 1].
Proof. vm_compute. reflexivity. Qed.
