(* ===== verification/Posix.v ===== *)
(** The transports over POSIX descriptors: [posix-ip.c], [posix-tcp.c],
    [posix-udp.c] and [dev.c] of [src/api/transport] and
    [src/api/glue/strncasecmp.c]. The system calls are the parameters of the
    class [Posix]; the kernel record keeps the set of open descriptors and the
    number of allocated blocks next to the state of the outside. The functions
    that receive the raw bytes of a transport or a link to fill return them. *)
From stdpp Require Import base list gmap strings.
From Stdlib Require Import ZArith Lia.
From S2P Require Import Prelude Widths.

(** * System calls *)

Definition PF_INET : Z := 2.
Definition PF_INET6 : Z := 10.
Definition SOCK_STREAM : Z := 1.
Definition SOCK_DGRAM : Z := 2.
Definition IPPROTO_TCP : Z := 6.
Definition IPPROTO_UDP : Z := 17.
Definition O_NONBLOCK : Z := 0x800.
Inductive sockopt := IPV6_V6ONLY | SO_BROADCAST | TCP_NODELAY.

(** An address of the list [getaddrinfo] returns. *)
Record addrinfo := mk_addrinfo { ai_family : Z; ai_addr : list Z }.

(** Each call gets the state of the outside and gives the next one; those that
    make a descriptor also get the set of the open ones, and return -1 or a
    descriptor outside of it. [px_remaining] is what a peer has sent or will
    send on a descriptor and was not read yet: reading takes a piece off its
    front or fails. [getaddrinfo] does not succeed with an empty list. *)
Class Posix (X : Type) := {
  px_getaddrinfo : option (list Z) -> list Z -> Z -> Z -> Z -> X -> option (list addrinfo) * X;
  px_socket : Z -> Z -> Z -> gset Z -> X -> Z * X;
  px_accept : Z -> gset Z -> X -> Z * X;
  px_open : list Z -> gset Z -> X -> Z * X;
  px_close : Z -> X -> X;
  px_bind : Z -> addrinfo -> X -> bool * X;
  px_listen : Z -> Z -> X -> bool * X;
  px_connect : Z -> addrinfo -> X -> bool * X;
  px_setsockopt : Z -> sockopt -> bool -> X -> X;
  px_ioctl_nonblock : Z -> bool -> X -> X;
  px_getfl : Z -> X -> Z * X;
  px_setfl : Z -> Z -> X -> X;
  px_rawtty : Z -> X -> X;
  px_usleep : Z -> X -> X;
  px_malloc : X -> bool * X;
  px_wouldblock : X -> bool;
  px_recv : Z -> nat -> bool -> X -> Z * list Z * X;
  px_read : Z -> nat -> X -> Z * list Z * X;
  px_recvfrom : Z -> nat -> X -> Z * list Z * addrinfo * X;
  px_send : Z -> list Z -> X -> X;
  px_write : Z -> list Z -> X -> X;
  px_sendto : Z -> list Z -> addrinfo -> X -> X;
  px_remaining : X -> Z -> list Z;
  px_getaddrinfo_some : forall host port f t p x, (px_getaddrinfo host port f t p x).1 <> Some [];
  px_socket_fresh : forall f t p D x, (px_socket f t p D x).1 = -1 \/ (px_socket f t p D x).1 ∉ D;
  px_accept_fresh : forall fd D x, (px_accept fd D x).1 = -1 \/ (px_accept fd D x).1 ∉ D;
  px_open_fresh : forall path D x, (px_open path D x).1 = -1 \/ (px_open path D x).1 ∉ D;
  px_recv_takes : forall fd n wait x, let '(r, bs, x') := px_recv fd n wait x in
    (0 < r <= Z.of_nat n /\ r = Z.of_nat (length bs) /\ px_remaining x fd = bs ++ px_remaining x' fd) \/
    (r <= 0 /\ px_remaining x' fd = px_remaining x fd);
  px_read_takes : forall fd n x, let '(r, bs, x') := px_read fd n x in
    (0 < r <= Z.of_nat n /\ r = Z.of_nat (length bs) /\ px_remaining x fd = bs ++ px_remaining x' fd) \/
    (r <= 0 /\ px_remaining x' fd = px_remaining x fd) }.

Record kernel (X : Type) := mk_kernel { descriptors : gset Z; blocks : nat; outside : X }.
Arguments mk_kernel {_}. Arguments descriptors {_}. Arguments blocks {_}. Arguments outside {_}.

(** [None] is an access through a null pointer or a loop cut by its fuel. *)
Definition K (X A : Type) : Type := kernel X -> option (A * kernel X).
#[export] Instance K_ret X : MRet (K X) := fun A a k => Some (a, k).
#[export] Instance K_bind X : MBind (K X) := fun A B f m k =>
  match m k with Some (a, k) => f a k | None => None end.

Section calls.
Context {X : Type} `{Posix X}.

Definition call {A} (f : X -> A * X) : K X A := fun k =>
  let '(a, x) := f (outside k) in Some (a, mk_kernel (descriptors k) (blocks k) x).
Definition act (f : X -> X) : K X unit := call (fun x => (tt, f x)).
Definition make (f : gset Z -> X -> Z * X) : K X Z := fun k =>
  let '(fd, x) := f (descriptors k) (outside k) in
  Some (fd, mk_kernel (if fd =? -1 then descriptors k else {[fd]} ∪ descriptors k) (blocks k) x).
Definition close (fd : Z) : K X unit := fun k =>
  Some (tt, mk_kernel (descriptors k ∖ {[fd]}) (blocks k) (px_close fd (outside k))).
Definition crash {A} : K X A := fun _ => None.
Definition unless (b : bool) (m : K X unit) : K X unit := if b then mret tt else m.

Definition socket (family type protocol : Z) : K X Z := make (px_socket family type protocol).
Definition accept (fd : Z) : K X Z := make (px_accept fd).
Definition open (path : list Z) : K X Z := make (px_open path).
Definition getaddrinfo (host : option (list Z)) (port : list Z) (family type protocol : Z) : K X (option (list addrinfo)) :=
  call (px_getaddrinfo host port family type protocol).
Definition recv (fd : Z) (len : nat) (dontwait : bool) : K X (Z * list Z) := call (px_recv fd len dontwait).
Definition read (fd : Z) (len : nat) : K X (Z * list Z) := call (px_read fd len).
Definition malloc : K X bool := fun k =>
  let '(ok, x) := px_malloc (outside k) in Some (ok, mk_kernel (descriptors k) (if ok then S (blocks k) else blocks k) x).
Definition free : K X unit := fun k =>
  match blocks k with S n => Some (tt, mk_kernel (descriptors k) n (outside k)) | O => None end.
Definition wouldblock : K X bool := call (fun x => (px_wouldblock x, x)).
End calls.

(** * strncasecmp.c *)

Definition toupper (c : Z) : Z := if (97 <=? c) && (c <=? 122) then c - 32 else c.

Fixpoint eb_strncasecmp (s1 s2 : list Z) (len : nat) : Z :=
  match len with
  | O => 0
  | S n =>
      match s1, s2 with
      | c1 :: t1, c2 :: t2 => if toupper c1 =? toupper c2 then eb_strncasecmp t1 t2 n else toupper c1 - toupper c2
      | _, _ => toupper (hd 0 s1) - toupper (hd 0 s2)
      end
  end.

(** [strchr (s, '/')]: the text before the first slash and the one after it. *)
Fixpoint split_slash (s : list Z) : option (list Z * list Z) :=
  match s with
  | [] => None
  | c :: s => if c =? 47 then Some ([], s)
              else match split_slash s with Some (a, b) => Some (c :: a, b) | None => None end
  end.

Section transports.
Context {X : Type} `{Posix X}.

(** * posix-ip.c *)

Definition EB_DEFAULT_PORT_STR : list Z := cstr "60368".

Definition eb_posix_ip_close (sock : Z) : K X unit := unless (sock =? -1) (close sock).

Definition protocol_of (type : Z) : option Z :=
  if type =? SOCK_DGRAM then Some IPPROTO_UDP else if type =? SOCK_STREAM then Some IPPROTO_TCP else None.

(** The loop over the addresses; [None] when none could be bound. *)
Fixpoint bind_loop (type protocol : Z) (l : list addrinfo) : K X (option Z) :=
  match l with
  | [] => mret None
  | i :: l =>
      sock ← socket (ai_family i) type protocol;
      if sock =? -1 then bind_loop type protocol l else
      unless (negb (ai_family i =? PF_INET6)) (act (px_setsockopt sock IPV6_V6ONLY true));;
      ok ← call (px_bind sock i);
      if ok : bool then mret (Some sock) else
      eb_posix_ip_close sock;;
      bind_loop type protocol l
  end.

Definition eb_posix_ip_open (family type : Z) (port : option (list Z)) : K X Z :=
  match protocol_of type with
  | None => mret (-1)
  | Some protocol =>
      m ← getaddrinfo None (default (cstr "0") port) family type protocol;
      match m with
      | None => mret (-1)
      | Some l =>
          r ← bind_loop type protocol l;
          match r with
          | None => mret (-1)
          | Some sock =>
              unless (negb (negb (sock =? -1) && (protocol =? IPPROTO_UDP))) (act (px_setsockopt sock SO_BROADCAST true));;
              mret sock
          end
      end
  end.

(** The address, or [None] for -1. *)
Definition eb_posix_ip_resolve (prefix address : list Z) (family type : Z) : K X (option addrinfo) :=
  let len := length prefix in
  if negb (eb_strncasecmp address prefix len =? 0) then mret None else
  let address := drop len address in
  if (249 <=? length address)%nat then mret None else
  let '(host, port) := match split_slash address with
                       | None => (address, EB_DEFAULT_PORT_STR)
                       | Some (host, []) => (host, EB_DEFAULT_PORT_STR)
                       | Some (host, port) => (host, port)
                       end in
  match protocol_of type with
  | None => mret None
  | Some protocol =>
      m ← getaddrinfo (Some host) port family type protocol;
      match m with None => mret None | Some [] => crash | Some (a :: _) => mret (Some a) end
  end.

(** The first prefix the address resolves with. *)
Fixpoint resolve_first (tries : list (list Z * Z)) (address : list Z) (type : Z) : K X (option addrinfo) :=
  match tries with
  | [] => mret None
  | (prefix, family) :: tries =>
      r ← eb_posix_ip_resolve prefix address family type;
      match r with Some a => mret (Some a) | None => resolve_first tries address type end
  end.

Definition eb_posix_ip_force_non_blocking (sock : Z) (on : bool) : K X unit :=
  unless (sock =? -1) (act (px_ioctl_nonblock sock on)).
Definition eb_posix_ip_set_buffer (sock : Z) (on : bool) : K X unit := act (px_setsockopt sock TCP_NODELAY (negb on)).
Definition eb_posix_ip_ewouldblock : K X bool := wouldblock.

(** * posix-tcp.c *)

Record eb_posix_tcp_transport := mk_tcp_transport { port4 : Z; port6 : Z }.
Record eb_posix_tcp_link := mk_tcp_link { tcp_socket : Z }.

(** [sock != -1 && listen(sock, 5) != 0] *)
Definition listen_failed (sock : Z) : K X bool :=
  if sock =? -1 then mret false else ok ← call (px_listen sock 5); mret (negb ok).

Definition eb_posix_tcp_open (port : option (list Z)) : K X (Z * option eb_posix_tcp_transport) :=
  match port with
  | Some _ =>
      sock4 ← eb_posix_ip_open PF_INET SOCK_STREAM port;
      sock6 ← eb_posix_ip_open PF_INET6 SOCK_STREAM port;
      if (sock4 =? -1) && (sock6 =? -1) then mret (EB_BUSY, None) else
      failed4 ← listen_failed sock4;
      failed ← (if failed4 : bool then mret true else listen_failed sock6);
      if failed : bool then
        eb_posix_ip_close sock4;; eb_posix_ip_close sock6;; mret (EB_ADDRESS, None)
      else
        eb_posix_ip_force_non_blocking sock4 true;; eb_posix_ip_force_non_blocking sock6 true;;
        mret (EB_OK, Some (mk_tcp_transport sock4 sock6))
  | None => mret (EB_OK, Some (mk_tcp_transport (-1) (-1)))
  end.

Definition eb_posix_tcp_close (transport : eb_posix_tcp_transport) : K X unit :=
  eb_posix_ip_close (port4 transport);; eb_posix_ip_close (port6 transport).

Definition eb_posix_tcp_connect (address : list Z) : K X (Z * option eb_posix_tcp_link) :=
  a ← resolve_first [(cstr "tcp6/", PF_INET6); (cstr "tcp4/", PF_INET); (cstr "tcp/", PF_INET6); (cstr "tcp/", PF_INET)]
        address SOCK_STREAM;
  match a with
  | None => mret (EB_ADDRESS, None)
  | Some sa =>
      sock ← socket (ai_family sa) SOCK_STREAM IPPROTO_TCP;
      if sock =? -1 then mret (EB_FAIL, None) else
      ok ← call (px_connect sock sa);
      if negb ok then eb_posix_ip_close sock;; mret (EB_FAIL, None) else
      eb_posix_ip_set_buffer sock false;;
      mret (EB_OK, Some (mk_tcp_link sock))
  end.

Definition eb_posix_tcp_disconnect (link : eb_posix_tcp_link) : K X unit := eb_posix_ip_close (tcp_socket link).

(** The descriptors handed to the callback, to be read from. *)
Definition present (fd : Z) : list Z := if fd =? -1 then [] else [fd].
Definition eb_posix_tcp_fdes (transport : eb_posix_tcp_transport) (link : option eb_posix_tcp_link) : list Z :=
  match link with
  | Some link => [tcp_socket link]
  | None => present (port4 transport) ++ present (port6 transport)
  end.

(** One listening socket: -1, a new connection, or an error to report. *)
Definition try_accept (port : Z) (ready : Z -> bool) : K X (Z * bool) :=
  if negb (port =? -1) && ready port then
    sock ← accept port;
    again ← eb_posix_ip_ewouldblock;
    mret (sock, (sock =? -1) && negb again)
  else mret (-1, false).

(** The new link is kept when there is a place for it. *)
Definition eb_posix_tcp_accept (transport : eb_posix_tcp_transport) (result_linkp : bool) (ready : Z -> bool)
    : K X (Z * option eb_posix_tcp_link) :=
  '(sock, error) ← try_accept (port4 transport) ready;
  if error : bool then mret (-1, None) else
  '(sock, error) ← (if sock =? -1 then try_accept (port6 transport) ready else mret (sock, false));
  if error : bool then mret (-1, None) else
  if sock =? -1 then mret (0, None) else
  if result_linkp then
    eb_posix_ip_set_buffer sock false;; mret (1, Some (mk_tcp_link sock))
  else eb_posix_ip_close sock;; mret (0, None).

Definition eb_posix_tcp_poll (link : option eb_posix_tcp_link) (ready : Z -> bool) (len : nat) : K X (Z * list Z) :=
  match link with
  | None => mret (0, [])
  | Some link =>
      if negb (ready (tcp_socket link)) then mret (0, []) else
      '(result, buf) ← recv (tcp_socket link) len true;
      again ← eb_posix_ip_ewouldblock;
      if (result =? -1) && again then mret (0, []) else
      if result =? 0 then mret (-1, []) else mret (result, buf)
  end.

Definition eb_posix_tcp_recv (link : option eb_posix_tcp_link) (len : nat) : K X (Z * list Z) :=
  match link with
  | None => mret (0, [])
  | Some link =>
      '(result, buf) ← recv (tcp_socket link) len false;
      if result =? 0 then mret (-1, []) else mret (result, buf)
  end.

Definition eb_posix_tcp_send (link : eb_posix_tcp_link) (buf : list Z) : K X unit := act (px_send (tcp_socket link) buf).
Definition eb_posix_tcp_send_buffer (link : eb_posix_tcp_link) (on : bool) : K X unit := eb_posix_ip_set_buffer (tcp_socket link) on.

(** * posix-udp.c *)

Record eb_posix_udp_transport := mk_udp_transport { socket4 : Z; socket6 : Z }.
Record eb_posix_udp_link := mk_udp_link { sa : addrinfo }.

Definition eb_posix_udp_open (port : option (list Z)) : K X (Z * option eb_posix_udp_transport) :=
  sock4 ← eb_posix_ip_open PF_INET SOCK_DGRAM port;
  sock6 ← eb_posix_ip_open PF_INET6 SOCK_DGRAM port;
  if (sock4 =? -1) && (sock6 =? -1) then mret (EB_BUSY, None)
  else mret (EB_OK, Some (mk_udp_transport sock4 sock6)).

Definition eb_posix_udp_close (transport : eb_posix_udp_transport) : K X unit :=
  eb_posix_ip_close (socket4 transport);; eb_posix_ip_close (socket6 transport).

(** The address is kept in a block of its own, which the code does not check. *)
Definition eb_posix_udp_connect (transport : eb_posix_udp_transport) (address : list Z) : K X (Z * option eb_posix_udp_link) :=
  a ← resolve_first [(cstr "udp4/", PF_INET); (cstr "udp6/", PF_INET6); (cstr "udp/", PF_INET6); (cstr "udp/", PF_INET)]
        address SOCK_DGRAM;
  match a with
  | None => mret (EB_ADDRESS, None)
  | Some sa =>
      if (ai_family sa =? PF_INET) && (socket4 transport =? -1) then mret (EB_FAIL, None) else
      if (ai_family sa =? PF_INET6) && (socket6 transport =? -1) then mret (EB_FAIL, None) else
      ok ← malloc;
      if negb ok then crash else mret (EB_OK, Some (mk_udp_link sa))
  end.

Definition eb_posix_udp_disconnect (link : eb_posix_udp_link) : K X unit := free.

Definition eb_posix_udp_fdes (transport : eb_posix_udp_transport) (link : option eb_posix_udp_link) : list Z :=
  match link with
  | Some _ => []
  | None => present (socket4 transport) ++ present (socket6 transport)
  end.

(** One socket: an error or a datagram to report with its sender, or nothing. *)
Definition try_recvfrom (sock : Z) (ready : Z -> bool) (len : nat) : K X (option (Z * list Z * option addrinfo)) :=
  if negb (sock =? -1) && ready sock then
    '(result, buf, from) ← call (px_recvfrom sock len);
    again ← eb_posix_ip_ewouldblock;
    if (result =? -1) && negb again then mret (Some (-1, [], None))
    else if negb (result =? -1) then mret (Some (result, buf, Some from)) else mret None
  else mret None.

(** [eb_posix_udp_sa] becomes the sender of the datagram that is returned. *)
Definition eb_posix_udp_poll (transport : eb_posix_udp_transport) (link : option eb_posix_udp_link) (ready : Z -> bool) (len : nat)
    : K X (Z * list Z * option addrinfo) :=
  match link with
  | Some _ => mret (0, [], None)
  | None =>
      r ← try_recvfrom (socket4 transport) ready len;
      match r with
      | Some r => mret r
      | None =>
          r ← try_recvfrom (socket6 transport) ready len;
          match r with Some r => mret r | None => mret (0, [], None) end
      end
  end.

Definition eb_posix_udp_recv : K X (Z * list Z) := mret (-1, []).

(** [eb_posix_udp_sa] is the destination when there is no link. *)
Definition eb_posix_udp_send (transport : eb_posix_udp_transport) (link : option eb_posix_udp_link) (eb_posix_udp_sa : addrinfo)
    (buf : list Z) : K X unit :=
  let dst := match link with None => eb_posix_udp_sa | Some link => sa link end in
  act (px_sendto (if ai_family dst =? PF_INET6 then socket6 transport else socket4 transport) buf dst).

(** * dev.c *)

Record eb_dev_link := mk_dev_link { fdes : Z; flags : Z }.

Definition eb_dev_set_blocking (link : eb_dev_link) (block : bool) : K X eb_dev_link :=
  let new := Z.ldiff (flags link) O_NONBLOCK .| (if block then 0 else O_NONBLOCK) in
  if new =? flags link then mret link
  else act (px_setfl (fdes link) new);; mret (mk_dev_link (fdes link) new).

(** The data left over by the last user is thrown away. *)
Fixpoint drain (fuel : nat) (fd : Z) : K X unit :=
  match fuel with
  | O => crash
  | S fuel => '(r, _) ← read fd 256; if 0 <? r then drain fuel fd else mret tt
  end.

Definition eb_dev_connect (fuel : nat) (address : list Z) (passive : bool) : K X (Z * option eb_dev_link) :=
  if negb (eb_strncasecmp address (cstr "dev/") 4 =? 0) then mret (EB_ADDRESS, None) else
  let devname := drop 4 address in
  if (200 <? length devname)%nat then mret (EB_ADDRESS, None) else
  fdes ← open (cstr "/dev/" ++ take 248 devname);
  if fdes =? -1 then mret (EB_FAIL, None) else
  flags ← call (px_getfl fdes);
  act (px_rawtty fdes);;
  link ← eb_dev_set_blocking (mk_dev_link fdes flags) false;
  unless passive (act (px_usleep 10000);; drain fuel fdes);;
  mret (EB_OK, Some link).

Definition eb_dev_disconnect (link : eb_dev_link) : K X unit := close (fdes link).
Definition eb_dev_fdes (link : option eb_dev_link) : list Z := match link with Some link => [fdes link] | None => [] end.

Definition eb_dev_poll (link : option eb_dev_link) (ready : Z -> bool) (len : nat) : K X (Z * list Z * option eb_dev_link) :=
  match link with
  | None => mret (0, [], None)
  | Some link =>
      if negb (ready (fdes link)) then mret (0, [], Some link) else
      link ← eb_dev_set_blocking link false;
      '(result, buf) ← read (fdes link) len;
      again ← wouldblock;
      if (result =? -1) && again then mret (0, [], Some link) else
      if result =? 0 then mret (-1, [], Some link) else mret (result, buf, Some link)
  end.

Definition eb_dev_recv (link : option eb_dev_link) (len : nat) : K X (Z * list Z * option eb_dev_link) :=
  match link with
  | None => mret (0, [], None)
  | Some link =>
      link ← eb_dev_set_blocking link true;
      '(result, buf) ← read (fdes link) len;
      if result =? 0 then mret (-1, [], Some link) else mret (result, buf, Some link)
  end.

Definition eb_dev_send (link : eb_dev_link) (buf : list Z) : K X eb_dev_link :=
  link ← eb_dev_set_blocking link true;
  act (px_write (fdes link) buf);;
  mret link.
End transports.

(** * Descriptors are owned *)

(** What a result holds on to: its descriptors and its blocks. *)
Class Holds (T : Type) := { held : T -> gset Z; held_blocks : T -> nat }.
Definition fd_set (fd : Z) : gset Z := if fd =? -1 then ∅ else {[fd]}.

#[export] Instance tcp_transport_holds : Holds eb_posix_tcp_transport :=
  { held t := fd_set (port4 t) ∪ fd_set (port6 t); held_blocks _ := O }.
#[export] Instance tcp_link_holds : Holds eb_posix_tcp_link := { held l := fd_set (tcp_socket l); held_blocks _ := O }.
#[export] Instance udp_transport_holds : Holds eb_posix_udp_transport :=
  { held t := fd_set (socket4 t) ∪ fd_set (socket6 t); held_blocks _ := O }.
#[export] Instance udp_link_holds : Holds eb_posix_udp_link := { held _ := ∅; held_blocks _ := 1%nat }.
#[export] Instance dev_link_holds : Holds eb_dev_link := { held l := {[fdes l]}; held_blocks _ := O }.

Section ownership.
Context {X : Type} `{Posix X}.

(** [m] ends from [k] with a result and a kernel that satisfy [Q]. *)
Definition ends {A} (m : K X A) (k : kernel X) (Q : A -> kernel X -> Prop) : Prop :=
  exists a k', m k = Some (a, k') /\ Q a k'.

(** The descriptors and the blocks of two kernels are the same. *)
Definition same_fds (k k' : kernel X) : Prop := descriptors k' = descriptors k /\ blocks k' = blocks k.

Lemma ends_ret {A} (a : A) k (Q : A -> kernel X -> Prop) : Q a k -> ends (mret a) k Q.
Proof. intros HQ. by exists a, k. Qed.

Lemma ends_bind {A B} (m : K X A) (f : A -> K X B) k (Q : B -> kernel X -> Prop) :
  ends m k (fun a k' => ends (f a) k' Q) -> ends (mbind f m) k Q.
Proof. intros (a & k' & E & b & k'' & E' & HQ). exists b, k''. split; [|done]. cbn. unfold mbind, K_bind. by rewrite E. Qed.

Lemma ends_mono {A} (m : K X A) k (P Q : A -> kernel X -> Prop) :
  ends m k P -> (forall a k', P a k' -> Q a k') -> ends m k Q.
Proof. intros (a & k' & E & HP) HPQ. exists a, k'. split; [done|by apply HPQ]. Qed.

Lemma ends_call {A} (f : X -> A * X) k (Q : A -> kernel X -> Prop) :
  (forall k', same_fds k k' -> Q (f (outside k)).1 k') -> ends (call f) k Q.
Proof. intros HQ. unfold ends, call. destruct (f (outside k)) as [a x]. eexists a, _. split; [reflexivity|]. by apply HQ. Qed.

Lemma ends_act (f : X -> X) k (Q : unit -> kernel X -> Prop) :
  (forall k', same_fds k k' -> Q tt k') -> ends (act f) k Q.
Proof. intros HQ. apply ends_call. intros k' Hk. by apply HQ. Qed.

Lemma ends_unless b m k (Q : unit -> kernel X -> Prop) :
  Q tt k -> (b = false -> ends m k Q) -> ends (unless b m) k Q.
Proof. intros H1 H2. destruct b; [by apply ends_ret|by apply H2]. Qed.

(** A call that makes a descriptor. *)
Definition made (fd : Z) (k k' : kernel X) : Prop :=
  blocks k' = blocks k /\
  (fd = -1 /\ descriptors k' = descriptors k \/
   fd <> -1 /\ ~ (fd ∈ descriptors k) /\ descriptors k' = {[fd]} ∪ descriptors k).

Lemma ends_make f k (Q : Z -> kernel X -> Prop) :
  (forall D x, (f D x).1 = -1 \/ (f D x).1 ∉ D) -> (forall fd k', made fd k k' -> Q fd k') -> ends (make f) k Q.
Proof.
  intros Hf HQ. unfold ends, make. specialize (Hf (descriptors k) (outside k)).
  destruct (f (descriptors k) (outside k)) as [fd x]. cbn in Hf. eexists fd, _. split; [reflexivity|].
  apply HQ. split; [done|]. cbn. destruct (Z.eqb_spec fd (-1)); [by left|right]. destruct Hf; [done|]. done.
Qed.

Lemma ends_close fd k (Q : unit -> kernel X -> Prop) :
  (forall k', descriptors k' = descriptors k ∖ {[fd]} -> blocks k' = blocks k -> Q tt k') -> ends (close fd) k Q.
Proof. intros HQ. eexists tt, _. split; [reflexivity|]. by apply HQ. Qed.

Lemma ends_ip_close sock k (Q : unit -> kernel X -> Prop) :
  (forall k', descriptors k' = (if sock =? -1 then descriptors k else descriptors k ∖ {[sock]}) -> blocks k' = blocks k -> Q tt k') ->
  ends (eb_posix_ip_close sock) k Q.
Proof.
  intros HQ. unfold eb_posix_ip_close, unless. destruct (sock =? -1); [apply ends_ret; by apply HQ|]. apply ends_close. apply HQ.
Qed.

(** Walk through an operation call by call. *)
Ltac walk :=
  repeat first
    [ apply ends_bind
    | apply ends_ret
    | apply ends_act; intros ? [? ?]
    | apply ends_ip_close; intros ? ? ?
    | apply ends_unless; [|intros _]
    | match goal with |- ends (if ?b then _ else _) _ _ => let E := fresh "E" in destruct b eqn:E end ].

Lemma ends_bind_loop type protocol l k (Q : option Z -> kernel X -> Prop) :
  (forall r k', (match r with Some fd => fd <> -1 /\ made fd k k' | None => same_fds k k' end) -> Q r k') ->
  ends (bind_loop type protocol l) k Q.
Proof.
  revert k Q. induction l as [|i l IH]; intros k Q HQ; cbn [bind_loop]; [apply ends_ret; by apply HQ|].
  apply ends_bind, ends_make; [intros; apply px_socket_fresh|]. intros sock k1 [Hb [[-> Hd]|(Hs & Hn & Hd)]].
  - cbn [Z.eqb Pos.eqb]. apply IH. intros r k' Hr. apply HQ. unfold made, same_fds in *. by rewrite <- Hd, <- Hb.
  - apply Z.eqb_neq in Hs as Es. rewrite Es.
    apply ends_bind. eapply ends_mono.
    { apply (ends_unless _ _ _ (fun _ k' => same_fds k1 k')); [done|]. intros _. apply ends_act. auto. }
    intros [] k2 [Hd2 Hb2]. apply ends_bind, ends_call. intros k3 [Hd3 Hb3]. destruct (px_bind sock i (outside k2)).1.
    + apply ends_ret, HQ. split; [done|]. split; [congruence|right]. rewrite Hd3, Hd2. done.
    + apply ends_bind, ends_ip_close. intros k4 Hd4 Hb4. rewrite Es in Hd4. apply IH. intros r k' Hr. apply HQ.
      assert (descriptors k4 = descriptors k) as E by (rewrite Hd4, Hd3, Hd2, Hd; set_solver).
      unfold made, same_fds in *. rewrite <- E. replace (blocks k) with (blocks k4) by congruence. done.
Qed.

(** Opening a bound socket. *)
Lemma ends_ip_open family type port k (Q : Z -> kernel X -> Prop) :
  (forall fd k', made fd k k' -> Q fd k') -> ends (eb_posix_ip_open family type port) k Q.
Proof.
  intros HQ. assert (forall k', same_fds k k' -> Q (-1) k') as Hno.
  { intros k' [Hd Hb]. apply HQ. split; [done|by left]. }
  unfold eb_posix_ip_open. destruct (protocol_of type) as [proto|]; [|by apply ends_ret, Hno].
  apply ends_bind, ends_call. intros k1 [Hd1 Hb1].
  destruct (px_getaddrinfo _ _ _ _ _ _).1 as [l|]; [|by apply ends_ret, Hno].
  apply ends_bind, ends_bind_loop. intros [fd|] k2 Hr; unfold made, same_fds in Hr; rewrite Hd1, Hb1 in Hr.
  - destruct Hr as [Hne Hm]. apply ends_bind.
    apply ends_unless; [by apply ends_ret, HQ|]. intros _. apply ends_act. intros k3 [Hd3 Hb3].
    apply ends_ret, HQ. unfold made. by rewrite Hd3, Hb3.
  - apply ends_ret, Hno. done.
Qed.

(** The call succeeded and handed out something that holds on to descriptors
    of its own, which [release] gives back exactly, or it failed and holds on to nothing. *)
Definition accounted {T} `{Holds T} (succeeded : Z -> bool) (release : T -> K X unit) (k : kernel X)
    (r : Z * option T) (k1 : kernel X) : Prop :=
  match r.2 with
  | Some t => succeeded r.1 = true /\ descriptors k1 = held t ∪ descriptors k /\ held t ## descriptors k /\
              blocks k1 = (held_blocks t + blocks k)%nat /\
              ends (release t) k1 (fun _ k2 => same_fds k k2)
  | None => succeeded r.1 = false /\ same_fds k k1
  end.
Definition owns {T} `{Holds T} (succeeded : Z -> bool) (m : K X (Z * option T)) (release : T -> K X unit) : Prop :=
  forall k, ends m k (accounted succeeded release k).

Definition ok_status (r : Z) : bool := r =? EB_OK.
Definition one_accepted (r : Z) : bool := r =? 1.

Lemma made_fd_set fd k k' : made fd k k' ->
  blocks k' = blocks k /\ descriptors k' = fd_set fd ∪ descriptors k /\ fd_set fd ## descriptors k.
Proof.
  unfold fd_set. intros [Hb [[-> Hd]|(Hn & Hf & Hd)]]; [cbn; set_solver|].
  apply Z.eqb_neq in Hn as ->. set_solver.
Qed.

Lemma ends_ip_close_set sock k (Q : unit -> kernel X -> Prop) :
  (forall k', descriptors k' = descriptors k ∖ fd_set sock -> blocks k' = blocks k -> Q tt k') ->
  ends (eb_posix_ip_close sock) k Q.
Proof.
  intros HQ. apply ends_ip_close. intros k' Hd Hb. apply HQ; [|done]. rewrite Hd. unfold fd_set. case_if; set_solver.
Qed.

Lemma ends_listen_failed sock k (Q : bool -> kernel X -> Prop) :
  (forall b k', same_fds k k' -> Q b k') -> ends (listen_failed sock) k Q.
Proof.
  intros HQ. unfold listen_failed. case_if; [by apply ends_ret, HQ|].
  apply ends_bind, ends_call. intros k' Hk. by apply ends_ret, HQ.
Qed.

Lemma ends_force_non_blocking sock on k (Q : unit -> kernel X -> Prop) :
  (forall k', same_fds k k' -> Q tt k') -> ends (eb_posix_ip_force_non_blocking sock on) k Q.
Proof. intros HQ. apply ends_unless; [by apply HQ|intros _; by apply ends_act]. Qed.

(** Two sockets closed one after the other. *)
Lemma ends_close_two a b k k1 : descriptors k1 = (fd_set a ∪ fd_set b) ∪ descriptors k ->
  (fd_set a ∪ fd_set b) ## descriptors k -> blocks k1 = blocks k ->
  ends (eb_posix_ip_close a;; eb_posix_ip_close b) k1 (fun _ k2 => same_fds k k2).
Proof.
  intros Hd Hdis Hb. apply ends_bind, ends_ip_close_set. intros k2 Hd2 Hb2.
  apply ends_ip_close_set. intros k3 Hd3 Hb3. split; [|congruence]. rewrite Hd3, Hd2, Hd. set_solver.
Qed.

Lemma tcp_open_owns port : owns ok_status (eb_posix_tcp_open port) eb_posix_tcp_close.
Proof.
  intros k. unfold eb_posix_tcp_open. destruct port as [port|].
  2:{ apply ends_ret. cbn. repeat split; try set_solver. by apply ends_bind, ends_ret, ends_ret. }
  apply ends_bind, ends_ip_open. intros s4 k1 H4. apply ends_bind, ends_ip_open. intros s6 k2 H6.
  apply made_fd_set in H4 as (Hb4 & Hd4 & Hf4), H6 as (Hb6 & Hd6 & Hf6).
  assert (descriptors k2 = (fd_set s4 ∪ fd_set s6) ∪ descriptors k) as Hd by (rewrite Hd6, Hd4; set_solver).
  assert ((fd_set s4 ∪ fd_set s6) ## descriptors k) as Hf by set_solver.
  destruct ((s4 =? -1) && (s6 =? -1)) eqn:Enone; bool_hyps.
  { apply ends_ret. subst. cbn. split; [done|]. split; [rewrite Hd; cbn; set_solver|congruence]. }
  apply ends_bind, ends_listen_failed. intros failed4 k3 [Hd3 Hb3].
  apply ends_bind. apply (ends_mono _ _ (fun _ k' => same_fds k3 k')).
  { destruct failed4; [by apply ends_ret|]. by apply ends_listen_failed. }
  intros failed k4 [Hd4' Hb4']. destruct failed.
  - apply ends_bind, ends_ip_close_set. intros k5 Hd5 Hb5. apply ends_bind, ends_ip_close_set. intros k6 Hd6' Hb6'.
    apply ends_ret. cbn. split; [done|]. split; [|congruence]. rewrite Hd6', Hd5, Hd4', Hd3, Hd. set_solver.
  - apply ends_bind, ends_force_non_blocking. intros k5 [Hd5 Hb5]. apply ends_bind, ends_force_non_blocking. intros k6 [Hd6' Hb6'].
    apply ends_ret. cbn. split; [done|]. split; [by rewrite Hd6', Hd5, Hd4', Hd3|]. split; [done|]. split; [congruence|].
    apply ends_close_two; cbn; [by rewrite Hd6', Hd5, Hd4', Hd3|done|congruence].
Qed.

Lemma ends_resolve_first tries address type k (Q : option addrinfo -> kernel X -> Prop) :
  (forall r k', same_fds k k' -> Q r k') -> ends (resolve_first tries address type) k Q.
Proof.
  revert k. induction tries as [|[prefix family] tries IH]; intros k HQ; cbn [resolve_first]; [by apply ends_ret, HQ|].
  apply ends_bind. apply (ends_mono _ _ (fun _ k' => same_fds k k')).
  - unfold eb_posix_ip_resolve. case_if; [by apply ends_ret|]. case_if; [by apply ends_ret|].
    destruct (match split_slash _ with None => _ | Some _ => _ end) as [host port].
    destruct (protocol_of type) as [proto|]; [|by apply ends_ret].
    apply ends_bind, ends_call. intros k' Hk.
    pose proof (px_getaddrinfo_some (Some host) port family type proto (outside k)) as Hne.
    destruct (px_getaddrinfo _ _ _ _ _ _).1 as [[|a l]|]; [done|by apply ends_ret..].
  - intros r k' [Hd Hb]. destruct r as [a|]; [by apply ends_ret, HQ|]. apply IH. intros r k2 [Hd2 Hb2].
    apply HQ. split; congruence.
Qed.

Lemma tcp_connect_owns address : owns ok_status (eb_posix_tcp_connect address) eb_posix_tcp_disconnect.
Proof.
  intros k. apply ends_bind, ends_resolve_first. intros [a|] k1 [Hd1 Hb1]; [|by apply ends_ret].
  apply ends_bind, ends_make; [intros; apply px_socket_fresh|]. intros sock k2 Hm. 
  destruct (sock =? -1) eqn:Es.
  { apply ends_ret. cbn. split; [done|]. destruct Hm as [Hb [[-> Hd]|[Hne _]]]; [split; congruence|by bool_hyps]. }
  apply made_fd_set in Hm as (Hb2 & Hd2 & Hf). apply ends_bind, ends_call. intros k3 [Hd3 Hb3].
  destruct (px_connect _ _ _).1; cbn [negb].
  - apply ends_bind, ends_act. intros k4 [Hd4 Hb4]. apply ends_ret. cbn. rewrite Hd1 in Hf, Hd2.
    split; [done|]. split; [congruence|]. split; [done|]. split; [congruence|].
    apply ends_ip_close_set. cbn. intros k5 Hd5 Hb5. split; [|congruence]. rewrite Hd5, Hd4, Hd3, Hd2. set_solver.
  - apply ends_bind, ends_ip_close_set. intros k4 Hd4 Hb4. apply ends_ret. cbn. split; [done|].
    split; [|congruence]. rewrite Hd4, Hd3, Hd2, Hd1 in *. set_solver.
Qed.

(** One listening socket yields a new descriptor or none, or an error and none. *)
Lemma ends_try_accept port ready k (Q : Z * bool -> kernel X -> Prop) :
  (forall sock error k', made sock k k' -> (error = true -> sock = -1) -> Q (sock, error) k') ->
  ends (try_accept port ready) k Q.
Proof.
  intros HQ. unfold try_accept. case_if; [|by apply ends_ret, HQ; [split; [done|by left]|]].
  apply ends_bind, ends_make; [intros; apply px_accept_fresh|]. intros sock k1 Hm.
  apply ends_bind, ends_call. intros k2 [Hd2 Hb2]. apply ends_ret, HQ; [unfold made in *; by rewrite Hd2, Hb2|].
  intros Herr. by bool_hyps.
Qed.

Lemma tcp_accept_owns transport result_linkp ready :
  owns one_accepted (eb_posix_tcp_accept transport result_linkp ready) eb_posix_tcp_disconnect.
Proof.
  intros k. assert (forall k', made (-1) k k' -> same_fds k k') as Hno.
  { intros k' [Hb [[_ Hd]|[Hn _]]]; [by split|done]. }
  apply ends_bind, ends_try_accept. intros s4 e4 k1 H4 He4. cbv beta iota.
  destruct e4; [rewrite He4 in H4 by done; apply ends_ret; cbn; auto|].
  apply ends_bind. apply (ends_mono _ _ (fun r k' => made r.1 k k' /\ (r.2 = true -> r.1 = -1))).
  { destruct (s4 =? -1) eqn:E; [|by apply ends_ret]. bool_hyps. subst. destruct (Hno _ H4) as [Hd Hb].
    apply ends_try_accept. intros sock e k' Hm He. unfold made in *. rewrite <- Hd, <- Hb. done. }
  intros [sock e] k2 [Hm He]. cbn [fst snd] in *.
  destruct e; [rewrite He in Hm by done; apply ends_ret; cbn; auto|].
  destruct (sock =? -1) eqn:Es; [bool_hyps; subst; apply ends_ret; cbn; auto|].
  apply made_fd_set in Hm as (Hb & Hd & Hf). destruct result_linkp.
  - apply ends_bind, ends_act. intros k3 [Hd3 Hb3]. apply ends_ret. cbn.
    split; [done|]. split; [congruence|]. split; [done|]. split; [congruence|].
    apply ends_ip_close_set. cbn. intros k5 Hd5 Hb5. split; [|congruence]. rewrite Hd5, Hd3, Hd. set_solver.
  - apply ends_bind, ends_ip_close_set. intros k3 Hd3 Hb3. apply ends_ret. cbn. split; [done|].
    split; [|congruence]. rewrite Hd3, Hd. set_solver.
Qed.

Lemma udp_open_owns port : owns ok_status (eb_posix_udp_open port) eb_posix_udp_close.
Proof.
  intros k. apply ends_bind, ends_ip_open. intros s4 k1 H4. apply ends_bind, ends_ip_open. intros s6 k2 H6.
  apply made_fd_set in H4 as (Hb4 & Hd4 & Hf4), H6 as (Hb6 & Hd6 & Hf6).
  assert (descriptors k2 = (fd_set s4 ∪ fd_set s6) ∪ descriptors k) as Hd by (rewrite Hd6, Hd4; set_solver).
  assert ((fd_set s4 ∪ fd_set s6) ## descriptors k) as Hf by set_solver.
  destruct ((s4 =? -1) && (s6 =? -1)) eqn:Enone; bool_hyps; apply ends_ret; cbn.
  - subst. split; [done|]. split; [rewrite Hd; cbn; set_solver|congruence].
  - split; [done|]. split; [done|]. split; [done|]. split; [congruence|].
    apply ends_close_two; [done|done|congruence].
Qed.

Lemma udp_connect_owns transport address : (forall x, (px_malloc x).1 = true) ->
  owns ok_status (eb_posix_udp_connect transport address) eb_posix_udp_disconnect.
Proof.
  intros Hmalloc k. apply ends_bind, ends_resolve_first. intros [a|] k1 [Hd1 Hb1]; [|by apply ends_ret].
  case_if; [by apply ends_ret|]. case_if; [by apply ends_ret|].
  apply ends_bind. unfold ends at 1, malloc. specialize (Hmalloc (outside k1)).
  destruct (px_malloc (outside k1)) as [ok x]. cbn in Hmalloc. subst ok. eexists true, _. split; [reflexivity|].
  apply ends_ret. cbn. split; [done|]. split; [set_solver|]. split; [set_solver|]. split; [congruence|].
  eexists tt, _. split; [reflexivity|]. by split.
Qed.

Lemma ends_set_blocking link block k (Q : eb_dev_link -> kernel X -> Prop) :
  (forall l k', same_fds k k' -> fdes l = fdes link -> Q l k') -> ends (eb_dev_set_blocking link block) k Q.
Proof.
  intros HQ. unfold eb_dev_set_blocking. case_if; [by apply ends_ret, HQ|].
  apply ends_bind, ends_act. intros k' Hk. by apply ends_ret, HQ.
Qed.

(** Every round of the draining loop takes something off what remains. *)
Lemma ends_drain fd n k fuel (Q : unit -> kernel X -> Prop) : (length (px_remaining (outside k) fd) <= n)%nat -> (n < fuel)%nat ->
  (forall k', same_fds k k' -> Q tt k') -> ends (drain fuel fd) k Q.
Proof.
  revert k fuel. induction n as [|n IH]; intros k [|fuel] Hn Hf HQ; try lia; cbn [drain];
    apply ends_bind; unfold ends at 1, read, call;
    pose proof (px_read_takes fd 256 (outside k)) as Hr; destruct (px_read fd 256 (outside k)) as [[r bs] x];
    (eexists (r, bs), _; split; [reflexivity|]); destruct Hr as [(Hr & -> & E)|[Hr _]].
  - rewrite E, length_app in Hn. lia.
  - rewrite (proj2 (Z.ltb_ge 0 r)) by lia. by apply ends_ret, HQ.
  - rewrite (proj2 (Z.ltb_lt 0 _)) by lia. apply IH; [|lia|].
    + cbn [outside]. rewrite E, length_app in Hn. lia.
    + intros k' Hk. by apply HQ.
  - rewrite (proj2 (Z.ltb_ge 0 r)) by lia. by apply ends_ret, HQ.
Qed.

Lemma dev_connect_owns address passive k : exists n, forall fuel, (n < fuel)%nat ->
  ends (eb_dev_connect fuel address passive) k (accounted ok_status eb_dev_disconnect k).
Proof.
  unfold eb_dev_connect. destruct (negb _); [exists O; intros; by apply ends_ret|].
  case_if; [exists O; intros; by apply ends_ret|].
  destruct (ends_make (px_open (cstr "/dev/" ++ take 248 (drop 4 address))) k (fun fd k' => made fd k k')
    ltac:(intros; apply px_open_fresh) ltac:(done)) as (fd & k1 & E1 & Hm).
  destruct (fd =? -1) eqn:Efd.
  { exists O. intros. apply ends_bind. exists fd, k1. split; [exact E1|]. rewrite Efd. apply ends_ret.
    bool_hyps. subst. destruct Hm as [Hb [[_ Hd]|[Hne _]]]; [by repeat split|done]. }
  destruct (ends_call (px_getfl fd) k1 (fun _ k' => same_fds k1 k') ltac:(done)) as (fl & k2 & E2 & Hk2).
  destruct (ends_act (px_rawtty fd) k2 (fun _ k' => same_fds k2 k') ltac:(done)) as ([] & k3 & E3 & Hk3).
  destruct (ends_set_blocking (mk_dev_link fd fl) false k3 (fun l k' => same_fds k3 k' /\ fdes l = fd) ltac:(done)) as (link & k4 & E4 & Hk4 & Hl).
  destruct (ends_act (px_usleep 10000) k4 (fun _ k' => same_fds k4 k') ltac:(done)) as ([] & k5 & E5 & Hk5).
  exists (length (px_remaining (outside k5) fd)). intros fuel Hfuel.
  apply ends_bind. exists fd, k1. split; [exact E1|]. rewrite Efd.
  apply ends_bind. exists fl, k2. split; [exact E2|]. apply ends_bind. exists tt, k3. split; [exact E3|].
  apply ends_bind. exists link, k4. split; [exact E4|].
  apply ends_bind. apply (ends_mono _ _ (fun _ k' => same_fds k1 k')).
  { unfold same_fds in *. destruct passive; cbn [unless]; [apply ends_ret; intuition congruence|].
    apply ends_bind. exists tt, k5. split; [exact E5|]. eapply ends_drain; [reflexivity|done|]. unfold same_fds. intuition congruence. }
  intros [] k6 [Hd6 Hb6]. apply ends_ret. unfold accounted. cbn. rewrite Hl.
  bool_hyps. destruct Hm as [Hb [[Hne _]|(_ & Hf & Hd)]]; [done|].
  split; [done|]. split; [congruence|]. split; [set_solver|]. split; [congruence|].
  unfold eb_dev_disconnect. rewrite Hl. apply ends_close. intros k7 Hd7 Hb7. split; [|congruence].
  rewrite Hd7, Hd6, Hd. set_solver.
Qed.

End ownership.

(** ** Instances *)

(** Every call succeeds; all descriptors read from one stream, as it comes or cut in pieces. *)
Module Sample.
Record outside := mk_outside { stream : list Z; pieces : list nat; written : list Z }.

(** The next piece of the stream, at most [n] bytes; 0 at its end. *)
Definition piece (cut : bool) (n : nat) (x : outside) : Z * list Z * outside :=
  let m := Nat.min (if cut then Nat.min n (S (hd n (pieces x))) else n) (length (stream x)) in
  (Z.of_nat m, take m (stream x), mk_outside (drop m (stream x)) (tl (pieces x)) (written x)).

Lemma piece_takes cut n x : let '(r, bs, x') := piece cut n x in
  (0 < r <= Z.of_nat n /\ r = Z.of_nat (length bs) /\ stream x = bs ++ stream x') \/ (r <= 0 /\ stream x' = stream x).
Proof.
  unfold piece. set (m := Nat.min _ _). assert (m <= n)%nat by (unfold m; destruct cut; lia). cbn. destruct (decide (m = O)) as [-> | Hm]; [right; split; [done|apply drop_0]|left].
  rewrite length_take. split; [lia|]. split; [lia|]. by rewrite take_drop.
Qed.

Definition send_all (x : outside) (bs : list Z) : outside := mk_outside (stream x) (pieces x) (written x ++ bs).
End Sample.

#[export] Program Instance sample_posix (cut : bool) : Posix Sample.outside := {
  px_getaddrinfo _ _ f _ _ x := (Some [mk_addrinfo f []], x);
  px_socket _ _ _ D x := (fresh D, x);
  px_accept _ D x := (fresh D, x);
  px_open _ D x := (fresh D, x);
  px_close _ x := x;
  px_bind _ _ x := (true, x);
  px_listen _ _ x := (true, x);
  px_connect _ _ x := (true, x);
  px_setsockopt _ _ _ x := x;
  px_ioctl_nonblock _ _ x := x;
  px_getfl _ x := (0, x);
  px_setfl _ _ x := x;
  px_rawtty _ x := x;
  px_usleep _ x := x;
  px_malloc x := (true, x);
  px_wouldblock _ := true;
  px_recv _ n _ x := Sample.piece cut n x;
  px_read _ n x := Sample.piece cut n x;
  px_recvfrom _ n x := let '(r, bs, x') := Sample.piece cut n x in (r, bs, mk_addrinfo PF_INET [], x');
  px_send _ bs x := Sample.send_all x bs;
  px_write _ bs x := Sample.send_all x bs;
  px_sendto _ bs _ x := Sample.send_all x bs;
  px_remaining x _ := Sample.stream x }.
Solve All Obligations with (intros; first [discriminate | right; apply is_fresh | apply Sample.piece_takes]).

Definition sample_kernel : kernel Sample.outside := mk_kernel {[0; 1; 2]} 0 (Sample.mk_outside [7; 8; 9] [1; 0]%nat []).

