(* ===== verification/Tunnel.v ===== *)
(** The tunnel transport, messages framed on a TCP connection:
    [src/api/transport/tunnel.c] on top of [posix-tcp.c]. *)
From stdpp Require Import base list gmap strings.
From Stdlib Require Import ZArith Lia.
From S2P Require Import Prelude Widths Posix.

Section tunnel.
Context {X : Type} `{Posix X}.

(** The offset of the host in the address. *)
Definition tunnel_host (address : list Z) : option nat :=
  if eb_strncasecmp address (cstr "tunnel/") 7 =? 0 then Some 7%nat
  else if eb_strncasecmp address (cstr "tunnel6/") 8 =? 0 then Some 8%nat
  else if eb_strncasecmp address (cstr "tunnel4/") 8 =? 0 then Some 8%nat
  else None.

(** The name of the TCP peer and the service it forwards to. *)
Definition tunnel_names (address : list Z) : option (list Z * list Z) :=
  off ← tunnel_host address;
  let host := drop off address in
  '(_, rest) ← split_slash host;
  '(_, service) ← split_slash rest;
  let len := (length host - S (length service))%nat in
  if (250 <=? len + 7)%nat then None
  else Some (cstr "tcp" ++ take (off - 6) (drop 6 address) ++ take len host, service).

Definition eb_tunnel_connect (address : list Z) : K X (Z * option eb_posix_tcp_link) :=
  match tunnel_names address with
  | None => mret (EB_ADDRESS, None)
  | Some (tcpname, service) =>
      '(err, link) ← eb_posix_tcp_connect tcpname;
      match link with
      | Some link => eb_posix_tcp_send link (service ++ [0]);; mret (EB_OK, Some link)
      | None => mret (err, None)
      end
  end.

Definition eb_tunnel_disconnect (link : eb_posix_tcp_link) : K X unit := eb_posix_tcp_disconnect link.
Definition eb_tunnel_fdes (link : option eb_posix_tcp_link) : list Z :=
  match link with None => [] | Some link => [tcp_socket link] end.

Definition eb_tunnel_poll (link : option eb_posix_tcp_link) (ready : Z -> bool) (maxlen : Z) : K X (Z * list Z) :=
  match link with
  | None => mret (0, [])
  | Some link =>
      '(len, len_buf) ← eb_posix_tcp_poll (Some link) ready 2;
      if len <=? 0 then mret (len, []) else
      '(short, len_buf) ←
        (if len =? 1 then '(n, last) ← eb_posix_tcp_recv (Some link) 1; mret (negb (n =? 1), len_buf ++ last)
         else mret (false, len_buf));
      if short : bool then mret (-1, []) else
      let len := (nth 0 len_buf 0 .<< 8) .| nth 1 len_buf 0 in
      if maxlen <? len then mret (-1, []) else
      '(n, buf) ← eb_posix_tcp_recv (Some link) (Z.to_nat len);
      if negb (n =? len) then mret (-1, []) else mret (len, buf)
  end.

Definition eb_tunnel_recv : K X (Z * list Z) := mret (-1, []).

Definition eb_tunnel_send (link : eb_posix_tcp_link) (buf : list Z) : K X unit :=
  let len := Z.of_nat (length buf) in
  let len_buf := [(len .>> 8) .& 0xFF; len .& 0xFF] in
  eb_posix_tcp_send_buffer link true;;
  eb_posix_tcp_send link len_buf;;
  eb_posix_tcp_send link buf;;
  eb_posix_tcp_send_buffer link false.

(** * Messages *)

Fixpoint send_all (link : eb_posix_tcp_link) (ms : list (list Z)) : K X unit :=
  match ms with [] => mret tt | m :: ms => eb_tunnel_send link m;; send_all link ms end.

(** [n] polls, unless one of them tells to close the link: the messages that
    arrived and whether the link is still open. *)
Fixpoint poll_all (n : nat) (link : eb_posix_tcp_link) (ready : Z -> bool) (maxlen : Z) : K X (list (list Z) * bool) :=
  match n with
  | O => mret ([], true)
  | S n =>
      '(len, buf) ← eb_tunnel_poll (Some link) ready maxlen;
      if len <? 0 then mret ([], false) else
      '(ms, live) ← poll_all n link ready maxlen;
      mret (if len =? 0 then ms else buf :: ms, live)
  end.

Definition frame (m : list Z) : list Z := be_bytes 2 (Z.of_nat (length m)) ++ m.
Definition frames (ms : list (list Z)) : list Z := concat (map frame ms).
Definition message_ok (maxlen : Z) (m : list Z) : Prop := 0 < Z.of_nat (length m) < 2 ^ 16 /\ Z.of_nat (length m) <= maxlen.

(** What is left to read on the connection. *)
Definition left_on (link : eb_posix_tcp_link) (k : kernel X) : list Z := px_remaining (outside k) (tcp_socket link).

(** Reading: something off the front, or nothing. *)
Lemma ends_recv fd n wait k (Q : Z * list Z -> kernel X -> Prop) :
  (forall r bs k', (0 < r <= Z.of_nat n /\ r = Z.of_nat (length bs) /\ px_remaining (outside k) fd = bs ++ px_remaining (outside k') fd) \/
                   (r <= 0 /\ px_remaining (outside k') fd = px_remaining (outside k) fd) -> 
     r = (px_recv fd n wait (outside k)).1.1 -> Q (r, bs) k') ->
  ends (recv fd n wait) k Q.
Proof.
  intros HQ. unfold ends, recv, call. pose proof (px_recv_takes fd n wait (outside k)) as Hr.
  destruct (px_recv fd n wait (outside k)) as [[r bs] x]. eexists (r, bs), _. split; [reflexivity|]. by apply HQ.
Qed.

Lemma ends_wouldblock k (Q : bool -> kernel X -> Prop) :
  (forall b k', outside k' = outside k -> Q b k') -> ends eb_posix_ip_ewouldblock k Q.
Proof. intros HQ. eexists _, _. split; [reflexivity|]. by apply HQ. Qed.

(** Reads that return all they are asked for when it is there. *)
Definition whole_reads : Prop := forall fd n wait x, (0 < n)%nat -> (n <= length (px_remaining x fd))%nat ->
  (px_recv fd n wait x).1.1 = Z.of_nat n.

Lemma ends_tcp_poll link ready n k (Q : Z * list Z -> kernel X -> Prop) :
  (forall r bs k',
     (0 < r <= Z.of_nat n /\ r = Z.of_nat (length bs) /\ left_on link k = bs ++ left_on link k') \/
     (r <= 0 /\ left_on link k' = left_on link k) ->
     (whole_reads -> ready (tcp_socket link) = true -> (0 < n <= length (left_on link k))%nat -> r = Z.of_nat n) -> Q (r, bs) k') ->
  ends (eb_posix_tcp_poll (Some link) ready n) k Q.
Proof.
  intros HQ. unfold eb_posix_tcp_poll, left_on in *. destruct (ready _) eqn:Hready; cbn [negb].
  2:{ apply ends_ret, HQ; [by right|by intros _ [=]]. }
  apply ends_bind, ends_recv. intros r bs k1 Hr Er. apply ends_bind, ends_wouldblock. intros b k2 Eo. rewrite <- Eo in Hr.
  assert (whole_reads -> (0 < n <= length (px_remaining (outside k) (tcp_socket link)))%nat -> r = Z.of_nat n) as Hw.
  { intros Hw [Hn1 Hn2]. rewrite Er. by apply Hw. }
  case_if; [|case_if]; bool_hyps; subst.
  - apply ends_ret, HQ; [right; split; [done|]; by destruct Hr as [[Hr _]|[_ Hr]]; [lia|]|]. intros ? _ Hn. specialize (Hw ltac:(done) Hn). lia.
  - apply ends_ret, HQ; [right; split; [done|]; by destruct Hr as [[Hr _]|[_ Hr]]; [lia|]|]. intros ? _ Hn. specialize (Hw ltac:(done) Hn). lia.
  - apply ends_ret, HQ; [done|]. intros. by apply Hw.
Qed.

Lemma ends_tcp_recv link n k (Q : Z * list Z -> kernel X -> Prop) :
  (forall r bs k',
     (0 < r <= Z.of_nat n /\ r = Z.of_nat (length bs) /\ left_on link k = bs ++ left_on link k') \/
     (r < 0 /\ left_on link k' = left_on link k) ->
     (whole_reads -> (0 < n <= length (left_on link k))%nat -> r = Z.of_nat n) -> Q (r, bs) k') ->
  ends (eb_posix_tcp_recv (Some link) n) k Q.
Proof.
  intros HQ. unfold eb_posix_tcp_recv, left_on in *.
  apply ends_bind, ends_recv. intros r bs k1 Hr Er.
  assert (whole_reads -> (0 < n <= length (px_remaining (outside k) (tcp_socket link)))%nat -> r = Z.of_nat n) as Hw.
  { intros Hw [Hn1 Hn2]. rewrite Er. by apply Hw. }
  case_if; bool_hyps; apply ends_ret, HQ.
  - subst. right. split; [done|]. by destruct Hr as [[Hr _]|[_ Hr]]; [lia|].
  - intros ? Hn. specialize (Hw ltac:(done) Hn). lia.
  - destruct Hr as [Hr|[Hr1 Hr2]]; [by left|right; split; [lia|done]].
  - done.
Qed.

(** The length a frame starts with. *)
Lemma frame_start m : 0 < Z.of_nat (length m) < 2 ^ 16 -> exists hi lo,
  frame m = hi :: lo :: m /\ (hi .<< 8) .| lo = Z.of_nat (length m).
Proof.
  intros Hm. unfold frame. set (n := Z.of_nat (length m)) in *.
  pose proof (be_val_bytes 2 n) as Hv. rewrite wrap_small in Hv by (change (8 * Z.of_nat 2) with 16; lia).
  pose proof (be_bytes_ok 2 n) as Hb. destruct (be_bytes 2 n) as [|hi [|lo [|]]] eqn:E; try done.
  rewrite !Forall_cons in Hb. destruct Hb as (Hhi & Hlo & _). exists hi, lo. split; [done|].
  rewrite <- Hv. apply Z.eqb_eq. refine (byte_forall2 (fun hi lo => ((hi .<< 8) .| lo) =? be_val [hi; lo]) _ hi lo Hhi Hlo).
  vm_compute. reflexivity.
Qed.

(** One poll of a connection that carries whole frames. *)
Definition polled (link : eb_posix_tcp_link) (ready : Z -> bool) (k : kernel X) (ms : list (list Z))
    (r : Z * list Z) (k' : kernel X) : Prop :=
  (r.1 < 0 \/ (r.1 = 0 /\ left_on link k' = left_on link k) \/
   exists m rest, ms = m :: rest /\ r = (Z.of_nat (length m), m) /\ left_on link k' = frames rest) /\
  (whole_reads -> ready (tcp_socket link) = true -> ms <> [] -> 0 < r.1).

Lemma ends_tunnel_poll link ready maxlen ms k : Forall (message_ok maxlen) ms -> left_on link k = frames ms ->
  ends (eb_tunnel_poll (Some link) ready maxlen) k (polled link ready k ms).
Proof.
  intros Hms Hleft. unfold eb_tunnel_poll. apply ends_bind, ends_tcp_poll. intros r bs k1 Hr Hw.
  destruct Hms as [|m ms [Hm Hmax] Hms].
  { unfold frames in Hleft. cbn in Hleft. destruct Hr as [(Hr & -> & E)|[Hr E]].
    - rewrite Hleft in E. destruct bs; [cbn in Hr; lia|done].
    - rewrite (proj2 (Z.leb_le r 0)) by lia. apply ends_ret. split; [|done]. cbn.
      destruct (Z.eq_dec r 0); [right; left; done|left; lia]. }
  destruct (frame_start m Hm) as (hi & lo & Ef & El).
  assert (frames (m :: ms) = hi :: lo :: m ++ frames ms) as E0 by (unfold frames; cbn [map concat]; by rewrite Ef).
  rewrite E0 in Hleft. rewrite Hleft in Hr, Hw.
  destruct Hr as [(Hr & Er & E)|[Hr E]].
  2:{ rewrite (proj2 (Z.leb_le r 0)) by lia. apply ends_ret. split; cbn.
      - destruct (Z.eq_dec r 0); [right; left; split; [done|congruence]|left; lia].
      - intros ? ? _. specialize (Hw ltac:(done) ltac:(done) ltac:(cbn; lia)). lia. }
  rewrite (proj2 (Z.leb_gt r 0)) by lia. apply ends_bind.
  apply (ends_mono _ _ (fun s k2 => (s.1 = true \/ (s = (false, [hi; lo]) /\ left_on link k2 = m ++ frames ms)) /\
    (whole_reads -> ready (tcp_socket link) = true -> s.1 = false))).
  { destruct (r =? 1) eqn:E1; bool_hyps.
    - destruct bs as [|b [|]]; cbn in Er; try lia. injection E as <- E.
      apply ends_bind, ends_tcp_recv. intros n last k2 Hn Hnw. apply ends_ret. cbn. rewrite <- E in Hn, Hnw. split.
      + destruct Hn as [(Hn & En & En2)|[Hn _]]; [|left; apply negb_true_iff, Z.eqb_neq; lia].
        right. destruct last as [|c [|]]; cbn in En, Hn; try lia. injection En2 as <- En2. rewrite En. by split.
      + intros Hf _. rewrite (Hnw Hf ltac:(cbn; lia)). done.
    - destruct bs as [|b [|c [|]]]; cbn in Er; try lia. injection E as <- <- E. apply ends_ret. split; [right|]; done. }
  intros [short len_buf] k2 [Hs Hsw]. cbn [fst] in Hs, Hsw. destruct short.
  { apply ends_ret. split; [left; done|]. cbn. intros Hf Hrd. by specialize (Hsw Hf Hrd). }
  destruct Hs as [?|[[= ->] E2]]; [done|]. cbn [nth]. rewrite El. rewrite (proj2 (Z.ltb_ge maxlen _)) by lia.
  apply ends_bind, ends_tcp_recv. intros n buf k3 Hn Hnw. rewrite Nat2Z.id, E2 in *.
  destruct (n =? Z.of_nat (length m)) eqn:En; bool_hyps; cbn [negb]; apply ends_ret.
  - subst n. destruct Hn as [(Hn & En & En2)|[Hn _]]; [|lia].
    apply app_inj_1 in En2 as [Hbuf Hrest]; [|lia]. rewrite <- Hbuf. split; [|cbn; lia]. right; right. exists m, ms. by split.
  - split; [left; cbn; lia|]. intros Hf _ _. exfalso. apply En, (Hnw Hf). rewrite length_app. lia.
Qed.

(** What the peer receives is what was sent; [sent] is the stream that leaves on a descriptor. *)
Context (sent : X -> Z -> list Z).
Hypothesis px_send_appends : forall fd bs x, sent (px_send fd bs x) fd = sent x fd ++ bs.
Hypothesis px_setsockopt_silent : forall fd fd' o b x, sent (px_setsockopt fd o b x) fd' = sent x fd'.

Lemma ends_send_all link ms k : Forall (fun m => 0 < Z.of_nat (length m) < 2 ^ 16) ms ->
  ends (send_all link ms) k (fun _ k' => sent (outside k') (tcp_socket link) = sent (outside k) (tcp_socket link) ++ frames ms).
Proof.
  intros Hms. revert k. induction Hms as [|m ms Hm _ IH]; intros k; cbn [send_all].
  { apply ends_ret. unfold frames. cbn. by rewrite app_nil_r. }
  apply ends_bind. eexists tt, _. split; [reflexivity|]. eapply ends_mono; [apply IH|]. intros [] k' ->. cbn [outside].
  rewrite px_setsockopt_silent, !px_send_appends, px_setsockopt_silent. unfold frames. cbn [map concat].
  rewrite <- !app_assoc. unfold frame. cbn [be_bytes app]. change (8 * Z.of_nat 1) with 8. change (8 * Z.of_nat 0) with 0.
  by rewrite Z.shiftr_0_r.
Qed.

(** Polls of a connection that carries frames. *)
Lemma ends_poll_all link ready maxlen n : forall ms k, Forall (message_ok maxlen) ms -> left_on link k = frames ms ->
  ends (poll_all n link ready maxlen) k (fun r k' => exists rest,
    r.1 ++ rest = ms /\ (r.2 = true -> left_on link k' = frames rest) /\
    (whole_reads -> ready (tcp_socket link) = true -> n = length ms -> r = (ms, true))).
Proof.
  induction n as [|n IH]; intros ms k2 Hms Hleft; cbn [poll_all].
  { apply ends_ret. exists ms. split; [done|]. split; [done|]. intros _ _ Hn. by destruct ms. }
  apply ends_bind. eapply ends_mono; [by apply ends_tunnel_poll|]. intros [len buf] k3 [Hp Hlive]. cbn [fst] in Hlive, Hp.
  destruct (len <? 0) eqn:Eneg; bool_hyps.
  { apply ends_ret. exists ms. split; [done|]. split; [done|]. intros Hw Hr Hn. destruct ms as [|m ms]; [done|].
    specialize (Hlive Hw Hr ltac:(done)). lia. }
  apply ends_bind. destruct Hp as [?|[[-> Ek]|(m & rest & -> & [= -> ->] & Ek)]]; [lia|..].
  - eapply ends_mono; [apply IH; [exact Hms|congruence]|]. intros [got live] k4 (rest & Hg & Hl & Hw). apply ends_ret.
    exists rest. split; [done|]. split; [done|]. intros Hwh Hr Hn. destruct ms as [|m ms]; [done|].
    specialize (Hlive Hwh Hr ltac:(done)). lia.
  - inversion Hms as [|x l [Hm _] Hrest]; subst. eapply ends_mono; [by apply IH|].
    intros [got live] k4 (rest' & Hg & Hl & Hw). apply ends_ret. rewrite (proj2 (Z.eqb_neq _ 0)) by lia.
    exists rest'. cbn in *. split; [by rewrite Hg|]. split; [done|]. intros Hwh Hr [= Hn]. by injection (Hw Hwh Hr Hn) as -> ->.
Qed.

(** C26: messages of at least one byte and at most what the reader has room for,
    sent over a tunnel, arrive whole and in order: however the connection cuts
    them into pieces and however often it is polled, what the polls return is
    what was sent from the first message on, until one of them asks to close
    the link; when reads return all they are asked for, as many polls as
    messages deliver all of them. *)
Theorem tunnel_delivers_in_order (out : eb_posix_tcp_link) (ms : list (list Z)) (maxlen : Z) (k : kernel X)
    (Hms : Forall (message_ok maxlen) ms) :
  ends (send_all out ms) k (fun _ k1 =>
    exists wire, sent (outside k1) (tcp_socket out) = sent (outside k) (tcp_socket out) ++ wire /\
    forall (link : eb_posix_tcp_link) (ready : Z -> bool) (n : nat) (k2 : kernel X), left_on link k2 = wire ->
    ends (poll_all n link ready maxlen) k2 (fun r k3 => exists rest,
      r.1 ++ rest = ms /\ (r.2 = true -> left_on link k3 = frames rest) /\
      (whole_reads -> ready (tcp_socket link) = true -> n = length ms -> r = (ms, true)))).
Proof.
  eapply ends_mono; [apply ends_send_all; eapply Forall_impl; [exact Hms|]; by intros m [Hm _]|].
  intros [] k1 E. exists (frames ms). split; [exact E|]. intros link ready n k2 Hleft. by apply ends_poll_all.
Qed.
End tunnel.

(** ** Instances *)

Definition sample_messages : list (list Z) := [[1; 2; 3]; [4]].
Definition sample_out : kernel Sample.outside := mk_kernel {[5]} 0 (Sample.mk_outside [] [] []).
Definition sample_in (pieces : list nat) (wire : list Z) : kernel Sample.outside :=
  mk_kernel {[6]} 0 (Sample.mk_outside wire pieces []).

(** Two messages on a connection that returns all there is. *)
Lemma tunnel_delivers_in_order_witness :
  exists k1 k3, @send_all _ (sample_posix false) (mk_tcp_link 5) sample_messages sample_out = Some (tt, k1) /\
    Sample.written (outside k1) = [0; 3; 1; 2; 3; 0; 1; 4] /\
    @poll_all _ (sample_posix false) 2 (mk_tcp_link 6) (fun _ => true) 1472 (sample_in [] (Sample.written (outside k1))) =
      Some ((sample_messages, true), k3).
Proof.
  destruct (@tunnel_delivers_in_order _ (sample_posix false) (fun x _ => Sample.written x) (fun _ _ _ => eq_refl) (fun _ _ _ _ _ => eq_refl)
    (mk_tcp_link 5) sample_messages 1472 sample_out ltac:(repeat constructor; cbn; lia)) as ([] & k1 & E & wire & Ew & H).
  exists k1. cbn in Ew.
  destruct (H (mk_tcp_link 6) (fun _ => true) 2%nat (sample_in [] wire) eq_refl) as (r & k3 & E3 & rest & _ & _ & Hr).
  rewrite Hr in E3 by (done || intros fd n wait x Hn Hl; cbn; unfold left_on in *; cbn in *; lia).
  exists k3. rewrite Ew. split; [exact E|]. split; [|exact E3]. rewrite <- Ew. vm_compute in E. injection E as <-. reflexivity.
Defined.

(** A message that comes in two pieces closes the link. *)
Lemma cut_message_closes : exists k,
  @poll_all _ (sample_posix true) 1 (mk_tcp_link 6) (fun _ => true) 1472 (sample_in [1; 0]%nat [0; 3; 1; 2; 3]) = Some (([], false), k).
Proof. eexists. vm_compute. reflexivity. Qed.
