(* ===== verification/Target.v ===== *)
(** What the command-line tools of [src/api/tools/] ask of the library and of the
    bus behind it: recorded accesses, the cycles of a tool as a script, and a
    byte-addressed memory that serves them. The memory is an interface: the
    theorems about the tools hold for every bus that keeps its bytes. *)
From stdpp Require Import base list gmap.
From Stdlib Require Import ZArith Lia.
From S2P Require Import Prelude Widths.

(** * Accesses and scripts *)

(** One call of [eb_cycle_read], [eb_cycle_write] or their [_config] forms. *)
Record access := mk_access {
  a_write : bool; a_config : bool; a_address : Z; a_format : Z; a_value : Z }.

Definition a_size (x : access) : nat := Z.to_nat (a_format x .& EB_DATAX).

(** A tool closes a cycle, waits for its callback and goes on with the status and
    the data of the operations, or ends with an exit code and what it printed. *)
Inductive script :=
  | Exit (code : Z) (printed : option Z)
  | Cycle (ops : list access) (k : Z -> list Z -> script).

(** The accesses a tool may ask for, whatever the status of its cycles and
    whatever data, of the size of each access, comes back. *)
Definition answers (ops : list access) (vs : list Z) : Prop :=
  Forall2 (fun x v => 0 <= v < 2 ^ (8 * Z.of_nat (a_size x))) ops vs.

Inductive issued : script -> access -> Prop :=
  | issued_now ops k x : In x ops -> issued (Cycle ops k) x
  | issued_later ops k status vs x : answers ops vs -> issued (k status vs) x -> issued (Cycle ops k) x.

(** * Words in memory *)

(** The bytes of an [n]-byte word in the order of their addresses. *)
Definition word_bytes (e : Z) (n : nat) (v : Z) : list Z :=
  if e =? EB_BIG_ENDIAN then be_bytes n v else rev (be_bytes n v).

Definition word_val (e : Z) (l : list Z) : Z :=
  be_val (if e =? EB_BIG_ENDIAN then l else rev l).

Lemma length_word_bytes e n v : length (word_bytes e n v) = n.
Proof. unfold word_bytes. case_if; rewrite ?length_rev; apply length_be_bytes. Qed.

Lemma word_bytes_ok e n v : bytes_ok (word_bytes e n v).
Proof.
  unfold word_bytes. case_if; [apply be_bytes_ok|]. apply Forall_rev, be_bytes_ok.
Qed.

Lemma word_val_bytes e n v : word_val e (word_bytes e n v) = wrap (8 * Z.of_nat n) v.
Proof. unfold word_val, word_bytes. destruct (e =? EB_BIG_ENDIAN); rewrite ?rev_involutive; apply be_val_bytes. Qed.

Lemma word_bytes_val e l : bytes_ok l -> word_bytes e (length l) (word_val e l) = l.
Proof.
  intros Hl. unfold word_bytes, word_val. destruct (e =? EB_BIG_ENDIAN); [by apply be_bytes_val|].
  rewrite <- (length_rev l), be_bytes_val by (by apply Forall_rev). apply rev_involutive.
Qed.

Lemma word_bytes_val_len e n l : bytes_ok l -> length l = n -> word_bytes e n (word_val e l) = l.
Proof. intros Hl <-. by apply word_bytes_val. Qed.

Lemma word_val_range e l : bytes_ok l -> 0 <= word_val e l < 256 ^ Z.of_nat (length l).
Proof.
  intros Hl. unfold word_val. case_if; [by apply be_val_range|].
  rewrite <- (length_rev l). by apply be_val_range, Forall_rev.
Qed.

(** Only the low [n] bytes of the value are stored. *)
Lemma word_bytes_wrap e n k v : (n <= k)%nat -> word_bytes e n (wrap (8 * Z.of_nat k) v) = word_bytes e n v.
Proof.
  intros Hk. assert (be_bytes n (wrap (8 * Z.of_nat k) v) = be_bytes n v) as Heq.
  { apply (be_bytes_mod_ext _ k); [done|]. unfold wrap. rewrite pow256 by lia. apply Z.mod_mod. lia. }
  unfold word_bytes. by rewrite Heq.
Qed.

Lemma be_bytes_app a b v : be_bytes (a + b) v = be_bytes a (v .>> (8 * Z.of_nat b)) ++ be_bytes b v.
Proof.
  induction a as [|a IH]; [done|]. cbn [Nat.add be_bytes app]. rewrite IH. f_equal.
  rewrite Z.shiftr_shiftr by lia. do 2 f_equal. lia.
Qed.

(** A word is its upper part and its lower part, in the order of the endian. *)
Lemma word_bytes_big a b v :
  word_bytes EB_BIG_ENDIAN (a + b) v =
  word_bytes EB_BIG_ENDIAN a (v .>> (8 * Z.of_nat b)) ++ word_bytes EB_BIG_ENDIAN b v.
Proof. apply be_bytes_app. Qed.

Lemma word_bytes_little a b v :
  word_bytes EB_LITTLE_ENDIAN (a + b) v =
  word_bytes EB_LITTLE_ENDIAN b v ++ word_bytes EB_LITTLE_ENDIAN a (v .>> (8 * Z.of_nat b)).
Proof. unfold word_bytes. cbn. by rewrite be_bytes_app, rev_app_distr. Qed.

(** * The bus *)

(** A bus that keeps the bytes written to it, in the bus and in the
    configuration space. *)
Class ByteBus (B : Type) := {
  peek : B -> bool -> Z -> Z;
  poke : B -> bool -> Z -> Z -> B;
  peek_byte : forall b c a, is_byte (peek b c a);
  peek_poke : forall b c a v c' a', is_byte v ->
    peek (poke b c a v) c' a' = if decide ((c', a') = (c, a)) then v else peek b c' a' }.

Section bus.
Context {B : Type} {bus : ByteBus B}.

(** Addresses wrap at the width of [eb_address_t]. *)
Fixpoint store (b : B) (c : bool) (a : Z) (l : list Z) : B :=
  match l with
  | [] => b
  | v :: l' => store (poke b c (wrap 64 a) v) c (a + 1) l'
  end.

Fixpoint load (b : B) (c : bool) (a : Z) (n : nat) : list Z :=
  match n with
  | O => []
  | S n' => peek b c (wrap 64 a) :: load b c (a + 1) n'
  end.

(** The byte order of an access; [dev] is the order of the device. *)
Definition access_endian (dev : Z) (x : access) : Z :=
  let e := a_format x .& EB_ENDIAN_MASK in if e =? 0 then dev else e.

Definition serve (dev : Z) (b : B) (x : access) : B * Z :=
  if a_write x
  then (store b (a_config x) (a_address x) (word_bytes (access_endian dev x) (a_size x) (a_value x)), a_value x)
  else (b, word_val (access_endian dev x) (load b (a_config x) (a_address x) (a_size x))).

Fixpoint serve_cycle (dev : Z) (b : B) (ops : list access) : B * list Z :=
  match ops with
  | [] => (b, [])
  | x :: rest =>
    let (b1, v) := serve dev b x in
    let (b2, vs) := serve_cycle dev b1 rest in (b2, v :: vs)
  end.

(** The tool against the bus: the bus afterwards, the exit code, what was printed. *)
Fixpoint run_script (dev : Z) (b : B) (s : script) : B * Z * option Z :=
  match s with
  | Exit code printed => (b, code, printed)
  | Cycle ops k => let (b', vs) := serve_cycle dev b ops in run_script dev b' (k EB_OK vs)
  end.

(** ** Memory laws *)

(** Two states of the bus with the same bytes. *)
Definition same_bytes (b1 b2 : B) : Prop := forall c a, 0 <= a < 2 ^ 64 -> peek b1 c a = peek b2 c a.

#[export] Instance same_bytes_equiv : Equivalence same_bytes.
Proof.
  split; [by intros b c a|intros x y H c a Ha; by rewrite H|].
  intros x y z H1 H2 c a Ha. by rewrite H1, H2.
Qed.

Lemma length_load b c a n : length (load b c a n) = n.
Proof. revert a. induction n as [|n IH]; intros a; [done|]. cbn [load length]. by rewrite IH. Qed.

Lemma load_ok b c a n : bytes_ok (load b c a n).
Proof. revert a. induction n as [|n IH]; intros a; constructor; [apply peek_byte|apply IH]. Qed.

Lemma load_app b c a n m : load b c a (n + m) = load b c a n ++ load b c (a + Z.of_nat n) m.
Proof.
  revert a. induction n as [|n IH]; intros a; cbn [Nat.add load app]; [f_equal; lia|].
  rewrite IH. do 3 f_equal. lia.
Qed.

Lemma load_same b1 b2 c a n : same_bytes b1 b2 -> load b1 c a n = load b2 c a n.
Proof. intros Hs. revert a. induction n as [|n IH]; intros a; [done|]. cbn [load]. rewrite Hs, IH; [done|apply wrap_range; lia]. Qed.

Lemma store_app b c a l1 l2 :
  store b c a (l1 ++ l2) = store (store b c a l1) c (a + Z.of_nat (length l1)) l2.
Proof.
  revert b a. induction l1 as [|v l1 IH]; intros b a; cbn [store app length]; [f_equal; lia|].
  rewrite IH. f_equal. lia.
Qed.

(** A byte after a store: the offset of its address decides. *)
Lemma peek_store b c a l c' x : bytes_ok l -> 0 <= x < 2 ^ 64 -> Z.of_nat (length l) <= 2 ^ 64 ->
  peek (store b c a l) c' x =
  if decide (c' = c) then default (peek b c' x) (l !! Z.to_nat (wrap 64 (x - a))) else peek b c' x.
Proof.
  intros Hl Hx. revert b a. induction Hl as [|v l Hv Hl IH]; intros b a Hn; cbn [store].
  { by destruct (decide (c' = c)). }
  cbn [length] in Hn. rewrite Nat2Z.inj_succ in Hn.
  rewrite IH by lia. rewrite peek_poke by done.
  destruct (decide (c' = c)) as [->|Hc].
  2: { rewrite decide_False; [done|]. intros [= -> _]. done. }
  unfold wrap. destruct (decide (x = a mod 2 ^ 64)) as [Heq|Hne].
  - assert ((x - a) mod 2 ^ 64 = 0) as -> by (rewrite Heq, Zminus_mod_idemp_l, Z.sub_diag; done).
    cbn [Z.to_nat lookup list_lookup]. rewrite decide_True by (by rewrite Heq).
    assert ((x - (a + 1)) mod 2 ^ 64 = 2 ^ 64 - 1) as ->.
    { rewrite Heq, Zminus_mod_idemp_l. replace (a - (a + 1)) with (-1) by lia. done. }
    by rewrite lookup_ge_None_2 by lia.
  - rewrite decide_False by (intros [= ?]; done).
    pose proof (Z.mod_pos_bound (x - a) (2 ^ 64) ltac:(lia)) as Hb.
    assert ((x - a) mod 2 ^ 64 <> 0) as Hnz.
    { intros Hz. apply Hne. rewrite <- (Z.mod_small x (2 ^ 64)) by lia.
      replace x with (x - a + a) at 1 by lia. rewrite <- Z.add_mod_idemp_l, Hz by lia. f_equal. }
    assert ((x - (a + 1)) mod 2 ^ 64 = (x - a) mod 2 ^ 64 - 1) as ->.
    { rewrite Z.sub_add_distr, <- Zminus_mod_idemp_l. apply Z.mod_small. lia. }
    replace (Z.to_nat ((x - a) mod 2 ^ 64)) with (S (Z.to_nat ((x - a) mod 2 ^ 64 - 1))) by lia. done.
Qed.
End bus.

Section laws.
Context {B : Type} {bus : ByteBus B}.

Lemma store_wrap b c a l : store b c (wrap 64 a) l = store b c a l.
Proof.
  revert b a. induction l as [|v l IH]; intros b a; [done|]. cbn [store].
  rewrite wrap_wrap by lia. rewrite <- IH, wrap_add_l, IH. done.
Qed.

Lemma load_wrap b c a n : load b c (wrap 64 a) n = load b c a n.
Proof.
  revert a. induction n as [|n IH]; intros a; [done|]. cbn [load].
  rewrite wrap_wrap by lia. rewrite <- IH, wrap_add_l, IH. done.
Qed.

Lemma lookup_load b c a n i : (i < n)%nat -> load b c a n !! i = Some (peek b c (wrap 64 (a + Z.of_nat i))).
Proof.
  revert a i. induction n as [|n IH]; intros a i Hi; [lia|]. destruct i as [|i]; cbn [load lookup list_lookup].
  - by rewrite Z.add_0_r.
  - rewrite (IH (a + 1)) by lia. do 3 f_equal. lia.
Qed.

(** An address is the start address plus its offset. *)
Lemma offset_address a x : 0 <= x < 2 ^ 64 -> wrap 64 (a + wrap 64 (x - a)) = x.
Proof. intros Hx. rewrite wrap_add_r. replace (a + (x - a)) with x by lia. by apply wrap_small. Qed.

Lemma address_offset a i : 0 <= i < 2 ^ 64 -> wrap 64 (wrap 64 (a + i) - a) = i.
Proof. intros Hi. rewrite wrap_sub_l. replace (a + i - a) with i by lia. by apply wrap_small. Qed.

Lemma load_store b c a l : bytes_ok l -> Z.of_nat (length l) <= 2 ^ 64 -> load (store b c a l) c a (length l) = l.
Proof.
  intros Hl Hn. apply (list_eq_same_length _ _ (length l)); [done|apply length_load|].
  intros i x y Hi Hx Hy. rewrite lookup_load in Hx by done. injection Hx as <-.
  rewrite peek_store by (try done; apply wrap_range; lia).
  rewrite decide_True by done. rewrite address_offset by lia. by rewrite Nat2Z.id, Hy.
Qed.

(** Storing the bytes that are there changes nothing. *)
Lemma store_load b c a n : Z.of_nat n <= 2 ^ 64 -> same_bytes (store b c a (load b c a n)) b.
Proof.
  intros Hn c' x Hx. rewrite peek_store by first [done|apply load_ok|by rewrite length_load].
  destruct (decide (c' = c)) as [->|]; [|done].
  pose proof (wrap_range 64 (x - a) ltac:(lia)) as Hr.
  destruct (decide (Z.to_nat (wrap 64 (x - a)) < n)%nat) as [Hi|Hi].
  - rewrite lookup_load by done. cbn [default]. by rewrite Z2Nat.id, offset_address by lia.
  - rewrite lookup_ge_None_2 by (rewrite length_load; lia). done.
Qed.

Lemma store_same b1 b2 c a l : same_bytes b1 b2 -> bytes_ok l -> Z.of_nat (length l) <= 2 ^ 64 ->
  same_bytes (store b1 c a l) (store b2 c a l).
Proof. intros Hs Hl Hn c' x Hx. rewrite !peek_store by done. by rewrite Hs. Qed.

(** A store leaves the bytes behind it alone. *)
Lemma load_after b c a l n : bytes_ok l -> Z.of_nat (length l + n) <= 2 ^ 64 ->
  load (store b c a l) c (a + Z.of_nat (length l)) n = load b c (a + Z.of_nat (length l)) n.
Proof.
  intros Hl Hn. apply (list_eq_same_length _ _ n); [apply length_load..|].
  intros i x y Hi Hx Hy. rewrite lookup_load in Hx, Hy by done. injection Hx as <-. injection Hy as <-.
  rewrite peek_store by first [done|apply wrap_range; lia|lia]. rewrite decide_True by done.
  rewrite <- Z.add_assoc, address_offset by lia. by rewrite lookup_ge_None_2 by lia.
Qed.

(** Storing a block whose ends are the bytes that are there stores its middle. *)
Lemma store_middle b c a np m ns : bytes_ok m -> Z.of_nat (np + length m + ns) <= 2 ^ 64 ->
  same_bytes
    (store b c a (load b c a np ++ m ++ load b c (a + Z.of_nat np + Z.of_nat (length m)) ns))
    (store b c (a + Z.of_nat np) m).
Proof.
  intros Hm Hn. rewrite !store_app, !length_load.
  etransitivity.
  { apply store_same; [|apply load_ok|rewrite length_load; lia].
    apply store_same; [apply store_load; lia|done|lia]. }
  rewrite <- (load_after b) by (done || lia). apply store_load. lia.
Qed.
End laws.

(** * A memory *)

(** The bytes that were written; the others read as 0. *)
Abbreviation memory := (gmap (bool * Z) Z).

#[export] Program Instance memory_bus : ByteBus memory := {
  peek m c a := u8 (default 0 (m !! (c, a)));
  poke m c a v := <[(c, a) := v]> m }.
Next Obligation. intros m c a. cbn. apply (wrap_range 8). lia. Qed.
Next Obligation.
  intros m c a v c' a' Hv. destruct (decide ((c', a') = (c, a))) as [->|Hne].
  - rewrite lookup_insert_eq. by apply wrap_small.
  - by rewrite lookup_insert_ne by congruence.
Qed.
