(* ===== verification/Access.v ===== *)
(** The command-line tools [eb-read] and [eb-write]: [src/api/tools/eb-read.c] and
    [src/api/tools/eb-write.c]. One word of 1, 2, 4 or 8 bytes is accessed through a
    link and a device that may not support that size: the tools then split it
    into smaller operations, or fetch a larger word around it. *)
From stdpp Require Import base list gmap.
From Stdlib Require Import ZArith Lia.
From S2P Require Import Prelude Widths Store World Linked Cycle Format Master Valid Target.

Definition SDB_WISHBONE_LITTLE_ENDIAN : Z := 0x80.

(** * Choosing the format *)

(** The command line, after parsing; [probe] holds [info.bus_specific] when the
    device was looked up in the SDB tables of the target. *)
Record options := mk_options {
  probe : option Z; o_endian : Z; fidelity : bool; config : bool }.

Definition device_support (o : options) : Z :=
  match probe o with
  | Some bus_specific =>
    u8 ((if negb ((bus_specific .& SDB_WISHBONE_LITTLE_ENDIAN) =? 0) then EB_LITTLE_ENDIAN else EB_BIG_ENDIAN)
        .| (bus_specific .& EB_DATAX))
  | None => u8 (o_endian o .| EB_DATAX)
  end.

Definition chosen_endian (o : options) : Z :=
  if o_endian o =? 0 then device_support o .& EB_ENDIAN_MASK else o_endian o.

Definition line_widths (line_width : Z) : Z := u8 (((line_width .& EB_DATAX) .<< 1) - 1).

(** [write_sizes] of eb-write.c, [read_sizes] of eb-read.c. *)
Definition usable_sizes (o : options) (line_width : Z) : Z := line_widths line_width .& device_support o.

(** Every size up to the greatest one in a mask. *)
Definition fill_sizes (s : Z) : Z :=
  let s := s .| (s .>> 1) in
  s .| (s .>> 2).

(** The greatest bit of a mask whose lower bits are filled in. *)
Definition top_size (s : Z) : Z := s .^ (s .>> 1).

Definition lowest_size (s : Z) : Z := u8 (s .& (- s)).

(** The 64-bit value [~(eb_data_t)0 >> ((sizeof(eb_data_t)-n)*8)] is [byte_mask n]. *)

(** [address & ~(eb_address_t)(n-1)] *)
Definition align_down (address n : Z) : Z := address .& (2 ^ 64 - 1 - (n - 1)).

(** The tests on the command line before the connection is opened. *)
Definition size_ok (size : Z) : bool := (size =? 1) || (size =? 2) || (size =? 4) || (size =? 8).
Definition aligned_ok (address size : Z) : bool := (address .& (size - 1)) =? 0.
Definition value_ok (data size : Z) : bool := (data .& byte_mask size) =? data.

(** The callback: a failed cycle ends the tool. *)
Definition set_stop (status : Z) (go : script) : script :=
  if status =? EB_OK then go else Exit 1 None.

(** * eb-write *)

(** The loop over the fragments; [None] when [fuel] is not enough. *)
Fixpoint write_fragments (fuel : nat) (cfg : bool) (format data data_mask fragment_size shift_step : Z)
    (address address_end shift : Z) : option (list access) :=
  if address =? address_end then Some []
  else match fuel with
  | O => None
  | S fuel' =>
    let partial_data := (data .>> shift) .& data_mask in
    ops ← write_fragments fuel' cfg format data data_mask fragment_size shift_step
            (wrap 64 (address + fragment_size)) address_end (shift + shift_step);
    Some (mk_access true cfg address format partial_data :: ops)
  end.

(** The last cycle of the tool, then the two closes. *)
Definition last_cycle (ops : list access) : script :=
  Cycle ops (fun status _ => set_stop status (Exit 0 None)).

Definition eb_write (o : options) (line_width address size data : Z) : option script :=
  if negb (size_ok size) then Some (Exit 1 None) else
  if negb (aligned_ok address size) then Some (Exit 1 None) else
  if negb (value_ok data size) then Some (Exit 1 None) else
  let mask := byte_mask size in
  let format := chosen_endian o in
  let write_sizes := usable_sizes o line_width in
  if write_sizes =? 0 then Some (Exit 1 None) else
  if (size .& write_sizes) =? 0 then
    if fidelity o then Some (Exit 1 None) else
    let fragment_sizes := fill_sizes size in
    if negb ((fragment_sizes .& write_sizes) =? 0) then
      let complete_size := top_size fragment_sizes in
      let fragment_size := top_size (fill_sizes (fragment_sizes .& write_sizes)) in
      let format := format .| fragment_size in
      let endian := format .& EB_ENDIAN_MASK in
      let go shift shift_step :=
        ops ← write_fragments 8 (config o) format data (byte_mask fragment_size) fragment_size shift_step
                address (wrap 64 (address + complete_size)) shift;
        Some (last_cycle ops) in
      if endian =? EB_BIG_ENDIAN then go ((complete_size - fragment_size) * 8) (- fragment_size * 8)
      else if endian =? EB_LITTLE_ENDIAN then go 0 (fragment_size * 8)
      else Some (Exit 1 None)
    else
      let fragment_size := top_size fragment_sizes in
      let complete_size := lowest_size write_sizes in
      let format := format .| complete_size in
      let aligned_address := align_down address complete_size in
      let endian := format .& EB_ENDIAN_MASK in
      let go shift :=
        let mask := wrap 64 (mask .<< (shift * 8)) in
        let data := wrap 64 (data .<< (shift * 8)) in
        Some (Cycle [mk_access false (config o) aligned_address format 0] (fun status vs =>
          set_stop status
            (let original_data := default 0 (head vs) in
             let data := data .| (original_data .& (2 ^ 64 - 1 - mask)) in
             last_cycle [mk_access true (config o) aligned_address format data]))) in
      if endian =? EB_BIG_ENDIAN then go ((complete_size - fragment_size) - (address - aligned_address))
      else if endian =? EB_LITTLE_ENDIAN then go (address - aligned_address)
      else Some (Exit 1 None)
  else
    let format := format .| (size .& write_sizes) in
    if ((format .& line_width .& EB_DATAX) =? 0) && ((format .& EB_ENDIAN_MASK) =? 0) then Some (Exit 1 None)
    else Some (last_cycle [mk_access true (config o) address format data]).

(** * eb-read *)

(** The loop over the fragments. *)
Fixpoint read_fragments (count : nat) (cfg : bool) (format stride address : Z) : list access :=
  match count with
  | O => []
  | S count' => mk_access false cfg address format 0 ::
      read_fragments count' cfg format stride (wrap 64 (address + stride))
  end.

(** The callback: the values of the operations are joined, first one on top. A
    shift by 64 bits only meets the initial 0. *)
Definition join_values (n : Z) (vs : list Z) : Z :=
  fold_left (fun data v => wrap 64 (data .<< (n * 8)) .| v) vs 0.

Definition read_cycle (mask : Z) (ops : list access) (n shift : Z) : script :=
  Cycle ops (fun status vs =>
    set_stop status (Exit 0 (Some ((join_values n vs .>> (shift * 8)) .& mask)))).

Definition eb_read (o : options) (line_width address size : Z) : script :=
  if negb (size_ok size) then Exit 1 None else
  if negb (aligned_ok address size) then Exit 1 None else
  let mask := byte_mask size in
  let format := chosen_endian o in
  let read_sizes := usable_sizes o line_width in
  if read_sizes =? 0 then Exit 1 None else
  if (size .& read_sizes) =? 0 then
    if fidelity o then Exit 1 None else
    let fragment_sizes := fill_sizes size in
    if negb ((fragment_sizes .& read_sizes) =? 0) then
      let complete_size := top_size fragment_sizes in
      let fragment_size := top_size (fill_sizes (fragment_sizes .& read_sizes)) in
      let format := format .| fragment_size in
      let chunk := format .& EB_DATAX in
      let count := complete_size / chunk in
      let endian := format .& EB_ENDIAN_MASK in
      if endian =? EB_BIG_ENDIAN then
        read_cycle mask (read_fragments (Z.to_nat count) (config o) format chunk address) chunk 0
      else if endian =? EB_LITTLE_ENDIAN then
        read_cycle mask (read_fragments (Z.to_nat count) (config o) format (- chunk)
          (wrap 64 (address + chunk * (count - 1)))) chunk 0
      else Exit 1 None
    else
      let fragment_size := top_size fragment_sizes in
      let complete_size := lowest_size read_sizes in
      let format := format .| complete_size in
      let aligned_address := align_down address complete_size in
      let endian := format .& EB_ENDIAN_MASK in
      let go shift := read_cycle mask [mk_access false (config o) aligned_address format 0] complete_size shift in
      if endian =? EB_BIG_ENDIAN then go ((complete_size - fragment_size) - (address - aligned_address))
      else if endian =? EB_LITTLE_ENDIAN then go (address - aligned_address)
      else Exit 1 None
  else
    let format := format .| (size .& read_sizes) in
    if ((format .& line_width .& EB_DATAX) =? 0) && ((format .& EB_ENDIAN_MASK) =? 0) then Exit 1 None
    else read_cycle mask [mk_access false (config o) address format 0] (format .& EB_DATAX) 0.

(** * Values as bytes *)

(** Replacing the bits from [k] on by the [f] bits of [v]. *)
Lemma replace_field p m s v k f : 0 <= k -> 0 <= f -> k + f <= 64 -> 0 <= s < 2 ^ k -> 0 <= m < 2 ^ f -> 0 <= v < 2 ^ f ->
  0 <= p -> (p * 2 ^ f + m) * 2 ^ k + s < 2 ^ 64 ->
  wrap 64 (v .<< k) .| (((p * 2 ^ f + m) * 2 ^ k + s) .& (2 ^ 64 - 1 - wrap 64 (Z.ones f .<< k))) =
  (p * 2 ^ f + v) * 2 ^ k + s.
Proof.
  intros Hk Hf Hkf Hs Hm Hv Hp Hw.
  assert (2 ^ (k + f) = 2 ^ f * 2 ^ k) as Hpow by (rewrite Z.pow_add_r by lia; lia).
  assert (2 ^ (k + f) <= 2 ^ 64) as Hle by (apply Z.pow_le_mono_r; lia).
  rewrite !Z.shiftl_mul_pow2 by lia.
  rewrite (wrap_small 64 (v * 2 ^ k)) by nia.
  rewrite (wrap_small 64 (Z.ones f * 2 ^ k)) by (rewrite Z.ones_equiv; nia).
  change (2 ^ 64 - 1) with (Z.ones 64).
  assert (Z.ones f * 2 ^ k = Z.ones f .<< k) as -> by (by rewrite Z.shiftl_mul_pow2 by lia).
  rewrite Z.sub_nocarry_ldiff.
  2: { apply Z.bits_inj'. intros i Hi. rewrite Z.ldiff_spec, Z.shiftl_spec, Z.bits_0 by lia.
    destruct (Z.ltb_spec i 64); [rewrite (Z.ones_spec_low 64) by lia; apply andb_false_r|].
    rewrite Z.ones_spec_high by lia. done. }
  apply Z.bits_inj'. intros i Hi.
  rewrite Z.lor_spec, Z.land_spec, Z.ldiff_spec, Z.shiftl_spec by lia.
  replace (v * 2 ^ k) with (v * 2 ^ k + 0) by lia.
  rewrite (testbit_join v k 0), (testbit_join (p * 2 ^ f + m) k s), (testbit_join (p * 2 ^ f + v) k s) by lia.
  destruct (Z.ltb_spec i k) as [Hik|Hik].
  { rewrite Z.bits_0, (Z.testbit_neg_r _ (i - k)) by lia. rewrite (Z.ones_spec_low 64) by lia.
    by destruct (Z.testbit s i). }
  rewrite (testbit_join p f m), (testbit_join p f v) by lia. destruct (Z.ltb_spec (i - k) f) as [Hif|Hif].
  - rewrite (Z.ones_spec_low f) by lia. cbn [negb]. by rewrite !andb_false_r, orb_false_r.
  - rewrite (Z.ones_spec_high f) by lia. rewrite (testbit_above v f) by lia.
    cbn [negb orb]. rewrite andb_true_r.
    destruct (Z.ltb_spec i 64); [rewrite (Z.ones_spec_low 64) by lia; by destruct (Z.testbit p (i - k - f))|].
    rewrite (Z.ones_spec_high 64) by lia. rewrite andb_false_r. symmetry.
    apply (testbit_above p (64 - k - f)); [|lia]. split; [done|].
    replace 64 with ((64 - k - f) + (f + k)) in Hw at 1 by lia. rewrite Z.pow_add_r, (Z.pow_add_r 2 f) in Hw by lia. nia.
Qed.

Lemma be_val_join p m s :
  be_val (p ++ m ++ s) =
  (be_val p * 2 ^ (8 * Z.of_nat (length m)) + be_val m) * 2 ^ (8 * Z.of_nat (length s)) + be_val s.
Proof. by rewrite app_assoc, !be_val_app, !pow256 by lia. Qed.

(** The value merged into a word that was read, as bytes. *)
Lemma merge_bytes p m s v : bytes_ok (p ++ m ++ s) -> (length (p ++ m ++ s) <= 8)%nat -> m <> [] ->
  0 <= v < 2 ^ (8 * Z.of_nat (length m)) ->
  wrap 64 (v .<< (Z.of_nat (length s) * 8)) .|
    (be_val (p ++ m ++ s) .& (2 ^ 64 - 1 - wrap 64 (byte_mask (Z.of_nat (length m)) .<< (Z.of_nat (length s) * 8)))) =
  be_val (p ++ be_bytes (length m) v ++ s).
Proof.
  intros Hok Hlen Hne Hv. pose proof (be_val_range _ Hok) as Hr.
  assert (256 ^ Z.of_nat (length (p ++ m ++ s)) <= 2 ^ 64) as H64
    by (change (2 ^ 64) with (256 ^ 8); apply Z.pow_le_mono_r; lia).
  apply Forall_app in Hok as [Hp Hok]. apply Forall_app in Hok as [Hm Hs].
  pose proof (be_val_range p Hp). pose proof (be_val_range m Hm) as Hmr. pose proof (be_val_range s Hs) as Hsr.
  assert (0 < length m)%nat by (destruct m; [done|cbn; lia]).
  rewrite (Z.mul_comm _ 8), byte_mask_ones by (rewrite !length_app in Hlen; lia).
  rewrite pow256 in Hmr, Hsr by lia.
  rewrite !be_val_join in *. rewrite be_val_bytes, length_be_bytes, (wrap_small _ v) by done.
  rewrite !length_app in Hlen. apply replace_field; lia.
Qed.

(** The middle of a word that was read. *)
Lemma middle_value p m s : bytes_ok (p ++ m ++ s) -> (1 <= length m <= 8)%nat ->
  (be_val (p ++ m ++ s) .>> (Z.of_nat (length s) * 8)) .& byte_mask (Z.of_nat (length m)) = be_val m.
Proof.
  intros Hok Hlen. apply Forall_app in Hok as [Hp Hok]. apply Forall_app in Hok as [Hm Hs].
  pose proof (be_val_range m Hm) as Hmr. pose proof (be_val_range s Hs) as Hsr.
  rewrite byte_mask_ones, Z.land_ones by lia. rewrite app_assoc, be_val_app, Z.shiftr_div_pow2 by lia.
  rewrite (Z.mul_comm _ 8), <- pow256, Z.div_add_l, (Z.div_small (be_val s)), Z.add_0_r by lia.
  rewrite be_val_app, Z.add_comm, <- pow256, Z.mod_add by lia. by apply Z.mod_small.
Qed.

(** ** The sizes the tools settle on, by evaluation over all masks *)

Definition masks : list Z := [1; 2; 3; 4; 5; 6; 7; 8; 9; 10; 11; 12; 13; 14; 15].

Definition size_facts (size ws : Z) : bool :=
  let f := top_size (fill_sizes (fill_sizes size .& ws)) in
  let c := lowest_size ws in
  (top_size (fill_sizes size) =? size) &&
  (if negb ((size .& ws) =? 0) then (size .& ws) =? size
   else if negb ((fill_sizes size .& ws) =? 0) then
     existsb (fun p => (f =? fst p) && (size =? fst p * snd p)) [(1, 2); (1, 4); (1, 8); (2, 2); (2, 4); (4, 2)]
     && ((f .& ws) =? f)
   else existsb (fun p => (c =? fst p) && (size =? snd p)) [(2, 1); (4, 1); (4, 2); (8, 1); (8, 2); (8, 4)]
     && ((c .& ws) =? c)).

Lemma size_facts_ok size ws : In size [1; 2; 4; 8] -> In ws masks -> size_facts size ws = true.
Proof.
  intros Hs Hw.
  assert (forallb (fun s => forallb (size_facts s) masks) [1; 2; 4; 8] = true) as H by by vm_compute.
  apply (proj1 (forallb_forall _ _)) with (x := size) in H; [|done].
  by apply (proj1 (forallb_forall _ _)) with (x := ws) in H.
Qed.

(** How a word of [size] bytes is accessed when the sizes [ws] can be used. *)
Inductive way (size ws : Z) : Prop :=
  | whole (H1 : ((size .& ws) =? 0) = false) (H2 : (size .& ws) = size)
  | split_up (f : Z) (k : nat) (H1 : ((size .& ws) =? 0) = true) (H2 : ((fill_sizes size .& ws) =? 0) = false)
      (H3 : top_size (fill_sizes (fill_sizes size .& ws)) = f) (H4 : (f .& ws) = f) (H5 : In f [1; 2; 4])
      (H6 : size = f * Z.of_nat k) (H7 : (2 <= k <= 8)%nat)
  | around (c : Z) (H1 : ((size .& ws) =? 0) = true) (H2 : ((fill_sizes size .& ws) =? 0) = true)
      (H3 : lowest_size ws = c) (H4 : (c .& ws) = c) (H5 : In (c, size) [(2, 1); (4, 1); (4, 2); (8, 1); (8, 2); (8, 4)]).

Lemma way_cases size ws : In size [1; 2; 4; 8] -> In ws masks ->
  top_size (fill_sizes size) = size /\ way size ws.
Proof.
  intros Hs Hw. pose proof (size_facts_ok size ws Hs Hw) as H. unfold size_facts in H.
  apply andb_prop in H as [Htop H]. bool_hyps. split; [done|].
  destruct ((size .& ws) =? 0) eqn:E1; cbn [negb] in H; [|apply whole; [done|by apply Z.eqb_eq]].
  destruct ((fill_sizes size .& ws) =? 0) eqn:E2; cbn [negb] in H; apply andb_prop in H as [H Hc];
    apply Z.eqb_eq in Hc; apply existsb_exists in H as ([f k] & Hin & H); cbn [fst snd] in H;
    apply andb_prop in H as [H1 H2]; apply Z.eqb_eq in H1, H2; rewrite H1 in Hc.
  - apply (around _ _ f); [done..|]. by rewrite H2.
  - assert (In f [1; 2; 4] /\ 2 <= k <= 8) as [Hf Hk].
    { cbn in Hin. repeat destruct Hin as [Hin|Hin]; try injection Hin as <- <-; cbn; lia || done. }
    apply (split_up _ _ f (Z.to_nat k)); [done..|by rewrite Z2Nat.id by lia|lia].
Qed.

(** ** Formats and addresses *)

Definition known_endian (e : Z) : Prop := e = EB_BIG_ENDIAN \/ e = EB_LITTLE_ENDIAN.

Lemma format_parts e n : known_endian e -> In n [1; 2; 4; 8] ->
  (e .| n) .& EB_DATAX = n /\ (e .| n) .& EB_ENDIAN_MASK = e /\ ((e .| n) =? 0) = false.
Proof. intros [-> | ->] [<-|[<-|[<-|[<-|[]]]]]; done. Qed.

Lemma align_down_floor address n : 0 <= address < 2 ^ 64 -> In n [1; 2; 4; 8] ->
  align_down address n = address / n * n.
Proof.
  intros Ha Hn. unfold align_down. change (2 ^ 64 - 1) with (Z.ones (8 * 8)).
  rewrite mask_floor by (done || lia). by rewrite Z.mod_small.
Qed.

Lemma aligned_ok_mod address size : In size [1; 2; 4; 8] -> aligned_ok address size = (address mod size =? 0).
Proof.
  intros Hs. destruct (pow2_size size Hs) as (k & Hk & ->). unfold aligned_ok.
  replace (2 ^ k - 1) with (Z.ones k) by (rewrite Z.ones_equiv; lia). by rewrite Z.land_ones by lia.
Qed.

Lemma size_ok_in size : size_ok size = true <-> In size [1; 2; 4; 8].
Proof.
  unfold size_ok. rewrite !orb_true_iff, !Z.eqb_eq. cbn. intuition congruence.
Qed.
