(* ===== verification/AccessCorrect.v ===== *)
(** eb-read and eb-write are correct: what the scripts of Access.v do to a target
    that keeps its bytes, and that the library accepts their operations. *)
From stdpp Require Import base list gmap.
From Stdlib Require Import ZArith Lia.
From S2P Require Import Prelude Widths Store World Linked Cycle Format Master Valid Target Access.

Section served.
Context {B : Type} {bus : ByteBus B}.

Lemma serve_write dev b cfg a e n v : known_endian e -> In n [1; 2; 4; 8] ->
  serve dev b (mk_access true cfg a (e .| n) v) = (store b cfg a (word_bytes e (Z.to_nat n) v), v).
Proof.
  intros He Hn. destruct (format_parts e n He Hn) as (Hd & Hm & _).
  unfold serve, access_endian, a_size. cbn [a_write a_config a_address a_format a_value]. rewrite Hd, Hm.
  assert ((e =? 0) = false) as -> by (by destruct He as [-> | ->]). done.
Qed.

Lemma serve_read dev b cfg a e n v : known_endian e -> In n [1; 2; 4; 8] ->
  serve dev b (mk_access false cfg a (e .| n) v) = (b, word_val e (load b cfg a (Z.to_nat n))).
Proof.
  intros He Hn. destruct (format_parts e n He Hn) as (Hd & Hm & _).
  unfold serve, access_endian, a_size. cbn [a_write a_config a_address a_format a_value]. rewrite Hd, Hm.
  assert ((e =? 0) = false) as -> by (by destruct He as [-> | ->]). done.
Qed.

(** ** Fragmented writes *)

Lemma word_bytes_mask e n v : In n [1; 2; 4; 8] -> word_bytes e (Z.to_nat n) (v .& byte_mask n) = word_bytes e (Z.to_nat n) v.
Proof.
  intros Hn. assert (1 <= n <= 8) by (cbn in Hn; lia).
  rewrite byte_mask_ones, <- wrap_land_ones by lia.
  replace n with (Z.of_nat (Z.to_nat n)) at 2 by lia. by apply word_bytes_wrap.
Qed.

(** The end of the loop is not met early. *)
Lemma end_ahead a n : 0 <= a < 2 ^ 64 -> 0 < n < 2 ^ 64 -> (a =? wrap 64 (a + n)) = false.
Proof.
  intros Ha Hn. apply Z.eqb_neq. unfold wrap. intros Heq.
  destruct (Z_lt_dec (a + n) (2 ^ 64)); [rewrite Z.mod_small in Heq; lia|].
  replace (a + n) with (a + n - 2 ^ 64 + 1 * 2 ^ 64) in Heq by lia.
  rewrite Z.mod_add, Z.mod_small in Heq; lia.
Qed.

Lemma write_fragments_step fuel cfg format data n step a k shift :
  0 <= a < 2 ^ 64 -> In n [1; 2; 4; 8] -> (k < 8)%nat ->
  write_fragments (S fuel) cfg format data (byte_mask n) n step a (wrap 64 (a + n * Z.of_nat (S k))) shift =
  ops ← write_fragments fuel cfg format data (byte_mask n) n step (wrap 64 (a + n))
          (wrap 64 (wrap 64 (a + n) + n * Z.of_nat k)) (shift + step);
  Some (mk_access true cfg a format ((data .>> shift) .& byte_mask n) :: ops).
Proof.
  intros Ha Hn Hk. cbn [write_fragments]. rewrite end_ahead by (cbn in Hn; lia || done).
  rewrite wrap_add_l. do 3 f_equal. lia.
Qed.

(** An access the tools may ask for: one of the sizes [ws], aligned, inside
    [lo, hi), a value of that size. *)
Definition proper (cfg : bool) (e ws lo hi : Z) (x : access) : Prop :=
  a_config x = cfg /\ exists n, In n [1; 2; 4; 8] /\ (n .& ws) = n /\ a_format x = e .| n /\
    lo <= a_address x /\ a_address x + n <= hi /\ a_address x mod n = 0 /\ 0 <= a_value x < 2 ^ (8 * n).

Lemma proper_weaken cfg e ws lo hi lo' hi' x : lo' <= lo -> hi <= hi' ->
  proper cfg e ws lo hi x -> proper cfg e ws lo' hi' x.
Proof. intros Hlo Hhi (Hc & n & ? & ? & ? & ? & ? & ? & ?). split; [done|]. exists n. repeat split; try done; lia. Qed.

Lemma masked_value v n : In n [1; 2; 4; 8] -> 0 <= v .& byte_mask n < 2 ^ (8 * n).
Proof.
  intros Hn. assert (1 <= n <= 8) by (cbn in Hn; lia).
  rewrite byte_mask_ones, Z.land_ones by lia. apply Z.mod_pos_bound, Z.pow_pos_nonneg; lia.
Qed.

Section fragments.
Context (cfg : bool) (e ws n data : Z).
Context (Hn : In n [1; 2; 4; 8]) (Hws : (n .& ws) = n).

(** The loop writes [k] fragments from [a] on; [total] is what they store. *)
Definition fragments_store (step shift : Z) (a : Z) (k : nat) (total : list Z) : Prop :=
  forall fuel, (k <= fuel)%nat ->
  exists ops, write_fragments fuel cfg (e .| n) data (byte_mask n) n step a (wrap 64 (a + n * Z.of_nat k)) shift = Some ops /\
    Forall (proper cfg e ws a (a + n * Z.of_nat k)) ops /\
    forall dev b, fst (serve_cycle dev b ops) = store b cfg a total.

Lemma fragments_none step shift a : 0 <= a < 2 ^ 64 -> fragments_store step shift a 0 [].
Proof.
  intros Ha fuel _. exists []. split; [|done].
  rewrite Z.mul_0_r, Z.add_0_r, wrap_small by done. destruct fuel; cbn; by rewrite Z.eqb_refl.
Qed.

Lemma fragments_next step shift a k rest : known_endian e ->
  0 <= a -> a + n * Z.of_nat (S k) <= 2 ^ 64 -> a mod n = 0 -> (k < 8)%nat ->
  (k = O -> rest = []) -> ((0 < k)%nat -> fragments_store step (shift + step) (a + n) k rest) ->
  fragments_store step shift a (S k) (word_bytes e (Z.to_nat n) (data .>> shift) ++ rest).
Proof.
  intros He Ha Hend Hal Hk Hnil Hrest fuel Hfuel. destruct fuel as [|fuel]; [lia|].
  assert (1 <= n <= 8) by (cbn in Hn; lia).
  assert (exists ops, write_fragments fuel cfg (e .| n) data (byte_mask n) n step (wrap 64 (a + n))
      (wrap 64 (wrap 64 (a + n) + n * Z.of_nat k)) (shift + step) = Some ops /\
    Forall (proper cfg e ws (a + n) (a + n * Z.of_nat (S k))) ops /\
    forall dev b, fst (serve_cycle dev b ops) = store b cfg (wrap 64 (a + n)) rest) as (ops & Hops & Hfits & Hserve).
  { destruct k as [|k].
    - destruct (fragments_none step (shift + step) (wrap 64 (a + n)) ltac:(apply wrap_range; lia) fuel ltac:(lia))
        as (ops & Hops & _ & Hserve).
      rewrite (Hnil eq_refl). exists ops. split; [done|]. split; [|done].
      rewrite Z.mul_0_r, Z.add_0_r, wrap_wrap in Hops by lia.
      destruct fuel; cbn in Hops; rewrite Z.eqb_refl in Hops; by injection Hops as <-.
    - rewrite wrap_small by lia. destruct (Hrest ltac:(lia) fuel ltac:(lia)) as (ops & Hops & Hfits & Hserve).
      exists ops. split; [done|]. split; [|done]. eapply Forall_impl; [exact Hfits|].
      intros x. apply proper_weaken; lia. }
  rewrite write_fragments_step, Hops by (done || lia).
  eexists; split; [reflexivity|]. split.
  - constructor.
    + split; [done|]. exists n. cbn. pose proof (masked_value (data .>> shift) n Hn). repeat split; try done; lia.
    + eapply Forall_impl; [exact Hfits|]. intros x. apply proper_weaken; lia.
  - intros dev b. cbn [serve_cycle]. rewrite serve_write, word_bytes_mask by done.
    specialize (Hserve dev (store b cfg a (word_bytes e (Z.to_nat n) (data .>> shift)))).
    destruct (serve_cycle dev _ ops). cbn [fst] in *.
    rewrite Hserve, store_wrap, store_app, length_word_bytes by done. f_equal. lia.
Qed.

Lemma next_aligned a : a mod n = 0 -> (a + n) mod n = 0.
Proof. intros Ha. assert (n <> 0) by (cbn in Hn; lia). rewrite <- Z.add_mod_idemp_l, Ha, Z.add_0_l by done. by apply Z.mod_same. Qed.

Lemma word_bytes_none v : word_bytes e 0 v = [].
Proof. apply nil_length_inv, length_word_bytes. Qed.

Lemma fragments_big a k : e = EB_BIG_ENDIAN -> 0 <= a < 2 ^ 64 -> a + n * Z.of_nat k <= 2 ^ 64 -> a mod n = 0 -> (k <= 8)%nat ->
  fragments_store (- n * 8) ((n * Z.of_nat k - n) * 8) a k (word_bytes e (Z.to_nat n * k) data).
Proof.
  intros He. assert (1 <= n <= 8) by (cbn in Hn; lia).
  revert a. induction k as [|k IH]; intros a Ha Hend Hal Hk.
  - rewrite Nat.mul_0_r, word_bytes_none. by apply fragments_none.
  - replace (Z.to_nat n * S k)%nat with (Z.to_nat n + Z.to_nat n * k)%nat by lia.
    rewrite He, word_bytes_big, <- He.
    replace (8 * Z.of_nat (Z.to_nat n * k)) with ((n * Z.of_nat (S k) - n) * 8) by lia.
    apply fragments_next; [by left|lia..|done|lia| |].
    + intros ->. by rewrite Nat.mul_0_r, word_bytes_none.
    + intros Hpos. replace ((n * Z.of_nat (S k) - n) * 8 + - n * 8) with ((n * Z.of_nat k - n) * 8) by lia.
      apply IH; [lia|lia|by apply next_aligned|lia].
Qed.

Lemma fragments_little a k i : e = EB_LITTLE_ENDIAN -> 0 <= i -> 0 <= a < 2 ^ 64 -> a + n * Z.of_nat k <= 2 ^ 64 ->
  a mod n = 0 -> (k <= 8)%nat ->
  fragments_store (n * 8) (n * 8 * i) a k (word_bytes e (Z.to_nat n * k) (data .>> (n * 8 * i))).
Proof.
  intros He. assert (1 <= n <= 8) by (cbn in Hn; lia).
  revert a i. induction k as [|k IH]; intros a i Hi Ha Hend Hal Hk.
  - rewrite Nat.mul_0_r, word_bytes_none. by apply fragments_none.
  - replace (Z.to_nat n * S k)%nat with (Z.to_nat n * k + Z.to_nat n)%nat by lia.
    rewrite He, word_bytes_little, <- He, Z.shiftr_shiftr by lia.
    apply fragments_next; [by right|lia..|done|lia| |].
    + intros ->. by rewrite Nat.mul_0_r, word_bytes_none.
    + intros Hpos. replace (n * 8 * i + n * 8) with (n * 8 * (i + 1)) by lia.
      replace (n * 8 * i + 8 * Z.of_nat (Z.to_nat n)) with (n * 8 * (i + 1)) by lia.
      apply IH; [lia|lia|lia|by apply next_aligned|lia].
Qed.
End fragments.

(** ** Writing around a fragment *)

Lemma issued_last ops x : issued (last_cycle ops) x -> In x ops.
Proof.
  intros H. inversion H as [? ? ? Hin|? ? status vs ? Hans Hlater]; subst; [done|].
  cbn in Hlater. unfold set_stop in Hlater. destruct (status =? EB_OK); by inversion Hlater.
Qed.

(** The conditions under which the tools reach a size and an endian they can use. *)
Record usable (o : options) (line_width address size : Z) (e ws hi : Z) : Prop := {
  u_size : In size [1; 2; 4; 8];
  u_low : 0 <= address;
  u_high : address + size <= hi;
  u_limit : hi <= 2 ^ 64 /\ hi mod 8 = 0;
  u_aligned : address mod size = 0;
  u_endian : chosen_endian o = e /\ known_endian e;
  u_sizes : usable_sizes o line_width = ws /\ In ws masks;
  u_fidelity : fidelity o = false \/ (size .& ws) <> 0 }.

Lemma mask_size ws : In ws masks -> (ws =? 0) = false.
Proof. intros H. cbn in H. apply Z.eqb_neq. lia. Qed.

Lemma pair_bounds (c size : Z) : In (c, size) [(2, 1); (4, 1); (4, 2); (8, 1); (8, 2); (8, 4)] -> 1 <= size <= 8 /\ 2 <= c <= 8.
Proof. cbn. intros Hin. repeat (destruct Hin as [[= <- <-]|Hin]; [lia|]). done. Qed.

(** The block of [c] bytes around an aligned word, and the parts before and after it. *)
Lemma around_block c size address hi : In (c, size) [(2, 1); (4, 1); (4, 2); (8, 1); (8, 2); (8, 4)] ->
  0 <= address -> address + size <= hi -> hi mod 8 = 0 -> address mod size = 0 ->
  let al := address / c * c in
  In c [2; 4; 8] /\ 0 <= al <= address /\ address + size <= al + c <= hi /\ al mod c = 0.
Proof.
  intros Hin Ha Hend Hhi Hal. cbn zeta. cbn in Hin.
  repeat (destruct Hin as [Hin|Hin]; [injection Hin as <- <-;
    (split; [cbn; tauto|]; split; [|split; [|apply Z.mod_mul; lia]]); Z.div_mod_to_equations; lia|]). done.
Qed.

(** The number of bytes below the fragment in the value of the block. *)
Definition bytes_below (e : Z) (before behind : nat) : nat := if e =? EB_BIG_ENDIAN then behind else before.

Lemma merge_value e p m s v : known_endian e -> bytes_ok (p ++ m ++ s) -> (length (p ++ m ++ s) <= 8)%nat -> m <> [] ->
  0 <= v < 2 ^ (8 * Z.of_nat (length m)) ->
  let k := Z.of_nat (bytes_below e (length p) (length s)) * 8 in
  wrap 64 (v .<< k) .| (word_val e (p ++ m ++ s) .& (2 ^ 64 - 1 - wrap 64 (byte_mask (Z.of_nat (length m)) .<< k))) =
  word_val e (p ++ word_bytes e (length m) v ++ s).
Proof.
  intros [-> | ->] Hok Hlen Hne Hv; unfold word_val, word_bytes, bytes_below; cbn [Z.eqb Pos.eqb EB_BIG_ENDIAN EB_LITTLE_ENDIAN].
  - by apply merge_bytes.
  - change (EB_LITTLE_ENDIAN =? EB_BIG_ENDIAN) with false. cbn iota.
    rewrite !rev_app_distr, rev_involutive, <- !app_assoc, <- (length_rev p), <- (length_rev m).
    apply merge_bytes; rewrite ?length_rev; try done.
    + rewrite app_assoc, <- !rev_app_distr. by apply Forall_rev.
    + rewrite app_assoc, <- !rev_app_distr. by rewrite length_rev.
    + intros Hr. by apply (f_equal (@rev Z)) in Hr; rewrite rev_involutive in Hr.
Qed.

Lemma middle_word e p m s : known_endian e -> bytes_ok (p ++ m ++ s) -> (1 <= length m <= 8)%nat ->
  (word_val e (p ++ m ++ s) .>> (Z.of_nat (bytes_below e (length p) (length s)) * 8)) .& byte_mask (Z.of_nat (length m)) =
  word_val e m.
Proof.
  intros [-> | ->] Hok Hlen; unfold word_val, bytes_below.
  - by apply middle_value.
  - change (EB_LITTLE_ENDIAN =? EB_BIG_ENDIAN) with false. cbn iota.
    rewrite !rev_app_distr, <- app_assoc, <- (length_rev p), <- (length_rev m).
    apply middle_value; rewrite ?length_rev; [|done].
    rewrite app_assoc, <- !rev_app_distr. by apply Forall_rev.
Qed.

(** A block of [c] bytes is the part before, the fragment and the part behind. *)
Lemma block_parts (l : list Z) np nm ns : length l = (np + nm + ns)%nat -> exists p m s,
  l = p ++ m ++ s /\ length p = np /\ length m = nm /\ length s = ns.
Proof.
  intros Hl. exists (take np l), (take nm (drop np l)), (drop nm (drop np l)).
  rewrite !take_drop, !length_take, !length_drop. split; [done|lia].
Qed.

(** The read-modify-write of eb-write, with the shift of the endian. *)
Definition rewrite_block (cfg : bool) (format al mask data shift : Z) : script :=
  Cycle [mk_access false cfg al format 0] (fun status vs =>
    set_stop status
      (last_cycle [mk_access true cfg al format
        (wrap 64 (data .<< (shift * 8)) .| (default 0 (head vs) .& (2 ^ 64 - 1 - wrap 64 (mask .<< (shift * 8)))))])).

Definition block_shift (e c size before : Z) : Z := if e =? EB_BIG_ENDIAN then (c - size) - before else before.

Section block.
Context (cfg : bool) (e ws hi c size address : Z).
Context (Hin : In (c, size) [(2, 1); (4, 1); (4, 2); (8, 1); (8, 2); (8, 4)]) (He : known_endian e) (Hws : (c .& ws) = c).
Context (Ha : 0 <= address) (Hend : address + size <= hi) (Hhi : hi <= 2 ^ 64 /\ hi mod 8 = 0) (Hal : address mod size = 0).
Let al := address / c * c.
Let np := Z.to_nat (address - al).
Let ns := Z.to_nat (al + c - (address + size)).

Lemma block_layout :
  In c [1; 2; 4; 8] /\ 1 <= size <= 8 /\ c <= 8 /\ 0 <= al /\ al + c <= hi /\ al mod c = 0 /\
  Z.to_nat c = (np + Z.to_nat size + ns)%nat /\ al + Z.of_nat np = address /\
  block_shift e c size (address - al) = Z.of_nat (bytes_below e np ns).
Proof.
  destruct (around_block c size address hi Hin Ha Hend (proj2 Hhi) Hal) as (Hc & H1 & H2 & H3). fold al in H1, H2, H3.
  assert (1 <= size <= 8 /\ 2 <= c <= 8) as [Hs Hc8].
  { by apply pair_bounds. }
  unfold np, ns, block_shift, bytes_below. repeat split; try lia; try done.
  - cbn in Hc |- *. tauto.
  - case_if; lia.
Qed.

(** The merged value of a block, whatever was read. *)
Lemma block_value w data : bytes_ok w -> length w = Z.to_nat c -> 0 <= data < 2 ^ (8 * size) ->
  exists p m s, w = p ++ m ++ s /\ length p = np /\ length m = Z.to_nat size /\ length s = ns /\
  wrap 64 (data .<< (block_shift e c size (address - al) * 8)) .|
    (word_val e w .& (2 ^ 64 - 1 - wrap 64 (byte_mask size .<< (block_shift e c size (address - al) * 8)))) =
  word_val e (p ++ word_bytes e (Z.to_nat size) data ++ s).
Proof.
  intros Hw Hlen Hdata. destruct block_layout as (Hc & Hs & Hc8 & _ & _ & _ & Hsum & _ & Hshift).
  destruct (block_parts w np (Z.to_nat size) ns ltac:(lia)) as (p & m & s & -> & Hp & Hm & Hsl).
  exists p, m, s. repeat split; [done..|]. rewrite Hshift, <- Hp, <- Hsl.
  pose proof (merge_value e p m s data He Hw ltac:(lia) ltac:(by intros ->; cbn in Hm; lia)) as Hmerge.
  rewrite Hm, Z2Nat.id in Hmerge by lia. by apply Hmerge.
Qed.

Lemma proper_read n a v : In n [1; 2; 4; 8] -> (n .& ws) = n -> 0 <= a -> a + n <= hi -> a mod n = 0 ->
  0 <= v < 2 ^ (8 * n) -> forall w, proper cfg e ws 0 hi (mk_access w cfg a (e .| n) v).
Proof. intros. split; [done|]. exists n. cbn. repeat split; try done; lia. Qed.

Lemma answers_one x vs : answers [x] vs -> exists v, vs = [v] /\ 0 <= v < 2 ^ (8 * Z.of_nat (a_size x)).
Proof. intros H. inversion H as [|? v ? vs' Hv Hrest]; subst. inversion Hrest; subst. by exists v. Qed.

Lemma word_of_value (v : Z) : 0 <= v < 2 ^ (8 * c) -> exists w, bytes_ok w /\ length w = Z.to_nat c /\ v = word_val e w.
Proof.
  intros Hv. destruct block_layout as (_ & _ & Hc & _). exists (word_bytes e (Z.to_nat c) v).
  split; [apply word_bytes_ok|]. split; [apply length_word_bytes|].
  pose proof (pair_bounds c size Hin). by rewrite word_val_bytes, Z2Nat.id, wrap_small by lia.
Qed.

Definition block_script (data : Z) : script :=
  rewrite_block cfg (e .| c) al (byte_mask size) data (block_shift e c size (address - al)).

Lemma block_issued data x : 0 <= data < 2 ^ (8 * size) -> issued (block_script data) x -> proper cfg e ws 0 hi x.
Proof.
  intros Hdata Hx. destruct block_layout as (Hc & Hs & Hc8 & Hal0 & Hale & Halc & Hsum & _).
  pose proof (pair_bounds c size Hin) as Hb.
  inversion Hx as [? ? ? Hnow|? ? status vs ? Hans Hlater]; subst.
  { destruct Hnow as [<-|[]]. apply proper_read; done || lia. }
  apply answers_one in Hans as (v & -> & Hv). cbn beta in Hlater. unfold set_stop in Hlater.
  destruct (status =? EB_OK); [|by inversion Hlater]. apply issued_last in Hlater as [<-|[]]. cbn [head from_option]; unfold id.
  unfold a_size in Hv. cbn [a_format] in Hv. rewrite (proj1 (format_parts e c He Hc)), Z2Nat.id in Hv by lia.
  destruct (word_of_value v Hv) as (w & Hw & Hlen & ->).
  destruct (block_value w data Hw Hlen Hdata) as (p & m & s & -> & Hp & Hm & Hsl & Heq). rewrite Heq.
  apply proper_read; try done.
  apply Forall_app in Hw as [Hp' Hw]. apply Forall_app in Hw as [_ Hs'].
  assert (bytes_ok (p ++ word_bytes e (Z.to_nat size) data ++ s)) as Hok
    by (rewrite !Forall_app; split_and!; [done|apply word_bytes_ok|done]).
  pose proof (word_val_range e _ Hok) as Hr.
  rewrite !length_app, length_word_bytes, pow256 in Hr by lia.
  replace (8 * Z.of_nat (length p + (Z.to_nat size + length s))) with (8 * c) in Hr by lia. done.
Qed.

Lemma block_stores data dev b : 0 <= data < 2 ^ (8 * size) ->
  exists b', run_script dev b (block_script data) = (b', 0, None) /\
    same_bytes b' (store b cfg address (word_bytes e (Z.to_nat size) data)).
Proof.
  intros Hdata. destruct block_layout as (Hc & Hs & Hc8 & Hal0 & Hale & Halc & Hsum & Haddr & _).
  destruct (block_value (load b cfg al (Z.to_nat c)) data (load_ok _ _ _ _) (length_load _ _ _ _) Hdata)
    as (p & m & s & Hsplit & Hp & Hm & Hsl & Heq).
  eexists. split.
  { unfold block_script, rewrite_block. cbn [run_script serve_cycle]. rewrite serve_read by done.
    cbn [set_stop Z.eqb EB_OK run_script last_cycle head default serve_cycle]. rewrite serve_write by done.
    cbn [set_stop Z.eqb EB_OK run_script]. reflexivity. }
  cbn [head from_option]. unfold id. rewrite Heq.
  pose proof (load_ok b cfg al (Z.to_nat c)) as Hok. rewrite Hsplit in Hok.
  apply Forall_app in Hok as [Hp' Hok]. apply Forall_app in Hok as [_ Hs'].
  assert (bytes_ok (p ++ word_bytes e (Z.to_nat size) data ++ s)) as Hnew
    by (rewrite !Forall_app; split_and!; [done|apply word_bytes_ok|done]).
  replace (Z.to_nat c) with (length (p ++ word_bytes e (Z.to_nat size) data ++ s))
    by (rewrite !length_app, length_word_bytes; lia).
  rewrite word_bytes_val by done.
  assert (p = load b cfg al np /\ s = load b cfg (al + Z.of_nat np + Z.of_nat (length (word_bytes e (Z.to_nat size) data))) ns) as [-> ->].
  { rewrite Hsum, <- Nat.add_assoc, load_app in Hsplit.
    apply app_inj_1 in Hsplit as [Hpl Hsplit]; [|by rewrite length_load].
    rewrite load_app in Hsplit. apply app_inj_1 in Hsplit as [_ Hsplit]; [|by rewrite length_load].
    by rewrite length_word_bytes. }
  rewrite <- Haddr. apply store_middle; [apply word_bytes_ok|]. rewrite length_word_bytes. lia.
Qed.
End block.

(** ** Fragmented reads *)

Lemma read_fragments_in cfg format stride k a x : 0 <= a < 2 ^ 64 -> In x (read_fragments k cfg format stride a) ->
  exists i, 0 <= i < Z.of_nat k /\ x = mk_access false cfg (wrap 64 (a + stride * i)) format 0.
Proof.
  revert a. induction k as [|k IH]; intros a Ha Hx; [done|]. destruct Hx as [<-|Hx].
  - exists 0. split; [lia|]. by rewrite Z.mul_0_r, Z.add_0_r, wrap_small.
  - apply IH in Hx as (i & Hi & ->); [|apply wrap_range; lia]. exists (i + 1). split; [lia|].
    rewrite wrap_add_l. do 2 f_equal. lia.
Qed.

Lemma length_read_fragments cfg format stride k a : length (read_fragments k cfg format stride a) = k.
Proof. revert a. induction k as [|k IH]; intros a; cbn; [done|]. by rewrite IH. Qed.

Lemma join_values_segs n segs : 1 <= n -> Forall bytes_ok segs -> Forall (fun s => Z.of_nat (length s) = n) segs ->
  n * Z.of_nat (length segs) <= 8 -> join_values n (map be_val segs) = be_val (concat segs).
Proof.
  intros Hn Hok Hlen Htot. induction segs as [|s segs IH] using rev_ind; [done|].
  rewrite length_app in Htot. cbn [length] in Htot.
  apply Forall_app in Hok as [Hok Hs]. apply Forall_app in Hlen as [Hlen Hls].
  apply Forall_cons in Hs as [Hs _], Hls as [Hls _]. unfold join_values in *.
  rewrite map_app, fold_left_app, IH, concat_app by (done || lia). cbn [map fold_left concat].
  assert (Z.of_nat (length (concat segs)) = n * Z.of_nat (length segs)) as Hcl.
  { clear IH Hok Htot. induction Hlen as [|t segs Ht _ IHl]; cbn [concat length]; rewrite ?length_app; lia. }
  assert (bytes_ok (concat segs)) as Hc by (by apply Forall_concat).
  pose proof (be_val_range _ Hc) as Hr. pose proof (be_val_range _ Hs) as Hsr.
  rewrite app_nil_r, be_val_app, Hls in *. rewrite Hcl in Hr. rewrite !pow256 in * by lia.
  rewrite Z.shiftl_mul_pow2, (Z.mul_comm n 8) by lia.
  assert (2 ^ (8 * (n * Z.of_nat (length segs))) * 2 ^ (8 * n) <= 2 ^ 64) as Hfit
    by (rewrite <- Z.pow_add_r by lia; apply Z.pow_le_mono_r; lia).
  rewrite wrap_small by nia.
  by apply lor_join; lia.
Qed.

Section reads.
Context (cfg : bool) (e n : Z) (b : B) (dev : Z) (Hn : In n [1; 2; 4; 8]).

(** The segments are the bytes of the fragments, most significant first. *)
Definition reads_segments (ops : list access) (bytes : list Z) : Prop :=
  exists segs, serve_cycle dev b ops = (b, map be_val segs) /\ concat segs = bytes /\
    Forall bytes_ok segs /\ Forall (fun s => Z.of_nat (length s) = n) segs /\ length segs = length ops.

Lemma reads_big k a : e = EB_BIG_ENDIAN ->
  reads_segments (read_fragments k cfg (e .| n) n a) (load b cfg a (Z.to_nat n * k)).
Proof.
  intros He. assert (1 <= n <= 8) by (cbn in Hn; lia).
  revert a. induction k as [|k IH]; intros a.
  - rewrite Nat.mul_0_r. by exists [].
  - destruct (IH (wrap 64 (a + n))) as (segs & Hserve & Hcat & Hok & Hlen & Hcount).
    exists (load b cfg a (Z.to_nat n) :: segs). cbn [read_fragments serve_cycle].
    rewrite serve_read, Hserve by first [done|by left]. split_and!.
    + by rewrite He.
    + cbn [concat]. rewrite Hcat, load_wrap. replace (a + n) with (a + Z.of_nat (Z.to_nat n)) by lia.
      rewrite <- load_app. f_equal. lia.
    + constructor; [apply load_ok|done].
    + constructor; [rewrite length_load; lia|done].
    + cbn. by rewrite Hcount.
Qed.

Lemma reads_little k a : e = EB_LITTLE_ENDIAN ->
  reads_segments (read_fragments k cfg (e .| n) (- n) (wrap 64 (a + n * (Z.of_nat k - 1)))) (rev (load b cfg a (Z.to_nat n * k))).
Proof.
  intros He. assert (1 <= n <= 8) by (cbn in Hn; lia).
  induction k as [|k IH].
  - rewrite Nat.mul_0_r. by exists [].
  - destruct IH as (segs & Hserve & Hcat & Hok & Hlen & Hcount).
    exists (rev (load b cfg (a + n * Z.of_nat k) (Z.to_nat n)) :: segs). cbn [read_fragments serve_cycle].
    replace (Z.of_nat (S k) - 1) with (Z.of_nat k) by lia.
    rewrite wrap_add_l. replace (a + n * Z.of_nat k + - n) with (a + n * (Z.of_nat k - 1)) by lia.
    rewrite serve_read, Hserve by first [done|by right]. split_and!.
    + rewrite load_wrap, He. done.
    + cbn [concat]. rewrite Hcat, <- rev_app_distr. f_equal.
      replace (Z.to_nat n * S k)%nat with (Z.to_nat n * k + Z.to_nat n)%nat by lia.
      rewrite load_app. do 2 f_equal. lia.
    + constructor; [apply Forall_rev, load_ok|done].
    + constructor; [rewrite length_rev, length_load; lia|done].
    + cbn. by rewrite Hcount.
Qed.
End reads.

(** ** Both tools *)

Lemma endian_branch {A} e (x y z : A) : known_endian e ->
  (if e =? EB_BIG_ENDIAN then x else if e =? EB_LITTLE_ENDIAN then y else z) = if e =? EB_BIG_ENDIAN then x else y.
Proof. by intros [-> | ->]. Qed.

Lemma direct_format e n lw : known_endian e -> In n [1; 2; 4; 8] ->
  (((e .| n) .& lw .& EB_DATAX) =? 0) && (((e .| n) .& EB_ENDIAN_MASK) =? 0) = false.
Proof.
  intros He Hn. destruct (format_parts e n He Hn) as (_ & -> & _).
  apply andb_false_intro2. by destruct He as [-> | ->].
Qed.

Section tools.
Context (o : options) (lw address size e ws hi : Z) (U : usable o lw address size e ws hi).

Lemma usable_sizes_bound : 1 <= size <= 8 /\ 0 <= address < 2 ^ 64.
Proof. destruct U. assert (1 <= size <= 8) by (cbn in u_size0; lia). split; [done|lia]. Qed.

(** The tests before the split all pass. *)
Lemma usable_guards : size_ok size = true /\ aligned_ok address size = true /\ (ws =? 0) = false /\
  chosen_endian o = e /\ usable_sizes o lw = ws /\
  (((size .& ws) =? 0) = true -> fidelity o = false).
Proof.
  destruct U as [Hs _ _ _ Hal [He _] [Hws Hm] Hf].
  split; [by apply size_ok_in|]. split; [rewrite aligned_ok_mod by done; by apply Z.eqb_eq|].
  split; [by apply mask_size|]. repeat split; try done.
  intros Hz. apply Z.eqb_eq in Hz. by destruct Hf.
Qed.

Lemma fragment_aligned f k : In f [1; 2; 4] -> size = f * k -> In f [1; 2; 4; 8] /\ address mod f = 0.
Proof.
  intros Hf Hk. destruct U. split; [cbn in Hf |- *; tauto|]. assert (f <> 0) by (cbn in Hf; lia).
  apply Z.mod_divide; [done|]. apply Z.divide_trans with size; [exists k; lia|].
  apply Z.mod_divide; [cbn in u_size0; lia|done].
Qed.

(** The fragments of a write, in the order of the endian. *)
Lemma fragments_ops f k data : (f .& ws) = f -> In f [1; 2; 4] -> size = f * Z.of_nat k -> (2 <= k <= 8)%nat ->
  exists ops, (if e =? EB_BIG_ENDIAN
    then write_fragments 8 (config o) (e .| f) data (byte_mask f) f (- f * 8) address (wrap 64 (address + size)) ((size - f) * 8)
    else write_fragments 8 (config o) (e .| f) data (byte_mask f) f (f * 8) address (wrap 64 (address + size)) 0) = Some ops /\
  Forall (proper (config o) e ws address (address + size)) ops /\
  forall dev b, fst (serve_cycle dev b ops) = store b (config o) address (word_bytes e (Z.to_nat size) data).
Proof.
  intros H4 H5 H6 H7. destruct usable_sizes_bound as [Hsb Hab].
  destruct (fragment_aligned f (Z.of_nat k) H5 H6) as [Hf Hfal].
  destruct U as [_ _ Hhigh [Hlim _] _ [_ He] _ _].
  replace (Z.to_nat size) with (Z.to_nat f * k)%nat by (cbn in H5; lia).
  rewrite H6. destruct He as [He'|He'].
  - replace (e =? EB_BIG_ENDIAN) with true by (by rewrite He'). apply fragments_big; done || lia.
  - replace (e =? EB_BIG_ENDIAN) with false by (by rewrite He').
    pose proof (fragments_little (config o) e ws f data Hf H4 address k 0 He' ltac:(lia) Hab ltac:(lia) Hfal ltac:(lia)) as HL.
    rewrite Z.mul_0_r, Z.shiftr_0_r in HL. apply HL. lia.
Qed.

Lemma eb_write_spec data : 0 <= data < 2 ^ (8 * size) ->
  exists s, eb_write o lw address size data = Some s /\
    (forall x, issued s x -> proper (config o) e ws 0 hi x) /\
    forall dev b, exists b', run_script dev b s = (b', 0, None) /\
      same_bytes b' (store b (config o) address (word_bytes e (Z.to_nat size) data)).
Proof.
  intros Hd. destruct usable_sizes_bound as [Hsb Hab].
  destruct usable_guards as (G1 & G2 & G3 & G4 & G5 & G6).
  unfold eb_write. rewrite G1, G2, G4, G5, G3. unfold value_ok.
  destruct U as [Hs Hlow Hhigh [Hlim Hhi8] Hal [_ He] [_ Hm] _].
  rewrite (proj2 (Z.eqb_eq _ _) (proj2 (value_test size data Hs ltac:(lia)) ltac:(lia))). cbn [negb].
  destruct (way_cases size ws Hs Hm) as [Htop [H1 H2|f k H1 H2 H3 H4 H5 H6 H7|c H1 H2 H3 H4 H5]]; rewrite H1.
  - rewrite H2, direct_format by done. eexists; split; [reflexivity|]. split.
    + intros x Hx. apply issued_last in Hx as [<-|[]]. by apply proper_read.
    + intros dev b. eexists. split; [|reflexivity].
      cbn [run_script last_cycle serve_cycle]. by rewrite serve_write.
  - rewrite (G6 H1), H2, Htop, H3. cbn [negb].
    destruct (fragment_aligned f (Z.of_nat k) H5 H6) as [Hf Hfal].
    rewrite (proj1 (proj2 (format_parts e f He Hf))), endian_branch by done.
    destruct (fragments_ops f k data H4 H5 H6 H7) as (ops & Hops & Hproper & Hserve).
    exists (last_cycle ops). split.
    { destruct (e =? EB_BIG_ENDIAN); by rewrite Hops. }
    split.
    + intros x Hx. apply issued_last in Hx. rewrite Forall_forall in Hproper.
      eapply proper_weaken; [| |apply Hproper, list_elem_of_In, Hx]; lia.
    + intros dev b. eexists. split; [|reflexivity].
      cbn [run_script last_cycle]. specialize (Hserve dev b).
      destruct (serve_cycle dev b ops). cbn [fst] in Hserve. by rewrite Hserve.
  - rewrite (G6 H1), H2, Htop, H3. cbn [negb]. pose proof (pair_bounds c size H5) as Hb.
    destruct (around_block c size address hi H5 Hlow Hhigh Hhi8 Hal) as (Hc & _).
    assert (In c [1; 2; 4; 8]) as Hc' by (cbn in Hc |- *; tauto).
    rewrite (proj1 (proj2 (format_parts e c He Hc'))), endian_branch by done.
    rewrite align_down_floor by done.
    exists (block_script (config o) e c size address data). split.
    { unfold block_script, rewrite_block, block_shift. by destruct (e =? EB_BIG_ENDIAN). }
    split.
    + intros x. apply block_issued; done || lia.
    + intros dev b. eapply block_stores; done || lia.
Qed.

Lemma read_cycle_issued mask ops n shift x : issued (read_cycle mask ops n shift) x -> In x ops.
Proof.
  intros H. inversion H as [|? ? status vs ? Hans Hlater]; subst; [done|].
  cbn in Hlater. unfold set_stop in Hlater. destruct (status =? EB_OK); by inversion Hlater.
Qed.

Lemma read_cycle_run dev b mask ops n shift vs : serve_cycle dev b ops = (b, vs) ->
  run_script dev b (read_cycle mask ops n shift) = (b, 0, Some ((join_values n vs .>> (shift * 8)) .& mask)).
Proof. intros Hs. unfold read_cycle. cbn [run_script]. by rewrite Hs. Qed.

Lemma join_one n v : 0 <= v -> join_values n [v] = v.
Proof. intros Hv. unfold join_values. cbn [fold_left]. by rewrite Z.shiftl_0_l, Z.lor_0_l. Qed.

Lemma masked_small v : 0 <= v < 2 ^ (8 * size) -> (v .>> (0 * 8)) .& byte_mask size = v.
Proof.
  intros Hv. destruct usable_sizes_bound as [Hsb _]. rewrite Z.mul_0_l, Z.shiftr_0_r.
  apply value_test; [by destruct U|lia|lia].
Qed.

Lemma word_small l : bytes_ok l -> length l = Z.to_nat size -> 0 <= word_val e l < 2 ^ (8 * size).
Proof.
  intros Hl Hlen. pose proof (word_val_range e l Hl) as Hr. destruct usable_sizes_bound as [Hsb _].
  rewrite Hlen, Z2Nat.id, pow256 in Hr by lia. done.
Qed.

(** What eb-read does when nothing goes wrong: some accesses, the word. *)
Definition reads_word (s : script) : Prop :=
  (forall x, issued s x -> proper (config o) e ws 0 hi x) /\
  forall dev b, run_script dev b s = (b, 0, Some (word_val e (load b (config o) address (Z.to_nat size)))).

Lemma read_whole n : n = size -> (size .& ws) = size ->
  reads_word (read_cycle (byte_mask size) [mk_access false (config o) address (e .| size) 0] n 0).
Proof.
  intros -> Hws. destruct usable_sizes_bound as [Hsb Hab]. destruct U as [Hs Hlow Hhigh [Hlim Hhi8] Hal [_ He] [_ Hm] _].
  split.
  - intros x Hx. apply read_cycle_issued in Hx as [<-|[]]. apply proper_read; done || lia.
  - intros dev b. erewrite read_cycle_run by (cbn [serve_cycle]; by rewrite serve_read).
    pose proof (word_small (load b (config o) address (Z.to_nat size)) (load_ok _ _ _ _) (length_load _ _ _ _)) as Hw.
    by rewrite join_one, masked_small by lia.
Qed.

Lemma read_split f k : (f .& ws) = f -> In f [1; 2; 4] -> size = f * Z.of_nat k -> (2 <= k <= 8)%nat ->
  reads_word (if e =? EB_BIG_ENDIAN
    then read_cycle (byte_mask size) (read_fragments k (config o) (e .| f) f address) f 0
    else read_cycle (byte_mask size) (read_fragments k (config o) (e .| f) (- f) (wrap 64 (address + f * (Z.of_nat k - 1)))) f 0).
Proof.
  intros Hfw Hf Hk Hk8. destruct usable_sizes_bound as [Hsb Hab].
  destruct (fragment_aligned f (Z.of_nat k) Hf Hk) as [Hf8 Hfal].
  assert (1 <= f <= 4) as Hfb by (cbn in Hf; lia).
  destruct U as [_ Hlow Hhigh [Hlim _] _ [_ He] _ _].
  assert (forall i, 0 <= i < Z.of_nat k ->
    proper (config o) e ws 0 hi (mk_access false (config o) (wrap 64 (address + f * i)) (e .| f) 0)) as Hproper.
  { intros i Hi. rewrite wrap_small by nia. apply proper_read; try done; try nia.
    rewrite Z.mul_comm, Z.mod_add; [done|lia]. }
  assert (Z.to_nat f * k = Z.to_nat size)%nat as Hfk by lia.
  assert (forall ops dev b, reads_segments f b dev ops (if e =? EB_BIG_ENDIAN then load b (config o) address (Z.to_nat size)
      else rev (load b (config o) address (Z.to_nat size))) -> length ops = k ->
    run_script dev b (read_cycle (byte_mask size) ops f 0) =
      (b, 0, Some (word_val e (load b (config o) address (Z.to_nat size))))) as Hrun.
  { intros ops dev b (segs & Hserve & Hcat & Hok & Hlen & Hcount) Hops.
    rewrite (read_cycle_run _ _ _ _ _ _ _ Hserve), join_values_segs, Hcat by (done || lia).
    pose proof (word_small (load b (config o) address (Z.to_nat size)) (load_ok _ _ _ _) (length_load _ _ _ _)) as Hw.
    unfold word_val in *. by rewrite masked_small. }
  split.
  - intros x Hx. destruct (e =? EB_BIG_ENDIAN); apply read_cycle_issued, read_fragments_in in Hx as (i & Hi & ->);
      try apply wrap_range; try lia; [by apply Hproper|].
    rewrite wrap_add_l. replace (address + f * (Z.of_nat k - 1) + - f * i) with (address + f * (Z.of_nat k - 1 - i)) by lia.
    apply Hproper. lia.
  - intros dev b. destruct He as [He|He].
    + replace (e =? EB_BIG_ENDIAN) with true in * by (by rewrite He).
      apply Hrun; [|apply length_read_fragments]. rewrite <- Hfk. by apply reads_big.
    + replace (e =? EB_BIG_ENDIAN) with false in * by (by rewrite He).
      apply Hrun; [|apply length_read_fragments]. rewrite <- Hfk. by apply reads_little.
Qed.

Lemma read_around c : (c .& ws) = c -> In (c, size) [(2, 1); (4, 1); (4, 2); (8, 1); (8, 2); (8, 4)] ->
  reads_word (read_cycle (byte_mask size) [mk_access false (config o) (address / c * c) (e .| c) 0] c
    (block_shift e c size (address - address / c * c))).
Proof.
  intros Hcw Hc. destruct usable_sizes_bound as [Hsb Hab].
  destruct U as [_ Hlow Hhigh Hhi Hal [_ He] _ _].
  destruct (block_layout e hi c size address Hc Hlow Hhigh Hhi Hal) as (Hc8 & _ & Hcb & Hal0 & Hale & Halc & Hsum & Haddr & Hshift).
  set (al := address / c * c) in *. set (np := Z.to_nat (address - al)) in *.
  set (ns := Z.to_nat (al + c - (address + size))) in *.
  split.
  - intros x Hx. apply read_cycle_issued in Hx as [<-|[]]. apply proper_read; done || lia.
  - intros dev b. erewrite read_cycle_run by (cbn [serve_cycle]; by rewrite serve_read).
    destruct (block_parts (load b (config o) al (Z.to_nat c)) np (Z.to_nat size) ns ltac:(by rewrite length_load))
      as (p & m & s & Hsplit & Hp & Hm & Hsl).
    pose proof (load_ok b (config o) al (Z.to_nat c)) as Hok. rewrite Hsplit in *.
    rewrite join_one by (by apply word_val_range). rewrite Hshift, <- Hp, <- Hsl.
    replace (byte_mask size) with (byte_mask (Z.of_nat (length m))) by (f_equal; lia).
    rewrite middle_word by (done || lia). do 3 f_equal.
    rewrite Hsum, <- Nat.add_assoc, load_app in Hsplit.
    apply app_inj_1 in Hsplit as [_ Hsplit]; [|by rewrite length_load].
    rewrite load_app in Hsplit. apply app_inj_1 in Hsplit as [Hsplit _]; [|by rewrite length_load].
    by rewrite <- Hsplit, Haddr.
Qed.

Lemma eb_read_spec : reads_word (eb_read o lw address size).
Proof.
  destruct usable_sizes_bound as [Hsb Hab]. destruct usable_guards as (G1 & G2 & G3 & G4 & G5 & G6).
  unfold eb_read. rewrite G1, G2, G4, G5, G3. cbn [negb].
  destruct U as [Hs Hlow Hhigh [Hlim Hhi8] Hal [_ He] [_ Hm] _].
  destruct (way_cases size ws Hs Hm) as [Htop [H1 H2|f k H1 H2 H3 H4 H5 H6 H7|c H1 H2 H3 H4 H5]]; rewrite H1.
  - rewrite H2, direct_format by done. apply read_whole; [by apply format_parts|done].
  - rewrite (G6 H1), H2, Htop, H3. cbn [negb].
    destruct (fragment_aligned f (Z.of_nat k) H5 H6) as [Hf _]. destruct (format_parts e f He Hf) as (-> & -> & _).
    replace (size / f) with (Z.of_nat k) by (rewrite H6, Z.mul_comm, Z.div_mul; [done|cbn in H5; lia]).
    rewrite Nat2Z.id, endian_branch by done. by apply read_split.
  - rewrite (G6 H1), H2, Htop, H3. cbn [negb].
    destruct (around_block c size address hi H5 Hlow Hhigh Hhi8 Hal) as (Hc & _).
    assert (In c [1; 2; 4; 8]) as Hc' by (cbn in Hc |- *; tauto).
    rewrite (proj1 (proj2 (format_parts e c He Hc'))), endian_branch, align_down_floor by done.
    pose proof (read_around c H4 H5) as Hr. unfold block_shift in Hr. by destruct (e =? EB_BIG_ENDIAN).
Qed.
End tools.
End served.

(** ** The library accepts what the tools ask for *)

(** The operation an access becomes in its cycle. *)
Definition operation_of (x : access) (op : eb_operation) : Prop :=
  op_address op = a_address x /\ op_format op = a_format x /\ is_config op = a_config x /\
  is_write op = a_write x /\ (is_write op = true -> op_value op = a_value x) /\ 0 <= op_value op.

Definition final_format (data e n : Z) : Z := (if n =? data then 0 else e) .| n.

Lemma settled_format data e n op : known_endian e -> In n [1; 2; 4; 8] -> In data [1; 2; 4; 8] -> n <= data ->
  op_format op = e .| n ->
  op_size data (op_format op) = n /\ op_endian data (op_format op) = (if n =? data then 0 else e) /\
  (final_format data e n .& EB_DATAX) = n /\ (final_format data e n .& EB_ENDIAN_MASK) = (if n =? data then 0 else e).
Proof.
  intros He Hn Hd Hle ->.
  assert (forallb (fun e => forallb (fun n => forallb (fun d => implb (n <=? d)
    ((op_size d (e .| n) =? n) && (op_endian d (e .| n) =? (if n =? d then 0 else e)) &&
     ((final_format d e n .& EB_DATAX) =? n) && ((final_format d e n .& EB_ENDIAN_MASK) =? (if n =? d then 0 else e))))
    [1; 2; 4; 8]) [1; 2; 4; 8]) [EB_BIG_ENDIAN; EB_LITTLE_ENDIAN] = true) as H by by vm_compute.
  assert (In e [EB_BIG_ENDIAN; EB_LITTLE_ENDIAN]) as He' by (destruct He as [-> | ->]; cbn; tauto).
  apply (proj1 (forallb_forall _ _)) with (x := e) in H; [|done].
  apply (proj1 (forallb_forall _ _)) with (x := n) in H; [|done].
  apply (proj1 (forallb_forall _ _)) with (x := data) in H; [|done].
  rewrite (proj2 (Z.leb_le n data) Hle) in H. cbn [implb] in H. by bool_hyps.
Qed.

(** A proper access passes the tests of [eb_device_flush] on a link that has the
    sizes [ws] and the addresses below [hi]. *)
Lemma proper_accepted lw cfg e ws x op : link_width lw -> known_endian e ->
  (forall n, In n [1; 2; 4; 8] -> (n .& ws) = n -> n <= g_data lw) ->
  proper cfg e ws 0 (2 ^ (8 * (if cfg then 2 else g_addr lw))) x -> operation_of x op ->
  snd (check_op (g_data lw) (byte_mask (g_addr lw)) op) = EB_OK.
Proof.
  intros Hlw He Hfit (Hcfg & n & Hn & Hws & Hformat & Hlo & Hhi & Hal & Hval) (Ha & Hf & Hc & Hw & Hv & Hv0).
  pose proof (Hfit n Hn Hws) as Hle. pose proof (link_width_cases lw Hlw) as [Hd Hg].
  assert (In (g_data lw) [1; 2; 4; 8]) as Hd' by (cbn; destruct Hd as [-> |[-> |[-> | ->]]]; tauto).
  rewrite Hformat in Hf. destruct (settled_format _ _ _ _ He Hn Hd' Hle Hf) as (Hsz & Hen & _).
  unfold check_op. rewrite Hsz, Hen, Hc, Ha, Hw, Hcfg.
  assert ((n =? 0) = false) as -> by (apply Z.eqb_neq; cbn in Hn; lia).
  assert (((if n =? g_data lw then 0 else e) =? (EB_BIG_ENDIAN .| EB_LITTLE_ENDIAN))
    || (negb (n =? g_data lw) && ((if n =? g_data lw then 0 else e) =? 0)) = false) as ->
    by (destruct He as [-> | ->]; by destruct (n =? g_data lw)).
  assert (0 < n) by (cbn in Hn; lia). cbn [snd].
  assert (forall b m, 1 <= m <= 8 -> b = Z.ones (8 * m) -> a_address x + n <= 2 ^ (8 * m) ->
    negb ((a_address x .& (b - (n - 1))) =? a_address x) = false) as Haddr.
  { intros b m Hm -> Hbound. apply negb_false_iff, Z.eqb_eq, mask_test; [done|done|lia|]. split; [lia|done]. }
  assert (a_write x = true -> negb ((op_value op .& byte_mask n) =? op_value op) = false) as Hvalue.
  { intros Hwr. apply negb_false_iff, Z.eqb_eq, value_test; [done|done|]. rewrite Hv by by rewrite Hw. lia. }
  assert (1 <= g_addr lw <= 8) by lia.
  destruct cfg; cbn [negb andb].
  - rewrite (Haddr 0xFFFF 2) by (done || lia). destruct (a_write x); cbn [andb]; [by rewrite Hvalue|done].
  - rewrite (Haddr _ (g_addr lw)) by (try apply byte_mask_ones; done || lia).
    destruct (a_write x); cbn [andb]; [by rewrite Hvalue|done].
Qed.

Lemma line_widths_fit o lw n : link_width lw -> In n [1; 2; 4; 8] ->
  (n .& usable_sizes o lw) = n -> n <= g_data lw.
Proof.
  intros Hlw Hn Hws. unfold usable_sizes in Hws.
  assert ((n .& line_widths lw) = n) as Hl.
  { rewrite <- Hws at 1. rewrite <- Z.land_assoc, (Z.land_comm (_ .& device_support o)), !Z.land_assoc.
    rewrite <- (Z.land_assoc n), Z.land_diag, <- Z.land_assoc. exact Hws. }
  pose proof (link_width_forall (fun w => forallb (fun n => implb ((n .& line_widths w) =? n) (n <=? g_data w)) [1; 2; 4; 8])
    ltac:(by vm_compute) lw Hlw) as H. cbv beta in H.
  apply (proj1 (forallb_forall _ _)) with (x := n) in H; [|done].
  rewrite (proj2 (Z.eqb_eq _ _) Hl) in H. cbn [implb] in H. by apply Z.leb_le.
Qed.

(** * Properties *)

(** C36: eb-write ends with exit code 0 and leaves the word at its address, in the
    byte order of the device, and every other byte of the target as it was. This
    holds for every mix of access sizes that the device and the link support,
    whether the word is written at once, in fragments or as part of a larger word
    that is read first. *)
Theorem eb_write_stores_word {B : Type} {bus : ByteBus B} (o : options) (lw address size e ws hi data : Z)
    (U : usable o lw address size e ws hi) (Hd : 0 <= data < 2 ^ (8 * size)) (dev : Z) (b : B) :
  exists s b', eb_write o lw address size data = Some s /\ run_script dev b s = (b', 0, None) /\
    same_bytes b' (store b (config o) address (word_bytes e (Z.to_nat size) data)).
Proof.
  destruct (eb_write_spec o lw address size e ws hi U data Hd) as (s & Hs & _ & Hrun).
  destruct (Hrun dev b) as (b' & Hb' & Hsame). by exists s, b'.
Qed.

(** Eb-read prints what eb-write wrote, also when the two go over links of other
    widths and see other access sizes, and leaves the target alone. *)
Theorem eb_read_after_write {B : Type} {bus : ByteBus B} (o o' : options) (lw lw' address size e ws ws' hi hi' data : Z)
    (U : usable o lw address size e ws hi) (U' : usable o' lw' address size e ws' hi')
    (Hc : config o = config o') (Hd : 0 <= data < 2 ^ (8 * size)) (dev dev' : Z) (b : B) :
  exists s b', eb_write o lw address size data = Some s /\ run_script dev b s = (b', 0, None) /\
    run_script dev' b' (eb_read o' lw' address size) = (b', 0, Some data).
Proof.
  destruct (eb_write_spec o lw address size e ws hi U data Hd) as (s & Hs & _ & Hrun).
  destruct (Hrun dev b) as (b' & Hb' & Hsame). exists s, b'. split; [done|]. split; [done|].
  destruct (usable_sizes_bound o lw address size e ws hi U) as [Hsb _].
  rewrite (proj2 (eb_read_spec o' lw' address size e ws' hi' U')), (load_same _ _ _ _ _ Hsame), <- Hc.
  pose proof (load_store b (config o) address (word_bytes e (Z.to_nat size) data) (word_bytes_ok _ _ _)) as Hl.
  rewrite length_word_bytes in Hl. rewrite Hl by lia. rewrite word_val_bytes, Z2Nat.id, wrap_small by (lia || done). done.
Qed.

(** Whatever the status of their cycles and whatever data comes back, eb-read and
    eb-write only record operations that pass the tests of [eb_device_flush] on
    their link. *)
Theorem tools_ask_acceptable (o : options) (lw address size e ws data : Z) (s : script) (x : access) (op : eb_operation)
    (Hlw : link_width lw)
    (U : usable o lw address size e ws (2 ^ (8 * (if config o then 2 else g_addr lw))))
    (Hd : 0 <= data < 2 ^ (8 * size))
    (Hs : eb_write o lw address size data = Some s \/ s = eb_read o lw address size)
    (Hx : issued s x) (Hop : operation_of x op) :
  snd (check_op (g_data lw) (byte_mask (g_addr lw)) op) = EB_OK.
Proof.
  assert (proper (config o) e ws 0 (2 ^ (8 * (if config o then 2 else g_addr lw))) x) as Hp.
  { destruct Hs as [Hs| ->].
    - destruct (eb_write_spec (B := memory) o lw address size e ws _ U data Hd) as (s' & Hs' & Hp & _).
      apply Hp. congruence.
    - by apply (proj1 (eb_read_spec (B := memory) o lw address size e ws _ U)). }
  destruct U as [_ _ _ _ _ [_ He] [Hws _] _].
  apply (proper_accepted lw (config o) e ws x op); try done. subst ws. intros n. by apply line_widths_fit.
Qed.

(** ** Instances *)

(** A 32-bit big-endian device, found in the tables of the target. *)
Definition word_device : options := mk_options (Some 0x04) 0 false false.
(** The same memory without a look at the tables. *)
Definition plain_device : options := mk_options None EB_BIG_ENDIAN false false.

Lemma word_device_usable : usable word_device 0x44 0x1002 2 EB_BIG_ENDIAN 4 (2 ^ 32).
Proof. split; try (cbn; tauto || lia || by left); try done; by split; [|cbn; tauto || by left]. Qed.

Lemma plain_device_usable : usable plain_device 0x41 0x1002 2 EB_BIG_ENDIAN 1 (2 ^ 32).
Proof. split; try (cbn; tauto || lia || by left); try done; by split; [|cbn; tauto || by left]. Qed.

(** The read-modify-write of a 16-bit word in a 32-bit device. *)
Lemma eb_write_stores_word_witness : exists s b',
  eb_write word_device 0x44 0x1002 2 0xbeef = Some s /\
  run_script 0 (∅ : memory) s = (b', 0, None) /\
  same_bytes b' (store ∅ false 0x1002 (word_bytes EB_BIG_ENDIAN 2 0xbeef)).
Proof.
  apply (eb_write_stores_word word_device 0x44 0x1002 2 EB_BIG_ENDIAN 4 (2 ^ 32) 0xbeef word_device_usable); lia.
Defined.

Lemma eb_read_after_write_witness : exists s b',
  eb_write word_device 0x44 0x1002 2 0xbeef = Some s /\
  run_script 0 (∅ : memory) s = (b', 0, None) /\
  run_script 0 b' (eb_read plain_device 0x41 0x1002 2) = (b', 0, Some 0xbeef).
Proof.
  apply (eb_read_after_write word_device plain_device 0x44 0x41 0x1002 2 EB_BIG_ENDIAN 4 1 (2 ^ 32) (2 ^ 32) 0xbeef
    word_device_usable plain_device_usable); try done; lia.
Defined.

Lemma tools_ask_acceptable_witness :
  snd (check_op (g_data 0x44) (byte_mask (g_addr 0x44)) (mk_operation 0x1000 0 EB_OP_READ_PTR (EB_BIG_ENDIAN .| 4) EB_NULL)) = EB_OK.
Proof.
  eapply (tools_ask_acceptable word_device 0x44 0x1002 2 EB_BIG_ENDIAN 4 0xbeef _
    (mk_access false false 0x1000 (EB_BIG_ENDIAN .| 4) 0)).
  - split; [lia|reflexivity].
  - exact word_device_usable.
  - lia.
  - left. reflexivity.
  - apply issued_now. left. reflexivity.
  - by repeat split.
Defined.

(** What the tools do on concrete targets. *)
Example write_in_fragments :
  eb_write plain_device 0x41 0x1002 2 0xbeef =
  Some (last_cycle [mk_access true false 0x1002 0x11 0xbe; mk_access true false 0x1003 0x11 0xef]).
Proof. reflexivity. Qed.

Example write_refused : eb_write (mk_options None EB_BIG_ENDIAN true false) 0x41 0x1002 2 0xbeef = Some (Exit 1 None).
Proof. reflexivity. Qed.

Example misaligned_refused : eb_read plain_device 0x41 0x1003 2 = Exit 1 None.
Proof. reflexivity. Qed.
