(* ===== verification/Transfer.v ===== *)
(** The command-line tools [eb-put] and [eb-get]: [src/api/tools/eb-put.c] and
    [src/api/tools/eb-get.c]. A file is copied to or from a range of bus addresses:
    small operations up to the first aligned address, large ones in cycles of at
    most 32, small ones for the rest. Both programs have the same main function;
    they differ in [transfer] and in the callback of a cycle. *)
From stdpp Require Import base list gmap.
From Stdlib Require Import ZArith Lia.
From S2P Require Import Prelude Widths Store World Linked Cycle Format Master Valid Target Access.

Definition OPERATIONS_PER_CYCLE : Z := 32.

(** What the tool does, in its order: a cycle that is closed, or waiting until all
    closed cycles were answered. *)
Inductive event :=
  | Transfer (ops : list access)
  | Wait.

(** [pos], the rest of the firmware file (eb-put only) and the events so far. *)
Record job := mk_job { j_pos : Z; j_file : list Z; j_events : list event }.

(** [exit(1)] in [transfer], or the next state. *)
Inductive progress :=
  | Ended (events : list event)
  | Going (j : job).

Definition add_event (x : event) (j : job) : job := mk_job (j_pos j) (j_file j) (j_events j ++ [x]).
Definition set_pos (pos : Z) (j : job) : job := mk_job pos (j_file j) (j_events j).

(** * The main function *)

Definition bulk_size (write_sizes : Z) : Z := top_size (fill_sizes write_sizes).
Definition edge_size (write_sizes : Z) : Z := lowest_size write_sizes.

(** Cycles to pack before waiting; [cycles] is the option [-c], 0 when absent. *)
Definition cycles_per_packet (cycles line_width bulk : Z) : Z :=
  if negb (cycles =? 0) then cycles else
  let status := OPERATIONS_PER_CYCLE / ((line_width .& EB_DATAX) * 8) in
  let status := if status =? 0 then 1 else status in
  let line_alignment := top_size (fill_sizes ((line_width .>> 4) .| (line_width .& EB_DATAX))) in
  let cost :=
    if negb (bulk =? (line_width .& EB_DATAX))
    then OPERATIONS_PER_CYCLE * (3 * line_alignment) + status * 3 * line_alignment
    else OPERATIONS_PER_CYCLE * line_alignment + status * 6 * line_alignment in
  let cycles := 1450 / cost in
  if cycles =? 0 then 1 else cycles.

Section main.
Variable transfer : Z -> nat -> job -> progress.

(** [for (...; more(pos); pos += edge) transfer(device, pos, format, 1);] *)
Fixpoint edge_loop (fuel : nat) (more : Z -> bool) (edge format : Z) (j : job) : option progress :=
  if more (j_pos j) then
    match fuel with
    | O => None
    | S fuel' =>
      match transfer format 1 j with
      | Ended events => Some (Ended events)
      | Going j' => edge_loop fuel' more edge format (set_pos (wrap 64 (j_pos j + edge)) j')
      end
    end
  else Some (Going j).

Fixpoint bulk_loop (fuel : nat) (end_bulk bulk format cycles cycle : Z) (j : job) : option progress :=
  if j_pos j <? end_bulk then
    match fuel with
    | O => None
    | S fuel' =>
      let step := (end_bulk - j_pos j) / bulk in
      let step := if OPERATIONS_PER_CYCLE <? step then OPERATIONS_PER_CYCLE else step in
      match transfer format (Z.to_nat step) j with
      | Ended events => Some (Ended events)
      | Going j' =>
        let cycle := cycle + 1 in
        let full := cycle =? cycles in
        bulk_loop fuel' end_bulk bulk format cycles (if full then 0 else cycle)
          (set_pos (wrap 64 (j_pos j + step * bulk)) (if full then add_event Wait j' else j'))
      end
    end
  else Some (Going j).

(** One loop after the other, unless the program has ended. *)
Definition andthen (r : option progress) (k : job -> option progress) : option progress :=
  match r with
  | Some (Going j) => k j
  | _ => r
  end.

Definition move (fuel : nat) (endian bulk edge cycles address firmware_length : Z) (j : job) : option progress :=
  let end_address := wrap 64 (address + firmware_length) in
  andthen (edge_loop fuel (fun pos => negb ((pos .& (bulk - 1)) =? 0)) edge (endian .| edge) (set_pos address j)) (fun j =>
  let end_bulk := align_down end_address bulk in
  andthen (bulk_loop fuel end_bulk bulk (endian .| bulk) cycles 0 (add_event Wait j)) (fun j =>
  andthen (edge_loop fuel (fun pos => pos <? end_address) edge (endian .| edge) j) (fun j =>
  Some (Going (add_event Wait j))))).

(** The exit code and the events. The messages about a length or an address that is
    not a multiple of the smallest access do not end the program. *)
Definition tool_main (fuel : nat) (o : options) (line_width cycles address firmware_length : Z) (file : list Z) : option (Z * list event) :=
  let endian := chosen_endian o in
  if endian =? 0 then Some (1, []) else
  let write_sizes := usable_sizes o line_width in
  if write_sizes =? 0 then Some (1, []) else
  let bulk := bulk_size write_sizes in
  let edge := edge_size write_sizes in
  let cycles := cycles_per_packet cycles line_width bulk in
  match move fuel endian bulk edge cycles address firmware_length (mk_job address file []) with
  | None => None
  | Some (Ended events) => Some (1, events)
  | Some (Going j) => Some (0, j_events j)
  end.
End main.

(** * eb-put *)

(** The bytes of the file as the value of an operation. *)
Definition put_value (endian : Z) (buffer : list Z) : Z :=
  fold_left (fun data x => wrap 64 (data .<< 8) .| x) (if endian =? EB_BIG_ENDIAN then buffer else rev buffer) 0.

(** [None]: [fread] returns less than asked for. *)
Fixpoint put_ops (count : nat) (address format : Z) (file : list Z) : option (list access * list Z) :=
  match count with
  | O => Some ([], file)
  | S count' =>
    let size := format .& EB_DATAX in
    let n := Z.to_nat size in
    if (length file <? n)%nat then None else
    let data := put_value (format .& EB_ENDIAN_MASK) (take n file) in
    '(ops, rest) ← put_ops count' (wrap 64 (address + size)) format (drop n file);
    Some (mk_access true false address format data :: ops, rest)
  end.

Definition put_transfer (format : Z) (count : nat) (j : job) : progress :=
  match put_ops count (j_pos j) format (j_file j) with
  | None => Ended (j_events j)
  | Some (ops, rest) => Going (mk_job (j_pos j) rest (j_events j ++ [Transfer ops]))
  end.

Definition eb_put (fuel : nat) (o : options) (line_width cycles address : Z) (firmware : list Z) : option (Z * list event) :=
  tool_main put_transfer fuel o line_width cycles address (Z.of_nat (length firmware)) firmware.

(** * eb-get *)

Fixpoint get_ops (count : nat) (address format : Z) : list access :=
  match count with
  | O => []
  | S count' => mk_access false false address format 0 ::
      get_ops count' (wrap 64 (address + (format .& EB_DATAX))) format
  end.

Definition get_transfer (format : Z) (count : nat) (j : job) : progress :=
  Going (mk_job (j_pos j) (j_file j) (j_events j ++ [Transfer (get_ops count (j_pos j) format)])).

Definition eb_get (fuel : nat) (o : options) (line_width cycles address firmware_length : Z) : option (Z * list event) :=
  tool_main get_transfer fuel o line_width cycles address firmware_length [].

(** The file being written: its bytes by offset, the position of the next write and
    the variable [lastoff] of the callback. *)
Record output := mk_output { f_bytes : gmap Z Z; f_pos : Z; lastoff : Z }.

Fixpoint write_bytes (m : gmap Z Z) (off : Z) (l : list Z) : gmap Z Z :=
  match l with
  | [] => m
  | x :: l' => write_bytes (<[off := x]> m) (off + 1) l'
  end.

(** [buffer] after the loop over the bytes of the value. *)
Definition get_buffer (format n : Z) (data : Z) : list Z :=
  if format =? EB_BIG_ENDIAN then be_bytes (Z.to_nat n) data else rev (be_bytes (Z.to_nat n) data).

(** The answer to an operation: the operation, its value and its error flag. *)
Record answer := mk_answer { an_op : access; an_value : Z; an_error : bool }.

(** The file after one operation of [dec_todo]. *)
Definition get_answer (endian address : Z) (f : output) (x : answer) : output :=
  let off := wrap 64 (a_address (an_op x) - address) in
  let size := a_format (an_op x) .& EB_DATAX in
  let format := a_format (an_op x) .& EB_ENDIAN_MASK in
  let format := if format =? 0 then endian else format in
  let buffer := get_buffer format size (an_value x) in
  let f := if negb (off =? lastoff f) then mk_output (f_bytes f) off off else f in
  mk_output (write_bytes (f_bytes f) (f_pos f) buffer) (f_pos f + size) (wrap 64 (lastoff f + size)).

Fixpoint get_answers (endian address : Z) (f : output) (l : list answer) : option output :=
  match l with
  | [] => Some f
  | x :: rest => if an_error x then None else get_answers endian address (get_answer endian address f x) rest
  end.

(** [dec_todo]: [None] is [exit(1)]. *)
Definition get_done (endian address : Z) (f : output) (status : Z) (cycle : list answer) : option output :=
  if negb (status =? EB_OK) then None else get_answers endian address f cycle.

(** [dec_todo] of eb-put, which only counts. *)
Definition put_done (todo status : Z) (cycle : list answer) : option Z :=
  if negb (status =? EB_OK) then None
  else if existsb an_error cycle then None
  else Some (todo - 1).

(** The callbacks of all cycles, in the order in which they are answered. *)
Fixpoint get_all (endian address : Z) (f : output) (l : list (Z * list answer)) : option output :=
  match l with
  | [] => Some f
  | (status, cycle) :: rest => f ← get_done endian address f status cycle; get_all endian address f rest
  end.
