(* ===== verification/TransferCorrect.v ===== *)
(** eb-put and eb-get copy a file: what the operations of Transfer.v do to a target
    that keeps its bytes, and what the file of eb-get holds in whatever order the
    cycles are answered. *)
From stdpp Require Import base list gmap.
From Stdlib Require Import ZArith Lia.
From S2P Require Import Prelude Widths Store World Linked Cycle Format Master Valid Target Access AccessCorrect Transfer.

(** * The sizes of the accesses *)

Definition edge_facts (ws : Z) : bool :=
  let b := bulk_size ws in
  let s := edge_size ws in
  existsb (Z.eqb b) [1; 2; 4; 8] && existsb (Z.eqb s) [1; 2; 4; 8] && (b mod s =? 0) &&
  ((b .& ws) =? b) && ((s .& ws) =? s).

Lemma edge_facts_ok ws : In ws masks ->
  In (bulk_size ws) [1; 2; 4; 8] /\ In (edge_size ws) [1; 2; 4; 8] /\ bulk_size ws mod edge_size ws = 0 /\
  (bulk_size ws .& ws) = bulk_size ws /\ (edge_size ws .& ws) = edge_size ws.
Proof.
  intros Hw. assert (forallb edge_facts masks = true) as H by by vm_compute.
  apply (proj1 (forallb_forall _ _)) with (x := ws) in H; [|done]. unfold edge_facts in H.
  repeat (apply andb_prop in H as [H ?]). bool_hyps.
  assert (forall z, existsb (Z.eqb z) [1; 2; 4; 8] = true -> In z [1; 2; 4; 8]) as Hin.
  { intros z Hz. apply existsb_exists in Hz as (b & Hb & Heq). apply Z.eqb_eq in Heq. by rewrite Heq. }
  auto.
Qed.

Lemma pow2_mask p s : In s [1; 2; 4; 8] -> (p .& (s - 1)) = p mod s.
Proof.
  intros Hs. destruct (pow2_size s Hs) as (k & Hk & ->).
  replace (2 ^ k - 1) with (Z.ones k) by (rewrite Z.ones_equiv; lia). by rewrite Z.land_ones by lia.
Qed.

(** * The loops *)

Section loops.
Context (transfer : Z -> nat -> job -> progress) (T : Z -> job -> Prop) (e edge bulk a0 len : Z).
Context (Hedge : In edge [1; 2; 4; 8]) (Hbulk : In bulk [1; 2; 4; 8]) (Hmul : bulk mod edge = 0).
Context (Ha0 : 0 <= a0) (Hend : a0 + len < 2 ^ 64) (Hlen : 0 <= len).
Context (Hal : a0 mod edge = 0) (Hlal : len mod edge = 0).

(** [T n j]: the first [n] bytes have been transferred. *)
Context (Hpos : forall n p j, T n j -> T n (set_pos p j)) (Hwait : forall n j, T n j -> T n (add_event Wait j)).
Context (Htransfer : forall size n count j, size = edge \/ size = bulk -> 0 <= n -> n + size * Z.of_nat count <= len ->
  (a0 + n) mod size = 0 -> (0 < count <= 32)%nat -> T n j -> j_pos j = a0 + n ->
  exists j', transfer (e .| size) count j = Going j' /\ T (n + size * Z.of_nat count) j').

(** [n] bytes are done and [pos] is behind them. *)
Definition at_byte (n : Z) (j : job) : Prop := T n j /\ j_pos j = a0 + n.

Lemma next_offset n size k : In size [1; 2; 4; 8] -> (a0 + n) mod size = 0 -> (a0 + (n + size * k)) mod size = 0.
Proof.
  intros Hs Hm. assert (size <> 0) by (cbn in Hs; lia).
  by rewrite Z.add_assoc, (Z.mul_comm size), Z.mod_add.
Qed.

Lemma edge_loop_spec more k : forall fuel n j, (k <= fuel)%nat -> 0 <= n -> n + edge * Z.of_nat k <= len ->
  (a0 + n) mod edge = 0 ->
  (forall i, (i < k)%nat -> more (a0 + (n + edge * Z.of_nat i)) = true) ->
  more (a0 + (n + edge * Z.of_nat k)) = false -> at_byte n j ->
  exists j', edge_loop transfer fuel more edge (e .| edge) j = Some (Going j') /\ at_byte (n + edge * Z.of_nat k) j'.
Proof.
  assert (1 <= edge <= 8) as He by (cbn in Hedge; lia).
  induction k as [|k IH]; intros fuel n j Hfuel Hn Hle Hm Hmore Hstop [HT Hp].
  - rewrite Z.mul_0_r, Z.add_0_r in *. exists j. split; [|done].
    destruct fuel; cbn [edge_loop]; by rewrite Hp, Hstop.
  - destruct fuel as [|fuel]; [lia|]. cbn [edge_loop].
    pose proof (Hmore 0%nat ltac:(lia)) as H0. rewrite Z.mul_0_r, Z.add_0_r in H0. rewrite Hp, H0.
    destruct (Htransfer edge n 1 j ltac:(by left) Hn ltac:(lia) Hm ltac:(lia) HT Hp) as (j' & -> & HT').
    replace (n + edge * Z.of_nat (S k)) with ((n + edge) + edge * Z.of_nat k) in * by lia.
    apply IH; try lia.
    + replace (n + edge) with (n + edge * 1) by lia. by apply next_offset.
    + intros i Hi. rewrite <- (Hmore (S i)) by lia. f_equal. lia.
    + done.
    + split; [apply Hpos; by replace (n + edge) with (n + edge * Z.of_nat 1) by lia|].
      cbn [set_pos j_pos]. rewrite wrap_small by lia. lia.
Qed.

Lemma edge_loop_to more k fuel n m j : m = n + edge * Z.of_nat k -> (k <= fuel)%nat -> 0 <= n -> m <= len ->
  (a0 + n) mod edge = 0 ->
  (forall i, (i < k)%nat -> more (a0 + (n + edge * Z.of_nat i)) = true) -> more (a0 + m) = false -> at_byte n j ->
  exists j', edge_loop transfer fuel more edge (e .| edge) j = Some (Going j') /\ at_byte m j'.
Proof. intros ->. intros. by apply edge_loop_spec. Qed.

Lemma bulk_loop_spec cycles : forall fuel k cycle n j, (k <= fuel)%nat -> 0 <= n -> n + bulk * Z.of_nat k <= len ->
  (a0 + n) mod bulk = 0 -> at_byte n j ->
  exists j', bulk_loop transfer fuel (a0 + (n + bulk * Z.of_nat k)) bulk (e .| bulk) cycles cycle j = Some (Going j') /\
    at_byte (n + bulk * Z.of_nat k) j'.
Proof.
  assert (1 <= bulk <= 8) as Hb by (cbn in Hbulk; lia).
  induction fuel as [|fuel IH]; intros k cycle n j Hfuel Hn Hle Hm [HT Hp]; cbn [bulk_loop]; rewrite Hp.
  { assert (k = O) as -> by lia. rewrite Z.mul_0_r, Z.add_0_r, Z.ltb_irrefl. by exists j. }
  destruct k as [|k]; [rewrite Z.mul_0_r, Z.add_0_r, Z.ltb_irrefl; by exists j|].
  rewrite (proj2 (Z.ltb_lt _ _)) by lia.
  replace ((a0 + (n + bulk * Z.of_nat (S k)) - (a0 + n)) / bulk) with (Z.of_nat (S k))
    by (replace (a0 + (n + bulk * Z.of_nat (S k)) - (a0 + n)) with (Z.of_nat (S k) * bulk) by lia; by rewrite Z.div_mul by lia).
  set (step := if OPERATIONS_PER_CYCLE <? Z.of_nat (S k) then OPERATIONS_PER_CYCLE else Z.of_nat (S k)).
  assert (exists m, step = Z.of_nat m /\ (0 < m <= 32)%nat /\ (m <= S k)%nat) as (m & Hstep & Hm1 & Hm2).
  { subst step. unfold OPERATIONS_PER_CYCLE. destruct (Z.ltb_spec 32 (Z.of_nat (S k))); [exists 32%nat|exists (S k)]; lia. }
  rewrite Hstep, Nat2Z.id.
  destruct (Htransfer bulk n m j ltac:(by right) Hn ltac:(nia) Hm Hm1 HT Hp) as (j' & -> & HT').
  replace (n + bulk * Z.of_nat (S k)) with ((n + bulk * Z.of_nat m) + bulk * Z.of_nat (S k - m)) in * by nia.
  assert (0 <= bulk * Z.of_nat m) by (apply Z.mul_nonneg_nonneg; lia).
  apply IH; [lia|lia|done|by apply next_offset|].
  split.
  - destruct (cycle + 1 =? cycles); apply Hpos; [by apply Hwait|done].
  - cbn [set_pos j_pos]. assert (0 <= bulk * Z.of_nat (S k - m)) by (apply Z.mul_nonneg_nonneg; lia).
    rewrite wrap_small by lia. lia.
Qed.

(** The bytes before the first address that is a multiple of [bulk]. *)
Definition head_bytes : Z := (- a0) mod bulk.

Lemma head_facts : 0 <= head_bytes < bulk /\ (a0 + head_bytes) mod bulk = 0 /\ head_bytes mod edge = 0 /\
  forall x, 0 <= x < head_bytes -> (a0 + x) mod bulk <> 0.
Proof.
  assert (1 <= bulk /\ 1 <= edge) as [Hb He] by (cbn in Hbulk, Hedge; lia).
  pose proof (Z.mod_pos_bound (- a0) bulk ltac:(lia)) as Hh. fold head_bytes in Hh.
  assert ((a0 + head_bytes) mod bulk = 0) as Hz.
  { unfold head_bytes. rewrite Z.add_mod_idemp_r by lia. by rewrite Z.add_opp_diag_r. }
  split; [done|]. split; [done|]. split.
  - apply Z.mod_divide in Hal as [A HA]; [|lia]. apply Z.mod_divide in Hmul as [M HM]; [|lia].
    unfold head_bytes. rewrite HA, HM, <- Z.mul_opp_l, Z.mul_mod_distr_r by lia. by apply Z.mod_mul; lia.
  - intros x Hx Hbad. apply Z.mod_divide in Hz as [p Hp]; [|lia]. apply Z.mod_divide in Hbad as [q Hq]; [|lia].
    assert (head_bytes - x = (p - q) * bulk) as Hd by lia. assert (0 < p - q) by nia. nia.
Qed.

Lemma sizes_positive : 1 <= bulk <= 8 /\ 1 <= edge <= 8.
Proof. cbn in Hbulk, Hedge. lia. Qed.

(** A number of bytes that is a multiple of [edge] takes so many steps. *)
Lemma edge_steps n : 0 <= n -> n mod edge = 0 -> exists k, n = edge * Z.of_nat k /\ Z.of_nat k <= n.
Proof.
  destruct sizes_positive. intros Hn Hm. apply Z.mod_divide in Hm as [q Hq]; [|lia].
  assert (0 <= q) by (apply (Z.mul_nonneg_cancel_r q edge); lia).
  exists (Z.to_nat q). rewrite Z2Nat.id by lia. split; [lia|]. rewrite Hq.
  rewrite <- (Z.mul_1_r q) at 1. apply Z.mul_le_mono_nonneg_l; lia.
Qed.

Lemma step_before i k : (i < k)%nat -> edge * Z.of_nat i < edge * Z.of_nat k.
Proof. destruct sizes_positive. intros Hi. apply Z.mul_lt_mono_pos_l; lia. Qed.

Lemma head_phase fuel j : (Z.to_nat len <= fuel)%nat -> head_bytes <= len -> T 0 j ->
  exists j', edge_loop transfer fuel (fun pos => negb ((pos .& (bulk - 1)) =? 0)) edge (e .| edge) (set_pos a0 j) = Some (Going j') /\
    at_byte head_bytes j'.
Proof.
  intros Hfuel Hfit HT. destruct head_facts as (Hh & Hz & Hhe & Hmore). destruct sizes_positive as [Hb He].
  destruct (edge_steps head_bytes ltac:(lia) Hhe) as (k & Hk & Hkn).
  apply (edge_loop_to _ k _ 0); try done; try lia.
  - by rewrite Z.add_0_r.
  - intros i Hi. rewrite pow2_mask by done. apply negb_true_iff, Z.eqb_neq, Hmore.
    pose proof (step_before i k Hi). lia.
  - rewrite pow2_mask by done. by rewrite Hz.
  - split; [by apply Hpos|]. cbn [set_pos j_pos]. lia.
Qed.

(** The bytes of whole [bulk] words after the head. *)
Definition bulk_bytes : Z := (len - head_bytes) / bulk * bulk.

Lemma bulk_phase fuel cycles j : (Z.to_nat len <= fuel)%nat -> head_bytes <= len -> at_byte head_bytes j ->
  exists j', bulk_loop transfer fuel (align_down (a0 + len) bulk) bulk (e .| bulk) cycles 0 (add_event Wait j) = Some (Going j') /\
    at_byte (head_bytes + bulk_bytes) j'.
Proof.
  intros Hfuel Hfit [HT Hp]. destruct head_facts as (Hh & Hz & _ & _). destruct sizes_positive as [Hb He].
  rewrite align_down_floor by (lia || done).
  pose proof (Z.div_mod (len - head_bytes) bulk ltac:(lia)) as Hdm.
  pose proof (Z.mod_pos_bound (len - head_bytes) bulk ltac:(lia)) as Hr. unfold bulk_bytes.
  set (kb := (len - head_bytes) / bulk) in *. set (r := (len - head_bytes) mod bulk) in *.
  assert (0 <= kb) by (apply Z.div_pos; lia).
  replace (head_bytes + kb * bulk) with (head_bytes + bulk * Z.of_nat (Z.to_nat kb)) by lia.
  replace ((a0 + len) / bulk * bulk) with (a0 + (head_bytes + bulk * Z.of_nat (Z.to_nat kb))).
  - apply bulk_loop_spec; try done; try lia; [|split; [by apply Hwait|done]].
    assert (kb * 1 <= kb * bulk) by (apply Z.mul_le_mono_nonneg_l; lia). lia.
  - rewrite Z2Nat.id by lia. apply Z.mod_divide in Hz as [p Hpq]; [|lia].
    replace (a0 + len) with (r + (p + kb) * bulk) by lia. rewrite Z.div_add, Z.div_small by lia. lia.
Qed.

Lemma tail_phase fuel j : (Z.to_nat len <= fuel)%nat -> head_bytes <= len -> at_byte (head_bytes + bulk_bytes) j ->
  exists j', edge_loop transfer fuel (fun pos => pos <? a0 + len) edge (e .| edge) j = Some (Going j') /\ at_byte len j'.
Proof.
  intros Hfuel Hfit Hj. destruct head_facts as (Hh & _ & Hhe & _). destruct sizes_positive as [Hb He].
  pose proof (Z.div_mod (len - head_bytes) bulk ltac:(lia)) as Hdm.
  pose proof (Z.mod_pos_bound (len - head_bytes) bulk ltac:(lia)) as Hr.
  pose proof (Z.div_pos (len - head_bytes) bulk ltac:(lia) ltac:(lia)) as Hk.
  assert ((head_bytes + bulk_bytes) mod edge = 0) as Hm.
  { unfold bulk_bytes. apply Z.mod_divide in Hmul as [M HM]; [|lia].
    replace (_ / bulk * bulk) with ((len - head_bytes) / bulk * M * edge) by nia. by rewrite Z.mod_add by lia. }
  destruct (edge_steps (len - (head_bytes + bulk_bytes))) as (k & Hkt & Hkn).
  { unfold bulk_bytes. lia. }
  { rewrite Zminus_mod, Hm, Hlal. by rewrite Z.mod_0_l by lia. }
  assert (0 <= bulk_bytes) by (unfold bulk_bytes; nia).
  apply (edge_loop_to _ k _ (head_bytes + bulk_bytes)); try done; try lia.
  - rewrite Z.add_mod, Hm, Hal by lia. by rewrite Z.mod_0_l by lia.
  - intros i Hi. apply Z.ltb_lt. pose proof (step_before i k Hi). lia.
Qed.

(** All bytes are transferred, and [len] steps of each loop are enough. *)
Lemma move_spec fuel cycles j : (Z.to_nat len <= fuel)%nat -> head_bytes <= len -> T 0 j ->
  exists j', move transfer fuel e bulk edge cycles a0 len j = Some (Going j') /\ T len j'.
Proof.
  intros Hfuel Hfit HT. unfold move. rewrite (wrap_small 64 (a0 + len)) by lia.
  destruct (head_phase fuel j Hfuel Hfit HT) as (j1 & -> & H1). cbn [andthen].
  destruct (bulk_phase fuel cycles j1 Hfuel Hfit H1) as (j2 & -> & H2). cbn [andthen].
  destruct (tail_phase fuel j2 Hfuel Hfit H2) as (j3 & -> & H3 & _). cbn [andthen].
  eexists. split; [reflexivity|]. by apply Hwait.
Qed.
End loops.

(** * Running the events *)

Section run.
Context {B : Type} {bus : ByteBus B}.

(** The bus after the events, when every cycle is executed. *)
Fixpoint run_events (dev : Z) (b : B) (events : list event) : B :=
  match events with
  | [] => b
  | Transfer ops :: rest => run_events dev (fst (serve_cycle dev b ops)) rest
  | Wait :: rest => run_events dev b rest
  end.

Lemma run_events_app dev b l1 l2 : run_events dev b (l1 ++ l2) = run_events dev (run_events dev b l1) l2.
Proof. revert b. induction l1 as [|[ops|] l1 IH]; intros b; cbn [run_events app]; [done|apply IH..]. Qed.
End run.

(** Cycles of at most 32 accesses that the device and the link support. *)
Definition event_proper (e ws lo hi : Z) (x : event) : Prop :=
  match x with
  | Transfer ops => (length ops <= 32)%nat /\ Forall (proper false e ws lo hi) ops
  | Wait => True
  end.

(** * eb-put *)

Lemma put_value_word e buf : bytes_ok buf -> (length buf <= 8)%nat -> put_value e buf = word_val e buf.
Proof.
  intros Hok Hlen. unfold put_value, word_val.
  assert (forall l, bytes_ok l -> (length l <= 8)%nat -> fold_left (fun data x => wrap 64 (data .<< 8) .| x) l 0 = be_val l) as Hfold.
  { clear Hok Hlen buf. intros l. induction l as [|x l IH] using rev_ind; intros Hok Hlen; [done|].
    rewrite length_app in Hlen. cbn [length] in Hlen.
    apply Forall_app in Hok as [Hl Hx]. apply Forall_cons in Hx as [Hx _].
    rewrite fold_left_app, IH by (done || lia). cbn [fold_left].
    pose proof (be_val_range l Hl) as Hr.
    assert (256 ^ Z.of_nat (length l) <= 256 ^ 7) by (apply Z.pow_le_mono_r; lia).
    rewrite Z.shiftl_mul_pow2, wrap_small, lor_join by lia.
    rewrite be_val_app. cbn [length]. change (256 ^ Z.of_nat 1) with (2 ^ 8).
    unfold be_val at 3. cbn [fold_left]. lia. }
  destruct (e =? EB_BIG_ENDIAN); apply Hfold; try done; [by apply Forall_rev|by rewrite length_rev].
Qed.

Section put.
Context (e ws n : Z) (Hn : In n [1; 2; 4; 8]) (He : known_endian e) (Hws : (n .& ws) = n).

Lemma put_ops_spec k : forall a file, bytes_ok file -> (Z.to_nat n * k <= length file)%nat ->
  0 <= a -> a + n * Z.of_nat k < 2 ^ 64 -> a mod n = 0 ->
  exists ops, put_ops k a (e .| n) file = Some (ops, drop (Z.to_nat n * k) file) /\ length ops = k /\
    Forall (proper false e ws a (a + n * Z.of_nat k)) ops /\
    forall B (bus : ByteBus B) dev b, fst (serve_cycle dev b ops) = store b false a (take (Z.to_nat n * k) file).
Proof.
  assert (1 <= n <= 8) as Hb by (cbn in Hn; lia).
  induction k as [|k IH]; intros a file Hok Hlen Ha Hend Hal.
  - exists []. rewrite Nat.mul_0_r, drop_0. done.
  - cbn [put_ops]. destruct (format_parts e n He Hn) as (-> & -> & _).
    rewrite (proj2 (Nat.ltb_ge _ _)) by lia. rewrite wrap_small by lia.
    destruct (IH (a + n) (drop (Z.to_nat n) file)) as (ops & -> & Hcount & Hproper & Hserve).
    { by apply Forall_drop. } { rewrite length_drop. lia. } { lia. } { lia. } { by apply (next_aligned n Hn). }
    cbn [mbind option_bind]. rewrite drop_drop.
    replace (Z.to_nat n + Z.to_nat n * k)%nat with (Z.to_nat n * S k)%nat by lia.
    assert (bytes_ok (take (Z.to_nat n) file)) as Hbuf by (by apply Forall_take).
    assert (length (take (Z.to_nat n) file) = Z.to_nat n) as Hbl by (rewrite length_take; lia).
    rewrite put_value_word by (done || lia).
    eexists. split; [reflexivity|]. split; [cbn; lia|]. split.
    + constructor.
      * split; [done|]. exists n. cbn. repeat split; try done; try lia.
        -- by apply word_val_range.
        -- pose proof (word_val_range e _ Hbuf) as Hr. rewrite Hbl, Z2Nat.id, pow256 in Hr by lia. lia.
      * eapply Forall_impl; [exact Hproper|]. intros x. apply proper_weaken; lia.
    + intros B bus dev b. cbn [serve_cycle]. rewrite serve_write by done.
      rewrite word_bytes_val_len by done.
      specialize (Hserve B bus dev (store b false a (take (Z.to_nat n) file))).
      destruct (serve_cycle dev _ ops). cbn [fst] in *. rewrite Hserve.
      replace (Z.to_nat n * S k)%nat with (Z.to_nat n + Z.to_nat n * k)%nat by lia.
      rewrite <- take_take_drop, store_app, Hbl. f_equal. lia.
Qed.
End put.

(** The conditions under which the tools copy [len] bytes. *)
Record copyable (o : options) (lw address len e ws : Z) : Prop := {
  c_endian : chosen_endian o = e /\ known_endian e;
  c_sizes : usable_sizes o lw = ws /\ In ws masks;
  c_range : 0 <= address /\ 0 <= len /\ address + len < 2 ^ 64;
  c_address : address mod edge_size ws = 0;
  c_length : len mod edge_size ws = 0;
  c_head : head_bytes (bulk_size ws) address <= len }.

(** The main function around [move]. *)
Lemma tool_main_spec transfer (T : Z -> job -> Prop) fuel o lw cycles address len file e ws :
  copyable o lw address len e ws -> (Z.to_nat len <= fuel)%nat ->
  (forall n p j, T n j -> T n (set_pos p j)) -> (forall n j, T n j -> T n (add_event Wait j)) ->
  (forall size n count j, size = edge_size ws \/ size = bulk_size ws -> 0 <= n -> n + size * Z.of_nat count <= len ->
    (address + n) mod size = 0 -> (0 < count <= 32)%nat -> T n j -> j_pos j = address + n ->
    exists j', transfer (e .| size) count j = Going j' /\ T (n + size * Z.of_nat count) j') ->
  T 0 (mk_job address file []) ->
  exists j, tool_main transfer fuel o lw cycles address len file = Some (0, j_events j) /\ T len j.
Proof.
  intros [[Hch He] [Hus Hm] (Ha & Hl & Hend) Hal Hll Hh] Hfuel Hpos Hwait Htr H0.
  destruct (edge_facts_ok ws Hm) as (Hb & Hedge & Hmul & _ & _).
  unfold tool_main. rewrite Hch, Hus, (mask_size ws) by done.
  assert ((e =? 0) = false) as -> by (by destruct He as [-> | ->]).
  destruct (move_spec transfer T e (edge_size ws) (bulk_size ws) address len Hedge Hb Hmul Ha Hend Hl Hal Hll Hpos Hwait Htr
    fuel (cycles_per_packet cycles lw (bulk_size ws)) (mk_job address file []) Hfuel Hh H0) as (j & -> & Hj).
  by exists j.
Qed.

Lemma size_usable ws size : In ws masks -> size = edge_size ws \/ size = bulk_size ws ->
  In size [1; 2; 4; 8] /\ (size .& ws) = size.
Proof. intros Hm Hs. destruct (edge_facts_ok ws Hm) as (? & ? & _ & ? & ?). by destruct Hs as [-> | ->]. Qed.

(** [n] bytes of the firmware are on their way. *)
Definition put_done_bytes (e ws address len : Z) (firmware : list Z) (n : Z) (j : job) : Prop :=
  0 <= n /\ j_file j = drop (Z.to_nat n) firmware /\
  Forall (event_proper e ws address (address + len)) (j_events j) /\
  forall B (bus : ByteBus B) dev b, run_events dev b (j_events j) = store b false address (take (Z.to_nat n) firmware).

Lemma put_step (o : options) (lw address e ws : Z) (firmware : list Z) size n count j :
  copyable o lw address (Z.of_nat (length firmware)) e ws -> bytes_ok firmware ->
  size = edge_size ws \/ size = bulk_size ws -> 0 <= n -> n + size * Z.of_nat count <= Z.of_nat (length firmware) ->
  (address + n) mod size = 0 -> (0 < count <= 32)%nat ->
  put_done_bytes e ws address (Z.of_nat (length firmware)) firmware n j -> j_pos j = address + n ->
  exists j', put_transfer (e .| size) count j = Going j' /\
    put_done_bytes e ws address (Z.of_nat (length firmware)) firmware (n + size * Z.of_nat count) j'.
Proof.
  intros C Hok Hsize Hn Hle Hal Hcount (_ & Hfile & Hproper & Hrun) Hpos.
  destruct C as [[_ He] [_ Hm] (Ha & _ & Hend) _ _ _]. destruct (size_usable ws size Hm Hsize) as [Hs Hsw].
  assert (1 <= size <= 8) as Hsb by (cbn in Hs; lia).
  destruct (put_ops_spec e ws size Hs He Hsw count (j_pos j) (j_file j)) as (ops & Hops & Hcnt & Hprop & Hserve).
  { rewrite Hfile. by apply Forall_drop. } { rewrite Hfile, length_drop. lia. } { lia. } { lia. } { by rewrite Hpos. }
  unfold put_transfer. rewrite Hops. eexists. split; [reflexivity|]. split; [lia|]. cbn [j_file j_events]. split; [|split].
  + rewrite Hfile, drop_drop. f_equal. lia.
  + apply Forall_app_2; [done|]. constructor; [|done]. split; [lia|].
    eapply Forall_impl; [exact Hprop|]. intros x. apply proper_weaken; lia.
  + intros B bus dev b. rewrite run_events_app, Hrun. cbn [run_events]. rewrite Hserve, Hfile.
    replace (Z.to_nat (n + size * Z.of_nat count)) with (Z.to_nat n + Z.to_nat size * count)%nat by lia.
    rewrite <- take_take_drop, store_app, length_take. f_equal. lia.
Qed.

(** C37: when length and address fit the smallest access and the file reaches the first
    address that fits the largest, eb-put ends with exit code 0, and the cycles it
    closed write the file to the addresses from [address] on and nothing else. They
    have at most 32 operations each, all of a size that device and link support and
    aligned to it. [length firmware] steps of each loop are enough. *)
Theorem eb_put_programs (o : options) (lw cycles address e ws : Z) (firmware : list Z) (fuel : nat)
    (C : copyable o lw address (Z.of_nat (length firmware)) e ws) (Hok : bytes_ok firmware)
    (Hfuel : (length firmware <= fuel)%nat) :
  exists events, eb_put fuel o lw cycles address firmware = Some (0, events) /\
    Forall (event_proper e ws address (address + Z.of_nat (length firmware))) events /\
    forall B (bus : ByteBus B) dev b, run_events dev b events = store b false address firmware.
Proof.
  destruct (tool_main_spec put_transfer (put_done_bytes e ws address (Z.of_nat (length firmware)) firmware) fuel o lw cycles
    address (Z.of_nat (length firmware)) firmware e ws C) as (j & Hj & _ & _ & Hproper & Hrun).
  - lia.
  - by intros n p j.
  - intros n j (Hn & Hfile & Hproper & Hrun). split; [done|]. split; [done|]. split.
    + by apply Forall_app_2; [|repeat constructor].
    + intros B bus dev b. cbn [j_events add_event]. rewrite run_events_app, Hrun. done.
  - intros. by eapply put_step.
  - split; [done|]. split; [done|]. split; [done|]. intros B bus dev b. by rewrite take_0.
  - exists (j_events j). split; [done|]. split; [done|]. intros B bus dev b.
    by rewrite Hrun, Nat2Z.id, firstn_all.
Qed.

(** * eb-get *)

(** All accesses of the events, cycle by cycle. *)
Definition transfers (events : list event) : list (list access) :=
  omap (fun x => match x with Transfer ops => Some ops | Wait => None end) events.

Lemma transfers_app l1 l2 : transfers (l1 ++ l2) = transfers l1 ++ transfers l2.
Proof. apply omap_app. Qed.

Definition span (x : access) : Z := a_format x .& EB_DATAX.

(** The accesses follow each other from address [a] to address [a']. *)
Fixpoint contiguous (a : Z) (ops : list access) (a' : Z) : Prop :=
  match ops with
  | [] => a = a'
  | x :: rest => a_address x = a /\ contiguous (a + span x) rest a'
  end.

Lemma contiguous_app a b c l1 l2 : contiguous a l1 b -> contiguous b l2 c -> contiguous a (l1 ++ l2) c.
Proof. revert a. induction l1 as [|x l1 IH]; intros a H1 H2; cbn in *; [by subst|]. destruct H1. split; auto. Qed.

Lemma get_ops_spec e ws n k a : In n [1; 2; 4; 8] -> known_endian e -> (n .& ws) = n ->
  0 <= a -> a + n * Z.of_nat k < 2 ^ 64 -> a mod n = 0 ->
  length (get_ops k a (e .| n)) = k /\ Forall (fun x => a_write x = false) (get_ops k a (e .| n)) /\
  Forall (proper false e ws a (a + n * Z.of_nat k)) (get_ops k a (e .| n)) /\
  contiguous a (get_ops k a (e .| n)) (a + n * Z.of_nat k).
Proof.
  intros Hn He Hws. assert (1 <= n <= 8) as Hb by (cbn in Hn; lia).
  revert a. induction k as [|k IH]; intros a Ha Hend Hal; cbn [get_ops].
  - split_and!; try done. cbn. lia.
  - destruct (format_parts e n He Hn) as (Hd & _ & _). rewrite Hd, wrap_small by lia.
    destruct (IH (a + n)) as (Hlen & Hread & Hproper & Hcont); [lia|lia|by apply next_aligned|].
    split; [cbn; by rewrite Hlen|]. split; [by constructor|]. split.
    + constructor.
      * split; [done|]. exists n. cbn. repeat split; try done; lia.
      * eapply Forall_impl; [exact Hproper|]. intros x. apply proper_weaken; lia.
    + split; [done|]. unfold span. cbn [a_format]. rewrite Hd.
      by replace (a + n * Z.of_nat (S k)) with (a + n + n * Z.of_nat k) by lia.
Qed.

(** ** The file of eb-get *)

Lemma lookup_write_bytes m off l i : write_bytes m off l !! i =
  if decide (off <= i < off + Z.of_nat (length l)) then l !! Z.to_nat (i - off) else m !! i.
Proof.
  revert m off. induction l as [|x l IH]; intros m off; cbn [write_bytes length].
  - rewrite decide_False by lia. done.
  - rewrite IH. destruct (decide (off = i)) as [<-|Hne].
    + rewrite decide_False, decide_True, lookup_insert_eq by lia. by rewrite Z.sub_diag.
    + rewrite lookup_insert_ne by done. destruct (decide (off + 1 <= i < off + 1 + Z.of_nat (length l))).
      * rewrite decide_True by lia. by replace (Z.to_nat (i - off)) with (S (Z.to_nat (i - (off + 1)))) by lia.
      * by rewrite decide_False by lia.
Qed.

(** An operation of a cycle, answered without error from the bytes of [b]; the flush
    has dropped the endian of accesses of the full width. *)
Definition answered {B : Type} {bus : ByteBus B} (dev : Z) (b : B) (e : Z) (x : access) (an : answer) : Prop :=
  a_address (an_op an) = a_address x /\ (a_format (an_op an) .& EB_DATAX) = span x /\
  ((a_format (an_op an) .& EB_ENDIAN_MASK) = 0 \/ (a_format (an_op an) .& EB_ENDIAN_MASK) = e) /\
  an_value an = snd (serve dev b x) /\ an_error an = false.

Section file.
Context {B : Type} {bus : ByteBus B} (dev : Z) (b : B) (e ws address len : Z).
Context (He : known_endian e) (Ha : 0 <= address) (Hend : address + len < 2 ^ 64).

(** The bytes of the file at offset [i], when the operations [ops] are done. *)
Definition covered (ops : list access) (i : Z) : bool :=
  existsb (fun x => (a_address x - address <=? i) && (i <? a_address x - address + span x)) ops.

Definition holds (ops : list access) (f : output) : Prop :=
  f_pos f = lastoff f /\
  forall i, f_bytes f !! i = if covered ops i then Some (peek b false (address + i)) else None.

Lemma get_answer_spec ops f x an : proper false e ws address (address + len) x -> a_write x = false ->
  answered dev b e x an -> holds ops f -> holds (ops ++ [x]) (get_answer e address f an).
Proof.
  intros (Hcfg & n & Hn & _ & Hformat & Hlo & Hhi & _) Hw (Haddr & Hspan & Hen & Hval & _) [Hpos Hbytes].
  destruct (format_parts e n He Hn) as (Hd & _). assert (1 <= n <= 8) as Hb by (cbn in Hn; lia).
  assert (span x = n) as Hsx by (unfold span; by rewrite Hformat). rewrite Hsx in Hspan.
  set (off := a_address x - address).
  assert (wrap 64 (a_address (an_op an) - address) = off) as Hoff by (rewrite Haddr; apply wrap_small; subst off; lia).
  assert (get_buffer (if (a_format (an_op an) .& EB_ENDIAN_MASK) =? 0 then e else a_format (an_op an) .& EB_ENDIAN_MASK) n (an_value an)
    = load b false (a_address x) (Z.to_nat n)) as Hbuf.
  { replace (if _ =? 0 then e else _) with e.
    2: { destruct Hen as [-> | ->]; [done|]. by destruct He as [-> | ->]. }
    rewrite Hval. replace x with (mk_access false false (a_address x) (e .| n) (a_value x))
      by (destruct x; cbn in *; congruence).
    rewrite serve_read by done. cbn [snd a_address]. unfold get_buffer. fold (word_bytes e (Z.to_nat n) (word_val e (load b false (a_address x) (Z.to_nat n)))).
    apply word_bytes_val_len; [apply load_ok|apply length_load]. }
  unfold get_answer. rewrite Hoff, Hspan, Hbuf.
  set (f' := if negb (off =? lastoff f) then mk_output (f_bytes f) off off else f).
  assert (f_pos f' = off /\ lastoff f' = off /\ f_bytes f' = f_bytes f) as (Hp & Hl & Hm).
  { subst f'. destruct (Z.eqb_spec off (lastoff f)) as [Heq|]; cbn [negb]; [|done]. by rewrite Hpos, Heq. }
  split; cbn [f_pos lastoff f_bytes].
  { rewrite Hp, Hl, wrap_small; [done|]. subst off. lia. }
  intros i. rewrite Hp, Hm, lookup_write_bytes, length_load, Z2Nat.id by lia.
  unfold covered. rewrite existsb_app. cbn [existsb]. rewrite orb_false_r, Hsx. fold off. fold (covered ops i).
  destruct (decide (off <= i < off + n)) as [Hin|Hout].
  - rewrite (proj2 (Z.leb_le _ _)), (proj2 (Z.ltb_lt _ _)), orb_true_r by lia.
    rewrite lookup_load, Z2Nat.id, wrap_small by (subst off; lia). do 2 f_equal. subst off. lia.
  - rewrite Hbytes. replace ((off <=? i) && (i <? off + n)) with false; [by rewrite orb_false_r|].
    symmetry. apply andb_false_iff. rewrite Z.leb_gt, Z.ltb_ge. lia.
Qed.

(** Reads inside the range. *)
Definition readable (x : access) : Prop := proper false e ws address (address + len) x /\ a_write x = false.

Lemma get_answers_spec xs ans : Forall2 (answered dev b e) xs ans -> Forall readable xs ->
  forall ops f, holds ops f -> exists f', get_answers e address f ans = Some f' /\ holds (ops ++ xs) f'.
Proof.
  induction 1 as [|x an xs ans Hx _ IH]; intros Hr ops f Hf; cbn [get_answers].
  - exists f. by rewrite app_nil_r.
  - apply Forall_cons in Hr as [[Hp Hw] Hr]. rewrite (proj2 (proj2 (proj2 (proj2 Hx)))).
    destruct (IH Hr (ops ++ [x]) _ (get_answer_spec ops f x an Hp Hw Hx Hf)) as (f' & Hf' & Hh).
    exists f'. split; [done|]. by rewrite <- app_assoc in Hh.
Qed.

(** A cycle that was answered with success. *)
Definition cycle_answered (ops : list access) (c : Z * list answer) : Prop :=
  fst c = EB_OK /\ Forall2 (answered dev b e) ops (snd c).

Lemma get_all_spec cycles l : Forall2 cycle_answered cycles l -> Forall readable (concat cycles) ->
  forall ops f, holds ops f -> exists f', get_all e address f l = Some f' /\ holds (ops ++ concat cycles) f'.
Proof.
  induction 1 as [|xs [status ans] cycles l [Hs Hxs] _ IH]; intros Hr ops f Hf; cbn [get_all concat] in *.
  - exists f. by rewrite app_nil_r.
  - cbn [fst snd] in *. apply Forall_app in Hr as [Hr1 Hr2]. subst status.
    destruct (get_answers_spec xs ans Hxs Hr1 ops f Hf) as (f1 & Hf1 & Hh1).
    unfold get_done. cbn [negb Z.eqb EB_OK]. rewrite Hf1. cbn [mbind option_bind].
    destruct (IH Hr2 (ops ++ xs) f1 Hh1) as (f2 & Hf2 & Hh2). exists f2. by rewrite app_assoc.
Qed.

(** A run of accesses covers its range, and the order does not matter. *)
Lemma covered_contiguous ops : forall a a' i, contiguous a ops a' -> Forall (fun x => 0 <= span x) ops ->
  covered ops i = (a - address <=? i) && (i <? a' - address) /\ a <= a'.
Proof.
  induction ops as [|x ops IH]; intros a a' i Hc Hs; cbn [contiguous] in Hc.
  - subst. split; [|lia]. symmetry. apply andb_false_iff. rewrite Z.leb_gt, Z.ltb_ge. lia.
  - destruct Hc as [Hx Hc]. apply Forall_cons in Hs as [Hsx Hs].
    destruct (IH _ _ i Hc Hs) as [Hcov Hle]. unfold covered in *. cbn [existsb].
    rewrite Hcov, Hx. split; [|lia]. zcases; done.
Qed.

Lemma covered_perm ops ops' i : ops ≡ₚ ops' -> covered ops i = covered ops' i.
Proof.
  intros Hp. apply eq_true_iff_eq. unfold covered. rewrite !existsb_exists.
  split; intros (x & Hx & Hi); exists x; (split; [|done]);
    apply list_elem_of_In; apply list_elem_of_In in Hx; [by rewrite <- Hp|by rewrite Hp].
Qed.
End file.

(** [n] bytes have been asked for. *)
Definition get_done_bytes (e ws address len : Z) (n : Z) (j : job) : Prop :=
  0 <= n /\ Forall (event_proper e ws address (address + len)) (j_events j) /\
  Forall (readable e ws address len) (concat (transfers (j_events j))) /\
  contiguous address (concat (transfers (j_events j))) (address + n).

Lemma get_step (o : options) (lw address len e ws : Z) size n count j :
  copyable o lw address len e ws ->
  size = edge_size ws \/ size = bulk_size ws -> 0 <= n -> n + size * Z.of_nat count <= len ->
  (address + n) mod size = 0 -> (0 < count <= 32)%nat ->
  get_done_bytes e ws address len n j -> j_pos j = address + n ->
  exists j', get_transfer (e .| size) count j = Going j' /\
    get_done_bytes e ws address len (n + size * Z.of_nat count) j'.
Proof.
  intros C Hsize Hn Hle Hal Hcount (_ & Hproper & Hread & Hcont) Hpos.
  destruct C as [[_ He] [_ Hm] (Ha & _ & Hend) _ _ _]. destruct (size_usable ws size Hm Hsize) as [Hs Hsw].
  assert (1 <= size <= 8) as Hsb by (cbn in Hs; lia).
  destruct (get_ops_spec e ws size count (j_pos j) Hs He Hsw) as (Hlen & Hreads & Hp & Hc); [lia|lia|by rewrite Hpos|].
  eexists. split; [reflexivity|]. unfold get_done_bytes. cbn [j_events].
  rewrite transfers_app, concat_app. cbn [transfers omap list_omap concat]. rewrite app_nil_r.
  assert (Forall (proper false e ws address (address + len)) (get_ops count (j_pos j) (e .| size))) as Hp'.
  { eapply Forall_impl; [exact Hp|]. intros x. apply proper_weaken; lia. }
  split_and!; [lia| | |].
  + apply Forall_app_2; [done|]. constructor; [|done]. split; [lia|done].
  + apply Forall_app_2; [done|]. apply Forall_and. by split.
  + eapply contiguous_app; [exact Hcont|]. rewrite <- Hpos. by replace (address + (n + size * Z.of_nat count)) with (j_pos j + size * Z.of_nat count) by lia.
Qed.

(** Under the same conditions eb-get ends with exit code 0, and in whatever order
    its cycles are answered its file has the [len] bytes of the target and no
    others: the callback seeks to the offset of each operation. *)
Theorem eb_get_copies (o : options) (lw cycles address len e ws : Z) (fuel : nat)
    (C : copyable o lw address len e ws) (Hfuel : (Z.to_nat len <= fuel)%nat) :
  exists events, eb_get fuel o lw cycles address len = Some (0, events) /\
    Forall (event_proper e ws address (address + len)) events /\
    forall B (bus : ByteBus B) dev b order answers, order ≡ₚ transfers events ->
      Forall2 (cycle_answered dev b e) order answers ->
      exists f, get_all e address (mk_output ∅ 0 0) answers = Some f /\
        forall i, f_bytes f !! i = if decide (0 <= i < len) then Some (peek b false (address + i)) else None.
Proof.
  destruct (tool_main_spec get_transfer (get_done_bytes e ws address len) fuel o lw cycles address len [] e ws C Hfuel)
    as (j & Hj & _ & Hproper & Hread & Hcont).
  - by intros n p j.
  - intros n j (Hn & Hproper & Hread & Hcont). unfold get_done_bytes, add_event. cbn [j_events].
    rewrite transfers_app, concat_app. cbn. rewrite app_nil_r.
    split_and!; try done. by apply Forall_app_2; [|repeat constructor].
  - intros. by eapply get_step.
  - split_and!; try done. cbn. lia.
  - exists (j_events j). split; [done|]. split; [done|].
    intros B bus dev b order answers Horder Hans. destruct C as [[_ He] _ (Ha & Hl & Hend) _ _ _].
    assert (concat order ≡ₚ concat (transfers (j_events j))) as Hperm by (by rewrite Horder).
    destruct (get_all_spec dev b e ws address len He Ha Hend order answers Hans) with (ops := @nil access) (f := mk_output ∅ 0 0)
      as (f & Hf & _ & Hbytes).
    { by rewrite Hperm. } { split; [done|]. intros i. cbn. by rewrite lookup_empty. }
    exists f. split; [done|]. intros i. rewrite Hbytes. cbn [app].
    rewrite (covered_perm address _ _ i Hperm).
    destruct (covered_contiguous address _ address (address + len) i Hcont) as [-> _].
    { eapply Forall_impl; [exact Hread|]. intros x _. apply Z.land_nonneg. right. done. }
    destruct (decide (0 <= i < len)) as [Hi|Hi].
    + by rewrite (proj2 (Z.leb_le _ _)), (proj2 (Z.ltb_lt _ _)) by lia.
    + replace ((address - address <=? i) && (i <? address + len - address)) with false; [done|].
      symmetry. apply andb_false_iff. rewrite Z.leb_gt, Z.ltb_ge. lia.
Qed.

(** ** Instances *)

(** A 32-bit big-endian device with byte selects, at an odd address. *)
Definition bytes_device : options := mk_options (Some 0x05) 0 false false.

Lemma bytes_device_copyable : copyable bytes_device 0x44 0x1003 6 EB_BIG_ENDIAN 5.
Proof. split; try done; by split; [|cbn; tauto || by left]. Qed.

Lemma eb_put_programs_witness : exists events,
  eb_put 6 bytes_device 0x44 0 0x1003 [1; 2; 3; 4; 5; 6] = Some (0, events) /\
  Forall (event_proper EB_BIG_ENDIAN 5 0x1003 0x1009) events /\
  forall B (bus : ByteBus B) dev b, run_events dev b events = store b false 0x1003 [1; 2; 3; 4; 5; 6].
Proof.
  apply (eb_put_programs bytes_device 0x44 0 0x1003 EB_BIG_ENDIAN 5 [1; 2; 3; 4; 5; 6] 6 bytes_device_copyable);
    [repeat constructor; lia|cbn; lia].
Defined.

Lemma eb_get_copies_witness : exists events,
  eb_get 6 bytes_device 0x44 0 0x1003 6 = Some (0, events) /\
  Forall (event_proper EB_BIG_ENDIAN 5 0x1003 0x1009) events /\
  forall B (bus : ByteBus B) dev b order answers, order ≡ₚ transfers events ->
    Forall2 (cycle_answered dev b EB_BIG_ENDIAN) order answers ->
    exists f, get_all EB_BIG_ENDIAN 0x1003 (mk_output ∅ 0 0) answers = Some f /\
      forall i, f_bytes f !! i = if decide (0 <= i < 6) then Some (peek b false (0x1003 + i)) else None.
Proof. apply (eb_get_copies bytes_device 0x44 0 0x1003 6 EB_BIG_ENDIAN 5 6 bytes_device_copyable). cbn. lia. Defined.

Example put_in_three_steps :
  eb_put 6 bytes_device 0x44 0 0x1003 [1; 2; 3; 4; 5; 6] =
  Some (0, [Transfer [mk_access true false 0x1003 0x11 1]; Wait;
            Transfer [mk_access true false 0x1004 0x14 0x02030405];
            Transfer [mk_access true false 0x1008 0x11 6]; Wait]).
Proof. reflexivity. Qed.

(** ** Where the conditions fail *)

(** A file that ends before the first aligned address is reported as a short read. *)
Lemma short_firmware_fails : exists events, eb_put 8 bytes_device 0x44 0 0x1001 [1] = Some (1, events).
Proof. eexists. reflexivity. Qed.

(** A range that ends there is copied with the bytes that follow it. *)
Lemma short_range_reads_on : eb_get 8 bytes_device 0x44 0 0x1001 1 =
  Some (0, [Transfer [mk_access false false 0x1001 0x11 0]; Transfer [mk_access false false 0x1002 0x11 0];
            Transfer [mk_access false false 0x1003 0x11 0]; Wait; Wait]).
Proof. reflexivity. Qed.

(** An address that is not a multiple of the smallest access is only complained
    about; the loop up to the first aligned address then never meets one. *)
Definition halfword_device : options := mk_options (Some 0x06) 0 false false.

Lemma odd_loop_endless fuel j : j_pos j mod 2 = 1 ->
  edge_loop get_transfer fuel (fun pos => negb ((pos .& (4 - 1)) =? 0)) 2 (EB_BIG_ENDIAN .| 2) j = None.
Proof.
  revert j. induction fuel as [|fuel IH]; intros j Hodd; cbn [edge_loop];
    rewrite pow2_mask by (cbn; tauto);
    (assert ((j_pos j mod 4 =? 0) = false) as -> by (apply Z.eqb_neq; Z.div_mod_to_equations; lia)); [done|].
  apply IH. cbn [set_pos j_pos]. unfold wrap. Z.div_mod_to_equations. lia.
Qed.

Lemma misaligned_get_never_ends fuel : eb_get fuel halfword_device 0x44 0 0x1001 16 = None.
Proof. unfold eb_get, tool_main. cbn -[move]. unfold move. by rewrite odd_loop_endless. Qed.
