(* ===== verification/Mprintf.v ===== *)
(** Formatted output on the soft CPU: [src/modules/lm32-include/mprintf.c] and the
    hexadecimal printer of [src/modules/lm32-include/aux.c].

    A format and a string argument are the bytes of memory from the pointer on;
    reading behind them is undefined behaviour, [None]. Bytes that are sent to the
    serial port, or stored at the destination, are the result. *)
From stdpp Require Import base list strings.
From Stdlib Require Import ZArith Lia.
From S2P Require Import Prelude Widths.

(** * Arguments and the scratch buffer *)

(** An argument of the variadic functions; [va_arg] of another type is undefined. *)
Inductive arg :=
  | AInt (v : Z)
  | AStr (s : list Z).

(** [unsigned char scratch[16]], the bytes from [ptr] to its end: [*--ptr = c]. *)
Definition push_byte (c : Z) (scratch : list Z) : option (list Z) :=
  if (length scratch <? 16)%nat then Some (c :: scratch) else None.

(** The bytes up to the first NUL: what a loop over [*ptr++] prints. *)
Fixpoint until_nul (l : list Z) : option (list Z) :=
  match l with
  | [] => None
  | c :: rest => if c =? 0 then Some [] else out ← until_nul rest; Some (c :: out)
  end.

(** [do { ... } while (u_val > 0);] *)
Fixpoint digit_loop (fuel : nat) (base u_val width : Z) (scratch : list Z) : option (Z * list Z) :=
  match fuel with
  | O => None
  | S fuel' =>
    let ch := u_val mod base + 48 in
    let ch := if 57 <? ch then ch + (97 - 57 - 1) else ch in
    scratch ← push_byte ch scratch;
    let u_val := u_val / base in
    let width := if negb (width =? 0) then width - 1 else width in
    if 0 <? u_val then digit_loop fuel' base u_val width scratch else Some (width, scratch)
  end.

(** [while (width--) *--ptr = fill;] *)
Fixpoint pad_loop (width : nat) (fill : Z) (scratch : list Z) : option (list Z) :=
  match width with
  | O => Some scratch
  | S width' => scratch ← push_byte fill scratch; pad_loop width' fill scratch
  end.

(** The label CONVERSION_LOOP. A 32-bit value has at most ten digits. *)
Definition conversion_loop (u_val base width fill : Z) : option (list Z) :=
  scratch ← push_byte 0 [];
  '(width, scratch) ← digit_loop 10 base u_val width scratch;
  scratch ← pad_loop (Z.to_nat width) fill scratch;
  until_nul scratch.

(** * The directives *)

Section format.
(** vprintf prints a sign for [%d]; _p_vsprintf does not. *)
Context (signed : bool).

(** [switch (format_flag = *format++)]: what is printed and the arguments left. *)
Definition directive (fill width format_flag : Z) (args : list arg) : option (list Z * list arg) :=
  if format_flag =? 99 (* 'c' *) then
    match args with AInt v :: rest => Some ([u8 v], rest) | _ => None end
  else if (format_flag =? 83) || (format_flag =? 115) (* 'S', 's' *) then
    match args with AStr s :: rest => out ← until_nul s; Some (out, rest) | _ => None end
  else if (format_flag =? 100) || (format_flag =? 117) || (format_flag =? 120) (* 'd', 'u', 'x' *) then
    match args with
    | AInt v :: rest =>
      let base := if format_flag =? 120 then 16 else 10 in
      let u_val := u32 v in
      let negative := signed && (format_flag =? 100) && negb ((u_val .& 0x80000000) =? 0) in
      let u_val := if negative then u32 (- u_val) else u_val in
      out ← conversion_loop u_val base width fill;
      Some ((if negative then 45 :: out else out), rest)
    | _ => None
    end
  else Some ([format_flag], args).

(** A directive and what follows it. *)
Definition with_directive (fill width format_flag : Z) (args : list arg) (k : list arg -> option (list Z)) : option (list Z) :=
  '(out, args) ← directive fill width format_flag args;
  rest ← k args;
  Some (out ++ rest).

(** The loop over the format; after [%] one zero and one digit are optional. *)
Fixpoint format_loop (format : list Z) (args : list arg) : option (list Z) :=
  match format with
  | [] => None
  | c :: r0 =>
    if negb (c =? 37) then
      if c =? 0 then Some [] else out ← format_loop r0 args; Some (c :: out)
    else match r0 with
    | [] => None
    | c1 :: r1 =>
      if u8 (c1 - 48) =? 0 then
        match r1 with
        | [] => None
        | c2 :: r2 =>
          let w := u8 (c2 - 48) in
          if (0 <? w) && (w <=? 9) then
            match r2 with
            | [] => None
            | c3 :: r3 => with_directive 48 w c3 args (format_loop r3)
            end
          else with_directive 48 0 c2 args (format_loop r2)
        end
      else
        let w := u8 (c1 - 48) in
        if (0 <? w) && (w <=? 9) then
          match r1 with
          | [] => None
          | c2 :: r2 => with_directive 32 w c2 args (format_loop r2)
          end
        else with_directive 32 0 c1 args (format_loop r1)
    end
  end.
End format.

(** What is sent to the serial port. *)
Definition vprintf (format : list Z) (args : list arg) : option (list Z) := format_loop true format args.

(** What is stored at [dst]. *)
Definition _p_vsprintf (format : list Z) (args : list arg) : option (list Z) :=
  out ← format_loop false format args; Some (out ++ [0]).

(** The escape sequences of a terminal, printed in front of the text. *)
Definition C_DIM : Z := 0x80.
Definition escape (s : string) : list Z := 27 :: cstr s ++ [0].
Definition color_prefix (color : Z) : option (list Z) :=
  vprintf (escape "[0%d;3%dm") [AInt (if negb ((color .& C_DIM) =? 0) then 2 else 1); AInt (color .& 0x7f)].

Definition m_cprintf (color : Z) (fmt : list Z) (args : list arg) : option (list Z) :=
  prefix ← color_prefix color; out ← vprintf fmt args; Some (prefix ++ out).

Definition m_pcprintf (row col color : Z) (fmt : list Z) (args : list arg) : option (list Z) :=
  place ← vprintf (escape "[%d;%df") [AInt row; AInt col];
  prefix ← color_prefix color; out ← vprintf fmt args; Some (place ++ prefix ++ out).

Definition m_term_clear : option (list Z) :=
  vprintf (27 :: cstr "[2J" ++ 27 :: cstr "[1;1H" ++ [0]) [].

Example red_hello : m_cprintf 1 (cstr "hi %d" ++ [0]) [AInt (-5)] = Some (27 :: cstr "[01;31mhi -5").
Proof. reflexivity. Qed.

(** * aux.c *)

Fixpoint sprinthex_loop (n : nat) (i : Z) (buffer : list Z) (val digits : Z) : option (list Z) :=
  match n with
  | O => Some buffer
  | S n' =>
    let ascii := u8 ((val .>> (i .<< 2)) .& 0x0F) in
    let ascii := if 9 <? ascii then ascii - 10 + 65 else ascii + 48 in
    buffer ← array_set buffer (Z.to_nat (digits - 1 - i)) ascii;
    sprinthex_loop n' (i + 1) buffer val digits
  end.

Definition sprinthex (buffer : list Z) (val digits : Z) : option (list Z) :=
  buffer ← sprinthex_loop (Z.to_nat digits) 0 buffer val digits;
  array_set buffer (Z.to_nat digits) 0.

Definition mat_sprinthex (buffer : list Z) (val : Z) : option (list Z) := sprinthex buffer val 8.

(** * Numbers *)

Definition digit_char (d : Z) : Z := let ch := d + 48 in if 57 <? ch then ch + (97 - 57 - 1) else ch.
Definition digit_value (c : Z) : Z := if c <=? 57 then c - 48 else c - 87.

(** Reading digits back. *)
Definition read_digits (base : Z) (l : list Z) : Z := fold_left (fun acc c => acc * base + digit_value c) l 0.

(** [l] is [v] in base [base], without leading zeros. *)
Record digits_of (base v : Z) (l : list Z) : Prop := {
  d_value : read_digits base l = v;
  d_range : Forall (fun c => 0 <= digit_value c < base /\ c <> 0) l;
  d_short : l = [48] \/ (exists c rest, l = c :: rest /\ c <> 48) }.

Lemma digit_char_value d : 0 <= d < 16 -> digit_value (digit_char d) = d /\ digit_char d <> 0 /\ (d <> 0 -> digit_char d <> 48).
Proof. intros Hd. unfold digit_value, digit_char. zcases. Qed.

Lemma read_digits_snoc base l c : read_digits base (l ++ [c]) = read_digits base l * base + digit_value c.
Proof. unfold read_digits. by rewrite fold_left_app. Qed.

Lemma push_some c l : (length l < 16)%nat -> push_byte c l = Some (c :: l).
Proof. intros Hl. unfold push_byte. by rewrite (proj2 (Nat.ltb_lt _ _) Hl). Qed.

(** The loop stores the digits in front of what is there; [n] steps are enough for
    [n] digits. *)
Lemma digit_loop_spec base : 2 <= base <= 16 -> forall n v width scratch,
  (0 < n)%nat -> 0 <= v < base ^ Z.of_nat n -> 0 <= width -> (length scratch + n <= 16)%nat ->
  exists l, digit_loop n base v width scratch = Some (Z.max 0 (width - Z.of_nat (length l)), l ++ scratch) /\
    digits_of base v l /\ (1 <= length l <= n)%nat /\ (0 < v -> l <> [48]).
Proof.
  intros Hb. induction n as [|n IH]; intros v width scratch Hn Hv Hw Hlen; [lia|].
  pose proof (Z.mod_pos_bound v base ltac:(lia)) as Hm. pose proof (Z.div_mod v base ltac:(lia)) as Hdm.
  destruct (digit_char_value (v mod base) ltac:(lia)) as (Hval & Hnz & H48).
  cbn [digit_loop]. fold (digit_char (v mod base)). rewrite push_some by lia. cbn [mbind option_bind].
  set (w' := if negb (width =? 0) then width - 1 else width).
  assert (w' = Z.max 0 (width - 1)) as Hw' by (subst w'; destruct (Z.eqb_spec width 0); cbn [negb]; lia).
  destruct (Z.ltb_spec 0 (v / base)) as [Hq|Hq].
  - assert (v / base < base ^ Z.of_nat n) as Hqn.
    { apply Z.div_lt_upper_bound; [lia|]. rewrite <- Z.pow_succ_r, <- Nat2Z.inj_succ by lia. lia. }
    assert (0 < n)%nat by (destruct n; [cbn in Hqn; lia|lia]).
    destruct (IH (v / base) w' (digit_char (v mod base) :: scratch)) as (l & Hl & [Hread Hrange Hshort] & Hcount & Hne);
      [done|lia|lia|cbn [length]; lia|].
    exists (l ++ [digit_char (v mod base)]). rewrite Hl. split; [|split; [|split]].
    + rewrite <- app_assoc, length_app. cbn [app length]. do 2 f_equal. lia.
    + split.
      * rewrite read_digits_snoc, Hread, Hval. lia.
      * apply Forall_app_2; [done|]. constructor; [|done]. by rewrite Hval.
      * right. destruct Hshort as [->|(c & rest & -> & Hc)]; [by destruct (Hne Hq)|]. by exists c, (rest ++ [digit_char (v mod base)]).
    + rewrite length_app. cbn [length]. lia.
    + intros _ Hbad. apply (f_equal length) in Hbad. rewrite length_app in Hbad. cbn [length] in Hbad. lia.
  - assert (v / base = 0) as Hz by (pose proof (Z.div_pos v base); lia).
    assert (v mod base = v) as Hvm by lia. rewrite Hvm in *.
    exists [digit_char v]. split; [cbn [length app]; do 2 f_equal; lia|]. split; [|split; [cbn; lia|]].
    + split; [unfold read_digits; cbn [fold_left]; lia|constructor; [by rewrite Hval|done]|].
      destruct (Z.eq_dec v 0) as [->|Hv0]; [by left|]. right. exists (digit_char v), []. split; [done|by apply H48].
    + intros Hv0 [= Hbad]. by apply H48; [lia|].
Qed.

Lemma pad_loop_spec fill n : forall scratch, (length scratch + n <= 16)%nat ->
  pad_loop n fill scratch = Some (repeat fill n ++ scratch).
Proof.
  induction n as [|n IH]; intros scratch Hl; [done|]. cbn [pad_loop]. rewrite push_some by lia. cbn [mbind option_bind].
  rewrite IH by (cbn [length]; lia). f_equal. cbn [repeat]. by rewrite repeat_cons, <- app_assoc.
Qed.

Lemma forall_repeat (P : Z -> Prop) c n : P c -> Forall P (repeat c n).
Proof. intros Hc. induction n; by constructor. Qed.

Lemma until_nul_app l rest : Forall (fun c => c <> 0) l -> until_nul (l ++ 0 :: rest) = Some l.
Proof.
  induction 1 as [|c l Hc _ IH]; [done|]. cbn [until_nul app]. rewrite (proj2 (Z.eqb_neq _ _) Hc), IH. done.
Qed.

(** The text of a number: no byte of [scratch] before its start is written. *)
Lemma conversion_loop_spec v base width fill : base = 10 \/ base = 16 -> 0 <= v < 2 ^ 32 -> 0 <= width <= 9 -> fill <> 0 ->
  exists l, digits_of base v l /\
    conversion_loop v base width fill = Some (repeat fill (Z.to_nat width - length l) ++ l).
Proof.
  intros Hb Hv Hw Hf. unfold conversion_loop. rewrite push_some by (cbn; lia). cbn [mbind option_bind].
  destruct (digit_loop_spec base ltac:(lia) 10 v width [0]) as (l & Hl & Hd & Hlen & _); [lia| |lia|cbn; lia|].
  { destruct Hb as [-> | ->]; cbn; lia. }
  rewrite Hl. cbn [mbind option_bind]. rewrite pad_loop_spec by (rewrite length_app; cbn [length]; lia). cbn [mbind option_bind].
  exists l. split; [done|].
  replace (Z.to_nat (Z.max 0 (width - Z.of_nat (length l)))) with (Z.to_nat width - length l)%nat by lia.
  rewrite app_assoc. apply until_nul_app. apply Forall_app_2; [by apply forall_repeat|].
  eapply Forall_impl; [apply Hd|]. by intros c [_ Hc].
Qed.

(** * What a format means *)

(** A format is a sequence of characters and directives; width 0 is no width. *)
Inductive piece :=
  | Lit (c : Z)
  | Dir (zero : bool) (width flag : Z).

Definition piece_ok (p : piece) : Prop :=
  match p with
  | Lit c => is_byte c /\ c <> 0 /\ c <> 37
  | Dir _ width flag => 0 <= width <= 9 /\ is_byte flag /\ flag <> 0 /\ ~ 48 <= flag <= 57
  end.

Definition show (p : piece) : list Z :=
  match p with
  | Lit c => [c]
  | Dir zero width flag =>
    37 :: (if zero then [48] else []) ++ (if width =? 0 then [] else [width + 48]) ++ [flag]
  end.

Definition is_number (flag : Z) : bool := (flag =? 100) || (flag =? 117) || (flag =? 120).
Definition is_string (flag : Z) : bool := (flag =? 83) || (flag =? 115).

(** The argument a directive takes is there and has its type. *)
Definition takes (flag : Z) (args : list arg) : bool :=
  match args with
  | AInt _ :: _ => negb (is_string flag)
  | AStr s :: _ => negb (is_number flag || (flag =? 99)) && (negb (is_string flag) || existsb (Z.eqb 0) s)
  | [] => negb (is_number flag || (flag =? 99) || is_string flag)
  end.

Definition rest_args (flag : Z) (args : list arg) : list arg :=
  if is_number flag || (flag =? 99) || is_string flag then tail args else args.

Fixpoint enough_args (pieces : list piece) (args : list arg) : bool :=
  match pieces with
  | [] => true
  | Lit _ :: rest => enough_args rest args
  | Dir _ _ flag :: rest => takes flag args && enough_args rest (rest_args flag args)
  end.

(** The value a number directive prints: [%d] of vprintf is signed. *)
Definition printed_value (signed : bool) (flag v : Z) : Z :=
  if signed && (flag =? 100) && (2 ^ 31 <=? u32 v) then u32 v - 2 ^ 32 else u32 v.

(** A sign, fill characters, the digits of the value. *)
Definition number_text (signed zero : bool) (width flag v : Z) (out : list Z) : Prop :=
  exists digits, digits_of (if flag =? 120 then 16 else 10) (Z.abs (printed_value signed flag v)) digits /\
    out = (if printed_value signed flag v <? 0 then [45] else []) ++
          repeat (if zero then 48 else 32) (Z.to_nat width - length digits) ++ digits.

(** What a directive prints. *)
Definition renders (signed zero : bool) (width flag : Z) (args : list arg) (out : list Z) : Prop :=
  if is_number flag then exists v rest, args = AInt v :: rest /\ number_text signed zero width flag v out
  else if is_string flag then exists rest args', args = AStr (out ++ 0 :: rest) :: args' /\ Forall (fun c => c <> 0) out
  else if flag =? 99 then exists v rest, args = AInt v :: rest /\ out = [u8 v]
  else out = [flag].

Fixpoint rendered (signed : bool) (pieces : list piece) (args : list arg) (outs : list (list Z)) : Prop :=
  match pieces, outs with
  | [], [] => True
  | Lit c :: rest, out :: outs' => out = [c] /\ rendered signed rest args outs'
  | Dir zero width flag :: rest, out :: outs' =>
    renders signed zero width flag args out /\ rendered signed rest (rest_args flag args) outs'
  | _, _ => False
  end.

(** The sign bit. *)
Lemma negative_test u : 0 <= u < 2 ^ 32 -> negb ((u .& 0x80000000) =? 0) = (2 ^ 31 <=? u).
Proof.
  intros Hu. assert ((u .& 0x80000000) = Z.b2z (Z.testbit u 31) * 2 ^ 31) as ->.
  { change 0x80000000 with (1 .<< 31). rewrite <- Z.shiftl_mul_pow2 by lia. apply Z.bits_inj'. intros i Hi.
    rewrite Z.land_spec, !Z.shiftl_spec by lia.
    destruct (Z.eq_dec i 31) as [->|Hne]; [by destruct (Z.testbit u 31)|].
    assert (forall b, Z.testbit (Z.b2z b) (i - 31) = false) as Hz.
    { intros b. destruct (Z.ltb_spec i 31); [by rewrite Z.testbit_neg_r by lia|].
      destruct b; [apply Z.bits_above_log2; cbn; lia|apply Z.bits_0]. }
    change (Z.testbit 1 (i - 31)) with (Z.testbit (Z.b2z true) (i - 31)). by rewrite !Hz, andb_false_r. }
  rewrite Z.testbit_spec' by lia.
  destruct (Z.leb_spec (2 ^ 31) u).
  - assert (u / 2 ^ 31 = 1) as ->; [|done]. symmetry. apply Z.div_unique with (u - 2 ^ 31); lia.
  - by rewrite Z.div_small by lia.
Qed.

Lemma conversion_value signed flag v : let u := u32 v in
  let negative := signed && (flag =? 100) && negb ((u .& 0x80000000) =? 0) in
  let w := if negative then u32 (- u) else u in
  w = Z.abs (printed_value signed flag v) /\ 0 <= w < 2 ^ 32 /\ negative = (printed_value signed flag v <? 0).
Proof.
  cbn zeta. pose proof (wrap_range 32 v ltac:(lia)) as Hu. rewrite negative_test by done. unfold printed_value.
  destruct (signed && (flag =? 100)); cbn [andb]; [|split; [lia|split; [done|symmetry; apply Z.ltb_ge; lia]]].
  destruct (Z.leb_spec (2 ^ 31) (u32 v)).
  - assert (u32 (- u32 v) = 2 ^ 32 - u32 v) as Heq.
    { unfold wrap at 1. symmetry. apply Z.mod_unique with (-1); lia. }
    rewrite Heq. split; [lia|]. split; [lia|]. symmetry. apply Z.ltb_lt. lia.
  - split; [lia|]. split; [done|]. symmetry. apply Z.ltb_ge. lia.
Qed.

(** A directive with its arguments prints what it means. *)
Lemma directive_spec signed (zero : bool) width flag args : 0 <= width <= 9 -> takes flag args = true ->
  exists out, directive signed (if zero then 48 else 32) width flag args = Some (out, rest_args flag args) /\
    renders signed zero width flag args out.
Proof.
  intros Hw Ht. unfold directive, renders, rest_args.
  destruct (flag =? 99) eqn:E99.
  { apply Z.eqb_eq in E99 as ->. destruct args as [|[v|s] args]; try done. cbn. eexists. split; [reflexivity|]. by exists v, args. }
  fold (is_string flag). destruct (is_string flag) eqn:Es.
  { rewrite orb_true_r.
    assert (is_number flag = false) as Hn.
    { unfold is_string, is_number in *. apply orb_prop in Es as [Es|Es]; apply Z.eqb_eq in Es as ->; done. }
    rewrite Hn. destruct args as [|[v|s] args]; cbn [takes] in Ht; rewrite ?Es, ?Hn, ?E99 in Ht; try done.
    cbn [negb andb orb] in Ht. cbn [tail].
    assert (exists out rest, s = out ++ 0 :: rest /\ Forall (fun c => c <> 0) out) as (out & rest & -> & Hout).
    { clear Es. induction s as [|c s IH]; [done|]. cbn [existsb] in Ht.
      destruct (Z.eqb_spec 0 c) as [<-|Hc]; [by exists [], s|]. destruct (IH Ht) as (out & rest & -> & Hout).
      exists (c :: out), rest. split; [done|]. constructor; [by intros ->|done]. }
    rewrite until_nul_app by done. eexists. split; [reflexivity|]. by exists rest, args. }
  fold (is_number flag). destruct (is_number flag) eqn:En; cbn [orb].
  2: { eexists. by split. }
  destruct args as [|[v|s] args]; cbn [takes] in Ht; rewrite ?Es, ?En in Ht; try done. cbn [tail].
  destruct (conversion_value signed flag v) as (Hval & Hrange & Hneg).
  set (neg := signed && (flag =? 100) && negb ((u32 v .& 0x80000000) =? 0)) in *.
  set (w := if neg then u32 (- u32 v) else u32 v) in *.
  destruct (conversion_loop_spec w (if flag =? 120 then 16 else 10) width (if zero then 48 else 32)) as (l & Hl & Heq);
    [destruct (flag =? 120); auto|done|done|by destruct zero|].
  rewrite Heq. cbn [mbind option_bind]. eexists. split; [reflexivity|]. exists v, args. split; [done|].
  exists l. rewrite <- Hval. split; [done|]. rewrite Hneg. by destruct (printed_value signed flag v <? 0).
Qed.

(** ** The loop over the format *)

Lemma format_loop_lit signed c rest args : piece_ok (Lit c) ->
  format_loop signed (c :: rest) args = (format_loop signed rest args ≫= fun out => Some (c :: out)).
Proof.
  intros (_ & H0 & H37). cbn [format_loop].
  by rewrite (proj2 (Z.eqb_neq c 37) H37), (proj2 (Z.eqb_neq c 0) H0).
Qed.

Lemma digit_test w : 1 <= w <= 9 -> (u8 (w + 48 - 48) =? 0) = false /\ ((0 <? u8 (w + 48 - 48)) && (u8 (w + 48 - 48) <=? 9)) = true /\
  u8 (w + 48 - 48) = w.
Proof.
  intros Hw. replace (w + 48 - 48) with w by lia. rewrite wrap_small by lia.
  split; [apply Z.eqb_neq; lia|]. by zcases.
Qed.

Lemma flag_test f : is_byte f -> ~ 48 <= f <= 57 ->
  (u8 (f - 48) =? 0) = false /\ ((0 <? u8 (f - 48)) && (u8 (f - 48) <=? 9)) = false.
Proof.
  intros Hf Hn. assert (9 < u8 (f - 48)) as Hu.
  { destruct (Z.ltb_spec f 48); [|rewrite wrap_small; lia].
    unfold wrap. replace (f - 48) with (f + 208 + -1 * 2 ^ 8) by lia. rewrite Z.mod_add, Z.mod_small; lia. }
  split; [apply Z.eqb_neq; lia|]. apply andb_false_intro2, Z.leb_gt. lia.
Qed.

Lemma format_loop_dir signed (zero : bool) width flag rest args : piece_ok (Dir zero width flag) ->
  format_loop signed (show (Dir zero width flag) ++ rest) args =
  with_directive signed (if zero then 48 else 32) width flag args (format_loop signed rest).
Proof.
  intros (Hw & Hb & H0 & Hd). destruct (flag_test flag Hb Hd) as [F1 F2].
  unfold show. destruct (Z.eqb_spec width 0) as [->|Hne].
  - destruct zero; cbn [app format_loop Z.eqb Pos.eqb negb]; [|by rewrite F1, F2].
    change (u8 (48 - 48) =? 0) with true. cbn iota. by rewrite F2.
  - destruct (digit_test width ltac:(lia)) as (W1 & W2 & W3).
    destruct zero; cbn [app format_loop Z.eqb Pos.eqb negb].
    + change (u8 (48 - 48) =? 0) with true. cbn iota. by rewrite W2, W3.
    + by rewrite W1, W2, W3.
Qed.

(** C33: a format made of characters and of directives with an optional zero and an
    optional width is printed piece by piece when each directive has an argument
    of its type: nothing undefined happens, no byte in front of the scratch buffer
    is written, and a number is printed as an optional sign, fill characters up to
    the width and the digits that read back as its value. *)
Theorem format_renders (signed : bool) (pieces : list piece) (args : list arg)
    (Hok : Forall piece_ok pieces) (Hargs : enough_args pieces args = true) :
  exists outs, format_loop signed (concat (map show pieces) ++ [0]) args = Some (concat outs) /\
    rendered signed pieces args outs.
Proof.
  revert args Hargs. induction Hok as [|p pieces Hp _ IH]; intros args Hargs; [by exists []|].
  cbn [map concat]. rewrite <- app_assoc. destruct p as [c|zero width flag]; cbn [enough_args] in Hargs.
  - destruct (IH args Hargs) as (outs & Houts & Hr). cbn [show app].
    rewrite format_loop_lit, Houts by done. by exists ([c] :: outs).
  - apply andb_prop in Hargs as [Ht Hargs]. rewrite format_loop_dir by done.
    destruct (directive_spec signed zero width flag args ltac:(apply Hp) Ht) as (out & Hout & Hrender).
    destruct (IH _ Hargs) as (outs & Houts & Hr). unfold with_directive. rewrite Hout. cbn [mbind option_bind].
    rewrite Houts. cbn [mbind option_bind]. by exists (out :: outs).
Qed.

(** ** aux.c *)

Definition hex_char (d : Z) : Z := if 9 <? d then d - 10 + 65 else d + 48.
Definition hex_value (c : Z) : Z := if c <=? 57 then c - 48 else c - 55.
Definition read_hex (l : list Z) : Z := fold_left (fun acc c => acc * 16 + hex_value c) l 0.

(** The digits of [val] from place [n - 1] down to place 0. *)
Fixpoint hex_text (n : nat) (val : Z) : list Z :=
  match n with
  | O => []
  | S n' => hex_char ((val .>> (4 * Z.of_nat n')) .& 15) :: hex_text n' val
  end.

Lemma length_hex_text n val : length (hex_text n val) = n.
Proof. induction n as [|n IH]; cbn; [done|]. by rewrite IH. Qed.

Lemma read_hex_acc l a : fold_left (fun acc c => acc * 16 + hex_value c) l a = a * 16 ^ Z.of_nat (length l) + read_hex l.
Proof.
  unfold read_hex. revert a. induction l as [|c l IH]; intros a; cbn [fold_left length]; [lia|].
  rewrite IH, (IH (0 * 16 + _)), Nat2Z.inj_succ, Z.pow_succ_r by lia. ring.
Qed.

Lemma read_hex_text n val : read_hex (hex_text n val) = wrap (4 * Z.of_nat n) val.
Proof.
  induction n as [|n IH]; cbn [hex_text]; [cbn; unfold wrap; by rewrite Z.mod_1_r|].
  unfold read_hex. cbn [fold_left]. rewrite read_hex_acc, length_hex_text, IH.
  assert (forall d, 0 <= d < 16 -> hex_value (hex_char d) = d) as Hd by (intros d ?; unfold hex_value, hex_char; zcases).
  rewrite Hd by (change 15 with (Z.ones 4); rewrite Z.land_ones by lia; apply Z.mod_pos_bound; lia).
  change 15 with (Z.ones 4). rewrite Z.land_ones, Z.shiftr_div_pow2 by lia. unfold wrap.
  replace (4 * Z.of_nat (S n)) with (4 * Z.of_nat n + 4) by lia. rewrite (Z.pow_add_r 2 (4 * _) 4) by lia.
  rewrite (Z.rem_mul_r val) by lia. change (16 ^ Z.of_nat n) with ((2 ^ 4) ^ Z.of_nat n).
  rewrite <- Z.pow_mul_r by lia. lia.
Qed.

Lemma sprinthex_loop_spec val n : forall i (mid rest : list Z), length mid = n ->
  sprinthex_loop n (Z.of_nat i) (mid ++ hex_text i val ++ rest) val (Z.of_nat (n + i)) = Some (hex_text (n + i) val ++ rest).
Proof.
  induction n as [|n IH]; intros i mid rest Hmid.
  - apply nil_length_inv in Hmid as ->. done.
  - destruct (exists_last (l := mid)) as (mid' & x & ->); [by intros ->|].
    rewrite length_app in Hmid. cbn [length] in Hmid. cbn [sprinthex_loop].
    replace (Z.to_nat (Z.of_nat (S n + i) - 1 - Z.of_nat i)) with (length mid') by lia.
    rewrite array_set_lt by (rewrite !length_app; cbn [length]; lia). cbn [mbind option_bind].
    rewrite <- app_assoc. cbn [app]. rewrite insert_next.
    assert (u8 ((val .>> (Z.of_nat i .<< 2)) .& 0x0F) = (val .>> (4 * Z.of_nat i)) .& 15) as ->.
    { rewrite (Z.shiftl_mul_pow2 _ 2), (Z.mul_comm (Z.of_nat i)) by lia. apply wrap_small.
      change 15 with (Z.ones 4). rewrite Z.land_ones by lia.
      match goal with |- 0 <= ?x mod _ < _ => pose proof (Z.mod_pos_bound x (2 ^ 4) ltac:(lia)) end. lia. }
    fold (hex_char ((val .>> (4 * Z.of_nat i)) .& 15)).
    rewrite <- app_assoc. cbn [app]. change (hex_char ((val .>> (4 * Z.of_nat i)) .& 15) :: hex_text i val ++ rest) with (hex_text (S i) val ++ rest).
    replace (Z.of_nat i + 1) with (Z.of_nat (S i)) by lia.
    replace (S n + i)%nat with (n + S i)%nat by lia. apply IH. lia.
Qed.

(** Sprinthex stores exactly [digits] hexadecimal digits and a NUL at the start of
    the buffer and keeps the rest; read back they are the lowest [digits] digits of
    the value. *)
Theorem sprinthex_reads_back (buffer : list Z) (val digits : Z)
    (Hdigits : 0 <= digits <= 8) (Hlen : digits < Z.of_nat (length buffer)) :
  exists text, sprinthex buffer val digits = Some (text ++ 0 :: drop (Z.to_nat (digits + 1)) buffer) /\
    length text = Z.to_nat digits /\ read_hex text = wrap (4 * digits) val.
Proof.
  exists (hex_text (Z.to_nat digits) val). split; [|split; [apply length_hex_text|by rewrite read_hex_text, Z2Nat.id by lia]].
  unfold sprinthex. rewrite <- (take_drop (Z.to_nat digits) buffer) at 1.
  pose proof (sprinthex_loop_spec val (Z.to_nat digits) 0 (take (Z.to_nat digits) buffer) (drop (Z.to_nat digits) buffer)) as Hl.
  rewrite Nat.add_0_r, Z2Nat.id in Hl by lia. cbn [hex_text app] in Hl. change (Z.of_nat 0) with 0 in Hl. rewrite Hl by (rewrite length_take; lia).
  cbn [mbind option_bind]. destruct (drop (Z.to_nat digits) buffer) as [|c rest] eqn:Edrop.
  { apply (f_equal length) in Edrop. rewrite length_drop in Edrop. cbn [length] in Edrop. lia. }
  rewrite array_set_lt by (rewrite length_app, length_hex_text; cbn [length]; lia).
  rewrite <- (length_hex_text (Z.to_nat digits) val) at 1. rewrite insert_next, <- app_assoc. cbn [app]. do 3 f_equal.
  replace (Z.to_nat (digits + 1)) with (Z.to_nat digits + 1)%nat by lia. by rewrite <- drop_drop, Edrop.
Qed.

(** ** Instances *)

Definition txt (s : string) : list Z := map (fun a => Z.of_N (Ascii.N_of_ascii a)) (String.list_ascii_of_string s).

Lemma format_renders_witness : exists outs,
  vprintf (txt "t=%05d s" ++ [0]) [AInt (-42)] = Some (concat outs) /\
  rendered true [Lit 116; Lit 61; Dir true 5 100; Lit 32; Lit 115] [AInt (-42)] outs.
Proof.
  apply (format_renders true [Lit 116; Lit 61; Dir true 5 100; Lit 32; Lit 115] [AInt (-42)]); [|reflexivity].
  repeat constructor; cbn; lia.
Defined.

Lemma sprinthex_reads_back_witness : exists text,
  sprinthex (repeat 255 10) 0xdeadbeef 4 = Some (text ++ 0 :: repeat 255 5) /\
  length text = 4%nat /\ read_hex text = 0xbeef.
Proof. apply (sprinthex_reads_back (repeat 255 10) 0xdeadbeef 4); cbn; lia. Defined.

Example vprintf_mixed :
  vprintf (txt "a%05d|%x|%s%c%%" ++ [0]) [AInt (-42); AInt 255; AStr (txt "hi" ++ [0]); AInt 33] = Some (txt "a-00042|ff|hi!%").
Proof. reflexivity. Qed.

(** ** Flaws *)

(** sprintf prints a negative number as a large one. *)
Lemma sprintf_unsigned : _p_vsprintf (txt "%d" ++ [0]) [AInt (-1)] = Some (txt "4294967295" ++ [0]).
Proof. reflexivity. Qed.

(** A format that ends in [%] prints a NUL and goes on behind its end. *)
Lemma trailing_percent_overruns args : vprintf (txt "5%" ++ [0]) args = None.
Proof. reflexivity. Qed.
