(* ===== verification/Flash.v ===== *)
(** The flash programmer [eb-flash]: [src/tools/eb-flash.c]. A firmware image is
    written to a flash chip behind a Wishbone bridge: its sector size is measured,
    its sectors are scanned for data, those that have some are erased, the image is
    programmed page by page and read back.

    The chip is hardware: it is an interface with the laws of a NOR flash. *)
From stdpp Require Import base list gmap.
From Stdlib Require Import ZArith Lia.
From S2P Require Import Prelude Widths Store World Linked Cycle Format Target Access Transfer.

Definition MAX_SECTOR_SIZE : Z := 4194304.

(** The settings of the program, after its command line and the probe. [f_format]
    is the chosen access size and endian, 0 before it is chosen; [f_sector_size] is
    0 when the sector size is to be measured. *)
Record settings := mk_settings {
  f_address : Z; f_erase_address : Z; f_format : Z; f_sector_size : Z; f_page_size : Z;
  f_length : Z; f_invert : bool; f_old_erase : bool }.

Definition set_format (format : Z) (o : settings) : settings :=
  mk_settings (f_address o) (f_erase_address o) format (f_sector_size o) (f_page_size o) (f_length o) (f_invert o) (f_old_erase o).

Definition set_sector_size (sector_size : Z) (o : settings) : settings :=
  mk_settings (f_address o) (f_erase_address o) (f_format o) sector_size (f_page_size o) (f_length o) (f_invert o) (f_old_erase o).

Definition f_size (o : settings) : Z := f_format o .& EB_DATAX.
Definition f_endian (o : settings) : Z := f_format o .& EB_ENDIAN_MASK.

(** The largest size that device and connection support, or 0. *)
Definition widest (device_support line_width : Z) : Z :=
  let line_width := line_width .& EB_DATAX in
  let line_width := line_width .| (line_width - 1) in
  (fill_sizes (device_support .& line_width) + 1) .>> 1.

(** The format of the accesses; [None] is an exit with a message. *)
Definition choose_format (device_support endian line_width page_size : Z) : option Z :=
  let endian := if endian =? 0 then device_support .& EB_ENDIAN_MASK else endian in
  if endian =? 0 then None else
  let format := widest device_support line_width in
  if format =? 0 then None
  else if page_size <? format then None
  else Some (format .| endian).

(** * The bitmap of sectors to erase *)

(** Outside of the array: [None]. *)
Definition bitmask_get (bitmap : list Z) (offset : Z) : option Z :=
  let k := Z.quot offset 8 in
  if k <? 0 then None else
  x ← bitmap !! Z.to_nat k;
  Some ((x .>> (offset .& 7)) .& 1).

Definition bitmask_set (bitmap : list Z) (offset : Z) (value : bool) : option (list Z) :=
  let k := Z.quot offset 8 in
  if k <? 0 then None else
  x ← bitmap !! Z.to_nat k;
  let bit := 1 .<< (offset .& 7) in
  array_set bitmap (Z.to_nat k) (u8 (Z.ldiff x bit .| (if value then bit else 0))).

(** * The order of the bits *)

(** [for (i = 0; i < sizeof(eb_data_t); ++i) mask_0f |= mask_0f << 8;] *)
Definition mask_0f : Z := Nat.iter 8 (fun m => m .| wrap 64 (m .<< 8)) 0x0f.

(** One of the three exchanges of [flip_bits]. *)
Definition swap_bits (k mask x : Z) : Z := ((x .>> k) .& mask) .| wrap 64 ((x .& mask) .<< k).

Definition flip_bits (invert : bool) (x : Z) : Z :=
  if negb invert then x else
  let mask := mask_0f in
  let x := swap_bits 4 mask x in
  let mask := mask .^ wrap 64 (mask .<< 2) in
  let x := swap_bits 2 mask x in
  let mask := mask .^ wrap 64 (mask .<< 1) in
  swap_bits 1 mask x.

(** [ffs >>= (sizeof(eb_data_t) - size)*8] *)
Definition ffs (o : settings) : Z := byte_mask (f_size o).

(** * The control register *)

(** The values one cycle writes to the control register: write enable, execute,
    sector erase, the address, execute. *)
Definition erase_values (o : settings) (sector : Z) : list Z :=
  if f_old_erase o then [sector]
  else [0x6; 0x80000000; 0xD8]
    ++ (if negb ((wrap 64 (f_erase_address o - f_address o) .>> 24) =? 0) then [(sector .>> 24) .& 0xFF] else [])
    ++ [(sector .>> 16) .& 0xFF; (sector .>> 8) .& 0xFF; (sector .>> 0) .& 0xFF; 0x80000000].

(** * Cycles *)

(** The operations of the open cycle and the cycles closed before it. *)
Record packer := mk_packer { pk_ops : Z; pk_cycle : list access; pk_closed : list (list access) }.

Definition pack (x : access) (p : packer) : packer := mk_packer (pk_ops p + 1) (pk_cycle p ++ [x]) (pk_closed p).
Definition close_cycle (p : packer) : packer := mk_packer 0 [] (pk_closed p ++ [pk_cycle p]).
Definition new_packer : packer := mk_packer 0 [] [].

(** [if (ops > 0) eb_cycle_close(cycle); else eb_cycle_abort(cycle);] *)
Definition finish_packer (p : packer) : list (list access) := pk_closed (if 0 <? pk_ops p then close_cycle p else p).

(** * The chip *)

Class FlashChip (F : Type) := {
  chip_byte : F -> Z -> Z;
  chip_program : F -> Z -> Z -> F;
  chip_control : F -> list Z -> F }.

Section flash.
Context {F : Type} {chip : FlashChip F} (o : settings).

Definition chip_word (f : F) (a : Z) : Z :=
  word_val (f_endian o) (map (fun i => chip_byte f (a + Z.of_nat i)) (seq 0 (Z.to_nat (f_size o)))).

Fixpoint program_bytes (f : F) (a : Z) (l : list Z) : F :=
  match l with
  | [] => f
  | v :: rest => program_bytes (chip_program f a v) (a + 1) rest
  end.

(** A write to the flash, and a cycle of them. *)
Definition program_access (f : F) (x : access) : F :=
  program_bytes f (a_address x) (word_bytes (f_endian o) (a_size x) (a_value x)).

Definition program_cycle (f : F) (cycle : list access) : F := fold_left program_access cycle f.

(** The cycle to the control register, and waiting for its end. *)
Definition erase_sector (f : F) (sector : Z) : F := chip_control f (erase_values o sector).

(** ** Measuring the sector size *)

(** [target &= ~(size-1)] *)
Definition align_to (size target : Z) : Z := Z.ldiff target (size - 1).

(** The first size whose sector around [target] does not fit between [address] and
    [end_], or that is large enough. *)
Fixpoint grow_sector (fuel : nat) (sector_size target end_ : Z) : option Z :=
  if (f_address o <=? target) && (wrap 64 (target + sector_size - 1) <=? end_) then
    match fuel with
    | O => None
    | S fuel' =>
      let sector_size := wrap 64 (sector_size .<< 1) in
      if MAX_SECTOR_SIZE <=? sector_size then Some sector_size
      else grow_sector fuel' sector_size (align_to sector_size target) end_
    end
  else Some sector_size.

(** [for (sector_size = page_size; sector_size < max_size; sector_size <<= 1)]: the
    sizes the loop goes through. *)
Fixpoint test_sizes (fuel : nat) (sector_size max_size : Z) : option (list Z) :=
  if sector_size <? max_size then
    match fuel with
    | O => None
    | S fuel' => rest ← test_sizes fuel' (wrap 64 (sector_size .<< 1)) max_size; Some (sector_size :: rest)
    end
  else Some [].

(** The callback, for the words read back in their order. *)
Fixpoint find_sector_size (result : Z) (data : list Z) : Z :=
  match data with
  | [] => result
  | v :: rest => if negb (v =? 0) then find_sector_size (wrap 64 (result .<< 1)) rest else result
  end.

Definition detect_sector_size (fuel : nat) (f : F) : option (Z * F) :=
  let end_ := wrap 64 (f_address o + f_length o - 1) in
  let target := wrap 64 (f_address o + f_length o / 2) in
  sector_size ← grow_sector fuel (f_page_size o) (align_to (f_page_size o) target) end_;
  let max_size := sector_size .>> 1 in
  let target := align_to max_size target in
  sizes ← test_sizes fuel (f_page_size o) max_size;
  let places := map (fun s => wrap 64 (target + s)) sizes in
  let f := fold_left program_access (map (fun a => mk_access true false a (f_format o) 0) places) f in
  let f := erase_sector f target in
  Some (find_sector_size (f_page_size o) (map (chip_word f) places), f).

(** ** The quick scan *)

Definition first_sector : Z := f_address o / f_sector_size o * f_sector_size o.
Definition last_sector : Z :=
  wrap 64 (f_address o + f_length o + f_sector_size o - 1) / f_sector_size o * f_sector_size o.

(** [for (position = ...; position != last_position; position += size)] *)
Fixpoint read_span (fuel : nat) (position last_position : Z) (p : packer) : option packer :=
  if position =? last_position then Some p
  else match fuel with
  | O => None
  | S fuel' =>
    let p := pack (mk_access false false position (f_format o) 0) p in
    let p := if pk_ops p =? f_page_size o / f_size o then close_cycle p else p in
    read_span fuel' (wrap 64 (position + f_size o)) last_position p
  end.

(** The loop over the sectors. Its answers come in later; they only set the bits of
    sectors that were already passed. *)
Fixpoint scan_sectors (fuel : nat) (sector i offset len : Z) (bitmap : list Z) (p : packer) : option packer :=
  if sector =? last_sector then Some p
  else match fuel with
  | O => None
  | S fuel' =>
    bit ← bitmask_get bitmap i;
    p ← (if negb (bit =? 0) then Some p
         else read_span (Z.to_nat len) (wrap 64 (sector + offset)) (wrap 64 (sector + offset + len)) p);
    scan_sectors fuel' (wrap 64 (sector + f_sector_size o)) (i + 1) offset len bitmap p
  end.

(** [detect_decrement] for one cycle that was answered without errors. *)
Fixpoint detect_decrement (f : F) (bitmap : list Z) (cycle : list access) : option (list Z) :=
  match cycle with
  | [] => Some bitmap
  | x :: rest =>
    bitmap ← (if negb (chip_word f (a_address x) =? ffs o)
              then bitmask_set bitmap (s32 (wrap 64 (a_address x - f_address o) / f_sector_size o)) true
              else Some bitmap);
    detect_decrement f bitmap rest
  end.

Definition quick_scan_gap (fuel : nat) (f : F) (offset len : Z) (bitmap : list Z) : option (list Z) :=
  p ← scan_sectors fuel first_sector 0 offset len bitmap new_packer;
  detect_decrement f bitmap (concat (finish_packer p)).

(** [for (offset = gap; offset != sector_size; offset += gap, gap += gap)] *)
Fixpoint gap_loop (steps fuel : nat) (f : F) (offset gap : Z) (bitmap : list Z) : option (list Z) :=
  if offset =? f_sector_size o then Some bitmap
  else match steps with
  | O => None
  | S steps' =>
    bitmap ← quick_scan_gap fuel f offset gap bitmap;
    gap_loop steps' fuel f (wrap 64 (offset + gap)) (wrap 64 (gap + gap)) bitmap
  end.

Definition quick_scan (fuel : nat) (f : F) (bitmap : list Z) : option (list Z) :=
  bitmap ← quick_scan_gap fuel f 0 8 bitmap;
  gap_loop 64 fuel f 8 8 bitmap.

(** ** Erasing, programming, verifying *)

Fixpoint erase_sectors (fuel : nat) (sector i : Z) (bitmap : list Z) (f : F) : option F :=
  if sector =? last_sector then Some f
  else match fuel with
  | O => None
  | S fuel' =>
    bit ← bitmask_get bitmap i;
    erase_sectors fuel' (wrap 64 (sector + f_sector_size o)) (i + 1) bitmap
      (if bit =? 0 then f else erase_sector f sector)
  end.

Definition erase_flash (fuel : nat) (bitmap : list Z) (f : F) : option F := erase_sectors fuel first_sector 0 bitmap f.

(** One word of the firmware as an operand: [None] is a short read. *)
Definition read_firmware (file : list Z) : option (Z * list Z) :=
  let n := Z.to_nat (f_size o) in
  if (length file <? n)%nat then None else Some (put_value (f_endian o) (take n file), drop n file).

Fixpoint program_loop (fuel : nat) (offset stop_offset : Z) (file : list Z) (may_skip_ffs : bool) (p : packer) : option (list (list access)) :=
  if offset =? stop_offset then Some (finish_packer p)
  else match fuel with
  | O => None
  | S fuel' =>
    '(data, file) ← read_firmware file;
    let next := wrap 64 (offset + f_size o) in
    if may_skip_ffs && (data =? ffs o) then program_loop fuel' next stop_offset file may_skip_ffs p
    else if offset =? f_erase_address o then program_loop fuel' next stop_offset file may_skip_ffs p
    else
      let p := pack (mk_access true false offset (f_format o) (flip_bits (f_invert o) data)) p in
      if next mod f_page_size o =? 0
      then program_loop fuel' next stop_offset file true (close_cycle p)
      else program_loop fuel' next stop_offset file false p
  end.

Definition program_flash (fuel : nat) (firmware : list Z) (f : F) : option F :=
  cycles ← program_loop fuel (f_address o) (wrap 64 (f_address o + f_length o)) firmware true new_packer;
  Some (fold_left program_cycle cycles f).

Fixpoint verify_loop (fuel : nat) (offset stop_offset : Z) (p : packer) : option (list (list access)) :=
  if offset =? stop_offset then Some (finish_packer p)
  else match fuel with
  | O => None
  | S fuel' =>
    let p := pack (mk_access false false offset (f_format o) 0) p in
    let next := wrap 64 (offset + f_size o) in
    verify_loop fuel' next stop_offset (if next mod f_page_size o =? 0 then close_cycle p else p)
  end.

(** The position in the firmware file and [last_offset]. *)
Record checker := mk_checker { ck_pos : Z; ck_last : Z }.

(** One operation of [verify_decrement]: [None] is [exit(1)]. *)
Definition verify_answer (firmware : list Z) (c : checker) (x : access * Z) : option checker :=
  let a := a_address (fst x) in
  let c := if negb (ck_last c =? a) then mk_checker (wrap 64 (a - f_address o)) a else c in
  '(data, _) ← read_firmware (drop (Z.to_nat (ck_pos c)) firmware);
  if negb (snd x =? flip_bits (f_invert o) data) then None
  else Some (mk_checker (ck_pos c + f_size o) (wrap 64 (ck_last c + f_size o))).

Fixpoint verify_answers (firmware : list Z) (c : checker) (l : list (access * Z)) : option checker :=
  match l with
  | [] => Some c
  | x :: rest => c ← verify_answer firmware c x; verify_answers firmware c rest
  end.

(** The words of the chip are what the cycles return. *)
Definition verify_flash (fuel : nat) (firmware : list Z) (f : F) : option unit :=
  cycles ← verify_loop fuel (f_address o) (wrap 64 (f_address o + f_length o)) new_packer;
  verify_answers firmware (mk_checker (f_length o) (2 ^ 64 - 1))
    (map (fun x => (x, chip_word f (a_address x))) (concat cycles));;
  Some tt.

(** ** The whole run *)

Definition erase_bitmap_size : Z := f_length o / f_page_size o / 8.

(** With the bitmap that [calloc] cleared. *)
Definition flash_image (fuel : nat) (full verify : bool) (firmware : list Z) (f : F) : option F :=
  bitmap ← (if full then Some (repeat 0xFF (Z.to_nat erase_bitmap_size))
            else quick_scan fuel f (repeat 0 (Z.to_nat erase_bitmap_size)));
  f ← erase_flash fuel bitmap f;
  f ← program_flash fuel firmware f;
  (if verify then verify_flash fuel firmware f else Some tt);;
  Some f.
End flash.

(** The program from the test of the length on. [None] is an exit with a message, or
    too little [fuel]. *)
Definition eb_flash {F} {chip : FlashChip F} (fuel : nat) (full verify : bool) (device_support endian line_width : Z)
    (o : settings) (firmware : list Z) (f : F) : option F :=
  if negb (f_length o mod f_page_size o =? 0) then None
  else if negb (f_address o mod f_page_size o =? 0) then None
  else
    format ← choose_format device_support endian line_width (f_page_size o);
    let o := set_format format o in
    '(o, f) ← (if f_sector_size o =? 0
               then '(sector_size, f) ← detect_sector_size o fuel f; Some (set_sector_size sector_size o, f)
               else Some (o, f));
    flash_image o fuel full verify firmware f.
