(* ===== verification/FlashCorrect.v ===== *)
(** eb-flash leaves the image in the flash: the bitmap, the order of bits, the scan,
    erasing, programming and verifying of Flash.v against a chip with the laws of
    a NOR flash. *)
From stdpp Require Import base list gmap.
From Stdlib Require Import ZArith Lia.
From S2P Require Import Prelude Widths Store World Linked Cycle Format Valid Target Access Transfer TransferCorrect Flash.

(** * The bitmap *)

Definition marked (bitmap : list Z) (i : Z) : bool := Z.testbit (nth (Z.to_nat (i / 8)) bitmap 0) (i mod 8).

Definition in_bitmap (bitmap : list Z) (i : Z) : Prop := 0 <= i < 8 * Z.of_nat (length bitmap).

Lemma bitmap_index i : 0 <= i -> Z.quot i 8 = i / 8 /\ (i .& 7) = i mod 8 /\ (Z.quot i 8 <? 0) = false.
Proof.
  intros Hi. rewrite Z.quot_div_nonneg by lia. split; [done|]. split; [by change 7 with (Z.ones 3); rewrite Z.land_ones by lia|].
  apply Z.ltb_ge, Z.div_pos; lia.
Qed.

Lemma bitmap_cell bitmap i : in_bitmap bitmap i ->
  (Z.to_nat (i / 8) < length bitmap)%nat /\ bitmap !! Z.to_nat (i / 8) = Some (nth (Z.to_nat (i / 8)) bitmap 0).
Proof.
  intros [Hi Hlt]. assert (Z.to_nat (i / 8) < length bitmap)%nat as Hn.
  { apply Z.div_lt_upper_bound in Hlt; [|lia]. pose proof (Z.div_pos i 8). lia. }
  split; [done|]. destruct (lookup_lt_is_Some_2 bitmap (Z.to_nat (i / 8)) Hn) as [x Hx]. by rewrite nth_lookup, Hx.
Qed.

Lemma bitmask_get_spec bitmap i : in_bitmap bitmap i -> bitmask_get bitmap i = Some (Z.b2z (marked bitmap i)).
Proof.
  intros Hi. destruct (bitmap_cell bitmap i Hi) as [_ Hcell]. destruct (bitmap_index i (proj1 Hi)) as (Hq & Hm & Hlt).
  unfold bitmask_get. rewrite Hlt, Hq, Hcell, Hm. cbn [mbind option_bind]. unfold marked.
  change 1 with (Z.ones 1). rewrite Z.land_ones, Z.shiftr_div_pow2 by (try apply Z.mod_pos_bound; lia).
  change (2 ^ 1) with 2. rewrite <- Z.testbit_spec' by (apply Z.mod_pos_bound; lia). done.
Qed.

Lemma bitmask_set_spec bitmap i : in_bitmap bitmap i -> exists bitmap', bitmask_set bitmap i true = Some bitmap' /\
  length bitmap' = length bitmap /\ forall j, 0 <= j -> marked bitmap' j = (i =? j) || marked bitmap j.
Proof.
  intros Hi. destruct (bitmap_cell bitmap i Hi) as [Hn Hcell]. destruct (bitmap_index i (proj1 Hi)) as (Hq & Hm & Hlt).
  unfold bitmask_set. rewrite Hlt, Hq, Hcell, Hm. cbn [mbind option_bind]. rewrite array_set_lt by done.
  eexists. split; [reflexivity|]. split; [by rewrite length_insert|]. intros j Hj. unfold marked.
  pose proof (Z.mod_pos_bound i 8 ltac:(lia)) as Hmi. pose proof (Z.mod_pos_bound j 8 ltac:(lia)) as Hmj.
  rewrite !nth_lookup. destruct (Z.eq_dec (j / 8) (i / 8)) as [Heq|Hne].
  - rewrite Heq, list_lookup_insert_eq by done. cbn [default from_option]. unfold id.
    unfold wrap. rewrite Z.mod_pow2_bits_low by lia.
    rewrite Z.lor_spec, Z.ldiff_spec, Z.shiftl_spec by lia.
    destruct (Z.eqb_spec i j) as [<-|Hij].
    + rewrite Z.sub_diag. cbn [Z.testbit negb]. rewrite orb_true_r. done.
    + assert (i mod 8 <> j mod 8) as Hd.
      { intros Hmod. apply Hij. rewrite (Z.div_mod i 8), (Z.div_mod j 8), Heq, Hmod by lia. done. }
      assert (Z.testbit 1 (j mod 8 - i mod 8) = false) as ->.
      { destruct (Z.ltb_spec (j mod 8) (i mod 8)); [by rewrite Z.testbit_neg_r by lia|]. apply Z.bits_above_log2; cbn; lia. }
      cbn [negb orb]. rewrite andb_true_r, orb_false_r. rewrite <- nth_lookup. done.
  - assert ((i =? j) = false) as -> by (apply Z.eqb_neq; intros ->; done).
    rewrite list_lookup_insert_ne; [done|]. pose proof (Z.div_pos i 8). pose proof (Z.div_pos j 8). lia.
Qed.

Lemma marked_repeat x k i : in_bitmap (repeat x k) i -> marked (repeat x k) i = Z.testbit x (i mod 8).
Proof.
  intros Hi. destruct (bitmap_cell _ i Hi) as [Hn _]. unfold marked. rewrite repeat_length in Hn.
  by rewrite nth_repeat_lt by done.
Qed.

(** * The order of the bits *)

(** A mask that has [k] of every [2 * k] bits. *)
Lemma swap_bits_spec k mask x j : 0 < k -> (forall i, 0 <= i < 64 -> Z.testbit mask i = (i mod (2 * k) <? k)) ->
  0 <= mask < 2 ^ 64 -> 64 mod (2 * k) = 0 -> 0 <= j < 64 ->
  Z.testbit (swap_bits k mask x) j = Z.testbit x (if j mod (2 * k) <? k then j + k else j - k).
Proof.
  intros Hk Hmask Hm H64 Hj. unfold swap_bits. rewrite Z.lor_spec, Z.land_spec, Z.shiftr_spec by lia.
  unfold wrap. rewrite Z.mod_pow2_bits_low, Z.shiftl_spec, Z.land_spec, Hmask by lia.
  pose proof (Z.mod_pos_bound j (2 * k) ltac:(lia)) as Hr. pose proof (Z.div_mod j (2 * k) ltac:(lia)) as Hdm.
  destruct (Z.ltb_spec (j mod (2 * k)) k) as [Hlt|Hge].
  - rewrite andb_true_r.
    replace (Z.testbit x (j - k) && Z.testbit mask (j - k)) with false; [by rewrite orb_false_r|].
    destruct (Z.ltb_spec j k); [by rewrite (Z.testbit_neg_r mask), andb_false_r by lia|].
    rewrite Hmask by lia.
    assert ((j - k) mod (2 * k) = j mod (2 * k) + k) as ->.
    { symmetry. apply Z.mod_unique with (j / (2 * k) - 1); lia. }
    rewrite (proj2 (Z.ltb_ge _ _)) by lia. by rewrite andb_false_r.
  - rewrite andb_false_r. cbn [orb]. rewrite Hmask by (pose proof (Z.div_pos j (2 * k)); nia).
    assert ((j - k) mod (2 * k) = j mod (2 * k) - k) as ->.
    { symmetry. apply Z.mod_unique with (j / (2 * k)); lia. }
    rewrite (proj2 (Z.ltb_lt _ _)) by lia. by rewrite andb_true_r.
Qed.

Lemma mask_bits mask k : forallb (fun i => Bool.eqb (Z.testbit mask i) (i mod (2 * k) <? k)) (map Z.of_nat (seq 0 64)) = true ->
  forall i, 0 <= i < 64 -> Z.testbit mask i = (i mod (2 * k) <? k).
Proof.
  intros H i Hi. apply (proj1 (forallb_forall _ _)) with (x := i) in H; [by apply eqb_prop|].
  apply in_map_iff. exists (Z.to_nat i). split; [lia|]. apply in_seq. lia.
Qed.

(** [flip_bits] reverses the bits of every byte. *)
Lemma flip_bits_testbit x j : 0 <= j < 64 -> Z.testbit (flip_bits true x) j = Z.testbit x (8 * (j / 8) + (7 - j mod 8)).
Proof.
  intros Hj. unfold flip_bits. cbn [negb]. cbv zeta.
  set (m4 := mask_0f). set (m2 := m4 .^ wrap 64 (m4 .<< 2)). set (m1 := m2 .^ wrap 64 (m2 .<< 1)).
  assert (Hin : forall j k, 0 < k -> 64 mod (2 * k) = 0 -> 0 <= j < 64 -> 0 <= (if j mod (2 * k) <? k then j + k else j - k) < 64).
  { clear. intros j k Hk H64 Hj. pose proof (Z.mod_pos_bound j (2 * k) ltac:(lia)).
    pose proof (Z.div_mod j (2 * k) ltac:(lia)). pose proof (Z.div_mod 64 (2 * k) ltac:(lia)).
    pose proof (Z.div_pos j (2 * k) ltac:(lia) ltac:(lia)).
    assert (j / (2 * k) < 64 / (2 * k)) by (apply Z.div_lt_upper_bound; [lia|]; lia).
    destruct (Z.ltb_spec (j mod (2 * k)) k); nia. }
  assert (Hswap : forall k mask x j, 0 < k -> 64 mod (2 * k) = 0 -> (0 <=? mask) && (mask <? 2 ^ 64) = true ->
    forallb (fun i => Bool.eqb (Z.testbit mask i) (i mod (2 * k) <? k)) (map Z.of_nat (seq 0 64)) = true -> 0 <= j < 64 ->
    Z.testbit (swap_bits k mask x) j = Z.testbit x (if j mod (2 * k) <? k then j + k else j - k)).
  { clear. intros k mask x j Hk H64 Hr Hb Hj. apply andb_true_iff in Hr as [Hr1%Z.leb_le Hr2%Z.ltb_lt].
    by apply swap_bits_spec; [|apply mask_bits|..]. }
  assert (Hin1 := Hin j 1 ltac:(done) ltac:(done) Hj). assert (Hin2 := Hin _ 2 ltac:(done) ltac:(done) Hin1).
  rewrite (Hswap 1) by (by vm_compute || done). rewrite (Hswap 2) by (by vm_compute || done).
  rewrite (Hswap 4) by (by vm_compute || done).
  f_equal.
  assert (forallb (fun j => let j1 := if j mod (2 * 1) <? 1 then j + 1 else j - 1 in
    let j2 := if j1 mod (2 * 2) <? 2 then j1 + 2 else j1 - 2 in
    (if j2 mod (2 * 4) <? 4 then j2 + 4 else j2 - 4) =? 8 * (j / 8) + (7 - j mod 8)) (map Z.of_nat (seq 0 64)) = true) as H by by vm_compute.
  apply (proj1 (forallb_forall _ _)) with (x := j) in H; [by apply Z.eqb_eq in H|].
  apply in_map_iff. exists (Z.to_nat j). split; [lia|]. apply in_seq. lia.
Qed.

(** Bits above [n] are clear. *)
Lemma bits_bound x n : 0 <= n -> 0 <= x -> (forall j, n <= j -> Z.testbit x j = false) -> 0 <= x < 2 ^ n.
Proof.
  intros Hn Hx Hbits. assert (x mod 2 ^ n = x) as <-; [|apply Z.mod_pos_bound; lia].
  apply Z.bits_inj'. intros j Hj. destruct (Z.ltb_spec j n); [by rewrite Z.mod_pow2_bits_low by lia|].
  rewrite Z.mod_pow2_bits_high by lia. by rewrite Hbits by lia.
Qed.

Lemma swap_bits_range k mask x : 0 <= k -> 0 <= mask < 2 ^ 64 -> 0 <= swap_bits k mask x < 2 ^ 64.
Proof.
  intros Hk Hm. pose proof (wrap_range 64 ((x .& mask) .<< k) ltac:(lia)) as Hw. unfold swap_bits.
  assert (0 <= (x .>> k) .& mask) by (apply Z.land_nonneg; lia).
  apply bits_bound; [lia|apply Z.lor_nonneg; lia|]. intros j Hj.
  rewrite Z.lor_spec, Z.land_spec, (testbit_above mask 64), (testbit_above (wrap 64 _) 64), andb_false_r by lia. done.
Qed.

Lemma flip_bits_range invert n x : (n <= 8)%nat -> 0 <= x < 2 ^ (8 * Z.of_nat n) -> 0 <= flip_bits invert x < 2 ^ (8 * Z.of_nat n).
Proof.
  intros Hn Hx. destruct invert; [|done].
  assert (0 <= flip_bits true x < 2 ^ 64) as Hr.
  { unfold flip_bits. cbn [negb]. cbv zeta. apply swap_bits_range; [lia|]. split; vm_compute; discriminate || done. }
  apply bits_bound; [lia|lia|]. intros j Hj.
  destruct (Z.ltb_spec j 64); [|by apply (testbit_above _ 64)].
  rewrite flip_bits_testbit by lia. apply (testbit_above _ (8 * Z.of_nat n)); [done|].
  pose proof (Z.mod_pos_bound j 8 ltac:(lia)). pose proof (Z.div_mod j 8 ltac:(lia)).
  assert (Z.of_nat n <= j / 8) by (apply Z.div_le_lower_bound; lia). lia.
Qed.

Lemma flip_bits_bytes invert n x : (n <= 8)%nat -> be_bytes n (flip_bits invert x) = map (flip_bits invert) (be_bytes n x).
Proof.
  intros Hn. destruct invert; [|by rewrite map_id].
  induction n as [|n IH]; [done|]. cbn [be_bytes map]. rewrite IH by lia. f_equal.
  change 255 with (Z.ones 8). apply Z.bits_inj'. intros j Hj. rewrite Z.land_spec, Z.shiftr_spec by lia.
  destruct (Z.ltb_spec j 8) as [Hlt|Hge].
  - rewrite Z.ones_spec_low, andb_true_r, !flip_bits_testbit by lia.
    rewrite (Z.div_small j), (Z.mod_small j) by lia. rewrite Z.land_spec, Z.ones_spec_low, Z.shiftr_spec, andb_true_r by lia.
    f_equal. replace (j + 8 * Z.of_nat n) with (j + Z.of_nat n * 8) by lia.
    rewrite Z.mod_add, Z.div_add, (Z.div_small j), (Z.mod_small j) by lia. lia.
  - rewrite Z.ones_spec_high, andb_false_r by lia. symmetry.
    apply (testbit_above _ 8); [|done]. apply (flip_bits_range true 1); [lia|].
    rewrite Z.land_ones by lia. apply Z.mod_pos_bound. lia.
Qed.

Lemma flip_byte invert b : is_byte b -> is_byte (flip_bits invert b).
Proof. intros Hb. by apply (flip_bits_range invert 1); [lia|]. Qed.

(** Reversing a word reverses its bytes one by one. *)
Lemma flip_word invert e l : bytes_ok l -> (length l <= 8)%nat ->
  flip_bits invert (word_val e l) = word_val e (map (flip_bits invert) l).
Proof.
  intros Hok Hlen. unfold word_val.
  assert (forall l, bytes_ok l -> (length l <= 8)%nat -> flip_bits invert (be_val l) = be_val (map (flip_bits invert) l)) as H.
  { clear. intros l Hok Hlen. pose proof (be_val_range l Hok) as Hr. rewrite pow256 in Hr by lia.
    rewrite <- (be_bytes_val l Hok) at 2. rewrite <- flip_bits_bytes by done. rewrite be_val_bytes, wrap_small; [done|].
    by apply flip_bits_range. }
  destruct (e =? EB_BIG_ENDIAN); [by apply H|].
  rewrite <- map_rev. apply H; [by apply Forall_rev|by rewrite length_rev].
Qed.

Lemma Forall_repeat {A} (P : A -> Prop) x n : P x -> Forall P (repeat x n).
Proof. intros Hx. induction n; by constructor. Qed.

(** A word of [ffs] is made of bytes 255. *)
Lemma ffs_word e n l : bytes_ok l -> length l = Z.to_nat n -> 1 <= n <= 8 -> word_val e l = byte_mask n <-> Forall (eq 255) l.
Proof.
  intros Hok Hlen Hn. rewrite byte_mask_ones by lia.
  assert (forall k, be_val (repeat 255 k) = Z.ones (8 * Z.of_nat k)) as Hones.
  { intros k. induction k as [|k IH]; [done|]. cbn [repeat]. rewrite be_val_cons, IH, repeat_length, pow256 by lia.
    rewrite !Z.ones_equiv. replace (8 * Z.of_nat (S k)) with (8 * Z.of_nat k + 8) by lia. rewrite Z.pow_add_r by lia. lia. }
  assert (word_val e (repeat 255 (Z.to_nat n)) = Z.ones (8 * n)) as Hw.
  { unfold word_val. replace (8 * n) with (8 * Z.of_nat (Z.to_nat n)) by lia. rewrite <- Hones. destruct (e =? EB_BIG_ENDIAN); [done|].
    by rewrite rev_repeat. }
  split.
  - intros Hv. rewrite <- Hw in Hv. apply (f_equal (word_bytes e (Z.to_nat n))) in Hv.
    rewrite !word_bytes_val_len in Hv by first [done|apply repeat_length|apply Forall_repeat; lia].
    rewrite Hv. by apply Forall_repeat.
  - intros Hf. rewrite <- Hw. f_equal. rewrite <- Hlen. clear -Hf. induction Hf as [|? l <- _ IH]; [done|]. cbn. by f_equal.
Qed.

(** * The chip *)

Definition in_sector (sector s x : Z) : bool := x / sector =? s / sector.

Lemma in_sector_aligned sector s x : 0 < sector -> s mod sector = 0 ->
  in_sector sector s x = (s <=? x) && (x <? s + sector).
Proof.
  intros Hp Hs. unfold in_sector. apply Z.mod_divide in Hs as [q ->]; [|lia]. rewrite Z.div_mul by lia.
  pose proof (Z.div_mod x sector ltac:(lia)) as Hx. pose proof (Z.mod_pos_bound x sector ltac:(lia)) as Hr.
  destruct (Z.eqb_spec (x / sector) q) as [Heq|Hne].
  - symmetry. apply andb_true_intro. split; [apply Z.leb_le|apply Z.ltb_lt]; nia.
  - symmetry. apply andb_false_iff. rewrite Z.leb_gt, Z.ltb_ge. destruct (Z.lt_ge_cases (x / sector) q); [left|right]; nia.
Qed.

(** A NOR flash at the address [base]: programming clears bits, the erase command
    (write enable, execute, 0xD8, three or four bytes of the offset, execute) and the
    hardware command of old designs set the bytes of a sector to 255. *)
Class NorFlash (F : Type) {chip : FlashChip F} (base sector : Z) := {
  nor_byte : forall f a, is_byte (chip_byte f a);
  nor_program : forall f a v x, is_byte v ->
    chip_byte (chip_program f a v) x = if x =? a then chip_byte f x .& v else chip_byte f x;
  nor_erase : forall f l x, bytes_ok l -> length l = 3%nat \/ length l = 4%nat ->
    chip_byte (chip_control f ([0x6; 0x80000000; 0xD8] ++ l ++ [0x80000000])) x =
      if in_sector sector (base + be_val l) x then 255 else chip_byte f x;
  nor_erase_old : forall f s x,
    chip_byte (chip_control f [s]) x = if in_sector sector s x then 255 else chip_byte f x }.

(** The sectors the erase command can name. *)
Definition erasable (o : settings) (s : Z) : Prop :=
  if f_old_erase o then True
  else let w := if wrap 64 (f_erase_address o - f_address o) .>> 24 =? 0 then 24 else 32 in
    f_address o mod 2 ^ w = 0 /\ f_address o <= s < f_address o + 2 ^ w.

Section chip.
Context {F : Type} {chip : FlashChip F} (o : settings) (sector : Z) {nor : NorFlash F (f_address o) sector}.

#[local] Abbreviation A := (f_address o).
#[local] Abbreviation size := (f_size o).
#[local] Abbreviation e := (f_endian o).

Lemma erase_sector_spec f s x : erasable o s ->
  chip_byte (erase_sector o f s) x = if in_sector sector s x then 255 else chip_byte f x.
Proof.
  unfold erasable, erase_sector, erase_values. destruct (f_old_erase o); [intros _; apply nor_erase_old|].
  set (wide := wrap 64 (f_erase_address o - A) .>> 24 =? 0). intros [Hbase Hs].
  set (n := if wide then 3%nat else 4%nat).
  assert (A + be_val (be_bytes n s) = s) as Hv.
  { rewrite be_val_bytes. subst n. unfold wrap. destruct wide.
    - change (8 * Z.of_nat 3) with 24. rewrite (Z.div_mod A (2 ^ 24)), Hbase in Hs |- * by lia.
      replace s with (s - 2 ^ 24 * (A / 2 ^ 24) + A / 2 ^ 24 * 2 ^ 24) at 1 by lia.
      rewrite Z.mod_add, Z.mod_small by lia. lia.
    - change (8 * Z.of_nat 4) with 32. rewrite (Z.div_mod A (2 ^ 32)), Hbase in Hs |- * by lia.
      replace s with (s - 2 ^ 32 * (A / 2 ^ 32) + A / 2 ^ 32 * 2 ^ 32) at 1 by lia.
      rewrite Z.mod_add, Z.mod_small by lia. lia. }
  assert (([0x6; 0x80000000; 0xD8] ++ (if negb wide then [(s .>> 24) .& 0xFF] else []) ++
    [(s .>> 16) .& 0xFF; (s .>> 8) .& 0xFF; (s .>> 0) .& 0xFF; 0x80000000]) =
    [0x6; 0x80000000; 0xD8] ++ be_bytes n s ++ [0x80000000]) as -> by (subst n; by destruct wide).
  rewrite nor_erase by (apply be_bytes_ok || rewrite length_be_bytes; subst n; destruct wide; auto).
  by rewrite Hv.
Qed.

Lemma program_bytes_spec l : bytes_ok l -> forall f a x,
  chip_byte (program_bytes f a l) x =
  if (a <=? x) && (x <? a + Z.of_nat (length l)) then chip_byte f x .& nth (Z.to_nat (x - a)) l 0 else chip_byte f x.
Proof.
  induction 1 as [|v l Hv Hl IH]; intros f a x; cbn [program_bytes length].
  { by destruct (Z.leb_spec a x), (Z.ltb_spec x (a + Z.of_nat 0)); [lia|..]. }
  rewrite IH, nor_program by done. rewrite Nat2Z.inj_succ.
  destruct (Z.eqb_spec x a) as [->|Hne].
  - rewrite Z.leb_refl, (proj2 (Z.leb_gt (a + 1) a)), (proj2 (Z.ltb_lt a (a + Z.succ (Z.of_nat (length l))))), Z.sub_diag by lia. done.
  - replace (a + 1 + Z.of_nat (length l)) with (a + Z.succ (Z.of_nat (length l))) by lia.
    destruct (Z.leb_spec (a + 1) x), (Z.leb_spec a x); try lia; [|done].
    destruct (x <? _); [|done]. cbn [andb].
    replace (Z.to_nat (x - a)) with (S (Z.to_nat (x - (a + 1)))) by lia. done.
Qed.

(** The bytes of a word of the chip. *)
Definition chip_bytes (f : F) (a : Z) (n : nat) : list Z := map (fun i => chip_byte f (a + Z.of_nat i)) (seq 0 n).

Lemma chip_bytes_ok f a n : bytes_ok (chip_bytes f a n).
Proof. apply Forall_forall. intros y Hy. apply list_elem_of_In, in_map_iff in Hy as (i & <- & _). apply nor_byte. Qed.

Lemma length_chip_bytes f a n : length (chip_bytes f a n) = n.
Proof. unfold chip_bytes. by rewrite length_map, length_seq. Qed.

Lemma chip_word_data f a : 1 <= size <= 8 ->
  negb (chip_word o f a =? ffs o) = true <-> exists x, a <= x < a + size /\ chip_byte f x <> 255.
Proof.
  intros Hs. rewrite negb_true_iff, Z.eqb_neq. unfold chip_word, ffs.
  rewrite (ffs_word e size (chip_bytes f a (Z.to_nat size))); [|apply chip_bytes_ok|apply length_chip_bytes|done].
  unfold chip_bytes. split.
  - intros H. apply not_Forall_Exists in H; [|solve_decision]. apply Exists_exists in H as (y & Hy & Hne).
    apply list_elem_of_In, in_map_iff in Hy as (i & <- & Hi%in_seq). exists (a + Z.of_nat i). split; [lia|congruence].
  - intros (x & Hx & Hne) H. apply Hne. symmetry. rewrite Forall_forall in H. apply H, list_elem_of_In, in_map_iff.
    exists (Z.to_nat (x - a)). split; [f_equal; lia|]. apply in_seq. lia.
Qed.
End chip.

(** * The cycles of the loops *)

Definition packed (p : packer) : list access := concat (pk_closed p) ++ pk_cycle p.

(** [ops] counts the operations of the open cycle. *)
Definition counted (p : packer) : Prop := pk_ops p = Z.of_nat (length (pk_cycle p)).

Lemma packed_pack x p : packed (pack x p) = packed p ++ [x].
Proof. unfold packed. cbn. by rewrite app_assoc. Qed.

Lemma packed_close p : packed (close_cycle p) = packed p.
Proof. unfold packed. cbn. by rewrite concat_app, app_nil_r; cbn; rewrite app_nil_r. Qed.

Lemma counted_pack x p : counted p -> counted (pack x p).
Proof. unfold counted. cbn. intros ->. rewrite length_app. cbn. lia. Qed.

Lemma packed_finish p : counted p -> concat (finish_packer p) = packed p.
Proof.
  unfold counted, finish_packer. intros Hc. destruct (Z.ltb_spec 0 (pk_ops p)).
  - rewrite <- packed_close. unfold packed. cbn. by rewrite app_nil_r.
  - unfold packed. destruct (pk_cycle p); [by rewrite app_nil_r|cbn in Hc; lia].
Qed.

Lemma program_cycles_concat {F} {chip : FlashChip F} o cycles : forall f,
  fold_left (program_cycle o) cycles f = program_cycle o f (concat cycles).
Proof.
  induction cycles as [|c cycles IH]; intros f; [done|]. cbn [fold_left concat]. rewrite IH.
  unfold program_cycle. by rewrite fold_left_app.
Qed.

(** * Programming and verifying *)

(** What the tests of the program leave: sizes that divide each other, no overflow,
    an erase register outside of the image. *)
Record image_fits (o : settings) (firmware : list Z) : Prop := {
  if_size : In (f_size o) [1; 2; 4; 8];
  if_page : 0 < f_page_size o /\ f_page_size o mod f_size o = 0;
  if_length : f_length o = Z.of_nat (length firmware) /\ f_length o mod f_page_size o = 0;
  if_bytes : bytes_ok firmware;
  if_address : 0 <= f_address o /\ f_address o + f_length o < 2 ^ 64;
  if_control : f_erase_address o < f_address o \/ f_address o + f_length o <= f_erase_address o }.

Section image.
Context {F : Type} {chip : FlashChip F} (o : settings) (sector : Z) {nor : NorFlash F (f_address o) sector}.
Context (firmware : list Z) (fits : image_fits o firmware).

#[local] Abbreviation A := (f_address o).
#[local] Abbreviation len := (f_length o).
#[local] Abbreviation size := (f_size o).
#[local] Abbreviation e := (f_endian o).

(** The byte the chip has for the byte [k] of the firmware. *)
Definition image_byte (k : Z) : Z := flip_bits (f_invert o) (nth (Z.to_nat k) firmware 0).

Lemma size_bounds : 1 <= size <= 8.
Proof. pose proof (if_size _ _ fits). cbn in *. lia. Qed.

Lemma words_of_length : exists k, len = size * Z.of_nat k.
Proof.
  destruct (if_page _ _ fits) as [Hp Hps]. destruct (if_length _ _ fits) as [Hlen Hlp]. pose proof size_bounds.
  apply Z.mod_divide in Hps, Hlp; [|lia..]. destruct (Z.divide_trans _ _ _ Hps Hlp) as [q Hq].
  assert (0 <= q) by (apply (Z.mul_nonneg_cancel_r q size); lia). exists (Z.to_nat q). lia.
Qed.

Lemma image_byte_ok k : 0 <= k < len -> is_byte (image_byte k).
Proof.
  intros Hk. apply flip_byte. destruct (if_length _ _ fits) as [Hlen _].
  destruct (lookup_lt_is_Some_2 firmware (Z.to_nat k) ltac:(lia)) as [y Hy]. rewrite nth_lookup, Hy.
  exact (Forall_lookup_1 _ _ _ _ (if_bytes _ _ fits) Hy).
Qed.

(** The word read from the file at offset [n]. *)
Lemma read_firmware_at n : 0 <= n -> n + size <= len ->
  exists l, read_firmware o (drop (Z.to_nat n) firmware) = Some (word_val e l, drop (Z.to_nat (n + size)) firmware) /\
    bytes_ok l /\ length l = Z.to_nat size /\
    forall i, 0 <= i < size -> flip_bits (f_invert o) (nth (Z.to_nat i) l 0) = image_byte (n + i).
Proof.
  intros Hn Hle. destruct (if_length _ _ fits) as [Hlen _]. pose proof size_bounds as Hs.
  exists (take (Z.to_nat size) (drop (Z.to_nat n) firmware)).
  assert (bytes_ok (take (Z.to_nat size) (drop (Z.to_nat n) firmware))) as Hok by (apply Forall_take, Forall_drop, fits).
  unfold read_firmware. rewrite length_drop, (proj2 (Nat.ltb_ge _ _)) by lia.
  rewrite put_value_word by (try done; rewrite length_take; lia). rewrite drop_drop. split_and!.
  - do 3 f_equal. lia.
  - done.
  - rewrite length_take, length_drop. lia.
  - intros i Hi. unfold image_byte. f_equal. rewrite !nth_lookup, lookup_take_lt, lookup_drop by lia. do 2 f_equal. lia.
Qed.

(** The flipped word has the bytes of the image. *)
Lemma flipped_word l n : bytes_ok l -> length l = Z.to_nat size ->
  (forall i, 0 <= i < size -> flip_bits (f_invert o) (nth (Z.to_nat i) l 0) = image_byte (n + i)) ->
  flip_bits (f_invert o) (word_val e l) = word_val e (map (fun i => image_byte (n + Z.of_nat i)) (seq 0 (Z.to_nat size))).
Proof.
  intros Hok Hlen Hl. pose proof size_bounds. rewrite flip_word by (done || lia). f_equal.
  apply (list_eq_same_length _ _ (Z.to_nat size)); [by rewrite length_map, length_seq|by rewrite length_map|].
  intros i x y Hi Hx Hy.
  change (map ?f ?l) with (f <$> l) in Hx. change (map ?f ?l) with (f <$> l) in Hy.
  rewrite list_lookup_fmap in Hx. rewrite list_lookup_fmap, lookup_seq_lt in Hy by done.
  cbn in Hy. injection Hy as <-. rewrite <- Hl by lia. rewrite Nat2Z.id, nth_lookup.
  destruct (l !! i); [|done]. by injection Hx as <-.
Qed.

(** The first [n] bytes of the image are in the chip; the others are those of [f0]. *)
Definition programmed (f0 : F) (n : Z) (g : F) : Prop := forall x,
  chip_byte g x = if (A <=? x) && (x <? A + n) then image_byte (x - A) else chip_byte f0 x.

Definition image_word (n : Z) : list Z := map (fun i => image_byte (n + Z.of_nat i)) (seq 0 (Z.to_nat size)).

Lemma image_word_ok n : 0 <= n -> n + size <= len -> bytes_ok (image_word n).
Proof.
  intros Hn Hle. apply Forall_forall. intros y Hy. apply list_elem_of_In, in_map_iff in Hy as (i & <- & Hi%in_seq).
  pose proof size_bounds. apply image_byte_ok. lia.
Qed.

Lemma length_image_word n : length (image_word n) = Z.to_nat size.
Proof. unfold image_word. by rewrite length_map, length_seq. Qed.

Lemma nth_image_word n i : 0 <= i < size -> nth (Z.to_nat i) (image_word n) 0 = image_byte (n + i).
Proof.
  intros Hi. unfold image_word. rewrite (nth_indep _ 0 (image_byte (n + Z.of_nat 0))) by (rewrite length_map, length_seq; lia).
  rewrite (map_nth (fun i => image_byte (n + Z.of_nat i))), seq_nth by lia. f_equal. lia.
Qed.

Definition image_write (n : Z) : access := mk_access true false (A + n) (f_format o) (word_val e (image_word n)).

Section program.
Context (f0 : F) (blank : forall x, A <= x < A + len -> chip_byte f0 x = 255).

Lemma program_word n g : 0 <= n -> n + size <= len -> programmed f0 n g -> programmed f0 (n + size) (program_access o g (image_write n)).
Proof.
  intros Hn Hle Hg x. pose proof size_bounds as Hs. unfold program_access, image_write. cbn [a_address a_value].
  change (a_size _) with (Z.to_nat size).
  rewrite word_bytes_val_len by first [by apply image_word_ok|apply length_image_word].
  rewrite (program_bytes_spec o sector) by (by apply image_word_ok). rewrite length_image_word. specialize (Hg x).
  replace (A + n + Z.of_nat (Z.to_nat size)) with (A + (n + size)) by lia.
  destruct (Z.leb_spec (A + n) x), (Z.ltb_spec x (A + n)), (Z.leb_spec A x), (Z.ltb_spec x (A + (n + size))); try lia; cbn [andb] in Hg |- *; try done.
  rewrite Hg. replace (x - (A + n)) with (x - A - n) by lia. rewrite nth_image_word, blank by lia.
  replace (n + (x - A - n)) with (x - A) by lia. rewrite Z.land_comm.
  change 255 with (Z.ones 8). rewrite Z.land_ones by lia. apply Z.mod_small, image_byte_ok. lia.
Qed.

Lemma skip_word n g l : 0 <= n -> n + size <= len -> bytes_ok l -> length l = Z.to_nat size ->
  (forall i, 0 <= i < size -> flip_bits (f_invert o) (nth (Z.to_nat i) l 0) = image_byte (n + i)) ->
  word_val e l = ffs o -> programmed f0 n g -> programmed f0 (n + size) g.
Proof.
  intros Hn Hle Hok Hlen Hl Hffs Hg x. rewrite Hg. pose proof size_bounds as Hs.
  apply ffs_word in Hffs; [|done..].
  destruct (Z.leb_spec A x), (Z.ltb_spec x (A + n)), (Z.ltb_spec x (A + (n + size))); try lia; try done.
  cbn [andb]. rewrite blank by lia. replace (x - A) with (n + (x - A - n)) by lia. rewrite <- Hl by lia.
  destruct (lookup_lt_is_Some_2 l (Z.to_nat (x - A - n)) ltac:(lia)) as [y Hy]. rewrite nth_lookup, Hy.
  rewrite <- (Forall_lookup_1 _ _ _ _ Hffs Hy). cbn [default from_option]. unfold id. by destruct (f_invert o).
Qed.

Lemma program_loop_spec k : forall fuel n p skip, (k <= fuel)%nat -> 0 <= n -> len = n + size * Z.of_nat k ->
  counted p -> programmed f0 n (program_cycle o f0 (packed p)) ->
  exists cycles, program_loop o fuel (A + n) (A + len) (drop (Z.to_nat n) firmware) skip p = Some cycles /\
    programmed f0 len (program_cycle o f0 (concat cycles)).
Proof.
  induction k as [|k IH]; intros fuel n p skip Hfuel Hn Hlen Hc Hg; pose proof size_bounds as Hs.
  { exists (finish_packer p). rewrite packed_finish by done. replace n with len in Hg |- * by lia.
    destruct fuel; cbn [program_loop]; by rewrite Z.eqb_refl. }
  destruct fuel as [|fuel]; [lia|]. cbn [program_loop]. destruct (if_address _ _ fits) as [Ha Hw].
  rewrite (proj2 (Z.eqb_neq _ _)) by nia.
  destruct (read_firmware_at n) as (l & -> & Hok & Hll & Hl); [done|nia|]. cbn [mbind option_bind].
  rewrite wrap_small by nia. replace (A + n + size) with (A + (n + size)) by lia.
  assert (Hnext : forall p skip, counted p -> programmed f0 (n + size) (program_cycle o f0 (packed p)) ->
    exists cycles, program_loop o fuel (A + (n + size)) (A + len) (drop (Z.to_nat (n + size)) firmware) skip p = Some cycles /\
      programmed f0 len (program_cycle o f0 (concat cycles))) by (intros; apply IH; (done || lia)).
  destruct (skip && (word_val e l =? ffs o)) eqn:Hskip.
  { apply andb_true_iff in Hskip as [_ Hffs%Z.eqb_eq]. apply Hnext; [done|]. eapply skip_word; try done. nia. }
  rewrite (proj2 (Z.eqb_neq _ _)) by (pose proof (if_control _ _ fits); nia).
  rewrite (flipped_word l n) by done.
  assert (programmed f0 (n + size) (program_cycle o f0 (packed (pack (image_write n) p)))) as Hstep.
  { rewrite packed_pack. unfold program_cycle. rewrite fold_left_app. apply program_word; [done|nia|done]. }
  destruct (_ =? 0); apply Hnext; try done; [by rewrite packed_close|by apply counted_pack].
Qed.

Lemma program_flash_spec fuel : (length firmware <= fuel)%nat ->
  exists f', program_flash o fuel firmware f0 = Some f' /\ programmed f0 len f'.
Proof.
  intros Hfuel. destruct words_of_length as [k Hk]. destruct (if_length _ _ fits) as [Hlen _].
  destruct (if_address _ _ fits) as [Ha Hw]. pose proof size_bounds as Hs. unfold program_flash. rewrite wrap_small by lia.
  destruct (program_loop_spec k fuel 0 new_packer true) as (cycles & Hrun & Hdone); [nia|done|lia|done| |].
  { intros x. rewrite Z.add_0_r. by destruct (Z.leb_spec A x), (Z.ltb_spec x A); [lia|..]. }
  rewrite Z.add_0_r in Hrun. change (drop (Z.to_nat 0) firmware) with firmware in Hrun. rewrite Hrun. cbn [mbind option_bind].
  eexists. split; [done|]. by rewrite program_cycles_concat.
Qed.
End program.

(** The reads of [k] words from the offset [n] on. *)
Fixpoint read_words (n : Z) (k : nat) : list access :=
  match k with
  | O => []
  | S k' => mk_access false false (A + n) (f_format o) 0 :: read_words (n + size) k'
  end.

Lemma verify_loop_spec k : forall fuel n p, (k <= fuel)%nat -> 0 <= n -> len = n + size * Z.of_nat k -> counted p ->
  exists cycles, verify_loop o fuel (A + n) (A + len) p = Some cycles /\ concat cycles = packed p ++ read_words n k.
Proof.
  induction k as [|k IH]; intros fuel n p Hfuel Hn Hlen Hc; pose proof size_bounds as Hs.
  { exists (finish_packer p). rewrite packed_finish by done. replace len with n by lia. cbn [read_words]. rewrite app_nil_r.
    destruct fuel; cbn [verify_loop]; by rewrite Z.eqb_refl. }
  destruct fuel as [|fuel]; [lia|]. cbn [verify_loop]. destruct (if_address _ _ fits) as [Ha Hw].
  rewrite (proj2 (Z.eqb_neq _ _)), wrap_small by nia. replace (A + n + size) with (A + (n + size)) by lia.
  set (p' := if _ =? 0 then _ else _).
  assert (counted p' /\ packed p' = packed p ++ [mk_access false false (A + n) (f_format o) 0]) as [Hc' Hp'].
  { subst p'. destruct (_ =? 0); rewrite ?packed_close, packed_pack; (split; [|done]); [done|by apply counted_pack]. }
  destruct (IH fuel (n + size) p') as (cycles & Hrun & Hcat); try done; [lia..|].
  exists cycles. split; [done|]. rewrite Hcat, Hp'. cbn [read_words]. by rewrite <- app_assoc.
Qed.

Lemma chip_image_word f0 f n : programmed f0 len f -> 0 <= n -> n + size <= len -> chip_word o f (A + n) = word_val e (image_word n).
Proof.
  intros Hf Hn Hle. pose proof size_bounds. unfold chip_word, image_word. f_equal. apply map_ext_in. intros i Hi%in_seq.
  specialize (Hf (A + n + Z.of_nat i)). rewrite (proj2 (Z.leb_le _ _)), (proj2 (Z.ltb_lt _ _)) in Hf by lia.
  rewrite Hf. cbn [andb]. f_equal. lia.
Qed.

(** The file is positioned for the word [n], or will be when it is not. *)
Definition positioned (n : Z) (c : checker) : Prop := ck_last c = A + n -> ck_pos c = n.

Lemma verify_answers_spec f0 f k : programmed f0 len f -> forall n c, 0 <= n -> len = n + size * Z.of_nat k -> positioned n c ->
  exists c', verify_answers o firmware c (map (fun x => (x, chip_word o f (a_address x))) (read_words n k)) = Some c'.
Proof.
  intros Hf. pose proof size_bounds as Hs. destruct (if_address _ _ fits) as [Ha Hw].
  induction k as [|k IH]; intros n c Hn Hlen Hc; [by eexists|].
  cbn [read_words map verify_answers]. unfold verify_answer. cbn [fst snd a_address].
  set (c' := if negb _ then _ else _).
  assert (c' = mk_checker n (A + n)) as ->.
  { subst c'. destruct (Z.eqb_spec (ck_last c) (A + n)) as [Heq|Hne]; cbn [negb].
    - specialize (Hc Heq). destruct c; cbn in *. by subst.
    - f_equal. replace (A + n - A) with n by lia. apply wrap_small. nia. }
  cbn [ck_pos ck_last]. destruct (read_firmware_at n) as (l & -> & Hok & Hll & Hl); [done|nia|]. cbn [mbind option_bind].
  rewrite (flipped_word l n), (chip_image_word f0) by (done || nia). rewrite Z.eqb_refl. cbn [negb mbind option_bind].
  apply IH; [lia..|]. intros _. done.
Qed.

Lemma verify_flash_spec f0 f fuel : (length firmware <= fuel)%nat -> programmed f0 len f -> verify_flash o fuel firmware f = Some tt.
Proof.
  intros Hfuel Hf. destruct words_of_length as [k Hk]. destruct (if_length _ _ fits) as [Hlen _].
  destruct (if_address _ _ fits) as [Ha Hw]. pose proof size_bounds as Hs. unfold verify_flash. rewrite wrap_small by lia.
  destruct (verify_loop_spec k fuel 0 new_packer) as (cycles & Hrun & Hcat); [nia|done|lia|done|].
  rewrite Z.add_0_r in Hrun. rewrite Hrun. cbn [mbind option_bind]. rewrite Hcat.
  change (packed new_packer ++ read_words 0 k) with (read_words 0 k).
  destruct (verify_answers_spec f0 f k Hf 0 (mk_checker len (2 ^ 64 - 1))) as [c ->]; [done|lia| |done].
  unfold positioned. cbn. lia.
Qed.

(** * Scanning and erasing *)

#[local] Abbreviation ss := (f_sector_size o).

Definition sector_count : Z := (len + ss - 1) / ss.

(** The sector size is the one of the chip, the flash starts with a sector, and the
    bitmap has a bit for every sector of the image. *)
Record sectors_fit : Prop := {
  sf_size : exists m, 3 <= m < 64 /\ ss = 2 ^ m;
  sf_chip : sector = ss;
  sf_base : A mod ss = 0;
  sf_end : A + len + ss <= 2 ^ 64;
  sf_bitmap : sector_count <= 8 * erase_bitmap_size o < 2 ^ 31;
  sf_erasable : forall i, 0 <= i < sector_count -> erasable o (A + i * ss) }.

Section scan.
Context (sf : sectors_fit).

#[local] Abbreviation N := sector_count.

Lemma ss_pos : 8 <= ss < 2 ^ 64.
Proof.
  destruct (sf_size sf) as (m & Hm & ->). split; [apply (Z.pow_le_mono_r 2 3 m); lia|apply Z.pow_lt_mono_r; lia].
Qed.

Lemma count_bounds : 0 <= N /\ len <= N * ss < len + ss.
Proof.
  pose proof ss_pos as Hss. destruct (if_length _ _ fits) as [Hlen _]. unfold sector_count.
  pose proof (Z.div_mod (len + ss - 1) ss ltac:(lia)). pose proof (Z.mod_pos_bound (len + ss - 1) ss ltac:(lia)).
  split; [apply Z.div_pos; lia|nia].
Qed.

Lemma first_sector_base : first_sector o = A.
Proof. pose proof ss_pos. unfold first_sector. pose proof (sf_base sf). pose proof (Z.div_mod A ss ltac:(lia)). lia. Qed.

Lemma last_sector_end : last_sector o = A + N * ss /\ A + N * ss < 2 ^ 64.
Proof.
  pose proof ss_pos as Hss. pose proof (sf_end sf) as He. pose proof count_bounds as HN. destruct (if_address _ _ fits) as [Ha Hw].
  destruct (if_length _ _ fits) as [Hlen _]. unfold last_sector. rewrite wrap_small by lia. split; [|lia].
  pose proof (Z.div_mod A ss ltac:(lia)) as Hd. rewrite (sf_base sf) in Hd.
  replace (A + len + ss - 1) with (len + ss - 1 + A / ss * ss) by lia. rewrite Z.div_add by lia. unfold sector_count. lia.
Qed.

(** The place of a byte in its sector. *)
Lemma sector_index i r : 0 <= r < ss -> (A + i * ss + r - A) / ss = i.
Proof. intros Hr. replace (A + i * ss + r - A) with (r + i * ss) by lia. rewrite Z.div_add, Z.div_small by lia. lia. Qed.

Lemma in_sector_spec i x : in_sector sector (A + i * ss) x = ((A + i * ss <=? x) && (x <? A + (i + 1) * ss)).
Proof.
  pose proof ss_pos as Hss. rewrite (sf_chip sf), in_sector_aligned; [|lia|by rewrite Z.mod_add, (sf_base sf) by lia].
  do 2 f_equal. lia.
Qed.

Lemma read_span_spec k : forall fuel n p, (k <= fuel)%nat -> A + n + size * Z.of_nat k < 2 ^ 64 -> 0 <= n -> counted p ->
  exists p', read_span o fuel (A + n) (A + n + size * Z.of_nat k) p = Some p' /\ counted p' /\ packed p' = packed p ++ read_words n k.
Proof.
  induction k as [|k IH]; intros fuel n p Hfuel Hend Hn Hc; pose proof size_bounds as Hs.
  { exists p. cbn [read_words]. rewrite app_nil_r. split; [|done].
    replace (A + n + size * Z.of_nat 0) with (A + n) by lia. destruct fuel; cbn [read_span]; by rewrite Z.eqb_refl. }
  destruct fuel as [|fuel]; [lia|]. cbn [read_span]. destruct (if_address _ _ fits) as [Ha Hw].
  rewrite (proj2 (Z.eqb_neq _ _)), wrap_small by lia.
  set (p' := if _ =? _ then _ else _).
  assert (counted p' /\ packed p' = packed p ++ [mk_access false false (A + n) (f_format o) 0]) as [Hc' Hp'].
  { subst p'. destruct (_ =? _); rewrite ?packed_close, packed_pack; (split; [|done]); [done|by apply counted_pack]. }
  replace (A + n + size) with (A + (n + size)) by lia.
  replace (A + n + size * Z.of_nat (S k)) with (A + (n + size) + size * Z.of_nat k) by lia.
  destruct (IH fuel (n + size) p') as (q & Hrun & Hq & Hcat); try done; [lia..|].
  exists q. split_and!; [done..|]. rewrite Hcat, Hp'. cbn [read_words]. by rewrite <- app_assoc.
Qed.

(** The reads of one pass over [k] sectors from the sector [i] on: [w] words at the
    offset of each that is not marked. *)
Fixpoint sector_reads (bitmap : list Z) (offset : Z) (w : nat) (i : Z) (k : nat) : list access :=
  match k with
  | O => []
  | S k' => (if marked bitmap i then [] else read_words (i * ss + offset) w) ++ sector_reads bitmap offset w (i + 1) k'
  end.

Lemma scan_sectors_spec bitmap offset w : Z.of_nat (length bitmap) = erase_bitmap_size o ->
  0 <= offset -> offset + size * Z.of_nat w <= ss ->
  forall k fuel i p, (k <= fuel)%nat -> 0 <= i -> N = i + Z.of_nat k -> counted p ->
  exists p', scan_sectors o fuel (A + i * ss) i offset (size * Z.of_nat w) bitmap p = Some p' /\
    counted p' /\ packed p' = packed p ++ sector_reads bitmap offset w i k.
Proof.
  intros Hlen Hoff Hfit. pose proof ss_pos as Hss. destruct last_sector_end as [Hlast Hend]. destruct (if_address _ _ fits) as [Ha _].
  pose proof size_bounds as Hs. pose proof (sf_bitmap sf) as Hbits.
  induction k as [|k IH]; intros fuel i p Hfuel Hi HN Hc.
  { exists p. cbn [sector_reads]. rewrite app_nil_r. split; [|done]. rewrite Z.add_0_r in HN. subst i.
    destruct fuel; cbn [scan_sectors]; rewrite Hlast; by rewrite Z.eqb_refl. }
  destruct fuel as [|fuel]; [lia|]. cbn [scan_sectors]. assert ((i + 1) * ss <= N * ss) by (apply Z.mul_le_mono_nonneg_r; lia).
  rewrite Hlast, (proj2 (Z.eqb_neq _ _)), bitmask_get_spec by (unfold in_bitmap; lia). cbn [mbind option_bind].
  rewrite (wrap_small 64 (A + i * ss + ss)), (wrap_small 64 (A + i * ss + offset)), (wrap_small 64 (A + i * ss + offset + _)) by nia.
  replace (A + i * ss + ss) with (A + (i + 1) * ss) by lia. cbn [sector_reads].
  assert (exists q, (if negb (Z.b2z (marked bitmap i) =? 0) then Some p
      else read_span o (Z.to_nat (size * Z.of_nat w)) (A + i * ss + offset) (A + i * ss + offset + size * Z.of_nat w) p) = Some q /\
    counted q /\ packed q = packed p ++ (if marked bitmap i then [] else read_words (i * ss + offset) w)) as (q & -> & Hq & Hpq).
  { destruct (marked bitmap i); cbn; [exists p; by rewrite app_nil_r|].
    replace (A + i * ss + offset) with (A + (i * ss + offset)) by lia. apply read_span_spec; [nia|lia|nia|done]. }
  cbn [mbind option_bind]. destruct (IH fuel (i + 1) q) as (p' & Hrun & Hp' & Hcat); try done; [lia..|].
  exists p'. split_and!; [done..|]. by rewrite Hcat, Hpq, <- app_assoc.
Qed.

(** A word read belongs to the sector [j] and holds data. *)
Definition data_in (f : F) (j : Z) (x : access) : bool :=
  negb (chip_word o f (a_address x) =? ffs o) && ((a_address x - A) / ss =? j).

Definition in_image (x : access) : Prop := A <= a_address x < A + N * ss.

Lemma detect_decrement_spec f ops : Forall in_image ops -> forall bitmap, Z.of_nat (length bitmap) = erase_bitmap_size o ->
  exists bitmap', detect_decrement o f bitmap ops = Some bitmap' /\ length bitmap' = length bitmap /\
    forall j, 0 <= j -> marked bitmap' j = marked bitmap j || existsb (data_in f j) ops.
Proof.
  pose proof ss_pos as Hss. destruct last_sector_end as [_ Hend]. destruct (if_address _ _ fits) as [Ha _].
  pose proof (sf_bitmap sf) as Hbits. pose proof count_bounds as [HN _].
  induction 1 as [|x ops Hx _ IH]; intros bitmap Hlen; cbn [detect_decrement].
  { exists bitmap. split_and!; try done. intros j _. by rewrite orb_false_r. }
  destruct Hx as [Hlo Hhi]. set (i := (a_address x - A) / ss).
  assert (0 <= i < N) as Hi by (subst i; split; [apply Z.div_pos; lia|apply Z.div_lt_upper_bound; lia]).
  assert (s32 (wrap 64 (a_address x - A) / ss) = i) as ->.
  { rewrite wrap_small by lia. fold i. unfold s32. rewrite wrap_small, (proj2 (Z.ltb_lt _ _)) by lia. done. }
  assert (exists b, (if negb (chip_word o f (a_address x) =? ffs o) then bitmask_set bitmap i true else Some bitmap) = Some b /\
    length b = length bitmap /\ forall j, 0 <= j -> marked b j = marked bitmap j || data_in f j x) as (b & -> & Hb & Hm).
  { unfold data_in. fold i. destruct (chip_word o f (a_address x) =? ffs o); cbn [negb andb].
    - exists bitmap. split_and!; try done. intros j _. by rewrite orb_false_r.
    - destruct (bitmask_set_spec bitmap i) as (b & -> & Hb & Hm); [unfold in_bitmap; lia|].
      exists b. split_and!; try done. intros j Hj. rewrite Hm by done. apply orb_comm. }
  cbn [mbind option_bind]. destruct (IH b) as (b' & -> & Hb' & Hm'); [by rewrite Hb|].
  exists b'. split_and!; [done|by rewrite Hb'|]. intros j Hj. rewrite Hm', Hm by done. cbn [existsb]. by rewrite orb_assoc.
Qed.

(** Data at the offsets from [lo] to [hi] of the sector [i]. *)
Definition has_data (f : F) (i lo hi : Z) : Prop := exists x, A + i * ss + lo <= x < A + i * ss + hi /\ chip_byte f x <> 255.

Lemma has_data_split f i lo mid hi : lo <= mid <= hi -> has_data f i lo hi <-> has_data f i lo mid \/ has_data f i mid hi.
Proof.
  intros Hm. split.
  - intros (x & Hx & Hd). destruct (Z.lt_ge_cases x (A + i * ss + mid)); [left|right]; exists x; (split; [lia|done]).
  - intros [(x & Hx & Hd)|(x & Hx & Hd)]; exists x; (split; [lia|done]).
Qed.

Lemma read_words_data f i j w : forall r, 0 <= r -> r + size * Z.of_nat w <= ss ->
  existsb (data_in f j) (read_words (i * ss + r) w) = true <-> i = j /\ has_data f i r (r + size * Z.of_nat w).
Proof.
  pose proof size_bounds as Hs. induction w as [|w IH]; intros r Hr Hfit; cbn [read_words existsb].
  { split; [done|]. intros (_ & x & Hx & _). lia. }
  replace (i * ss + r + size) with (i * ss + (r + size)) by lia. rewrite orb_true_iff, IH by lia.
  rewrite (has_data_split f i r (r + size)) by lia. unfold data_in at 1. cbn [a_address].
  rewrite andb_true_iff, Z.eqb_eq, (chip_word_data o sector) by done.
  replace (A + (i * ss + r) - A) with (A + i * ss + r - A) by lia. rewrite sector_index by lia.
  replace (r + size * Z.of_nat (S w)) with (r + size + size * Z.of_nat w) by lia. unfold has_data.
  replace (A + (i * ss + r)) with (A + i * ss + r) by lia. replace (A + i * ss + (r + size)) with (A + i * ss + r + size) by lia.
  tauto.
Qed.

Lemma sector_reads_data f bitmap offset w j k : 0 <= offset -> offset + size * Z.of_nat w <= ss -> forall i,
  existsb (data_in f j) (sector_reads bitmap offset w i k) = true <->
  i <= j < i + Z.of_nat k /\ marked bitmap j = false /\ has_data f j offset (offset + size * Z.of_nat w).
Proof.
  intros Hoff Hfit. induction k as [|k IH]; intros i; cbn [sector_reads].
  { cbn. split; [done|lia]. }
  rewrite existsb_app, orb_true_iff, IH. destruct (marked bitmap i) eqn:Hi.
  - cbn [existsb]. split; [intros [|(? & ? & ?)]; [done|split_and!; (done || lia)]|].
    intros (Hj & Hm & Hd). right. split_and!; try done; [|lia]. destruct (Z.eq_dec i j); [congruence|lia].
  - rewrite read_words_data by done. split.
    + intros [[Heq Hd]|(? & ? & ?)]; [subst j|]; split_and!; (done || lia).
    + intros (Hj & Hm & Hd). destruct (Z.eq_dec i j) as [->|]; [by left|right]. split_and!; (done || lia).
Qed.

Lemma read_words_in_image i w : 0 <= i < N -> forall r, 0 <= r -> r + size * Z.of_nat w <= ss ->
  Forall in_image (read_words (i * ss + r) w).
Proof.
  intros Hi. pose proof size_bounds as Hs. pose proof ss_pos. induction w as [|w IH]; intros r Hr Hfit; cbn [read_words]; constructor.
  - unfold in_image. cbn [a_address]. assert ((i + 1) * ss <= N * ss) by (apply Z.mul_le_mono_nonneg_r; lia).
    assert (0 <= i * ss) by (apply Z.mul_nonneg_nonneg; lia). lia.
  - replace (i * ss + r + size) with (i * ss + (r + size)) by lia. apply IH; lia.
Qed.

Lemma sector_reads_in_image bitmap offset w k : 0 <= offset -> offset + size * Z.of_nat w <= ss -> forall i, 0 <= i -> i + Z.of_nat k <= N ->
  Forall in_image (sector_reads bitmap offset w i k).
Proof.
  intros Hoff Hfit. induction k as [|k IH]; intros i Hi HN; cbn [sector_reads]; [constructor|]. apply Forall_app_2; [|apply IH; lia].
  destruct (marked bitmap i); [constructor|]. apply read_words_in_image; lia.
Qed.

(** The bits of the sectors with data in their first [c] bytes are set. *)
Definition scanned (f : F) (c : Z) (bitmap : list Z) : Prop :=
  Z.of_nat (length bitmap) = erase_bitmap_size o /\
  forall i, 0 <= i < N -> marked bitmap i = true <-> has_data f i 0 c.

Lemma quick_scan_gap_spec f fuel offset gap bitmap : (length firmware <= fuel)%nat ->
  0 <= offset -> 0 < gap -> gap mod 8 = 0 -> offset + gap <= ss -> scanned f offset bitmap ->
  exists bitmap', quick_scan_gap o fuel f offset gap bitmap = Some bitmap' /\ scanned f (offset + gap) bitmap'.
Proof.
  intros Hfuel Hoff Hgap H8 Hfit [Hlen Hscan]. pose proof size_bounds as Hs. pose proof count_bounds as [HN HNs]. pose proof ss_pos as Hss.
  assert (exists w, gap = size * Z.of_nat w) as [w ->].
  { exists (Z.to_nat (gap / size)). apply Z.mod_divide in H8 as [q Hq]; [|lia].
    assert (gap mod size = 0) as Hm.
    { destruct (if_size _ _ fits) as [Heq|[Heq|[Heq|[Heq|[]]]]]; rewrite <- Heq, Hq;
        [by rewrite Z.mod_1_r|replace (q * 8) with (q * 4 * 2) by lia|replace (q * 8) with (q * 2 * 4) by lia|]; by apply Z.mod_mul. }
    pose proof (Z.div_mod gap size ltac:(lia)). pose proof (Z.div_pos gap size ltac:(lia) ltac:(lia)). lia. }
  unfold quick_scan_gap. rewrite first_sector_base. destruct (if_length _ _ fits) as [Hl _].
  destruct (scan_sectors_spec bitmap offset w Hlen Hoff Hfit (Z.to_nat N) fuel 0 new_packer) as (p & Hrun & Hc & Hp); [|done|lia|done|].
  { assert (N <= len); [|lia]. destruct (Z.eq_dec len 0) as [H0|]; [nia|]. unfold sector_count. apply Z.div_le_upper_bound; nia. }
  rewrite Z.mul_0_l, Z.add_0_r in Hrun. rewrite Hrun. cbn [mbind option_bind]. rewrite packed_finish, Hp by done.
  change (packed new_packer ++ ?l) with l.
  destruct (detect_decrement_spec f (sector_reads bitmap offset w 0 (Z.to_nat N))) with (bitmap := bitmap)
    as (b & -> & Hb & Hm); [apply sector_reads_in_image; lia|done|].
  exists b. split; [done|]. split; [by rewrite Hb|]. intros i Hi.
  rewrite Hm, orb_true_iff, sector_reads_data by (done || lia). rewrite (has_data_split f i 0 offset) by lia. rewrite <- Hscan by done.
  destruct (marked bitmap i); split; try (intros _; by left).
  - intros [|(_ & _ & Hd)]; [done|by right].
  - intros [|Hd]; [done|]. right. split_and!; (done || lia).
Qed.

Lemma quick_scan_spec f fuel : (length firmware <= fuel)%nat -> 0 <= erase_bitmap_size o ->
  exists bitmap, quick_scan o fuel f (repeat 0 (Z.to_nat (erase_bitmap_size o))) = Some bitmap /\ scanned f ss bitmap.
Proof.
  intros Hfuel Hb0. unfold quick_scan. destruct (sf_size sf) as (m & Hm & Hssm). pose proof ss_pos as Hss.
  destruct (quick_scan_gap_spec f fuel 0 8 (repeat 0 (Z.to_nat (erase_bitmap_size o)))) as (b & -> & Hb); try done; [lia| |].
  { split; [rewrite repeat_length; lia|]. intros i Hi. rewrite marked_repeat, Z.testbit_0_l.
    2: { unfold in_bitmap. rewrite repeat_length. pose proof (sf_bitmap sf). lia. }
    split; [done|]. intros (x & Hx & _). lia. }
  cbn [mbind option_bind].
  assert (forall k steps g bitmap, (k <= steps)%nat -> g = 2 ^ (m - Z.of_nat k) -> 3 <= m - Z.of_nat k -> scanned f g bitmap ->
    exists b, gap_loop o steps fuel f g g bitmap = Some b /\ scanned f ss b) as Hloop.
  { clear b Hb. induction k as [|k IH]; intros steps g bitmap Hsteps Hg Hk Hscan.
    { rewrite Z.sub_0_r in Hg. rewrite <- Hssm in Hg. subst g. exists bitmap. split; [|done].
      destruct steps; cbn [gap_loop]; by rewrite Z.eqb_refl. }
    destruct steps as [|steps]; [lia|]. cbn [gap_loop].
    assert (0 < g) by (subst g; apply Z.pow_pos_nonneg; lia).
    assert (g + g = 2 ^ (m - Z.of_nat k)) as Hgg.
    { subst g. replace (m - Z.of_nat k) with (Z.succ (m - Z.of_nat (S k))) by lia. rewrite Z.pow_succ_r by lia. lia. }
    assert (g + g <= ss) by (rewrite Hgg, Hssm; apply Z.pow_le_mono_r; lia).
    rewrite (proj2 (Z.eqb_neq _ _)), wrap_small by lia.
    destruct (quick_scan_gap_spec f fuel g g bitmap) as (b' & -> & Hb'); try done; [lia| |].
    { subst g. replace (m - Z.of_nat (S k)) with (3 + (m - Z.of_nat (S k) - 3)) by lia. rewrite Z.pow_add_r by lia.
      rewrite Z.mul_comm. by apply Z.mod_mul. }
    cbn [mbind option_bind]. apply IH; try done; lia. }
  apply (Hloop (Z.to_nat (m - 3))); [lia|replace (m - Z.of_nat (Z.to_nat (m - 3))) with 3 by lia; done|lia|done].
Qed.

(** The marked sectors among the first [i] are erased. *)
Definition erased (f : F) (bitmap : list Z) (i : Z) (g : F) : Prop := forall x,
  chip_byte g x = if (A <=? x) && (x <? A + i * ss) && marked bitmap ((x - A) / ss) then 255 else chip_byte f x.

Lemma erase_step f bitmap i g : 0 <= i < N -> erased f bitmap i g ->
  erased f bitmap (i + 1) (if Z.b2z (marked bitmap i) =? 0 then g else erase_sector o g (A + i * ss)).
Proof.
  intros Hi Hg x. specialize (Hg x). pose proof ss_pos as Hss.
  assert (A + i * ss <= x < A + (i + 1) * ss -> (x - A) / ss = i) as Hindex.
  { intros Hx. rewrite <- (sector_index i (x - (A + i * ss))) by lia. f_equal. lia. }
  assert (chip_byte (if Z.b2z (marked bitmap i) =? 0 then g else erase_sector o g (A + i * ss)) x =
    if marked bitmap i && ((A + i * ss <=? x) && (x <? A + (i + 1) * ss)) then 255 else chip_byte g x) as ->.
  { destruct (marked bitmap i); [|done]. cbn [Z.b2z Z.eqb andb]. change (1 =? 0) with false. cbn iota.
    rewrite (erase_sector_spec o sector), in_sector_spec by (by apply (sf_erasable sf)). done. }
  assert (0 <= i * ss) by (apply Z.mul_nonneg_nonneg; lia).
  rewrite Hg. destruct (Z.leb_spec (A + i * ss) x), (Z.ltb_spec x (A + (i + 1) * ss)), (Z.leb_spec A x), (Z.ltb_spec x (A + i * ss));
    try lia; cbn [andb]; rewrite ?andb_false_r; try done.
  rewrite Hindex by lia. rewrite andb_true_r. done.
Qed.

Lemma erase_sectors_spec f bitmap k : Z.of_nat (length bitmap) = erase_bitmap_size o ->
  forall fuel i g, (k <= fuel)%nat -> 0 <= i -> N = i + Z.of_nat k -> erased f bitmap i g ->
  exists f', erase_sectors o fuel (A + i * ss) i bitmap g = Some f' /\ erased f bitmap N f'.
Proof.
  intros Hlen. destruct last_sector_end as [Hlast Hend]. pose proof (sf_bitmap sf) as Hbits. pose proof ss_pos as Hss.
  destruct (if_address _ _ fits) as [Ha _].
  induction k as [|k IH]; intros fuel i g Hfuel Hi HN Hg.
  { exists g. rewrite Z.add_0_r in HN. subst i. split; [|done]. destruct fuel; cbn [erase_sectors]; rewrite Hlast; by rewrite Z.eqb_refl. }
  destruct fuel as [|fuel]; [lia|]. cbn [erase_sectors]. assert ((i + 1) * ss <= N * ss) by (apply Z.mul_le_mono_nonneg_r; lia).
  rewrite Hlast, (proj2 (Z.eqb_neq _ _)), bitmask_get_spec by (unfold in_bitmap; lia). cbn [mbind option_bind].
  assert (0 <= i * ss) by (apply Z.mul_nonneg_nonneg; lia). rewrite wrap_small by lia.
  replace (A + i * ss + ss) with (A + (i + 1) * ss) by lia. apply IH; try lia. by apply erase_step; [lia|].
Qed.

(** After the scan and the erasure the sectors of the image are empty. *)
Definition blanked (f f' : F) : Prop := forall x,
  chip_byte f' x = if (A <=? x) && (x <? A + N * ss) then 255 else chip_byte f x.

Definition covers (f : F) (bitmap : list Z) : Prop :=
  Z.of_nat (length bitmap) = erase_bitmap_size o /\
  forall i, 0 <= i < N -> marked bitmap i = false -> forall x, A + i * ss <= x < A + (i + 1) * ss -> chip_byte f x = 255.

Lemma erase_flash_spec f bitmap fuel : (length firmware <= fuel)%nat -> covers f bitmap ->
  exists f', erase_flash o fuel bitmap f = Some f' /\ blanked f f'.
Proof.
  intros Hfuel [Hlen Hcov]. unfold erase_flash. rewrite first_sector_base. pose proof count_bounds as [HN HNs]. pose proof ss_pos as Hss.
  destruct (if_length _ _ fits) as [Hl _].
  destruct (erase_sectors_spec f bitmap (Z.to_nat N) Hlen fuel 0 f) as (f' & Hrun & Hf'); [|done|lia| |].
  { assert (N <= len); [|lia]. destruct (Z.eq_dec len 0) as [H0|]; [nia|]. unfold sector_count. apply Z.div_le_upper_bound; nia. }
  { intros x. by destruct (Z.leb_spec A x), (Z.ltb_spec x (A + 0 * ss)); [lia|..]. }
  rewrite Z.mul_0_l, Z.add_0_r in Hrun. exists f'. split; [done|]. intros x. rewrite Hf'.
  destruct (Z.leb_spec A x), (Z.ltb_spec x (A + N * ss)); try done. cbn [andb].
  destruct (marked bitmap ((x - A) / ss)) eqn:Hm; [done|].
  pose proof (Z.div_mod (x - A) ss ltac:(lia)). pose proof (Z.mod_pos_bound (x - A) ss ltac:(lia)).
  apply (Hcov ((x - A) / ss)); [|done|lia]. split; [apply Z.div_pos; lia|apply Z.div_lt_upper_bound; lia].
Qed.

(** The scan leaves a bit clear only when the sector is empty. *)
Lemma scanned_covers f bitmap : scanned f ss bitmap -> covers f bitmap.
Proof.
  intros [Hlen Hs]. split; [done|]. intros i Hi Hm x Hx. destruct (Z.eq_dec (chip_byte f x) 255) as [|Hne]; [done|].
  rewrite (proj2 (Hs i Hi)) in Hm; [done|]. exists x. split; [lia|done].
Qed.

Lemma full_covers f : 0 <= erase_bitmap_size o -> covers f (repeat 0xFF (Z.to_nat (erase_bitmap_size o))).
Proof.
  intros H0. split; [rewrite repeat_length; lia|]. intros i Hi Hm. rewrite marked_repeat in Hm.
  2: { unfold in_bitmap. rewrite repeat_length. pose proof (sf_bitmap sf). lia. }
  exfalso. pose proof (Z.mod_pos_bound i 8 ltac:(lia)) as Hr. change 0xFF with (Z.ones 8) in Hm.
  rewrite Z.ones_spec_low in Hm by lia. done.
Qed.

(** The chip after the run: the image, and 255 up to the end of the last sector. *)
Definition flashed (f f' : F) : Prop := forall x,
  chip_byte f' x =
    if (A <=? x) && (x <? A + len) then image_byte (x - A)
    else if (A <=? x) && (x <? A + N * ss) then 255 else chip_byte f x.

Lemma flash_image_spec fuel full verify f : (length firmware <= fuel)%nat ->
  exists f', flash_image o fuel full verify firmware f = Some f' /\ flashed f f'.
Proof.
  intros Hfuel. unfold flash_image.
  assert (0 <= erase_bitmap_size o) as H0.
  { destruct (if_page _ _ fits) as [Hp _]. destruct (if_length _ _ fits) as [Hl _].
    unfold erase_bitmap_size. repeat apply Z.div_pos; lia. }
  assert (exists bitmap, (if full then Some (repeat 0xFF (Z.to_nat (erase_bitmap_size o)))
      else quick_scan o fuel f (repeat 0 (Z.to_nat (erase_bitmap_size o)))) = Some bitmap /\ covers f bitmap) as (bitmap & -> & Hcov).
  { destruct full; [eexists; split; [done|by apply full_covers]|].
    destruct (quick_scan_spec f fuel Hfuel H0) as (b & -> & Hb). exists b. split; [done|by apply scanned_covers]. }
  cbn [mbind option_bind]. destruct (erase_flash_spec f bitmap fuel Hfuel Hcov) as (f1 & -> & Hf1). cbn [mbind option_bind].
  pose proof count_bounds as [_ HNs].
  destruct (program_flash_spec f1) with (fuel := fuel) as (f2 & -> & Hf2); [|done|].
  { intros x Hx. rewrite Hf1, (proj2 (Z.leb_le _ _)), (proj2 (Z.ltb_lt _ _)) by lia. done. }
  cbn [mbind option_bind]. exists f2.
  assert ((if verify then verify_flash o fuel firmware f2 else Some tt) = Some tt) as ->
    by (destruct verify; [by apply (verify_flash_spec f1)|done]).
  split; [done|]. intros x. rewrite Hf2, Hf1. done.
Qed.
End scan.
End image.

(** * Measuring the sector size *)

Lemma align_to_floor k t : 0 <= k -> 0 <= t -> align_to (2 ^ k) t = t / 2 ^ k * 2 ^ k.
Proof.
  intros Hk Ht. unfold align_to. replace (2 ^ k - 1) with (Z.ones k) by (rewrite Z.ones_equiv; lia).
  by rewrite Z.ldiff_ones_r, Z.shiftr_div_pow2, Z.shiftl_mul_pow2 by lia.
Qed.

(** Aligning twice, to a size and then to a larger one, is aligning once. *)
Lemma align_to_twice j k t : 0 <= j <= k -> 0 <= t -> align_to (2 ^ k) (align_to (2 ^ j) t) = align_to (2 ^ k) t.
Proof.
  intros Hj Ht. assert (0 < 2 ^ j) by (apply Z.pow_pos_nonneg; lia). rewrite (align_to_floor j) by lia.
  rewrite !align_to_floor by (try apply Z.mul_nonneg_nonneg; try apply Z.div_pos; lia). f_equal.
  replace k with (j + (k - j)) by lia. rewrite Z.pow_add_r by lia.
  assert (0 < 2 ^ (k - j)) by (apply Z.pow_pos_nonneg; lia).
  rewrite <- !Z.div_div by lia. by rewrite Z.div_mul by lia.
Qed.

Lemma test_sizes_spec q : q < 64 -> forall k fuel j, (k <= fuel)%nat -> 0 <= j -> q = j + Z.of_nat k ->
  test_sizes fuel (2 ^ j) (2 ^ q) = Some (map (fun i => 2 ^ (j + Z.of_nat i)) (seq 0 k)).
Proof.
  intros Hq. induction k as [|k IH]; intros fuel j Hfuel Hj Heq.
  { rewrite Z.add_0_r in Heq. subst j. destruct fuel; cbn [test_sizes]; by rewrite Z.ltb_irrefl. }
  destruct fuel as [|fuel]; [lia|]. cbn [test_sizes]. rewrite (proj2 (Z.ltb_lt _ _)) by (apply Z.pow_lt_mono_r; lia).
  assert (2 ^ (j + 1) <= 2 ^ 63) by (apply Z.pow_le_mono_r; lia). assert (0 < 2 ^ (j + 1)) by (apply Z.pow_pos_nonneg; lia).
  assert (wrap 64 (2 ^ j .<< 1) = 2 ^ (j + 1)) as ->.
  { rewrite Z.shiftl_mul_pow2, <- Z.pow_add_r by lia. apply wrap_small. lia. }
  rewrite (IH fuel (j + 1)) by lia. cbn [mbind option_bind]. f_equal. cbn [seq map]. f_equal; [f_equal; lia|].
  rewrite <- seq_shift, map_map. apply map_ext. intros i. f_equal. lia.
Qed.

Lemma find_sector_size_spec t q (data : Z -> Z) : t < 64 -> forall k j, 0 <= j <= t -> t <= q -> q = j + Z.of_nat k ->
  (forall i, j <= i < t -> data i <> 0) -> (forall i, t <= i < q -> data i = 0) ->
  find_sector_size (2 ^ j) (map data (map (fun i => j + Z.of_nat i) (seq 0 k))) = 2 ^ t.
Proof.
  intros Ht. induction k as [|k IH]; intros j Hj Htq Hq Hset Hclear.
  { cbn. f_equal. lia. }
  cbn [seq map find_sector_size]. rewrite Z.add_0_r. destruct (Z.eq_dec j t) as [->|Hne].
  { by rewrite Hclear by lia. }
  rewrite (proj2 (Z.eqb_neq _ _)) by (apply Hset; lia). cbn [negb].
  assert (2 ^ (j + 1) <= 2 ^ 63) by (apply Z.pow_le_mono_r; lia). assert (0 < 2 ^ (j + 1)) by (apply Z.pow_pos_nonneg; lia).
  assert (wrap 64 (2 ^ j .<< 1) = 2 ^ (j + 1)) as ->.
  { rewrite Z.shiftl_mul_pow2, <- Z.pow_add_r by lia. apply wrap_small. lia. }
  rewrite <- (IH (j + 1)) by (try lia; intros i Hi; (apply Hset || apply Hclear); lia). do 2 f_equal. rewrite <- seq_shift, map_map. apply map_ext. intros i. lia.
Qed.

Lemma word_bytes_zero e n : word_bytes e n 0 = repeat 0 n.
Proof.
  assert (be_bytes n 0 = repeat 0 n) as Hz.
  { induction n as [|n IH]; [done|]. cbn [be_bytes repeat]. by rewrite Z.shiftr_0_l, IH. }
  unfold word_bytes. rewrite Hz. destruct (e =? EB_BIG_ENDIAN); [done|apply rev_repeat].
Qed.

Section detect.
Context {F : Type} {chip : FlashChip F} (o : settings) (t : Z) {nor : NorFlash F (f_address o) (2 ^ t)}.
Context (firmware : list Z) (fits : image_fits o firmware).

#[local] Abbreviation A := (f_address o).
#[local] Abbreviation len := (f_length o).
#[local] Abbreviation size := (f_size o).
#[local] Abbreviation e := (f_endian o).
#[local] Abbreviation sector := (2 ^ t).

(** The true sectors are aligned, at least a page and at most half of the image. *)
Record measurable : Prop := {
  ms_page : exists p, 0 <= p <= t /\ f_page_size o = 2 ^ p;
  ms_max : t < 22;
  ms_base : A mod sector = 0;
  ms_room : 2 * sector <= len;
  ms_erasable : forall i, 0 <= i -> (i + 1) * sector <= len -> erasable o (A + i * sector) }.

Context (ms : measurable).

#[local] Abbreviation middle := (A + len / 2).

(** An aligned block of [2 ^ j] bytes around the middle lies in the image. *)
Definition block_fits (j : Z) : Prop := A <= align_to (2 ^ j) middle /\ align_to (2 ^ j) middle + 2 ^ j <= A + len.

Lemma middle_bounds : 0 <= A <= middle /\ middle + sector <= A + len /\ A + len < 2 ^ 64.
Proof.
  destruct (if_address _ _ fits). pose proof (ms_room ms). destruct (if_length _ _ fits).
  pose proof (Z.div_mod len 2 ltac:(lia)). pose proof (Z.mod_pos_bound len 2 ltac:(lia)). lia.
Qed.

Lemma floor_bounds j x : 0 <= j -> 0 <= x -> x - 2 ^ j < align_to (2 ^ j) x <= x /\ align_to (2 ^ j) x mod 2 ^ j = 0.
Proof.
  intros Hj Hx. rewrite align_to_floor by done. assert (0 < 2 ^ j) by (apply Z.pow_pos_nonneg; lia).
  pose proof (Z.div_mod x (2 ^ j) ltac:(lia)). pose proof (Z.mod_pos_bound x (2 ^ j) ltac:(lia)).
  split; [lia|]. apply Z.mod_mul. lia.
Qed.

Lemma small_blocks_fit j : 0 <= j <= t -> block_fits j.
Proof.
  intros Hj. pose proof middle_bounds as (HA & Hm & _). pose proof (floor_bounds j middle ltac:(lia) ltac:(lia)) as [Hf _].
  assert (2 ^ j <= 2 ^ t) by (apply Z.pow_le_mono_r; lia). split; [|lia].
  assert (0 < 2 ^ j) by (apply Z.pow_pos_nonneg; lia).
  assert (A mod 2 ^ j = 0) as Hb0.
  { pose proof (ms_base ms) as Hb. replace t with (j + (t - j)) in Hb by lia. rewrite Z.pow_add_r in Hb by lia.
    apply Z.mod_divide in Hb; [|assert (0 < 2 ^ (t - j)) by (apply Z.pow_pos_nonneg; lia); lia].
    apply Z.mod_divide; [lia|]. destruct Hb as [q Hq]. exists (q * 2 ^ (t - j)). lia. }
  rewrite align_to_floor by lia. apply Z.mod_divide in Hb0 as [q Hq]; [|lia]. rewrite Hq at 1.
  apply Z.mul_le_mono_nonneg_r; [lia|]. apply Z.div_le_lower_bound; lia.
Qed.

(** An aligned block does not wrap around. *)
Lemma block_below_end j : 0 <= j < 64 -> align_to (2 ^ j) middle + 2 ^ j <= 2 ^ 64.
Proof.
  intros Hj. pose proof middle_bounds as (HA & Hm & Hend). rewrite align_to_floor by lia.
  assert (0 < 2 ^ j) by (apply Z.pow_pos_nonneg; lia). assert (0 < sector) by (pose proof (ms_page ms) as (p & ? & _); apply Z.pow_pos_nonneg; lia).
  replace (2 ^ 64) with (2 ^ (64 - j) * 2 ^ j) by (rewrite <- Z.pow_add_r by lia; f_equal; lia).
  assert (middle / 2 ^ j < 2 ^ (64 - j)); [|nia]. apply Z.div_lt_upper_bound; [lia|].
  rewrite <- Z.pow_add_r by lia. replace (j + (64 - j)) with 64 by lia. lia.
Qed.

Lemma grow_sector_spec fuel : forall j, 0 <= j < 22 -> 22 - j <= Z.of_nat fuel -> (t < j -> block_fits (j - 1)) ->
  exists r, grow_sector o fuel (2 ^ j) (align_to (2 ^ j) middle) (A + len - 1) = Some (2 ^ r) /\ t < r <= 22 /\ block_fits (r - 1).
Proof.
  pose proof middle_bounds as (HA & Hm & Hend). pose proof (ms_max ms) as Hmax.
  induction fuel as [|fuel IH]; intros j Hj Hfuel Hprev; [lia|]. cbn [grow_sector].
  pose proof (floor_bounds j middle ltac:(lia) ltac:(lia)) as [Hf _]. assert (0 < 2 ^ j < 2 ^ 22) by (split; [apply Z.pow_pos_nonneg; lia|apply Z.pow_lt_mono_r; lia]).
  destruct ((A <=? align_to (2 ^ j) middle) && (wrap 64 (align_to (2 ^ j) middle + 2 ^ j - 1) <=? A + len - 1)) eqn:Hfit.
  - rewrite wrap_small in Hfit by (pose proof (block_below_end j ltac:(lia)); lia).
    apply andb_true_iff in Hfit as [Hlo%Z.leb_le Hhi%Z.leb_le]. assert (block_fits j) as Hblock by (split; lia).
    assert (2 ^ (j + 1) = 2 ^ j + 2 ^ j) as Hdouble by (rewrite Z.pow_add_r by lia; lia).
    rewrite Z.shiftl_mul_pow2, (wrap_small 64) by lia. replace (2 ^ j * 2 ^ 1) with (2 ^ (j + 1)) by lia.
    change MAX_SECTOR_SIZE with (2 ^ 22). destruct (Z.leb_spec (2 ^ 22) (2 ^ (j + 1))) as [Hge|Hlt].
    + exists (j + 1). split; [done|]. replace (j + 1 - 1) with j by lia. split; [|done].
      split; [|lia]. destruct (Z.lt_ge_cases t (j + 1)); [done|].
      assert (2 ^ (j + 1) <= 2 ^ t) by (apply Z.pow_le_mono_r; lia). assert (2 ^ t < 2 ^ 22) by (apply Z.pow_lt_mono_r; lia). lia.
    + rewrite align_to_twice by lia. apply Z.pow_lt_mono_r_iff in Hlt; [|lia..]. apply IH; [lia..|]. intros _.
      by replace (j + 1 - 1) with j by lia.
  - assert (t < j) as Htj.
    { destruct (Z.lt_ge_cases t j); [done|]. pose proof (small_blocks_fit j ltac:(lia)) as [Hlo Hhi].
      rewrite wrap_small in Hfit by (pose proof (block_below_end j ltac:(lia)); lia).
      apply andb_false_iff in Hfit as [H1%Z.leb_gt|H1%Z.leb_gt]; lia. }
    exists j. split; [done|]. split; [lia|]. by apply Hprev.
Qed.

Lemma program_zeros places : forall f x,
  chip_byte (fold_left (program_access o) (map (fun a => mk_access true false a (f_format o) 0) places) f) x =
  if existsb (fun a => (a <=? x) && (x <? a + size)) places then 0 else chip_byte f x.
Proof.
  pose proof (size_bounds _ _ fits) as Hs. induction places as [|a places IH]; intros f x; [done|]. cbn [map fold_left existsb].
  rewrite IH. unfold program_access. cbn [a_address a_value]. change (a_size _) with (Z.to_nat size).
  rewrite word_bytes_zero, (program_bytes_spec o sector) by (apply Forall_repeat; lia). rewrite repeat_length, nth_repeat, Z.land_0_r.
  replace (a + Z.of_nat (Z.to_nat size)) with (a + size) by lia.
  destruct (existsb _ places); [by rewrite orb_true_r|]. rewrite orb_false_r. done.
Qed.

(** A word of zeros, a word of ones. *)
Lemma chip_word_zero f a : (forall x, a <= x < a + size -> chip_byte f x = 0) -> chip_word o f a = 0.
Proof.
  intros H. unfold chip_word. pose proof (size_bounds _ _ fits) as Hs.
  assert (map (fun i => chip_byte f (a + Z.of_nat i)) (seq 0 (Z.to_nat size)) = word_bytes e (Z.to_nat size) 0) as ->.
  { rewrite word_bytes_zero. rewrite <- (length_seq (Z.to_nat size) 0) at 2. rewrite <- map_const.
    apply map_ext_in. intros i Hi%in_seq. apply H. lia. }
  rewrite word_val_bytes. done.
Qed.

Lemma chip_word_ones f a : (forall x, a <= x < a + size -> chip_byte f x = 255) -> chip_word o f a <> 0.
Proof.
  intros H. pose proof (size_bounds _ _ fits) as Hs. destruct (negb (chip_word o f a =? ffs o)) eqn:Hd.
  - apply (chip_word_data o sector) in Hd as (x & Hx & Hne); [|done]. by rewrite H in Hne.
  - apply negb_false_iff, Z.eqb_eq in Hd. rewrite Hd. unfold ffs. rewrite byte_mask_ones, Z.ones_equiv by lia.
    assert (2 ^ 8 <= 2 ^ (8 * size)) by (apply Z.pow_le_mono_r; lia). lia.
Qed.

(** The chip after the measurement differs only in the image. *)
Definition changed_inside (f f' : F) : Prop := forall x, x < A \/ A + len <= x -> chip_byte f' x = chip_byte f x.

(** The chip after the pattern was written at the offsets [2 ^ j] and the first
    sector erased. *)
Definition patterned (base : Z) (exponents : list Z) (f f' : F) : Prop := forall x,
  chip_byte f' x =
    if (base <=? x) && (x <? base + sector) then 255
    else if existsb (fun j => (base + 2 ^ j <=? x) && (x <? base + 2 ^ j + size)) exponents then 0 else chip_byte f x.

Lemma write_pattern base exponents f : 0 <= t -> base mod sector = 0 -> erasable o base ->
  patterned base exponents f (erase_sector o (fold_left (program_access o)
    (map (fun a => mk_access true false a (f_format o) 0) (map (fun j => base + 2 ^ j) exponents)) f) base).
Proof.
  intros Ht Hb He x. assert (0 < sector) by (apply Z.pow_pos_nonneg; lia).
  rewrite (erase_sector_spec o sector), in_sector_aligned, program_zeros by done.
  destruct (_ && _); [done|]. replace (existsb _ (map _ exponents)) with
    (existsb (fun j => (base + 2 ^ j <=? x) && (x <? base + 2 ^ j + size)) exponents); [done|].
  induction exponents as [|j l IH]; [done|]. cbn [map existsb]. by rewrite IH.
Qed.

Lemma pattern_words base exponents f f' p q : patterned base exponents f f' -> f_page_size o = 2 ^ p -> 0 <= p <= t ->
  (forall j, In j exponents <-> p <= j < q) ->
  (forall j, p <= j < t -> chip_word o f' (base + 2 ^ j) <> 0) /\ (forall j, t <= j < q -> chip_word o f' (base + 2 ^ j) = 0).
Proof.
  intros Hf Hpage Hp Hexp. pose proof (size_bounds _ _ fits) as Hs. destruct (if_page _ _ fits) as [_ Hps].
  assert (size <= 2 ^ p) as Hsp.
  { rewrite <- Hpage. destruct (if_page _ _ fits) as [Hpos _]. apply Z.mod_divide in Hps; [|lia]. apply Z.divide_pos_le; [lia|done]. }
  split; intros j Hj.
  - assert (2 ^ (j + 1) <= sector) as Hle by (apply Z.pow_le_mono_r; lia). rewrite Z.pow_add_r in Hle by lia.
    assert (2 ^ p <= 2 ^ j) by (apply Z.pow_le_mono_r; lia).
    apply chip_word_ones. intros x Hx. rewrite Hf, (proj2 (Z.leb_le _ _)), (proj2 (Z.ltb_lt _ _)) by lia. done.
  - assert (sector <= 2 ^ j) by (apply Z.pow_le_mono_r; lia).
    apply chip_word_zero. intros x Hx. rewrite Hf, (proj2 (Z.ltb_ge _ _)), andb_false_r by lia.
    replace (existsb _ exponents) with true; [done|]. symmetry. apply existsb_exists. exists j. split; [apply Hexp; lia|].
    rewrite (proj2 (Z.leb_le _ _)), (proj2 (Z.ltb_lt _ _)) by lia. done.
Qed.

Lemma pattern_inside base exponents f f' p q : patterned base exponents f f' -> f_page_size o = 2 ^ p -> 0 <= p <= t -> t <= q ->
  (forall j, In j exponents <-> p <= j < q) -> A <= base -> base + 2 ^ q <= A + len -> changed_inside f f'.
Proof.
  intros Hf Hpage Hp Hq Hexp Hlo Hhi x Hx. pose proof (size_bounds _ _ fits) as Hs. destruct (if_page _ _ fits) as [Hpos Hps].
  apply Z.mod_divide in Hps; [|lia]. apply Z.divide_pos_le in Hps; [|lia]. rewrite Hpage in Hps.
  assert (sector <= 2 ^ q) by (apply Z.pow_le_mono_r; lia). rewrite Hf.
  replace ((base <=? x) && (x <? base + sector)) with false
    by (symmetry; apply andb_false_iff; rewrite Z.leb_gt, Z.ltb_ge; lia).
  replace (existsb _ exponents) with false; [done|]. symmetry. apply not_true_is_false. rewrite existsb_exists.
  intros (j & Hj%Hexp & [Hl%Z.leb_le Hr%Z.ltb_lt]%andb_true_iff).
  assert (2 ^ (j + 1) <= 2 ^ q) as Hle by (apply Z.pow_le_mono_r; lia). rewrite Z.pow_add_r in Hle by lia.
  assert (2 ^ p <= 2 ^ j) by (apply Z.pow_le_mono_r; lia). lia.
Qed.

(** The block found is made of sectors. *)
Lemma block_erasable q : t <= q -> block_fits q -> align_to (2 ^ q) middle mod sector = 0 /\ erasable o (align_to (2 ^ q) middle).
Proof.
  intros Hq [Hlo Hhi]. destruct (ms_page ms) as (p & Hp & _). pose proof middle_bounds as (HA & Hm & _).
  set (base := align_to (2 ^ q) middle) in *. assert (0 < sector) by (apply Z.pow_pos_nonneg; lia).
  assert (sector <= 2 ^ q) by (apply Z.pow_le_mono_r; lia).
  assert (base mod sector = 0) as Hb.
  { pose proof (floor_bounds q middle ltac:(lia) ltac:(lia)) as [_ Hz]. fold base in Hz. apply Z.mod_divide in Hz; [|lia].
    apply Z.mod_divide; [lia|]. etransitivity; [|exact Hz]. exists (2 ^ (q - t)). rewrite <- Z.pow_add_r by lia. f_equal. lia. }
  split; [done|]. pose proof (ms_base ms) as Ha. apply Z.mod_divide in Ha as [a Ha], Hb as [b Hb]; [|lia..].
  replace base with (A + (b - a) * sector) by lia. apply (ms_erasable ms); nia.
Qed.

Lemma detect_sector_size_spec fuel f : (22 <= fuel)%nat ->
  exists f', detect_sector_size o fuel f = Some (sector, f') /\ changed_inside f f'.
Proof.
  intros Hfuel. destruct (ms_page ms) as (p & Hp & Hpage). pose proof (ms_max ms) as Ht.
  pose proof middle_bounds as (HA & Hm & Hend). destruct (if_length _ _ fits) as [Hlen _].
  assert (0 < sector) by (apply Z.pow_pos_nonneg; lia).
  unfold detect_sector_size. rewrite (wrap_small 64 (A + len - 1)), (wrap_small 64 middle) by (pose proof (ms_room ms); lia).
  rewrite Hpage. destruct (grow_sector_spec fuel p ltac:(lia) ltac:(lia) ltac:(lia)) as (r & -> & Hr & Hblock).
  cbn [mbind option_bind]. set (q := r - 1) in *. assert (2 ^ r .>> 1 = 2 ^ q) as ->.
  { rewrite Z.shiftr_div_pow2 by lia. replace r with (q + 1) by lia. rewrite Z.pow_add_r by lia. apply Z.div_mul. done. }
  destruct (block_erasable q ltac:(lia) Hblock) as [Hbase Herase]. destruct Hblock as [Hlo Hhi].
  set (base := align_to (2 ^ q) middle) in *.
  rewrite (test_sizes_spec q ltac:(lia) (Z.to_nat (q - p))) by lia. cbn [mbind option_bind].
  set (exponents := map (fun i => p + Z.of_nat i) (seq 0 (Z.to_nat (q - p)))).
  assert (Hexp : forall j, In j exponents <-> p <= j < q).
  { intros j. unfold exponents. rewrite in_map_iff. split; [intros (i & <- & Hi%in_seq); lia|].
    intros Hj. exists (Z.to_nat (j - p)). split; [lia|]. apply in_seq. lia. }
  assert (map (fun s => wrap 64 (base + s)) (map (fun i => 2 ^ (p + Z.of_nat i)) (seq 0 (Z.to_nat (q - p)))) =
    map (fun j => base + 2 ^ j) exponents) as ->.
  { unfold exponents. rewrite !map_map. apply map_ext_in. intros i Hi%in_seq.
    assert (2 ^ (p + Z.of_nat i) < 2 ^ q) by (apply Z.pow_lt_mono_r; lia). assert (0 < 2 ^ (p + Z.of_nat i)) by (apply Z.pow_pos_nonneg; lia).
    apply wrap_small. lia. }
  pose proof (write_pattern base exponents f ltac:(lia) Hbase Herase) as Hpat.
  set (f' := erase_sector o _ base) in *. exists f'.
  destruct (pattern_words base exponents f f' p q Hpat Hpage ltac:(lia) Hexp) as [Hones Hzeros].
  split; [|by apply (pattern_inside base exponents f f' p q); (done || lia)].
  rewrite map_map. unfold exponents. rewrite (find_sector_size_spec t q (fun j => chip_word o f' (base + 2 ^ j))); (done || lia).
Qed.
End detect.

(** * The whole program *)

(** The access size: one the device has, no wider than the connection or a page, and
    the largest of these. *)
Definition format_ok (support endian line_width format : Z) : bool :=
  let size := format .& EB_DATAX in
  existsb (Z.eqb size) [1; 2; 4; 8] && ((size .& support) =? size) && (size <=? line_width) &&
  ((format .& EB_ENDIAN_MASK) =? (if endian =? 0 then support .& EB_ENDIAN_MASK else endian)) &&
  forallb (fun s => (s =? 0) || negb ((s .& support) =? s) || negb (s <=? line_width) || (s <=? size)) [1; 2; 4; 8].

Definition endians : list Z := [0; EB_BIG_ENDIAN; EB_LITTLE_ENDIAN].

Lemma choose_format_greatest support endian line_width page_size format :
  In support (concat (map (fun e => map (Z.lor e) masks) endians)) -> In endian endians -> In line_width [1; 2; 4; 8] ->
  choose_format support endian line_width page_size = Some format ->
  format_ok support endian line_width format = true /\ format .& EB_DATAX <= page_size.
Proof.
  intros Hs He Hl. unfold choose_format.
  set (E := if endian =? 0 then support .& EB_ENDIAN_MASK else endian).
  set (size := widest support line_width).
  destruct (E =? 0) eqn:HE; [done|]. destruct (size =? 0) eqn:Hz; [done|].
  destruct (page_size <? size) eqn:Hp; [done|]. intros [= <-].
  assert (forallb (fun support => forallb (fun endian => forallb (fun line_width =>
    let E := if endian =? 0 then support .& EB_ENDIAN_MASK else endian in
    let size := widest support line_width in
    (E =? 0) || (size =? 0) || (format_ok support endian line_width (size .| E) && (((size .| E) .& EB_DATAX) =? size)))
    [1; 2; 4; 8]) endians) (concat (map (fun e => map (Z.lor e) masks) endians)) = true) as Hall by by vm_compute.
  rewrite forallb_forall in Hall. specialize (Hall support Hs). rewrite forallb_forall in Hall. specialize (Hall endian He).
  rewrite forallb_forall in Hall. specialize (Hall line_width Hl). cbv zeta in Hall. fold E in Hall.
  fold size in Hall.
  rewrite HE, Hz in Hall. cbn [orb] in Hall. apply andb_true_iff in Hall as [Hok Heq%Z.eqb_eq].
  split; [done|]. rewrite Heq. by apply Z.ltb_ge.
Qed.

Lemma image_fits_sector o firmware s : image_fits o firmware -> image_fits (set_sector_size s o) firmware.
Proof. intros []. by constructor. Qed.

Section run.
Context {F : Type} {chip : FlashChip F} (o : settings) (t : Z) {nor : NorFlash F (f_address o) (2 ^ t)}.

(** C32: eb-flash ends with success on every NOR flash, whether the sector size is
    given or measured, with a scan or without, and verified or not. Afterwards the
    chip holds the image, its bits in the order of the chip, 255 from the end of the
    image to the end of its last sector, and what it held everywhere else. *)
Theorem eb_flash_programs (fuel : nat) (full verify : bool) (support endian line_width format : Z) (firmware : list Z) (f : F)
    (Hformat : choose_format support endian line_width (f_page_size o) = Some format)
    (Hpage : f_address o mod f_page_size o = 0)
    (Hfits : image_fits (set_format format o) firmware)
    (Hsectors : sectors_fit (set_sector_size (2 ^ t) (set_format format o)) (2 ^ t))
    (Hsize : f_sector_size o = 2 ^ t \/ f_sector_size o = 0 /\ measurable (set_format format o) t)
    (Hfuel : (length firmware <= fuel)%nat /\ (22 <= fuel)%nat) :
  exists f', eb_flash fuel full verify support endian line_width o firmware f = Some f' /\
    flashed (set_sector_size (2 ^ t) (set_format format o)) firmware f f'.
Proof.
  unfold eb_flash. destruct (if_length _ _ Hfits) as [_ Hlp]. cbn [set_format f_length f_page_size] in Hlp.
  rewrite Hlp, Hpage, Hformat. cbn [negb Z.eqb mbind option_bind].
  change (f_sector_size (set_format format o)) with (f_sector_size o).
  pose proof (image_fits_sector _ _ (2 ^ t) Hfits) as Hfits'. destruct Hsize as [Hsize|[Hzero Hms]].
  - assert (0 < 2 ^ t) by (destruct (sf_size _ _ Hsectors) as (m & Hm & Heq); cbn in Heq; rewrite Heq; apply Z.pow_pos_nonneg; lia).
    rewrite (proj2 (Z.eqb_neq _ _)) by lia. cbn [mbind option_bind].
    assert (set_format format o = set_sector_size (2 ^ t) (set_format format o)) as -> by (unfold set_sector_size, set_format; by rewrite <- Hsize).
    apply (flash_image_spec (set_sector_size (2 ^ t) (set_format format o)) (2 ^ t)); try done; lia.
  - rewrite Hzero. cbn [Z.eqb].
    destruct (detect_sector_size_spec (set_format format o) t firmware Hfits Hms fuel f) as (f1 & -> & Hf1); [lia|].
    cbn [mbind option_bind].
    destruct (flash_image_spec (set_sector_size (2 ^ t) (set_format format o)) (2 ^ t) firmware Hfits' Hsectors fuel full verify f1) as (f' & Hrun & Hf'); [lia|].
    exists f'. split; [done|]. intros x. rewrite Hf'. cbn [f_address f_length set_sector_size set_format].
    destruct (Z.leb_spec (f_address o) x), (Z.ltb_spec x (f_address o + f_length o)); cbn [andb]; try done;
      rewrite ?Hf1 by (cbn; lia); done.
Qed.
End run.

(** * A chip *)

(** Bytes that were not written read as 255. *)
Section simulated.
Context (base sector : Z).

Definition sim_byte (f : gmap Z Z) (a : Z) : Z := u8 (default 255 (f !! a)).

Definition sim_erase (f : gmap Z Z) (s : Z) : gmap Z Z := filter (fun p => in_sector sector s (fst p) = false) f.

#[export] Instance sim_chip : FlashChip (gmap Z Z) := {
  chip_byte := sim_byte;
  chip_program f a v := <[a := sim_byte f a .& v]> f;
  chip_control f values :=
    if (length values =? 1)%nat then sim_erase f (nth 0 values 0)
    else if decide (take 3 values = [0x6; 0x80000000; 0xD8]) then sim_erase f (base + be_val (removelast (drop 3 values)))
    else f }.

Lemma sim_erase_byte f s x : sim_byte (sim_erase f s) x = if in_sector sector s x then 255 else sim_byte f x.
Proof.
  unfold sim_byte, sim_erase. destruct (in_sector sector s x) eqn:Hs.
  - rewrite (proj2 (map_lookup_filter_None _ _ _)); [done|]. right. intros v _. cbn. by rewrite Hs.
  - do 2 f_equal. destruct (f !! x) as [v|] eqn:Hx.
    + by apply map_lookup_filter_Some.
    + apply map_lookup_filter_None. by left.
Qed.

#[export] Instance sim_nor : NorFlash (gmap Z Z) base sector.
Proof.
  split.
  - intros f a. apply (wrap_range 8). lia.
  - intros f a v x Hv. cbn. unfold sim_byte at 1. destruct (Z.eqb_spec x a) as [->|Hne].
    + rewrite lookup_insert_eq. cbn [default from_option]. unfold id. apply wrap_small.
      pose proof (wrap_range 8 (default 255 (f !! a)) ltac:(lia)) as Hb. fold (sim_byte f a) in Hb.
      split; [apply Z.land_nonneg; lia|]. apply (bits_bound _ 8); [lia|apply Z.land_nonneg; lia|].
      intros j Hj. rewrite Z.land_spec, (testbit_above v 8), andb_false_r by (done || lia). done.
    + by rewrite lookup_insert_ne by done.
  - intros f l x Hl Hlen. cbn -[decide removelast drop take]. rewrite decide_True by done.
    change (drop 3 _) with (l ++ [0x80000000]). rewrite removelast_last. apply sim_erase_byte.
  - intros f s x. cbn. apply sim_erase_byte.
Qed.
End simulated.

(** A 64-byte image for a chip with 32-byte sectors, whose size is measured. *)
Definition demo_settings : settings := mk_settings 0 256 0 0 8 64 true false.

Definition demo_image : list Z := map (fun i => Z.of_nat i * 5 mod 256) (seq 0 64).

Lemma eb_flash_programs_witness :
  let o := set_format (EB_BIG_ENDIAN .| 4) demo_settings in
  let f : gmap Z Z := <[3 := 7]> (<[70 := 9]> ∅) in
  exists f', eb_flash (chip := sim_chip 0 (2 ^ 5)) 64 false true (EB_BIG_ENDIAN .| 4) 0 4 demo_settings demo_image f = Some f' /\
    flashed (chip := sim_chip 0 (2 ^ 5)) (set_sector_size (2 ^ 5) o) demo_image f f'.
Proof.
  intros o f. assert (image_fits o demo_image) as Hfits.
  { constructor.
    - vm_compute. tauto.
    - by vm_compute.
    - by vm_compute.
    - apply Forall_forall. intros y Hy. apply list_elem_of_In, in_map_iff in Hy as (i & <- & _). by apply Z.mod_pos_bound.
    - split; [by vm_compute|by vm_compute].
    - right. by vm_compute. }
  apply (eb_flash_programs (chip := sim_chip 0 (2 ^ 5)) demo_settings 5 64 false true (EB_BIG_ENDIAN .| 4) 0 4 (EB_BIG_ENDIAN .| 4)).
  - by vm_compute.
  - by vm_compute.
  - exact Hfits.
  - constructor.
    + by exists 5.
    + done.
    + done.
    + done.
    + split; [by vm_compute|done].
    + intros i Hi. change (0 <= i < 2) in Hi. change (0 mod 2 ^ 24 = 0 /\ 0 <= 0 + i * 32 < 0 + 2 ^ 24). split; [done|lia].
  - right. split; [done|]. constructor.
    + by exists 3.
    + done.
    + done.
    + done.
    + intros i Hi Hle. change ((i + 1) * 32 <= 64) in Hle.
      change (0 mod 2 ^ 24 = 0 /\ 0 <= 0 + i * 32 < 0 + 2 ^ 24). split; [done|lia].
  - split; cbn; lia.
Defined.

(** Fewer than eight pages leave the bitmap without a byte: the scan of the first
    sector already reads outside of it. *)
Lemma short_image_outside_bitmap {F} {chip : FlashChip F} o fuel verify firmware (f : F) :
  0 < f_page_size o -> 0 <= f_length o < 8 * f_page_size o -> last_sector o <> first_sector o ->
  erase_bitmap_size o = 0 /\ flash_image o fuel false verify firmware f = None.
Proof.
  intros Hp Hlen Hne. assert (erase_bitmap_size o = 0) as Hz.
  { unfold erase_bitmap_size. rewrite Z.div_div by lia. apply Z.div_small. lia. }
  split; [done|]. unfold flash_image. rewrite Hz. cbn [Z.to_nat repeat]. unfold quick_scan, quick_scan_gap.
  destruct fuel; cbn [scan_sectors]; by rewrite (proj2 (Z.eqb_neq (first_sector o) (last_sector o))).
Qed.
