(* ===== verification/MiniSdb.v ===== *)
(** Discovery of the soft CPU's peripherals: [src/modules/lm32-include/mini_sdb.c].
    The tree of self-describing tables is read in place from the memory map; devices
    are found by vendor and device number, depth first.

    [mem] is the byte the bus returns at an address. Addresses and pointers are
    32 bits wide, words are big-endian as on the LM32. *)
From stdpp Require Import base list.
From Stdlib Require Import ZArith Lia.
From S2P Require Import Prelude.

(** * Records *)

Definition SBD_BASE : Z := 0x3FFFE000.
Definition SDB_DEVICE : Z := 0x01.
Definition SDB_BRIDGE : Z := 0x02.

Section memory.
Context (mem : Z -> Z).

Definition window_byte (a : Z) : Z := u8 (mem (u32 a)).
Definition half_at (a : Z) : Z := be_val [window_byte a; window_byte (a + 1)].
Definition word_at (a : Z) : Z := be_val [window_byte a; window_byte (a + 1); window_byte (a + 2); window_byte (a + 3)].

(** The fields of [union sdb_record] that are read. A device and a bridge have their
    component at the same offset. *)
Definition sdb_records (record : Z) : Z := half_at (record + 4).
Definition record_type (record : Z) : Z := window_byte (record + 63).
Definition sdb_child (record : Z) : Z := word_at (record + 4).
Definition addr_first (record : Z) : Z := word_at (record + 12).
Definition vendor_id (record : Z) : Z := word_at (record + 28).
Definition device_id (record : Z) : Z := word_at (record + 32).

Record sdb_location := mk_location { l_sdb : Z; l_adr : Z }.

Definition getSdbAdr (loc : sdb_location) : Z := u32 (l_adr loc + addr_first (l_sdb loc)).
Definition getChild (loc : sdb_location) : Z := u32 (l_adr loc + sdb_child (l_sdb loc)).

(** * The search *)

Section search.
Context (qty venId devId : Z).

Definition identified (record : Z) : bool := (vendor_id record =? venId) && (device_id record =? devId).

(** [found_sdb[( *idx)] = ...; ( *idx)++;]. A store outside of the array: [None]. *)
Definition store_record (record base : Z) (found : list sdb_location) (idx : Z) : option (list sdb_location * Z) :=
  found ← array_set found (Z.to_nat idx) (mk_location record base);
  Some (found, idx + 1).

(** The loop over the records, with the search of a child table. *)
Fixpoint scan_records (deep : Z -> Z -> list sdb_location -> Z -> option (list sdb_location * Z))
    (records : nat) (record base : Z) (found : list sdb_location) (idx : Z) : option (list sdb_location * Z) :=
  match records with
  | O => Some (found, idx)
  | S records' =>
    '(found, idx) ←
      (if record_type record =? SDB_BRIDGE then
        '(found, idx) ← (if identified record then store_record record base found idx else Some (found, idx));
        deep (u32 (base + sdb_child record)) (u32 (base + addr_first record)) found idx
      else Some (found, idx));
    '(found, idx) ←
      (if (record_type record =? SDB_DEVICE) && identified record then store_record record base found idx
       else Some (found, idx));
    if qty <=? idx then Some (found, idx)
    else scan_records deep records' (u32 (record + 64)) base found idx
  end.

(** [fuel] bounds the depth of the tree. *)
Fixpoint find_sdb_deep (fuel : nat) (parent_sdb base : Z) (found : list sdb_location) (idx : Z) : option (list sdb_location * Z) :=
  match fuel with
  | O => None
  | S fuel' => scan_records (find_sdb_deep fuel') (Z.to_nat (sdb_records parent_sdb)) parent_sdb base found idx
  end.
End search.

(** * The wrappers *)

(** What the array holds before the search: the stack is not initialised. *)
Definition junk : sdb_location := mk_location 0 0.

Definition find_device_multi (fuel : nat) (found : list sdb_location) (idx qty venId devId : Z) : option (list sdb_location * Z) :=
  find_sdb_deep qty venId devId fuel SBD_BASE 0 found idx.

Definition find_device_multi_in_subtree (fuel : nat) (loc : sdb_location) (found : list sdb_location) (idx qty venId devId : Z) :
    option (list sdb_location * Z) :=
  find_sdb_deep qty venId devId fuel (getChild loc) (getSdbAdr loc) found idx.

(** The address of the result, 0 for NULL. *)
Definition first_adr (r : list sdb_location * Z) : option Z :=
  let '(found, idx) := r in
  if 0 <? idx then loc ← found !! 0%nat; Some (getSdbAdr loc) else Some 0.

Definition find_device_adr (fuel : nat) (venId devId : Z) : option Z :=
  r ← find_device_multi fuel [junk] 0 1 venId devId; first_adr r.

Definition find_device_adr_in_subtree (fuel : nat) (loc : sdb_location) (venId devId : Z) : option Z :=
  r ← find_device_multi_in_subtree fuel loc [junk] 0 1 venId devId; first_adr r.

Definition GSI : Z := 0x00000651.
Definition CERN : Z := 0x0000ce42.

Definition find_device (fuel : nat) (devid : Z) : option Z := find_device_adr fuel GSI devid.

(** The pointers of mini_sdb.h. *)
Record periphery := mk_periphery {
  pCpuId : Z; pCpuAtomic : Z; pCpuSysTime : Z; pCpuIrqSlave : Z; pCpuTimer : Z; pCluCB : Z; pSharedRam : Z;
  pCluInfo : Z; pFpqCtrl : Z; pFpqData : Z; pOledDisplay : Z; pEbm : Z; pEca : Z; pUart : Z }.

(** The first location is used whether or not one was found; without one it is what
    the stack holds, [None]. *)
Definition discoverPeriphery (fuel : nat) : option periphery :=
  cpu_id ← find_device_adr fuel GSI 0x10040085;
  cpu_atomic ← find_device_adr fuel GSI 0x10040100;
  cpu_systime ← find_device_adr fuel GSI 0x10040084;
  cpu_irq_slave ← find_device_adr fuel GSI 0x10040083;
  cpu_timer ← find_device_adr fuel GSI 0x10040088;
  '(found_sdb, idx) ← find_device_multi fuel (repeat junk 20) 0 20 GSI 0x10041000;
  if idx <=? 0 then None else
  loc ← found_sdb !! 0%nat;
  shared_ram ← find_device_adr_in_subtree fuel loc CERN 0x66cfeb52;
  clu_info ← find_device_adr_in_subtree fuel loc GSI 0x10040086;
  fpq_ctrl ← find_device_adr_in_subtree fuel loc GSI 0x10040200;
  fpq_data ← find_device_adr_in_subtree fuel loc GSI 0x10040201;
  oled_display ← find_device_adr fuel GSI 0x93a6f3c4;
  ebm ← find_device_adr fuel GSI 0x00000815;
  eca ← find_device_adr fuel GSI 0x8752bf45;
  uart ← find_device_adr fuel CERN 0xe2d13d04;
  Some (mk_periphery cpu_id cpu_atomic cpu_systime cpu_irq_slave cpu_timer (getSdbAdr loc) shared_ram
    clu_info fpq_ctrl fpq_data oled_display ebm eca uart).
End memory.

(** * A reference: the whole tree as a list *)

Section reference.
Context (mem : Z -> Z).

(** The devices and bridges of a table, a bridge before what is behind it, with the
    base address of their bus. *)
Fixpoint list_records (deep : Z -> Z -> option (list sdb_location)) (records : nat) (record base : Z) : option (list sdb_location) :=
  match records with
  | O => Some []
  | S records' =>
    here ←
      (if record_type mem record =? SDB_BRIDGE then
        sub ← deep (u32 (base + sdb_child mem record)) (u32 (base + addr_first mem record));
        Some (mk_location record base :: sub)
      else if record_type mem record =? SDB_DEVICE then Some [mk_location record base]
      else Some []);
    rest ← list_records deep records' (u32 (record + 64)) base;
    Some (here ++ rest)
  end.

Definition is_interconnect (record : Z) : bool :=
  negb (record_type mem record =? SDB_BRIDGE) && negb (record_type mem record =? SDB_DEVICE).

(** [None]: a table is empty or does not start with its interconnect record, or the
    tree is deeper than [fuel]. *)
Fixpoint all_records (fuel : nat) (parent_sdb base : Z) : option (list sdb_location) :=
  match fuel with
  | O => None
  | S fuel' =>
    if is_interconnect parent_sdb && negb (sdb_records mem parent_sdb =? 0)
    then list_records (all_records fuel') (Z.to_nat (sdb_records mem parent_sdb)) parent_sdb base
    else None
  end.

Definition matching (venId devId : Z) (l : list sdb_location) : list sdb_location :=
  List.filter (fun loc => identified mem venId devId (l_sdb loc)) l.

(** The array with some places from [i] on replaced. *)
Definition stored (found : list sdb_location) (i : nat) (ms : list sdb_location) : list sdb_location :=
  take i found ++ ms ++ drop (i + length ms) found.

Lemma stored_nil found i : stored found i [] = found.
Proof. unfold stored. cbn [app length]. rewrite Nat.add_0_r. apply take_drop. Qed.

Lemma length_stored found i ms : (i + length ms <= length found)%nat -> length (stored found i ms) = length found.
Proof. intros Hi. unfold stored. rewrite !length_app, length_take, length_drop. lia. Qed.

Lemma stored_app found i a b : (i + length a + length b <= length found)%nat ->
  stored (stored found i a) (i + length a) b = stored found i (a ++ b).
Proof.
  intros Hi. assert (length (take i found) = i) as Hl by (rewrite length_take; lia). unfold stored.
  rewrite take_app_ge, take_app_le, (firstn_all2 a), drop_app_ge, drop_app_ge, drop_drop by (rewrite ?length_app; lia).
  rewrite Hl, length_app, <- !app_assoc. do 3 f_equal. f_equal. lia.
Qed.

Lemma stored_one found i x : (i < length found)%nat -> array_set found i x = Some (stored found i [x]).
Proof.
  intros Hi. rewrite array_set_lt by done. f_equal. unfold stored. rewrite insert_take_drop by done.
  by rewrite Nat.add_1_r.
Qed.

Section search.
Context (venId devId : Z) (q : nat).

(** The search behaves like a prefix of the matching records of [l]. *)
Definition finds (search : list sdb_location -> Z -> option (list sdb_location * Z)) (i : nat) (l : list sdb_location) : Prop :=
  forall found, (q <= length found)%nat ->
    let ms := take (q - i) (matching venId devId l) in
    search found (Z.of_nat i) = Some (stored found i ms, Z.of_nat (i + length ms)).

Lemma store_found_spec record base found i : (i < length found)%nat ->
  store_record record base found (Z.of_nat i) = Some (stored found i [mk_location record base], Z.of_nat (i + 1)).
Proof.
  intros Hi. unfold store_record. rewrite Nat2Z.id, stored_one by done. cbn [mbind option_bind]. do 2 f_equal. lia.
Qed.

Lemma matching_app a b : matching venId devId (a ++ b) = matching venId devId a ++ matching venId devId b.
Proof. apply List.filter_app. Qed.

Lemma matching_cons r l : matching venId devId (r :: l) =
  (if identified mem venId devId (l_sdb r) then [r] else []) ++ matching venId devId l.
Proof. unfold matching. cbn [List.filter]. by destruct (identified _ _ _ _). Qed.

Lemma finds_app (before after : list sdb_location -> Z -> option (list sdb_location * Z)) i a b :
  finds before i a -> (i <= q)%nat -> (forall j, (j < q)%nat -> finds after j b) ->
  finds (fun found idx => '(found, idx) ← before found idx; if Z.of_nat q <=? idx then Some (found, idx) else after found idx) i (a ++ b).
Proof.
  intros Ha Hi Hb found Hlen. cbv zeta. rewrite (Ha found Hlen). cbv zeta. cbn [mbind option_bind].
  set (ma := take (q - i) (matching venId devId a)). assert (length ma <= q - i)%nat as Hma by (subst ma; rewrite length_take; lia).
  rewrite matching_app. destruct (Z.leb_spec (Z.of_nat q) (Z.of_nat (i + length ma))) as [Hge|Hlt].
  - rewrite take_app_le; [done|]. subst ma. rewrite length_take in Hge. lia.
  - assert (length (matching venId devId a) < q - i)%nat by (subst ma; rewrite length_take in Hlt; lia).
    assert (ma = matching venId devId a) as Heq by (subst ma; apply firstn_all2; lia).
    assert (length ma = length (matching venId devId a)) as Hlm by (by rewrite Heq).
    rewrite (Hb (i + length ma)%nat) by (rewrite ?length_stored; lia). cbv zeta.
    set (mb := take (q - (i + length ma)) (matching venId devId b)).
    assert (take (q - i) (matching venId devId a ++ matching venId devId b) = ma ++ mb) as ->.
    { rewrite take_app. subst mb. fold ma. do 2 f_equal. lia. }
    assert (length mb <= q - (i + length ma))%nat by (subst mb; rewrite length_take; lia).
    rewrite stored_app, length_app by lia. do 2 f_equal. lia.
Qed.

Lemma record_loop_spec deep list_deep :
  (forall p b sub, list_deep p b = Some sub -> forall i, (i <= q)%nat -> finds (deep p b) i sub) ->
  forall n record base l, list_records list_deep n record base = Some l ->
  forall i, (i <= q)%nat -> (i < q)%nat \/ is_interconnect record = true ->
    finds (scan_records mem (Z.of_nat q) venId devId deep n record base) i l.
Proof.
  intros Hdeep. induction n as [|n IH]; intros record base l Hl i Hi Hgo.
  { injection Hl as <-. intros found Hlen. cbn [scan_records]. change (matching venId devId []) with (@nil sdb_location). rewrite take_nil. cbn [length]. by rewrite stored_nil, Nat.add_0_r. }
  cbn [list_records] in Hl. destruct (if _ =? SDB_BRIDGE then _ else _) as [here|] eqn:Hhere; [|done].
  cbn [mbind option_bind] in Hl. destruct (list_records list_deep n _ base) as [rest|] eqn:Hrest; [|done]. injection Hl as <-.
  set (before := fun found idx =>
    '(found, idx) ←
      (if record_type mem record =? SDB_BRIDGE then
        '(found, idx) ← (if identified mem venId devId record then store_record record base found idx else Some (found, idx));
        deep (u32 (base + sdb_child mem record)) (u32 (base + addr_first mem record)) found idx
      else Some (found, idx));
    if (record_type mem record =? SDB_DEVICE) && identified mem venId devId record then store_record record base found idx
    else Some (found, idx)).
  assert (finds before i here) as Hbefore.
  { intros found Hlen. subst before. cbv beta zeta. unfold is_interconnect in Hgo.
    destruct (Z.eqb_spec (record_type mem record) SDB_BRIDGE) as [Hb|Hb].
    - assert ((record_type mem record =? SDB_DEVICE) = false) as -> by (by rewrite Hb). assert (i < q)%nat as Hlt by (destruct Hgo; done).
      destruct (list_deep _ _) as [sub|] eqn:Hsub; [|done]. injection Hhere as <-. rewrite matching_cons. cbn [l_sdb].
      destruct (identified mem venId devId record).
      + rewrite store_found_spec by lia. cbn [mbind option_bind].
        rewrite (Hdeep _ _ _ Hsub (i + 1)%nat) by (rewrite ?length_stored; cbn [length]; lia). cbv zeta. cbn [mbind option_bind andb app].
        assert (take (q - i) (mk_location record base :: matching venId devId sub) =
          [mk_location record base] ++ take (q - (i + 1)) (matching venId devId sub)) as ->.
        { replace (q - i)%nat with (S (q - (i + 1))) by lia. done. }
        rewrite (stored_app found i [mk_location record base]) by (rewrite length_take; cbn [length]; lia).
        rewrite length_app. cbn [length]. do 2 f_equal. lia.
      + cbn [mbind option_bind app]. rewrite (Hdeep _ _ _ Hsub i) by done. done.
    - cbn [mbind option_bind]. destruct (Z.eqb_spec (record_type mem record) SDB_DEVICE) as [Hd|Hd]; injection Hhere as <-.
      + assert (i < q)%nat as Hlt by (by destruct Hgo). rewrite matching_cons. cbn [l_sdb andb].
        change (matching venId devId []) with (@nil sdb_location). rewrite app_nil_r.
        destruct (identified mem venId devId record).
        * rewrite store_found_spec by lia. by rewrite firstn_all2 by (cbn [length]; lia).
        * rewrite take_nil. cbn [length]. by rewrite stored_nil, Nat.add_0_r.
      + cbn [andb]. change (matching venId devId []) with (@nil sdb_location). rewrite take_nil. cbn [length]. by rewrite stored_nil, Nat.add_0_r. }
  assert (finds (fun found idx => '(found, idx) ← before found idx; if Z.of_nat q <=? idx then Some (found, idx) else
    scan_records mem (Z.of_nat q) venId devId deep n (u32 (record + 64)) base found idx) i (here ++ rest)) as Hall.
  { apply finds_app; [done..|]. intros j Hj. apply IH; [done|lia|by left]. }
  intros found Hlen. cbv zeta. etransitivity; [|exact (Hall found Hlen)]. subst before. cbn [scan_records].
  match goal with |- mbind _ ?here = _ => by destruct here as [[f1 i1]|] end.
Qed.

Lemma find_sdb_deep_finds fuel : forall p b l, all_records fuel p b = Some l ->
  forall i, (i <= q)%nat -> finds (find_sdb_deep mem (Z.of_nat q) venId devId fuel p b) i l.
Proof.
  induction fuel as [|fuel IH]; intros p b l Hl i Hi; [done|]. cbn [all_records] in Hl. cbn [find_sdb_deep].
  destruct (is_interconnect p) eqn:Hp; [|done]. destruct (sdb_records mem p =? 0); [done|]. cbn [andb negb] in Hl.
  apply (record_loop_spec (find_sdb_deep mem (Z.of_nat q) venId devId fuel) (all_records fuel)); [done|done|done|by right].
Qed.
End search.

(** C34: the search stores the matching devices and bridges of the whole tree, depth
    first and a bridge before its bus, each with the base address of its bus, until
    [qty] entries are there; it writes nothing else and never behind them. *)
Theorem find_sdb_deep_prefix (fuel : nat) (qty venId devId parent_sdb base idx : Z) (found l : list sdb_location)
    (Htree : all_records fuel parent_sdb base = Some l)
    (Hidx : 0 <= idx <= qty) (Hroom : qty <= Z.of_nat (length found)) :
  let ms := take (Z.to_nat (qty - idx)) (matching venId devId l) in
  find_sdb_deep mem qty venId devId fuel parent_sdb base found idx =
    Some (stored found (Z.to_nat idx) ms, idx + Z.of_nat (length ms)).
Proof.
  intros ms. pose proof (find_sdb_deep_finds venId devId (Z.to_nat qty) fuel parent_sdb base l Htree (Z.to_nat idx) ltac:(lia) found ltac:(lia)) as H.
  cbv zeta in H. rewrite !Z2Nat.id in H by lia. rewrite H. subst ms. rewrite Z2Nat.inj_sub by lia. do 2 f_equal. lia.
Qed.

(** * The wrappers *)

(** The address of the first match, 0 without one. *)
Definition adr_of (venId devId : Z) (l : list sdb_location) : Z :=
  match matching venId devId l with
  | [] => 0
  | loc :: _ => getSdbAdr mem loc
  end.

Lemma first_adr_of venId devId fuel p b l : all_records fuel p b = Some l ->
  (r ← find_sdb_deep mem 1 venId devId fuel p b [junk] 0; first_adr mem r) = Some (adr_of venId devId l).
Proof.
  intros Hl. pose proof (find_sdb_deep_finds venId devId 1 fuel p b l Hl 0 ltac:(lia) [junk] ltac:(cbn; lia)) as H.
  cbv zeta in H. change (Z.of_nat 1) with 1 in H. change (Z.of_nat 0) with 0 in H. rewrite H. unfold adr_of.
  by destruct (matching venId devId l).
Qed.

Lemma find_device_adr_first fuel venId devId l : all_records fuel SBD_BASE 0 = Some l ->
  find_device_adr mem fuel venId devId = Some (adr_of venId devId l).
Proof. apply first_adr_of. Qed.

Lemma find_device_adr_in_subtree_first fuel loc venId devId l : all_records fuel (getChild mem loc) (getSdbAdr mem loc) = Some l ->
  find_device_adr_in_subtree mem fuel loc venId devId = Some (adr_of venId devId l).
Proof. apply first_adr_of. Qed.

(** All clusters, of which the first counts. *)
Lemma find_clusters fuel venId devId l : all_records fuel SBD_BASE 0 = Some l ->
  let ms := take 20 (matching venId devId l) in
  find_device_multi mem fuel (repeat junk 20) 0 20 venId devId = Some (ms ++ drop (length ms) (repeat junk 20), Z.of_nat (length ms)).
Proof.
  intros Hl ms. pose proof (find_sdb_deep_finds venId devId 20 fuel SBD_BASE 0 l Hl 0 ltac:(lia) (repeat junk 20) ltac:(by rewrite repeat_length)) as H.
  exact H.
Qed.

(** DiscoverPeriphery sets every pointer to the first device with its identity,
    those of the cluster to the first one behind the first cluster bridge, and the
    others to NULL. *)
Theorem discoverPeriphery_spec (fuel : nat) (l sub rest : list sdb_location) (cluster : sdb_location)
    (Htree : all_records fuel SBD_BASE 0 = Some l)
    (Hcluster : matching GSI 0x10041000 l = cluster :: rest)
    (Hsub : all_records fuel (getChild mem cluster) (getSdbAdr mem cluster) = Some sub) :
  discoverPeriphery mem fuel = Some (mk_periphery
    (adr_of GSI 0x10040085 l) (adr_of GSI 0x10040100 l) (adr_of GSI 0x10040084 l) (adr_of GSI 0x10040083 l)
    (adr_of GSI 0x10040088 l) (getSdbAdr mem cluster) (adr_of CERN 0x66cfeb52 sub) (adr_of GSI 0x10040086 sub)
    (adr_of GSI 0x10040200 sub) (adr_of GSI 0x10040201 sub) (adr_of GSI 0x93a6f3c4 l) (adr_of GSI 0x00000815 l)
    (adr_of GSI 0x8752bf45 l) (adr_of CERN 0xe2d13d04 l)).
Proof.
  unfold discoverPeriphery. rewrite !(find_device_adr_first _ _ _ l Htree). cbn [mbind option_bind].
  rewrite (find_clusters _ _ _ l Htree), Hcluster. cbn [take length mbind option_bind app].
  rewrite (proj2 (Z.leb_gt _ _)) by lia. cbn [lookup list_lookup mbind option_bind].
  by rewrite !(find_device_adr_in_subtree_first _ _ _ _ sub Hsub).
Qed.

(** Without a cluster the first location is used although it was never written. *)
Lemma no_cluster_uninitialised fuel l : all_records fuel SBD_BASE 0 = Some l -> matching GSI 0x10041000 l = [] ->
  discoverPeriphery mem fuel = None.
Proof.
  intros Hl Hnone. unfold discoverPeriphery. rewrite !(find_device_adr_first _ _ _ l Hl). cbn [mbind option_bind].
  by rewrite (find_clusters _ _ _ l Hl), Hnone.
Qed.
End reference.

(** * A bus *)

Definition demo_word (v : Z) : list Z := be_bytes 4 v.

(** A record: its first words, addresses, vendor, device and type. *)
Definition demo_record (w0 w1 first vendor device kind : Z) : list Z :=
  demo_word w0 ++ demo_word w1 ++ demo_word 0 ++ demo_word first ++ demo_word 0 ++ demo_word 0 ++ demo_word 0 ++ demo_word vendor ++
  demo_word device ++ repeat 0 27 ++ [kind].

(** A cluster bridge at 0x1000 with its table at offset 0x100 and a uart. The children
    of the bridge are a memory and a queue. *)
Definition demo_bus (a : Z) : Z :=
  if (SBD_BASE <=? a) && (a <? SBD_BASE + 192) then
    nth (Z.to_nat (a - SBD_BASE))
      (demo_record 0x5344422D 0x00030000 0 0 0 0 ++ demo_record 0 0x100 0x1000 GSI 0x10041000 SDB_BRIDGE ++
       demo_record 0 0 0x200 CERN 0xe2d13d04 SDB_DEVICE) 0
  else if (0x100 <=? a) && (a <? 0x100 + 192) then
    nth (Z.to_nat (a - 0x100))
      (demo_record 0x5344422D 0x00030000 0 0 0 0 ++ demo_record 0 0 0x40 CERN 0x66cfeb52 SDB_DEVICE ++
       demo_record 0 0 0x80 GSI 0x10040201 SDB_DEVICE) 0
  else 0.

Lemma find_sdb_deep_prefix_witness : exists l, all_records demo_bus 2 SBD_BASE 0 = Some l /\
  find_sdb_deep demo_bus 2 CERN 0x66cfeb52 2 SBD_BASE 0 [junk; junk] 0 =
    Some (stored [junk; junk] 0 [mk_location 0x140 0x1000], 1).
Proof.
  eexists. split; [vm_compute; reflexivity|].
  assert (H := find_sdb_deep_prefix demo_bus 2 2 CERN 0x66cfeb52 SBD_BASE 0 0 [junk; junk] _ ltac:(vm_compute; reflexivity) ltac:(lia) ltac:(cbn; lia)).
  vm_compute in H |- *. exact H.
Defined.

Lemma discoverPeriphery_spec_witness : exists p, discoverPeriphery demo_bus 2 = Some p /\
  pCluCB p = 0x1000 /\ pSharedRam p = 0x1040 /\ pFpqData p = 0x1080 /\ pUart p = 0x200 /\ pEbm p = 0.
Proof.
  eexists. split.
  - apply (discoverPeriphery_spec demo_bus 2 [mk_location 0x3FFFE040 0; mk_location 0x140 0x1000; mk_location 0x180 0x1000; mk_location 0x3FFFE080 0]
      [mk_location 0x140 0x1000; mk_location 0x180 0x1000] [] (mk_location 0x3FFFE040 0)); vm_compute; reflexivity.
  - vm_compute. auto.
Defined.
