(* ===== verification/Irq.v ===== *)
(** Message-signalled interrupts on the soft CPU: [src/modules/lm32-include/irq.c] and
    the critical sections of [src/modules/lm32-include/aux.c].

    The control registers of the CPU (pending, mask, enable) and the interrupt
    controller with its 32 message queues are hardware: they are an interface with
    the laws the dispatcher relies on. *)
From stdpp Require Import base list sets.
From Stdlib Require Import ZArith Lia.
From S2P Require Import Prelude Widths.

Definition IRQ_REG_POP : Z := 0x00000008.
Definition IRQ_OFFS_MSG : Z := 0x00000000.
Definition IRQ_OFFS_ADR : Z := 0x00000004.
Definition IRQ_OFFS_SEL : Z := 0x00000008.

Record msi := mk_msi { msg : Z; adr : Z; sel : Z }.

(** [rcsr] and [wcsr] of ip, im and ie; words of the interrupt controller; the
    processor's register [*pCpuAtomic]. *)
Class IrqHardware (H : Type) := {
  rcsr_ip : H -> Z; wcsr_ip : Z -> H -> H;
  rcsr_im : H -> Z; wcsr_im : Z -> H -> H;
  rcsr_ie : H -> Z; wcsr_ie : Z -> H -> H;
  slave_read : H -> Z -> Z; slave_write : Z -> Z -> H -> H;
  set_atomic : Z -> H -> H }.

Section irq.
Context {H : Type} `{IrqHardware H}.

(** * Control registers *)

Definition irq_get_mask (h : H) : Z := rcsr_im h.
Definition irq_set_mask (im : Z) (h : H) : H := wcsr_im im h.
Definition irq_get_enable (h : H) : Z := rcsr_ie h .& 1.
Definition irq_disable (h : H) : H := wcsr_ie (rcsr_ie h .& 0xFFFE) h.
Definition irq_enable (h : H) : H := wcsr_ie (rcsr_ie h .| 1) h.
Definition irq_clear (mask : Z) (h : H) : H := wcsr_ip mask h.

(** The variable [ier] is passed along. *)
Definition atomic_on (h : H) : H * Z :=
  let ier := irq_get_enable h in (set_atomic 1 (irq_disable h), ier).

Definition atomic_off (ier : Z) (h : H) : H :=
  let h := set_atomic 0 h in wcsr_ie (rcsr_ie h .| ier) h.

(** * The dispatcher *)

(** The message at the head of a queue, which is then removed. *)
Definition irq_pop_msi (irq_no : Z) (h : H) : msi * H :=
  let msg_queue := (irq_no + 1) .<< 2 in
  let m := mk_msi (slave_read h (msg_queue + (IRQ_OFFS_MSG .>> 2))) (slave_read h (msg_queue + (IRQ_OFFS_ADR .>> 2)))
                  (slave_read h (msg_queue + (IRQ_OFFS_SEL .>> 2))) in
  (m, slave_write (IRQ_REG_POP .>> 2) (u32 (1 .<< irq_no)) h).

(** [isr_ptr_table]: a handler works on [global_msi]; a null entry is [None]. *)
Definition isr_ptr : Type := option (msi -> H -> H).
Definition isr_table_clr : list isr_ptr := repeat None 32.

(** With the messages handed to handlers, in their order. *)
Fixpoint entry_loop (fuel : nat) (isr_ptr_table : list isr_ptr) (ip irq_no : Z) (h : H) (log : list (Z * msi)) : option (H * list (Z * msi)) :=
  if ip =? 0 then Some (h, log)
  else match fuel with
  | O => None
  | S fuel' =>
    '(h, log) ←
      (if negb ((ip .& 1) =? 0) then
        let '(global_msi, h) := irq_pop_msi irq_no h in
        let h := irq_clear (u32 (1 .<< irq_no)) h in
        isr ← isr_ptr_table !! Z.to_nat irq_no;
        isr ← isr;
        Some (isr global_msi h, log ++ [(irq_no, global_msi)])
      else Some (h, log));
    entry_loop fuel' isr_ptr_table (ip .>> 1) (u8 (irq_no + 1)) h log
  end.

(** [ip] has 32 bits. *)
Definition _irq_entry (isr_ptr_table : list isr_ptr) (h : H) : option (H * list (Z * msi)) :=
  entry_loop 32 isr_ptr_table (rcsr_ip h) 0 h [].
End irq.

(** * The controller *)

(** Queue [k] is read at the words [4 * (k + 1)]; a bit written to the pop register
    removes a message; the flags of the CPU do not change the queues. *)
Class MsiQueues (H : Type) {hw : IrqHardware H} := {
  queue : H -> nat -> list msi;
  rcsr_ip_range : forall h, 0 <= rcsr_ip h < 2 ^ 32;
  queue_head : forall h k m rest, (k < 32)%nat -> queue h k = m :: rest ->
    slave_read h (4 * (Z.of_nat k + 1)) = msg m /\ slave_read h (4 * (Z.of_nat k + 1) + 1) = adr m /\
    slave_read h (4 * (Z.of_nat k + 1) + 2) = sel m;
  queue_pop : forall h k j, (k < 32)%nat -> queue (slave_write 2 (2 ^ Z.of_nat k) h) j = if decide (j = k) then tl (queue h j) else queue h j;
  queue_clear : forall h mask j, queue (wcsr_ip mask h) j = queue h j }.

Lemma filter_nil_of {A} (f : A -> bool) l : (forall x, In x l -> f x = false) -> List.filter f l = [].
Proof.
  induction l as [|x l IH]; intros Hf; [done|]. cbn [List.filter]. rewrite Hf by (by left). apply IH. intros y Hy. apply Hf. by right.
Qed.

Section dispatch.
Context {H : Type} {hw : IrqHardware H} {queues : MsiQueues H} (table : list (@isr_ptr H)).

(** The interrupts of a mask, lowest number first. *)
Definition below (n : nat) (ip : Z) : list nat := List.filter (fun k => Z.testbit ip (Z.of_nat k)) (seq 0 n).
Definition pending (ip : Z) : list nat := below 32 ip.

(** While a handler runs messages may arrive, none disappear. *)
Definition handlers_keep : Prop := forall k isr m h j, table !! k = Some (Some isr) -> queue h j `prefix_of` queue (isr m h) j.

(** The state of the queues after the interrupts [done] were served. *)
Definition served (h0 : H) (finished : list nat) (h : H) : Prop := forall j,
  (if decide (j ∈ finished) then tl (queue h0 j) else queue h0 j) `prefix_of` queue h j.

Definition log_of (h0 : H) (ks : list nat) : list (Z * msi) :=
  omap (fun k => m ← head (queue h0 k); Some (Z.of_nat k, m)) ks.

Lemma low_bit x : negb ((x .& 1) =? 0) = Z.testbit x 0.
Proof. change 1 with (Z.ones 1). rewrite Z.land_ones by lia. rewrite Z.bit0_odd, Zmod_odd. by destruct (Z.odd x). Qed.

Lemma below_snoc ip k : below (S k) ip = below k ip ++ (if Z.testbit ip (Z.of_nat k) then [k] else []).
Proof. unfold below. rewrite seq_S, List.filter_app. cbn. by destruct (Z.testbit ip (Z.of_nat k)). Qed.

Lemma elem_of_below ip n k : k ∈ below n ip <-> (k < n)%nat /\ Z.testbit ip (Z.of_nat k) = true.
Proof. unfold below. rewrite list_elem_of_In, filter_In, in_seq. split; intros [? ?]; (split; [lia|done]). Qed.

(** No bits from [k] on. *)
Lemma below_end ip k n : ip .>> Z.of_nat k = 0 -> below (k + n) ip = below k ip.
Proof.
  intros Hz. unfold below. rewrite seq_app, List.filter_app.
  assert (List.filter (fun j => Z.testbit ip (Z.of_nat j)) (seq (0 + k) n) = []) as ->; [|apply app_nil_r].
  apply filter_nil_of. intros j Hj%in_seq. replace (Z.of_nat j) with (Z.of_nat j - Z.of_nat k + Z.of_nat k) by lia.
  rewrite <- Z.shiftr_spec by lia. by rewrite Hz, Z.testbit_0_l.
Qed.

Lemma log_of_snoc h0 ks k m rest : queue h0 k = m :: rest -> log_of h0 (ks ++ [k]) = log_of h0 ks ++ [(Z.of_nat k, m)].
Proof. intros Hq. unfold log_of. rewrite omap_app. cbn. by rewrite Hq. Qed.

(** Serving the interrupt [k]: its message is the head of its queue. *)
Lemma serve_one h0 finished h k m rest isr : handlers_keep -> (k < 32)%nat -> served h0 finished h -> k ∉ finished ->
  queue h0 k = m :: rest -> table !! k = Some (Some isr) ->
  exists h1, irq_pop_msi (Z.of_nat k) h = (m, h1) /\
    served h0 (finished ++ [k]) (isr m (irq_clear (u32 (1 .<< Z.of_nat k)) h1)).
Proof.
  intros Hkeep Hk Hs Hnew Hq Hisr. pose proof (Hs k) as Hqk. rewrite decide_False, Hq in Hqk by done. destruct Hqk as [later Hqk].
  destruct (queue_head h k m (rest ++ later) Hk Hqk) as (H1 & H2 & H3).
  assert (u32 (1 .<< Z.of_nat k) = 2 ^ Z.of_nat k) as Hbit.
  { rewrite Z.shiftl_1_l. apply wrap_small. split; [apply Z.pow_nonneg; lia|apply Z.pow_lt_mono_r; lia]. }
  exists (slave_write 2 (2 ^ Z.of_nat k) h). split.
  - unfold irq_pop_msi. rewrite Hbit, Z.shiftl_mul_pow2 by lia.
    change (IRQ_REG_POP .>> 2) with 2. change (IRQ_OFFS_MSG .>> 2) with 0. change (IRQ_OFFS_ADR .>> 2) with 1. change (IRQ_OFFS_SEL .>> 2) with 2.
    replace ((Z.of_nat k + 1) * 2 ^ 2) with (4 * (Z.of_nat k + 1)) by lia. rewrite Z.add_0_r, H1, H2, H3. by destruct m.
  - intros j. etransitivity; [|by apply (Hkeep k)]. unfold irq_clear. rewrite queue_clear, queue_pop by done.
    specialize (Hs j). destruct (decide (j = k)) as [->|Hjk].
    + rewrite decide_True by set_solver. rewrite Hq, Hqk. cbn. by exists later.
    + destruct (decide (j ∈ finished)); [rewrite decide_True by set_solver|rewrite decide_False by set_solver]; done.
Qed.

Lemma entry_loop_spec h0 ip : handlers_keep -> 0 <= ip < 2 ^ 32 ->
  (forall k, k ∈ pending ip -> (exists isr, table !! k = Some (Some isr)) /\ queue h0 k <> []) ->
  forall n k h, (k + n = 32)%nat -> served h0 (below k ip) h ->
  exists h', entry_loop n table (ip .>> Z.of_nat k) (Z.of_nat k) h (log_of h0 (below k ip)) = Some (h', log_of h0 (pending ip)) /\
    served h0 (pending ip) h'.
Proof.
  intros Hkeep Hip Hready n. induction n as [|n IH]; intros k h Hk Hs.
  { assert (ip .>> Z.of_nat k = 0) as Hz by (rewrite Z.shiftr_div_pow2 by lia; apply Z.div_small; replace (Z.of_nat k) with 32 by lia; done).
    exists h. assert (below k ip = pending ip) as <- by (unfold pending; f_equal; lia). split; [|done]. cbn [entry_loop]. by rewrite Hz. }
  cbn [entry_loop]. destruct (Z.eqb_spec (ip .>> Z.of_nat k) 0) as [Hz|Hz].
  { assert (below k ip = pending ip) as <-; [|by exists h]. unfold pending. rewrite <- Hk. symmetry. by apply below_end. }
  rewrite low_bit, Z.shiftr_spec, Z.add_0_l by lia.
  replace (u8 (Z.of_nat k + 1)) with (Z.of_nat (S k)) by (rewrite wrap_small by lia; lia).
  assert ((ip .>> Z.of_nat k) .>> 1 = ip .>> Z.of_nat (S k)) as -> by (rewrite Z.shiftr_shiftr by lia; f_equal; lia).
  specialize (IH (S k)). rewrite below_snoc in IH.
  destruct (Z.testbit ip (Z.of_nat k)) eqn:Hbit.
  - assert (k ∈ pending ip) as Hin by (apply elem_of_below; split; [lia|done]).
    destruct (Hready k Hin) as ([isr Hisr] & Hne). destruct (queue h0 k) as [|m rest] eqn:Hq; [done|].
    assert (k ∉ below k ip) as Hnew by (rewrite elem_of_below; lia).
    destruct (serve_one h0 (below k ip) h k m rest isr Hkeep ltac:(lia) Hs Hnew Hq Hisr) as (h1 & -> & Hs1).
    rewrite Nat2Z.id, Hisr. cbn [mbind option_bind]. rewrite (log_of_snoc h0 (below k ip) k m rest Hq) in IH. apply IH; [lia|done].
  - rewrite app_nil_r in IH. apply IH; [lia|done].
Qed.

(** C35: with a handler for every pending interrupt the dispatcher ends; every pending
    interrupt was served once, the lowest number first, with the message at the head
    of its queue, which is gone afterwards; no other message is. *)
Theorem irq_entry_delivers (h : H) (Hkeep : handlers_keep)
    (Hready : forall k, k ∈ pending (rcsr_ip h) -> (exists isr, table !! k = Some (Some isr)) /\ queue h k <> []) :
  exists h', _irq_entry table h = Some (h', log_of h (pending (rcsr_ip h))) /\ served h (pending (rcsr_ip h)) h'.
Proof.
  apply (entry_loop_spec h (rcsr_ip h) Hkeep (rcsr_ip_range h) Hready 32 0 h); [done|].
  intros j. rewrite decide_False by apply not_elem_of_nil. done.
Qed.
End dispatch.

(** * Critical sections *)

(** The processor's control registers hold what was written. *)
Class ControlRegisters (H : Type) {hw : IrqHardware H} := {
  rcsr_wcsr_ie : forall x h, rcsr_ie (wcsr_ie x h) = x;
  atomic_ie : forall x h, rcsr_ie (set_atomic x h) = rcsr_ie h }.

Section atomic.
Context {H : Type} {hw : IrqHardware H} {regs : ControlRegisters H}.

(** A section disables the interrupts and gives the enable bit back at its end. *)
Lemma atomic_restores (h : H) : 0 <= rcsr_ie h < 2 ^ 16 ->
  let '(h1, ier) := atomic_on h in
  irq_get_enable h1 = 0 /\ forall h2, rcsr_ie h2 = rcsr_ie h1 -> rcsr_ie (atomic_off ier h2) = rcsr_ie h.
Proof.
  intros Hr. unfold atomic_on, atomic_off, irq_get_enable, irq_disable. cbv beta iota zeta. rewrite atomic_ie, rcsr_wcsr_ie. split.
  - rewrite <- Z.land_assoc. change (0xFFFE .& 1) with 0. apply Z.land_0_r.
  - intros h2 E. rewrite rcsr_wcsr_ie, !atomic_ie, E. rewrite <- Z.land_lor_distr_r.
    change (0xFFFE .| 1) with (Z.ones 16). rewrite Z.land_ones by lia. by apply Z.mod_small.
Qed.

(** The variable has one value: after a section inside of another one the interrupts
    stay disabled. *)
Lemma nested_atomic_stays_disabled (h : H) :
  let '(h1, _) := atomic_on h in let '(h2, ier) := atomic_on h1 in
  irq_get_enable (atomic_off ier (atomic_off ier h2)) = 0.
Proof.
  unfold atomic_on, atomic_off, irq_get_enable, irq_disable. cbv beta iota zeta.
  repeat first [rewrite rcsr_wcsr_ie|rewrite atomic_ie].
  rewrite <- (Z.land_assoc (rcsr_ie h) 0xFFFE 1). change (0xFFFE .& 1) with 0. rewrite Z.land_0_r, !Z.lor_0_r.
  rewrite <- !Z.land_assoc. change (0xFFFE .& (0xFFFE .& 1)) with 0. apply Z.land_0_r.
Qed.
End atomic.

(** * A controller with two queues *)

Record sim_irq := mk_sim { sim_ip : Z; sim_ie : Z; sim_queues : list (list msi) }.

Definition sim_head (q : list (list msi)) (k : nat) : msi := hd (mk_msi 0 0 0) (nth k q []).

#[export] Instance sim_hardware : IrqHardware sim_irq := {
  rcsr_ip h := u32 (sim_ip h); wcsr_ip x h := mk_sim (Z.ldiff (sim_ip h) x) (sim_ie h) (sim_queues h);
  rcsr_im h := 0; wcsr_im x h := h;
  rcsr_ie h := sim_ie h; wcsr_ie x h := mk_sim (sim_ip h) x (sim_queues h);
  slave_read h a :=
    let m := sim_head (sim_queues h) (Z.to_nat (a / 4 - 1)) in
    if a mod 4 =? 0 then msg m else if a mod 4 =? 1 then adr m else sel m;
  slave_write a x h :=
    if a =? 2 then mk_sim (sim_ip h) (sim_ie h) (imap (fun j q => if x =? 2 ^ Z.of_nat j then tl q else q) (sim_queues h)) else h;
  set_atomic x h := h }.

#[export] Program Instance sim_msi_queues : MsiQueues sim_irq := { queue h k := nth k (sim_queues h) [] }.
Next Obligation. intros h. apply wrap_range. lia. Qed.
Next Obligation.
  intros h k m rest Hk Hq. cbn [slave_read sim_hardware]. set (n := Z.of_nat k).
  replace (4 * (n + 1)) with ((n + 1) * 4) by lia. rewrite Z.mod_mul, Z.div_mul by lia.
  rewrite !(Z.add_comm ((n + 1) * 4)), !Z.mod_add, !Z.div_add by lia.
  change (1 / 4) with 0. change (2 / 4) with 0. change (1 mod 4) with 1. change (2 mod 4) with 2. cbn [Z.eqb].
  rewrite !Z.add_0_l. replace (Z.to_nat (n + 1 - 1)) with k by lia. unfold sim_head. by rewrite Hq.
Qed.
Next Obligation.
  intros h k j Hk. cbn. rewrite !nth_lookup, list_lookup_imap. destruct (sim_queues h !! j) as [q|] eqn:Hq; cbn; [|by case_decide].
  destruct (decide (j = k)) as [->|Hjk]; [by rewrite Z.eqb_refl|]. rewrite (proj2 (Z.eqb_neq _ _)); [done|].
  intros Heq. apply Z.pow_inj_r in Heq; lia.
Qed.
Next Obligation. done. Qed.

Lemma irq_entry_delivers_witness :
  let h := mk_sim 10 1 [[]; [mk_msi 7 8 9; mk_msi 1 1 1]; []; [mk_msi 4 5 6]] in
  exists h', _irq_entry (repeat (Some (fun _ h => h)) 32) h = Some (h', [(1, mk_msi 7 8 9); (3, mk_msi 4 5 6)]) /\
    served h [1; 3]%nat h'.
Proof.
  intros h. assert (forall k isr, repeat (Some (fun (_ : msi) (h : sim_irq) => h)) 32 !! k = Some (Some isr) -> isr = fun _ h => h) as Hisr.
  { intros k isr Hk. apply list_elem_of_lookup_2, list_elem_of_In, repeat_spec in Hk. congruence. }
  assert (pending (rcsr_ip h) = [1; 3]%nat) as Hp by (vm_compute; reflexivity).
  destruct (irq_entry_delivers (repeat (Some (fun _ h => h)) 32) h) as (h' & E & Hs).
  - intros k isr m h1 j Hk. by rewrite (Hisr k isr Hk).
  - rewrite Hp. intros k Hk. split; [exists (fun _ h => h)|]; by repeat (apply elem_of_cons in Hk as [-> | Hk]; [done|]); apply elem_of_nil in Hk.
  - rewrite Hp in E, Hs. exists h'. split; [exact E|exact Hs].
Defined.
