(* ===== verification/Snoop.v ===== *)
(** The software memory [eb-snoop]: [src/api/tools/eb-snoop.c]. The program attaches
    one device whose callbacks keep an array of bytes; whatever a remote tool asks
    of the bus in the range of the device is served from the array. *)
From stdpp Require Import base list gmap.
From Stdlib Require Import ZArith Lia.
From S2P Require Import Prelude Widths Store World Linked Cycle Format Master Valid Target Access Transfer TransferCorrect.

(** [address], [endian]; the array has [addr_last - addr_first + 1] bytes. *)
Record snoop := mk_snoop { sn_address : Z; sn_endian : Z }.

Definition new_memory (addr_first addr_last : Z) : list Z := repeat 0 (Z.to_nat (wrap 64 (addr_last - addr_first + 1))).

(** [SDB_WISHBONE_LITTLE_ENDIAN] and the operation widths of the device. *)
Definition snoop_bus_specific (o : snoop) (width : Z) : Z := (if sn_endian o =? EB_LITTLE_ENDIAN then 0x80 else 0) .| width.

Section snoop.
Context (o : snoop).

(** [out <<= 8; out |= my_memory[req_address+i];] for the offsets [offs]. An access
    outside of the array: [None]. *)
Fixpoint snoop_reads (memory : list Z) (req_address : Z) (offs : list nat) (out : Z) : option Z :=
  match offs with
  | [] => Some out
  | i :: offs' =>
    x ← memory !! Z.to_nat (wrap 64 (req_address + Z.of_nat i));
    snoop_reads memory req_address offs' (wrap 64 (out .<< 8) .| x)
  end.

Definition my_read (memory : list Z) (req_address width : Z) : option Z :=
  let n := Z.to_nat (width .& EB_DATAX) in
  let req_address := wrap 64 (req_address - sn_address o) in
  snoop_reads memory req_address (if sn_endian o =? EB_BIG_ENDIAN then seq 0 n else rev (seq 0 n)) 0.

(** [my_memory[req_address+i] = data & 0xff; data >>= 8;] *)
Fixpoint snoop_writes (memory : list Z) (req_address : Z) (offs : list nat) (data : Z) : option (list Z) :=
  match offs with
  | [] => Some memory
  | i :: offs' =>
    memory ← array_set memory (Z.to_nat (wrap 64 (req_address + Z.of_nat i))) (data .& 0xff);
    snoop_writes memory req_address offs' (data .>> 8)
  end.

Definition my_write (memory : list Z) (req_address width data : Z) : option (list Z) :=
  let n := Z.to_nat (width .& EB_DATAX) in
  let req_address := wrap 64 (req_address - sn_address o) in
  snoop_writes memory req_address (if sn_endian o =? EB_BIG_ENDIAN then rev (seq 0 n) else seq 0 n) data.

(** * Words *)

(** An access of [n] bytes inside of the array. *)
Definition inside (memory : list Z) (a width : Z) : Prop :=
  let n := width .& EB_DATAX in
  1 <= n <= 8 /\ wrap 64 (a - sn_address o) + n <= Z.of_nat (length memory) < 2 ^ 64.

Lemma read_loop_fold memory off offs : forall out l,
  map (fun i => memory !! Z.to_nat (wrap 64 (off + Z.of_nat i))) offs = map Some l ->
  snoop_reads memory off offs out = Some (fold_left (fun data x => wrap 64 (data .<< 8) .| x) l out).
Proof.
  induction offs as [|i offs IH]; intros out [|x l] Hl; try done. cbn in Hl. injection Hl as Hx Hl.
  cbn [snoop_reads fold_left]. rewrite Hx. cbn [mbind option_bind]. by apply IH.
Qed.

(** The bytes of a range, in their order. *)
Lemma lookup_slice memory off n : (Z.to_nat off + n <= length memory)%nat -> 0 <= off -> off + Z.of_nat n < 2 ^ 64 ->
  map (fun i => memory !! Z.to_nat (wrap 64 (off + Z.of_nat i))) (seq 0 n) = map Some (slice memory (Z.to_nat off) n).
Proof.
  intros Hn Hoff Hw. apply (list_eq_same_length _ _ n); [by rewrite length_map, length_slice|by rewrite length_map, length_seq|].
  intros i x y Hi Hx Hy. change (map ?f ?l) with (f <$> l) in Hx. change (map ?f ?l) with (f <$> l) in Hy.
  rewrite list_lookup_fmap, lookup_seq_lt in Hx by done. rewrite list_lookup_fmap in Hy. cbn in Hx. injection Hx as <-.
  rewrite wrap_small by lia. unfold slice in Hy. rewrite lookup_take_lt, lookup_drop in Hy by done.
  replace (Z.to_nat (off + Z.of_nat i)) with (Z.to_nat off + i)%nat by lia.
  destruct (memory !! (Z.to_nat off + i)%nat); cbn in Hy; congruence.
Qed.

Lemma my_read_word memory a width : bytes_ok memory -> inside memory a width ->
  my_read memory a width =
    Some (word_val (sn_endian o) (slice memory (Z.to_nat (wrap 64 (a - sn_address o))) (Z.to_nat (width .& EB_DATAX)))).
Proof.
  intros Hok (Hn & Hlen & Hmax). unfold my_read. set (off := wrap 64 (a - sn_address o)) in *. set (n := Z.to_nat _).
  pose proof (wrap_range 64 (a - sn_address o) ltac:(lia)) as Hoff. fold off in Hoff.
  set (l := slice memory (Z.to_nat off) n). assert (length l = n) as Hll by (apply length_slice; lia).
  rewrite <- put_value_word; [|apply Forall_take, Forall_drop, Hok|lia]. unfold put_value.
  pose proof (lookup_slice memory off n ltac:(lia) ltac:(lia) ltac:(lia)) as Hmap. fold l in Hmap.
  destruct (sn_endian o =? EB_BIG_ENDIAN); apply read_loop_fold; [done|]. by rewrite !map_rev, Hmap.
Qed.

Lemma write_loop_spec offs : NoDup offs -> forall memory off data, 0 <= off -> Z.of_nat (length memory) < 2 ^ 64 ->
  Forall (fun i => off + Z.of_nat i < Z.of_nat (length memory)) offs ->
  exists memory', snoop_writes memory off offs data = Some memory' /\ length memory' = length memory /\
    (forall j i, offs !! j = Some i -> memory' !! (Z.to_nat off + i)%nat = Some ((data .>> (8 * Z.of_nat j)) .& 255)) /\
    (forall p, (forall i, i ∈ offs -> p <> (Z.to_nat off + i)%nat) -> memory' !! p = memory !! p).
Proof.
  induction 1 as [|i offs Hi Hnd IH]; intros memory off data Hoff Hmax Hin.
  { exists memory. split; [done|]. split; [done|]. split; [by intros|done]. }
  apply Forall_cons in Hin as [Hlt Hin]. cbn [snoop_writes]. rewrite wrap_small by lia.
  replace (Z.to_nat (off + Z.of_nat i)) with (Z.to_nat off + i)%nat by lia.
  rewrite array_set_lt by lia. cbn [mbind option_bind]. set (memory1 := <[_ := _]> memory).
  assert (length memory1 = length memory) as Hl1 by apply length_insert.
  destruct (IH memory1 off (data .>> 8)) as (memory' & Hrun & Hl' & Hbytes & Hrest); [done|by rewrite Hl1|by rewrite Hl1|].
  exists memory'. split; [done|]. split; [congruence|]. split.
  - intros [|j] k Hk; cbn in Hk.
    + injection Hk as <-. rewrite Hrest by (intros k Hk Heq; assert (i = k) as -> by lia; done).
      subst memory1. rewrite list_lookup_insert_eq by lia. done.
    + rewrite (Hbytes j k Hk), Z.shiftr_shiftr by lia. do 3 f_equal. lia.
  - intros p Hp. rewrite Hrest by (intros k Hk; apply Hp; by right). subst memory1. apply list_lookup_insert_ne.
    intros Heq. apply (Hp i); [by left|done].
Qed.

Lemma lookup_be_bytes n v i : (i < n)%nat -> be_bytes n v !! i = Some ((v .>> (8 * Z.of_nat (n - 1 - i))) .& 255).
Proof.
  revert i. induction n as [|n IH]; intros i Hi; [lia|]. cbn [be_bytes]. destruct i as [|i]; cbn [lookup list_lookup].
  - do 3 f_equal. lia.
  - rewrite IH by lia. do 5 f_equal. lia.
Qed.

Lemma lookup_rev {A} (l : list A) i : (i < length l)%nat -> rev l !! i = l !! (length l - 1 - i)%nat.
Proof. intros Hi. rewrite rev_alt. change (rev_append l []) with (reverse l). rewrite reverse_lookup by done. f_equal. lia. Qed.

Lemma lookup_splice b off bs p : (off + length bs <= length b)%nat ->
  splice b off bs !! p = if decide (off <= p < off + length bs)%nat then bs !! (p - off)%nat else b !! p.
Proof.
  intros Hfit. unfold splice. assert (length (take off b) = off) as Hl by (rewrite length_take; lia).
  destruct (decide (p < off)%nat) as [Hlt|Hge].
  - rewrite decide_False, lookup_app_l, lookup_take_lt by lia. done.
  - rewrite lookup_app_r, Hl by lia. destruct (decide (p < off + length bs)%nat).
    + rewrite decide_True, lookup_app_l by lia. done.
    + rewrite decide_False, lookup_app_r, lookup_drop by lia. f_equal. lia.
Qed.

Lemma my_write_word memory a width data : inside memory a width ->
  my_write memory a width data = Some (splice memory (Z.to_nat (wrap 64 (a - sn_address o)))
    (word_bytes (sn_endian o) (Z.to_nat (width .& EB_DATAX)) data)).
Proof.
  intros (Hn & Hlen & Hmax). unfold my_write. set (off := wrap 64 (a - sn_address o)) in *. set (n := Z.to_nat _).
  pose proof (wrap_range 64 (a - sn_address o) ltac:(lia)) as Hoff. fold off in Hoff.
  set (offs := if sn_endian o =? EB_BIG_ENDIAN then rev (seq 0 n) else seq 0 n).
  destruct (write_loop_spec offs) with (memory := memory) (off := off) (data := data) as (memory' & -> & Hl & Hbytes & Hrest).
  { subst offs. destruct (_ =? _); [apply NoDup_ListNoDup, List.NoDup_rev|apply NoDup_ListNoDup]; apply seq_NoDup. }
  { lia. } { lia. }
  { apply Forall_forall. intros i Hi%list_elem_of_In. subst offs. destruct (_ =? _); [apply in_rev in Hi|]; apply in_seq in Hi; lia. }
  f_equal. set (off' := Z.to_nat off) in *. pose proof (length_word_bytes (sn_endian o) n data) as Hwl.
  apply list_eq. intros p. rewrite lookup_splice by lia. rewrite Hwl. destruct (decide (off' <= p < off' + n)%nat) as [Hp|Hp].
  - replace p with (off' + (p - off'))%nat at 1 by lia. set (i := (p - off')%nat). assert (i < n)%nat as Hi by (subst i; lia).
    unfold word_bytes. subst offs. destruct (sn_endian o =? EB_BIG_ENDIAN).
    + rewrite (Hbytes (n - 1 - i)%nat i); [by rewrite lookup_be_bytes|].
      rewrite lookup_rev, length_seq, lookup_seq_lt by (rewrite ?length_seq; lia). f_equal. lia.
    + rewrite (Hbytes i i) by (by apply lookup_seq_lt). rewrite lookup_rev, length_be_bytes, lookup_be_bytes by (rewrite ?length_be_bytes; lia).
      do 4 f_equal. lia.
  - apply Hrest. intros i Hi%list_elem_of_In Heq. apply Hp. assert (i < n)%nat; [|lia].
    subst offs. destruct (_ =? _); [apply in_rev in Hi|]; apply in_seq in Hi; lia.
Qed.

(** * The program as a bus *)

(** An access of a tool, served by the callbacks. *)
Definition snoop_serve (memory : list Z) (x : access) : option (list Z * Z) :=
  if a_write x then memory ← my_write memory (a_address x) (a_format x) (a_value x); Some (memory, a_value x)
  else v ← my_read memory (a_address x) (a_format x); Some (memory, v).

Fixpoint snoop_cycle (memory : list Z) (ops : list access) : option (list Z * list Z) :=
  match ops with
  | [] => Some (memory, [])
  | x :: rest =>
    '(memory, v) ← snoop_serve memory x;
    '(memory, vs) ← snoop_cycle memory rest;
    Some (memory, v :: vs)
  end.

Fixpoint run_snoop (memory : list Z) (s : script) : option (list Z * Z * option Z) :=
  match s with
  | Exit code printed => Some (memory, code, printed)
  | Cycle ops k => '(memory, vs) ← snoop_cycle memory ops; run_snoop memory (k EB_OK vs)
  end.

(** Accesses of words inside of the range, in the byte order of the device. *)
Definition served_here (size : nat) (x : access) : Prop :=
  a_config x = false /\ access_endian (sn_endian o) x = sn_endian o /\
  1 <= a_format x .& EB_DATAX <= 8 /\
  wrap 64 (a_address x - sn_address o) + (a_format x .& EB_DATAX) <= Z.of_nat size < 2 ^ 64 /\
  (a_write x = true -> 0 <= a_value x < 2 ^ (8 * Z.of_nat (a_size x))).

Section refinement.
Context {B : Type} {bus : ByteBus B}.

(** The array is the range of the bus from [address] on. *)
Definition mirrors (b : B) (memory : list Z) : Prop := forall i, (i < length memory)%nat ->
  memory !! i = Some (peek b false (wrap 64 (sn_address o + Z.of_nat i))).

Lemma mirrors_ok b memory : mirrors b memory -> bytes_ok memory.
Proof.
  intros Hm. apply Forall_lookup_2. intros i x Hx. rewrite Hm in Hx by (by apply lookup_lt_Some in Hx). injection Hx as <-. apply peek_byte.
Qed.

Lemma mirrors_load b memory a n : mirrors b memory ->
  wrap 64 (a - sn_address o) + Z.of_nat n <= Z.of_nat (length memory) ->
  load b false a n = slice memory (Z.to_nat (wrap 64 (a - sn_address o))) n.
Proof.
  intros Hm Hn. pose proof (wrap_range 64 (a - sn_address o) ltac:(lia)) as Hoff. set (off := wrap 64 (a - sn_address o)) in *.
  apply (list_eq_same_length _ _ n); [by rewrite length_slice by lia|apply length_load|].
  intros i x y Hi Hx Hy. rewrite lookup_load in Hx by done. unfold slice in Hy. rewrite lookup_take_lt, lookup_drop, Hm in Hy by lia.
  injection Hx as <-. injection Hy as <-. f_equal. replace (Z.of_nat (Z.to_nat off + i)) with (off + Z.of_nat i) by lia.
  replace (sn_address o + (off + Z.of_nat i)) with (off + (sn_address o + Z.of_nat i)) by lia.
  subst off. rewrite wrap_add_l. f_equal. lia.
Qed.

Lemma mirrors_store b memory a l : mirrors b memory -> bytes_ok l ->
  wrap 64 (a - sn_address o) + Z.of_nat (length l) <= Z.of_nat (length memory) < 2 ^ 64 ->
  mirrors (store b false a l) (splice memory (Z.to_nat (wrap 64 (a - sn_address o))) l).
Proof.
  intros Hm Hl Hn. pose proof (wrap_range 64 (a - sn_address o) ltac:(lia)) as Hoff. set (off := wrap 64 (a - sn_address o)) in *.
  intros i Hi. rewrite length_splice in Hi by lia. rewrite lookup_splice by lia.
  rewrite peek_store by (done || (apply wrap_range; lia) || lia). rewrite (decide_True (P := false = false)) by done.
  assert (wrap 64 (wrap 64 (sn_address o + Z.of_nat i) - a) = wrap 64 (Z.of_nat i - off)) as ->.
  { rewrite wrap_sub_l. replace (Z.of_nat i - off) with (- off + Z.of_nat i) by lia.
    subst off. rewrite <- (wrap_add_l _ (- _)).
    replace (wrap 64 (- wrap 64 (a - sn_address o))) with (wrap 64 (sn_address o - a)).
    - rewrite wrap_add_l. f_equal. lia.
    - rewrite <- (Z.sub_0_l (wrap 64 _)). unfold wrap. rewrite Zminus_mod_idemp_r. f_equal. lia. }
  destruct (decide (Z.to_nat off <= i < Z.to_nat off + length l)%nat) as [Hin|Hout].
  - rewrite (wrap_small 64 (Z.of_nat i - off)) by lia. replace (Z.to_nat (Z.of_nat i - off)) with (i - Z.to_nat off)%nat by lia.
    destruct (lookup_lt_is_Some_2 l (i - Z.to_nat off) ltac:(lia)) as [y ->]. done.
  - rewrite (lookup_ge_None_2 l); [by apply Hm|]. destruct (Z.lt_ge_cases (Z.of_nat i) off).
    + assert (wrap 64 (Z.of_nat i - off) = Z.of_nat i - off + 2 ^ 64) as ->; [|lia].
      unfold wrap. symmetry. apply Z.mod_unique with (-1); lia.
    + rewrite (wrap_small 64 (Z.of_nat i - off)) by lia. lia.
Qed.

Lemma serve_mirrors b memory x : mirrors b memory -> served_here (length memory) x ->
  exists memory', snoop_serve memory x = Some (memory', snd (serve (sn_endian o) b x)) /\
    length memory' = length memory /\ mirrors (fst (serve (sn_endian o) b x)) memory' /\
    0 <= snd (serve (sn_endian o) b x) < 2 ^ (8 * Z.of_nat (a_size x)).
Proof.
  intros Hm (Hcfg & Hend & Hn & Hin & Hval). pose proof (wrap_range 64 (a_address x - sn_address o) ltac:(lia)) as Hoff. unfold snoop_serve, serve. rewrite Hcfg, Hend. destruct (a_write x) eqn:Hw.
  - rewrite my_write_word by done. cbn [mbind option_bind fst snd].
    eexists. split; [done|]. rewrite length_splice by (rewrite length_word_bytes; lia). split; [done|]. split; [|by apply Hval].
    apply mirrors_store; [done|apply word_bytes_ok|]. rewrite length_word_bytes. unfold a_size. lia.
  - rewrite my_read_word; [|by eapply mirrors_ok|done]. cbn [mbind option_bind fst snd]. exists memory.
    rewrite <- (mirrors_load b) by (done || lia). fold (a_size x). split_and!; try done.
    + apply word_val_range, load_ok.
    + pose proof (word_val_range (sn_endian o) _ (load_ok b false (a_address x) (a_size x))) as Hr.
      rewrite length_load, pow256 in Hr by lia. apply Hr.
Qed.

Lemma cycle_mirrors ops : forall b memory, mirrors b memory -> Forall (served_here (length memory)) ops ->
  exists memory', snoop_cycle memory ops = Some (memory', snd (serve_cycle (sn_endian o) b ops)) /\
    length memory' = length memory /\ mirrors (fst (serve_cycle (sn_endian o) b ops)) memory' /\
    answers ops (snd (serve_cycle (sn_endian o) b ops)).
Proof.
  induction ops as [|x ops IH]; intros b memory Hm Hall.
  { exists memory. split_and!; try done. constructor. }
  apply Forall_cons in Hall as [Hx Hall]. destruct (serve_mirrors b memory x Hm Hx) as (m1 & E1 & L1 & M1 & V1).
  cbn [snoop_cycle serve_cycle]. rewrite E1. cbn [mbind option_bind]. destruct (serve (sn_endian o) b x) as [b1 v]. cbn [fst snd] in *.
  rewrite <- L1 in Hall. destruct (IH b1 m1 M1 Hall) as (m2 & E2 & L2 & M2 & V2). rewrite E2.
  destruct (serve_cycle (sn_endian o) b1 ops) as [b2 vs]. cbn [fst snd mbind option_bind] in *.
  exists m2. split_and!; try done; [congruence|]. by constructor.
Qed.

(** C30: for every tool that asks for words in the range of the device and in its byte
    order, the software memory behaves like a bus that keeps its bytes: the tool
    gets the same answers, ends with the same code and output, and the array holds
    the bytes of the bus; no access leaves the array. *)
Theorem snoop_refines_bus (b : B) (memory : list Z) (s : script)
    (Hmirror : mirrors b memory) (Hserved : forall x, issued s x -> served_here (length memory) x) :
  let '(b', code, printed) := run_script (sn_endian o) b s in
  exists memory', run_snoop memory s = Some (memory', code, printed) /\ mirrors b' memory'.
Proof.
  revert b memory Hmirror Hserved. induction s as [code printed|ops k IH]; intros b memory Hm Hs; cbn [run_script run_snoop].
  { by exists memory. }
  destruct (cycle_mirrors ops b memory Hm) as (m1 & E1 & L1 & M1 & V1).
  { apply Forall_forall. intros x Hx. apply Hs. constructor. by apply list_elem_of_In. }
  rewrite E1. destruct (serve_cycle (sn_endian o) b ops) as [b1 vs]. cbn [fst snd mbind option_bind] in *.
  apply IH; [done|]. rewrite L1. intros x Hx. apply Hs. by eapply issued_later.
Qed.
End refinement.
End snoop.

(** The last word of a range that is not made of whole words lies behind the array. *)
Lemma last_word_overruns : my_read (mk_snoop 0x4000 EB_BIG_ENDIAN) (new_memory 0x4000 0x4005) 0x4004 4 = None /\
  my_write (mk_snoop 0x4000 EB_BIG_ENDIAN) (new_memory 0x4000 0x4005) 0x4004 4 7 = None.
Proof. by vm_compute. Qed.

(** A tool that writes a word and prints it. *)
Definition demo_script : script :=
  Cycle [mk_access true false 0x4004 (EB_BIG_ENDIAN .| 4) 0x01020304; mk_access false false 0x4004 (EB_BIG_ENDIAN .| 2) 0]
    (fun _ vs => Exit 0 (vs !! 1%nat)).

Lemma snoop_refines_bus_witness : exists memory', run_snoop (mk_snoop 0x4000 EB_BIG_ENDIAN) (new_memory 0x4000 0x4007) demo_script =
    Some (memory', 0, Some 0x0102) /\ memory' = [0; 0; 0; 0; 1; 2; 3; 4].
Proof.
  pose proof (snoop_refines_bus (mk_snoop 0x4000 EB_BIG_ENDIAN) (∅ : memory) (new_memory 0x4000 0x4007) demo_script) as H.
  destruct (run_script _ _ _) as [[b' code] printed] eqn:E. destruct H as (m & Em & Hm).
  - intros i Hi. change (i < 8)%nat in Hi. do 8 (destruct i as [|i]; [reflexivity|]). lia.
  - intros x Hx. change (length _) with 8%nat. inversion Hx as [? ? ? Hin|? ? ? ? ? ? Hlater]; subst; [|inversion Hlater].
    cbn in Hin. destruct Hin as [<- | [<- | []]]; unfold served_here; split_and!; try (intros _; split_and!); by vm_compute.
  - exists m. assert (code = 0 /\ printed = Some 0x0102) as [-> ->] by (vm_compute in E; by injection E as _ <- <-).
    split; [exact Em|]. vm_compute in Em. by injection Em as <-.
Defined.
