(* ===== verification/Proxy.v ===== *)
(** The tunnel proxy [eb-tunnel]: [src/api/tools/eb-tunnel.c]. Clients connect over
    TCP, name a host, and from then on their framed messages go to that host as UDP
    datagrams and its datagrams come back framed. One pass of the main loop is
    modelled; [ready] is what [select] found. *)
From stdpp Require Import base list gmap strings.
From Stdlib Require Import ZArith Lia.
From S2P Require Import Prelude Widths Posix Tunnel.

Definition MAX_MTU : Z := 4096.

(** [struct eb_client]; the cell for the next client, which has no fields yet, is the
    head of the source's list. *)
Record client := mk_client { udp_transport : eb_posix_udp_transport; udp_slave : eb_posix_udp_link; tcp_master : eb_posix_tcp_link }.

(** What the transports rely on of the network: [outbox] is what left for other hosts,
    [inbox] the datagrams that wait on a socket, [sent] what was sent on a connection.
    An operation changes what it is about. *)
Class Network (X : Type) `{Posix X} := {
  outbox : X -> list (addrinfo * list Z);
  inbox : X -> Z -> list (list Z);
  sent : X -> Z -> list Z;
  px_sendto_out : forall fd bs a x, outbox (px_sendto fd bs a x) = outbox x ++ [(a, bs)] /\
    px_remaining (px_sendto fd bs a x) = px_remaining x /\ inbox (px_sendto fd bs a x) = inbox x /\ sent (px_sendto fd bs a x) = sent x;
  px_send_out : forall fd bs x, sent (px_send fd bs x) fd = sent x fd ++ bs /\
    px_remaining (px_send fd bs x) = px_remaining x /\ inbox (px_send fd bs x) = inbox x /\ outbox (px_send fd bs x) = outbox x;
  px_recv_in : forall fd n wait x, let x' := (px_recv fd n wait x).2 in
    outbox x' = outbox x /\ inbox x' = inbox x /\ sent x' = sent x;
  px_recvfrom_in : forall fd n x, let '(r, bs, _, x') := px_recvfrom fd n x in
    ((exists d rest, inbox x fd = d :: rest /\ bs = take n d /\ r = Z.of_nat (length bs) /\ inbox x' fd = rest) \/
     (r = -1 /\ inbox x' fd = inbox x fd)) /\
    (forall fd', fd' <> fd -> inbox x' fd' = inbox x fd') /\
    outbox x' = outbox x /\ sent x' = sent x /\ px_remaining x' = px_remaining x;
  px_setsockopt_out : forall fd o b x, sent (px_setsockopt fd o b x) = sent x;
  px_close_in : forall fd x, outbox (px_close fd x) = outbox x /\ sent (px_close fd x) = sent x }.

Section proxy.
Context {X : Type} `{Network X}.

(** What [address[x]] holds when the connection fails there; [address[4]] is the end of
    "udp/". *)
Variable stack : Z.

(** The loop over the characters of the name, [room] places before the last one of
    [address]; [None] when [address[x] != 0] afterwards. *)
Fixpoint read_name (room : nat) (x : Z) (link : eb_posix_tcp_link) (name : list Z) : K X (option (list Z)) :=
  '(n, b) ← eb_posix_tcp_recv (Some link) 1;
  if negb (n =? 1) then mret (if (x =? 4) || (stack =? 0) then Some name else None)
  else
    let c := nth 0 b 0 in
    if c =? 0 then mret (Some name)
    else match room with
    | O => mret None
    | S room' => read_name room' (x + 1) link (name ++ [c])
    end.

(** [None]: the list stays as it is. *)
Definition eb_new_client (master : eb_posix_tcp_link) : K X (option client) :=
  ok ← malloc;
  if negb ok then eb_posix_tcp_disconnect master;; mret None else
  name ← read_name 123 4 master [];
  match name with
  | None => eb_posix_tcp_disconnect master;; mret None
  | Some name =>
    '(_, transport) ← eb_posix_udp_open None;
    match transport with
    | None => free;; eb_posix_tcp_disconnect master;; mret None
    | Some transport =>
      '(_, slave) ← eb_posix_udp_connect transport (cstr "udp/" ++ name);
      match slave with
      | None => eb_posix_udp_close transport;; free;; eb_posix_tcp_disconnect master;; mret None
      | Some slave => mret (Some (mk_client transport slave master))
      end
    end
  end.

(** [while ((len = eb_posix_tcp_accept(...)) > 0) first = eb_new_client(...);]: whether
    accepting failed, and the clients. *)
Fixpoint accept_clients (fuel : nat) (tcp_transport : eb_posix_tcp_transport) (ready : Z -> bool) (clients : list client) : K X (bool * list client) :=
  match fuel with
  | O => crash
  | S fuel' =>
    '(len, link) ← eb_posix_tcp_accept tcp_transport true ready;
    match link with
    | Some link =>
      c ← eb_new_client link;
      accept_clients fuel' tcp_transport ready (match c with Some c => c :: clients | None => clients end)
    | None => mret (len <? 0, clients)
    end
  end.

(** The datagrams of the host go to the client; the result is [len < 0]. *)
Fixpoint relay_udp (fuel : nat) (c : client) (ready : Z -> bool) : K X bool :=
  match fuel with
  | O => crash
  | S fuel' =>
    '(len, buffer, _) ← eb_posix_udp_poll (udp_transport c) None ready (Z.to_nat MAX_MTU);
    if 0 <? len then
      eb_posix_tcp_send (tcp_master c) ([(len .>> 8) .& 0xFF; len .& 0xFF] ++ buffer);;
      relay_udp fuel' c ready
    else mret (len <? 0)
  end.

(** The message after its [len] bytes of length, and [next], the next round of the
    loop. *)
Definition relay_message (c : client) (len : Z) (len_buf : list Z) (next : K X bool) : K X bool :=
  if negb (len =? 2) then mret true else
  let len := (nth 0 len_buf 0 .<< 8) .| nth 1 len_buf 0 in
  if MAX_MTU <? len then mret true else
  '(n, buffer) ← eb_posix_tcp_recv (Some (tcp_master c)) (Z.to_nat len);
  if negb (n =? len) then mret true else
  eb_posix_udp_send (udp_transport c) (Some (udp_slave c)) (sa (udp_slave c)) buffer;;
  next.

(** The messages of the client go to the host; the result is [fail]. *)
Fixpoint relay_tcp (fuel : nat) (c : client) (ready : Z -> bool) : K X bool :=
  match fuel with
  | O => crash
  | S fuel' =>
    '(len, len_buf) ← eb_posix_tcp_poll (Some (tcp_master c)) ready 2;
    if 0 <? len then
      '(len, len_buf) ←
        (if len =? 1 then '(n, last) ← eb_posix_tcp_recv (Some (tcp_master c)) 1; mret (len + n, len_buf ++ last)
         else mret (len, len_buf));
      relay_message c len len_buf (relay_tcp fuel' c ready)
    else mret (len <? 0)
  end.

(** A client that failed is closed and taken out of the list. *)
Definition serve_client (fuel : nat) (c : client) (ready : Z -> bool) : K X (option client) :=
  fail1 ← relay_udp fuel c ready;
  fail2 ← relay_tcp fuel c ready;
  if fail1 || fail2 : bool then
    eb_posix_tcp_disconnect (tcp_master c);;
    eb_posix_udp_disconnect (udp_slave c);;
    eb_posix_udp_close (udp_transport c);;
    free;;
    mret None
  else mret (Some c).

Fixpoint serve_clients (fuel : nat) (clients : list client) (ready : Z -> bool) : K X (list client) :=
  match clients with
  | [] => mret []
  | c :: rest =>
    r ← serve_client fuel c ready;
    rest ← serve_clients fuel rest ready;
    mret (match r with Some c => c :: rest | None => rest end)
  end.

(** The descriptors to wait for. *)
Definition tunnel_descriptors (tcp_transport : eb_posix_tcp_transport) (clients : list client) : list Z :=
  eb_posix_tcp_fdes tcp_transport None ++
  concat (map (fun c => eb_posix_tcp_fdes tcp_transport (Some (tcp_master c)) ++ eb_posix_udp_fdes (udp_transport c) None) clients).

(** One round of [while (1)]; [None] ends the program. *)
Definition tunnel_pass (fuel : nat) (tcp_transport : eb_posix_tcp_transport) (clients : list client) (ready : Z -> bool) :
    K X (option (list client)) :=
  '(failed, clients) ← accept_clients fuel tcp_transport ready clients;
  if failed : bool then mret None
  else clients ← serve_clients fuel clients ready; mret (Some clients).

(** * From the client to the host *)

Lemma bind_ext {A B} (m : K X A) (f g : A -> K X B) k :
  (forall a k', m k = Some (a, k') -> f a k' = g a k') -> (m ≫= f) k = (m ≫= g) k.
Proof. intros Hfg. unfold mbind, K_bind. destruct (m k) as [[a k']|]; [by apply Hfg|done]. Qed.

Lemma kbind_assoc {A B C} (m : K X A) (f : A -> K X B) (g : B -> K X C) k : ((m ≫= f) ≫= g) k = (m ≫= fun a => f a ≫= g) k.
Proof. unfold mbind, K_bind. by destruct (m k) as [[a k']|]. Qed.

Lemma kbind_ret {A B} (a : A) (f : A -> K X B) k : (mret a ≫= f) k = f a k.
Proof. done. Qed.

Lemma kbind_some {A B} (m : K X A) (f : A -> K X B) k b k' : (m ≫= f) k = Some (b, k') -> exists a k1, m k = Some (a, k1) /\ f a k1 = Some (b, k').
Proof. unfold mbind, K_bind. destruct (m k) as [[a k1]|]; [|done]. by exists a, k1. Qed.

(** Reading of a connection never reports 0. *)
Lemma tcp_recv_nonzero link n k r b k' : eb_posix_tcp_recv (Some link) n k = Some ((r, b), k') -> r <> 0.
Proof.
  unfold eb_posix_tcp_recv, mbind, K_bind. destruct (recv _ _ _ k) as [[[r' b'] k1]|]; [|done].
  destruct (Z.eqb_spec r' 0); intros [= <- <- <-]; done.
Qed.

(** What follows the length is read as the library reads it. *)
Lemma relay_message_poll c len len_buf short next k : negb (len =? 2) = short -> bytes_ok len_buf ->
  relay_message c len len_buf next k =
  ((if short then mret (-1, []) else
    let len := (nth 0 len_buf 0 .<< 8) .| nth 1 len_buf 0 in
    if MAX_MTU <? len then mret (-1, []) else
    '(n, buf) ← eb_posix_tcp_recv (Some (tcp_master c)) (Z.to_nat len);
    if negb (n =? len) then mret (-1, []) else mret (len, buf)) ≫= fun r : Z * list Z =>
   let '(len, buffer) := r in
   if len <? 0 then mret true else if len =? 0 then mret false else
   eb_posix_udp_send (udp_transport c) (Some (udp_slave c)) (sa (udp_slave c)) buffer;; next) k.
Proof.
  intros <- Hok. unfold relay_message. destruct (negb (len =? 2)); [done|]. cbv zeta. set (n := _ .| _).
  assert (0 <= n) as Hn.
  { assert (forall i, 0 <= nth i len_buf 0) as Hpos; [|apply Z.lor_nonneg; split; [apply Z.shiftl_nonneg|]; apply Hpos].
    intros i. rewrite nth_lookup. destruct (len_buf !! i) as [x|] eqn:Hx; [|done]. exact (proj1 (Forall_lookup_1 _ _ _ _ Hok Hx)). }
  destruct (Z.ltb_spec MAX_MTU n); [done|]. rewrite kbind_assoc. apply bind_ext. intros [r b] k1 Hrecv. cbv beta iota.
  apply tcp_recv_nonzero in Hrecv. destruct (Z.eqb_spec r n) as [->|]; cbn [negb]; [|done]. rewrite kbind_ret.
  rewrite (proj2 (Z.eqb_neq n 0)), (proj2 (Z.ltb_ge n 0)) by done. done.
Qed.

(** What was read comes off the front of the stream. *)
Lemma tcp_poll_takes link ready n k r b k' : eb_posix_tcp_poll (Some link) ready n k = Some ((r, b), k') ->
  0 < r -> r <= Z.of_nat n /\ r = Z.of_nat (length b) /\ left_on link k = b ++ left_on link k'.
Proof.
  intros E Hr. destruct (ends_tcp_poll link ready n k (fun x k' => 0 < x.1 -> x.1 <= Z.of_nat n /\ x.1 = Z.of_nat (length x.2) /\ left_on link k = x.2 ++ left_on link k'))
    as ([r1 b1] & k1 & E1 & HQ).
  { intros r1 bs k1 [([? ?] & ? & ?)|[? ?]] _ Hpos; cbn in *; [done|lia]. }
  rewrite E in E1. injection E1 as <- <- <-. by apply HQ.
Qed.

Lemma tcp_recv_takes link n k r b k' : eb_posix_tcp_recv (Some link) n k = Some ((r, b), k') ->
  0 < r -> r <= Z.of_nat n /\ r = Z.of_nat (length b) /\ left_on link k = b ++ left_on link k'.
Proof.
  intros E Hr. destruct (ends_tcp_recv link n k (fun x k' => 0 < x.1 -> x.1 <= Z.of_nat n /\ x.1 = Z.of_nat (length x.2) /\ left_on link k = x.2 ++ left_on link k'))
    as ([r1 b1] & k1 & E1 & HQ).
  { intros r1 bs k1 [([? ?] & ? & ?)|[? ?]] _ Hpos; cbn in *; [done|lia]. }
  rewrite E in E1. injection E1 as <- <- <-. by apply HQ.
Qed.

(** A step of the loop is a poll of the tunnel transport of the library. *)
Lemma relay_tcp_step fuel c ready k : bytes_ok (left_on (tcp_master c) k) ->
  relay_tcp (S fuel) c ready k =
  ('(len, buffer) ← eb_tunnel_poll (Some (tcp_master c)) ready MAX_MTU;
   if len <? 0 then mret true else if len =? 0 then mret false else
   eb_posix_udp_send (udp_transport c) (Some (udp_slave c)) (sa (udp_slave c)) buffer;;
   relay_tcp fuel c ready) k.
Proof.
  intros Hok. cbn [relay_tcp]. unfold eb_tunnel_poll. rewrite kbind_assoc. apply bind_ext. intros [len len_buf] k1 Hpoll. cbv beta iota.
  destruct (Z.ltb_spec 0 len) as [Hpos|Hneg].
  2:{ rewrite (proj2 (Z.leb_le len 0)), kbind_ret by lia. destruct (Z.ltb_spec len 0); [done|]. by rewrite (proj2 (Z.eqb_eq len 0)) by lia. }
  destruct (tcp_poll_takes _ _ _ _ _ _ _ Hpoll Hpos) as (Hmax & Hlen & Hleft). rewrite Hleft in Hok. apply Forall_app in Hok as [Hok1 Hok2].
  rewrite (proj2 (Z.leb_gt len 0)), kbind_assoc by lia. destruct (Z.eqb_spec len 1) as [->|Hne].
  - rewrite !kbind_assoc. apply bind_ext. intros [n last] k2 Hrecv. rewrite !kbind_ret.
    destruct (Z.eqb_spec n 1) as [->|Hn]; cbn [negb].
    + apply (relay_message_poll c 2 _ false); [done|]. apply Forall_app_2; [done|].
      destruct (tcp_recv_takes _ _ _ _ _ _ Hrecv ltac:(lia)) as (_ & _ & Hlast). rewrite Hlast in Hok2. by apply Forall_app in Hok2 as [? _].
    + unfold relay_message. rewrite (proj2 (Z.eqb_neq (1 + n) 2)) by lia. done.
  - rewrite !kbind_ret. assert (len = 2) as -> by lia. by apply (relay_message_poll c 2 _ false).
Qed.

(** ** What an operation leaves alone *)

Definition leaves {T A} (see : kernel X -> T) (m : K X A) : Prop := forall k a k', m k = Some (a, k') -> see k' = see k.

Lemma leaves_ret {T A} (see : kernel X -> T) (a : A) : leaves see (mret a).
Proof. by intros k b k' [= <- <-]. Qed.

Lemma leaves_bind {T A B} (see : kernel X -> T) (m : K X A) (f : A -> K X B) : leaves see m -> (forall a, leaves see (f a)) -> leaves see (m ≫= f).
Proof.
  intros Hm Hf k b k' E. unfold mbind, K_bind in E. destruct (m k) as [[a k1]|] eqn:E1; [|done].
  apply Hm in E1. apply Hf in E. congruence.
Qed.

Lemma leaves_crash {T A} (see : kernel X -> T) : leaves see (crash : K X A).
Proof. done. Qed.

Definition sent_out (k : kernel X) : list (addrinfo * list Z) := outbox (outside k).
Definition waiting (fd : Z) (k : kernel X) : list (list Z) := if fd =? -1 then [] else inbox (outside k) fd.
Definition sent_on (c : client) (k : kernel X) : list Z := sent (outside k) (tcp_socket (tcp_master c)).
Definition resources (k : kernel X) : gset Z * nat := (descriptors k, blocks k).

(** What is seen of the network around one direction of the traffic. *)
Definition seen_udp (c : client) (k : kernel X) := (resources k, sent_out k, left_on (tcp_master c) k).
Definition seen_tcp (k : kernel X) := (resources k, inbox (outside k), sent (outside k)).
Definition seen_recv (k : kernel X) := (resources k, inbox (outside k), sent (outside k), sent_out k).

Lemma recv_keeps fd n wait : leaves seen_recv (recv fd n wait).
Proof.
  intros k a k'. unfold recv, call, seen_recv, resources, sent_out. pose proof (px_recv_in fd n wait (outside k)) as Hs.
  destruct (px_recv _ _ _ _) as [[r b] x]. cbn in Hs. destruct Hs as (H1 & H2 & H3). intros [= <- <-]. cbn. congruence.
Qed.

Lemma wouldblock_keeps {T} (see : kernel X -> T) : (forall k, see (mk_kernel (descriptors k) (blocks k) (outside k)) = see k) ->
  leaves see eb_posix_ip_ewouldblock.
Proof. intros Hk k a k' [= <- <-]. apply Hk. Qed.

Ltac keeping :=
  repeat first [ apply leaves_ret | apply leaves_crash | apply recv_keeps | by apply wouldblock_keeps; intros []
               | apply leaves_bind; [|intros ?] | case_match ].

Lemma tunnel_poll_keeps link ready maxlen : leaves seen_recv (eb_tunnel_poll (Some link) ready maxlen).
Proof. unfold eb_tunnel_poll, eb_posix_tcp_poll, eb_posix_tcp_recv. cbv zeta. keeping. Qed.


(** Nothing fails: what has arrived is handed out at once, and -1 means that nothing
    has. *)
Definition prompt : Prop :=
  whole_reads /\
  (forall fd n x, inbox x fd <> [] -> (px_recvfrom fd n x).1.1.1 <> -1) /\
  (forall fd n x, px_remaining x fd = [] -> (px_recv fd n true x).1.1 = -1) /\
  (forall x, px_wouldblock x = true).

(** A connection without traffic does not fail. *)
Lemma tunnel_poll_idle link ready maxlen k r k' : prompt -> left_on link k = [] ->
  eb_tunnel_poll (Some link) ready maxlen k = Some (r, k') -> r.1 = 0.
Proof.
  intros (_ & _ & Hidle & Hblock) Hleft. unfold eb_tunnel_poll, eb_posix_tcp_poll. destruct (ready (tcp_socket link)); cbn [negb].
  2:{ rewrite kbind_ret. by intros [= <- <-]. }
  specialize (Hidle (tcp_socket link) 2%nat (outside k) Hleft). rewrite kbind_assoc. intros E.
  apply kbind_some in E as ([r0 b] & k1 & E1 & E). assert (r0 = -1) as ->.
  { unfold recv, call in E1. destruct (px_recv _ _ _ _) as [[r1 b1] x]. cbn in Hidle. congruence. }
  rewrite kbind_assoc in E. apply kbind_some in E as (again & k2 & E2 & E). assert (again = true) as ->.
  { unfold eb_posix_ip_ewouldblock, wouldblock, call in E2. rewrite Hblock in E2. congruence. }
  cbn [Z.eqb Pos.eqb andb] in E. rewrite kbind_ret in E. by injection E as <- <-.
Qed.

(** The messages that are on the connection leave as datagrams for the host, in their
    order, up to a failure; all of them when nothing fails. *)
Lemma relay_tcp_spec c ready ms : forall fuel k, Forall (message_ok MAX_MTU) ms -> Forall bytes_ok ms ->
  left_on (tcp_master c) k = frames ms -> (length ms < fuel)%nat ->
  ends (relay_tcp fuel c ready) k (fun fail k' => exists gone rest, ms = gone ++ rest /\
    sent_out k' = sent_out k ++ map (pair (sa (udp_slave c))) gone /\ seen_tcp k' = seen_tcp k /\
    (fail = false -> left_on (tcp_master c) k' = frames rest) /\
    (prompt -> ready (tcp_socket (tcp_master c)) = true -> fail = false /\ rest = [])).
Proof.
  intros fuel. revert ms. induction fuel as [|fuel IH]; intros ms k Hms Hok Hleft Hfuel; [lia|].
  unfold ends. rewrite relay_tcp_step.
  2:{ rewrite Hleft. clear -Hok. unfold frames. induction Hok as [|m ms Hm _ IH]; [constructor|]. cbn [map concat].
      apply Forall_app_2; [apply Forall_app_2; [apply be_bytes_ok|done]|done]. }
  destruct (ends_tunnel_poll (tcp_master c) ready MAX_MTU ms k Hms Hleft) as ([len buf] & k1 & E1 & Hp & Hlive).
  apply ends_bind. exists (len, buf), k1. split; [exact E1|]. cbn [fst] in *.
  pose proof (tunnel_poll_keeps _ _ _ _ _ _ E1) as [= Hd Hb Hi Hs Ho].
  assert (seen_tcp k1 = seen_tcp k) as Hseen by (unfold seen_tcp, resources; congruence).
  assert (len <= 0 -> prompt -> ready (tcp_socket (tcp_master c)) = true -> len = 0 /\ ms = []) as Hempty.
  { intros Hl Hw Hr. destruct ms as [|m ms]; [|specialize (Hlive (proj1 Hw) Hr ltac:(done)); lia].
    split; [|done]. exact (tunnel_poll_idle _ _ _ _ _ _ Hw Hleft E1). }
  destruct (Z.ltb_spec len 0) as [Hneg|Hpos].
  { apply ends_ret. exists [], ms. split_and!; [done|by rewrite app_nil_r|done|done|].
    intros Hw Hr. destruct (Hempty ltac:(lia) Hw Hr). lia. }
  destruct Hp as [|[[-> El]|(m & rest & -> & [= -> ->] & El)]]; [lia|..].
  { rewrite Z.eqb_refl. apply ends_ret. exists [], ms. split_and!; [done|by rewrite app_nil_r|done|intros _; congruence|].
    intros Hw Hr. split; [done|]. by apply Hempty. }
  apply Forall_cons in Hms as [[Hm _] Hms]. apply Forall_cons in Hok as [_ Hok]. rewrite (proj2 (Z.eqb_neq _ 0)) by lia.
  apply ends_bind. unfold eb_posix_udp_send. eexists tt, _. split; [reflexivity|].
  match goal with |- context [px_sendto ?fd ?bs ?a ?x] => destruct (px_sendto_out fd bs a x) as (So & Sr & Si & Ss) end.
  set (k2 := mk_kernel _ _ _). assert (left_on (tcp_master c) k2 = frames rest) as El2.
  { unfold left_on. subst k2. cbn [outside fst snd]. rewrite Sr. exact El. }
  eapply ends_mono; [apply (IH rest k2); try done; cbn in Hfuel; lia|].
  intros fail k3 (gone & rest' & -> & Es & Hs3 & Hl & Hw). exists (m :: gone), rest'. split_and!; [done| | |done|done].
  - rewrite Es. change (sent_out k2) with (outbox (px_sendto (if ai_family (sa (udp_slave c)) =? PF_INET6 then socket6 (udp_transport c) else socket4 (udp_transport c)) m (sa (udp_slave c)) (outside k1))).
    unfold sent_out in *. rewrite So, Ho, <- app_assoc. done.
  - rewrite Hs3, <- Hseen. unfold seen_tcp, resources, k2. cbn [outside descriptors blocks fst snd]. by rewrite Si, Ss.
Qed.

(** * From the host to the client *)

Inductive merge {A} : list A -> list A -> list A -> Prop :=
  | merge_nil : merge [] [] []
  | merge_left x l1 l2 l : merge l1 l2 l -> merge (x :: l1) l2 (x :: l)
  | merge_right x l1 l2 l : merge l1 l2 l -> merge l1 (x :: l2) (x :: l).

(** One socket: a datagram, nothing, or a failure. *)
Inductive received (fd : Z) (ready : Z -> bool) (k k' : kernel X) : option (Z * list Z * option addrinfo) -> Prop :=
  | received_datagram d a : waiting fd k = d :: waiting fd k' -> received fd ready k k' (Some (Z.of_nat (length d), d, Some a))
  | received_nothing : waiting fd k' = waiting fd k -> (prompt -> ready fd = true -> waiting fd k = []) -> received fd ready k k' None
  | received_error : waiting fd k' = waiting fd k -> ~ prompt -> received fd ready k k' (Some (-1, [], None)).

Definition sees (k : kernel X) := (resources k, sent_out k, sent (outside k), px_remaining (outside k)).

Lemma try_recvfrom_spec fd other ready n k : Forall (fun d => 0 < length d <= n)%nat (waiting fd k) -> fd <> other \/ fd = -1 ->
  ends (try_recvfrom fd ready n) k (fun r k' => received fd ready k k' r /\ waiting other k' = waiting other k /\ sees k' = sees k).
Proof.
  intros Hd Hne. unfold try_recvfrom. destruct (Z.eqb_spec fd (-1)) as [->|Hfd]; cbn [negb andb].
  { apply ends_ret. split_and!; try done. by constructor. }
  destruct Hne as [Hne|]; [|done]. assert (forall k, waiting fd k = inbox (outside k) fd) as Hw.
  { intros k0. unfold waiting. by rewrite (proj2 (Z.eqb_neq _ _)). }
  destruct (ready fd) eqn:Hr.
  2:{ apply ends_ret. split_and!; try done. by constructor; [|rewrite Hr]. }
  pose proof (px_recvfrom_in fd n (outside k)) as Ht. apply ends_bind. unfold call.
  destruct (px_recvfrom fd n (outside k)) as [[[r bs] from] x'] eqn:Ex. destruct Ht as (Hrec & Hoth & Hout & Hsent & Hrem).
  set (k1 := mk_kernel (descriptors k) (blocks k) x').
  assert (waiting other k1 = waiting other k /\ sees k1 = sees k) as Hframe.
  { split; [|unfold sees, sent_out, resources, k1; cbn; congruence]. unfold waiting. destruct (other =? -1); [done|]. apply Hoth. congruence. }
  exists (r, bs, from), k1. split; [cbn; by rewrite Ex|].
  apply ends_bind. exists (px_wouldblock x'), k1. split; [done|]. rewrite !Hw in *.
  destruct Hrec as [(d & rest & Hin & -> & -> & Hin')|[-> Hin']].
  - rewrite Hin in Hd. apply Forall_cons in Hd as [Hd _]. rewrite firstn_all2 by lia.
    rewrite (proj2 (Z.eqb_neq _ (-1))) by lia. cbn [andb negb]. apply ends_ret. split; [|exact Hframe].
    constructor. rewrite !Hw, Hin. f_equal. symmetry. exact Hin'.
  - rewrite Z.eqb_refl. cbn [andb negb]. destruct (px_wouldblock x') eqn:Ew; cbn [negb]; apply ends_ret; (split; [|exact Hframe]).
    + constructor; [by rewrite !Hw|]. intros (_ & Hp & _) _. rewrite Hw. specialize (Hp fd n (outside k)). rewrite Ex in Hp. cbn in Hp.
      destruct (inbox (outside k) fd); [done|]. exfalso. by apply Hp.
    + constructor; [by rewrite !Hw|]. intros (_ & _ & _ & Hp). by rewrite Hp in Ew.
Qed.

(** A poll of both sockets, the IPv4 one first. *)
Inductive received_any (s4 s6 : Z) (ready : Z -> bool) (k k' : kernel X) : Z * list Z * option addrinfo -> Prop :=
  | received_four d a : waiting s4 k = d :: waiting s4 k' -> waiting s6 k' = waiting s6 k ->
      received_any s4 s6 ready k k' (Z.of_nat (length d), d, a)
  | received_six d a : waiting s6 k = d :: waiting s6 k' -> waiting s4 k' = waiting s4 k ->
      received_any s4 s6 ready k k' (Z.of_nat (length d), d, a)
  | received_none r b a : r <= 0 -> waiting s4 k' = waiting s4 k -> waiting s6 k' = waiting s6 k ->
      (prompt -> r = 0 /\ ((forall fd, ready fd = true) -> waiting s4 k = [] /\ waiting s6 k = [])) ->
      received_any s4 s6 ready k k' (r, b, a).

Definition datagrams_fit (fd : Z) (k : kernel X) : Prop := Forall (fun d => 0 < length d <= Z.to_nat MAX_MTU)%nat (waiting fd k).
Definition two_sockets (t : eb_posix_udp_transport) : Prop := socket4 t <> socket6 t \/ socket4 t = -1.

Lemma udp_poll_spec t ready k : two_sockets t -> datagrams_fit (socket4 t) k -> datagrams_fit (socket6 t) k ->
  ends (eb_posix_udp_poll t None ready (Z.to_nat MAX_MTU)) k (fun r k' => received_any (socket4 t) (socket6 t) ready k k' r /\ sees k' = sees k).
Proof.
  intros Htwo H4 H6. unfold datagrams_fit in *. unfold eb_posix_udp_poll. apply ends_bind.
  eapply ends_mono; [by apply (try_recvfrom_spec _ (socket6 t))|]. intros r k1 (Hr & Hw6 & Hs1).
  destruct Hr as [d a Hd|Hsame Hno|Hsame Hbad].
  - apply ends_ret. split; [|done]. by constructor 1.
  - rewrite <- Hw6 in H6. apply ends_bind.
    eapply ends_mono; [apply (try_recvfrom_spec _ (socket4 t)); [done|]|].
    { destruct Htwo as [?|E]; [left; congruence|]. destruct (Z.eq_dec (socket6 t) (-1)); [by right|left; congruence]. }
    intros r k2 (Hr & Hw4 & Hs2). assert (sees k2 = sees k) as Hs by congruence. rewrite Hsame in Hw4.
    destruct Hr as [d a Hd|Hsame6 Hno6|Hsame6 Hbad]; apply ends_ret; (split; [|exact Hs]).
    + constructor 2; [congruence|done].
    + constructor 3; [lia|done|congruence|]. intros Hp. split; [done|]. intros Hready. rewrite <- Hw6. split; [by apply Hno|by apply Hno6].
    + constructor 3; [lia|done|congruence|]. done.
  - apply ends_ret. split; [|done]. by constructor 3.
Qed.

(** The prefix and the datagram are a frame. *)
Lemma relay_frame (d : list Z) : (length d <= Z.to_nat MAX_MTU)%nat ->
  [(Z.of_nat (length d) .>> 8) .& 0xFF; Z.of_nat (length d) .& 0xFF] ++ d = frame d.
Proof.
  intros Hd. unfold frame. cbn [be_bytes app]. change (8 * Z.of_nat 1) with 8. change (8 * Z.of_nat 0) with 0. by rewrite Z.shiftr_0_r.
Qed.

(** The datagrams of the host arrive at the client framed, those of a socket in their
    order; none is lost. *)
Lemma relay_udp_spec c ready : let t := udp_transport c in two_sockets t -> forall fuel k,
  datagrams_fit (socket4 t) k -> datagrams_fit (socket6 t) k ->
  (length (waiting (socket4 t) k) + length (waiting (socket6 t) k) < fuel)%nat ->
  ends (relay_udp fuel c ready) k (fun fail k' => exists got4 got6 got,
    waiting (socket4 t) k = got4 ++ waiting (socket4 t) k' /\ waiting (socket6 t) k = got6 ++ waiting (socket6 t) k' /\
    merge got4 got6 got /\ sent_on c k' = sent_on c k ++ frames got /\ seen_udp c k' = seen_udp c k /\
    (prompt -> fail = false /\ ((forall fd, ready fd = true) -> waiting (socket4 t) k' = [] /\ waiting (socket6 t) k' = []))).
Proof.
  intros t Htwo. induction fuel as [|fuel IH]; intros k H4 H6 Hfuel; [lia|]. cbn [relay_udp]. apply ends_bind.
  eapply ends_mono; [by apply udp_poll_spec|]. intros r k1 [Hr [= Hd Hb Ho Hs Hrem]]. fold t in Hr.
  assert (forall d k2, (0 < length d <= Z.to_nat MAX_MTU)%nat ->
    k2 = mk_kernel (descriptors k1) (blocks k1) (px_send (tcp_socket (tcp_master c)) ([(Z.of_nat (length d) .>> 8) .& 0xFF; Z.of_nat (length d) .& 0xFF] ++ d) (outside k1)) ->
    (forall fd, waiting fd k2 = waiting fd k1) /\ sent_on c k2 = sent_on c k ++ frame d /\ seen_udp c k2 = seen_udp c k) as Hsend.
  { intros d k2 Hlen ->. rewrite relay_frame by lia. destruct (px_send_out (tcp_socket (tcp_master c)) (frame d) (outside k1)) as (S1 & S2 & S3 & S4).
    unfold waiting, sent_on, seen_udp, resources, sent_out, left_on in *. cbn [outside descriptors blocks]. rewrite S1, S2, S3, S4. split_and!; congruence. }
  destruct Hr as [d a E4 E6|d a E6 E4|r b a Hneg E4 E6 Hp].
  - unfold datagrams_fit in H4. rewrite E4 in H4, Hfuel. apply Forall_cons in H4 as [Hlen H4]. rewrite (proj2 (Z.ltb_lt 0 _)) by lia.
    apply ends_bind. eexists tt, _. split; [reflexivity|]. cbn [fst snd]. set (k2 := mk_kernel _ _ _).
    destruct (Hsend d k2 Hlen eq_refl) as (Hw2 & Hs2 & Hk2). cbn in Hfuel. unfold datagrams_fit in *.
    eapply ends_mono; [apply IH; unfold datagrams_fit; rewrite !Hw2, ?E6; [done..|lia]|]. rewrite !Hw2, E6.
    intros fail k3 (got4 & got6 & got & G4 & G6 & Hm & Hsent & Hk3 & Hlive). exists (d :: got4), got6, (d :: got). rewrite E4, G4.
    split_and!; [done|done|by constructor| |congruence|done]. rewrite Hsent, Hs2, <- app_assoc. done.
  - unfold datagrams_fit in H6. rewrite E6 in H6, Hfuel. apply Forall_cons in H6 as [Hlen H6]. rewrite (proj2 (Z.ltb_lt 0 _)) by lia.
    apply ends_bind. eexists tt, _. split; [reflexivity|]. cbn [fst snd]. set (k2 := mk_kernel _ _ _).
    destruct (Hsend d k2 Hlen eq_refl) as (Hw2 & Hs2 & Hk2). cbn in Hfuel. unfold datagrams_fit in *.
    eapply ends_mono; [apply IH; unfold datagrams_fit; rewrite !Hw2, ?E4; [done..|lia]|]. rewrite !Hw2, E4.
    intros fail k3 (got4 & got6 & got & G4 & G6 & Hm & Hsent & Hk3 & Hlive). exists got4, (d :: got6), (d :: got). rewrite E6, G6.
    split_and!; [done|done|by constructor| |congruence|done]. rewrite Hsent, Hs2, <- app_assoc. done.
  - rewrite (proj2 (Z.ltb_ge 0 r)) by lia. apply ends_ret. exists [], [], []. rewrite E4, E6. split_and!; [done..|constructor| | |].
    + unfold sent_on. rewrite Hs. by rewrite app_nil_r.
    + unfold seen_udp, resources, sent_out, left_on in *. congruence.
    + intros Hw. destruct (Hp Hw) as [-> Hall]. done.
Qed.

(** * A client *)

Lemma close_keeps sock : leaves (fun k => (blocks k, sent_out k, sent (outside k))) (eb_posix_ip_close sock).
Proof.
  unfold eb_posix_ip_close, unless. destruct (sock =? -1); [apply leaves_ret|].
  intros k a k'. unfold close. intros [= <- <-]. unfold sent_out. cbn. destruct (px_close_in sock (outside k)) as [-> ->]. done.
Qed.

Lemma ends_close_keeps sock k (Q : unit -> kernel X -> Prop) :
  (forall k', descriptors k' = descriptors k ∖ fd_set sock -> blocks k' = blocks k -> sent_out k' = sent_out k ->
     sent (outside k') = sent (outside k) -> Q tt k') -> ends (eb_posix_ip_close sock) k Q.
Proof.
  intros HQ. destruct (ends_ip_close_set sock k (fun _ k' => descriptors k' = descriptors k ∖ fd_set sock)) as ([] & k' & E & Hd); [done|].
  exists tt, k'. split; [exact E|]. apply close_keeps in E as [= Hb Ho Hs]. by apply HQ.
Qed.

Lemma ends_free k (Q : unit -> kernel X -> Prop) : (0 < blocks k)%nat ->
  (forall k', descriptors k' = descriptors k -> blocks k' = pred (blocks k) -> outside k' = outside k -> Q tt k') -> ends free k Q.
Proof.
  intros Hb HQ. unfold ends, free. destruct (blocks k) as [|n] eqn:E; [lia|]. eexists tt, _. split; [reflexivity|]. by apply HQ.
Qed.

(** The descriptors of a client. *)
Definition client_fds (c : client) : gset Z :=
  fd_set (tcp_socket (tcp_master c)) ∪ (fd_set (socket4 (udp_transport c)) ∪ fd_set (socket6 (udp_transport c))).

Lemma ends_drop_client c k (Q : option client -> kernel X -> Prop) : (2 <= blocks k)%nat ->
  (forall k', descriptors k' = descriptors k ∖ client_fds c -> (blocks k' + 2 = blocks k)%nat -> sent_out k' = sent_out k ->
     sent_on c k' = sent_on c k -> Q None k') ->
  ends (eb_posix_tcp_disconnect (tcp_master c);; eb_posix_udp_disconnect (udp_slave c);; eb_posix_udp_close (udp_transport c);; free;; mret None) k Q.
Proof.
  intros Hb HQ. unfold eb_posix_tcp_disconnect, eb_posix_udp_disconnect, eb_posix_udp_close.
  apply ends_bind, ends_close_keeps. intros k1 D1 B1 O1 S1. apply ends_bind, ends_free; [lia|]. intros k2 D2 B2 X2.
  apply ends_bind, ends_bind, ends_close_keeps. intros k3 D3 B3 O3 S3. apply ends_close_keeps. intros k4 D4 B4 O4 S4.
  apply ends_bind, ends_free; [lia|]. intros k5 D5 B5 X5. apply ends_ret. apply HQ.
  - rewrite D5, D4, D3, D2, D1. unfold client_fds. set_solver.
  - lia.
  - unfold sent_out in *. congruence.
  - unfold sent_on. congruence.
Qed.

(** A pass over a client. *)
Lemma serve_client_spec (fuel : nat) (c : client) (ready : Z -> bool) (ms : list (list Z)) (k : kernel X)
    (Htwo : two_sockets (udp_transport c)) (Hms : Forall (message_ok MAX_MTU) ms) (Hbytes : Forall bytes_ok ms)
    (Hleft : left_on (tcp_master c) k = frames ms)
    (H4 : datagrams_fit (socket4 (udp_transport c)) k) (H6 : datagrams_fit (socket6 (udp_transport c)) k)
    (Hfuel : (length ms + length (waiting (socket4 (udp_transport c)) k) + length (waiting (socket6 (udp_transport c)) k) < fuel)%nat)
    (Hblocks : (2 <= blocks k)%nat) :
  ends (serve_client fuel c ready) k (fun r k' => exists gone rest got4 left4 got6 left6 got,
    ms = gone ++ rest /\ sent_out k' = sent_out k ++ map (pair (sa (udp_slave c))) gone /\
    waiting (socket4 (udp_transport c)) k = got4 ++ left4 /\ waiting (socket6 (udp_transport c)) k = got6 ++ left6 /\
    merge got4 got6 got /\ sent_on c k' = sent_on c k ++ frames got /\
    (prompt -> (forall fd, ready fd = true) -> r = Some c /\ rest = [] /\ left4 = [] /\ left6 = []) /\
    match r with
    | Some c' => c' = c /\ left_on (tcp_master c) k' = frames rest /\ resources k' = resources k /\
        waiting (socket4 (udp_transport c)) k' = left4 /\ waiting (socket6 (udp_transport c)) k' = left6
    | None => descriptors k' = descriptors k ∖ client_fds c /\ (blocks k' + 2 = blocks k)%nat
    end).
Proof.
  apply ends_bind. eapply ends_mono; [apply relay_udp_spec; try done; lia|].
  intros fail1 k1 (got4 & got6 & got & G4 & G6 & Hm & Hsent & [= Hd Hb Ho Hl] & Hlive1).
  apply ends_bind. eapply ends_mono; [apply relay_tcp_spec; [done|done|congruence|lia]|].
  intros fail2 k2 (gone & rest & Ems & Hout & [= Hd2 Hb2 Hi2 Hs2] & Hl2 & Hlive2). set (t := udp_transport c) in *.
  assert (forall fd, waiting fd k2 = waiting fd k1) as Hw by (intros fd; unfold waiting; by rewrite Hi2).
  assert (sent_on c k2 = sent_on c k ++ frames got) as Hs by (unfold sent_on in *; congruence). rewrite Ho in Hout.
  assert (prompt -> (forall fd, ready fd = true) -> fail1 = false /\ fail2 = false /\ rest = [] /\
    waiting (socket4 t) k1 = [] /\ waiting (socket6 t) k1 = []) as Hlive.
  { intros Hp Hr. destruct (Hlive1 Hp) as [-> Hall]. destruct (Hlive2 Hp (Hr _)) as [-> ->]. by destruct (Hall Hr). }
  destruct (fail1 || fail2) eqn:Ef.
  - apply ends_drop_client; [lia|]. intros k3 D3 B3 O3 S3.
    exists gone, rest, got4, (waiting (socket4 t) k1), got6, (waiting (socket6 t) k1), got. split_and!; try done.
    + congruence.
    + by rewrite S3.
    + intros Hp Hr. by destruct (Hlive Hp Hr) as (-> & -> & _).
    + congruence.
    + lia.
  - apply orb_false_iff in Ef as [-> ->]. apply ends_ret.
    exists gone, rest, got4, (waiting (socket4 t) k1), got6, (waiting (socket6 t) k1), got. split_and!; try done.
    + intros Hp Hr. by destruct (Hlive Hp Hr) as (_ & _ & ? & ? & ?).
    + by apply Hl2.
    + unfold resources. congruence.
Qed.

(** C31: a pass over a client of the tunnel moves what has arrived on both of its
    sides. The messages that its connection carries go to the host it named, one
    datagram each, and the datagrams of the host go to the client, each in its
    frame: what has gone and what is left make up what was there, nothing is
    reordered (the two sockets may interleave), repeated or invented. When nothing
    fails the client stays and nothing is left on either side. Otherwise its
    descriptors and its memory are given back. *)
Theorem serve_client_relays (fuel : nat) (c : client) (ready : Z -> bool) (ms : list (list Z)) (k : kernel X)
    (Htwo : two_sockets (udp_transport c)) (Hms : Forall (message_ok MAX_MTU) ms) (Hbytes : Forall bytes_ok ms)
    (Hleft : left_on (tcp_master c) k = frames ms)
    (H4 : datagrams_fit (socket4 (udp_transport c)) k) (H6 : datagrams_fit (socket6 (udp_transport c)) k)
    (Hfuel : (length ms + length (waiting (socket4 (udp_transport c)) k) + length (waiting (socket6 (udp_transport c)) k) < fuel)%nat)
    (Hblocks : (2 <= blocks k)%nat) :
  ends (serve_client fuel c ready) k (fun r k' => exists gone rest got4 left4 got6 left6 got,
    ms = gone ++ rest /\ sent_out k' = sent_out k ++ map (pair (sa (udp_slave c))) gone /\
    waiting (socket4 (udp_transport c)) k = got4 ++ left4 /\ waiting (socket6 (udp_transport c)) k = got6 ++ left6 /\
    merge got4 got6 got /\ sent_on c k' = sent_on c k ++ frames got /\
    (prompt -> (forall fd, ready fd = true) -> r = Some c /\ rest = [] /\ left4 = [] /\ left6 = []) /\
    match r with
    | Some c' => c' = c /\ left_on (tcp_master c) k' = frames rest /\ resources k' = resources k /\
        waiting (socket4 (udp_transport c)) k' = left4 /\ waiting (socket6 (udp_transport c)) k' = left6
    | None => descriptors k' = descriptors k ∖ client_fds c /\ (blocks k' + 2 = blocks k)%nat
    end).
Proof. by apply serve_client_spec. Qed.
End proxy.

(** ** Instances *)

Module SampleNet.
Record net := mk_net { stream : list Z; queues : gmap Z (list (list Z)); left_for : list (addrinfo * list Z); streamed : list Z }.
Definition queue (x : net) (fd : Z) : list (list Z) := default [] (queues x !! fd).
Definition recv (n : nat) (x : net) : Z * list Z * net :=
  match stream x with
  | [] => (-1, [], x)
  | _ => (Z.of_nat (Nat.min n (length (stream x))), take n (stream x), mk_net (drop n (stream x)) (queues x) (left_for x) (streamed x))
  end.
Definition recvfrom (fd : Z) (n : nat) (x : net) : Z * list Z * addrinfo * net :=
  match queue x fd with
  | [] => (-1, [], mk_addrinfo PF_INET [], x)
  | d :: rest => (Z.of_nat (length (take n d)), take n d, mk_addrinfo PF_INET [], mk_net (stream x) (<[fd := rest]> (queues x)) (left_for x) (streamed x))
  end.

Lemma recv_takes n x : let '(r, bs, x') := recv n x in
  (0 < r <= Z.of_nat n /\ r = Z.of_nat (length bs) /\ stream x = bs ++ stream x') \/ (r <= 0 /\ stream x' = stream x).
Proof.
  unfold recv. destruct (stream x) as [|b l] eqn:E; [by right|]. cbn [stream]. destruct n as [|n]; [right; by cbn|left].
  rewrite length_take, take_drop. cbn [length]. split_and!; lia || done.
Qed.
End SampleNet.

#[export] Program Instance sample_net : Posix SampleNet.net := {
  px_getaddrinfo _ _ f _ _ x := (Some [mk_addrinfo f []], x);
  px_socket _ _ _ D x := (fresh D, x);
  px_accept _ D x := (fresh D, x);
  px_open _ D x := (fresh D, x);
  px_close _ x := x;
  px_bind _ _ x := (true, x);
  px_listen _ _ x := (true, x);
  px_connect _ _ x := (true, x);
  px_setsockopt _ _ _ x := x;
  px_ioctl_nonblock _ _ x := x;
  px_getfl _ x := (0, x);
  px_setfl _ _ x := x;
  px_rawtty _ x := x;
  px_usleep _ x := x;
  px_malloc x := (true, x);
  px_wouldblock _ := true;
  px_recv _ n _ x := SampleNet.recv n x;
  px_read _ n x := SampleNet.recv n x;
  px_recvfrom fd n x := SampleNet.recvfrom fd n x;
  px_send _ bs x := SampleNet.mk_net (SampleNet.stream x) (SampleNet.queues x) (SampleNet.left_for x) (SampleNet.streamed x ++ bs);
  px_write _ _ x := x;
  px_sendto _ bs a x := SampleNet.mk_net (SampleNet.stream x) (SampleNet.queues x) (SampleNet.left_for x ++ [(a, bs)]) (SampleNet.streamed x);
  px_remaining x _ := SampleNet.stream x }.
Solve All Obligations with (intros; first [discriminate | right; apply is_fresh | apply SampleNet.recv_takes]).

#[export] Program Instance sample_network : Network SampleNet.net := {
  outbox := SampleNet.left_for; inbox := SampleNet.queue; sent x _ := SampleNet.streamed x }.
Next Obligation. done. Qed.
Next Obligation. done. Qed.
Next Obligation. intros fd n wait x. cbn. unfold SampleNet.recv. by destruct (SampleNet.stream x). Qed.
Next Obligation.
  intros fd n x. cbn. unfold SampleNet.recvfrom. destruct (SampleNet.queue x fd) as [|d rest] eqn:E.
  - split; [by right|done].
  - split_and!; try done.
    + left. exists d, rest. split_and!; try done. unfold SampleNet.queue. cbn. by rewrite lookup_insert_eq.
    + intros fd' Hne. unfold SampleNet.queue. cbn. by rewrite lookup_insert_ne.
Qed.
Next Obligation. done. Qed.
Next Obligation. done. Qed.

Lemma sample_prompt : prompt (X := SampleNet.net).
Proof.
  split; [|split; [|split]].
  - intros fd n wait x Hn Hl. cbn in *. unfold SampleNet.recv. destruct (SampleNet.stream x); cbn in *; lia.
  - intros fd n x Hin. cbn in *. unfold SampleNet.recvfrom. destruct (SampleNet.queue x fd); cbn; [done|lia].
  - intros fd n x Hin. cbn in *. unfold SampleNet.recv. by rewrite Hin.
  - intros x. reflexivity.
Qed.

Definition sample_client : client := mk_client (mk_udp_transport 5 (-1)) (mk_udp_link (mk_addrinfo PF_INET [10])) (mk_tcp_link 6).
Definition sample_before : kernel SampleNet.net :=
  mk_kernel {[4; 5; 6]} 2 (SampleNet.mk_net [0; 3; 1; 2; 3; 0; 1; 4] {[5 := [[7; 8]; [9]]]} [] []).

(** Two messages and two datagrams: all of them arrive. *)
Lemma serve_client_relays_witness : exists k, serve_client 5 sample_client (fun _ => true) sample_before = Some (Some sample_client, k) /\
  sent_out k = [(mk_addrinfo PF_INET [10], [1; 2; 3]); (mk_addrinfo PF_INET [10], [4])] /\
  sent_on sample_client k = [0; 2; 7; 8; 0; 1; 9].
Proof.
  destruct (serve_client_relays 5 sample_client (fun _ => true) [[1; 2; 3]; [4]] sample_before) as (r & k & E & H).
  - left; done.
  - repeat first [apply Forall_cons_2 | apply Forall_nil_2 | split]; unfold MAX_MTU; cbn; lia.
  - repeat first [apply Forall_cons_2 | apply Forall_nil_2]; lia.
  - reflexivity.
  - repeat first [apply Forall_cons_2 | apply Forall_nil_2]; unfold MAX_MTU; cbn; lia.
  - constructor.
  - vm_compute. lia.
  - cbn. lia.
  - destruct H as (gone & rest & got4 & left4 & got6 & left6 & got & Hms & Ho & W4 & W6 & Hm & Hs & Hlive & _).
    destruct Hlive as (-> & -> & -> & ->).
    + apply sample_prompt.
    + intros fd. reflexivity.
    + rewrite app_nil_r in Hms, W4, W6. exists k. split; [exact E|]. subst gone got4 got6. split; [exact Ho|]. rewrite Hs.
      assert (got = [[7; 8]; [9]]) as ->; [|reflexivity].
      inversion Hm as [|x l1 l2 l Hm1|]; subst. inversion Hm1 as [|x' l1' l2' l' Hm2|]; subst. by inversion Hm2.
Defined.

(** A connection that fails inside the name leaves a cell behind. *)
Lemma bad_name_leaks : exists k,
  eb_new_client 1 (mk_tcp_link 6) (mk_kernel {[6]} 0 (SampleNet.mk_net [65] ∅ [] [])) = Some (None, k) /\ blocks k = 1%nat.
Proof. eexists. split; vm_compute; reflexivity. Qed.
