(* ===== verification/Transports.v ===== *)
(** The table of transports: [src/api/transport/transports.c]. It is how the library
    reaches the transports of files Posix and Tunnel, so it is an implementation of
    the transport operations of the interface [Env]. On top of it: a flush over a
    tunnel, up to what the other end of the connection reads. *)
From stdpp Require Import base list gmap strings.
From Stdlib Require Import ZArith Lia.
From S2P Require Import Prelude Widths Store World Linked Cycle Format Master Valid Records Encode Slave Wire Answer Handler Response Session Flush Socket Posix Tunnel Proxy.

(** * The table *)

(** What a transport wrote into a cell of a link. *)
Inductive link_data := LTcp (l : eb_posix_tcp_link) | LUdp (l : eb_posix_udp_link) | LDev (l : eb_dev_link).

(** The outside of the library: the system calls, the words the transports keep in
    cells of the pool, the sender of the last datagram ([eb_posix_udp_sa]) and the
    descriptors that are ready. *)
Record wire (X : Type) := mk_wire {
  net : kernel X; transport_words : gmap Z (Z * Z); link_words : gmap Z link_data;
  udp_sa : addrinfo; wire_ready : Z -> Z -> bool }.
Arguments mk_wire {_}. Arguments net {_}. Arguments transport_words {_}. Arguments link_words {_}.
Arguments udp_sa {_}. Arguments wire_ready {_}.

Definition EB_POSIX_UDP_MTU : Z := 1472.
Definition EB_POSIX_TCP_MTU : Z := 0.
Definition EB_DEV_MTU : Z := 0.
Definition EB_TUNNEL_MTU : Z := EB_POSIX_UDP_MTU.

Section table.
Context {X : Type} `{Posix X}.

(** The first two words of a cell that was not written as what it is read as, and a
    bound on the reads that empty a serial line. *)
Context (stale : Z -> Z * Z) (fuel : nat).

Abbreviation MW := (M (wire X)).

Definition on_net {A} (m : K X A) : MW A := fun w =>
  let x := w_ext w in
  match m (net x) with
  | Some (a, k) => Some (a, mk_world (w_pool w) (w_user w) (w_sdb w)
      (mk_wire k (transport_words x) (link_words x) (udp_sa x) (wire_ready x)))
  | None => None
  end.

Definition upd_ext (f : wire X -> wire X) : MW unit := fun w =>
  Some (tt, mk_world (w_pool w) (w_user w) (w_sdb w) (f (w_ext w))).
Definition put_transport (tp : Z) (p : Z * Z) : MW unit :=
  upd_ext (fun x => mk_wire (net x) (<[tp := p]> (transport_words x)) (link_words x) (udp_sa x) (wire_ready x)).
Definition put_link (lp : Z) (l : link_data) : MW unit :=
  upd_ext (fun x => mk_wire (net x) (transport_words x) (<[lp := l]> (link_words x)) (udp_sa x) (wire_ready x)).
Definition put_sa (a : addrinfo) : MW unit :=
  upd_ext (fun x => mk_wire (net x) (transport_words x) (link_words x) a (wire_ready x)).

Definition sockets_at (tp : Z) (x : wire X) : Z * Z := default (stale tp) (transport_words x !! tp).
Definition tcp_transport (tp : Z) : MW eb_posix_tcp_transport :=
  gets (fun w => let '(a, b) := sockets_at tp (w_ext w) in mk_tcp_transport a b).
Definition udp_transport (tp : Z) : MW eb_posix_udp_transport :=
  gets (fun w => let '(a, b) := sockets_at tp (w_ext w) in mk_udp_transport a b).

Definition socket_at (lp : Z) (x : wire X) : Z :=
  match link_words x !! lp with Some (LTcp l) => tcp_socket l | Some (LDev l) => fdes l | _ => (stale lp).1 end.
Definition tcp_link (lp : Z) : MW eb_posix_tcp_link := gets (fun w => mk_tcp_link (socket_at lp (w_ext w))).
Definition dev_link (lp : Z) : MW eb_dev_link :=
  gets (fun w => match link_words (w_ext w) !! lp with Some (LDev l) => l | _ => mk_dev_link (socket_at lp (w_ext w)) (stale lp).2 end).
(** A pointer that was not written is not followed. *)
Definition udp_link (lp : Z) : MW eb_posix_udp_link := fun w =>
  match link_words (w_ext w) !! lp with Some (LUdp l) => Some (l, w) | _ => None end.

(** [linkp] as a pointer: [EB_NULL] is the null pointer. *)
Definition at_link {A} (link : Z -> MW A) (lp : Z) : MW (option A) :=
  if lp =? EB_NULL then ret None else let* l := link lp in ret (Some l).

Definition ready : MW (Z -> bool) := gets (fun w fd => wire_ready (w_ext w) fd EB_DESCRIPTOR_IN).
Definition inputs (fds : list Z) : list (Z * Z) := map (fun fd => (fd, EB_DESCRIPTOR_IN)) fds.

(** A port of no characters stands for the null pointer. *)
Definition port_of (port : list Z) : option (list Z) := match port with [] => None | _ => Some port end.

(** [struct eb_transport_ops] *)
Record eb_transport_ops := mk_ops {
  ops_mtu : Z;
  ops_open : Z -> list Z -> MW Z;
  ops_close : Z -> MW unit;
  ops_connect : Z -> Z -> list Z -> bool -> MW Z;
  ops_disconnect : Z -> Z -> MW unit;
  ops_fdes : Z -> Z -> MW (list (Z * Z));
  ops_accept : Z -> Z -> MW Z;
  ops_poll : Z -> Z -> nat -> MW (Z * list Z);
  ops_recv : Z -> Z -> nat -> MW (Z * list Z);
  ops_send : Z -> Z -> list Z -> MW unit;
  ops_send_buffer : Z -> Z -> bool -> MW unit }.

(** The operations that do nothing. *)
Definition eb_dev_open : Z := EB_OK.
Definition eb_dev_accept : Z := 0.
Definition eb_posix_udp_accept : Z := 0.
Definition eb_tunnel_open : Z := EB_OK.
Definition eb_tunnel_accept : Z := 0.

(** Store what connecting or opening made, if anything, and return the status. *)
Definition stored {A} (store : A -> MW unit) (r : Z * option A) : MW Z :=
  match r with (status, Some a) => store a ;;; ret status | (status, None) => ret status end.

Definition dev_ops : eb_transport_ops := {|
  ops_mtu := EB_DEV_MTU;
  ops_open _ _ := ret eb_dev_open;
  ops_close _ := ret tt;
  ops_connect _ lp address passive := let* r := on_net (eb_dev_connect fuel address passive) in stored (fun l => put_link lp (LDev l)) r;
  ops_disconnect _ lp := let* l := dev_link lp in on_net (eb_dev_disconnect l);
  ops_fdes _ lp := let* l := at_link dev_link lp in ret (inputs (eb_dev_fdes l));
  ops_accept _ _ := ret eb_dev_accept;
  ops_poll _ lp len :=
    let* l := at_link dev_link lp in
    let* f := ready in
    let* ' (n, bytes, l) := on_net (eb_dev_poll l f len) in
    match l with Some l => put_link lp (LDev l) | None => ret tt end ;;; ret (n, bytes);
  ops_recv _ lp len :=
    let* l := at_link dev_link lp in
    let* ' (n, bytes, l) := on_net (eb_dev_recv l len) in
    match l with Some l => put_link lp (LDev l) | None => ret tt end ;;; ret (n, bytes);
  ops_send _ lp bytes := let* l := dev_link lp in let* l := on_net (eb_dev_send l bytes) in put_link lp (LDev l);
  ops_send_buffer _ _ _ := ret tt |}.

Definition udp_ops : eb_transport_ops := {|
  ops_mtu := EB_POSIX_UDP_MTU;
  ops_open tp port := let* r := on_net (eb_posix_udp_open (port_of port)) in stored (fun t => put_transport tp (socket4 t, socket6 t)) r;
  ops_close tp := let* t := udp_transport tp in on_net (eb_posix_udp_close t);
  ops_connect tp lp address _ :=
    let* t := udp_transport tp in
    let* r := on_net (eb_posix_udp_connect t address) in stored (fun l => put_link lp (LUdp l)) r;
  ops_disconnect _ lp := let* l := udp_link lp in on_net (eb_posix_udp_disconnect l);
  ops_fdes tp lp := let* t := udp_transport tp in let* l := at_link udp_link lp in ret (inputs (eb_posix_udp_fdes t l));
  ops_accept _ _ := ret eb_posix_udp_accept;
  ops_poll tp lp len :=
    let* t := udp_transport tp in
    let* l := at_link udp_link lp in
    let* f := ready in
    let* ' (n, bytes, a) := on_net (eb_posix_udp_poll t l f len) in
    match a with Some a => put_sa a | None => ret tt end ;;; ret (n, bytes);
  ops_recv _ _ _ := on_net eb_posix_udp_recv;
  ops_send tp lp bytes :=
    let* t := udp_transport tp in
    let* l := at_link udp_link lp in
    let* a := gets (fun w => udp_sa (w_ext w)) in
    on_net (eb_posix_udp_send t l a bytes);
  ops_send_buffer _ _ _ := ret tt |}.

Definition tcp_ops : eb_transport_ops := {|
  ops_mtu := EB_POSIX_TCP_MTU;
  ops_open tp port := let* r := on_net (eb_posix_tcp_open (port_of port)) in stored (fun t => put_transport tp (port4 t, port6 t)) r;
  ops_close tp := let* t := tcp_transport tp in on_net (eb_posix_tcp_close t);
  ops_connect _ lp address _ := let* r := on_net (eb_posix_tcp_connect address) in stored (fun l => put_link lp (LTcp l)) r;
  ops_disconnect _ lp := let* l := tcp_link lp in on_net (eb_posix_tcp_disconnect l);
  ops_fdes tp lp := let* t := tcp_transport tp in let* l := at_link tcp_link lp in ret (inputs (eb_posix_tcp_fdes t l));
  ops_accept tp lp :=
    let* t := tcp_transport tp in
    let* f := ready in
    let* r := on_net (eb_posix_tcp_accept t (negb (lp =? EB_NULL)) f) in stored (fun l => put_link lp (LTcp l)) r;
  ops_poll _ lp len := let* l := at_link tcp_link lp in let* f := ready in on_net (eb_posix_tcp_poll l f len);
  ops_recv _ lp len := let* l := at_link tcp_link lp in on_net (eb_posix_tcp_recv l len);
  ops_send _ lp bytes := let* l := tcp_link lp in on_net (eb_posix_tcp_send l bytes);
  ops_send_buffer _ lp on := let* l := tcp_link lp in on_net (eb_posix_tcp_send_buffer l on) |}.

Definition tunnel_ops : eb_transport_ops := {|
  ops_mtu := EB_TUNNEL_MTU;
  ops_open _ _ := ret eb_tunnel_open;
  ops_close _ := ret tt;
  ops_connect _ lp address _ := let* r := on_net (eb_tunnel_connect address) in stored (fun l => put_link lp (LTcp l)) r;
  ops_disconnect _ lp := let* l := tcp_link lp in on_net (eb_tunnel_disconnect l);
  ops_fdes _ lp := let* l := at_link tcp_link lp in ret (inputs (eb_tunnel_fdes l));
  ops_accept _ _ := ret eb_tunnel_accept;
  ops_poll _ lp len := let* l := at_link tcp_link lp in let* f := ready in on_net (eb_tunnel_poll l f (Z.of_nat len));
  ops_recv _ _ _ := on_net eb_tunnel_recv;
  ops_send _ lp bytes := let* l := tcp_link lp in on_net (eb_tunnel_send l bytes);
  ops_send_buffer _ _ _ := ret tt |}.

Definition eb_transports : list eb_transport_ops := [dev_ops; udp_ops; tcp_ops; tunnel_ops].
Definition eb_transport_size : Z := Z.of_nat (length eb_transports).

(** [eb_transports[link_type].f(...)]; there is nothing behind the table. *)
Definition row {A} (link_type : Z) (f : eb_transport_ops -> MW A) : MW A :=
  if link_type <? 0 then fault else
  match eb_transports !! Z.to_nat link_type with Some ops => f ops | None => fault end.

(** The environment of the library: the application's part and the table. *)
Definition posix_env (expand : pool -> option pool) (callback : Z -> Z -> Z -> Z -> Z -> MW unit)
    (sdb_callback : Z -> Z -> Z -> option sdb_table -> Z -> MW unit)
    (dev_read : Z -> Z -> Z -> Z -> MW (Z * Z)) (dev_write : Z -> Z -> Z -> Z -> Z -> MW Z) (version date : Z)
    (now : MW (Z * Z)) (select : list Z -> list Z -> Z -> MW (list Z * list Z)) : Env (wire X) := {|
  e_expand := expand; e_callback := callback; e_sdb_callback := sdb_callback; e_dev_read := dev_read; e_dev_write := dev_write;
  e_version := version; e_date := date; e_now := now; e_select := select;
  e_ready r := upd_ext (fun x => mk_wire (net x) (transport_words x) (link_words x) (udp_sa x) r);
  t_size := eb_transport_size;
  t_mtu lt := from_option ops_mtu 0 (eb_transports !! Z.to_nat lt);
  t_open lt tp port := row lt (fun ops => ops_open ops tp port);
  t_close lt tp := row lt (fun ops => ops_close ops tp);
  t_connect lt tp lp address passive := row lt (fun ops => ops_connect ops tp lp address passive);
  t_disconnect lt tp lp := row lt (fun ops => ops_disconnect ops tp lp);
  t_fdes lt tp lp := row lt (fun ops => ops_fdes ops tp lp);
  t_accept lt tp lp := row lt (fun ops => ops_accept ops tp lp);
  t_poll lt tp lp len := row lt (fun ops => ops_poll ops tp lp len);
  t_recv lt tp lp len := row lt (fun ops => ops_recv ops tp lp len);
  t_send lt tp lp bytes := row lt (fun ops => ops_send ops tp lp bytes);
  t_send_buffer lt tp lp on := row lt (fun ops => ops_send_buffer ops tp lp on) |}.
End table.

(** * A flush over a tunnel *)

(** The packets among the events of a flush. *)
Definition packets (evs : list event) : list (list Z) := omap (fun e => match e with Packet bytes => Some bytes | _ => None end) evs.

Lemma mwrite_ok v alignment : bytes_ok (EB_mWRITE v alignment).
Proof. unfold EB_mWRITE. repeat case_match; first [apply be_bytes_ok|constructor]. Qed.

Lemma mwrites_ok {A} (f : A -> Z) alignment l : bytes_ok (concat (map (fun x => EB_mWRITE (f x) alignment) l)).
Proof. induction l as [|x l IH]; [constructor|]. cbn [map concat]. apply Forall_app_2; [apply mwrite_ok|exact IH]. Qed.

Lemma zeros_ok n : bytes_ok (replicate n 0).
Proof. by apply Forall_replicate. Qed.

(** What is sent for a cycle consists of bytes. *)
Lemma cycle_bytes_ok width rba recs : bytes_ok (cycle_bytes width rba recs).
Proof.
  unfold cycle_bytes. induction recs as [|r recs IH]; [constructor|]. cbn [map concat]. apply Forall_app_2; [|exact IH]. clear IH.
  unfold record_bytes. apply Forall_app_2; [|apply Forall_app_2; [|apply Forall_app_2]].
  - unfold record_header. apply Forall_app_2; [|apply zeros_ok].
    repeat apply Forall_cons_2; [apply flags_facts|apply (wrap_range 8); lia|apply (wrap_range 8); lia|apply (wrap_range 8); lia|constructor].
  - unfold write_section. destruct (r_writes r) as [|[x o] ws]; [constructor|]. apply Forall_app_2; [apply mwrite_ok|].
    apply (mwrites_ok (fun xo : Z * eb_operation => u64 (op_value xo.2 .<< (op_shift (g_data width) (r_plan r) .<< 3)))).
  - unfold error_section. case_match; [apply Forall_app_2; apply mwrite_ok|constructor].
  - unfold read_section. destruct (r_reads r) as [|xo rs]; [constructor|]. apply Forall_app_2; [apply mwrite_ok|].
    apply (mwrites_ok (fun xo : Z * eb_operation => op_address xo.2)).
Qed.

Definition payload_ok (o : outcome) : Prop := match o with Done p | Waiting p _ _ => bytes_ok p | Refused _ _ => True end.

Lemma settled_payloads width mtu time exhausted rba q os : settle_all width mtu time exhausted rba q os -> Forall payload_ok os.
Proof.
  induction 1 as [|rba e o es os Ho _ IH]; constructor; [|exact IH]. by destruct Ho; try apply cycle_bytes_ok.
Qed.

(** Packets are headed, fit the link and consist of bytes. *)
Lemma flushed_packets width mtu devicep buf q evs : link_width width -> (g_record_alignment width <= mtu)%nat ->
  flushed width mtu devicep buf q evs ->
  (g_record_alignment width + length (concat buf) <= mtu)%nat -> bytes_ok (concat buf) -> Forall (fun eo => payload_ok eo.2) q ->
  Forall (fun bytes => (0 < length bytes <= mtu)%nat /\ bytes_ok bytes) (packets evs).
Proof.
  intros Hw Hhal Hf. pose proof (g_record_alignment_cases width) as Hcases.
  assert (forall buf bytes, packet width buf bytes -> (g_record_alignment width + length (concat buf) <= mtu)%nat -> bytes_ok (concat buf) ->
    (0 < length bytes <= mtu)%nat /\ bytes_ok bytes) as Hlen.
  { intros b bytes (flags & Hflags & ->) Hfit Hok. split; [rewrite length_app, length_packet_header; lia|].
    apply Forall_app_2; [|exact Hok]. unfold packet_header. apply Forall_app_2; [|apply zeros_ok].
    repeat apply Forall_cons_2; [lia|lia|destruct Hflags as [-> | ->]; by split; vm_compute|exact (proj1 Hw)|constructor]. }
  induction Hf as [|buf bytes Hne Hp|buf bytes q evs Hne Hp Hf IH|buf e op st q evs Hf IH|buf e payload q evs Hfit Hf IH|buf e payload x r q evs Hfit Hf IH];
    intros Hbuf Hok Hq; cbn [packets omap list_omap].
  - constructor.
  - constructor; [by eapply Hlen|constructor].
  - constructor; [by eapply Hlen|]. apply IH; [cbn [concat length]; lia|constructor|done].
  - apply Forall_cons in Hq as [_ Hq]. by apply IH.
  - apply Forall_cons in Hq as [Hpay Hq]. apply IH; [done| |done]. rewrite concat_app. cbn [concat]. rewrite app_nil_r. by apply Forall_app_2.
  - apply Forall_cons in Hq as [Hpay Hq]. apply IH; [done| |done]. rewrite concat_app. cbn [concat]. rewrite app_nil_r. by apply Forall_app_2.
Qed.

Section over_tunnel.
Context {X : Type} `{Network X} (stale : Z -> Z * Z) (fuel : nat).
Context (expand : pool -> option pool) (callback : Z -> Z -> Z -> Z -> Z -> M (wire X) unit)
  (sdb_callback : Z -> Z -> Z -> option sdb_table -> Z -> M (wire X) unit)
  (dev_read : Z -> Z -> Z -> Z -> M (wire X) (Z * Z)) (dev_write : Z -> Z -> Z -> Z -> Z -> M (wire X) Z) (version date : Z)
  (now : M (wire X) (Z * Z)) (select : list Z -> list Z -> Z -> M (wire X) (list Z * list Z)).

#[local] Instance wire_env : Env (wire X) := posix_env stale fuel expand callback sdb_callback dev_read dev_write version date now select.
Context `{!PoolExpander e_expand} `{Callbacks (wire X)}.
Implicit Types w : world (wire X).

Definition TUNNEL : Z := 3.

Definition sent_at (fd : Z) w : list Z := sent (outside (net (w_ext w))) fd.

Lemma send_appends fd bs x : sent (px_send fd bs x) fd = sent x fd ++ bs.
Proof. apply px_send_out. Qed.

Lemma setsockopt_silent fd fd' o b x : sent (px_setsockopt fd o b x) fd' = sent x fd'.
Proof. by rewrite px_setsockopt_out. Qed.

(** The callbacks of the application use neither the pool nor the connection. *)
Hypothesis callbacks_quiet : forall f u dv op st, quiet (Master.call f u dv op st).
Hypothesis callbacks_apart : forall f u dv op st w v, Master.call f u dv op st w = Some (tt, v) ->
  link_words (w_ext v) = link_words (w_ext w) /\ forall fd, sent_at fd v = sent_at fd w.

Lemma on_net_quiet (m : K X unit) : (forall k, exists k', m k = Some (tt, k')) -> quiet (on_net m).
Proof.
  intros Hm w. destruct (Hm (net (w_ext w))) as (k' & E). unfold on_net. rewrite E. eexists. split; [reflexivity|]. split; [done|].
  intros p. cbn. by rewrite E.
Qed.

Lemma tunnel_send_ends link bytes (k : kernel X) : exists k', eb_tunnel_send link bytes k = Some (tt, k').
Proof. eexists. reflexivity. Qed.

Lemma tunnel_quiet tp lp bytes : quiet (t_send TUNNEL tp lp bytes).
Proof.
  intros w. destruct (on_net_quiet (eb_tunnel_send (mk_tcp_link (socket_at stale lp (w_ext w))) bytes) (tunnel_send_ends _ _) w) as (v & E & P & U).
  exists v. split; [exact E|]. split; [exact P|exact U].
Qed.

Lemma tunnel_batch_quiet tp lp on : quiet (t_send_buffer TUNNEL tp lp on).
Proof. intros w. by exists w. Qed.

(** What an event puts on the connection. *)
Lemma event_sends tp lp ev w v : perform_event TUNNEL tp lp ev w = Some (tt, v) ->
  Forall (fun b => (0 < length b <= 1472)%nat) (packets [ev]) ->
  socket_at stale lp (w_ext v) = socket_at stale lp (w_ext w) /\
  sent_at (socket_at stale lp (w_ext w)) v = sent_at (socket_at stale lp (w_ext w)) w ++ frames (packets [ev]).
Proof.
  intros E Hb. destruct ev as [bytes|on|f u dv op st]; cbn [packets omap list_omap] in *.
  - apply Forall_cons in Hb as [Hb _]. set (fd := socket_at stale lp (w_ext w)) in *.
    change (on_net (eb_tunnel_send (mk_tcp_link fd) bytes) w = Some (tt, v)) in E.
    destruct (ends_send_all sent send_appends setsockopt_silent (mk_tcp_link fd) [bytes] (net (w_ext w))) as ([] & k' & Es & Hs);
      [constructor; [lia|constructor]|]. cbn [send_all] in Es. unfold on_net in E.
    destruct (tunnel_send_ends (mk_tcp_link fd) bytes (net (w_ext w))) as (k1 & E1). rewrite E1 in E. injection E as <-.
    cbv [mbind K_bind] in Es. rewrite E1 in Es. injection Es as <-. split; [done|exact Hs].
  - injection E as <-. split; [done|]. cbn. by rewrite app_nil_r.
  - destruct (callbacks_apart _ _ _ _ _ _ _ E) as [Hl Hs]. unfold socket_at in *. rewrite Hl, Hs. split; [done|]. cbn. by rewrite app_nil_r.
Qed.

Lemma events_send tp lp evs : forall w v, mapM_ (perform_event TUNNEL tp lp) evs w = Some (tt, v) ->
  Forall (fun b => (0 < length b <= 1472)%nat) (packets evs) ->
  sent_at (socket_at stale lp (w_ext w)) v = sent_at (socket_at stale lp (w_ext w)) w ++ frames (packets evs).
Proof.
  induction evs as [|ev evs IH]; intros w v E Hb; [injection E as <-; cbn; by rewrite app_nil_r|].
  cbn [mapM_] in E. unfold bind in E. destruct (perform_event TUNNEL tp lp ev w) as [[[] w1]|] eqn:E1; [|done].
  change (packets (ev :: evs)) with (omap (fun e => match e with Packet bytes => Some bytes | _ => None end) ([ev] ++ evs)) in *.
  rewrite omap_app in Hb |- *. apply Forall_app in Hb as [Hb1 Hb2]. destruct (event_sends _ _ _ _ _ E1 Hb1) as [Hs1 Hw1].
  specialize (IH w1 v E Hb2). rewrite Hs1 in IH. rewrite IH, Hw1, <- app_assoc. f_equal. unfold frames. by rewrite map_app, concat_app.
Qed.

End over_tunnel.

(** * A request over UDP *)

Section over_udp.
Context {X : Type} `{Network X} (stale : Z -> Z * Z) (fuel : nat).
Context (expand : pool -> option pool) (callback : Z -> Z -> Z -> Z -> Z -> M (wire X) unit)
  (sdb_callback : Z -> Z -> Z -> option sdb_table -> Z -> M (wire X) unit)
  (dev_read : Z -> Z -> Z -> Z -> M (wire X) (Z * Z)) (dev_write : Z -> Z -> Z -> Z -> Z -> M (wire X) Z) (version date : Z)
  (now : M (wire X) (Z * Z)) (select : list Z -> list Z -> Z -> M (wire X) (list Z * list Z)).

#[local] Instance udp_env : Env (wire X) := posix_env stale fuel expand callback sdb_callback dev_read dev_write version date now select.
Context `{!PoolExpander e_expand} `{Callbacks (wire X)} `{Blocking (wire X)}.
Implicit Types w : world (wire X).

Definition UDP : Z := 1.

(** The IPv4 socket hands out its first datagram; its sender is remembered. *)
Lemma udp_poll_first tp (len : nat) w message rest : let fd := (sockets_at stale tp (w_ext w)).1 in
  fd <> -1 -> wire_ready (w_ext w) fd EB_DESCRIPTOR_IN = true -> prompt (X := X) ->
  inbox (outside (net (w_ext w))) fd = message :: rest -> (length message <= len)%nat ->
  exists w1, t_poll UDP tp EB_NULL len w = Some ((Z.of_nat (length message), message), w1) /\ w_pool w1 = w_pool w /\
    udp_sa (w_ext w1) = (px_recvfrom fd len (outside (net (w_ext w)))).1.2 /\ inbox (outside (net (w_ext w1))) fd = rest /\
    transport_words (w_ext w1) = transport_words (w_ext w).
Proof.
  intros fd Hfd Hready (_ & Hprompt & _) Hin Hlen. pose proof (px_recvfrom_in fd len (outside (net (w_ext w)))) as Hrecv.
  specialize (Hprompt fd len (outside (net (w_ext w))) ltac:(by rewrite Hin)).
  destruct (px_recvfrom fd len (outside (net (w_ext w)))) as [[[r bs] from] x'] eqn:Ex. cbn in Hprompt.
  destruct Hrecv as ([(d & rest' & Hd & -> & -> & Hin')|[-> _]] & _); [|done]. rewrite Hin in Hd. injection Hd as <- <-.
  rewrite firstn_all2 in * by lia.
  set (k1 := mk_kernel (descriptors (net (w_ext w))) (blocks (net (w_ext w))) x').
  assert (eb_posix_udp_poll (mk_udp_transport fd (sockets_at stale tp (w_ext w)).2) None (fun fd => wire_ready (w_ext w) fd EB_DESCRIPTOR_IN) len (net (w_ext w))
    = Some ((Z.of_nat (length message), message, Some from), k1)) as Epoll.
  { unfold eb_posix_udp_poll, try_recvfrom. cbn [socket4]. rewrite (proj2 (Z.eqb_neq fd (-1))), Hready by done. cbn [negb andb].
    unfold mbind, K_bind, Posix.call. rewrite Ex. unfold eb_posix_ip_ewouldblock, wouldblock, Posix.call.
    rewrite (proj2 (Z.eqb_neq _ (-1))) by lia. reflexivity. }
  eexists. split.
  - change (t_poll UDP tp EB_NULL len w) with
      (bind (on_net (eb_posix_udp_poll (let '(a, b) := sockets_at stale tp (w_ext w) in mk_udp_transport a b) None
          (fun fd => wire_ready (w_ext w) fd EB_DESCRIPTOR_IN) len))
        (fun r => let '(n, bytes, a) := r in match a with Some a => put_sa a | None => ret tt end ;;; ret (n, bytes)) w).
    rewrite (surjective_pairing (sockets_at stale tp (w_ext w))). fold fd. unfold bind at 1, on_net. rewrite Epoll. reflexivity.
  - split_and!; try done.
Qed.

(** C9: a request that arrives as a datagram is answered to its sender. The next
    datagram of the IPv4 socket is a packet that another library formed from a
    cycle; the operations of the cycle are performed on the local bus, and if the
    records ask for anything the answer, and nothing else, leaves as one datagram
    for the host the request came from, provided that the devices on the bus do not
    receive datagrams themselves, for the sender is kept in a global variable. *)
Theorem udp_request_answered (socketp transportp width rba maxops : Z) (nc : bool) (l : list (Z * eb_operation)) (recs : list rec)
    (tr : eb_transport) (s : eb_socket) (rest : list (list Z)) w
    (Hw : link_width width) (Hrba : 0 <= rba < 2 ^ 16) (Hm : 0 < maxops < 2 ^ 32) (Hne : l <> []) (Hl : executable width l)
    (Hrecs : cycle_records (g_data width) maxops nc (S (2 * length l)) 0 l = Some recs)
    (Htr : cells (w_pool w) !! transportp = Some (ITransport tr)) (Hudp : tr_link_type tr = UDP)
    (Hs : cells (w_pool w) !! socketp = Some (ISocket s)) (Hwid : eb_width_refine (width .& sk_widths s) = width)
    (Hfd : (sockets_at stale transportp (w_ext w)).1 <> -1)
    (Hready : wire_ready (w_ext w) (sockets_at stale transportp (w_ext w)).1 EB_DESCRIPTOR_IN = true) (Hprompt : prompt (X := X))
    (Hin : inbox (outside (net (w_ext w))) (sockets_at stale transportp (w_ext w)).1 =
           (packet_header 0 width ++ cycle_bytes width rba recs) :: rest)
    (Hfits : (length (packet_header 0 width ++ cycle_bytes width rba recs) <= buffer_size)%nat) :
  let from := (px_recvfrom (sockets_at stale transportp (w_ext w)).1 buffer_size (outside (net (w_ext w)))).1.2 in
  let message := packet_header 0 width ++ cycle_bytes width rba recs in
  exists w1, t_poll UDP transportp EB_NULL buffer_size w = Some ((Z.of_nat (length message), message), w1) /\ w_pool w1 = w_pool w /\
    inbox (outside (net (w_ext w1))) (sockets_at stale transportp (w_ext w)).1 = rest /\
    forall vss e w2, perform_cycle socketp width recs 0 w1 = Some ((vss, e), w2) -> udp_sa (w_ext w1) = udp_sa (w_ext w2) ->
    exists w3, eb_device_slave socketp transportp EB_NULL w = Some (1, w3) /\ w_pool w3 = w_pool w2 /\
      sent_out (net (w_ext w3)) = sent_out (net (w_ext w2)) ++
        (if existsb asks recs then [(from, packet_header EB_HEADER_NR width ++ answers width rba recs vss false)] else []).
Proof.
  intros from message. destruct (udp_poll_first transportp buffer_size w _ rest Hfd Hready Hprompt Hin Hfits) as (w1 & Hpoll & Hp & Hsa & Hin1 & _).
  exists w1. split; [exact Hpoll|]. split; [done|]. split; [done|]. intros vss e w2 Hrun Hkept.
  erewrite (packet_served_spec socketp transportp width rba maxops nc l recs tr s w w1);
    [|rewrite Hudp; discriminate|done..|by rewrite Hudp|by rewrite Hp|done].
  unfold bind at 1. rewrite Hrun, Hudp. cbn beta iota. destruct (existsb asks recs); unfold when.
  - eexists. split; [unfold bind; reflexivity|]. split; [done|]. cbn.
    match goal with |- context [px_sendto ?fd ?bs ?a ?x] => destruct (px_sendto_out fd bs a x) as (So & _) end.
    unfold sent_out. cbn. rewrite So. unfold from. by rewrite <- Hsa, Hkept.
  - eexists. split; [reflexivity|]. split; [done|]. by rewrite app_nil_r.
Qed.
End over_udp.

(** ** Instances *)

Section sample.
Import World.Sample.

#[local] Instance sample_env : Env (wire SampleNet.net) :=
  posix_env (fun _ => (-1, -1)) 1 (Dynamic.eb_expand_array (fun _ => true)) (fun _ _ _ _ _ => ret tt) (fun _ _ _ _ _ => ret tt)
    (fun _ _ _ _ => ret (EB_OK, 0)) (fun _ _ _ _ _ => ret EB_OK) 0x020001 0x20160405 (ret (0, 0)) (fun r w _ => ret (r, w)).
#[local] Instance sample_expander : PoolExpander (@e_expand _ sample_env) := dynamic_expander (fun _ => true).
#[local] Instance sample_silent : Callbacks (wire SampleNet.net) := {| Master.call _ _ _ _ _ := ret tt |}.

(** The queue of file Flush, on a device whose link is a tunnel. *)
Definition tunnel_items : list item := <[4%nat := ITransport (mk_transport [] TUNNEL EB_NULL)]> Flush.outbox.
Definition tunnel_world : world (wire SampleNet.net) :=
  mk_world (seed tunnel_items) ∅ ∅
    (mk_wire (mk_kernel {[5]} 0 (SampleNet.mk_net [] ∅ [] [])) ∅ {[3 := LTcp (mk_tcp_link 5)]} (mk_addrinfo 0 []) (fun _ _ => true)).
(** The proxy, with a stream on its client's connection. *)
Definition proxy_kernel (stream : list Z) : kernel SampleNet.net := mk_kernel {[4; 5; 6]} 2 (SampleNet.mk_net stream ∅ [] []).

Lemma tunnel_world_ok : pool_ok tunnel_world.
Proof. exact (pool_ok_seed tunnel_items [] eq_refl). Qed.

Lemma tunnel_entries : Forall (entry_ok tunnel_world) Flush.outbox_queue.
Proof.
  assert (forall o, is_byte (op_format o) -> forall x, Forall (fun xo : Z * eb_operation => is_byte (op_format xo.2)) [(x, o)]) as Hf
    by (intros o Ho x; constructor; [exact Ho|constructor]).
  constructor; [|constructor; [|constructor; [|constructor]]].
  - split; [exists EB_NULL; vm_compute; reflexivity|].
    split; [apply (walk_sound 5); vm_compute; reflexivity|apply Hf; cbn; lia].
  - split; [exists 5; vm_compute; reflexivity|]. split; [reflexivity|constructor].
  - split; [exists 6; vm_compute; reflexivity|].
    split; [apply (walk_sound 5); vm_compute; reflexivity|apply Hf; cbn; lia].
Qed.

Lemma silent_quiet f u dv op st : quiet (X := wire SampleNet.net) (Master.call f u dv op st).
Proof. intros w. by exists w. Qed.

Lemma silent_apart f u dv op st (w v : world (wire SampleNet.net)) : Master.call f u dv op st w = Some (tt, v) ->
  link_words (w_ext v) = link_words (w_ext w) /\ forall fd, sent_at fd v = sent_at fd w.
Proof. by intros [= <-]. Qed.


(** A socket with a device on its bus; a request waits on the UDP socket. *)
#[local] Instance sample_blocking : Blocking (wire SampleNet.net) := {| b_run _ _ := ret 0; b_fuel := 1 |}.

Definition udp_world : world (wire SampleNet.net) :=
  mk_world (seed station) ∅ (w_sdb (world_of station []))
    (mk_wire (mk_kernel {[5]} 0 (SampleNet.mk_net [] {[5 := [request_packet]]} [] [])) {[1 := (5, -1)]} ∅ (mk_addrinfo 0 []) (fun _ _ => true)).

Definition udp_after : world (wire SampleNet.net) :=
  mk_world (seed station) ∅ (w_sdb (world_of station []))
    (mk_wire (mk_kernel {[5]} 0 (SampleNet.mk_net [] {[5 := []]} [] [])) {[1 := (5, -1)]} ∅ (mk_addrinfo PF_INET []) (fun _ _ => true)).

Lemma udp_polled : t_poll UDP 1 EB_NULL buffer_size udp_world = Some ((Z.of_nat (length request_packet), request_packet), udp_after).
Proof. vm_compute. reflexivity. Qed.

Lemma udp_runs : match perform_cycle 0 0x44 remote_records 0 udp_after with
  | Some (_, w2) => udp_sa (w_ext udp_after) = udp_sa (w_ext w2) /\ sent_out (net (w_ext w2)) = []
  | None => False
  end.
Proof. vm_compute. split; reflexivity. Qed.

Lemma udp_request_answered_witness : exists w3 vss, eb_device_slave 0 1 EB_NULL udp_world = Some (1, w3) /\
  sent_out (net (w_ext w3)) = [(mk_addrinfo PF_INET [], packet_header EB_HEADER_NR 0x44 ++ answers 0x44 0x8000 remote_records vss false)].
Proof.
  destruct (@udp_request_answered _ sample_net sample_network (fun _ => (-1, -1)) 1 (Dynamic.eb_expand_array (fun _ => true)) (fun _ _ _ _ _ => ret tt) (fun _ _ _ _ _ => ret tt)
    (fun _ _ _ _ => ret (EB_OK, 0)) (fun _ _ _ _ _ => ret EB_OK) 0x020001 0x20160405 (ret (0, 0)) (fun r w _ => ret (r, w)) sample_silent sample_blocking
    0 1 0x44 0x8000 40 false remote_ops remote_records (mk_transport [] 1 EB_NULL) (mk_socket 2 EB_NULL EB_NULL EB_NULL EB_NULL 0xff) [] udp_world)
    as (w1 & Hpoll & _ & _ & Hserved);
    [exact link_width_44|lia|lia|discriminate|exact remote_ops_executable|vm_compute; reflexivity
    |vm_compute; reflexivity|reflexivity|vm_compute; reflexivity|reflexivity|discriminate|reflexivity|exact sample_prompt|vm_compute; reflexivity|vm_compute; lia|].
  pose proof (f_equal (option_map snd) (eq_trans (eq_sym udp_polled) Hpoll)) as E1. cbn [option_map snd] in E1. injection E1 as <-.
  pose proof udp_runs as Hruns. destruct (perform_cycle 0 0x44 remote_records 0 udp_after) as [[[vss e] w2]|]; [|done].
  destruct Hruns as [Hkept Hnone]. destruct (Hserved vss e w2 eq_refl Hkept) as (w3 & E & _ & Hsent). exists w3, vss. split; [exact E|].
  rewrite Hsent, Hnone. reflexivity.
Defined.
End sample.
