(* ===== verification/Lister.v ===== *)
(** The command-line tools that look around: [src/api/tools/eb-ls.c] lists the devices
    of a bus and of the buses behind its bridges, [eb-find.c] prints where the devices
    with an identity are, [eb-discover.c] who answers a probe on the network.

    What the library delivers for a bridge (file Sdb) is the parameter [scan]. *)
From stdpp Require Import base strings list.
From Stdlib Require Import ZArith Lia.
From S2P Require Import Prelude Widths Store World Handler Device Session Sdb.

(** * printf *)

Definition digit (d : Z) : Z := if d <? 10 then 48 + d else 87 + d.

Fixpoint digits (base : Z) (fuel : nat) (v : Z) (acc : list Z) : list Z :=
  match fuel with
  | O => acc
  | S fuel => if v / base =? 0 then digit (v mod base) :: acc else digits base fuel (v / base) (digit (v mod base) :: acc)
  end.

(** A 64-bit value has at most 20 digits. *)
Definition dec (v : Z) : list Z := digits 10 20 v [].
Definition hex (v : Z) : list Z := digits 16 20 v [].
Definition pad (c : Z) (n : nat) (t : list Z) : list Z := repeat c (n - length t) ++ t.
Definition newline : list Z := [10].

(** * What a listing comes to *)

(** [Waits]: the loop around [eb_socket_run] never ends; [Wild]: an access outside
    of the table or of the chain of buses; [Deep]: more nested buses than the fuel. *)
Inductive ending := Exited (code : Z) | Waits | Wild | Deep.

Definition listing (A : Type) : Type := list Z * (A + ending).
#[export] Instance listing_ret : MRet listing := fun A a => ([], inl a).
#[export] Instance listing_bind : MBind listing := fun A B k m =>
  match m with
  | (t, inl a) => (t ++ (k a).1, (k a).2)
  | (t, inr e) => (t, inr e)
  end.
Definition put (t : list Z) : listing unit := (t, inl tt).
Definition stop {A} (e : ending) : listing A := ([], inr e).
Definition known {A} (o : option A) : listing A := match o with Some a => mret a | None => stop Wild end.

(** * eb-ls *)

(** [parent] is the rest of the chain. *)
Record bus_record := mk_bus_record { br_i : Z; br_stop : Z; br_first : Z; br_last : Z }.

Fixpoint print_id (chain : list bus_record) : option (list Z) :=
  match chain with
  | [] => None
  | br :: parents =>
    if br_i br =? -1 then Some (cstr "root")
    else
      match parents with
      | [] => None
      | parent :: _ =>
        if br_i parent =? -1 then Some (dec (br_i br + 1))
        else more ← print_id parents; Some (more ++ cstr "." ++ dec (br_i br + 1))
      end
  end.

Definition verbose_product (p : sdb_product) : list Z :=
  cstr "  product.vendor_id:        " ++ pad 48 16 (hex (vendor_id p)) ++ newline ++
  cstr "  product.device_id:        " ++ pad 48 8 (hex (device_id p)) ++ newline ++
  cstr "  product.version:          " ++ pad 48 8 (hex (sp_version p)) ++ newline ++
  cstr "  product.date:             " ++ pad 48 8 (hex (sp_date p)) ++ newline ++
  cstr "  product.name:             " ++ sp_name p ++ newline ++ newline.

Definition verbose_component (c : sdb_component) (parent : bus_record) : list Z :=
  cstr "  sdb_component.addr_first: " ++ pad 48 16 (hex (addr_first c)) ++
  (if (addr_first c <? br_first parent) || (br_last parent <? addr_first c) then cstr " !!! out of range" else []) ++ newline ++
  cstr "  sdb_component.addr_last:  " ++ pad 48 16 (hex (addr_last c)) ++
  (if (addr_last c <? br_first parent) || (br_last parent <? addr_last c) then cstr " !!! out of range"
   else if addr_last c <? addr_first c then cstr " !!! precedes addr_first" else []) ++ newline ++
  verbose_product (product c).

(** [empty.record_type] *)
Definition type_of (des : sdb_record) : Z :=
  match des with
  | RDevice d => record_type (product (sdb_comp d))
  | RBridge b => record_type (product (sb_comp b))
  | RIntegration p => record_type p
  | ROther bytes => record_type_of bytes
  end.

(** The child table lies outside of the range of its bridge; [addr_last-64] is
    unsigned. *)
Definition child_outside (b : sdb_bridge) : bool :=
  (sdb_child b <? addr_first (sb_comp b)) || (u64 (addr_last (sb_comp b) - 64) <? sdb_child b).

Definition bridge_bad (b : sdb_bridge) (parent : bus_record) : bool :=
  (addr_first (sb_comp b) <? br_first parent) || (br_last parent <? addr_last (sb_comp b))
  || (addr_last (sb_comp b) <? addr_first (sb_comp b)) || child_outside b.

(** The lines of one record with [-v], after its path. *)
Definition verbose_record (des : sdb_record) (parent : bus_record) : list Z :=
  match des with
  | RDevice d =>
    newline ++
    cstr "  abi_class:                " ++ pad 48 4 (hex (abi_class d)) ++ newline ++
    cstr "  abi_ver_major:            " ++ dec (abi_ver_major d) ++ newline ++
    cstr "  abi_ver_minor:            " ++ dec (abi_ver_minor d) ++ newline ++
    cstr "  wbd_endian:               " ++ cstr (if (bus_specific d .& SDB_WISHBONE_LITTLE_ENDIAN) =? 0 then "big" else "little") ++ newline ++
    cstr "  wbd_width:                " ++ hex (bus_specific d .& 0xf) ++ newline ++
    verbose_component (sdb_comp d) parent
  | RBridge b =>
    newline ++
    cstr "  sdb_child:                " ++ pad 48 16 (hex (sdb_child b)) ++
    (if child_outside b then cstr " !!! not contained in wbd_{addr_first,addr_last}" else []) ++ newline ++
    verbose_component (sb_comp b) parent
  | _ => cstr " not present (" ++ hex (type_of des) ++ cstr ")" ++ newline
  end.

(** The line of one record without [-v]. *)
Definition short_component (c : sdb_component) : list Z :=
  pad 48 16 (hex (vendor_id (product c))) ++ cstr ":" ++ pad 48 8 (hex (device_id (product c))) ++ cstr "  " ++
  pad 32 16 (hex (addr_first c)) ++ cstr "  " ++ sp_name (product c) ++ newline.

Definition short_record (id : list Z) (des : sdb_record) : list Z :=
  id ++ repeat 32 (15 - length id) ++
  match des with
  | RBridge b => short_component (sb_comp b)
  | RDevice d => short_component (sdb_comp d)
  | _ => cstr "---" ++ newline
  end.

Section ls.
Context (verbose norecurse : bool).
(** What comes of [eb_sdb_scan_bus] for a bridge: the status and the table its callback
    is called with, or [None] when it refuses and calls nothing. *)
Context (scan : sdb_bridge -> option (Z * sdb_table)).

(** One turn of the loop; [recurse] is [list_devices] on the table behind a bridge. *)
Definition list_record (recurse : list bus_record -> sdb_table -> Z -> listing bus_record)
    (chain : list bus_record) (parent : bus_record) (i : Z) (des : sdb_record) : listing unit :=
  let br := mk_bus_record i 0 0 0 in
  id ← known (print_id (br :: chain));
  _ ← put (if verbose then cstr "Device " ++ id ++ verbose_record des parent else short_record id des);
  match des with
  | RBridge b =>
    if norecurse || (verbose && bridge_bad b parent) then mret tt
    else
      let br := mk_bus_record i 0 (addr_first (sb_comp b)) (addr_last (sb_comp b)) in
      match scan b with
      | None => stop Waits
      | Some (status, sdb) => _ ← recurse (br :: chain) sdb status; mret tt
      end
  | _ => mret tt
  end.

Fixpoint list_table (recurse : list bus_record -> sdb_table -> Z -> listing bus_record)
    (chain : list bus_record) (parent : bus_record) (sdb : sdb_table) (n : nat) (i : Z) : listing unit :=
  match n with
  | O => mret tt
  | S n =>
    des ← known (records sdb !! Z.to_nat i);
    _ ← list_record recurse chain parent i des;
    list_table recurse chain parent sdb n (i + 1)
  end.

(** The window of the bus, narrowed to what the bus itself announces. *)
Definition narrow (c : sdb_component) (parent : bus_record) : bus_record :=
  mk_bus_record (br_i parent) (br_stop parent) (Z.max (addr_first c) (br_first parent)) (Z.min (addr_last c) (br_last parent)).

Definition bus_lines (sdb : sdb_table) (id : list Z) (parent : bus_record) : list Z :=
  cstr "SDB Bus " ++ id ++ newline ++
  cstr "  sdb_magic:                " ++ pad 48 8 (hex (sdb_magic (interconnect sdb))) ++ newline ++
  cstr "  sdb_records:              " ++ dec (sdb_records (interconnect sdb)) ++ newline ++
  cstr "  sdb_version:              " ++ dec (sdb_version (interconnect sdb)) ++ newline ++
  verbose_component (si_comp (interconnect sdb)) parent.

(** [chain] is [user], the bus that is listed, and its parents. The result is that
    bus afterwards. *)
Fixpoint list_devices (fuel : nat) (chain : list bus_record) (sdb : sdb_table) (status : Z) : listing bus_record :=
  match fuel, chain with
  | O, _ => stop Deep
  | _, [] => stop Wild
  | S fuel, user :: parents =>
    let user := mk_bus_record (br_i user) 1 (br_first user) (br_last user) in
    if negb (status =? EB_OK) then stop (Exited 1)
    else
      _ ← (if verbose then id ← known (print_id (user :: parents)); put (bus_lines sdb id user) else mret tt);
      let user := if verbose then narrow (si_comp (interconnect sdb)) user else user in
      _ ← list_table (list_devices fuel) (user :: parents) user sdb (Z.to_nat (sdb_records (interconnect sdb) - 1)) 0;
      mret user
  end.

(** [main], after the device is open: [root] is what [eb_sdb_scan_root] returns and
    what its callback gets. The limit is that of the addresses of the device. *)
Definition address_limit (width : Z) : Z := (2 ^ 64 - 1) .>> ((8 - (width .>> 4)) * 8).

Definition eb_ls (fuel : nat) (width : Z) (root : Z * option (Z * sdb_table)) (device_closed socket_closed : Z) : listing Z :=
  let br := mk_bus_record (-1) 0 0 (address_limit width) in
  if negb (root.1 =? EB_OK) then mret 1
  else
    _ ← put (if verbose then [] else cstr "BusPath        VendorID         Product   BaseAddress(Hex)  Description" ++ newline);
    match root.2 with
    | None => stop Waits
    | Some (status, sdb) =>
      _ ← list_devices fuel [br] sdb status;
      mret (if negb (device_closed =? EB_OK) then 1 else if negb (socket_closed =? EB_OK) then 1 else 0)
    end.
End ls.

(** * eb-find *)

Definition MAX_DEVICES : nat := 1000.

(** [devices]: what [eb_sdb_find_by_identity] found_devices, and what the stack held
    before behind it, which nobody knows. [None] is a read of it or outside. *)
Definition found_devices (matches : list sdb_device) : list (option sdb_device) :=
  take MAX_DEVICES (map Some matches) ++ replicate (MAX_DEVICES - length matches) None.

Definition find_line (devices : list (option sdb_device)) (index : nat) : option (list Z) :=
  d ← mjoin (devices !! index); Some (cstr "0x" ++ hex (addr_first (sdb_comp d)) ++ newline).

Fixpoint find_lines (devices : list (option sdb_device)) (n : nat) (index : nat) : option (list Z) :=
  match n with
  | O => Some []
  | S n => t ← find_line devices index; u ← find_lines devices n (S index); Some (t ++ u)
  end.

(** [main] after the search: the exit code and the text; [index] is -1 for all. *)
Definition eb_find (matches : list sdb_device) (index : Z) : option (Z * list Z) :=
  let num_devices := length matches in
  if (num_devices =? 0)%nat then Some (1, [])
  else if (MAX_DEVICES <? num_devices)%nat then Some (1, [])
  else if Z.of_nat num_devices <? index then Some (1, [])
  else
    t ← (if index =? -1 then find_lines (found_devices matches) num_devices 0 else find_line (found_devices matches) (Z.to_nat index));
    Some (0, t).

(** * eb-discover *)

Definition discover : list Z := [0x4E; 0x6F; 0x11; 0xFF; 0; 0; 0; 0].

(** What [check] prints about a datagram; [recvfrom] cuts it to eight bytes. [name] is
    what [getnameinfo] says of the sender. *)
Definition check_datagram (family6 : bool) (name : option (list Z * list Z)) (datagram : list Z) : list Z :=
  let buf := take 8 datagram in
  if negb (length buf =? 8)%nat then []
  else if negb (nth 0 buf 0 =? 0x4E) || negb (nth 1 buf 0 =? 0x6F) then []
  else
    let '(host, port) := match name with Some n => n | None => (cstr "unknown", cstr "0") end in
    let id := cstr "udp" ++ dec (if family6 then 6 else 4) ++ cstr "/" ++ host ++ cstr "/" ++ port in
    id ++ repeat 32 (33 - length id) ++
    cstr " V." ++ dec (nth 2 buf 0 .>> 4) ++ cstr "; data=" ++ cstr (str_at width_str (nth 3 buf 0 .& EB_DATAX)) ++
    cstr "-bit addr=" ++ cstr (str_at width_str (nth 3 buf 0 .>> 4)) ++ cstr "-bit" ++ newline.

(** The loop of [main]: [select] names rounds, in each of which both sockets may hold
    a datagram; it ends with the first second without any. *)
Definition discover_loop (rounds : list (list (bool * option (list Z * list Z) * list Z))) : list Z :=
  concat (map (fun r => concat (map (fun d => check_datagram d.1.1 d.1.2 d.2) r)) rounds).

(** * The lines of a tree of buses *)

Inductive bus_tree := Node (l : list (sdb_record * option bus_tree)).
Definition kids (t : bus_tree) : list (sdb_record * option bus_tree) := match t with Node l => l end.

(** [path] is reversed: 0-based numbers of records, the innermost first. *)
Fixpoint dotted (path : list Z) : list Z :=
  match path with
  | [] => []
  | [i] => dec (i + 1)
  | i :: up => dotted up ++ cstr "." ++ dec (i + 1)
  end.

(** The lines of the records from number [i] on; [below] those of a tree at a path. *)
Fixpoint kid_lines (below : list Z -> bus_tree -> list Z) (path : list Z) (l : list (sdb_record * option bus_tree)) (i : Z) : list Z :=
  match l with
  | [] => []
  | (r, k) :: l =>
    short_record (dotted (i :: path)) r ++ match k with Some t => below (i :: path) t | None => [] end ++
    kid_lines below path l (i + 1)
  end.

Fixpoint tree_lines (depth : nat) (path : list Z) (t : bus_tree) : list Z :=
  match depth with
  | O => []
  | S depth => kid_lines (tree_lines depth) path (kids t) 0
  end.

Section spec.
Context (scan : sdb_bridge -> option (Z * sdb_table)).

Definition kid_seen (seen : bus_tree -> sdb_table -> Prop) (k : sdb_record * option bus_tree) : Prop :=
  match k with
  | (RBridge b, Some t) => exists sdb, scan b = Some (EB_OK, sdb) /\ seen t sdb
  | (RBridge _, None) => False
  | (_, k) => k = None
  end.

(** The tables the bus serves are those of a tree of at most [depth] levels. *)
Fixpoint serves_tree (depth : nat) (t : bus_tree) (sdb : sdb_table) : Prop :=
  match depth with
  | O => False
  | S depth =>
    records sdb = map fst (kids t) /\ sdb_records (interconnect sdb) = Z.of_nat (length (kids t)) + 1 /\
    Forall (kid_seen (serves_tree depth)) (kids t)
  end.

Lemma listing_bind_inl {A B} (m : listing A) (k : A -> listing B) t a :
  m = (t, inl a) -> (m ≫= k) = (t ++ (k a).1, (k a).2).
Proof. by intros ->. Qed.

Lemma print_id_deeper br parent chain : br_i br <> -1 -> br_i parent <> -1 ->
  print_id (br :: parent :: chain) = more ← print_id (parent :: chain); Some (more ++ cstr "." ++ dec (br_i br + 1)).
Proof. intros Hb Hp. cbn [print_id]. by rewrite (proj2 (Z.eqb_neq _ _) Hb), (proj2 (Z.eqb_neq _ _) Hp). Qed.

(** The names of the parents give the dotted path. *)
Lemma print_id_dotted path chain : path <> [] -> Forall (fun i => i <> -1) path ->
  map br_i chain = path ++ [-1] -> print_id chain = Some (dotted path).
Proof.
  revert chain. induction path as [|i path IH]; intros chain Hne Hf Hm; [done|].
  apply Forall_cons in Hf as [Hi Hf]. destruct chain as [|br [|parent chain]]; [done|by destruct path|].
  injection Hm as Hb Hm. destruct path as [|j path].
  - injection Hm as Hp Hc. cbn [print_id]. by rewrite Hb, (proj2 (Z.eqb_neq i (-1)) Hi), Hp.
  - pose proof Hm as Hm'. injection Hm as Hp Hc. pose proof Hf as Hf'. apply Forall_cons in Hf' as [Hj _].
    rewrite print_id_deeper by (by rewrite ?Hb, ?Hp). rewrite (IH (parent :: chain)) by done.
    cbn [mbind option_bind dotted]. by rewrite Hb.
Qed.

(** The chain of buses behind a path, up to the root. *)
Definition path_of (chain : list bus_record) (path : list Z) : Prop :=
  map br_i chain = path ++ [-1] /\ Forall (fun i => 0 <= i) path.

Lemma path_of_cons br chain path : 0 <= br_i br -> path_of chain path -> path_of (br :: chain) (br_i br :: path).
Proof. intros Hb [Hm Hf]. split; [cbn; by rewrite Hm|by apply Forall_cons]. Qed.

Lemma list_record_short recurse chain parent i des path below k :
  print_id (mk_bus_record i 0 0 0 :: chain) = Some (dotted (i :: path)) ->
  kid_seen (fun t sdb => forall br, br_i br = i -> exists u, recurse (br :: chain) sdb EB_OK = (below t, inl u)) (des, k) ->
  list_record false false scan recurse chain parent i des =
    (short_record (dotted (i :: path)) des ++ match k with Some t => below t | None => [] end, inl tt).
Proof.
  intros Hp Hk. unfold list_record. rewrite Hp. cbn [known mret listing_ret mbind listing_bind put fst snd app].
  destruct des as [d|b|p|bs]; cbn [kid_seen] in Hk; try (rewrite Hk; by cbn).
  destruct k as [t|]; [|done]. destruct Hk as (sdb & Hs & Hr). cbn [orb andb]. rewrite Hs.
  destruct (Hr (mk_bus_record i 0 (addr_first (sb_comp b)) (addr_last (sb_comp b))) eq_refl) as [u ->].
  cbn. by rewrite !app_nil_r.
Qed.
Lemma list_table_short recurse chain parent sdb path below l : 
  path_of chain path -> Forall (kid_seen (fun t sdb => forall br, 0 <= br_i br ->
    exists u, recurse (br :: chain) sdb EB_OK = (below (br_i br :: path) t, inl u))) l ->
  forall i : nat, drop i (records sdb) = map fst l ->
  list_table false false scan recurse chain parent sdb (length l) (Z.of_nat i) = (kid_lines below path l (Z.of_nat i), inl tt).
Proof.
  intros Hp. induction 1 as [|[des k] l Hk Hl IH]; intros i Hd; [done|]. cbn [length list_table kid_lines map fst] in *.
  assert (records sdb !! i = Some des) as Hi.
  { rewrite <- (Nat.add_0_r i), <- lookup_drop, Hd. done. }
  rewrite Nat2Z.id, Hi. cbn [known mret listing_ret mbind listing_bind fst snd app].
  rewrite (list_record_short recurse chain parent (Z.of_nat i) des path (below (Z.of_nat i :: path)) k).
  - assert (Z.of_nat i + 1 = Z.of_nat (S i)) as -> by lia. cbn [mbind listing_bind fst snd app].
    rewrite IH; [by rewrite <- app_assoc|]. by rewrite <- Nat.add_1_r, <- drop_drop, Hd.
  - apply print_id_dotted; [done| |cbn [map br_i app]; by rewrite (proj1 Hp)].
    apply Forall_cons. split; [lia|]. eapply Forall_impl; [exact (proj2 Hp)|]. cbn. intros. lia.
  - destruct des as [d|b|p|bs]; cbn [kid_seen] in *; try done. destruct k as [t|]; [|done].
    destruct Hk as (sdb' & Hs & Hr). exists sdb'. split; [done|]. intros br Hb. rewrite <- Hb. apply Hr. lia.
Qed.

Lemma list_devices_short depth : forall chain user path t sdb,
  path_of (user :: chain) path -> serves_tree depth t sdb ->
  list_devices false false scan depth (user :: chain) sdb EB_OK =
    (tree_lines depth path t, inl (mk_bus_record (br_i user) 1 (br_first user) (br_last user))).
Proof.
  induction depth as [|depth IH]; intros chain user path t sdb Hp Ht; [done|]. destruct Ht as (Hr & Hn & Hk).
  cbn [list_devices tree_lines]. change (negb (EB_OK =? EB_OK)) with false. cbn iota.
  rewrite Hn. assert (Z.to_nat (Z.of_nat (length (kids t)) + 1 - 1) = length (kids t)) as -> by lia.
  set (user' := mk_bus_record _ _ _ _). assert (path_of (user' :: chain) path) as Hp' by exact Hp.
  pose proof (list_table_short (list_devices false false scan depth) (user' :: chain) user' sdb path (tree_lines depth) (kids t) Hp') as Hl.
  specialize (Hl ltac:(eapply Forall_impl; [exact Hk|]; intros [des k] Hs; destruct des as [d|b|p|bs]; cbn [kid_seen] in *; try done;
    destruct k as [t'|]; [|done]; destruct Hs as (sdb' & Hs & Hs'); exists sdb'; split; [done|]; intros br Hb; eexists; apply IH;
    [apply path_of_cons; [done|exact Hp']|exact Hs']) O). rewrite drop_0 in Hl. cbn [mbind listing_bind mret listing_ret fst snd app].
  change (Z.of_nat 0) with 0 in Hl. rewrite Hl by done. cbn. by rewrite app_nil_r.
Qed.
End spec.

(** eb-ls ends and lists every device of every bus once, each bus behind the line of its
    bridge, under its dotted path: on a bus that is a tree of at most [fuel] levels. *)
Theorem ls_lists_tree (scan : sdb_bridge -> option (Z * sdb_table)) (fuel : nat) (width : Z) (t : bus_tree) (sdb : sdb_table)
    (Ht : serves_tree scan fuel t sdb) :
  eb_ls false false scan fuel width (EB_OK, Some (EB_OK, sdb)) EB_OK EB_OK =
    (cstr "BusPath        VendorID         Product   BaseAddress(Hex)  Description" ++ newline ++ tree_lines fuel [] t, inl 0).
Proof.
  unfold eb_ls. cbn [fst snd]. change (negb (EB_OK =? EB_OK)) with false. cbn iota.
  rewrite (list_devices_short scan fuel [] _ [] t sdb); [|by split|exact Ht].
  cbn [mbind listing_bind mret listing_ret put fst snd]. by rewrite app_nil_r, <- app_assoc.
Qed.

(** * Buses outside of the window *)

(** A bridge within the window of the bus it is on. *)
Definition inside (bus : bus_record) (b : sdb_bridge) : Prop :=
  br_first bus <= addr_first (sb_comp b) /\ addr_last (sb_comp b) <= br_last bus.

Lemma not_bad_inside b bus : bridge_bad b bus = false -> inside bus b.
Proof. unfold bridge_bad, inside. rewrite !orb_false_iff, !Z.ltb_ge. tauto. Qed.

Lemma inside_trans b c bus : inside bus b ->
  forall d, inside (mk_bus_record c 0 (addr_first (sb_comp b)) (addr_last (sb_comp b))) d -> inside bus d.
Proof. intros [H1 H2] d [H3 H4]. cbn in *. split; lia. Qed.

Section window.
Context (norecurse : bool) (scan scan' : sdb_bridge -> option (Z * sdb_table)).

Definition alike (bus : bus_record) : Prop := forall b, inside bus b -> scan b = scan' b.

Lemma list_record_window recurse recurse' chain parent i des :
  alike parent -> (forall br chain sdb st, alike br -> recurse (br :: chain) sdb st = recurse' (br :: chain) sdb st) ->
  list_record true norecurse scan recurse chain parent i des = list_record true norecurse scan' recurse' chain parent i des.
Proof.
  intros Ha Hr. unfold list_record. destruct (print_id _) as [id|]; [|done]. destruct des as [d|b|p|bs]; [done| |done|done].
  destruct norecurse; [done|]. cbn [orb andb]. destruct (bridge_bad b parent) eqn:Eb; [done|].
  pose proof (not_bad_inside b parent Eb) as Hi. rewrite <- (Ha b Hi).
  destruct (scan b) as [[st sdb]|]; [|done]. rewrite Hr; [done|].
  intros b' Hb'. apply Ha. exact (inside_trans b i parent Hi b' Hb').
Qed.

Lemma list_table_window recurse recurse' chain parent sdb n : 
  alike parent -> (forall br chain sdb st, alike br -> recurse (br :: chain) sdb st = recurse' (br :: chain) sdb st) ->
  forall i, list_table true norecurse scan recurse chain parent sdb n i = list_table true norecurse scan' recurse' chain parent sdb n i.
Proof.
  intros Ha Hr. induction n as [|n IH]; intros i; [done|]. cbn [list_table].
  destruct (records sdb !! Z.to_nat i) as [des|]; [|done]. cbn [known mret listing_ret mbind listing_bind fst snd app].
  rewrite (list_record_window recurse recurse') by done.
  destruct (list_record true norecurse scan' recurse' chain parent i des) as [t [u|e]]; [by rewrite IH|done].
Qed.
End window.

(** With [-v] a bus is scanned only when its bridge lies within the window of the bus
    the bridge is on: what the bridges outside of the window lead to makes no
    difference, whatever the tables say. *)
Theorem ls_stays_inside (norecurse : bool) (scan scan' : sdb_bridge -> option (Z * sdb_table)) (fuel : nat)
    (user : bus_record) (chain : list bus_record) (sdb : sdb_table) (status : Z)
    (Ha : forall b, inside user b -> scan b = scan' b) :
  list_devices true norecurse scan fuel (user :: chain) sdb status = list_devices true norecurse scan' fuel (user :: chain) sdb status.
Proof.
  revert user chain sdb status Ha. induction fuel as [|fuel IH]; intros user chain sdb status Ha; [done|]. cbn [list_devices].
  destruct (negb (status =? EB_OK)); [done|]. destruct (print_id _) as [id|]; [|done].
  rewrite (list_table_window norecurse scan scan' (list_devices true norecurse scan fuel) (list_devices true norecurse scan' fuel)); [done| |].
  - intros b [H1 H2]. apply Ha. cbn in *. split; lia.
  - intros br chain' sdb' st' Hb. by apply IH.
Qed.

(** The limit of the addresses of the device's width. *)
Lemma address_limit_spec n : 0 < n <= 8 -> address_limit (n .<< 4) = 2 ^ (8 * n) - 1.
Proof.
  intros Hn. unfold address_limit. rewrite Z.shiftr_shiftl_l, Z.sub_diag, Z.shiftl_0_r by lia.
  assert (n = 1 \/ n = 2 \/ n = 3 \/ n = 4 \/ n = 5 \/ n = 6 \/ n = 7 \/ n = 8) as H by lia.
  by repeat (destruct H as [->|H]; [reflexivity|]); subst.
Qed.

(** ** Instances and what goes wrong *)

Definition no_name : list Z := repeat 32 19.
Definition comp_at (first last id : Z) : sdb_component := mk_component first last (mk_product 0x651 id 1 0x20140101 no_name 1).
Definition led_at (first : Z) : sdb_record := RDevice (mk_sdb_device 0 1 0 0 (comp_at first (first + 0xff) 0x35aa6b95)).
Definition bridge_at (first last child : Z) : sdb_bridge :=
  mk_sdb_bridge child (mk_component first last (mk_product 0x651 0xeef0b198 1 0x20140101 no_name sdb_record_bridge)).
Definition table_of (first last : Z) (l : list sdb_record) : sdb_table :=
  mk_sdb_table (mk_sdb_interconnect SDB_MAGIC (Z.of_nat (length l) + 1) 1 0 (comp_at first last 0)) l.

(** A bridge to a bus with a device, then a device. *)
Definition inner : sdb_table := table_of 0x1000 0x1fff [led_at 0x1100].
Definition outer : sdb_table := table_of 0 0xffff [RBridge (bridge_at 0x1000 0x1fff 0x1000); led_at 0x8000].
Definition scan_inner (b : sdb_bridge) : option (Z * sdb_table) := Some (EB_OK, inner).

Lemma ls_lists_tree_witness :
  eb_ls false false scan_inner 2 0x40 (EB_OK, Some (EB_OK, outer)) EB_OK EB_OK =
    (cstr "BusPath        VendorID         Product   BaseAddress(Hex)  Description" ++ newline ++
     cstr "1              0000000000000651:eef0b198              1000                     " ++ newline ++
     cstr "1.1            0000000000000651:35aa6b95              1100                     " ++ newline ++
     cstr "2              0000000000000651:35aa6b95              8000                     " ++ newline, inl 0).
Proof.
  refine (eq_trans (ls_lists_tree scan_inner 2 0x40
    (Node [(RBridge (bridge_at 0x1000 0x1fff 0x1000), Some (Node [(led_at 0x1100, None)])); (led_at 0x8000, None)]) outer _) _).
  - cbn [serves_tree kids]. split; [done|]. split; [done|]. repeat constructor. exists inner. repeat constructor.
  - vm_compute. reflexivity.
Defined.

(** A bridge that claims a range outside of the bus it is on. *)
Definition stray : sdb_table := table_of 0x1000 0x1fff [RBridge (bridge_at 0x2000 0x2fff 0x2000)].
Definition root_bus (width : Z) : bus_record := mk_bus_record (-1) 0 0 (address_limit width).
Definition stray_bus : bus_record := mk_bus_record 0 0 0x1000 0x1fff.

(** What answers only to bridges outside of that bus. *)
Definition scan_outside (b : sdb_bridge) : option (Z * sdb_table) := if 0x1fff <? addr_last (sb_comp b) then Some (EB_OK, inner) else None.

Lemma ls_stays_inside_witness :
  list_devices true false (fun _ => None) 2 [stray_bus; root_bus 0x40] stray EB_OK =
  list_devices true false scan_outside 2 [stray_bus; root_bus 0x40] stray EB_OK /\
  (list_devices true false scan_outside 2 [stray_bus; root_bus 0x40] stray EB_OK).2 = inl (mk_bus_record 0 1 0x1000 0x1fff).
Proof.
  split; [|vm_compute; reflexivity]. apply ls_stays_inside. intros b [H1 H2]. unfold scan_outside.
  cbn in H2. by rewrite (proj2 (Z.ltb_ge _ _) H2).
Defined.

(** Without [-v] such a bridge is followed. *)
Lemma ls_follows_stray : (list_devices false false scan_outside 2 [stray_bus; root_bus 0x40] stray EB_OK).2 = inl (mk_bus_record 0 1 0x1000 0x1fff) /\
  (list_devices false false (fun _ => None) 2 [stray_bus; root_bus 0x40] stray EB_OK).2 = inr Waits.
Proof. split; vm_compute; reflexivity. Qed.

(** When [eb_sdb_scan_bus] refuses a bridge the tool waits for a callback that never
    comes. *)
Lemma ls_waits_for_refused chain parent i b recurse scan verbose id :
  print_id (mk_bus_record i 0 0 0 :: chain) = Some id -> scan b = None -> bridge_bad b parent = false ->
  (list_record verbose false scan recurse chain parent i (RBridge b)).2 = inr Waits.
Proof.
  intros Hp Hs Hb. unfold list_record. rewrite Hp. cbn [known mret listing_ret mbind listing_bind put fst snd orb].
  by rewrite Hb, andb_false_r, Hs.
Qed.

(** A bridge that leads back to its own bus is followed for ever: no fuel is enough. *)
Lemma ls_follows_loop scan b last : scan b = Some (EB_OK, table_of 0 last [RBridge b]) ->
  forall fuel chain path, path_of chain path -> chain <> [] ->
  exists e, (list_devices false false scan fuel chain (table_of 0 last [RBridge b]) EB_OK).2 = inr e.
Proof.
  intros Hs. induction fuel as [|fuel IH]; intros chain path Hp Hne; [by exists Deep|]. destruct chain as [|user chain]; [done|].
  cbn [list_devices]. change (negb (EB_OK =? EB_OK)) with false. cbn iota. set (user' := mk_bus_record _ 1 _ _).
  assert (path_of (user' :: chain) path) as Hp' by exact Hp.
  set (br := mk_bus_record 0 0 (addr_first (sb_comp b)) (addr_last (sb_comp b))).
  destruct (IH (br :: user' :: chain) (0 :: path)) as [e He]; [by apply (path_of_cons br)|done|]. exists e.
  assert (print_id (mk_bus_record 0 0 0 0 :: user' :: chain) = Some (dotted (0 :: path))) as Hid.
  { apply print_id_dotted; [done| |exact (f_equal (cons 0) (proj1 Hp'))]. apply Forall_cons. split; [done|].
    eapply Forall_impl; [exact (proj2 Hp')|]. cbn. intros. lia. }
  change (Z.to_nat (sdb_records (interconnect (table_of 0 last [RBridge b])) - 1)) with 1%nat.
  cbn [list_table]. change (records (table_of 0 last [RBridge b]) !! Z.to_nat 0) with (Some (RBridge b)).
  unfold list_record. rewrite Hid. cbn [known mret listing_ret mbind listing_bind put fst snd orb andb]. rewrite Hs. fold br.
  destruct (list_devices false false scan fuel (br :: user' :: chain) (table_of 0 last [RBridge b]) EB_OK) as [t r]. cbn [snd] in He. by subst r.
Qed.

(** The range of a bridge that ends below 64 is no bound for its child: the
    subtraction wraps around. *)
Lemma child_bound_wraps b : 0 <= addr_first (sb_comp b) <= sdb_child b -> addr_last (sb_comp b) < 64 -> 0 <= addr_last (sb_comp b) ->
  sdb_child b < 2 ^ 63 -> child_outside b = false.
Proof.
  intros Hf Hl H0 Hc. unfold child_outside. rewrite (proj2 (Z.ltb_ge _ _)) by lia. cbn [orb]. apply Z.ltb_ge.
  assert (addr_last (sb_comp b) - 64 = (addr_last (sb_comp b) - 64 + 2 ^ 64) + (-1) * 2 ^ 64) as -> by lia.
  unfold wrap. rewrite Z_mod_plus_full, Z.mod_small by lia. lia.
Qed.

(** ** eb-find *)

Lemma found_lookup matches i : (i < length matches)%nat -> (length matches <= MAX_DEVICES)%nat ->
  found_devices matches !! i = Some <$> matches !! i.
Proof.
  intros Hi Hn. unfold found_devices. rewrite lookup_app_l by (rewrite length_take, length_map; lia).
  rewrite lookup_take_lt by lia. apply list_lookup_fmap.
Qed.

Definition address_line (d : sdb_device) : list Z := cstr "0x" ++ hex (addr_first (sdb_comp d)) ++ newline.

Lemma find_lines_found matches n i : (i + n <= length matches)%nat -> (length matches <= MAX_DEVICES)%nat ->
  find_lines (found_devices matches) n i = Some (concat (map address_line (take n (drop i matches)))).
Proof.
  revert i. induction n as [|n IH]; intros i Hi Hn; [done|]. cbn [find_lines]. unfold find_line. rewrite found_lookup by lia.
  destruct (lookup_lt_is_Some_2 matches i) as [d Hd]; [lia|]. rewrite Hd. cbn [fmap option_fmap option_map mjoin option_join mbind option_bind].
  rewrite IH by lia. cbn [mbind option_bind]. by rewrite (drop_S matches d i Hd).
Qed.

(** Every device that was found has its line, in the order of the search; with an index
    there is the line of that device, counted from zero. *)
Lemma find_prints matches index : (0 < length matches <= MAX_DEVICES)%nat -> -1 <= index < Z.of_nat (length matches) ->
  eb_find matches index =
    Some (0, if index =? -1 then concat (map address_line matches) else from_option address_line [] (matches !! Z.to_nat index)).
Proof.
  intros Hn Hi. unfold eb_find. rewrite (proj2 (Nat.eqb_neq _ _)), (proj2 (Nat.ltb_ge _ _)), (proj2 (Z.ltb_ge _ _)) by lia.
  destruct (Z.eqb_spec index (-1)) as [_|Hne].
  - rewrite find_lines_found by lia. by rewrite drop_0, take_ge.
  - unfold find_line. rewrite found_lookup by lia. destruct (lookup_lt_is_Some_2 matches (Z.to_nat index)) as [d ->]; [lia|]. done.
Qed.

(** The test of the index lets the number of the devices through: what is printed was
    never written, or lies behind the array. *)
Lemma find_one_past matches : (0 < length matches <= MAX_DEVICES)%nat -> eb_find matches (Z.of_nat (length matches)) = None.
Proof.
  intros Hn. unfold eb_find. rewrite (proj2 (Nat.eqb_neq _ _)), (proj2 (Nat.ltb_ge _ _)), Z.ltb_irrefl by lia.
  rewrite (proj2 (Z.eqb_neq _ _)) by lia. unfold find_line, found_devices. rewrite Nat2Z.id, take_ge by (rewrite length_map; lia).
  rewrite lookup_app_r, length_map, Nat.sub_diag by (rewrite length_map; lia).
  destruct (MAX_DEVICES - length matches)%nat; done.
Qed.

(** ** eb-discover *)

(** A datagram that does not start with the magic number prints nothing; the widths of
    one that does are the text the library has for them. *)
Lemma discover_magic family6 name datagram : check_datagram family6 name datagram <> [] -> exists b2 b3 rest,
  datagram = 0x4E :: 0x6F :: b2 :: b3 :: rest /\ (4 <= length rest)%nat.
Proof.
  unfold check_datagram. destruct (Nat.eqb_spec (length (take 8 datagram)) 8) as [Hl|]; [|done]. cbn [negb].
  destruct datagram as [|b0 [|b1 [|b2 [|b3 rest]]]]; try (cbn in Hl; lia). cbn [take nth].
  destruct (Z.eqb_spec b0 0x4E) as [->|]; [|done]. destruct (Z.eqb_spec b1 0x6F) as [->|]; [|done]. intros _.
  exists b2, b3, rest. split; [done|]. cbn [take length] in Hl. rewrite length_take in Hl. lia.
Qed.

Lemma discover_widths b : is_byte b ->
  (str_at width_str (b .& EB_DATAX), str_at width_str (b .>> 4)) = (eb_width_data b, eb_width_address b).
Proof.
  intros Hb. unfold eb_width_data, eb_width_address. f_equal. f_equal. apply Z.eqb_eq. revert b Hb.
  apply (byte_forall (fun b => (b .>> 4) =? ((b .& EB_ADDRX) .>> 4))). vm_compute. reflexivity.
Qed.

(** The packet is the probe of file Session for any width; what a library answers to it
    there is printed with the version of the protocol and the widths of its socket. *)
Lemma discover_finds_library widths host port : is_byte widths ->
  discover = probe_request 0xFF 0 /\
  check_datagram false (Some (host, port)) (probe_response widths 0) =
    (let id := cstr "udp4/" ++ host ++ cstr "/" ++ port in id ++ repeat 32 (33 - length id)) ++
    cstr " V.1; data=" ++ cstr (eb_width_data widths) ++ cstr "-bit addr=" ++ cstr (eb_width_address widths) ++ cstr "-bit" ++ newline.
Proof.
  intros Hw. split; [vm_compute; reflexivity|]. pose proof (f_equal snd (discover_widths widths Hw)) as Ea. cbn [snd] in Ea.
  unfold check_datagram, probe_response. change (take 8 ([0x4E; 0x6F; 0x16; widths] ++ be_bytes 4 0)) with [0x4E; 0x6F; 0x16; widths; 0; 0; 0; 0].
  cbn [length Nat.eqb negb nth]. change (negb (0x4E =? 0x4E) || negb (0x6F =? 0x6F)) with false. cbn iota. rewrite Ea. fold (eb_width_data widths).
  change (cstr "udp" ++ dec 4 ++ cstr "/" ++ host ++ cstr "/" ++ port) with (cstr "udp4/" ++ host ++ cstr "/" ++ port).
  change (dec (0x16 .>> 4)) with (cstr "1"). cbv zeta. rewrite <- !app_assoc. reflexivity.
Qed.
