(* ===== verification/LabView.v ===== *)
(** The LabVIEW binding: [src/api/labview/lvEtherbone.c]. It gives out numbers for the
    sockets, the remote devices and the handlers it keeps in three arrays, serves the
    memory of its handlers to the bus, and runs cycles for its caller.

    It is written for an earlier interface of the library, so that the library is the
    class [EtherboneApi]. The callbacks that a call of the library makes are part of its
    result. The binding runs on machines of low byte order. *)
From stdpp Require Import base list.
From Stdlib Require Import ZArith Lia.
From S2P Require Import Prelude Widths.

(** * lvEtherbone.h, lvEtherboneBasics.h *)

Definition LVEB_OK : Z := 0.
Definition LVEB_OS : Z := 2.
Definition LVEB_PORT : Z := 3.
Definition LVEB_ID : Z := 4.
Definition LVEB_SOCKET : Z := 5.
Definition LVEB_EB : Z := 6.
Definition LVEB_IP : Z := 7.
Definition LVEB_PORTWIDTH : Z := 8.
Definition LVEB_DEVICEBUSY : Z := 9.
Definition LVEB_DEVICEEXIST : Z := 11.
Definition LVEB_OVERFLOW : Z := 13.
Definition LVEB_ADDRESS : Z := 14.
Definition LVEB_ADDRESSWITDH : Z := 15.

Definition EBACT_UNKNOWN : Z := 0.
Definition EBACT_TIMEDOUT : Z := 1.
Definition EBACT_READ : Z := 2.
Definition EBACT_WRITE : Z := 3.
Definition EBACT_RW : Z := 4.

Definition MAXSOCKETS : nat := 100.
Definition MAXHANDLER : nat := 100.
Definition MAXDEVICES : nat := 1000.

Record mySocketT := mk_lvsocket { ls_id : Z; ls_socket : Z; ls_nRead : Z; ls_nWrite : Z; ls_activity : Z }.
Record myDeviceT := mk_lvdevice { ld_id : Z; ld_socketID : Z; ld_device : Z }.
(** [lh_map] is [None] for a null pointer; the members of [handler] that the library
    reads are passed to it when it is attached. *)
Record myHandlerT := mk_lvhandler { lh_id : Z; lh_socketID : Z; lh_lock : Z; lh_map : option (list Z); lh_base : Z; lh_mask : Z }.
Record myUserDataT := mk_lvuser { ud_done : Z; ud_status : Z; ud_data : list Z }.

(** What the library calls: handlers for accesses of the bus, the callback of the cycle
    that is under way. [data] is what [data] points to. *)
Inductive upcall :=
  | ReadCall (user : nat) (address width : Z)
  | WriteCall (user : nat) (address width data : Z)
  | CycleCall (status : Z) (data : list Z).

Class EtherboneApi (L : Type) := {
  api_socket_open : Z -> Z -> L -> Z * Z * L;
  api_socket_close : Z -> L -> Z * L;
  api_socket_block : Z -> Z -> L -> Z * L;
  api_socket_poll : Z -> L -> list upcall * L;
  api_socket_attach : Z -> nat -> Z -> Z -> L -> Z * L;
  api_socket_detach : Z -> Z -> L -> Z * L;
  api_device_open : Z -> list Z -> Z -> Z -> Z -> L -> Z * Z * L;
  api_device_close : Z -> L -> Z * L;
  api_device_width : Z -> L -> Z;
  api_device_flush : Z -> L -> list upcall * L;
  api_cycle_open : Z -> bool -> Z -> Z -> L -> Z * L;
  api_cycle_read : Z -> Z -> L -> L;
  api_cycle_write : Z -> Z -> L -> L;
  api_cycle_close : Z -> L -> L;
  (** [malloc]: what the block holds *)
  api_malloc : Z -> L -> option (list Z) * L }.

Section binding.
Context {L : Type} `{EtherboneApi L}.

(** The global variables. *)
Record lvstate := mk_lvstate {
  lv_sockets : list mySocketT; lv_devices : list myDeviceT; lv_handlers : list myHandlerT;
  lastSocketCreated : Z; lastDeviceCreated : Z; lastHandlerCreated : Z; libInitialized : bool; lv_lib : L }.

Definition put_sockets (l : list mySocketT) (b : lvstate) : lvstate :=
  mk_lvstate l (lv_devices b) (lv_handlers b) (lastSocketCreated b) (lastDeviceCreated b) (lastHandlerCreated b) (libInitialized b) (lv_lib b).
Definition put_devices (l : list myDeviceT) (b : lvstate) : lvstate :=
  mk_lvstate (lv_sockets b) l (lv_handlers b) (lastSocketCreated b) (lastDeviceCreated b) (lastHandlerCreated b) (libInitialized b) (lv_lib b).
Definition put_handlers (l : list myHandlerT) (b : lvstate) : lvstate :=
  mk_lvstate (lv_sockets b) (lv_devices b) l (lastSocketCreated b) (lastDeviceCreated b) (lastHandlerCreated b) (libInitialized b) (lv_lib b).
Definition put_last_socket (k : Z) (b : lvstate) : lvstate :=
  mk_lvstate (lv_sockets b) (lv_devices b) (lv_handlers b) k (lastDeviceCreated b) (lastHandlerCreated b) (libInitialized b) (lv_lib b).
Definition put_last_device (k : Z) (b : lvstate) : lvstate :=
  mk_lvstate (lv_sockets b) (lv_devices b) (lv_handlers b) (lastSocketCreated b) k (lastHandlerCreated b) (libInitialized b) (lv_lib b).
Definition put_last_handler (k : Z) (b : lvstate) : lvstate :=
  mk_lvstate (lv_sockets b) (lv_devices b) (lv_handlers b) (lastSocketCreated b) (lastDeviceCreated b) k (libInitialized b) (lv_lib b).
Definition put_initialised (i : bool) (b : lvstate) : lvstate :=
  mk_lvstate (lv_sockets b) (lv_devices b) (lv_handlers b) (lastSocketCreated b) (lastDeviceCreated b) (lastHandlerCreated b) i (lv_lib b).
Definition put_lib (l : L) (b : lvstate) : lvstate :=
  mk_lvstate (lv_sockets b) (lv_devices b) (lv_handlers b) (lastSocketCreated b) (lastDeviceCreated b) (lastHandlerCreated b) (libInitialized b) l.

(** * Numbers *)

(** The loop each of the three functions has over its array: from the element after the
    last one created to the end, then once from the start; a read behind the array is
    undefined. *)
Fixpoint slot_loop (fuel : nat) (ids : list Z) (max : nat) (i : nat) (restartSearch : bool) : option nat :=
  match fuel with
  | O => None
  | S fuel =>
    let i := S i in
    let '(i, restartSearch) := if (i =? max)%nat && restartSearch then (O, false) else (i, restartSearch) in
    id ← ids !! i;
    if id =? -1 then Some i else slot_loop fuel ids max i restartSearch
  end.

Definition find_slot (ids : list Z) (max : nat) (last : Z) : option nat :=
  let i := if (last <? 0) || (Z.of_nat max <=? last) then O else Z.to_nat last in
  slot_loop (2 * max) ids max i true.

Definition socket_ids (b : lvstate) : list Z := map ls_id (lv_sockets b).
Definition device_ids (b : lvstate) : list Z := map ld_id (lv_devices b).
Definition handler_ids (b : lvstate) : list Z := map lh_id (lv_handlers b).

(** The test of a number a function was given: the element with that number holds it. *)
Definition numbered {A} (id_of : A -> Z) (l : list A) (max : nat) (id : Z) : option A :=
  if (id <? 0) || (Z.of_nat max <=? id) then None
  else x ← l !! Z.to_nat id; if id_of x =? id then Some x else None.
Definition the_socket (id : Z) (b : lvstate) : option mySocketT := numbered ls_id (lv_sockets b) MAXSOCKETS id.
Definition the_device (id : Z) (b : lvstate) : option myDeviceT := numbered ld_id (lv_devices b) MAXDEVICES id.
Definition the_handler (id : Z) (b : lvstate) : option myHandlerT := numbered lh_id (lv_handlers b) MAXHANDLER id.

(** * Handlers *)

Definition map_read (m : option (list Z)) (offset size : Z) : option (list Z) :=
  m ← m; if offset + size <=? Z.of_nat (length m) then Some (slice m (Z.to_nat offset) (Z.to_nat size)) else None.
Definition map_write (m : option (list Z)) (offset : Z) (bytes : list Z) : option (list Z) :=
  m ← m; if offset + Z.of_nat (length bytes) <=? Z.of_nat (length m) then Some (splice m (Z.to_nat offset) bytes) else None.

Definition set_lock (v : Z) (h : myHandlerT) : myHandlerT :=
  mk_lvhandler (lh_id h) (lh_socketID h) v (lh_map h) (lh_base h) (lh_mask h).
Definition set_map (m : list Z) (h : myHandlerT) : myHandlerT :=
  mk_lvhandler (lh_id h) (lh_socketID h) (lh_lock h) (Some m) (lh_base h) (lh_mask h).
Definition put_handler (k : nat) (h : myHandlerT) (b : lvstate) : lvstate := put_handlers (<[k := h]> (lv_handlers b)) b.

(** [offset < 0] is never true of an unsigned number. *)
Definition outside_map (h : myHandlerT) (offset size : Z) : bool := lh_mask h <? u64 (offset + size).

Definition count_read (s : mySocketT) : mySocketT := mk_lvsocket (ls_id s) (ls_socket s) (ls_nRead s + 1) (ls_nWrite s) (ls_activity s).
Definition count_write (s : mySocketT) : mySocketT := mk_lvsocket (ls_id s) (ls_socket s) (ls_nRead s) (ls_nWrite s + 1) (ls_activity s).
Definition count_on (f : mySocketT -> mySocketT) (id : Z) (b : lvstate) : option lvstate :=
  if id <? 0 then None
  else s ← lv_sockets b !! Z.to_nat id; Some (put_sockets (<[Z.to_nat id := f s]> (lv_sockets b)) b).

(** The low bytes of [tmp] become those of the memory, the others stay those of the
    address. *)
Definition overlay (tmp : Z) (bytes : list Z) : Z :=
  let n := 8 * Z.of_nat (length bytes) in ((tmp .>> n) .<< n) .| be_val (rev bytes).

Definition cb_device_read (x : nat) (address width : Z) (b : lvstate) : option (Z * lvstate) :=
  h ← lv_handlers b !! x;
  if negb (lh_lock h =? 0) then Some (address, b)
  else
    let b := put_handler x (set_lock 1 h) b in
    if lh_id h <? 0 then Some (address, b)
    else
      let offset := u64 (address - lh_base h) in
      if (8 <? width) || outside_map h offset width then Some (address, put_handler x (set_lock 0 h) b)
      else
        bytes ← map_read (lh_map h) offset width;
        b ← count_on count_read (lh_socketID h) b;
        Some (overlay address bytes, put_handler x (set_lock 0 h) b).

Definition cb_device_write (x : nat) (address width data : Z) (b : lvstate) : option lvstate :=
  h ← lv_handlers b !! x;
  if negb (lh_lock h =? 0) then Some b
  else
    let b := put_handler x (set_lock 1 h) b in
    if lh_id h <? 0 then Some b
    else
      let offset := u64 (address - lh_base h) in
      if (8 <? width) || outside_map h offset width then Some (put_handler x (set_lock 0 h) b)
      else
        m ← map_write (lh_map h) offset (rev (be_bytes (Z.to_nat width) data));
        b ← count_on count_write (lh_socketID h) b;
        Some (put_handler x (set_lock 0 (set_map m h)) b).

(** What the library calls while it is polled or flushed. [user] is the data of the
    cycle that is under way, its size the number of bytes it expects; a cycle without
    reads has [cb_client_write], which has no data to copy. Without a cycle under way
    ([None]) its data is gone and the call is undefined. *)
Definition cb_client_read (status : Z) (data : list Z) (x : myUserDataT) : option myUserDataT :=
  if status =? EB_OK then
    if (length (ud_data x) <=? length data)%nat then Some (mk_lvuser 1 status (take (length (ud_data x)) data)) else None
  else Some (mk_lvuser 1 status (ud_data x)).
Definition cb_client_write (status : Z) (x : myUserDataT) : myUserDataT := mk_lvuser (ud_done x) status (ud_data x).

Definition run_upcall (reads : bool) (c : upcall) (ub : option myUserDataT * lvstate) : option (option myUserDataT * lvstate) :=
  let '(user, b) := ub in
  match c with
  | ReadCall x address width => '(_, b) ← cb_device_read x address width b; Some (user, b)
  | WriteCall x address width data => b ← cb_device_write x address width data b; Some (user, b)
  | CycleCall status data =>
    x ← user;
    if reads then x ← cb_client_read status data x; Some (Some x, b) else Some (Some (cb_client_write status x), b)
  end.

Fixpoint run_upcalls (reads : bool) (l : list upcall) (ub : option myUserDataT * lvstate) : option (option myUserDataT * lvstate) :=
  match l with
  | [] => Some ub
  | c :: l => ub ← run_upcall reads c ub; run_upcalls reads l ub
  end.

Definition poll (reads : bool) (socket : Z) (ub : option myUserDataT * lvstate) : option (option myUserDataT * lvstate) :=
  let '(calls, l) := api_socket_poll socket (lv_lib ub.2) in run_upcalls reads calls (ub.1, put_lib l ub.2).

(** * Sockets *)

Definition lveb_socket_open (port flags : Z) (b : lvstate) : option (Z * Z * lvstate) :=
  k ← find_slot (socket_ids b) MAXSOCKETS (lastSocketCreated b);
  let b := put_last_socket (Z.of_nat k) b in
  let '(myStatus, mySocket, l) := api_socket_open port flags (lv_lib b) in
  let b := put_lib l b in
  if myStatus =? EB_FAIL then Some (LVEB_OS, -1, b)
  else if myStatus =? EB_BUSY then Some (LVEB_PORT, -1, b)
  else
    s ← lv_sockets b !! k;
    Some (LVEB_OK, Z.of_nat k,
      put_sockets (<[k := mk_lvsocket (Z.of_nat k) mySocket (ls_nRead s) (ls_nWrite s) EBACT_UNKNOWN]> (lv_sockets b)) b).

Definition lveb_socket_close (eb_socketID : Z) (b : lvstate) : Z * lvstate :=
  match the_socket eb_socketID b with
  | None => (LVEB_ID, b)
  | Some s =>
    let '(myStatus, l) := api_socket_close (ls_socket s) (lv_lib b) in
    let b := put_lib l b in
    if negb (myStatus =? EB_OK) then (LVEB_SOCKET, b)
    else
      (LVEB_OK, put_last_socket (eb_socketID - 1)
        (put_sockets (<[Z.to_nat eb_socketID := mk_lvsocket (-1) (ls_socket s) (ls_nRead s) (ls_nWrite s) (ls_activity s)]> (lv_sockets b)) b))
  end.

(** The status, the last activity, the numbers of reads and writes. *)
Definition lveb_socket_wait4Activity (eb_socketID timeout : Z) (b : lvstate) : option (Z * (Z * Z * Z) * lvstate) :=
  match the_socket eb_socketID b with
  | None => Some (LVEB_ID, (0, 0, 0), b)
  | Some s =>
    let usTimeout := timeout * 1000 in
    let '(elapsedTime, l) := api_socket_block (ls_socket s) usTimeout (lv_lib b) in
    '(_, b) ← poll false (ls_socket s) (None, put_lib l b);
    s ← lv_sockets b !! Z.to_nat eb_socketID;
    let nRead := ls_nRead s in
    let nWrite := ls_nWrite s in
    let lastActivity :=
      if usTimeout =? elapsedTime then EBACT_TIMEDOUT
      else if negb (nRead =? 0) && negb (nWrite =? 0) then EBACT_RW
      else if negb (nRead =? 0) && (nWrite =? 0) then EBACT_READ
      else if (nRead =? 0) && negb (nWrite =? 0) then EBACT_WRITE
      else ls_activity s in
    Some (LVEB_OK, (lastActivity, nRead, nWrite),
      put_sockets (<[Z.to_nat eb_socketID := mk_lvsocket (ls_id s) (ls_socket s) 0 0 EBACT_UNKNOWN]> (lv_sockets b)) b)
  end.

(** * Handlers for LabVIEW *)

Definition lveb_handler_attach (eb_socketID baseAddress maskAddress : Z) (b : lvstate) : option (Z * Z * lvstate) :=
  match the_socket eb_socketID b with
  | None => Some (LVEB_ID, -1, b)
  | Some s =>
    if baseAddress <? 0x8000 then Some (LVEB_ADDRESS, -1, b)
    else
      k ← find_slot (handler_ids b) MAXHANDLER (lastHandlerCreated b);
      let b := put_last_handler (Z.of_nat k) b in
      h ← lv_handlers b !! k;
      let b := put_handler k (mk_lvhandler (lh_id h) (lh_socketID h) 1 (lh_map h) baseAddress maskAddress) b in
      let '(myStatus, l) := api_socket_attach (ls_socket s) k baseAddress maskAddress (lv_lib b) in
      let b := put_lib l b in
      if myStatus =? EB_FAIL then Some (LVEB_EB, -1, b)
      else if myStatus =? EB_ADDRESS then Some (LVEB_DEVICEEXIST, -1, b)
      else
        let '(m, l) := api_malloc maskAddress (lv_lib b) in
        Some (LVEB_OK, Z.of_nat k,
          put_handler k (mk_lvhandler (Z.of_nat k) eb_socketID 0 m baseAddress maskAddress) (put_lib l b))
  end.

(** The socket of a handler is used without a check of its number. *)
Definition lveb_handler_detach (eb_handlerID : Z) (b : lvstate) : option (Z * lvstate) :=
  match the_handler eb_handlerID b with
  | None => Some (LVEB_ID, b)
  | Some h =>
    s ← (if lh_socketID h <? 0 then None else lv_sockets b !! Z.to_nat (lh_socketID h));
    let '(myStatus, l) := api_socket_detach (ls_socket s) (lh_base h) (lv_lib b) in
    let b := put_last_handler (eb_handlerID - 1)
      (put_handler (Z.to_nat eb_handlerID) (mk_lvhandler (-1) (-1) 1 None 0 0) (put_lib l b)) in
    Some (if myStatus =? EB_OK then LVEB_OK else LVEB_DEVICEEXIST, b)
  end.

(** [size] is an [int]; it is added to an unsigned number and handed to [memcpy]. *)
Definition lveb_handler_getMap (eb_handlerID address size : Z) (b : lvstate) : option (Z * list Z) :=
  match the_handler eb_handlerID b with
  | None => Some (LVEB_ID, [])
  | Some h =>
    let offset := u64 (address - lh_base h) in
    if outside_map h offset size then Some (LVEB_ADDRESS, [])
    else data ← map_read (lh_map h) offset (u64 size); Some (LVEB_OK, data)
  end.

(** [data] has [size] bytes. *)
Definition lveb_handler_setMap (eb_handlerID address : Z) (data : list Z) (b : lvstate) : option (Z * lvstate) :=
  match the_handler eb_handlerID b with
  | None => Some (LVEB_ID, b)
  | Some h =>
    let offset := u64 (address - lh_base h) in
    if outside_map h offset (Z.of_nat (length data)) then Some (LVEB_ADDRESS, b)
    else m ← map_write (lh_map h) offset data; Some (LVEB_OK, put_handler (Z.to_nat eb_handlerID) (set_map m h) b)
  end.

(** * Devices *)

(** [(int)ceil(timeout/3000.0)] *)
Definition attempts_of (timeout : Z) : Z := - (- timeout / 3000).

Definition lveb_device_open (eb_socketID : Z) (ip_port : list Z) (addr_widths port_widths timeout : Z) (b : lvstate) : option (Z * Z * lvstate) :=
  match the_socket eb_socketID b with
  | None => Some (LVEB_ID, -1, b)
  | Some s =>
    k ← find_slot (device_ids b) MAXDEVICES (lastDeviceCreated b);
    let b := put_last_device (Z.of_nat k) b in
    let '(myStatus, device, l) := api_device_open (ls_socket s) ip_port addr_widths port_widths (attempts_of timeout) (lv_lib b) in
    d ← lv_devices b !! k;
    let b := put_lib l (put_devices (<[k := mk_lvdevice (ld_id d) (ld_socketID d) device]> (lv_devices b)) b) in
    if myStatus =? EB_ADDRESS then Some (LVEB_IP, -1, b)
    else if myStatus =? EB_FAIL then Some (LVEB_EB, -1, b)
    else if myStatus =? EB_WIDTH then Some (LVEB_PORT, -1, b)
    else Some (LVEB_OK, Z.of_nat k, put_devices (<[k := mk_lvdevice (Z.of_nat k) eb_socketID device]> (lv_devices b)) b)
  end.

Definition lveb_device_close (eb_deviceID : Z) (b : lvstate) : Z * lvstate :=
  match the_device eb_deviceID b with
  | None => (LVEB_ID, b)
  | Some d =>
    let '(myStatus, l) := api_device_close (ld_device d) (lv_lib b) in
    let b := put_lib l b in
    if negb (myStatus =? EB_OK) then (LVEB_DEVICEBUSY, b)
    else (LVEB_OK, put_last_device (eb_deviceID - 1) (put_devices (<[Z.to_nat eb_deviceID := mk_lvdevice (-1) (-1) (ld_device d)]> (lv_devices b)) b))
  end.

Definition lveb_device_width (eb_deviceID : Z) (b : lvstate) : Z * option Z :=
  match the_device eb_deviceID b with
  | None => (LVEB_ID, None)
  | Some d => (LVEB_OK, Some (api_device_width (ld_device d) (lv_lib b)))
  end.

Definition flush_device (reads : bool) (eb_deviceID : Z) (ub : option myUserDataT * lvstate) : option (Z * (option myUserDataT * lvstate)) :=
  match the_device eb_deviceID ub.2 with
  | None => Some (LVEB_ID, ub)
  | Some d =>
    let '(calls, l) := api_device_flush (ld_device d) (lv_lib ub.2) in
    ub ← run_upcalls reads calls (ub.1, put_lib l ub.2); Some (LVEB_OK, ub)
  end.

(** A caller's flush has no cycle under way that still has its data. *)
Definition lveb_device_flush (eb_deviceID : Z) (b : lvstate) : option (Z * lvstate) :=
  '(st, ub) ← flush_device false eb_deviceID (None, b); Some (st, ub.2).

(** ** A cycle *)

(** The addresses are 8 or 0 apart: [modeR] is 1 or 0. *)
Fixpoint cycle_reads (cycle addressR modeR : Z) (n : nat) (i : Z) (l : L) : L :=
  match n with
  | O => l
  | S n => cycle_reads cycle addressR modeR n (i + 1) (api_cycle_read cycle (u64 (addressR + i * 8 * modeR)) l)
  end.
Fixpoint cycle_writes (cycle : Z) (dataW : list Z) (l : L) : L :=
  match dataW with
  | [] => l
  | v :: dataW => cycle_writes cycle dataW (api_cycle_write cycle v l)
  end.

(** [while (!myUserData.done && myTimeout > 0)] *)
Fixpoint wait_done (fuel : nat) (socketID : nat) (myTimeout : Z) (x : myUserDataT) (b : lvstate) : option (myUserDataT * lvstate) :=
  if negb (ud_done x =? 0) || (myTimeout <=? 0) then Some (x, b)
  else
    match fuel with
    | O => None
    | S fuel =>
      s ← lv_sockets b !! socketID;
      let '(elapsed, l) := api_socket_block (ls_socket s) myTimeout (lv_lib b) in
      '(x, b) ← poll true (ls_socket s) (Some x, put_lib l b);
      x ← x; wait_done fuel socketID (myTimeout - elapsed) x b
    end.

Definition lveb_status_of (status : Z) : Z :=
  if status =? EB_OK then LVEB_OK else if status =? EB_ADDRESS then LVEB_ADDRESSWITDH
  else if status =? EB_WIDTH then LVEB_PORTWIDTH else LVEB_OVERFLOW.

(** The status and, for [nR > 0], the bytes of [dataR]. *)
Definition lveb_device_read_write (fuel : nat) (eb_deviceID addressR modeR nR addressW modeW : Z) (dataW : list Z) (timeout : Z) (b : lvstate)
    : option (Z * list Z * lvstate) :=
  match the_device eb_deviceID b with
  | None => Some (LVEB_ID, [], b)
  | Some d =>
    let reads := 0 <? nR in
    let '(m, l) := if reads then api_malloc (nR * 8) (lv_lib b) else (Some [], lv_lib b) in
    data ← m;
    let '(cycle, l) := api_cycle_open (ld_device d) reads addressW modeW l in
    let l := cycle_reads cycle addressR modeR (Z.to_nat nR) 0 l in
    let l := cycle_writes cycle dataW l in
    let b := put_lib (api_cycle_close cycle l) b in
    '(_, (x, b)) ← flush_device reads eb_deviceID (Some (mk_lvuser 0 EB_OK data), b);
    x ← x;
    '(x, b) ← (if reads then wait_done fuel (Z.to_nat (ld_socketID d)) (timeout * 1000) x b else Some (x, b));
    Some (lveb_status_of (ud_status x), ud_data x, b)
  end.

(** * The library *)

Definition block_first {A} (f : A -> A) (l : list A) : list A := match l with [] => [] | x :: l => f x :: l end.
Definition no_number_socket (s : mySocketT) : mySocketT := mk_lvsocket (-1) (ls_socket s) (ls_nRead s) (ls_nWrite s) (ls_activity s).
Definition no_number_device (d : myDeviceT) : myDeviceT := mk_lvdevice (-1) (ld_socketID d) (ld_device d).
Definition no_number_handler (h : myHandlerT) : myHandlerT := mk_lvhandler (-1) (lh_socketID h) (lh_lock h) (lh_map h) (lh_base h) (lh_mask h).

Definition initMyLib (b : lvstate) : lvstate :=
  if libInitialized b then b
  else
    put_initialised true
      (put_sockets (block_first (fun s => mk_lvsocket 1 (ls_socket s) (ls_nRead s) (ls_nWrite s) (ls_activity s)) (map no_number_socket (lv_sockets b)))
      (put_devices (block_first (fun d => mk_lvdevice 1 (ld_socketID d) (ld_device d)) (map no_number_device (lv_devices b)))
      (put_handlers (block_first (fun h => mk_lvhandler 1 (lh_socketID h) (lh_lock h) (lh_map h) (lh_base h) (lh_mask h))
        (map no_number_handler (lv_handlers b))) b))).

(** [for (i=0;i<max;i++) if (array[i].id != -1) close(i);] *)
Fixpoint close_all (ids : lvstate -> list Z) (close : Z -> lvstate -> option lvstate) (n : nat) (i : nat) (b : lvstate) : option lvstate :=
  match n with
  | O => Some b
  | S n =>
    id ← ids b !! i;
    b ← (if id =? -1 then Some b else close (Z.of_nat i) b);
    close_all ids close n (S i) b
  end.

Definition deinitMyLib (b : lvstate) : option lvstate :=
  if libInitialized b then
    b ← close_all handler_ids (fun i b => '(_, b) ← lveb_handler_detach i b; Some b) MAXHANDLER 0 b;
    b ← close_all device_ids (fun i b => Some (lveb_device_close i b).2) MAXDEVICES 0 b;
    b ← close_all socket_ids (fun i b => Some (lveb_socket_close i b).2) MAXSOCKETS 0 b;
    Some (put_initialised false b)
  else Some b.
End binding.

(** * Numbers are given out once *)

(** Element 0 is blocked; any other is free or holds its own number. *)
Record numbers_ok (max : nat) (ids : list Z) : Prop := {
  no_length : length ids = max;
  no_first : ids !! O = Some 1;
  no_other : forall k v, (0 < k)%nat -> ids !! k = Some v -> v = -1 \/ v = Z.of_nat k }.

Definition given (ids : list Z) (k : nat) : bool := bool_decide (ids !! k = Some (Z.of_nat k)).

Lemma slot_loop_last ids max fuel i : (max - i <= fuel)%nat -> length ids = max ->
  match slot_loop fuel ids max i false with
  | Some k => (i < k < max)%nat /\ ids !! k = Some (-1)
  | None => forall k, (i < k < max)%nat -> ids !! k <> Some (-1)
  end.
Proof.
  intros Hf Hl. revert i Hf. induction fuel as [|fuel IH]; intros i Hf; cbn [slot_loop]; [intros k ?; lia|].
  rewrite andb_false_r. destruct (ids !! S i) as [id|] eqn:E; cbn [mbind option_bind].
  - apply lookup_lt_Some in E as Hi. destruct (Z.eqb_spec id (-1)) as [->|Hne]; [split; [lia|done]|].
    specialize (IH (S i) ltac:(lia)). destruct (slot_loop fuel ids max (S i) false) as [k|]; [split; [lia|tauto]|].
    intros k Hk. destruct (Nat.eq_dec k (S i)) as [->|]; [congruence|apply IH; lia].
  - apply lookup_ge_None in E. intros k ?. lia.
Qed.

Lemma slot_loop_first ids max fuel i : (i < max)%nat -> (2 * max - i <= fuel)%nat -> length ids = max -> ids !! O <> Some (-1) ->
  match slot_loop fuel ids max i true with
  | Some k => (0 < k < max)%nat /\ ids !! k = Some (-1)
  | None => forall k, (0 < k < max)%nat -> ids !! k <> Some (-1)
  end.
Proof.
  intros Hi Hf Hl H0. revert i Hi Hf. induction fuel as [|fuel IH]; intros i Hi Hf; [lia|]. cbn [slot_loop].
  rewrite andb_true_r. destruct (Nat.eqb_spec (S i) max) as [Em|Em].
  - destruct (lookup_lt_is_Some_2 ids 0) as [id Hid]; [lia|]. rewrite Hid. cbn [mbind option_bind].
    rewrite (proj2 (Z.eqb_neq id (-1))) by congruence. apply (slot_loop_last ids max fuel 0); [lia|done].
  - destruct (lookup_lt_is_Some_2 ids (S i)) as [id Hid]; [lia|]. rewrite Hid. cbn [mbind option_bind].
    destruct (Z.eqb_spec id (-1)) as [->|Hne]; [split; [lia|done]|]. apply IH; lia.
Qed.

(** The search ends; it finds a free element when there is one, and reads behind the
    array when there is none. *)
Lemma find_slot_spec max ids last : (0 < max)%nat -> numbers_ok max ids ->
  match find_slot ids max last with
  | Some k => (0 < k < max)%nat /\ ids !! k = Some (-1)
  | None => forall k, (0 < k < max)%nat -> given ids k = true
  end.
Proof.
  intros Hm [Hl H0 Ho]. unfold find_slot. set (i := if _ || _ then O else _).
  assert (i < max)%nat as Hi by (subst i; zcases; lia).
  pose proof (slot_loop_first ids max (2 * max) i Hi ltac:(lia) Hl ltac:(congruence)) as S.
  destruct (slot_loop (2 * max) ids max i true) as [k|]; [exact S|]. intros k Hk.
  destruct (lookup_lt_is_Some_2 ids k) as [v Hv]; [lia|]. apply bool_decide_eq_true.
  destruct (Ho k v ltac:(lia) Hv) as [->| ->]; [exfalso; by apply (S k)|done].
Qed.

Lemma given_free ids k : ids !! k = Some (-1) -> given ids k = false.
Proof. intros E. apply bool_decide_eq_false. rewrite E. injection 1. lia. Qed.

Lemma numbers_give max ids k : (0 < k < max)%nat -> numbers_ok max ids ->
  numbers_ok max (<[k := Z.of_nat k]> ids) /\ forall j, given (<[k := Z.of_nat k]> ids) j = (j =? k)%nat || given ids j.
Proof.
  intros Hk [Hl H0 Ho]. split.
  - split; [by rewrite length_insert|by rewrite list_lookup_insert_ne by lia|]. intros j v Hj.
    destruct (Nat.eq_dec j k) as [->|]; [rewrite list_lookup_insert_eq by lia; intros [= <-]; by right|].
    rewrite list_lookup_insert_ne by done. by apply Ho.
  - intros j. unfold given. destruct (Nat.eqb_spec j k) as [->|Hne]; [|by rewrite list_lookup_insert_ne by done].
    rewrite list_lookup_insert_eq by lia. by apply bool_decide_eq_true.
Qed.

Lemma numbers_take max ids k : (0 < k < max)%nat -> numbers_ok max ids ->
  numbers_ok max (<[k := -1]> ids) /\ forall j, given (<[k := -1]> ids) j = negb (j =? k)%nat && given ids j.
Proof.
  intros Hk [Hl H0 Ho]. split.
  - split; [by rewrite length_insert|by rewrite list_lookup_insert_ne by lia|]. intros j v Hj.
    destruct (Nat.eq_dec j k) as [->|]; [rewrite list_lookup_insert_eq by lia; intros [= <-]; by left|].
    rewrite list_lookup_insert_ne by done. by apply Ho.
  - intros j. unfold given. destruct (Nat.eqb_spec j k) as [->|Hne]; [|by rewrite list_lookup_insert_ne by done].
    rewrite list_lookup_insert_eq by lia. apply bool_decide_eq_false. injection 1. lia.
Qed.

(** A number is accepted exactly when it was given out. *)
Lemma numbered_given {A} (id_of : A -> Z) l max id : numbers_ok max (map id_of l) ->
  (exists x, numbered id_of l max id = Some x /\ l !! Z.to_nat id = Some x /\ id_of x = id /\ 0 < id < Z.of_nat max) \/
  numbered id_of l max id = None /\ (0 <= id -> given (map id_of l) (Z.to_nat id) = false).
Proof.
  intros [Hl H0 Ho]. rewrite length_map in Hl. unfold numbered. destruct (Z.ltb_spec id 0); [right; split; [done|lia]|].
  assert (forall x, l !! Z.to_nat id = Some x -> map id_of l !! Z.to_nat id = Some (id_of x)) as Hm
    by (intros x Hx; change (map id_of l) with (id_of <$> l); by rewrite list_lookup_fmap, Hx).
  destruct (Z.leb_spec (Z.of_nat max) id) as [Hge|Hlt]; cbn [orb].
  - right. split; [done|]. intros _. apply bool_decide_eq_false. rewrite lookup_ge_None_2 by (rewrite length_map; lia). done.
  - destruct (lookup_lt_is_Some_2 l (Z.to_nat id)) as [x Hx]; [lia|]. rewrite Hx. cbn [mbind option_bind]. specialize (Hm x Hx).
    destruct (Z.eqb_spec (id_of x) id) as [E|E].
    + left. exists x. repeat split; [done| |done]. destruct (Z.eq_dec id 0) as [->|]; [|lia].
      change (Z.to_nat 0) with O in Hm. rewrite Hm in H0. injection H0. lia.
    + right. split; [done|]. intros _. apply bool_decide_eq_false. rewrite Hm, Z2Nat.id by lia. congruence.
Qed.

Section tables.
Context {L : Type} `{EtherboneApi L}.
Implicit Types b : @lvstate L.

Record tables_ok b : Prop := {
  ok_sockets : numbers_ok MAXSOCKETS (socket_ids b);
  ok_devices : numbers_ok MAXDEVICES (device_ids b);
  ok_handlers : numbers_ok MAXHANDLER (handler_ids b) }.

Lemma map_insert {A B} (f : A -> B) k x (l : list A) : map f (<[k := x]> l) = <[k := f x]> (map f l).
Proof. apply list_fmap_insert. Qed.

(** What a function that gives out a number did: nothing when it fails. *)
Definition gave (ids ids' : list Z) (st id : Z) : Prop :=
  if st =? LVEB_OK then exists k, id = Z.of_nat k /\ (0 < k)%nat /\ given ids k = false /\ forall j, given ids' j = (j =? k)%nat || given ids j
  else ids' = ids /\ id = -1.

(** What a function that takes a number back did. *)
Definition took (ids ids' : list Z) (st id : Z) : Prop :=
  if st =? LVEB_OK then 0 < id /\ given ids (Z.to_nat id) = true /\ forall j, given ids' j = negb (j =? Z.to_nat id)%nat && given ids j
  else ids' = ids.

Lemma numbers_given {A} (f : A -> Z) (l : list A) max k x :
  (0 < k < max)%nat -> numbers_ok max (map f l) -> map f l !! k = Some (-1) -> f x = Z.of_nat k ->
  numbers_ok max (map f (<[k := x]> l)) /\ gave (map f l) (map f (<[k := x]> l)) LVEB_OK (Z.of_nat k).
Proof.
  intros Hk Hn Hf Hx. rewrite map_insert, Hx. destruct (numbers_give max _ k Hk Hn) as [Hn' Hg]. split; [done|].
  exists k. split; [done|]. split; [lia|]. split; [by apply given_free|done].
Qed.

Lemma numbers_taken {A} (f : A -> Z) (l : list A) max id x y :
  0 < id < Z.of_nat max -> numbers_ok max (map f l) -> l !! Z.to_nat id = Some y -> f y = id -> f x = -1 ->
  numbers_ok max (map f (<[Z.to_nat id := x]> l)) /\ took (map f l) (map f (<[Z.to_nat id := x]> l)) LVEB_OK id.
Proof.
  intros Hk Hn Hy Hf Hx. rewrite map_insert, Hx. destruct (numbers_take max _ (Z.to_nat id) ltac:(lia) Hn) as [Hn' Hg]. split; [done|].
  split; [lia|]. split; [|done]. apply bool_decide_eq_true. change (map f l) with (f <$> l).
  rewrite list_lookup_fmap, Hy. cbn. rewrite Hf, Z2Nat.id by lia. done.
Qed.

Definition has_free (max : nat) (ids : list Z) : Prop := exists k, (0 < k < max)%nat /\ given ids k = false.

Lemma find_free max ids last : (0 < max)%nat -> numbers_ok max ids -> has_free max ids ->
  exists k, find_slot ids max last = Some k /\ (0 < k < max)%nat /\ ids !! k = Some (-1).
Proof.
  intros Hm Hn (k & Hk & Hf). pose proof (find_slot_spec max ids last Hm Hn) as S. destruct (find_slot ids max last) as [j|]; [by exists j|].
  specialize (S k Hk). congruence.
Qed.

Lemma slot_element {A} (f : A -> Z) (l : list A) k v : map f l !! k = Some v -> exists x, l !! k = Some x /\ f x = v.
Proof. intros E. apply list_lookup_fmap_Some in E as (x & Hx & Hl). by exists x. Qed.

Lemma socket_open_gives b port flags : tables_ok b -> has_free MAXSOCKETS (socket_ids b) ->
  exists st id b', lveb_socket_open port flags b = Some (st, id, b') /\ tables_ok b' /\ gave (socket_ids b) (socket_ids b') st id.
Proof.
  intros [Hs Hd Hh] Hf. destruct (find_free MAXSOCKETS _ (lastSocketCreated b) ltac:(unfold MAXSOCKETS; lia) Hs Hf) as (k & Ek & Hk & Hv).
  unfold lveb_socket_open. rewrite Ek. cbn [mbind option_bind].
  destruct (api_socket_open port flags _) as [[st s] l]. destruct (st =? EB_FAIL); [by eexists _, _, _|].
  destruct (st =? EB_BUSY); [by eexists _, _, _|]. destruct (slot_element _ _ _ _ Hv) as (x & Hx & _).
  cbn [lv_sockets put_lib put_last_socket]. rewrite Hx. eexists _, _, _. split; [reflexivity|].
  destruct (numbers_given ls_id (lv_sockets b) MAXSOCKETS k (mk_lvsocket (Z.of_nat k) s (ls_nRead x) (ls_nWrite x) EBACT_UNKNOWN) Hk Hs Hv eq_refl) as [Hn Hg].
  by split.
Qed.

Lemma device_open_gives b sk ip aw pw timeout s : tables_ok b -> the_socket sk b = Some s -> has_free MAXDEVICES (device_ids b) ->
  exists st id b', lveb_device_open sk ip aw pw timeout b = Some (st, id, b') /\ tables_ok b' /\ gave (device_ids b) (device_ids b') st id.
Proof.
  intros [Hs Hd Hh] Esk Hf. destruct (find_free MAXDEVICES _ (lastDeviceCreated b) ltac:(unfold MAXDEVICES; lia) Hd Hf) as (k & Ek & Hk & Hv).
  unfold lveb_device_open. rewrite Esk, Ek. cbn [mbind option_bind].
  destruct (api_device_open _ _ _ _ _ _) as [[st dev] l]. destruct (slot_element _ _ _ _ Hv) as (x & Hx & Hid).
  cbn [lv_devices put_lib put_last_device]. rewrite Hx. cbn [mbind option_bind].
  set (l1 := <[k := mk_lvdevice (ld_id x) (ld_socketID x) dev]> (lv_devices b)).
  assert (map ld_id l1 = device_ids b) as Hsame by (unfold l1; rewrite map_insert; apply list_insert_id; by rewrite Hid).
  assert (forall b', socket_ids b' = socket_ids b -> device_ids b' = device_ids b -> handler_ids b' = handler_ids b -> tables_ok b') as Hok
    by (intros b' E1 E2 E3; split; by rewrite ?E1, ?E2, ?E3).
  destruct (st =? EB_ADDRESS); [eexists _, _, _; split; [reflexivity|split; [by apply Hok|by split]]|].
  destruct (st =? EB_FAIL); [eexists _, _, _; split; [reflexivity|split; [by apply Hok|by split]]|].
  destruct (st =? EB_WIDTH); [eexists _, _, _; split; [reflexivity|split; [by apply Hok|by split]]|].
  destruct (numbers_given ld_id l1 MAXDEVICES k (mk_lvdevice (Z.of_nat k) sk dev) Hk) as [Hn Hg]; [by rewrite Hsame..|done|].
  eexists _, _, _. split; [reflexivity|]. split; [by split|]. rewrite Hsame in Hg. exact Hg.
Qed.

Lemma handler_attach_gives b sk base mask s : tables_ok b -> the_socket sk b = Some s -> 0x8000 <= base -> has_free MAXHANDLER (handler_ids b) ->
  exists st id b', lveb_handler_attach sk base mask b = Some (st, id, b') /\ tables_ok b' /\ gave (handler_ids b) (handler_ids b') st id.
Proof.
  intros [Hs Hd Hh] Esk Hb Hf. destruct (find_free MAXHANDLER _ (lastHandlerCreated b) ltac:(unfold MAXHANDLER; lia) Hh Hf) as (k & Ek & Hk & Hv).
  unfold lveb_handler_attach. rewrite Esk, (proj2 (Z.ltb_ge _ _) Hb), Ek. cbn [mbind option_bind].
  destruct (slot_element _ _ _ _ Hv) as (x & Hx & Hid). cbn [lv_handlers put_last_handler]. rewrite Hx. cbn [mbind option_bind].
  set (l1 := <[k := mk_lvhandler (lh_id x) (lh_socketID x) 1 (lh_map x) base mask]> (lv_handlers b)).
  assert (map lh_id l1 = handler_ids b) as Hsame by (unfold l1; rewrite map_insert; apply list_insert_id; by rewrite Hid).
  destruct (api_socket_attach _ _ _ _ _) as [st l].
  assert (forall b', socket_ids b' = socket_ids b -> device_ids b' = device_ids b -> handler_ids b' = handler_ids b -> tables_ok b') as Hok
    by (intros b' E1 E2 E3; split; by rewrite ?E1, ?E2, ?E3).
  destruct (st =? EB_FAIL); [eexists _, _, _; split; [reflexivity|split; [by apply Hok|by split]]|].
  destruct (st =? EB_ADDRESS); [eexists _, _, _; split; [reflexivity|split; [by apply Hok|by split]]|].
  destruct (api_malloc _ _) as [m l'].
  destruct (numbers_given lh_id l1 MAXHANDLER k (mk_lvhandler (Z.of_nat k) sk 0 m base mask) Hk) as [Hn Hg]; [by rewrite Hsame..|done|].
  eexists _, _, _. split; [reflexivity|]. split; [by split|]. rewrite Hsame in Hg. exact Hg.
Qed.

Lemma socket_close_takes b id : tables_ok b ->
  let '(st, b') := lveb_socket_close id b in tables_ok b' /\ took (socket_ids b) (socket_ids b') st id.
Proof.
  intros [Hs Hd Hh]. unfold lveb_socket_close, the_socket.
  destruct (numbered_given ls_id (lv_sockets b) MAXSOCKETS id Hs) as [(s & -> & El & Ei & Hi)|[-> _]]; [|by split].
  destruct (api_socket_close _ _) as [st l]. destruct (negb (st =? EB_OK)); [by split|].
  destruct (numbers_taken ls_id (lv_sockets b) MAXSOCKETS id (mk_lvsocket (-1) (ls_socket s) (ls_nRead s) (ls_nWrite s) (ls_activity s)) s Hi Hs El Ei eq_refl) as [Hn Ht].
  split; [by split|exact Ht].
Qed.

Lemma device_close_takes b id : tables_ok b ->
  let '(st, b') := lveb_device_close id b in tables_ok b' /\ took (device_ids b) (device_ids b') st id.
Proof.
  intros [Hs Hd Hh]. unfold lveb_device_close, the_device.
  destruct (numbered_given ld_id (lv_devices b) MAXDEVICES id Hd) as [(d & -> & El & Ei & Hi)|[-> _]]; [|by split].
  destruct (api_device_close _ _) as [st l]. destruct (negb (st =? EB_OK)); [by split|].
  destruct (numbers_taken ld_id (lv_devices b) MAXDEVICES id (mk_lvdevice (-1) (-1) (ld_device d)) d Hi Hd El Ei eq_refl) as [Hn Ht].
  split; [by split|exact Ht].
Qed.

(** Detaching takes the number back whatever the library says. *)
Lemma handler_detach_takes b id h : tables_ok b -> the_handler id b = Some h -> 0 <= lh_socketID h < Z.of_nat MAXSOCKETS ->
  exists st b', lveb_handler_detach id b = Some (st, b') /\ tables_ok b' /\ took (handler_ids b) (handler_ids b') LVEB_OK id.
Proof.
  intros [Hs Hd Hh] Eh Hsk. pose proof (numbered_given lh_id (lv_handlers b) MAXHANDLER id Hh) as N. unfold the_handler in Eh. rewrite Eh in N.
  destruct N as [(h' & E & El & Ei & Hi)|[? _]]; [|done]. injection E as <-.
  unfold lveb_handler_detach, the_handler. rewrite Eh, (proj2 (Z.ltb_ge _ _)) by lia.
  pose proof (no_length _ _ Hs) as Hlen. unfold socket_ids in Hlen. rewrite length_map in Hlen.
  destruct (lookup_lt_is_Some_2 (lv_sockets b) (Z.to_nat (lh_socketID h))) as [s ->]; [lia|]. cbn [mbind option_bind].
  destruct (api_socket_detach _ _ _) as [st l]. eexists _, _. split; [reflexivity|].
  destruct (numbers_taken lh_id (lv_handlers b) MAXHANDLER id (mk_lvhandler (-1) (-1) 1 None 0 0) h Hi Hh El Ei eq_refl) as [Hn Ht].
  split; [by split|exact Ht].
Qed.
End tables.

(** * The memory of a handler *)

Section maps.
Context {L : Type} `{EtherboneApi L}.
Implicit Types b : @lvstate L.

(** A handler that is attached and whose memory could be allocated. *)
Record mapped (h : myHandlerT) (m : list Z) : Prop := {
  mp_map : lh_map h = Some m;
  mp_length : Z.of_nat (length m) = lh_mask h;
  mp_mask : lh_mask h < 2 ^ 63;
  mp_base : 0 <= lh_base h < 2 ^ 64 }.

(** The bytes from [address] on lie in the memory of the handler. *)
Definition in_map (h : myHandlerT) (address size : Z) : Prop :=
  0 <= size /\ lh_base h <= address < 2 ^ 64 /\ address + size <= lh_base h + lh_mask h.

Lemma in_map_offset h m address size : mapped h m -> in_map h address size ->
  u64 (address - lh_base h) = address - lh_base h /\ outside_map h (address - lh_base h) size = false.
Proof.
  intros [_ _ Hm Hb] (Hs & Ha & He). unfold outside_map. rewrite !(wrap_small 64) by lia.
  split; [done|]. apply Z.ltb_ge. lia.
Qed.

Lemma getMap_spec b id h m address size : the_handler id b = Some h -> mapped h m -> in_map h address size ->
  lveb_handler_getMap id address size b = Some (LVEB_OK, slice m (Z.to_nat (address - lh_base h)) (Z.to_nat size)).
Proof.
  intros Eh Hm Hi. unfold lveb_handler_getMap. rewrite Eh. destruct (in_map_offset h m address size Hm Hi) as [-> ->].
  destruct Hm as [Em Hl Hmask Hb], Hi as (Hs & Ha & He). unfold map_read. rewrite Em, (wrap_small 64 size) by lia.
  cbn [mbind option_bind]. by rewrite (proj2 (Z.leb_le _ _)) by lia.
Qed.

(** Behind the memory the functions refuse; in front of it only if the sum does not wrap
    around. *)
Lemma getMap_outside b id h address size : the_handler id b = Some h -> 0 <= lh_base h -> 0 <= size ->
  lh_base h <= address < 2 ^ 64 -> address - lh_base h + size < 2 ^ 64 -> lh_base h + lh_mask h < address + size ->
  lveb_handler_getMap id address size b = Some (LVEB_ADDRESS, []).
Proof.
  intros Eh Hb Hs Ha Hw Ho. unfold lveb_handler_getMap. rewrite Eh. unfold outside_map.
  rewrite (wrap_small 64 (address - lh_base h)), (wrap_small 64 (_ + size)) by lia. by rewrite (proj2 (Z.ltb_lt _ _)) by lia.
Qed.

Lemma setMap_spec b id h m address data : the_handler id b = Some h -> mapped h m -> in_map h address (Z.of_nat (length data)) ->
  lveb_handler_setMap id address data b =
    Some (LVEB_OK, put_handler (Z.to_nat id) (set_map (splice m (Z.to_nat (address - lh_base h)) data) h) b).
Proof.
  intros Eh Hm Hi. unfold lveb_handler_setMap. rewrite Eh. destruct (in_map_offset h m address _ Hm Hi) as [-> ->].
  destruct Hm as [Em Hl Hmask Hb], Hi as (Hs & Ha & He). unfold map_write. rewrite Em.
  cbn [mbind option_bind]. by rewrite (proj2 (Z.leb_le _ _)) by lia.
Qed.

Lemma the_handler_put b id h h' : the_handler id b = Some h -> lh_id h' = id -> the_handler id (put_handler (Z.to_nat id) h' b) = Some h'.
Proof.
  unfold the_handler, numbered. intros E Ei. destruct ((id <? 0) || _); [done|]. cbn [lv_handlers put_handler put_handlers].
  destruct (lv_handlers b !! Z.to_nat id) as [x|] eqn:El; [|done]. rewrite list_lookup_insert_eq by (by eapply lookup_lt_Some).
  cbn [mbind option_bind]. by rewrite Ei, Z.eqb_refl.
Qed.

Lemma the_handler_lookup b id h : the_handler id b = Some h -> lv_handlers b !! Z.to_nat id = Some h /\ lh_id h = id.
Proof.
  unfold the_handler, numbered. destruct ((id <? 0) || _); [done|]. destruct (lv_handlers b !! Z.to_nat id) as [x|]; [|done].
  cbn [mbind option_bind]. destruct (Z.eqb_spec (lh_id x) id) as [E|E]; [|done]. by injection 1 as <-.
Qed.

Lemma slice_splice_same m off data : (off + length data <= length m)%nat -> slice (splice m off data) off (length data) = data.
Proof.
  intros Ho. unfold slice, splice. rewrite drop_app_length' by (rewrite length_take; lia). apply take_app_length.
Qed.

Lemma mapped_splice h m off data : mapped h m -> (off + length data <= length m)%nat -> mapped (set_map (splice m off data) h) (splice m off data).
Proof. intros [Em Hl Hmask Hb] Ho. split; [done|cbn; rewrite length_splice by lia; done|done|done]. Qed.

Lemma set_lock_same v h : lh_lock h = v -> set_lock v h = h.
Proof. destruct h. unfold set_lock. cbn. congruence. Qed.

(** The bus reads a word: its bytes in the low byte order of the machine, below what is
    left of the address. *)
Lemma bus_reads b id h m s address width : the_handler id b = Some h -> mapped h m -> lh_lock h = 0 -> 0 <= id ->
  lv_sockets b !! Z.to_nat (lh_socketID h) = Some s -> 0 <= lh_socketID h -> in_map h address width -> 1 <= width <= 8 ->
  exists b', cb_device_read (Z.to_nat id) address width b =
      Some (overlay address (slice m (Z.to_nat (address - lh_base h)) (Z.to_nat width)), b') /\
    lv_handlers b' = lv_handlers b /\ lv_sockets b' = <[Z.to_nat (lh_socketID h) := count_read s]> (lv_sockets b).
Proof.
  intros Eh Hm Hlock Hid Es Hsk Hi Hw. destruct (the_handler_lookup _ _ _ Eh) as [Hl Hn]. unfold cb_device_read. rewrite Hl. cbn [mbind option_bind].
  rewrite Hlock. change (negb (0 =? 0)) with false. cbn iota. rewrite (proj2 (Z.ltb_ge _ _)) by lia.
  destruct (in_map_offset h m address width Hm Hi) as [-> ->]. rewrite (proj2 (Z.ltb_ge _ _)) by lia. cbn [orb].
  destruct Hm as [Em Hlen Hmask Hb], Hi as (Hs & Ha & He). unfold map_read. rewrite Em. cbn [mbind option_bind].
  rewrite (proj2 (Z.leb_le _ _)) by lia. unfold count_on. rewrite (proj2 (Z.ltb_ge _ _)) by lia.
  cbn [lv_sockets put_handler put_handlers]. rewrite Es. cbn [mbind option_bind]. eexists. split; [reflexivity|].
  split; [|reflexivity]. cbn [lv_handlers put_handler put_handlers put_sockets]. rewrite list_insert_insert_eq.
  apply list_insert_id. by rewrite Hl, set_lock_same.
Qed.

Lemma bus_writes b id h m s address width data : the_handler id b = Some h -> mapped h m -> lh_lock h = 0 -> 0 <= id ->
  lv_sockets b !! Z.to_nat (lh_socketID h) = Some s -> 0 <= lh_socketID h -> in_map h address width -> 1 <= width <= 8 ->
  exists b', cb_device_write (Z.to_nat id) address width data b = Some b' /\
    lv_handlers b' = <[Z.to_nat id := set_map (splice m (Z.to_nat (address - lh_base h)) (rev (be_bytes (Z.to_nat width) data))) h]> (lv_handlers b) /\
    lv_sockets b' = <[Z.to_nat (lh_socketID h) := count_write s]> (lv_sockets b).
Proof.
  intros Eh Hm Hlock Hid Es Hsk Hi Hw. destruct (the_handler_lookup _ _ _ Eh) as [Hl Hn]. unfold cb_device_write. rewrite Hl. cbn [mbind option_bind].
  rewrite Hlock. change (negb (0 =? 0)) with false. cbn iota. rewrite (proj2 (Z.ltb_ge _ _)) by lia.
  destruct (in_map_offset h m address width Hm Hi) as [-> ->]. rewrite (proj2 (Z.ltb_ge _ _)) by lia. cbn [orb].
  destruct Hm as [Em Hlen Hmask Hb], Hi as (Hs & Ha & He). unfold map_write. rewrite Em. cbn [mbind option_bind].
  rewrite length_rev, length_be_bytes, (proj2 (Z.leb_le _ _)) by lia. unfold count_on. rewrite (proj2 (Z.ltb_ge _ _)) by lia.
  cbn [lv_sockets put_handler put_handlers]. rewrite Es. cbn [mbind option_bind]. eexists. split; [reflexivity|].
  split; [|reflexivity]. cbn [lv_handlers put_handler put_handlers put_sockets]. by rewrite list_insert_insert_eq, set_lock_same.
Qed.

(** What LabVIEW stores in the memory of a handler it reads back, the bus finds it there,
    and what the bus writes LabVIEW finds, the low byte first. *)
Theorem map_shared (b : lvstate) (id : Z) (h : myHandlerT) (m : list Z) (s : mySocketT) (address width value : Z) (data : list Z)
    (Hid : 0 <= id) (Eh : the_handler id b = Some h) (Hm : mapped h m) (Hlock : lh_lock h = 0)
    (Hsk : 0 <= lh_socketID h) (Es : lv_sockets b !! Z.to_nat (lh_socketID h) = Some s)
    (Hi : in_map h address (Z.of_nat (length data))) (Hw : Z.of_nat (length data) = width) (Hw8 : 1 <= width <= 8) :
  exists b1 b2 b3, lveb_handler_setMap id address data b = Some (LVEB_OK, b1) /\
    lveb_handler_getMap id address width b1 = Some (LVEB_OK, data) /\
    cb_device_read (Z.to_nat id) address width b1 = Some (overlay address data, b2) /\
    cb_device_write (Z.to_nat id) address width value b2 = Some b3 /\
    lveb_handler_getMap id address width b3 = Some (LVEB_OK, rev (be_bytes (Z.to_nat width) value)).
Proof.
  set (off := Z.to_nat (address - lh_base h)).
  assert (off + length data <= length m)%nat as Hoff by (destruct Hm, Hi as (? & ? & ?); unfold off; lia).
  set (m1 := splice m off data). set (h1 := set_map m1 h). set (b1 := put_handler (Z.to_nat id) h1 b).
  pose proof (setMap_spec b id h m address data Eh Hm Hi) as R1. change (Z.to_nat (address - lh_base h)) with off in R1.
  destruct (the_handler_lookup _ _ _ Eh) as [Hl Hn].
  assert (the_handler id b1 = Some h1) as Eh1 by (by apply the_handler_put with h).
  assert (mapped h1 m1) as Hm1 by (by apply mapped_splice). rewrite Hw in Hi.
  assert (slice m1 off (Z.to_nat width) = data) as Hd by (unfold m1; rewrite <- Hw, Nat2Z.id; by apply slice_splice_same).
  destruct (bus_reads b1 id h1 m1 s address width) as (b2 & R2 & Hh2 & Hs2); try done.
  change (Z.to_nat (address - lh_base h1)) with off in R2. rewrite Hd in R2.
  assert (the_handler id b2 = Some h1) as Eh2 by (unfold the_handler in *; by rewrite Hh2).
  destruct (bus_writes b2 id h1 m1 (count_read s) address width value) as (b3 & R3 & Hh3 & _); try done.
  { rewrite Hs2. apply list_lookup_insert_eq. by eapply lookup_lt_Some. }
  change (Z.to_nat (address - lh_base h1)) with off in Hh3. set (m3 := splice m1 off _) in Hh3.
  assert (length (rev (be_bytes (Z.to_nat width) value)) = length data) as Hlen by (rewrite length_rev, length_be_bytes; lia).
  assert (length m1 = length m) as Hlm by (apply length_splice; lia).
  assert (the_handler id b3 = Some (set_map m3 h1)) as Eh3.
  { rewrite <- (the_handler_put b2 id h1 (set_map m3 h1) Eh2 Hn). unfold the_handler. by rewrite Hh3. }
  exists b1, b2, b3. split; [exact R1|]. split; [|split; [exact R2|split; [exact R3|]]].
  - rewrite (getMap_spec b1 id h1 m1 address width) by done. by change (Z.to_nat (address - lh_base h1)) with off; rewrite Hd.
  - rewrite (getMap_spec b3 id (set_map m3 h1) m3 address width Eh3); [|apply mapped_splice; [done|lia]|done].
    change (Z.to_nat (address - lh_base (set_map m3 h1))) with off. do 2 f_equal. unfold m3.
    pose proof (slice_splice_same m1 off (rev (be_bytes (Z.to_nat width) value)) ltac:(lia)) as S.
    rewrite Hlen in S. replace (length data) with (Z.to_nat width) in S by lia. exact S.
Qed.
End maps.

(** * Cycles *)

Section cycles.
Context {L : Type} `{EtherboneApi L}.
Implicit Types b : @lvstate L.

(** Polling hands the answer of the cycle to its data. *)
Lemma answer_copied size status data x b : length (ud_data x) = size ->
  run_upcalls true [CycleCall status data] (Some x, b) =
    if status =? EB_OK then
      if (size <=? length data)%nat then Some (Some (mk_lvuser 1 status (take size data)), b) else None
    else Some (Some (mk_lvuser 1 status (ud_data x)), b).
Proof.
  intros <-. cbn [run_upcalls run_upcall mbind option_bind]. unfold cb_client_read.
  destruct (status =? EB_OK); [|done]. by destruct (_ <=? _)%nat.
Qed.

Lemma wait_done_ends fuel sk timeout x b : ud_done x <> 0 -> wait_done fuel sk timeout x b = Some (x, b).
Proof. intros Hx. destruct fuel; cbn [wait_done]; by rewrite (proj2 (Z.eqb_neq _ _) Hx). Qed.

(** The loop ends when every wait takes some time and no answer is undefined: a
    millisecond and its microseconds are steps enough. *)
Lemma wait_done_total b sk s fuel timeout x :
  lv_sockets b !! sk = Some s ->
  (forall t l, 0 < t -> 0 < (api_socket_block (ls_socket s) t l).1) ->
  (forall l, (api_socket_poll (ls_socket s) l).1 = []) ->
  timeout <= Z.of_nat fuel -> exists b', wait_done fuel sk timeout x b = Some (x, b').
Proof.
  intros Es Hb Hp. revert timeout b Es. induction fuel as [|fuel IH]; intros timeout b Es Ht; cbn [wait_done].
  - rewrite (proj2 (Z.leb_le timeout 0)), orb_true_r by lia. by eexists.
  - destruct (Z.leb_spec timeout 0) as [|Hpos]; [rewrite orb_true_r; by eexists|]. rewrite orb_false_r.
    destruct (negb (ud_done x =? 0)); [by eexists|]. rewrite Es. cbn [mbind option_bind].
    specialize (Hb timeout (lv_lib b) Hpos). destruct (api_socket_block _ _ _) as [elapsed l]. unfold poll.
    cbn [snd fst lv_lib put_lib]. specialize (Hp l). destruct (api_socket_poll (ls_socket s) l) as [calls l'].
    cbn [fst] in Hb, Hp. subst calls. cbn [run_upcalls mbind option_bind]. apply IH; [done|lia].
Qed.

(** The cycle that was formed for the library, up to its flush. *)
Definition formed (d : myDeviceT) (addressR modeR nR addressW modeW : Z) (dataW : list Z) (l : L) : L :=
  let '(cycle, l) := api_cycle_open (ld_device d) (0 <? nR) addressW modeW l in
  api_cycle_close cycle (cycle_writes cycle dataW (cycle_reads cycle addressR modeR (Z.to_nat nR) 0 l)).

Lemma read_write_waits fuel id addressR modeR nR addressW modeW dataW timeout b d block l :
  the_device id b = Some d -> 0 < nR -> api_malloc (nR * 8) (lv_lib b) = (Some block, l) ->
  (forall l, (api_device_flush (ld_device d) l).1 = []) ->
  lveb_device_read_write fuel id addressR modeR nR addressW modeW dataW timeout b =
    ('(x, b') ← wait_done fuel (Z.to_nat (ld_socketID d)) (timeout * 1000) (mk_lvuser 0 EB_OK block)
       (put_lib (api_device_flush (ld_device d) (formed d addressR modeR nR addressW modeW dataW l)).2 b);
     Some (lveb_status_of (ud_status x), ud_data x, b')).
Proof.
  intros Ed Hn Em Hf. unfold lveb_device_read_write, formed. rewrite Ed, (proj2 (Z.ltb_lt _ _) Hn), Em. cbn [mbind option_bind].
  destruct (api_cycle_open _ _ _ _ l) as [cycle l1]. set (l2 := api_cycle_close _ _). unfold flush_device. cbn [snd fst].
  change (the_device id (put_lib l2 b)) with (the_device id b). rewrite Ed. cbn [lv_lib put_lib]. specialize (Hf l2).
  destruct (api_device_flush (ld_device d) l2) as [calls l3]. cbn [fst] in Hf. subst calls. cbn [run_upcalls mbind option_bind snd].
  reflexivity.
Qed.

(** When the answer comes with the first poll, the caller gets its bytes, or the error
    code. *)
Theorem read_write_answered (fuel : nat) (id addressR modeR nR addressW modeW : Z) (dataW : list Z) (timeout : Z) (b : lvstate)
    (d : myDeviceT) (s : mySocketT) (block answer : list Z) (l : L) (status : Z)
    (Ed : the_device id b = Some d) (Es : lv_sockets b !! Z.to_nat (ld_socketID d) = Some s) (Hn : 0 < nR) (Ht : 0 < timeout)
    (Em : api_malloc (nR * 8) (lv_lib b) = (Some block, l)) (Hl : length block = length answer)
    (Hf : forall l, (api_device_flush (ld_device d) l).1 = [])
    (Hp : forall l, (api_socket_poll (ls_socket s) l).1 = [CycleCall status answer]) :
  exists b', lveb_device_read_write (S fuel) id addressR modeR nR addressW modeW dataW timeout b =
    Some (lveb_status_of status, if status =? EB_OK then answer else block, b').
Proof.
  rewrite (read_write_waits _ _ _ _ _ _ _ _ _ _ d block l Ed Hn Em Hf). set (b1 := put_lib _ b). cbn [wait_done ud_done].
  change (negb (0 =? 0)) with false. rewrite (proj2 (Z.leb_gt _ _)) by lia. cbn [orb].
  change (lv_sockets b1) with (lv_sockets b). rewrite Es. cbn [mbind option_bind].
  destruct (api_socket_block _ _ _) as [elapsed l2]. unfold poll. cbn [snd fst lv_lib put_lib]. specialize (Hp l2).
  destruct (api_socket_poll (ls_socket s) l2) as [calls l3]. cbn [fst] in Hp. subst calls.
  rewrite (answer_copied (length answer)) by exact Hl. rewrite Nat.leb_refl, firstn_all.
  destruct (status =? EB_OK); cbn [mbind option_bind]; rewrite wait_done_ends by done; eexists; reflexivity.
Qed.

(** When the time is up before the answer the status is success and the data are what
    [malloc] gave. *)
Lemma read_write_silent id addressR modeR nR addressW modeW dataW timeout b d s block l fuel :
  the_device id b = Some d -> lv_sockets b !! Z.to_nat (ld_socketID d) = Some s -> 0 < nR ->
  api_malloc (nR * 8) (lv_lib b) = (Some block, l) ->
  (forall l, (api_device_flush (ld_device d) l).1 = []) -> (forall l, (api_socket_poll (ls_socket s) l).1 = []) ->
  (forall t l, 0 < t -> 0 < (api_socket_block (ls_socket s) t l).1) -> timeout * 1000 <= Z.of_nat fuel ->
  exists b', lveb_device_read_write fuel id addressR modeR nR addressW modeW dataW timeout b = Some (LVEB_OK, block, b').
Proof.
  intros Ed Es Hn Em Hf Hp Hb Ht. rewrite (read_write_waits _ _ _ _ _ _ _ _ _ _ d block l Ed Hn Em Hf).
  destruct (wait_done_total (put_lib (api_device_flush (ld_device d) (formed d addressR modeR nR addressW modeW dataW l)).2 b)
    (Z.to_nat (ld_socketID d)) s fuel (timeout * 1000) (mk_lvuser 0 EB_OK block)) as [b' ->]; try done. by eexists.
Qed.

(** A cycle without reads keeps a pointer to data that is gone when its answer comes:
    polling the socket afterwards is undefined. *)
Lemma write_answer_dangles status answer b : run_upcalls false [CycleCall status answer] (None, b) = None.
Proof. reflexivity. Qed.

(** The sum of an offset and a negative size passes the test. *)
Lemma negative_size_undefined b id h m : the_handler id b = Some h -> mapped h m -> 5 <= lh_mask h -> lh_base h + 5 < 2 ^ 64 ->
  lveb_handler_getMap id (lh_base h + 5) (-5) b = None.
Proof.
  intros Eh [Em Hl Hm Hb] H5 H64. unfold lveb_handler_getMap, outside_map, map_read. rewrite Eh, Em.
  rewrite (wrap_small 64 (_ - _)) by lia. replace (lh_base h + 5 - lh_base h + -5) with 0 by lia.
  change (u64 0) with 0. rewrite (proj2 (Z.ltb_ge _ _)) by lia. cbn [mbind option_bind].
  change (u64 (-5)) with 0xfffffffffffffffb. by rewrite (proj2 (Z.leb_gt _ _)) by lia.
Qed.
End cycles.

(** ** Instances *)

(** A library in which everything succeeds: its state is what the next poll calls. *)
#[local] Instance demo_library : EtherboneApi (list upcall) := {|
  api_socket_open _ _ l := (EB_OK, 7, l); api_socket_close _ l := (EB_OK, l);
  api_socket_block _ t l := (1, l); api_socket_poll _ l := ([CycleCall EB_OK [1; 2; 3; 4; 5; 6; 7; 8]], l);
  api_socket_attach _ _ _ _ l := (EB_OK, l); api_socket_detach _ _ l := (EB_OK, l);
  api_device_open _ _ _ _ _ l := (EB_OK, 9, l); api_device_close _ l := (EB_OK, l); api_device_width _ l := 0x44;
  api_device_flush _ l := ([], l); api_cycle_open _ _ _ _ l := (11, l);
  api_cycle_read _ _ l := l; api_cycle_write _ _ l := l; api_cycle_close _ l := l;
  api_malloc n l := (Some (replicate (Z.to_nat n) 0xaa), l) |}.

Definition loaded : @lvstate (list upcall) := initMyLib (mk_lvstate
  (replicate MAXSOCKETS (mk_lvsocket 0 0 0 0 0)) (replicate MAXDEVICES (mk_lvdevice 0 0 0))
  (replicate MAXHANDLER (mk_lvhandler 0 0 0 None 0 0)) (-1) (-1) (-1) false []).

(** One socket, one handler at 0x10000 with 16 bytes, one device. *)
Definition opened : option (@lvstate (list upcall)) :=
  '(_, sk, b) ← lveb_socket_open 0 0 loaded;
  '(_, h, b) ← lveb_handler_attach sk 0x10000 16 b;
  '(_, d, b) ← lveb_device_open sk [] 0xf0 0xf 3000 b;
  Some b.
Definition opened_state : @lvstate (list upcall) := default loaded opened.

Example first_numbers : option_map (fun b => (socket_ids b !! 1%nat, handler_ids b !! 1%nat, device_ids b !! 1%nat)) opened =
  Some (Some 1, Some 1, Some 1).
Proof. vm_compute. reflexivity. Qed.

Lemma numbers_okb max ids : (length ids =? max)%nat && bool_decide (ids !! O = Some 1) &&
  forallb (fun k => match ids !! k with Some v => (v =? -1) || (v =? Z.of_nat k) | None => true end) (seq 1 max) = true -> numbers_ok max ids.
Proof.
  rewrite !andb_true_iff, Nat.eqb_eq, bool_decide_eq_true, forallb_forall. intros [[Hl H0] Ho]. split; [done|done|].
  intros k v Hk Hv. apply lookup_lt_Some in Hv as Hlt. specialize (Ho k ltac:(apply in_seq; lia)). rewrite Hv in Ho.
  apply orb_true_iff in Ho as [E|E]; apply Z.eqb_eq in E; [by left|by right].
Qed.

(** After the library is loaded nothing is given out. *)
Lemma loaded_ok : tables_ok loaded /\ forall k, given (socket_ids loaded) k = false.
Proof.
  assert (tables_ok loaded) as Hok by (split; apply numbers_okb; vm_compute; reflexivity). split; [done|].
  intros k. destruct (Nat.lt_ge_cases k MAXSOCKETS) as [Hk|Hk].
  - assert (forallb (fun k => negb (given (socket_ids loaded) k)) (seq 0 MAXSOCKETS) = true) as Hf by (vm_compute; reflexivity).
    rewrite forallb_forall in Hf. specialize (Hf k ltac:(apply in_seq; lia)). by apply negb_true_iff in Hf.
  - unfold given. rewrite lookup_ge_None_2; [done|]. by rewrite (no_length _ _ (ok_sockets _ Hok)).
Qed.

Lemma map_shared_witness : exists b1 b2 b3, lveb_handler_setMap 1 0x10004 [0x11; 0x22; 0x33; 0x44] opened_state = Some (LVEB_OK, b1) /\
  cb_device_read 1 0x10004 4 b1 = Some (0x44332211, b2) /\ cb_device_write 1 0x10004 4 0x55667788 b2 = Some b3 /\
  lveb_handler_getMap 1 0x10004 4 b3 = Some (LVEB_OK, [0x88; 0x77; 0x66; 0x55]).
Proof.
  destruct (map_shared opened_state 1 (mk_lvhandler 1 1 0 (Some (replicate 16 0xaa)) 0x10000 16) (replicate 16 0xaa)
    (mk_lvsocket 1 7 0 0 EBACT_UNKNOWN) 0x10004 4 0x55667788 [0x11; 0x22; 0x33; 0x44]
    ltac:(lia) ltac:(vm_compute; reflexivity) ltac:(split; [reflexivity|reflexivity|cbn; lia|cbn; lia]) eq_refl ltac:(cbn; lia) ltac:(vm_compute; reflexivity)
    ltac:(unfold in_map; cbn [lh_base lh_mask length]; lia) eq_refl ltac:(lia)) as (b1 & b2 & b3 & R1 & _ & R2 & R3 & R4).
  exists b1, b2, b3. split; [exact R1|]. split; [exact R2|]. split; [exact R3|exact R4].
Defined.

Lemma read_write_answered_witness : exists b', lveb_device_read_write 1 1 0x1000 0 1 0 0 [] 100 opened_state =
  Some (LVEB_OK, [1; 2; 3; 4; 5; 6; 7; 8], b').
Proof.
  exact (read_write_answered 0 1 0x1000 0 1 0 0 [] 100 opened_state (mk_lvdevice 1 1 9) (mk_lvsocket 1 7 0 0 EBACT_UNKNOWN)
    (replicate 8 0xaa) [1; 2; 3; 4; 5; 6; 7; 8] [] EB_OK ltac:(vm_compute; reflexivity) ltac:(vm_compute; reflexivity) ltac:(lia) ltac:(lia)
    ltac:(vm_compute; reflexivity) eq_refl (fun _ => eq_refl) (fun _ => eq_refl)).
Defined.

(** A read of one byte leaves the upper bytes of the address in the result. *)
Example read_keeps_address : option_map fst (cb_device_read 1 0x10004 1 opened_state) = Some 0x100aa.
Proof. vm_compute. reflexivity. Qed.

(** With every number given out the search reads behind the array. *)
Example full_table_read_past : find_slot (1 :: map Z.of_nat (seq 1 99)) MAXSOCKETS 99 = None.
Proof. vm_compute. reflexivity. Qed.
