(* ===== verification/Console.v ===== *)
(** Programs that drive one device of a bus: the terminal [src/tools/eb-console.c] of a
    UART, [eb-info.c], which prints the text in a ROM, and [eb-config-nv.c], which sets the
    dummy cycles of a flash chip. What is done to the bus is in the files before; the
    devices are hardware. *)
From stdpp Require Import base list.
From Stdlib Require Import ZArith Lia.
From S2P Require Import Prelude Widths Store World Linked Cycle Format Master.

(** * eb-console *)

Definition VUART_TX : Z := 0x10.
Definition VUART_RX : Z := 0x14.
Definition BATCH_SIZE : nat := 200.

(** Which of the UARTs that were found is used; there is room for the descriptions of
    ten. *)
Definition choose_uart (i c : Z) : option Z :=
  if i =? -1 then (if c =? 1 then Some 0 else None) else if c <=? i then None else Some i.

(** A cycle of reads gives for every address the word that was stored, or nothing. *)
Class Vuart (U : Type) := {
  vu_reads : list Z -> U -> list (option Z) * U;
  vu_write : Z -> Z -> U -> U }.

(** What came of a pass over the loop. *)
Inductive console_end (C : Type) := Goes (c : C) | Quits (c : C).
Arguments Goes {C}. Arguments Quits {C}.

Section console.
Context {U : Type} `{Vuart U}.

(** The variables of the loop, what was written to the terminal and what was typed and
    not read yet. A read that failed leaves its variable. *)
Record console_vars := mk_console { co_uart : U; co_rx : list Z; co_done : Z; co_busy : bool; co_out : list Z;
  co_in : list Z }.

Definition keep (old : Z) (v : option Z) : Z := default old v.

(** [if ((rx_data[i] & 0x100) == 0) continue; ...] *)
Definition rx_bytes (rx : list Z) : list Z := map (fun v => v .& 0xff) (filter (fun v => (v .& 0x100) <> 0) rx).

(** [char] is signed on the machines the tool runs on; the word has 64 bits. *)
Definition char_word (byte : Z) : Z := u64 (if byte <? 128 then byte else byte - 256).

(** [eb_device_write] of a 32-bit word: the library refuses a value that is wider
    ([check_op]). *)
Definition device_write (address value : Z) (u : U) : U :=
  if (value .& byte_mask 4) =? value then vu_write address value u else u.

Definition poll_status (rx tx : Z) (s : console_vars) : console_vars :=
  let '(vs, u) := vu_reads [rx; tx] (co_uart s) in
  mk_console u (keep (hd 0 (co_rx s)) (mjoin (vs !! 0%nat)) :: tl (co_rx s)) (keep (co_done s) (mjoin (vs !! 1%nat))) (co_busy s) (co_out s) (co_in s).

Definition bulk_read (rx : Z) (s : console_vars) : console_vars :=
  let '(vs, u) := vu_reads (replicate (BATCH_SIZE - 1) rx) (co_uart s) in
  let data := hd 0 (co_rx s) :: zip_with keep (tl (co_rx s)) vs in
  mk_console u data (co_done s) (co_busy s) (co_out s ++ rx_bytes data) (co_in s).

(** [if (!busy && read(STDIN_FD, &byte, 1) == 1)] *)
Definition type_byte (tx : Z) (s : console_vars) : console_end console_vars :=
  match co_in s with
  | byte :: rest =>
    if co_busy s then Goes s
    else if byte =? 3 then Quits (mk_console (co_uart s) (co_rx s) (co_done s) (co_busy s) (co_out s) rest)
    else Goes (mk_console (device_write tx (char_word byte) (co_uart s)) (co_rx s) (co_done s) true (co_out s) rest)
  | [] => Goes s
  end.

(** A pass over the loop; [typed] arrives on the terminal during it. *)
Definition console_pass (rx tx : Z) (typed : list Z) (s : console_vars) : console_end console_vars :=
  let s := poll_status rx tx s in
  let s := if negb ((hd 0 (co_rx s) .& 0x100) =? 0) then bulk_read rx s else s in
  type_byte tx (mk_console (co_uart s) (co_rx s) (co_done s) (co_busy s && ((co_done s .& 0x100) =? 0)) (co_out s) (co_in s ++ typed)).

Fixpoint console_loop (rx tx : Z) (passes : list (list Z)) (s : console_vars) : console_end console_vars :=
  match passes with
  | [] => Goes s
  | typed :: passes =>
    match console_pass rx tx typed s with
    | Quits s => Quits s
    | Goes s => console_loop rx tx passes s
    end
  end.
End console.

(** * eb-info *)

Definition rom_length (addr_first addr_last : Z) : Z := u64 (u64 (addr_last - addr_first) + 1) / 4.
Definition rom_addresses (addr_first : Z) (len : nat) : list Z := map (fun i => u64 (addr_first + Z.of_nat i * 4)) (seq 0 len).
(** [printf("%c%c%c%c", ...)] for every word *)
Definition word_text (data : Z) : list Z := [(data .>> 24) .& 0xff; (data .>> 16) .& 0xff; (data .>> 8) .& 0xff; data .& 0xff].
Definition rom_text (data : list Z) : list Z := concat (map word_text data).

(** * eb-config-nv *)

(** The words of its cycle, or [None] for arguments out of range. *)
Definition config_writes (cycles bytes : Z) : option (list Z) :=
  if (cycles <? 1) || (14 <? cycles) then None
  else if (bytes <? 3) || (4 <? bytes) then None
  else Some [0x6; 0x80000000; 0xb1; 0xfe .| c_bool (bytes =? 3); (cycles .<< 4) .| 0xf; 0x80000000].

(** * The console relays *)

(** What the UART promises: a word read from it carries the next byte that came in or
    none; the other register says when it takes the next byte, and then it takes it. *)
Class VuartLaws (U : Type) `{Vuart U} (rx tx : Z) := {
  taken : U -> list Z;
  sent : U -> list Z;
  ready : U -> bool;
  vu_status u : exists v d u', vu_reads [rx; tx] u = ([Some v; Some d], u') /\ taken u' = taken u ++ rx_bytes [v] /\ sent u' = sent u /\
    (ready u = true \/ (d .& 0x100) <> 0 -> ready u' = true);
  vu_bulk u n : exists vs u', vu_reads (replicate n rx) u = (map Some vs, u') /\ length vs = n /\ taken u' = taken u ++ rx_bytes vs /\
    sent u' = sent u /\ (ready u = true -> ready u' = true);
  vu_takes u v : ready u = true -> sent (vu_write tx v u) = sent u ++ [v .& 0xff];
  vu_quiet u v : taken (vu_write tx v u) = taken u }.

Section relay.
Context {U : Type} (rx tx : Z) `{VuartLaws U rx tx}.
Implicit Types s : @console_vars U.

(** Everything that was taken from the UART is on the terminal, and a UART the loop does
    not wait for is ready. *)
Record console_ok s : Prop := {
  ck_out : co_out s = taken (co_uart s);
  ck_ready : co_busy s = false -> ready (co_uart s) = true;
  ck_rx : length (co_rx s) = BATCH_SIZE }.

Lemma rx_bytes_app l1 l2 : rx_bytes (l1 ++ l2) = rx_bytes l1 ++ rx_bytes l2.
Proof. unfold rx_bytes. by rewrite filter_app, map_app. Qed.

Lemma zip_keep old vs : length old = length vs -> zip_with keep old (map Some vs) = vs.
Proof.
  revert vs. induction old as [|x old IH]; intros [|v vs] Hl; try done.
  injection Hl as Hl. exact (f_equal (cons v) (IH vs Hl)).
Qed.

(** The status and what came in. *)
Lemma status_read s : console_ok s -> exists s', let s1 := poll_status rx tx s in
  (if negb ((hd 0 (co_rx s1) .& 0x100) =? 0) then bulk_read rx s1 else s1) = s' /\
  co_out s' = taken (co_uart s') /\ sent (co_uart s') = sent (co_uart s) /\ co_busy s' = co_busy s /\ co_in s' = co_in s /\
  length (co_rx s') = BATCH_SIZE /\
  (co_busy s && ((co_done s' .& 0x100) =? 0) = false -> ready (co_uart s') = true).
Proof.
  intros [Ho Hr Hl]. eexists. cbv zeta. split; [reflexivity|]. unfold poll_status.
  destruct (vu_status (co_uart s)) as (v & d & u1 & -> & Ht1 & Hs1 & Hr1). cbn [lookup list_lookup mjoin option_join keep default from_option hd co_rx]. unfold id.
  destruct (co_rx s) as [|x rest] eqn:Erx; [done|]. cbn [tl length] in *.
  assert (co_busy s && ((d .& 0x100) =? 0) = false -> ready u1 = true) as Hready.
  { intros E. apply Hr1. destruct (co_busy s); [|by left; apply Hr]. right. by apply Z.eqb_neq. }
  destruct (Z.eqb_spec (v .& 0x100) 0) as [E|E]; cbn [negb co_uart co_rx co_done co_busy co_out co_in].
  - split_and!; [|done|done|done|done|done]. rewrite Ho, Ht1. unfold rx_bytes. rewrite filter_cons_False by (by intros F; apply F). by rewrite app_nil_r.
  - unfold bulk_read. cbn [co_uart co_rx co_done co_busy co_out co_in hd tl].
    destruct (vu_bulk u1 (BATCH_SIZE - 1)) as (vs & u2 & -> & Hl2 & Ht2 & Hs2 & Hr2). cbn [co_uart co_rx co_done co_busy co_out co_in].
    rewrite zip_keep by (unfold BATCH_SIZE in *; lia). split_and!; [|by rewrite Hs2|done|done|cbn [length]; by rewrite Hl2|intros E'; by apply Hr2, Hready].
    rewrite Ho, Ht2, Ht1, <- app_assoc. f_equal. change (v :: vs) with ([v] ++ vs). apply rx_bytes_app.
Qed.

(** A byte of seven bits arrives as it was typed. *)
Lemma char_word_7 byte : 0 <= byte < 128 -> char_word byte = byte /\ (byte .& byte_mask 4 =? byte) = true /\ byte .& 0xff = byte.
Proof.
  intros Hb. unfold char_word. rewrite (proj2 (Z.ltb_lt _ _)) by lia. rewrite (wrap_small 64) by lia. split; [done|].
  assert (is_byte byte) as Hb' by lia. split; [|apply Z.eqb_eq].
  - clear -Hb'. revert byte Hb'. apply (byte_forall (fun b => (b .& byte_mask 4) =? b)). vm_compute. reflexivity.
  - clear -Hb'. revert byte Hb'. apply (byte_forall (fun b => (b .& 0xff) =? b)). vm_compute. reflexivity.
Qed.

Definition typeable (byte : Z) : Prop := 0 <= byte < 128 /\ byte <> 3.

Lemma pass_relays typed s : console_ok s -> Forall typeable (co_in s ++ typed) ->
  exists s', console_pass rx tx typed s = Goes s' /\ console_ok s' /\
    sent (co_uart s') ++ co_in s' = sent (co_uart s) ++ co_in s ++ typed /\ Forall typeable (co_in s').
Proof.
  intros Hs Hf. destruct (status_read s Hs) as (s1 & E & Ho & Hsent & Hb & Hi & Hl & Hr). unfold console_pass. cbv zeta in E. rewrite E.
  unfold type_byte. cbn [co_in co_busy co_uart co_rx co_done co_out]. rewrite Hi, Hb.
  destruct (co_in s ++ typed) as [|byte rest] eqn:Ein.
  - eexists. split; [reflexivity|]. split; [by split|]. cbn [co_uart co_in]. by rewrite Hsent.
  - destruct (co_busy s && _) eqn:Eb.
    + eexists. split; [reflexivity|]. split; [by split|]. cbn [co_uart co_in]. by rewrite Hsent.
    + apply Forall_cons in Hf as [[Hb7 H3] Hf]. rewrite (proj2 (Z.eqb_neq _ _) H3). destruct (char_word_7 byte Hb7) as (Hw & Hm & Hand).
      eexists. split; [reflexivity|]. unfold device_write. rewrite Hw, Hm. cbn [co_uart co_in]. split; [|split; [|done]].
      * split; cbn [co_out co_uart co_busy co_rx]; [by rewrite vu_quiet|done|done].
      * rewrite vu_takes, Hsent, Hand, <- app_assoc by (by apply Hr). done.
Qed.

(** The console relays in both directions, whatever arrives when: every byte the UART gave
    is on the terminal, in order and once; the bytes that were typed are sent in order,
    each when the UART is ready for it, and none is lost. *)
Theorem console_relays (passes : list (list Z)) (s : @console_vars U)
    (Hs : console_ok s) (Hin : Forall typeable (co_in s ++ concat passes)) :
  exists s', console_loop rx tx passes s = Goes s' /\ co_out s' = taken (co_uart s') /\
    sent (co_uart s') ++ co_in s' = sent (co_uart s) ++ co_in s ++ concat passes.
Proof.
  revert s Hs Hin. induction passes as [|typed passes IH]; intros s Hs Hin; cbn [console_loop concat] in *.
  - exists s. split; [done|]. split; [apply Hs|by rewrite app_nil_r].
  - rewrite app_assoc in Hin. apply Forall_app in Hin as [H1 H2].
    destruct (pass_relays typed s Hs H1) as (s1 & -> & Hs1 & E1 & Hf1).
    destruct (IH s1 Hs1 ltac:(by apply Forall_app)) as (s2 & R & Ho & E2). exists s2. split; [done|]. split; [done|].
    rewrite E2, app_assoc, E1. by rewrite <- !app_assoc.
Qed.

(** A byte with its high bit set is extended to 64 bits; the library refuses the word, and
    the byte is lost. *)
Lemma high_byte_lost s byte : 128 <= byte < 256 -> co_busy s = false -> forall rest, co_in s = byte :: rest ->
  exists s', type_byte tx s = Goes s' /\ co_uart s' = co_uart s /\ co_in s' = rest.
Proof.
  intros Hb Hbusy rest Hi. unfold type_byte. rewrite Hi, Hbusy, (proj2 (Z.eqb_neq _ _)) by lia. eexists. split; [reflexivity|].
  split; [|done]. cbn [co_uart]. unfold device_write, char_word. rewrite (proj2 (Z.ltb_ge _ _)) by lia.
  assert (is_byte byte) as Hb' by lia.
  assert (((byte <? 128) || negb ((u64 (byte - 256) .& byte_mask 4) =? u64 (byte - 256))) = true) as E.
  { clear -Hb'. revert byte Hb'. apply (byte_forall (fun b => (b <? 128) || negb ((u64 (b - 256) .& byte_mask 4) =? u64 (b - 256)))). vm_compute. reflexivity. }
  rewrite (proj2 (Z.ltb_ge _ _)) in E by lia. cbn [orb] in E. apply negb_true_iff in E. by rewrite E.
Qed.
End relay.

(** That is what the check of a flush says to a word wider than 32 bits. *)
Lemma wide_word_refused data mask op : op_size data (op_format op) = 4 -> is_write op = true ->
  (op_value op .& byte_mask 4) <> op_value op -> (check_op data mask op).2 <> EB_OK.
Proof.
  intros Hs Hw Hv. unfold check_op. rewrite Hs, Hw. change (4 =? 0) with false. cbn iota.
  rewrite (proj2 (Z.eqb_neq _ _) Hv). cbv zeta. case_match; [done|]. cbn [snd andb negb]. by repeat case_match.
Qed.

(** A word read from a ROM is printed as its four bytes. *)
Lemma rom_text_bytes (words : list (list Z)) : Forall (fun w => length w = 4%nat /\ bytes_ok w) words ->
  rom_text (map be_val words) = concat words.
Proof.
  unfold rom_text. induction 1 as [|w words [Hl Hw] _ IH]; [done|]. cbn [map concat]. rewrite IH. f_equal.
  rewrite <- (be_bytes_val w Hw) at 2. rewrite Hl. unfold word_text. cbn [be_bytes].
  change (8 * Z.of_nat 0) with 0. by rewrite Z.shiftr_0_r.
Qed.

(** ** A UART that echoes *)

(** What it gave and took, and what waits in it. *)
Definition echo := (list Z * list Z * list Z)%type.
Fixpoint echo_reads (rx : Z) (l : list Z) (u : echo) : list (option Z) * echo :=
  match l with
  | [] => ([], u)
  | a :: l =>
    let '(given, got, queue) := u in
    if a =? rx then
      match queue with
      | b :: queue => let '(vs, u) := echo_reads rx l (given ++ [b .& 0xff], got, queue) in (Some (0x100 .| b) :: vs, u)
      | [] => let '(vs, u) := echo_reads rx l u in (Some 0 :: vs, u)
      end
    else let '(vs, u) := echo_reads rx l u in (Some 0x100 :: vs, u)
  end.
#[local] Instance echo_uart : Vuart echo := {|
  vu_reads := echo_reads VUART_RX;
  vu_write a v u := let '(given, got, queue) := u in (given, got ++ [v .& 0xff], queue ++ [v .& 0xff]) |}.

Lemma echo_word b : ((0x100 .| b) .& 0x100) <> 0 /\ (0x100 .| b) .& 0xff = b .& 0xff.
Proof.
  split.
  - intros E. apply (f_equal (fun z => Z.testbit z 8)) in E. rewrite Z.land_spec, Z.lor_spec, Z.bits_0 in E. discriminate E.
  - rewrite Z.land_lor_distr_l. change (0x100 .& 0xff) with 0. apply Z.lor_0_l.
Qed.

Lemma echo_bulk n u : exists vs u', echo_reads VUART_RX (replicate n VUART_RX) u = (map Some vs, u') /\ length vs = n /\
  u'.1.1 = u.1.1 ++ rx_bytes vs /\ u'.1.2 = u.1.2.
Proof.
  revert u. induction n as [|n IH]; intros [[given got] queue]; [exists [], (given, got, queue); by rewrite app_nil_r|].
  cbn [replicate echo_reads]. rewrite Z.eqb_refl. destruct queue as [|b queue].
  - destruct (IH (given, got, [])) as (vs & u' & -> & Hl & Ht & Hs). exists (0 :: vs), u'. split; [done|]. cbn [length fst snd] in *. by rewrite Hl.
  - destruct (IH (given ++ [b .& 0xff], got, queue)) as (vs & u' & -> & Hl & Ht & Hs). exists ((0x100 .| b) :: vs), u'.
    split; [done|]. cbn [length fst snd] in *. rewrite Hl, Ht, <- app_assoc. split; [done|]. split; [|done]. f_equal.
    unfold rx_bytes. destruct (echo_word b) as [Hb Hd]. rewrite filter_cons_True by done. cbn [map app]. by rewrite Hd.
Qed.

#[local] Program Instance echo_laws : VuartLaws echo VUART_RX VUART_TX := {|
  taken u := u.1.1; sent u := u.1.2; ready _ := true |}.
Solve All Obligations with (try done; try (intros [[given got] queue] v; reflexivity)).
Next Obligation.
  intros u. destruct (echo_bulk 1 u) as (vs & u' & R & Hl & Ht & Hs). destruct vs as [|v [|]]; try done. exists v, 0x100, u'.
  cbn [replicate echo_reads] in *. destruct u as [[given got] queue]. rewrite Z.eqb_refl in *. change (VUART_TX =? VUART_RX) with false. cbn iota.
  destruct queue as [|b queue]; injection R as <- <-; by repeat split.
Qed.
Next Obligation.
  intros u n. destruct (echo_bulk n u) as (vs & u' & R & Hl & Ht & Hs). exists vs, u'. by repeat split.
Qed.

(** Two bytes are waiting in the UART, "hi" is typed over three passes. *)
Definition terminal : @console_vars echo := mk_console ([], [], [79; 75]) (replicate BATCH_SIZE 0) 0 false [] [].

Lemma console_relays_witness : exists s', console_loop VUART_RX VUART_TX [[104; 105]; []; []] terminal = Goes s' /\
  co_out s' = [79; 75; 104; 105] /\ co_out s' = taken (co_uart s') /\ sent (co_uart s') ++ co_in s' = [104; 105].
Proof.
  destruct (console_relays VUART_RX VUART_TX [[104; 105]; []; []] terminal) as (s' & R & Ho & Hs).
  - split; reflexivity.
  - repeat (constructor; [split; lia|]). constructor.
  - exists s'. split; [exact R|]. split; [|split; [exact Ho|exact Hs]]. vm_compute in R. injection R as <-. reflexivity.
Defined.
