(* ===== verification/Scu.v ===== *)
(** The interrupts of the SCU: [src/top/gsi_scu/stripped.c], the firmware that scans
    the SCU bus (file FunctionGen), configures the timers of its slaves and serves
    their interrupts and those of the host, which reach it as messages (file Irq).

    The bus and its interrupt master are registers, an interface with the laws the
    handlers rely on. What is printed on the console is part of the state. *)
From stdpp Require Import base list strings gmap.
From Stdlib Require Import ZArith Lia.
From S2P Require Import Prelude Widths Ring FunctionGen Irq.

(** * scu_bus.h *)

Definition SLAVE_INT_ENA : Z := 0x21.
Definition SLAVE_INT_ACT : Z := 0x24.
Definition TMR_BASE : Z := 0x330.
Definition TMR_CNTRL : Z := 0x0.
Definition TMR_IRQ_CNT : Z := 0x1.
Definition TMR_VALUEL : Z := 0x2.
Definition TMR_VALUEH : Z := 0x3.
Definition GLOBAL_IRQ_ENA : Z := 0x2.
Definition SRQ_ENA : Z := 0x6.
Definition MULTI_SLAVE_SEL : Z := 0xc.

(** [scub_base[i]], halfwords, and [scub_irq_base[i]], words. *)
Class ScuHardware (H : Type) := {
  scub_read : H -> Z -> Z; scub_write : Z -> Z -> H -> H;
  scub_irq_read : H -> Z -> Z; scub_irq_write : Z -> Z -> H -> H }.

Section firmware.
Context {H : Type} `{ScuHardware H}.

(** The global variables. *)
Record firmware := mk_firmware {
  hw : H; scub : scu_bus; fgs : fg_list; initialized : list Z; old_tmr_cnt : list Z; printed : list print }.

Definition on_hw (g : H -> H) (f : firmware) : firmware :=
  mk_firmware (g (hw f)) (scub f) (fgs f) (initialized f) (old_tmr_cnt f) (printed f).
Definition say (p : print) (f : firmware) : firmware :=
  mk_firmware (hw f) (scub f) (fgs f) (initialized f) (old_tmr_cnt f) (printed f ++ [p]).
Definition put_initialized (l : list Z) (f : firmware) : firmware :=
  mk_firmware (hw f) (scub f) (fgs f) l (old_tmr_cnt f) (printed f).
Definition put_old (l : list Z) (f : firmware) : firmware :=
  mk_firmware (hw f) (scub f) (fgs f) (initialized f) l (printed f).
Definition put_bus (b : scu_bus) (l : fg_list) (f : firmware) : firmware :=
  mk_firmware (hw f) b l (initialized f) (old_tmr_cnt f) (printed f).

(** An element of an array of [int] or [unsigned short]; outside of it: [None]. *)
Definition get_at (l : list Z) (i : Z) : option Z := if i <? 0 then None else l !! Z.to_nat i.
Definition set_at (l : list Z) (i v : Z) : option (list Z) := if i <? 0 then None else array_set l (Z.to_nat i) v.

(** [scub_base[i] |= v], [scub_irq_base[i] |= v] *)
Definition scub_or (i v : Z) (h : H) : H := scub_write i (u16 (scub_read h i .| v)) h.
Definition scub_irq_or (i v : Z) (h : H) : H := scub_irq_write i (u32 (scub_irq_read h i .| v)) h.

(** [global_msi.adr>>2 & 0xf] *)
Definition irq_source (m : msi) : Z := (adr m .>> 2) .& 0xf.

(** * The interrupts of the slaves *)

(** The first interrupt of a slave synchronises its counter. *)
Definition sync_counter (slave_nr tmr_irq_cnts : Z) (f : firmware) : option firmware :=
  i ← get_at (initialized f) (slave_nr - 1);
  if i =? 0 then
    old ← set_at (old_tmr_cnt f) (slave_nr - 1) (u16 (tmr_irq_cnts - 1));
    l ← set_at (initialized f) (slave_nr - 1) 1;
    Some (put_initialized l (say (mprintf (line "init slave: %d with %x") [slave_nr; tmr_irq_cnts - 1]) (put_old old f)))
  else Some f.

Definition timer_irq (slave_nr : Z) (f : firmware) : option firmware :=
  let tmr_irq_cnts := scub_read (hw f) ((slave_nr .<< 16) + TMR_BASE + TMR_IRQ_CNT) in
  f ← sync_counter slave_nr tmr_irq_cnts f;
  old ← get_at (old_tmr_cnt f) (slave_nr - 1);
  if tmr_irq_cnts =? u16 (old + 1) then
    let f := on_hw (scub_or ((slave_nr .<< 16) + SLAVE_INT_ACT) (1 .<< 13)) f in
    l ← set_at (old_tmr_cnt f) (slave_nr - 1) tmr_irq_cnts;
    Some (put_old l f)
  else Some (say (mprintf (line "irq1 slave: %d, old: %x, act: %x") [slave_nr; old; tmr_irq_cnts]) f).

Definition slave_irq_handler (global_msi : msi) (f : firmware) : option firmware :=
  let slave_nr := irq_source global_msi in
  if (slave_nr <? 0) || (MAX_SCU_SLAVES <? slave_nr) then Some (say (mprintf (line "unknown IRQ number.") []) f) else
  let act := (slave_nr .<< 16) + SLAVE_INT_ACT in
  let f :=
    if negb ((scub_read (hw f) act .& 0x1) =? 0)
    then on_hw (scub_or act 0x1) (say (mprintf (line "ack powerup irq in slave %d") [slave_nr]) f)
    else f in
  if negb ((scub_read (hw f) act .& 0x2000) =? 0) then timer_irq slave_nr f else Some f.

(** * Configuration *)

(** The loops over the slaves, [while(scub.slaves[i].unique_id)]. *)
Fixpoint each_slave (fuel i : nat) (step : nat -> scu_slave -> firmware -> option firmware) (f : firmware) : option firmware :=
  s ← slaves (scub f) !! i;
  if unique_id s =? 0 then Some f
  else match fuel with
  | O => None
  | S fuel => f ← step i s f; each_slave fuel (S i) step f
  end.

Definition all_slaves (step : nat -> scu_slave -> firmware -> option firmware) (f : firmware) : option firmware :=
  each_slave (length (slaves (scub f))) 0 step f.

Definition enable_channel (endpoint : Z) (i : Z) (h : H) : H :=
  scub_irq_write 10 (u32 (endpoint + ((i + 1) .<< 2))) (scub_irq_write 9 0x08154711 (scub_irq_write 8 i h)).

(** The counter of a slave needs to be synchronised again; its channel is enabled. *)
Definition resync (s : scu_slave) (f : firmware) : option firmware :=
  l ← set_at (initialized f) (slot s - 1) 0;
  Some (on_hw (scub_irq_or 2 (u32 (1 .<< (slot s - 1)))) (put_initialized l f)).

(** [endpoint] is [getSdbAdr(&lm32_irq_endp[4])]. *)
Definition enable_slave_irqs (endpoint : Z) (f : firmware) : option firmware :=
  let f := on_hw (fun h => fold_left (fun h i => enable_channel endpoint i h) (map Z.of_nat (seq 0 12))
                             (scub_irq_write 0 0x1 (scub_write GLOBAL_IRQ_ENA 0x20 h))) f in
  f ← all_slaves (fun _ => resync) f;
  Some (say (mprintf (line "IRQs for all slave channels enabled.") []) f).

Definition disable_slave_irqs (f : firmware) : firmware :=
  say (mprintf (line "IRQs for all slave channels disabled.") []) (on_hw (scub_irq_write 3 0xfff) f).

Definition configure_slave (tmr_value slot : Z) (h : H) : H :=
  let h := scub_or SRQ_ENA (1 .<< (slot - 1)) h in
  let h := scub_or MULTI_SLAVE_SEL (1 .<< (slot - 1)) h in
  let h := scub_write ((slot .<< 16) + SLAVE_INT_ENA) 0x2000 h in
  let h := scub_write ((slot .<< 16) + TMR_BASE + TMR_CNTRL) 0x1 h in
  let h := scub_write ((slot .<< 16) + TMR_BASE + TMR_VALUEL) (tmr_value .& 0xffff) h in
  scub_write ((slot .<< 16) + TMR_BASE + TMR_VALUEH) (u16 (tmr_value .>> 16)) h.

Definition clear_selection (h : H) : H := scub_write MULTI_SLAVE_SEL 0x0 (scub_write SRQ_ENA 0x0 h).

Definition configure_slaves (tmr_value : Z) (f : firmware) : option firmware :=
  all_slaves (fun i s f =>
      Some (on_hw (configure_slave tmr_value (slot s)) (say (mprintf (line "enable slave[%d] in slot %d") [Z.of_nat i; slot s]) f)))
    (on_hw clear_selection (say (mprintf (line "configuring slaves.") []) f)).

(** The marks on the display are left out. *)
Definition reset_slaves (f : firmware) : option firmware :=
  all_slaves (fun _ s f => Some (on_hw (scub_write ((slot s .<< 16) + TMR_BASE + TMR_CNTRL) 0x1) f))
    (on_hw clear_selection (say (mprintf (line "resetting slaves.") []) f)).

(** The listing of a scan: the slaves with their function generators, and the list of
    the function generators with the slots of their slaves. *)
Definition high_word (x : Z) : Z := s32 (u32 (x .>> 32)).
Definition low_word (x : Z) : Z := s32 (u32 x).

Fixpoint print_fgs (fuel j : nat) (s : scu_slave) (f : firmware) : option firmware :=
  d ← devs s !! j;
  if version d =? 0 then Some f
  else match fuel with
  | O => None
  | S fuel => print_fgs fuel (S j) s (say (mprintf (line "   fg[%d], version 0x%x ") [Z.of_nat j; version d]) f)
  end.

Definition print_slave (i : nat) (s : scu_slave) (f : firmware) : option firmware :=
  let f := say (mprintf (line "slaves[%d] ID:  0x%08x%08x") [Z.of_nat i; high_word (unique_id s); low_word (unique_id s)]) f in
  let f := say (mprintf (line "slv ver: 0x%x cid_sys: %d cid_grp: %d") [slave_version s; cid_sys s; cid_group s]) f in
  let f := say (mprintf (line "slot:        %d") [slot s]) f in
  print_fgs (length (devs s)) 0 s f.

Fixpoint print_list (fuel i : nat) (f : firmware) : option firmware :=
  d ← fgs f !! i;
  match d with
  | None => Some f
  | Some (si, k) =>
    match fuel with
    | O => None
    | S fuel =>
      dev ← (s ← slaves (scub f) !! si; devs s !! k);
      back ← dev_slave dev;
      owner ← slaves (scub f) !! back;
      print_list fuel (S i) (say (mprintf (line "fg[%d] slot: %d ") [Z.of_nat i; slot owner]) f)
    end
  end.

(** [backplane_id] is the identifier the 1-wire bus reported. *)
Definition scan_bus (backplane_id : Z) (f : firmware) : option firmware :=
  '(bus, _) ← scan_scu_bus (scub_read (hw f)) (scub f) backplane_id;
  '(bus, l) ← scan_for_fgs bus (fgs f);
  let f := put_bus bus l f in
  let f := say (mprintf (line "ID: 0x%08x%08x") [high_word (bus_id bus); low_word (bus_id bus)]) f in
  f ← all_slaves print_slave f;
  print_list (length (fgs f)) 0 (say (mprintf (line "FGs found:") []) f).

(** * The interrupts of the host *)

Definition sw_irq_handler (endpoint backplane_id : Z) (global_msi : msi) (f : firmware) : option firmware :=
  match irq_source global_msi with
  | 0 => Some (disable_slave_irqs f)
  | 1 =>
    f ← configure_slaves (msg global_msi) f;
    f ← enable_slave_irqs endpoint f;
    Some (on_hw (scub_write ((0xd .<< 16) + TMR_BASE + TMR_CNTRL) 0x2) f)
  | 2 => scan_bus backplane_id (disable_slave_irqs f)
  | _ => Some (say (mprintf (line "     0x%x") [msg global_msi]) (say (mprintf (line "swi: 0x%x") [adr global_msi]) f))
  end.

(** The table of [init_msi]. *)
Definition isr_table (endpoint backplane_id : Z) : list (option (msi -> firmware -> option firmware)) :=
  <[1%nat := Some slave_irq_handler]> (<[2%nat := Some (sw_irq_handler endpoint backplane_id)]> (repeat None 32)).
Definition init_msi `{IrqHardware H} (f : firmware) : firmware :=
  say (mprintf (line "MSI IRQs configured.") []) (on_hw (fun h => irq_enable (irq_set_mask 0x06 h)) f).

Definition init `{IrqHardware H} (backplane_id : Z) (f : firmware) : option firmware :=
  f ← scan_bus backplane_id f; f ← configure_slaves 0x006ee848 f; Some (init_msi f).
End firmware.
Arguments firmware : clear implicits.

(** * The counters of the timers *)

(** A write to the register of active interrupts acknowledges the timer interrupt of
    the slave when bit 13 is set. *)
Class SlaveTimers (H : Type) {regs : ScuHardware H} := {
  acks : H -> list Z;
  scub_write_acks : forall slot v h, 1 <= slot <= MAX_SCU_SLAVES ->
    acks (scub_write ((slot .<< 16) + SLAVE_INT_ACT) v h) = acks h ++ (if Z.testbit v 13 then [slot] else []) }.

Section timers.
Context {H : Type} {regs : ScuHardware H} {timers : SlaveTimers H}.
Implicit Types f : firmware H.

(** A timer interrupt of a slave: the message, what happened to the registers before
    it is served, the slot and the counter of the slave's interrupts. *)
Record timer_event := mk_event { ev_msi : msi; ev_hw : H -> H; ev_slot : Z; ev_count : Z }.

Record raised (e : timer_event) : Prop := {
  ra_slot : 1 <= ev_slot e <= MAX_SCU_SLAVES;
  ra_count : 0 <= ev_count e < 2 ^ 16;
  ra_source : irq_source (ev_msi e) = ev_slot e;
  ra_acks : forall h, acks (ev_hw e h) = acks h;
  ra_powerup : forall h, Z.testbit (scub_read (ev_hw e h) ((ev_slot e .<< 16) + SLAVE_INT_ACT)) 0 = false;
  ra_timer : forall h, Z.testbit (scub_read (ev_hw e h) ((ev_slot e .<< 16) + SLAVE_INT_ACT)) 13 = true;
  ra_read : forall h, scub_read (ev_hw e h) ((ev_slot e .<< 16) + TMR_BASE + TMR_IRQ_CNT) = ev_count e }.

Fixpoint serve_timers (es : list timer_event) f : option (firmware H) :=
  match es with
  | [] => Some f
  | e :: es => f ← slave_irq_handler (ev_msi e) (on_hw (ev_hw e) f); serve_timers es f
  end.

(** ** Specification: the last count of every slot *)

Definition last_counts : Type := Z -> option Z.
Definition expected (st : last_counts) (s c : Z) : bool :=
  match st s with None => true | Some old => c =? u16 (old + 1) end.
Definition count_seen (st : last_counts) (s c : Z) : last_counts := fun s' => if s' =? s then Some c else st s'.

(** The slots acknowledged: a count that does not follow the last one is a sign of a
    lost interrupt and is left alone. *)
Fixpoint acknowledged (st : last_counts) (es : list (Z * Z)) : list Z :=
  match es with
  | [] => []
  | (s, c) :: es => if expected st s c then s :: acknowledged (count_seen st s c) es else acknowledged st es
  end.

(** Counts that follow each other, after [old] if it is known. *)
Inductive follow : option Z -> list Z -> Prop :=
  | follow_nil o : follow o []
  | follow_first c l : follow (Some c) l -> follow None (c :: l)
  | follow_next old l : follow (Some (u16 (old + 1))) l -> follow (Some old) (u16 (old + 1) :: l).

Definition counts (s : Z) (es : list (Z * Z)) : list Z := omap (fun e => if e.1 =? s then Some e.2 else None) es.

Lemma acknowledged_follow es : forall st, (forall s, follow (st s) (counts s es)) -> acknowledged st es = map fst es.
Proof.
  induction es as [|[s c] es IH]; intros st Hf; [done|]. cbn [acknowledged map fst].
  assert (expected st s c = true /\ follow (Some c) (counts s es)) as [-> Hs].
  { specialize (Hf s). unfold counts in Hf. cbn [omap list_omap fst snd] in Hf. rewrite Z.eqb_refl in Hf. unfold expected.
    inversion Hf as [|c' l Hl|old l Hl]; subst; [done|]. by rewrite Z.eqb_refl. }
  f_equal. apply IH. intros s'. unfold count_seen. destruct (Z.eqb_spec s' s) as [->|Hne]; [done|].
  specialize (Hf s'). unfold counts in Hf. cbn [omap list_omap fst snd] in Hf. by rewrite (proj2 (Z.eqb_neq s s')) in Hf by done.
Qed.

(** ** The handler *)

(** The arrays have a place for every slot. *)
Definition arrays_ok f : Prop := length (initialized f) = 12%nat /\ length (old_tmr_cnt f) = 12%nat.

Definition counts_of f : last_counts := fun s =>
  i ← get_at (initialized f) (s - 1); if i =? 0 then None else get_at (old_tmr_cnt f) (s - 1).

Definition holds_counts f (st : last_counts) : Prop := forall s, 1 <= s <= MAX_SCU_SLAVES -> counts_of f s = st s.

Lemma get_set l i j v : length l = 12%nat -> 0 <= i < 12 -> 0 <= j < 12 ->
  exists l', set_at l i v = Some l' /\ length l' = 12%nat /\ get_at l' j = if j =? i then Some v else get_at l j.
Proof.
  intros Hl Hi Hj. unfold set_at, get_at. rewrite (proj2 (Z.ltb_ge i 0)), (proj2 (Z.ltb_ge j 0)) by lia.
  rewrite array_set_lt by lia. eexists. split; [done|]. split; [by rewrite length_insert|].
  destruct (Z.eqb_spec j i) as [->|Hne]; [apply list_lookup_insert_eq; lia|apply list_lookup_insert_ne; lia].
Qed.

Lemma get_some l i : length l = 12%nat -> 0 <= i < 12 -> exists v, get_at l i = Some v.
Proof. intros Hl Hi. unfold get_at. rewrite (proj2 (Z.ltb_ge i 0)) by lia. apply lookup_lt_is_Some_2. lia. Qed.

(** Synchronising makes the next count the expected one. *)
Lemma sync_spec f st s c : 1 <= s <= MAX_SCU_SLAVES -> 0 <= c < 2 ^ 16 -> arrays_ok f -> holds_counts f st ->
  exists f' old, sync_counter s c f = Some f' /\ hw f' = hw f /\ arrays_ok f' /\
    get_at (old_tmr_cnt f') (s - 1) = Some old /\ (c =? u16 (old + 1)) = expected st s c /\
    (forall i, get_at (initialized f') (s - 1) = Some i -> i <> 0) /\
    (forall s', 1 <= s' <= MAX_SCU_SLAVES -> s' <> s -> counts_of f' s' = st s') /\
    (expected st s c = false -> counts_of f' s = st s).
Proof.
  unfold MAX_SCU_SLAVES in *. intros Hs Hc [Hi Ho] Hst. pose proof (Hst s Hs) as Es. unfold counts_of in Es.
  unfold sync_counter. destruct (get_some (initialized f) (s - 1) Hi ltac:(lia)) as (i & Ei). rewrite Ei in Es |- *. cbn [mbind option_bind] in Es |- *.
  destruct (Z.eqb_spec i 0) as [Hz|Hne].
  - destruct (get_set (old_tmr_cnt f) (s - 1) (s - 1) (u16 (c - 1)) Ho) as (lo & Eo & Hlo & Go); [lia..|]. rewrite Z.eqb_refl in Go.
    destruct (get_set (initialized f) (s - 1) (s - 1) 1 Hi) as (li & El & Hli & Gi); [lia..|]. rewrite Z.eqb_refl in Gi.
    rewrite Eo, El. cbn [mbind option_bind]. eexists _, (u16 (c - 1)). split; [reflexivity|]. cbn.
    split; [done|]. split; [done|]. split; [done|]. unfold expected. rewrite <- Es. split_and!.
    + apply Z.eqb_eq. unfold u16, wrap. rewrite Zplus_mod_idemp_l. replace (c - 1 + 1) with c by lia. by rewrite Z.mod_small.
    + intros k. rewrite Gi. by intros [= <-].
    + intros s' Hs' Hne. rewrite <- (Hst s' Hs'). unfold counts_of. cbn.
      destruct (get_set (initialized f) (s - 1) (s' - 1) 1 Hi) as (li' & El' & _ & Gi'); [lia..|]. rewrite El in El'. injection El' as <-.
      destruct (get_set (old_tmr_cnt f) (s - 1) (s' - 1) (u16 (c - 1)) Ho) as (lo' & Eo' & _ & Go'); [lia..|]. rewrite Eo in Eo'. injection Eo' as <-.
      rewrite Gi', Go'. by rewrite (proj2 (Z.eqb_neq (s' - 1) (s - 1))) by lia.
    + done.
  - destruct (get_some (old_tmr_cnt f) (s - 1) Ho ltac:(lia)) as (old & Eo). rewrite Eo in Es. exists f, old. split_and!; try done.
    + unfold expected. by rewrite <- Es.
    + rewrite Ei. by intros j [= <-].
    + intros s' Hs' _. by apply Hst.
    + intros _. by apply Hst.
Qed.

(** A timer interrupt is acknowledged when its count is the expected one. *)
Lemma timer_step e f st : raised e -> arrays_ok f -> holds_counts f st ->
  exists f', slave_irq_handler (ev_msi e) (on_hw (ev_hw e) f) = Some f' /\ arrays_ok f' /\
    if expected st (ev_slot e) (ev_count e)
    then holds_counts f' (count_seen st (ev_slot e) (ev_count e)) /\ acks (hw f') = acks (hw f) ++ [ev_slot e]
    else holds_counts f' st /\ acks (hw f') = acks (hw f).
Proof.
  intros [Hs Hc Hsrc Hacks Hpow Htmr Hread] Hok Hst. unfold slave_irq_handler. rewrite Hsrc. set (s := ev_slot e) in *. set (c := ev_count e) in *.
  rewrite (proj2 (Z.ltb_ge s 0)), (proj2 (Z.ltb_ge MAX_SCU_SLAVES s)) by lia. cbn [orb].
  rewrite (eq_trans (land_bit _ 0 ltac:(lia)) (Hpow (hw f)) : negb ((scub_read (hw (on_hw (ev_hw e) f)) ((s .<< 16) + SLAVE_INT_ACT) .& 0x1) =? 0) = false).
  rewrite (eq_trans (land_bit _ 13 ltac:(lia)) (Htmr (hw f)) : negb ((scub_read (hw (on_hw (ev_hw e) f)) ((s .<< 16) + SLAVE_INT_ACT) .& 0x2000) =? 0) = true).
  unfold timer_irq. cbn [hw on_hw]. rewrite Hread.
  destruct (sync_spec (on_hw (ev_hw e) f) st s c Hs Hc Hok Hst) as (f1 & old & E1 & Hhw & [Hi1 Ho1] & Eold & Eexp & Hinit & Hoth & Hsame).
  rewrite E1. cbn [mbind option_bind]. rewrite Eold. cbn [mbind option_bind]. rewrite Eexp. destruct (expected st s c).
  - destruct (get_set (old_tmr_cnt f1) (s - 1) (s - 1) c Ho1) as (l & El & Hl & Gl); [unfold MAX_SCU_SLAVES in *; lia..|].
    rewrite Z.eqb_refl in Gl. cbn [old_tmr_cnt on_hw]. rewrite El. cbn [mbind option_bind]. eexists. split; [reflexivity|]. split; [by split|]. split.
    + intros s' Hs'. unfold count_seen, counts_of. cbn. destruct (Z.eqb_spec s' s) as [->|Hne].
      * destruct (get_some (initialized f1) (s - 1) Hi1) as (i & Ei); [unfold MAX_SCU_SLAVES in *; lia|]. rewrite Ei. cbn.
        by rewrite (proj2 (Z.eqb_neq i 0)) by (by apply Hinit).
      * rewrite <- (Hoth s' Hs' Hne). unfold counts_of.
        destruct (get_set (old_tmr_cnt f1) (s - 1) (s' - 1) c Ho1) as (l' & El' & _ & Gl'); [unfold MAX_SCU_SLAVES in *; lia..|].
        rewrite El in El'. injection El' as <-. by rewrite Gl', (proj2 (Z.eqb_neq (s' - 1) (s - 1))) by lia.
    + cbn [hw on_hw put_old]. unfold scub_or. rewrite scub_write_acks by done. rewrite Hhw. cbn [hw on_hw]. rewrite Hacks. f_equal.
      unfold u16, wrap. rewrite Z.mod_pow2_bits_low, Z.lor_spec by lia. change (1 .<< 13) with (2 ^ 13).
      rewrite (Z.pow2_bits_true 13), orb_true_r by lia. reflexivity.
  - eexists. split; [reflexivity|]. split; [by split|]. split; [|cbn [hw say]; rewrite Hhw; apply Hacks].
    intros s' Hs'. change (counts_of f1 s' = st s'). destruct (Z.eq_dec s' s) as [->|]; [by apply Hsame|by apply Hoth].
Qed.

Definition event_counts (es : list timer_event) : list (Z * Z) := map (fun e => (ev_slot e, ev_count e)) es.

(** C38: however the timer interrupts of the slaves are interleaved, the handler acknowledges
    exactly those whose count follows the last one it has seen of that slave, the
    first one after an initialisation included, and it never reaches outside of its
    arrays. So when the counts of every slave follow each other, across the
    wrap-around at 2^16, every interrupt is acknowledged, in the order of arrival. *)
Theorem timer_irqs_tracked (es : list timer_event) (st : last_counts) f (Hes : Forall raised es) (Hok : arrays_ok f) (Hst : holds_counts f st) :
  exists f', serve_timers es f = Some f' /\ arrays_ok f' /\
    acks (hw f') = acks (hw f) ++ acknowledged st (event_counts es) /\
    ((forall s, follow (st s) (counts s (event_counts es))) -> acks (hw f') = acks (hw f) ++ map ev_slot es).
Proof.
  assert (exists f', serve_timers es f = Some f' /\ arrays_ok f' /\ acks (hw f') = acks (hw f) ++ acknowledged st (event_counts es)) as (f' & E & Hok' & Ha).
  { revert st f Hok Hst. induction Hes as [|e es He _ IH]; intros st f Hok Hst; [exists f; cbn; by rewrite app_nil_r|].
    destruct (timer_step e f st He Hok Hst) as (f1 & E1 & Hok1 & H1). cbn [serve_timers event_counts map acknowledged]. rewrite E1. cbn [mbind option_bind].
    destruct (expected st (ev_slot e) (ev_count e)); destruct H1 as [Hst1 Ha1];
      destruct (IH _ f1 Hok1 Hst1) as (f2 & E2 & Hok2 & Ha2); exists f2; (split; [done|]; split; [done|]); rewrite Ha2, Ha1; [by rewrite <- app_assoc|done]. }
  exists f'. split; [done|]. split; [done|]. split; [done|]. intros Hf. rewrite Ha, acknowledged_follow by done. unfold event_counts. by rewrite map_map.
Qed.

(** ** Enabling makes the counters synchronise again *)

(** The list of slaves is ended by an empty identifier, its slots exist. *)
Definition bus_ok (b : scu_bus) : Prop :=
  (length (visible (slaves b)) < length (slaves b))%nat /\ Forall (fun s => 1 <= slot s <= MAX_SCU_SLAVES) (visible (slaves b)).

Definition forget (st : last_counts) (s : scu_slave) : last_counts := fun s' => if slot s =? s' then None else st s'.

Lemma forgotten_spec l : forall st s, fold_left forget l st s = if existsb (fun sl => slot sl =? s) l then None else st s.
Proof.
  induction l as [|sl l IH]; intros st s; [done|]. cbn [fold_left existsb]. rewrite IH. unfold forget.
  destruct (slot sl =? s); cbn [orb]; [by destruct (existsb _ l)|done].
Qed.

Lemma visible_here l i s : drop i l = s :: drop (S i) l -> visible (drop i l) = if unique_id s =? 0 then [] else s :: visible (drop (S i) l).
Proof. intros ->. done. Qed.

(** A loop over the slaves is the fold over those in front of the empty one. *)
Lemma each_slave_fold (step : nat -> scu_slave -> firmware H -> option (firmware H)) (P : list scu_slave -> firmware H -> Prop) :
  (forall i s l f, P (s :: l) f -> exists f', step i s f = Some f' /\ scub f' = scub f /\ P l f') ->
  forall fuel i f, (length (visible (drop i (slaves (scub f)))) < length (drop i (slaves (scub f))))%nat ->
  (length (slaves (scub f)) - i <= fuel)%nat -> P (visible (drop i (slaves (scub f)))) f ->
  exists f', each_slave fuel i step f = Some f' /\ P [] f'.
Proof.
  intros Hstep. induction fuel as [|fuel IH]; intros i f Hend Hfuel HP; [rewrite length_drop in Hend; lia|].
  destruct (slaves (scub f) !! i) as [s|] eqn:Es; [|apply lookup_ge_None_1 in Es; rewrite length_drop in Hend; lia].
  pose proof (visible_here _ i s (drop_S _ _ _ Es)) as Hv. cbn [each_slave]. rewrite Es. cbn [mbind option_bind].
  rewrite Hv in HP, Hend. destruct (unique_id s =? 0); [by exists f|]. cbn [length] in Hend.
  destruct (Hstep i s _ f HP) as (f1 & E1 & Hb & HP1). rewrite E1. cbn [mbind option_bind].
  apply IH; rewrite Hb; [|lia|done]. rewrite length_drop in Hend |- *. lia.
Qed.

Lemma resync_step s st f : 1 <= slot s <= MAX_SCU_SLAVES -> arrays_ok f -> holds_counts f st ->
  exists f', resync s f = Some f' /\ scub f' = scub f /\ arrays_ok f' /\ holds_counts f' (forget st s).
Proof.
  unfold MAX_SCU_SLAVES. intros Hs [Hi Ho] Hst. unfold resync.
  destruct (get_set (initialized f) (slot s - 1) (slot s - 1) 0 Hi) as (li & E & Hl & _); [lia..|]. rewrite E. cbn [mbind option_bind].
  eexists. split; [reflexivity|]. split; [done|]. split; [by split|]. intros s' Hs'. unfold MAX_SCU_SLAVES in Hs'. unfold counts_of, forget. cbn.
  destruct (get_set (initialized f) (slot s - 1) (s' - 1) 0 Hi) as (li' & E' & _ & Gi); [lia..|]. rewrite E in E'. injection E' as <-. rewrite Gi.
  destruct (Z.eqb_spec (slot s) s') as [<-|Hne]; [by rewrite Z.eqb_refl|]. rewrite (proj2 (Z.eqb_neq (s' - 1) (slot s - 1))) by lia.
  by apply Hst.
Qed.

(** Enabling the interrupts succeeds and forgets the counts of the slots found, so that
    the next count of each of them is an expected one. *)
Lemma enable_resyncs endpoint f st : bus_ok (scub f) -> arrays_ok f -> holds_counts f st ->
  exists f', enable_slave_irqs endpoint f = Some f' /\ arrays_ok f' /\
    holds_counts f' (fun s => if existsb (fun sl => slot sl =? s) (visible (slaves (scub f))) then None else st s).
Proof.
  intros [Hend Hslots] Hok Hst. unfold enable_slave_irqs, all_slaves. set (f0 := on_hw _ f).
  destruct (each_slave_fold (fun _ => resync) (fun l f' => arrays_ok f' /\ Forall (fun s => 1 <= slot s <= MAX_SCU_SLAVES) l /\
      exists st', holds_counts f' st' /\ fold_left forget l st' = fold_left forget (visible (slaves (scub f))) st))
    with (fuel := length (slaves (scub f0))) (i := 0%nat) (f := f0) as (f1 & E & Hok1 & _ & st' & Hst' & Est'); cbn [drop].
  - intros _ s l f1 (Hok1 & Hl & st' & Hst' & Est'). apply Forall_cons in Hl as [Hs Hl].
    destruct (resync_step s st' f1 Hs Hok1 Hst') as (f2 & E & Hb & Hok2 & Hst2). exists f2. split; [done|]. split; [done|].
    split; [done|]. split; [done|]. by exists (forget st' s).
  - done.
  - lia.
  - split; [done|]. split; [done|]. by exists st.
  - change (fun _ : nat => resync) with (fun (_ : nat) => @resync H regs) in E. fold (@resync H regs). rewrite E. cbn [mbind option_bind].
    eexists. split; [reflexivity|]. split; [done|]. intros s Hs. rewrite <- forgotten_spec, <- Est'. exact (Hst' s Hs).
Qed.

(** The channel of a slot sends its messages to an address from which the handler
    reads the slot, when the endpoint has its low six bits clear. *)
Lemma channel_source endpoint i m a : 0 <= i < 12 -> 0 <= endpoint < 2 ^ 32 - 64 -> endpoint mod 64 = 0 ->
  irq_source (mk_msi m (u32 (endpoint + ((i + 1) .<< 2))) a) = i + 1.
Proof.
  intros Hi He H64. unfold irq_source. cbn [adr]. rewrite Z.shiftl_mul_pow2, wrap_small, Z.shiftr_div_pow2 by lia.
  change 0xf with (Z.ones 4). rewrite Z.land_ones by lia. change (2 ^ 2) with 4. change (2 ^ 4) with 16.
  assert (endpoint = 64 * (endpoint / 64)) as -> by (pose proof (Z.div_mod endpoint 64 ltac:(lia)); lia).
  replace (64 * (endpoint / 64) + (i + 1) * 4) with ((16 * (endpoint / 64) + (i + 1)) * 4) by lia.
  rewrite Z.div_mul by lia. rewrite Z.add_comm, Z.mul_comm, Z_mod_plus_full. by apply Z.mod_small; lia.
Qed.

(** A source of 0 passes the test of the range, and the arrays are read in front of
    their first element. *)
Lemma source_zero_overruns m f : irq_source m = 0 -> Z.testbit (scub_read (hw f) SLAVE_INT_ACT) 0 = false ->
  Z.testbit (scub_read (hw f) SLAVE_INT_ACT) 13 = true -> slave_irq_handler m f = None.
Proof.
  intros Hs H0 H13. unfold slave_irq_handler. rewrite Hs. change ((0 .<< 16) + SLAVE_INT_ACT) with SLAVE_INT_ACT.
  change ((0 <? 0) || (MAX_SCU_SLAVES <? 0)) with false.
  rewrite (eq_trans (land_bit _ 0 ltac:(lia)) H0 : negb ((scub_read (hw f) SLAVE_INT_ACT .& 0x1) =? 0) = false).
  by rewrite (eq_trans (land_bit _ 13 ltac:(lia)) H13 : negb ((scub_read (hw f) SLAVE_INT_ACT .& 0x2000) =? 0) = true).
Qed.

(** Writing back the register that was read acknowledges everything that is pending: a
    timer interrupt that is pending together with the powerup interrupt is
    acknowledged without its count being looked at, so that the next one seems to
    follow a lost one. *)
Lemma powerup_acks_timer m f : let act := (irq_source m .<< 16) + SLAVE_INT_ACT in 1 <= irq_source m <= MAX_SCU_SLAVES ->
  Z.testbit (scub_read (hw f) act) 0 = true -> Z.testbit (scub_read (hw f) act) 13 = true ->
  Z.testbit (scub_read (scub_or act 0x1 (hw f)) act) 13 = false ->
  exists f', slave_irq_handler m f = Some f' /\ acks (hw f') = acks (hw f) ++ [irq_source m] /\
    old_tmr_cnt f' = old_tmr_cnt f /\ initialized f' = initialized f.
Proof.
  intros act Hs H0 H13 Hcleared. unfold slave_irq_handler. fold act.
  rewrite (proj2 (Z.ltb_ge (irq_source m) 0)), (proj2 (Z.ltb_ge MAX_SCU_SLAVES (irq_source m))) by lia. cbn [orb].
  rewrite (eq_trans (land_bit _ 0 ltac:(lia)) H0 : negb ((scub_read (hw f) act .& 0x1) =? 0) = true).
  set (f1 := on_hw _ _). rewrite (eq_trans (land_bit _ 13 ltac:(lia)) Hcleared : negb ((scub_read (hw f1) act .& 0x2000) =? 0) = false).
  exists f1. split; [done|]. split; [|done]. unfold f1. cbn [hw on_hw say]. unfold scub_or at 1, act. rewrite scub_write_acks by done. f_equal.
  unfold u16, wrap. rewrite Z.mod_pow2_bits_low, Z.lor_spec by lia. fold act. by rewrite H13.
Qed.
End timers.

(** ** Instances *)

Module SimScu.
Record scu := mk_scu { regs : gmap Z Z; irq_regs : gmap Z Z; acked : list Z }.
Definition reg (h : scu) (i : Z) : Z := default 0 (regs h !! i).

(** Writing ones to the register of active interrupts clears them. *)
Definition write (i v : Z) (h : scu) : scu :=
  if (i .& 0xffff) =? SLAVE_INT_ACT then
    mk_scu (<[i := Z.ldiff (reg h i) v]> (regs h)) (irq_regs h) (acked h ++ (if Z.testbit v 13 then [i .>> 16] else []))
  else mk_scu (<[i := v]> (regs h)) (irq_regs h) (acked h).

(** The timer of a slot fires for the [c]th time. *)
Definition fire (s c : Z) (h : scu) : scu :=
  mk_scu (<[(s .<< 16) + SLAVE_INT_ACT := 0x2000]> (<[(s .<< 16) + TMR_BASE + TMR_IRQ_CNT := c]> (regs h))) (irq_regs h) (acked h).
End SimScu.

#[export] Instance sim_scu : ScuHardware SimScu.scu := {
  scub_read := SimScu.reg; scub_write := SimScu.write;
  scub_irq_read h i := default 0 (SimScu.irq_regs h !! i);
  scub_irq_write i v h := SimScu.mk_scu (SimScu.regs h) (<[i := v]> (SimScu.irq_regs h)) (SimScu.acked h) }.

#[export] Program Instance sim_timers : SlaveTimers SimScu.scu := { acks := SimScu.acked }.
Next Obligation.
  intros slot v h Hs. cbn. unfold SimScu.write, MAX_SCU_SLAVES in *.
  assert ((((slot .<< 16) + SLAVE_INT_ACT) .& 0xffff) = SLAVE_INT_ACT /\ ((slot .<< 16) + SLAVE_INT_ACT) .>> 16 = slot) as [-> ->].
  { assert (In slot [1; 2; 3; 4; 5; 6; 7; 8; 9; 10; 11; 12]) as Hin by (cbn; lia).
    cbn in Hin. repeat (destruct Hin as [<-|Hin]; [by split|]). done. }
  done.
Qed.

(** Two slots; the counter of slot 3 wraps around. *)
Definition fired (s c : Z) : timer_event := mk_event (mk_msi 0 (0x200300 + (s .<< 2)) 0) (SimScu.fire s c) s c.
Definition sample_events : list (timer_event (H := SimScu.scu)) := [fired 3 65535; fired 7 100; fired 3 0; fired 7 101; fired 3 1].
Definition sample_firmware : firmware SimScu.scu :=
  mk_firmware (SimScu.mk_scu ∅ ∅ []) (mk_scu_bus 0 []) [] (repeat 0 12) (repeat 0 12) [].

Lemma fired_raised s c : 1 <= s <= MAX_SCU_SLAVES -> 0 <= c < 2 ^ 16 -> raised (fired s c).
Proof.
  intros Hs Hc. assert (forall h, SimScu.reg (SimScu.fire s c h) ((s .<< 16) + SLAVE_INT_ACT) = 0x2000) as Hact.
  { intros h. unfold SimScu.reg, SimScu.fire. cbn [SimScu.regs]. by rewrite lookup_insert_eq. }
  constructor; try done; cbn.
  - unfold MAX_SCU_SLAVES in *. pose proof (channel_source 0x200300 (s - 1) 0 0 ltac:(lia) ltac:(lia) eq_refl) as E.
    replace (s - 1 + 1) with s in E by lia. rewrite wrap_small in E by (rewrite Z.shiftl_mul_pow2 by lia; lia). exact E.
  - intros h. by rewrite Hact.
  - intros h. by rewrite Hact.
  - intros h. unfold SimScu.reg, SimScu.fire. cbn [SimScu.regs]. rewrite lookup_insert_ne, lookup_insert_eq; [done|].
    unfold SLAVE_INT_ACT, TMR_BASE, TMR_IRQ_CNT. lia.
Qed.

Lemma timer_irqs_tracked_witness : exists f, serve_timers sample_events sample_firmware = Some f /\ acks (hw f) = [3; 7; 3; 7; 3].
Proof.
  destruct (timer_irqs_tracked sample_events (fun _ => None) sample_firmware) as (f & E & _ & _ & Hall).
  - unfold sample_events. repeat (apply Forall_cons_2; [apply fired_raised; unfold MAX_SCU_SLAVES; lia|]). constructor.
  - by split.
  - intros s Hs. unfold counts_of. destruct (get_some (initialized sample_firmware) (s - 1) eq_refl) as (i & Ei); [unfold MAX_SCU_SLAVES in *; lia|].
    assert (i = 0) as ->; [|by rewrite Ei]. unfold get_at in Ei. destruct (s - 1 <? 0); [done|].
    apply list_elem_of_lookup_2 in Ei. by apply list_elem_of_In, repeat_spec in Ei.
  - exists f. split; [exact E|]. rewrite Hall; [reflexivity|]. intros s.
    destruct (Z.eq_dec s 3) as [->|H3]; [|destruct (Z.eq_dec s 7) as [->|H7]].
    + change (counts 3 (event_counts sample_events)) with [65535; u16 (65535 + 1); u16 (0 + 1)]. repeat constructor.
    + change (counts 7 (event_counts sample_events)) with [100; u16 (100 + 1)]. repeat constructor.
    + unfold counts, sample_events, event_counts. cbn [map fired ev_slot ev_count omap list_omap fst].
      rewrite (proj2 (Z.eqb_neq 3 s)), (proj2 (Z.eqb_neq 7 s)) by congruence. constructor.
Defined.
