(* ===== verification/Timer.v ===== *)
(** The interrupt timers of the soft CPU: [src/modules/lm32-include/timer.c], and the
    clock of [src/modules/lm32-include/aux.c]. The
    driver only writes and reads registers; what the registers do to the timers is
    documented in [timer.h] and is the interface [TimerBlock]. *)
From stdpp Require Import base list.
From Stdlib Require Import ZArith Lia.
From S2P Require Import Prelude Widths.

(** * timer.h: indices of words *)

Definition tm_rst : Z := 0x00 .>> 2.
Definition tm_armGet : Z := 0x04 .>> 2.
Definition tm_armSet : Z := 0x08 .>> 2.
Definition tm_armClr : Z := 0x0C .>> 2.
Definition tm_srcGet : Z := 0x10 .>> 2.
Definition tm_srcSet : Z := 0x14 .>> 2.
Definition tm_srcClr : Z := 0x18 .>> 2.
Definition tm_cntModeGet : Z := 0x1C .>> 2.
Definition tm_cntModeSet : Z := 0x20 .>> 2.
Definition tm_cntModeClr : Z := 0x24 .>> 2.
Definition tm_cscGet : Z := 0x28 .>> 2.
Definition tm_cscSet : Z := 0x2C .>> 2.
Definition tm_cscClr : Z := 0x30 .>> 2.
Definition tm_cntRst : Z := 0x34 .>> 2.
Definition tm_timerSel : Z := 0x40 .>> 2.
Definition tm_timeHi : Z := 0x44 .>> 2.
Definition tm_timeLo : Z := 0x48 .>> 2.
Definition tm_msg : Z := 0x4C .>> 2.
Definition tm_dstAdr : Z := 0x50 .>> 2.
Definition tm_cscSel : Z := 0x54 .>> 2.
Definition cfg_ABS_TIME : Z := 0.
Definition cfg_PERIODIC : Z := 1.
Definition cfg_NO_CASCADE : Z := u32 (-1).

Record s_timer := mk_s_timer { tm_mode : Z; tm_src : Z; tm_cascade : Z; tm_deadline : Z; tm_msi_dst : Z; tm_msi_msg : Z }.

(** [*(pCpuTimer + i)] *)
Class TimerRegisters (H : Type) := { tm_read : H -> Z -> Z; tm_write : Z -> Z -> H -> H }.

Section timer.
Context {H : Type} `{TimerRegisters H}.

Definition irq_tm_rst (h : H) : H := tm_write tm_rst 1 h.
Definition irq_tm_get_arm (h : H) : Z := tm_read h tm_armGet.
Definition irq_tm_set_arm (val : Z) (h : H) : H := tm_write tm_armSet val h.
Definition irq_tm_clr_arm (val : Z) (h : H) : H := tm_write tm_armClr val h.
Definition irq_tm_get_src (h : H) : Z := tm_read h tm_srcGet.
Definition irq_tm_set_src (val : Z) (h : H) : H := tm_write tm_srcSet val h.
Definition irq_tm_clr_src (val : Z) (h : H) : H := tm_write tm_srcClr val h.
Definition irq_tm_get_cnt_mode (h : H) : Z := tm_read h tm_cntModeGet.
Definition irq_tm_set_cnt_mode (val : Z) (h : H) : H := tm_write tm_cntModeSet val h.
Definition irq_tm_clr_cnt_mode (val : Z) (h : H) : H := tm_write tm_cntModeClr val h.
Definition irq_tm_get_csc (h : H) : Z := tm_read h tm_cscGet.
Definition irq_tm_set_csc (val : Z) (h : H) : H := tm_write tm_cscSet val h.
Definition irq_tm_clr_csc (val : Z) (h : H) : H := tm_write tm_cscClr val h.
Definition irq_tm_cnt_rst (val : Z) (h : H) : H := tm_write tm_cntRst val h.
Definition irq_tm_pCpuTimer_sel (val : Z) (h : H) : H := tm_write tm_timerSel val h.

Definition irq_tm_deadl_set (deadline : Z) (h : H) : H :=
  tm_write tm_timeLo (u32 (deadline .& 0xffffffff)) (tm_write tm_timeHi (u32 (deadline .>> 32)) h).

Definition irq_tm_deadl_get (idx : Z) (h : H) : Z * H :=
  let h := irq_tm_pCpuTimer_sel idx h in
  (u64 (tm_read h tm_timeHi .<< 32) .| tm_read h tm_timeLo, h).

Definition irq_tm_msi_set (dst msg : Z) (h : H) : H := tm_write tm_msg msg (tm_write tm_dstAdr dst h).

(** [sender] is a [char], an unsigned byte on the LM32. *)
Definition irq_tm_cascade (receiver sender : Z) (h : H) : H :=
  if cfg_NO_CASCADE <? sender then irq_tm_clr_csc (u32 (1 .<< receiver)) h
  else tm_write tm_cscSel sender (irq_tm_set_csc (u32 (1 .<< receiver)) h).

Definition irq_tm_start (val : Z) (h : H) : H := irq_tm_set_arm val h.
Definition irq_tm_stop (val : Z) (h : H) : H := irq_tm_clr_arm val h.

Definition irq_tm_trigger_at_time (idx deadline : Z) (h : H) : H :=
  let h := irq_tm_stop (u32 (1 .<< idx)) h in
  let h := irq_tm_clr_src (u32 (1 .<< idx)) h in
  let h := irq_tm_pCpuTimer_sel idx h in
  let h := irq_tm_deadl_set deadline h in
  irq_tm_start (u32 (1 .<< idx)) h.

Definition irq_tm_write_config (idx : Z) (tm : s_timer) (h : H) : H :=
  let h := irq_tm_stop (u32 (1 .<< idx)) h in
  let h := irq_tm_cnt_rst (u32 (1 .<< idx)) h in
  let h := irq_tm_pCpuTimer_sel idx h in
  let h := if tm_src tm =? cfg_ABS_TIME then irq_tm_clr_src (u32 (1 .<< idx)) h else irq_tm_set_src (u32 (1 .<< idx)) h in
  let h := if tm_mode tm =? cfg_PERIODIC then irq_tm_set_cnt_mode (u32 (1 .<< idx)) h else irq_tm_clr_cnt_mode (u32 (1 .<< idx)) h in
  let h := irq_tm_cascade idx (tm_cascade tm) h in
  let h := irq_tm_deadl_set (tm_deadline tm) h in
  irq_tm_msi_set (tm_msi_dst tm) (tm_msi_msg tm) h.
End timer.

(** * The clock and the counters of aux.c *)

(** The two words of [pCpuSysTime]. *)
Definition getSysTime (hi lo : Z) : Z := u64 (hi .<< 32) .| (lo .& 0x00000000ffffffff).

(** [T_SYS] is a macro without parentheses: what is divided is divided twice. *)
Definition F_SYS : Z := 62500000.
Definition per_T_SYS (x : Z) : Z := x / 1000000000 / F_SYS.
Definition uSleep_cycles (uSecs : Z) : Z := u32 (per_T_SYS (u64 (uSecs * 1000))).

Definition getCpuID (pCpuId : Z) : Z := pCpuId.
Definition getCpuIdx (pCpuId : Z) : Z := pCpuId .& 0xff.
Definition getCores (pCluInfo : Z) : Z := pCluInfo .& 0xff.

(** The character and the next value of the static counter. *)
Definition progressWheel (index : Z) : Z * Z := (nth (Z.to_nat (index .& 0x03)) [124; 47; 45; 92] 0, u8 (index + 1)).

Lemma sys_time_joined hi lo : 0 <= hi < 2 ^ 32 -> 0 <= lo < 2 ^ 32 -> getSysTime hi lo = hi * 2 ^ 32 + lo.
Proof.
  intros Hhi Hlo. unfold getSysTime. change 0x00000000ffffffff with (Z.ones 32).
  rewrite Z.land_ones, (Z.mod_small lo), Z.shiftl_mul_pow2, wrap_small by lia. apply lor_join; lia.
Qed.

(** A pause of microseconds lasts no cycle at all, up to almost two years. *)
Lemma no_pause uSecs : 0 <= uSecs < 62500000000000 -> uSleep_cycles uSecs = 0.
Proof.
  intros Hu. unfold uSleep_cycles, per_T_SYS, F_SYS. rewrite (wrap_small 64) by lia.
  rewrite Z.div_div, Z.div_small by lia. done.
Qed.

(** * The timers *)

(** One timer: armed, counter as the source, periodic, cascaded, the two words of the
    deadline, the message and its destination, the timer it cascades from. *)
Record timer_state := mk_timer_state {
  armed : bool; from_counter : bool; periodic : bool; cascaded : bool;
  deadline_hi : Z; deadline_lo : Z; message : Z; destination : Z; sender : Z }.

Definition with_armed b t := mk_timer_state b (from_counter t) (periodic t) (cascaded t) (deadline_hi t) (deadline_lo t) (message t) (destination t) (sender t).
Definition with_source b t := mk_timer_state (armed t) b (periodic t) (cascaded t) (deadline_hi t) (deadline_lo t) (message t) (destination t) (sender t).
Definition with_mode b t := mk_timer_state (armed t) (from_counter t) b (cascaded t) (deadline_hi t) (deadline_lo t) (message t) (destination t) (sender t).
Definition with_cascade b t := mk_timer_state (armed t) (from_counter t) (periodic t) b (deadline_hi t) (deadline_lo t) (message t) (destination t) (sender t).
Definition with_hi v t := mk_timer_state (armed t) (from_counter t) (periodic t) (cascaded t) v (deadline_lo t) (message t) (destination t) (sender t).
Definition with_lo v t := mk_timer_state (armed t) (from_counter t) (periodic t) (cascaded t) (deadline_hi t) v (message t) (destination t) (sender t).
Definition with_message v t := mk_timer_state (armed t) (from_counter t) (periodic t) (cascaded t) (deadline_hi t) (deadline_lo t) v (destination t) (sender t).
Definition with_destination v t := mk_timer_state (armed t) (from_counter t) (periodic t) (cascaded t) (deadline_hi t) (deadline_lo t) (message t) v (sender t).
Definition with_sender v t := mk_timer_state (armed t) (from_counter t) (periodic t) (cascaded t) (deadline_hi t) (deadline_lo t) (message t) (destination t) v.

(** What the registers show: the timers and the number selected. A set or clear
    register acts on the timers whose bit is written, the registers behind the
    selection on the selected timer; the counters are not visible. *)
Definition block : Type := (Z -> timer_state) * Z.
Definition on_bits (v : Z) (g : timer_state -> timer_state) (b : block) : block :=
  ((fun i => if Z.testbit v i then g (b.1 i) else b.1 i), b.2).
Definition on_selected (g : timer_state -> timer_state) (b : block) : block :=
  ((fun i => if i =? b.2 then g (b.1 i) else b.1 i), b.2).

Definition block_write (r v : Z) (b : block) : block :=
  if r =? tm_armSet then on_bits v (with_armed true) b
  else if r =? tm_armClr then on_bits v (with_armed false) b
  else if r =? tm_srcSet then on_bits v (with_source true) b
  else if r =? tm_srcClr then on_bits v (with_source false) b
  else if r =? tm_cntModeSet then on_bits v (with_mode true) b
  else if r =? tm_cntModeClr then on_bits v (with_mode false) b
  else if r =? tm_cscSet then on_bits v (with_cascade true) b
  else if r =? tm_cscClr then on_bits v (with_cascade false) b
  else if r =? tm_timerSel then (b.1, v)
  else if r =? tm_timeHi then on_selected (with_hi v) b
  else if r =? tm_timeLo then on_selected (with_lo v) b
  else if r =? tm_msg then on_selected (with_message v) b
  else if r =? tm_dstAdr then on_selected (with_destination v) b
  else if r =? tm_cscSel then on_selected (with_sender v) b
  else b.

Class TimerBlock (H : Type) {regs : TimerRegisters H} := {
  view : H -> block;
  view_write : forall r v h, r <> tm_rst -> view (tm_write r v h) = block_write r v (view h);
  read_timeHi : forall h, tm_read h tm_timeHi = deadline_hi ((view h).1 (view h).2);
  read_timeLo : forall h, tm_read h tm_timeLo = deadline_lo ((view h).1 (view h).2) }.

Section proofs.
Context {H : Type} {regs : TimerRegisters H} {tb : TimerBlock H}.
Implicit Types h : H.

(** A bit of [1 << idx]. *)
Lemma one_bit idx i : 0 <= idx < 32 -> Z.testbit (u32 (1 .<< idx)) i = (i =? idx).
Proof.
  intros Hi. rewrite Z.shiftl_1_l, wrap_small by (split; [lia|apply Z.pow_lt_mono_r; lia]).
  rewrite Z.pow2_bits_eqb by lia. apply Z.eqb_sym.
Qed.

(** The words of a deadline, joined again. *)
Lemma deadline_joined hi lo : 0 <= hi < 2 ^ 32 -> 0 <= lo < 2 ^ 32 -> u64 (hi .<< 32) .| lo = hi * 2 ^ 32 + lo.
Proof. intros Hhi Hlo. rewrite Z.shiftl_mul_pow2, wrap_small by lia. apply lor_join; lia. Qed.

(** The deadline of a timer is read back, and reading it changes no timer. *)
Lemma deadline_read idx h : let t := (view h).1 idx in 0 <= deadline_hi t < 2 ^ 32 -> 0 <= deadline_lo t < 2 ^ 32 ->
  (irq_tm_deadl_get idx h).1 = deadline_hi t * 2 ^ 32 + deadline_lo t /\ (view (irq_tm_deadl_get idx h).2).1 = (view h).1.
Proof.
  intros t Hhi Hlo. unfold irq_tm_deadl_get, irq_tm_pCpuTimer_sel. cbn [fst snd].
  rewrite read_timeHi, read_timeLo, view_write by done. cbn [fst snd]. split; [by apply deadline_joined|done].
Qed.

(** Writing a deadline and reading it back. *)
Lemma deadline_split d : 0 <= d < 2 ^ 64 ->
  0 <= u32 (d .>> 32) < 2 ^ 32 /\ 0 <= u32 (d .& 0xffffffff) < 2 ^ 32 /\ u32 (d .>> 32) * 2 ^ 32 + u32 (d .& 0xffffffff) = d.
Proof.
  intros Hd. change 0xffffffff with (Z.ones 32). rewrite Z.land_ones, Z.shiftr_div_pow2 by lia.
  pose proof (Z.mod_pos_bound d (2 ^ 32) ltac:(lia)). pose proof (Z.div_mod d (2 ^ 32) ltac:(lia)).
  pose proof (Z.div_lt_upper_bound d (2 ^ 32) (2 ^ 32) ltac:(lia) ltac:(lia)). pose proof (Z.div_pos d (2 ^ 32) ltac:(lia) ltac:(lia)).
  rewrite !wrap_small by lia. lia.
Qed.

(** The timers after a configuration. *)
Definition configured (idx : Z) (tm : s_timer) : timer_state :=
  mk_timer_state true (negb (tm_src tm =? cfg_ABS_TIME)) (tm_mode tm =? cfg_PERIODIC) true
    (u32 (tm_deadline tm .>> 32)) (u32 (tm_deadline tm .& 0xffffffff)) (tm_msi_msg tm) (tm_msi_dst tm) (tm_cascade tm).

(** The registers the driver writes, by name. *)
Ltac by_law := intros; by rewrite view_write.
Lemma write_armSet v h : view (tm_write tm_armSet v h) = on_bits v (with_armed true) (view h). Proof. by_law. Qed.
Lemma write_armClr v h : view (tm_write tm_armClr v h) = on_bits v (with_armed false) (view h). Proof. by_law. Qed.
Lemma write_srcSet v h : view (tm_write tm_srcSet v h) = on_bits v (with_source true) (view h). Proof. by_law. Qed.
Lemma write_srcClr v h : view (tm_write tm_srcClr v h) = on_bits v (with_source false) (view h). Proof. by_law. Qed.
Lemma write_cntModeSet v h : view (tm_write tm_cntModeSet v h) = on_bits v (with_mode true) (view h). Proof. by_law. Qed.
Lemma write_cntModeClr v h : view (tm_write tm_cntModeClr v h) = on_bits v (with_mode false) (view h). Proof. by_law. Qed.
Lemma write_cscSet v h : view (tm_write tm_cscSet v h) = on_bits v (with_cascade true) (view h). Proof. by_law. Qed.
Lemma write_cntRst v h : view (tm_write tm_cntRst v h) = view h. Proof. by_law. Qed.
Lemma write_timerSel v h : view (tm_write tm_timerSel v h) = ((view h).1, v). Proof. by_law. Qed.
Lemma write_timeHi v h : view (tm_write tm_timeHi v h) = on_selected (with_hi v) (view h). Proof. by_law. Qed.
Lemma write_timeLo v h : view (tm_write tm_timeLo v h) = on_selected (with_lo v) (view h). Proof. by_law. Qed.
Lemma write_msg v h : view (tm_write tm_msg v h) = on_selected (with_message v) (view h). Proof. by_law. Qed.
Lemma write_dstAdr v h : view (tm_write tm_dstAdr v h) = on_selected (with_destination v) (view h). Proof. by_law. Qed.
Lemma write_cscSel v h : view (tm_write tm_cscSel v h) = on_selected (with_sender v) (view h). Proof. by_law. Qed.
Create Rewrite HintDb timer.
Hint Rewrite write_armSet write_armClr write_srcSet write_srcClr write_cntModeSet write_cntModeClr write_cscSet write_cntRst
  write_timerSel write_timeHi write_timeLo write_msg write_dstAdr write_cscSel : timer.

(** A [char] is never above [-1] taken as an [unsigned int]. *)
Lemma always_cascaded receiver sender h : 0 <= sender < 2 ^ 8 ->
  irq_tm_cascade receiver sender h = tm_write tm_cscSel sender (irq_tm_set_csc (u32 (1 .<< receiver)) h).
Proof. intros Hs. unfold irq_tm_cascade. by rewrite (proj2 (Z.ltb_ge cfg_NO_CASCADE sender)) by (change cfg_NO_CASCADE with 4294967295; lia). Qed.

Lemma write_config_view idx tm h i : 0 <= idx < 32 -> 0 <= tm_cascade tm < 2 ^ 8 ->
  (view (irq_tm_start (u32 (1 .<< idx)) (irq_tm_write_config idx tm h))).1 i = if i =? idx then configured idx tm else (view h).1 i.
Proof.
  intros Hi Hc. unfold irq_tm_start, irq_tm_write_config, configured. rewrite always_cascaded by done.
  unfold irq_tm_msi_set, irq_tm_deadl_set, irq_tm_stop, irq_tm_set_arm, irq_tm_clr_arm, irq_tm_cnt_rst, irq_tm_pCpuTimer_sel,
    irq_tm_clr_src, irq_tm_set_src, irq_tm_set_cnt_mode, irq_tm_clr_cnt_mode, irq_tm_set_csc.
  destruct (tm_src tm =? cfg_ABS_TIME), (tm_mode tm =? cfg_PERIODIC); autorewrite with timer;
    cbn [on_bits on_selected fst snd]; rewrite !one_bit by done; by destruct (Z.eqb_spec i idx) as [->|].
Qed.

(** Configuring and starting timer [idx] leaves it armed with the source, the mode,
    the deadline, the message and the destination of the record, whatever it held
    before; its deadline is read back; all other timers stay as they were. It always
    starts cascaded, from the timer named in the record, also when that says that
    there is none. *)
Theorem timer_configured (idx : Z) (tm : s_timer) h (Hidx : 0 <= idx < 32) (Hcascade : 0 <= tm_cascade tm < 2 ^ 8)
    (Hdeadline : 0 <= tm_deadline tm < 2 ^ 64) :
  let h' := irq_tm_start (u32 (1 .<< idx)) (irq_tm_write_config idx tm h) in
  (forall i, (view h').1 i = if i =? idx then configured idx tm else (view h).1 i) /\
  (irq_tm_deadl_get idx h').1 = tm_deadline tm.
Proof.
  intros h'. assert (forall i, (view h').1 i = if i =? idx then configured idx tm else (view h).1 i) as Hv by (intros i; by apply write_config_view).
  split; [exact Hv|]. pose proof (deadline_read idx h') as Hr. cbv zeta in Hr. rewrite Hv, Z.eqb_refl in Hr.
  destruct (deadline_split (tm_deadline tm) Hdeadline) as (Hhi & Hlo & E). destruct (Hr Hhi Hlo) as [-> _]. exact E.
Qed.

(** Restarting a timer changes its deadline and its source, nothing else of it and no
    other timer. *)
Lemma trigger_at_time_view idx d h i : 0 <= idx < 32 ->
  (view (irq_tm_trigger_at_time idx d h)).1 i =
  if i =? idx then with_armed true (with_source false (with_hi (u32 (d .>> 32)) (with_lo (u32 (d .& 0xffffffff)) ((view h).1 i)))) else (view h).1 i.
Proof.
  intros Hi. unfold irq_tm_trigger_at_time, irq_tm_start, irq_tm_stop, irq_tm_deadl_set, irq_tm_set_arm, irq_tm_clr_arm, irq_tm_pCpuTimer_sel, irq_tm_clr_src.
  autorewrite with timer. cbn [on_bits on_selected fst snd]. rewrite !one_bit by done. by destruct (Z.eqb_spec i idx) as [->|].
Qed.
End proofs.

(** ** Instance *)

#[export] Instance sim_timer_registers : TimerRegisters block := {
  tm_read b r := if r =? tm_timeHi then deadline_hi (b.1 b.2) else if r =? tm_timeLo then deadline_lo (b.1 b.2) else 0;
  tm_write := block_write }.
#[export] Program Instance sim_timer_block : TimerBlock block := { view b := b }.
Solve All Obligations with done.

Definition idle_timer : timer_state := mk_timer_state false false false false 0 0 0 0 0.
Definition periodic_timer : s_timer := mk_s_timer 1 1 0 (2 ^ 40 + 5) 7 8.

Lemma timer_configured_witness :
  let b : block := irq_tm_start (u32 (1 .<< 3)) (irq_tm_write_config 3 periodic_timer (fun _ => idle_timer, 0)) in
  b.1 3 = mk_timer_state true true true true 256 5 8 7 0 /\ b.1 2 = idle_timer /\ (irq_tm_deadl_get 3 b).1 = 2 ^ 40 + 5.
Proof.
  intros b. destruct (timer_configured (H := block) 3 periodic_timer (fun _ => idle_timer, 0)) as [Hv Hd]; [lia|cbn; lia|cbn; lia|].
  split; [exact (Hv 3)|]. split; [exact (Hv 2)|exact Hd].
Defined.
