(* ===== verification/Display.v ===== *)
(** The display of the soft CPU: [src/modules/lm32-include/display.c] and the older
    driver of the demonstration, [src/modules/oled_display/dispdemo/display.c]. They
    differ in the addresses of the registers and in nothing else, which is the
    parameter [layout]. The console behind the registers is hardware; it is the
    interface [Console], after the register map of [wb_console.vhd]. *)
From stdpp Require Import base list gmap.
From Stdlib Require Import ZArith Lia.
From S2P Require Import Prelude Widths.

(** * The drivers *)

Definition mode_IDLE : Z := 0x00.
Definition mode_UART : Z := 0x01.
Definition mode_CHAR : Z := 0x02.
Definition mode_RAW : Z := 0x03.
Definition ROW_LEN : nat := 11.

(** What the functions add to the base address, in words; [r_character] is shifted by
    two only after the place of a character was added to it. *)
Record layout := mk_layout { r_rst : Z; r_mode : Z; r_uart : Z; r_character : Z; r_raw : Z; addr_base : Z }.

Definition r_oledDisp : layout := mk_layout (0x04 .>> 2) (0x00 .>> 2) (0x00010000 .>> 2) (0x00020000 .>> 2) (0x00020000 .>> 2) 0x230.
Definition demo_display : layout := mk_layout 0x00000004 (0x00000000 .>> 2) (0x00010000 .>> 2) 0x00020000 (0x00030000 .>> 2) 0x223.

(** [*(pOledDisplay + i)] *)
Class OledRegisters (H : Type) := { oled_read : H -> Z -> Z; oled_write : Z -> Z -> H -> H }.

Section display.
Context {H : Type} `{OledRegisters H} (L : layout).

Definition disp_reset (h : H) : H := oled_write (r_rst L) 1 h.

Definition disp_put_c (ascii : Z) (h : H) : H := oled_write (r_uart L) ascii (oled_write (r_mode L) mode_UART h).

(** A string is the bytes of memory from the pointer on. *)
Fixpoint put_chars (sPtr : list Z) (h : H) : option H :=
  match sPtr with
  | [] => None
  | c :: s => if c =? 0 then Some h else put_chars s (oled_write (r_uart L) c h)
  end.
Definition disp_put_str (sPtr : list Z) (h : H) : option H := put_chars sPtr (oled_write (r_mode L) mode_UART h).

Definition disp_loc_c (ascii row col : Z) (h : H) : H :=
  let h := oled_write (r_mode L) mode_CHAR h in
  let rowcol := ((0x07 .& row) .<< 6) + ((0x0f .& col) .<< 2) in
  oled_write ((r_character L + rowcol) .>> 2) ascii h.

(** Every column reads the string, also behind its end. *)
Fixpoint line_loop (n : nat) (sPtr : list Z) (row col : Z) (pad : bool) (h : H) : option H :=
  match n with
  | O => Some h
  | S n =>
    match sPtr with
    | [] => None
    | c :: s =>
      let pad := pad || (c =? 0) in
      let outp := if pad then 32 else c in
      line_loop n s row (col + 1) pad (disp_loc_c outp row col h)
    end
  end.
Definition disp_put_line (sPtr : list Z) (row : Z) (h : H) : option H := line_loop ROW_LEN sPtr row 0 false h.

Definition disp_put_raw (pixcol address color : Z) (h : H) : H :=
  let h := oled_write (r_mode L) mode_RAW h in
  let i := r_raw L + (address .& 0x3FFF) in
  let oldpixcol := u8 (oled_read h i) in
  let h := if negb (color =? 0) then oled_write i (pixcol .| oldpixcol) h else oled_write i (Z.lnot pixcol .& oldpixcol) h in
  oled_write (r_mode L) mode_IDLE h.

Definition get_pixcol_addr (x_in y_in : Z) : Z :=
  let x := x_in .& 0x3F in
  let y := if y_in <? 48 then (y_in .>> 3) .<< 8 else 5 .<< 8 in
  addr_base L + y + x.

Definition get_pixcol_val (y_in : Z) : Z := 1 .<< (y_in .& 0x07).
End display.

(** * The console *)

(** The four areas of its addresses, and the place of a character in the third. *)
Definition area (i : Z) : Z := (i / 2 ^ 14) mod 4.
Definition cell_row (i : Z) : Z := (i / 2 ^ 4) mod 8.
Definition cell_col (i : Z) : Z := i mod 16.
Definition ram_addr (i : Z) : Z := i mod 2 ^ 11.

Class Console (H : Type) {regs : OledRegisters H} := {
  con_mode : H -> Z; typed : H -> list Z; cell : H -> Z -> Z -> Z; ram : H -> Z -> Z;
  con_write_mode : forall v h, con_mode (oled_write 0 v h) = v mod 4;
  con_write_control : forall i v h, area i = 0 -> i mod 2 ^ 14 <> 1 ->
    typed (oled_write i v h) = typed h /\ cell (oled_write i v h) = cell h /\ ram (oled_write i v h) = ram h;
  con_write_uart : forall i v h, area i = 1 -> i mod 2 ^ 14 = 0 -> con_mode h = mode_UART ->
    typed (oled_write i v h) = typed h ++ [u8 v] /\ con_mode (oled_write i v h) = mode_UART;
  con_write_char : forall i v h r c, area i = 2 -> cell_col i < 11 -> con_mode h = mode_CHAR ->
    cell (oled_write i v h) r c = (if (r =? cell_row i) && (c =? cell_col i) then u8 v else cell h r c) /\
    ram (oled_write i v h) = ram h;
  con_write_other : forall i v h, area i = 2 -> con_mode h = mode_RAW -> ram (oled_write i v h) = ram h;
  con_write_raw : forall i v h a, area i = 3 -> con_mode h = mode_RAW ->
    ram (oled_write i v h) a = if a =? ram_addr i then u8 v else ram h a;
  con_read_raw : forall i h, area i = 3 -> u8 (oled_read h i) = ram h (ram_addr i) }.

Section console.
Context {H : Type} {regs : OledRegisters H} {con : Console H}.
Implicit Types h : H.

(** ** Text *)

Lemma div_to a b q r : 0 <= r < b -> a = b * q + r -> a / b = q.
Proof. intros Hr ->. rewrite Z.mul_comm, Z.div_add_l, Z.div_small by lia. lia. Qed.

Lemma loc_c_index base row col : 0 <= row < 8 -> 0 <= col < 16 ->
  (base + (((0x07 .& row) .<< 6) + ((0x0f .& col) .<< 2))) .>> 2 = (base + row * 64 + col * 4) / 4.
Proof.
  intros Hr Hc. rewrite (Z.land_comm 0x07), (Z.land_comm 0x0f). change 0x07 with (Z.ones 3). change 0x0f with (Z.ones 4).
  rewrite !Z.land_ones, !Z.shiftl_mul_pow2, Z.shiftr_div_pow2, !Z.mod_small by lia. f_equal. lia.
Qed.

(** A character is shown at its place by the demonstration's driver, and nowhere by
    the library's: its base address is shifted once more. *)
Lemma loc_c_shown ascii row col h r c : 0 <= row < 8 -> 0 <= col < 11 ->
  cell (disp_loc_c demo_display ascii row col h) r c = if (r =? row) && (c =? col) then u8 ascii else cell h r c.
Proof.
  intros Hr Hc. unfold disp_loc_c. cbn [r_character r_mode demo_display]. rewrite loc_c_index by lia.
  rewrite (div_to (0x20000 + row * 64 + col * 4) 4 (0x8000 + row * 16 + col) 0) by lia.
  assert (con_mode (oled_write (0 .>> 2) mode_CHAR h) = mode_CHAR) as Hm by apply con_write_mode.
  assert (area (0x8000 + row * 16 + col) = 2) as Ha.
  { unfold area. rewrite (div_to _ _ 2 (row * 16 + col)) by lia. done. }
  assert (cell_row (0x8000 + row * 16 + col) = row) as Er.
  { unfold cell_row. rewrite (div_to _ _ (row + 256 * 8) col) by lia.
    rewrite Z.mod_add, Z.mod_small; lia. }
  assert (cell_col (0x8000 + row * 16 + col) = col) as Ec.
  { unfold cell_col. symmetry. apply (Z.mod_unique _ _ (0x800 + row)); lia. }
  destruct (con_write_char (0x8000 + row * 16 + col) ascii _ r c Ha ltac:(lia) Hm) as [-> _]. rewrite Er, Ec.
  by destruct (con_write_control (0 .>> 2) mode_CHAR h eq_refl ltac:(done)) as (_ & -> & _).
Qed.

Lemma loc_c_lost ascii row col h : 0 <= row < 8 -> 0 <= col < 11 -> cell (disp_loc_c r_oledDisp ascii row col h) = cell h.
Proof.
  intros Hr Hc. unfold disp_loc_c. cbn [r_character r_mode r_oledDisp]. rewrite loc_c_index by lia.
  change (0x20000 .>> 2) with 0x8000.
  rewrite (div_to (0x8000 + row * 64 + col * 4) 4 (0x2000 + row * 16 + col) 0) by lia.
  destruct (con_write_control (0x2000 + row * 16 + col) ascii (oled_write (0 .>> 2) mode_CHAR h)) as (_ & -> & _).
  - unfold area. rewrite (div_to _ _ 0 (0x2000 + row * 16 + col)) by lia. done.
  - rewrite Z.mod_small; lia.
  - by destruct (con_write_control (0 .>> 2) mode_CHAR h eq_refl ltac:(done)) as (_ & -> & _).
Qed.

(** The columns a text fills: it ends at its first NUL, the rest is blank. *)
Fixpoint columns (pad : bool) (s : list Z) : list Z :=
  match s with
  | [] => []
  | c :: s => let pad := pad || (c =? 0) in (if pad then 32 else u8 c) :: columns pad s
  end.

Lemma line_loop_shown row : 0 <= row < 8 -> forall n s col pad h, (n <= length s)%nat -> 0 <= col -> col + Z.of_nat n <= 11 ->
  exists h', line_loop demo_display n s row col pad h = Some h' /\
    forall r c, cell h' r c = if (r =? row) && (col <=? c) && (c <? col + Z.of_nat n)
                              then nth (Z.to_nat (c - col)) (columns pad s) 0 else cell h r c.
Proof.
  intros Hr. induction n as [|n IH]; intros s col pad h Hs H0 Hn.
  { exists h. split; [done|]. intros r c. destruct (Z.leb_spec col c), (Z.ltb_spec c (col + Z.of_nat 0)); try lia; by rewrite ?andb_false_r. }
  destruct s as [|x s]; cbn [length] in Hs; [lia|]. cbn [line_loop columns]. set (pad' := pad || (x =? 0)).
  destruct (IH s (col + 1) pad' (disp_loc_c demo_display (if pad' then 32 else x) row col h)) as (h' & E & Hc); [lia..|].
  exists h'. split; [exact E|]. intros r c. rewrite Hc, loc_c_shown by lia.
  destruct (Z.eqb_spec r row) as [->|Hne]; cbn [andb]; [|done].
  destruct (Z.eqb_spec c col) as [->|Hcc].
  - rewrite (proj2 (Z.leb_gt (col + 1) col)), (proj2 (Z.leb_le col col)), (proj2 (Z.ltb_lt col (col + Z.of_nat (S n)))) by lia. cbn [andb].
    rewrite Z.sub_diag. cbn [Z.to_nat nth]. by destruct pad'.
  - replace (c <? col + 1 + Z.of_nat n) with (c <? col + Z.of_nat (S n)) by (f_equal; lia).
    destruct (Z.leb_spec (col + 1) c).
    + rewrite (proj2 (Z.leb_le col c)) by lia. destruct (c <? _); cbn [andb]; [|done].
      replace (Z.to_nat (c - col)) with (S (Z.to_nat (c - (col + 1)))) by lia. done.
    + rewrite (proj2 (Z.leb_gt col c)) by lia. done.
Qed.

(** A line is shown on its row, padded with blanks, and no other row changes; the
    eleven bytes from the pointer on must be there. *)
Lemma put_line_shown s row h : 0 <= row < 8 -> (ROW_LEN <= length s)%nat ->
  exists h', disp_put_line demo_display s row h = Some h' /\
    forall r c, 0 <= c < 11 -> cell h' r c = if r =? row then nth (Z.to_nat c) (columns false s) 0 else cell h r c.
Proof.
  intros Hr Hs. destruct (line_loop_shown row Hr ROW_LEN s 0 false h) as (h' & E & Hc); [done|lia|unfold ROW_LEN; lia|].
  exists h'. split; [exact E|]. intros r c Hcol. rewrite Hc, Z.sub_0_r, (proj2 (Z.leb_le 0 c)), (proj2 (Z.ltb_lt c (0 + Z.of_nat ROW_LEN))) by (unfold ROW_LEN; lia).
  by rewrite !andb_true_r.
Qed.

Lemma put_line_overread s row h : (length s < ROW_LEN)%nat -> disp_put_line demo_display s row h = None.
Proof.
  unfold disp_put_line. generalize 0 as col, false as pad, ROW_LEN as n. intros col pad n. revert n col pad h.
  induction s as [|c s IH]; intros n col pad h; destruct n as [|n]; cbn [length]; intros; [lia|done|lia|]. cbn [line_loop]. apply IH. lia.
Qed.

Lemma line_loop_lost row : 0 <= row < 8 -> forall n s col pad h h', 0 <= col -> col + Z.of_nat n <= 11 ->
  line_loop r_oledDisp n s row col pad h = Some h' -> cell h' = cell h.
Proof.
  intros Hr. induction n as [|n IH]; intros s col pad h h' H0 Hn; cbn [line_loop]; [by intros [= ->]|].
  destruct s as [|c s]; [done|]. intros E. apply IH in E; [|lia..]. rewrite E. apply loc_c_lost; lia.
Qed.

(** The library's driver shows nothing. *)
Lemma put_line_lost s row h h' : 0 <= row < 8 -> disp_put_line r_oledDisp s row h = Some h' -> cell h' = cell h.
Proof. intros Hr. by apply line_loop_lost. Qed.

(** Characters and strings are typed on the console. *)
Lemma put_str_typed L s h rest : r_mode L = 0 -> area (r_uart L) = 1 -> r_uart L mod 2 ^ 14 = 0 -> Forall (fun c => 1 <= c < 256) s ->
  exists h', disp_put_str L (s ++ 0 :: rest) h = Some h' /\ typed h' = typed h ++ s.
Proof.
  intros Hmode Ha Hu Hs. unfold disp_put_str. rewrite Hmode.
  assert (con_mode (oled_write 0 mode_UART h) = mode_UART) as Hm by apply con_write_mode.
  destruct (con_write_control 0 mode_UART h eq_refl ltac:(done)) as (<- & _ & _). revert Hm. generalize (oled_write 0 mode_UART h) as h0.
  induction Hs as [|c s Hc _ IH]; intros h0 Hm; cbn [app put_chars]; [exists h0; by rewrite app_nil_r|].
  rewrite (proj2 (Z.eqb_neq c 0)) by lia. destruct (con_write_uart (r_uart L) c h0 Ha Hu Hm) as [Et Hm'].
  destruct (IH _ Hm') as (h' & E & Et'). exists h'. split; [exact E|]. rewrite Et', Et, <- app_assoc. by rewrite (wrap_small 8 c) by lia.
Qed.

(** ** Pixels *)

Definition pixel (L : layout) h (x y : Z) : bool := Z.testbit (ram h (get_pixcol_addr L x y)) (y mod 8).

Lemma pixcol_addr L x y : 0 <= x < 64 -> 0 <= y < 48 -> get_pixcol_addr L x y = addr_base L + y / 8 * 256 + x.
Proof.
  intros Hx Hy. unfold get_pixcol_addr. rewrite (proj2 (Z.ltb_lt y 48)) by lia. change 0x3F with (Z.ones 6).
  rewrite Z.land_ones, Z.shiftr_div_pow2, Z.shiftl_mul_pow2, Z.mod_small by lia. done.
Qed.

Lemma pixcol_val y : get_pixcol_val y = 2 ^ (y mod 8).
Proof. unfold get_pixcol_val. change 0x07 with (Z.ones 3). rewrite Z.land_ones, Z.shiftl_1_l by lia. done. Qed.

(** The two words written: the byte of display memory with one bit set or cleared. *)
Lemma column_bit color old k j : 0 <= k < 8 -> 0 <= j < 8 ->
  Z.testbit (u8 (if negb (color =? 0) then 2 ^ k .| old else Z.lnot (2 ^ k) .& old)) j =
  if j =? k then negb (color =? 0) && true || (negb (color =? 0) && Z.testbit old j) else Z.testbit old j.
Proof.
  intros Hk Hj. unfold u8, wrap. rewrite Z.mod_pow2_bits_low by lia.
  destruct (color =? 0); cbn [negb andb]; rewrite ?Z.lor_spec, ?Z.land_spec, ?Z.lnot_spec, Z.pow2_bits_eqb by lia;
    rewrite (Z.eqb_sym k j); destruct (j =? k); cbn; by rewrite ?andb_true_r, ?orb_true_r, ?orb_false_r.
Qed.

(** The byte of display memory [disp_put_raw] changes, with the demonstration's driver
    and with the library's, which reaches the area of the characters. *)
Lemma put_raw_ram pixcol a color h a' : 0 <= a < 2 ^ 11 ->
  ram (disp_put_raw demo_display pixcol a color h) a' =
  if a' =? a then u8 (if negb (color =? 0) then pixcol .| ram h a else Z.lnot pixcol .& ram h a) else ram h a'.
Proof.
  intros Ha. unfold disp_put_raw. cbn [r_raw r_mode demo_display].
  change (0 .>> 2) with 0. change (0x30000 .>> 2) with 0xC000. change 0x3FFF with (Z.ones 14). rewrite Z.land_ones, (Z.mod_small a) by lia.
  assert (area (0xC000 + a) = 3) as Har by (unfold area; by rewrite (div_to _ _ 3 a) by lia).
  assert (ram_addr (0xC000 + a) = a) as Era.
  { unfold ram_addr. replace (0xC000 + a) with (a + 24 * 2 ^ 11) by lia. rewrite Z.mod_add, Z.mod_small by lia. done. }
  set (h1 := oled_write 0 mode_RAW h). assert (con_mode h1 = mode_RAW) as Hm by apply con_write_mode.
  assert (ram h1 = ram h) as Eh by (unfold h1; by destruct (con_write_control 0 mode_RAW h eq_refl ltac:(done)) as (_ & _ & ->)).
  rewrite con_read_raw, Era, Eh by done.
  match goal with |- context [oled_write 0 mode_IDLE ?g] => destruct (con_write_control 0 mode_IDLE g eq_refl ltac:(done)) as (_ & _ & ->) end.
  destruct (negb (color =? 0)); by rewrite con_write_raw, Era, Eh by done.
Qed.

Lemma put_raw_lost pixcol a color h : 0 <= a < 2 ^ 11 -> ram (disp_put_raw r_oledDisp pixcol a color h) = ram h.
Proof.
  intros Ha. unfold disp_put_raw. cbn [r_raw r_mode r_oledDisp].
  change (0x00 .>> 2) with 0. change (0x20000 .>> 2) with 0x8000. change 0x3FFF with (Z.ones 14). rewrite Z.land_ones, (Z.mod_small a) by lia.
  assert (area (0x8000 + a) = 2) as Har by (unfold area; by rewrite (div_to _ _ 2 a) by lia).
  match goal with |- context [oled_write 0 mode_IDLE ?g] => destruct (con_write_control 0 mode_IDLE g eq_refl ltac:(done)) as (_ & _ & ->) end.
  destruct (con_write_control 0 mode_RAW h eq_refl ltac:(done)) as (_ & _ & <-).
  destruct (negb (color =? 0)); apply con_write_other; done || apply con_write_mode.
Qed.

(** A pixel is set or cleared by the demonstration's driver, and no other. *)
Lemma pixel_drawn x y color h x' y' : 0 <= x < 64 -> 0 <= y < 48 -> 0 <= x' < 64 -> 0 <= y' < 48 ->
  pixel demo_display (disp_put_raw demo_display (get_pixcol_val y) (get_pixcol_addr demo_display x y) color h) x' y' =
  if (x' =? x) && (y' =? y) then negb (color =? 0) else pixel demo_display h x' y'.
Proof.
  intros Hx Hy Hx' Hy'. unfold pixel. rewrite !pixcol_addr, pixcol_val by done. cbn [addr_base demo_display].
  pose proof (Z.mod_pos_bound y 8 ltac:(lia)). pose proof (Z.mod_pos_bound y' 8 ltac:(lia)).
  pose proof (Z.div_mod y 8 ltac:(lia)). pose proof (Z.div_mod y' 8 ltac:(lia)).
  rewrite put_raw_ram by lia. set (a := 0x223 + y / 8 * 256 + x). set (a' := 0x223 + y' / 8 * 256 + x').
  destruct (Z.eqb_spec a' a) as [Ea|Ea].
  - assert (y' / 8 = y / 8 /\ x' = x) as [Eq ->] by lia. rewrite column_bit by lia. rewrite Z.eqb_refl, <- Ea. cbn [andb].
    destruct (Z.eqb_spec (y' mod 8) (y mod 8)) as [Em|Em].
    + rewrite (proj2 (Z.eqb_eq y' y)) by lia. by destruct (color =? 0).
    + rewrite (proj2 (Z.eqb_neq y' y)) by congruence. done.
  - destruct (Z.eqb_spec x' x) as [->|]; cbn [andb]; [|done]. destruct (Z.eqb_spec y' y) as [->|]; [|done]. by destruct Ea.
Qed.
End console.

(** ** Instance *)

Module SimConsole.
Record console := mk_console { sim_mode : Z; sim_typed : list Z; sim_cell : Z -> Z -> Z; sim_ram : Z -> Z }.

Definition write (i v : Z) (h : console) : console :=
  if area i =? 0 then mk_console (if i =? 0 then v mod 4 else sim_mode h) (sim_typed h) (sim_cell h) (sim_ram h)
  else if area i =? 1 then mk_console (sim_mode h) (sim_typed h ++ [u8 v]) (sim_cell h) (sim_ram h)
  else if area i =? 2 then
    mk_console (sim_mode h) (sim_typed h) (fun r c => if (r =? cell_row i) && (c =? cell_col i) then u8 v else sim_cell h r c) (sim_ram h)
  else mk_console (sim_mode h) (sim_typed h) (sim_cell h) (fun a => if a =? ram_addr i then u8 v else sim_ram h a).
Definition read (h : console) (i : Z) : Z := if area i =? 3 then u8 (sim_ram h (ram_addr i)) else 0.
End SimConsole.

#[export] Instance sim_oled : OledRegisters SimConsole.console := { oled_read := SimConsole.read; oled_write := SimConsole.write }.
#[export] Program Instance sim_console : Console SimConsole.console := {
  con_mode := SimConsole.sim_mode; typed := SimConsole.sim_typed; cell := SimConsole.sim_cell; ram h a := u8 (SimConsole.sim_ram h a) }.
Solve All Obligations with
  (intros; cbn; unfold SimConsole.write, SimConsole.read, wrap; repeat match goal with E : area _ = _ |- _ => rewrite E; clear E end;
   cbn; try case_match; rewrite ?Z.mod_mod by lia; done).

(** The text stands on row 3, and a pixel is lit. *)
Definition dark : SimConsole.console := SimConsole.mk_console 0 [] (fun _ _ => 32) (fun _ => 0).
Example hello_shown : (h ← disp_put_line demo_display ([72; 105; 0] ++ repeat 7 8) 3 dark; Some (map (cell h 3) [0; 1; 2; 10])) = Some [72; 105; 32; 32].
Proof. reflexivity. Qed.
Example pixel_lit : pixel demo_display (disp_put_raw demo_display (get_pixcol_val 21) (get_pixcol_addr demo_display 40 21) 1 dark) 40 21 = true.
Proof. reflexivity. Qed.
