(* ===== verification/Ebm.v ===== *)
(** The Etherbone master of the soft CPU, [src/modules/lm32-include/ebm.c], and the
    queue of timing messages the timing master fills, [src/modules/ftm/swtest/main.c].
    Both drive hardware through registers: interfaces with the laws that the drivers
    rely on. *)
From stdpp Require Import base list strings.
From Stdlib Require Import ZArith Lia.
From S2P Require Import Prelude Widths Lm32 Irq.

(** * ebm.h *)

Definition EBM_REG_RESET : Z := 0.
Definition EBM_REG_FLUSH : Z := EBM_REG_RESET + 4.
Definition EBM_REG_STATUS : Z := EBM_REG_FLUSH + 4.
Definition EBM_REG_SRC_MAC_HI : Z := EBM_REG_STATUS + 4.
Definition EBM_REG_SRC_MAC_LO : Z := EBM_REG_SRC_MAC_HI + 4.
Definition EBM_REG_SRC_IPV4 : Z := EBM_REG_SRC_MAC_LO + 4.
Definition EBM_REG_SRC_UDP_PORT : Z := EBM_REG_SRC_IPV4 + 4.
Definition EBM_REG_DST_MAC_HI : Z := EBM_REG_SRC_UDP_PORT + 4.
Definition EBM_REG_DST_MAC_LO : Z := EBM_REG_DST_MAC_HI + 4.
Definition EBM_REG_DST_IPV4 : Z := EBM_REG_DST_MAC_LO + 4.
Definition EBM_REG_DST_UDP_PORT : Z := EBM_REG_DST_IPV4 + 4.
Definition EBM_REG_PAC_LEN : Z := EBM_REG_DST_UDP_PORT + 4.
Definition EBM_REG_OPA_HI : Z := EBM_REG_PAC_LEN + 4.
Definition EBM_REG_OPS_MAX : Z := EBM_REG_OPA_HI + 4.
Definition EBM_REG_WOA_BASE : Z := EBM_REG_OPS_MAX + 4.
Definition EBM_REG_ROA_BASE : Z := EBM_REG_WOA_BASE + 4.
Definition EBM_REG_EB_OPT : Z := EBM_REG_ROA_BASE + 4.

Definition EBM_OFFS_DAT : Z := 0x00800000.
Definition EBM_OFFS_WR : Z := 0x00400000.
Definition EBM_OFFS_LOCAL : Z := EBM_REG_SRC_MAC_HI.
Definition EBM_OFFS_REMOTE : Z := EBM_REG_DST_MAC_HI.
Definition EBM_OFFS_MAC_HI : Z := 0.
Definition EBM_OFFS_MAC_LO : Z := EBM_OFFS_MAC_HI + 4.
Definition EBM_OFFS_IPV4 : Z := EBM_OFFS_MAC_LO + 4.
Definition EBM_OFFS_UDP_PORT : Z := EBM_OFFS_IPV4 + 4.
Definition EBM_WRITE : Z := EBM_OFFS_WR.
Definition EBM_READ : Z := 0x00000000.
Definition ADR_MASK : Z := 0x003FFFFF.
Definition LOCAL : Z := 0.
Definition REMOTE : Z := 1.

(** * ebm.c *)

(** [*(pEbm + i) = v] *)
Class EbmRegisters (H : Type) := { ebm_write : Z -> Z -> H -> H }.

Section ebm.
Context {H : Type} `{EbmRegisters H}.

(** The text of this function and of the three helpers is that of
    [eb_lm32_udp_connect] of [lm32.c] (file Lm32), but for the status. *)
Definition ebm_parse_adr (link : eb_lm32_udp_link) (address : option (list Z)) : option (Z * eb_lm32_udp_link) :=
  '(stat, link) ← eb_lm32_udp_connect link address;
  Some (if stat =? EB_OK then 0 else 1, link).

(** Four bytes as a word, [(a << 24) | (b << 16) | (c << 8) | d]. *)
Definition join4 (a b c d : Z) : Z := u32 (a .<< 24) .| u32 (b .<< 16) .| u32 (c .<< 8) .| d.

Definition write_link (offset : Z) (link : eb_lm32_udp_link) (h : H) : option H :=
  m0 ← mac link !! 0%nat; m1 ← mac link !! 1%nat; m2 ← mac link !! 2%nat; m3 ← mac link !! 3%nat;
  let h := ebm_write ((offset + EBM_OFFS_MAC_HI) .>> 2) (join4 m0 m1 m2 m3) h in
  m4 ← mac link !! 4%nat; m5 ← mac link !! 5%nat;
  let h := ebm_write ((offset + EBM_OFFS_MAC_LO) .>> 2) (u32 (m4 .<< 24) .| u32 (m5 .<< 16)) h in
  i0 ← ipv4 link !! 0%nat; i1 ← ipv4 link !! 1%nat; i2 ← ipv4 link !! 2%nat; i3 ← ipv4 link !! 3%nat;
  let h := ebm_write ((offset + EBM_OFFS_IPV4) .>> 2) (join4 i0 i1 i2 i3) h in
  Some (ebm_write ((offset + EBM_OFFS_UDP_PORT) .>> 2) (port link) h).

(** The pointer [link] is never set: what it happens to point to is an argument, and
    [None] when that is no link. The status of the parser is not looked at. *)
Definition ebm_config_if (link : option eb_lm32_udp_link) (conf : Z) (con_info : option (list Z)) (h : H) : option H :=
  link ← link;
  '(_, link) ← ebm_parse_adr link con_info;
  offset ← (if conf =? REMOTE then Some EBM_OFFS_REMOTE else if conf =? LOCAL then Some EBM_OFFS_LOCAL else None);
  write_link offset link h.

Definition ebm_config_meta (pac_len hi_bits max_ops eb_ops : Z) (h : H) : H :=
  ebm_write (EBM_REG_EB_OPT .>> 2) eb_ops
    (ebm_write (EBM_REG_OPS_MAX .>> 2) max_ops
      (ebm_write (EBM_REG_OPA_HI .>> 2) hi_bits
        (ebm_write (EBM_REG_PAC_LEN .>> 2) pac_len h))).

Definition ebm_op (address value optype : Z) (h : H) : H :=
  let offset := u32 (EBM_OFFS_DAT + optype) in
  let offset := u32 (offset + (address .& ADR_MASK)) in
  ebm_write (offset .>> 2) value h.

Definition ebm_flush (h : H) : H := ebm_write (EBM_REG_FLUSH .>> 2) 0x01 h.
End ebm.

(** * The core behind the registers *)

Inductive ebm_operation := mk_operation (is_write : bool) (address value : Z).

(** A word of the upper half is an operation, queued for the next packet: its address
    has the high bits of the register. Flushing sends the packet. *)
Class EbmCore (H : Type) {regs : EbmRegisters H} := {
  high_bits : H -> Z; collected : H -> list ebm_operation; packets : H -> list (list ebm_operation);
  core_op : forall i v h, 2 ^ 21 <= i < 2 ^ 22 ->
    collected (ebm_write i v h) = collected h ++ [mk_operation (Z.testbit i 20) (high_bits h + 4 * (i mod 2 ^ 20)) v] /\
    packets (ebm_write i v h) = packets h /\ high_bits (ebm_write i v h) = high_bits h;
  core_flush : forall h, collected (ebm_write 1 1 h) = [] /\ packets (ebm_write 1 1 h) = packets h ++ [collected h] /\
    high_bits (ebm_write 1 1 h) = high_bits h;
  core_meta : forall i v h, 2 <= i < 2 ^ 21 ->
    collected (ebm_write i v h) = collected h /\ packets (ebm_write i v h) = packets h /\
    high_bits (ebm_write i v h) = if i =? 12 then v - v mod 2 ^ 22 else high_bits h }.

Section core.
Context {H : Type} {regs : EbmRegisters H} {core : EbmCore H}.
Implicit Types h : H.

(** Operations as a program makes them. *)
Definition op_type (w : bool) : Z := if w then EBM_WRITE else EBM_READ.
Definition do_op (o : ebm_operation) h : H := let '(mk_operation w a v) := o in ebm_op a v (op_type w) h.
Definition do_ops (os : list ebm_operation) h : H := fold_left (fun h o => do_op o h) os h.

(** What is queued: the address keeps its place in the window of 4 megabytes. *)
Definition queued_as (hi : Z) (o : ebm_operation) : ebm_operation :=
  let '(mk_operation w a v) := o in mk_operation w (hi + 4 * (a mod 2 ^ 22 / 4)) v.

Lemma op_queued o h : high_bits (do_op o h) = high_bits h /\ packets (do_op o h) = packets h /\
  collected (do_op o h) = collected h ++ [queued_as (high_bits h) o].
Proof.
  destruct o as [w a v]. unfold do_op, ebm_op, queued_as. change ADR_MASK with (Z.ones 22). rewrite Z.land_ones by lia.
  pose proof (Z.mod_pos_bound a (2 ^ 22) ltac:(lia)) as Hb. set (m := a mod 2 ^ 22) in *.
  set (base := if w then 0xC00000 else 0x800000).
  assert (u32 (EBM_OFFS_DAT + op_type w) = base) as -> by (unfold base; by destruct w).
  assert (0x800000 <= base <= 0xC00000) as Hbase by (unfold base; destruct w; lia).
  rewrite wrap_small, Z.shiftr_div_pow2 by lia. change (2 ^ 2) with 4.
  pose proof (Z.div_pos m 4 ltac:(lia) ltac:(lia)). pose proof (Z.div_lt_upper_bound m 4 (2 ^ 20) ltac:(lia) ltac:(lia)).
  set (b := base / 4). assert ((base + m) / 4 = b + m / 4) as ->.
  { unfold b, base. destruct w; [change 0xC00000 with (0x300000 * 4)|change 0x800000 with (0x200000 * 4)]; by rewrite Z.div_add_l by lia. }
  assert (b = if w then 0x300000 else 0x200000) as Eb by (unfold b, base; by destruct w).
  destruct (core_op (b + m / 4) v h) as (-> & -> & ->); [rewrite Eb; destruct w; lia|]. do 2 (split; [done|]). f_equal. f_equal.
  assert (Z.testbit (b + m / 4) 20 = w /\ (b + m / 4) mod 2 ^ 20 = m / 4) as [-> ->]; [|done].
  rewrite Eb. split.
  - replace (if w then 0x300000 else 0x200000) with ((if w then 3 else 2) * 2 ^ 20) by (by destruct w).
    rewrite testbit_join by lia. cbn. by destruct w.
  - replace (if w then 0x300000 else 0x200000) with ((if w then 3 else 2) * 2 ^ 20) by (by destruct w).
    rewrite Z.add_comm, Z.mod_add, Z.mod_small by lia. done.
Qed.

Lemma ops_queued os : forall h, high_bits (do_ops os h) = high_bits h /\ packets (do_ops os h) = packets h /\
  collected (do_ops os h) = collected h ++ map (queued_as (high_bits h)) os.
Proof.
  induction os as [|o os IH]; intros h; [by rewrite app_nil_r|]. change (do_ops (o :: os) h) with (do_ops os (do_op o h)).
  destruct (op_queued o h) as (E1 & E2 & E3). destruct (IH (do_op o h)) as (-> & -> & ->). rewrite E1, E2, E3, <- app_assoc. done.
Qed.

Lemma config_meta_spec pac_len hi_bits max_ops eb_ops h :
  let h' := ebm_config_meta pac_len hi_bits max_ops eb_ops h in
  high_bits h' = hi_bits - hi_bits mod 2 ^ 22 /\ packets h' = packets h /\ collected h' = collected h.
Proof.
  unfold ebm_config_meta. cbv zeta.
  destruct (core_meta (EBM_REG_EB_OPT .>> 2) eb_ops (ebm_write (EBM_REG_OPS_MAX .>> 2) max_ops
    (ebm_write (EBM_REG_OPA_HI .>> 2) hi_bits (ebm_write (EBM_REG_PAC_LEN .>> 2) pac_len h)))) as (-> & -> & ->); [vm_compute; split; congruence|].
  destruct (core_meta (EBM_REG_OPS_MAX .>> 2) max_ops (ebm_write (EBM_REG_OPA_HI .>> 2) hi_bits (ebm_write (EBM_REG_PAC_LEN .>> 2) pac_len h)))
    as (-> & -> & ->); [vm_compute; split; congruence|].
  destruct (core_meta (EBM_REG_OPA_HI .>> 2) hi_bits (ebm_write (EBM_REG_PAC_LEN .>> 2) pac_len h)) as (-> & -> & ->); [vm_compute; split; congruence|].
  destruct (core_meta (EBM_REG_PAC_LEN .>> 2) pac_len h) as (-> & -> & ->); [vm_compute; split; congruence|]. done.
Qed.

(** A program's operations between two flushes leave in one packet, in order; the
    address of each is kept when the high bits were configured for it and it is a
    multiple of four. *)
Lemma packet_sent os pac_len hi_bits max_ops eb_ops h : collected h = [] ->
  Forall (fun o => let '(mk_operation _ a _) := o in a - a mod 2 ^ 22 = hi_bits - hi_bits mod 2 ^ 22 /\ a mod 4 = 0) os ->
  packets (ebm_flush (do_ops os (ebm_config_meta pac_len hi_bits max_ops eb_ops h))) = packets h ++ [os].
Proof.
  intros Hc Hos. destruct (config_meta_spec pac_len hi_bits max_ops eb_ops h) as (Eh & Ep & Ec).
  unfold ebm_flush. change (EBM_REG_FLUSH .>> 2) with 1. destruct (core_flush (do_ops os (ebm_config_meta pac_len hi_bits max_ops eb_ops h))) as (_ & -> & _).
  destruct (ops_queued os (ebm_config_meta pac_len hi_bits max_ops eb_ops h)) as (_ & -> & ->). rewrite Eh, Ep, Ec, Hc. cbn [app].
  do 2 f_equal. rewrite <- (map_id os) at 2. apply map_ext_in. intros o Ho. rewrite Forall_forall in Hos.
  specialize (Hos o (proj2 (list_elem_of_In _ _) Ho)). destruct o as [w a v]. unfold queued_as. f_equal. destruct Hos as [Ha H4]. rewrite <- Ha.
  pose proof (Z.div_mod (a mod 2 ^ 22) 4 ltac:(lia)) as Hd.
  assert (a mod 2 ^ 22 mod 4 = 0) as Em; [|rewrite Em in Hd; lia].
  change (2 ^ 22) with (4 * 2 ^ 20). rewrite Z.rem_mul_r, Z.mul_comm, Z.mod_add, Z.mod_mod by lia. done.
Qed.

(** An operation outside of the configured window goes to its image in the window. *)
Lemma op_aliased w a v h : high_bits h mod 2 ^ 22 = 0 -> high_bits h <> a - a mod 2 ^ 22 ->
  exists a', a' <> a /\ collected (do_op (mk_operation w a v) h) = collected h ++ [mk_operation w a' v].
Proof.
  intros E0 Hne. exists (high_bits h + 4 * (a mod 2 ^ 22 / 4)). split; [|apply op_queued].
  pose proof (Z.mod_pos_bound a (2 ^ 22) ltac:(lia)). pose proof (Z.div_mod a (2 ^ 22) ltac:(lia)). pose proof (Z.div_mod (high_bits h) (2 ^ 22) ltac:(lia)).
  pose proof (Z.div_mod (a mod 2 ^ 22) 4 ltac:(lia)). pose proof (Z.mod_pos_bound (a mod 2 ^ 22) 4 ltac:(lia)). lia.
Qed.

(** The link a configuration writes is that of the address, when the pointer happens to
    designate one. *)
Lemma parse_adr_spec link m ip p : length (mac link) = 6%nat -> length (ipv4 link) = 4%nat ->
  bytes_ok m -> length m = 6%nat -> bytes_ok ip -> length ip = 4%nat -> 0 <= p < 2 ^ 16 ->
  ebm_parse_adr link (Some (address_text m ip p)) = Some (0, mk_udp_link m ip p).
Proof. intros. unfold ebm_parse_adr. by rewrite connect_spec. Qed.

Lemma config_if_unset conf con_info h : ebm_config_if None conf con_info h = None.
Proof. done. Qed.
End core.

(** * The queue of timing messages: main.c of the timing master *)

(** Indices of words; [pFpqCtrl + i] is read and written, [*pFpqData] is written. *)
Definition fpq_clear : Z := 0x10 .>> 2.
Definition fpq_cfgSet : Z := 0x18 .>> 2.
Definition fpq_dstAdr : Z := 0x20 .>> 2.
Definition fpq_heapCnt : Z := 0x24 .>> 2.
Definition fpq_tTrnHi : Z := 0x30 .>> 2.
Definition fpq_tTrnLo : Z := 0x34 .>> 2.
Definition fpq_tDueHi : Z := 0x38 .>> 2.
Definition fpq_tDueLo : Z := 0x3C .>> 2.
Definition fpq_capacity : Z := 0x40 .>> 2.
Definition fpq_msgMax : Z := 0x44 .>> 2.
Definition fpq_ebmAdr : Z := 0x48 .>> 2.
Definition cfg_ENA : Z := 1 .<< 0.
Definition cfg_FIFO : Z := 1 .<< 1.
Definition cfg_AUTOFLUSH_MSGS : Z := 1 .<< 5.

Class FpqRegisters (H : Type) := {
  fpq_read : H -> Z -> Z; fpq_write : Z -> Z -> H -> H; fpq_data : Z -> H -> H }.

Section fpq.
Context {H : Type} {irqs : IrqHardware H} {fpq : FpqRegisters H}.

Definition ebmInit {regs : EbmRegisters H} (local_link remote_link : option eb_lm32_udp_link) (h : H) : option H :=
  h ← ebm_config_if local_link LOCAL (Some (cstr "hw/08:00:30:e3:b0:5a/udp/192.168.191.254/port/60368")) h;
  h ← ebm_config_if remote_link REMOTE (Some (cstr "hw/00:14:d1:fa:01:aa/udp/192.168.191.131/port/60368")) h;
  Some (ebm_config_meta 80 0x11 16 0x00000000 h).

Definition prioQueueInit (pEca pEbm : Z) (h : H) : H :=
  let h := fpq_write fpq_clear 1 h in
  let h := fpq_write fpq_dstAdr pEca h in
  let h := fpq_write fpq_ebmAdr pEbm h in
  let h := fpq_write fpq_msgMax 5 h in
  let h := fpq_write fpq_tTrnHi 0 h in
  let h := fpq_write fpq_tTrnLo 0 h in
  let h := fpq_write fpq_tDueHi 0 h in
  let h := fpq_write fpq_tDueLo 0 h in
  fpq_write fpq_cfgSet (cfg_AUTOFLUSH_MSGS .| cfg_FIFO .| cfg_ENA) h.

Definition fpq_entry (run : Z) : list Z :=
  [0; u32 (128 - run); 0xDEADBEEF; 0xCAFEBABE; 0x11111111; 0x22222222; 0x33333333; u32 (run + 1)].

(** The message of a full queue is left out; [run] is the static counter. *)
Definition insertFpqEntry (run : Z) (h : H) : Z * Z * H :=
  let '(h, ier) := atomic_on h in
  if 1 <? u32 (fpq_read h fpq_capacity - fpq_read h fpq_heapCnt) then
    (0, u32 (run + 1), atomic_off ier (fold_left (fun h w => fpq_data w h) (fpq_entry run) h))
  else (-1, run, atomic_off ier h).

(** [for (j = 0; j < 128; ++j) insertFpqEntry();] *)
Fixpoint insert_loop (n : nat) (run : Z) (h : H) : Z * H :=
  match n with
  | O => (run, h)
  | S n => let '(_, run, h) := insertFpqEntry run h in insert_loop n run h
  end.
End fpq.

(** Eight words make an entry; the entries are counted. *)
Class PrioQueue (H : Type) {irqs : IrqHardware H} {fpq : FpqRegisters H} := {
  entries : H -> list (list Z); partial : H -> list Z; room : Z;
  room_range : 0 <= room < 2 ^ 32;
  queue_capacity : forall h, fpq_read h fpq_capacity = room;
  queue_count : forall h, fpq_read h fpq_heapCnt = Z.of_nat (length (entries h));
  queue_data : forall w h,
    if (length (partial h) =? 7)%nat then entries (fpq_data w h) = entries h ++ [partial h ++ [w]] /\ partial (fpq_data w h) = []
    else entries (fpq_data w h) = entries h /\ partial (fpq_data w h) = partial h ++ [w];
  queue_atomic : forall h, entries (atomic_on h).1 = entries h /\ partial (atomic_on h).1 = partial h;
  queue_unlock : forall ier h, entries (atomic_off ier h) = entries h /\ partial (atomic_off ier h) = partial h }.

Section queue.
Context {H : Type} {irqs : IrqHardware H} {fpq : FpqRegisters H} {pq : PrioQueue H}.
Implicit Types h : H.

Lemma words_entry ws : forall h, (length (partial h) + length ws = 8)%nat -> ws <> [] ->
  entries (fold_left (fun h w => fpq_data w h) ws h) = entries h ++ [partial h ++ ws] /\
  partial (fold_left (fun h w => fpq_data w h) ws h) = [].
Proof.
  induction ws as [|w ws IH]; intros h Hl Hne; [done|]. cbn [fold_left length] in *. pose proof (queue_data w h) as Hd.
  destruct ws as [|w' ws].
  - rewrite (proj2 (Nat.eqb_eq _ 7)) in Hd by (cbn in Hl; lia). exact Hd.
  - rewrite (proj2 (Nat.eqb_neq _ 7)) in Hd by (cbn in Hl; lia). destruct Hd as [He Hp].
    destruct (IH (fpq_data w h)) as [-> ->]; [rewrite Hp, length_app; cbn in *; lia|done|].
    by rewrite He, Hp, <- app_assoc.
Qed.

Lemma insert_spec run h : partial h = [] -> Z.of_nat (length (entries h)) <= room ->
  let full := room - Z.of_nat (length (entries h)) <=? 1 in
  exists h', insertFpqEntry run h = (if full then (-1, run, h') else (0, u32 (run + 1), h')) /\ partial h' = [] /\
    entries h' = if full then entries h else entries h ++ [fpq_entry run].
Proof.
  intros Hp Hle full. pose proof room_range as Hr. unfold insertFpqEntry. pose proof (queue_atomic h) as Ha. destruct (atomic_on h) as [h1 ier]. cbn [fst] in Ha.
  destruct Ha as [He Hp1]. rewrite queue_capacity, queue_count, He, wrap_small by lia. subst full.
  destruct (Z.ltb_spec 1 (room - Z.of_nat (length (entries h)))) as [Hlt|Hge].
  - rewrite (proj2 (Z.leb_gt _ 1)) by lia. eexists. split; [reflexivity|].
    destruct (queue_unlock ier (fold_left (fun h w => fpq_data w h) (fpq_entry run) h1)) as [-> ->].
    destruct (words_entry (fpq_entry run) h1) as [-> ->]; [by rewrite Hp1, Hp|done|]. by rewrite He, Hp1, Hp.
  - rewrite (proj2 (Z.leb_le _ 1)) by lia. eexists. split; [reflexivity|]. destruct (queue_unlock ier h1) as [-> ->]. split; congruence.
Qed.

(** However often entries are offered, the queue keeps one place free; as many as fit
    are entered, in order. *)
Lemma insert_loop_spec n : forall run h, 0 <= run -> run + Z.of_nat n < 2 ^ 32 -> partial h = [] -> Z.of_nat (length (entries h)) < room ->
  let k := Nat.min n (Z.to_nat (room - 1 - Z.of_nat (length (entries h)))) in
  let '(run', h') := insert_loop n run h in
  run' = run + Z.of_nat k /\ partial h' = [] /\ entries h' = entries h ++ map (fun i => fpq_entry (run + Z.of_nat i)) (seq 0 k).
Proof.
  induction n as [|n IH]; intros run h Hr Hn Hp Hlt; [cbn; rewrite app_nil_r; split; [lia|done]|].
  cbn [insert_loop]. destruct (insert_spec run h Hp ltac:(lia)) as (h1 & -> & Hp1 & He1).
  destruct (Z.leb_spec (room - Z.of_nat (length (entries h))) 1) as [Hfull|Hroom].
  - specialize (IH run h1 Hr ltac:(lia) Hp1 ltac:(rewrite He1; lia)). rewrite He1 in IH.
    replace (Z.to_nat (room - 1 - Z.of_nat (length (entries h)))) with 0%nat in * by lia. rewrite Nat.min_0_r in *. exact IH.
  - rewrite wrap_small by lia.
    specialize (IH (run + 1) h1 ltac:(lia) ltac:(lia) Hp1). rewrite He1, length_app in IH. cbn [length] in IH. specialize (IH ltac:(lia)).
    destruct (insert_loop n (run + 1) h1) as [run' h'] eqn:E. destruct IH as (-> & Hp' & ->).
    set (k := Nat.min n (Z.to_nat (room - 1 - Z.of_nat (length (entries h) + 1)))).
    replace (Nat.min (S n) (Z.to_nat (room - 1 - Z.of_nat (length (entries h))))) with (S k) by (unfold k; lia).
    split; [lia|]. split; [done|]. rewrite <- app_assoc. cbn [seq map app]. rewrite Z.add_0_r. do 2 f_equal.
    rewrite <- seq_shift, map_map. apply map_ext. intros i. f_equal. lia.
Qed.
End queue.
