(* ===== verification/ScuMain.v ===== *)
(** The other firmware of the SCU, [src/top/gsi_scu/main.c]: the interrupt of the
    slaves' timers, the configuration of slaves listed in an array, the temperatures
    and the start. [main] ends in an empty loop after [init]; what follows it in the
    text is not reached and not modelled, nor is what is drawn on the display. *)
From stdpp Require Import base list strings gmap.
From Stdlib Require Import ZArith Lia.
From S2P Require Import Prelude Widths Ring FunctionGen Irq Scu.

Section board.
Context {H : Type} `{ScuHardware H} `{IrqHardware H}.

(** The global variables. *)
Record board := mk_board {
  b_hw : H; b_slaves : list Z; icounter : list Z; b_scub : scu_bus; b_fgs : fg_list; fg_buffer : list circ_buffer;
  ext_id : Z; ext_temp : Z; backplane_id : Z; backplane_temp : Z; b_printed : list print }.

Definition on_board (g : H -> H) (b : board) : board :=
  mk_board (g (b_hw b)) (b_slaves b) (icounter b) (b_scub b) (b_fgs b) (fg_buffer b) (ext_id b) (ext_temp b) (backplane_id b) (backplane_temp b) (b_printed b).
Definition tell (p : print) (b : board) : board :=
  mk_board (b_hw b) (b_slaves b) (icounter b) (b_scub b) (b_fgs b) (fg_buffer b) (ext_id b) (ext_temp b) (backplane_id b) (backplane_temp b) (b_printed b ++ [p]).
Definition put_icounter (l : list Z) (b : board) : board :=
  mk_board (b_hw b) (b_slaves b) l (b_scub b) (b_fgs b) (fg_buffer b) (ext_id b) (ext_temp b) (backplane_id b) (backplane_temp b) (b_printed b).
Definition put_temps (ei et bi bt : Z) (b : board) : board :=
  mk_board (b_hw b) (b_slaves b) (icounter b) (b_scub b) (b_fgs b) (fg_buffer b) ei et bi bt (b_printed b).
Definition put_buffers (l : list circ_buffer) (b : board) : board :=
  mk_board (b_hw b) (b_slaves b) (icounter b) (b_scub b) (b_fgs b) l (ext_id b) (ext_temp b) (backplane_id b) (backplane_temp b) (b_printed b).
Definition put_scan (s : scu_bus) (l : fg_list) (b : board) : board :=
  mk_board (b_hw b) (b_slaves b) (icounter b) s l (fg_buffer b) (ext_id b) (ext_temp b) (backplane_id b) (backplane_temp b) (b_printed b).

(** * Interrupts *)

Definition isr1 (global_msi : msi) (b : board) : option board :=
  let slave_nr := irq_source global_msi in
  let tmr_irq_cnts := scub_read (b_hw b) ((slave_nr .<< 16) + TMR_BASE + TMR_IRQ_CNT) in
  count ← get_at (icounter b) (slave_nr - 1);
  let b := if tmr_irq_cnts =? count then on_board (scub_or ((slave_nr .<< 16) + SLAVE_INT_ACT) 5) b else b in
  l ← set_at (icounter b) (slave_nr - 1) (u16 (count + 1));
  Some (tell (mprintf (line "irq1") []) (put_icounter l b)).

Definition enable_fixed (i : Z) (h : H) : H := enable_channel 0x200300 i h.

Definition init_irq (b : board) : board :=
  let b := on_board (fun h => scub_irq_write 2 0xfff (scub_irq_write 0 0x1 (scub_write GLOBAL_IRQ_ENA 0x20 h))) b in
  let b := on_board (fun h => fold_left (fun h i => enable_fixed i h) (map Z.of_nat (seq 0 12)) h) b in
  tell (mprintf (line "MSI IRQs configured.") []) (on_board (fun h => irq_enable (irq_set_mask 0x02 h)) b).
Definition isr_table_main : list (option (msi -> board -> option board)) := <[1%nat := Some isr1]> (repeat None 32).

Definition zero_counters (n : nat) (l : list Z) : list Z := fold_left (fun l i => <[i := 0]> l) (seq 0 n) l.
Definition dis_irq (b : board) : board :=
  let b := on_board (fun h => irq_disable (irq_set_mask 0x02 h)) b in
  put_icounter (zero_counters (Z.to_nat MAX_SCU_SLAVES) (icounter b)) b.

(** * Configuration *)

(** The loops [while(slaves[i])] over the array of slots. *)
Fixpoint each_slot (fuel i : nat) (step : Z -> H -> H) (b : board) : option board :=
  s ← b_slaves b !! i;
  if s =? 0 then Some b
  else match fuel with
  | O => None
  | S fuel => each_slot fuel (S i) step (on_board (step s) b)
  end.

Definition configure_slot (s : Z) (h : H) : H :=
  let h := scub_or SRQ_ENA (1 .<< (s - 1)) h in
  let h := scub_or MULTI_SLAVE_SEL (1 .<< (s - 1)) h in
  let h := scub_write ((s .<< 16) + SLAVE_INT_ENA) 0x4 h in
  let h := scub_write ((s .<< 16) + TMR_BASE + TMR_CNTRL) 0x1 h in
  let h := scub_write ((s .<< 16) + TMR_BASE + TMR_VALUEL) 0xffff h in
  let h := scub_write ((s .<< 16) + TMR_BASE + TMR_VALUEH) 0x005f h in
  scub_or ((s .<< 16) + TMR_BASE + TMR_CNTRL) 0x2 h.

Definition configure_slots (b : board) : option board :=
  each_slot (length (b_slaves b)) 0 configure_slot (on_board clear_selection b).

Definition reset_slots (b : board) : option board :=
  each_slot (length (b_slaves b)) 0 (fun s => scub_write ((s .<< 16) + TMR_BASE + TMR_CNTRL) 0x1) (on_board clear_selection b).

(** The 1-wire library works on the registers, too. *)
Context (w1_scan_bus : Z -> H -> Z * list Z * H) (w1_read_temp : Z -> nat -> H -> Z * H) (wrpc_w1_init : H -> H).

Definition updateTemps (b : board) : board :=
  let b := on_board wrpc_w1_init b in
  let '(ei, et, h) := ReadTempDevices w1_scan_bus w1_read_temp 0 (ext_id b) (ext_temp b) (b_hw b) in
  let '(bi, bt, h) := ReadTempDevices w1_scan_bus w1_read_temp 1 (backplane_id b) (backplane_temp b) h in
  put_temps ei et bi bt (on_board (fun _ => h) b).

Definition init_board (b : board) : option board :=
  let b := updateTemps (init_irq b) in
  buffers ← init_buffers (fg_buffer b);
  let b := put_buffers buffers b in
  '(s, _) ← scan_scu_bus (scub_read (b_hw b)) (b_scub b) (backplane_id b);
  '(s, l) ← scan_for_fgs s (b_fgs b);
  configure_slots (put_scan s l b).
End board.
Arguments board : clear implicits.

(** * What the interrupt does *)

Section isr.
Context {H : Type} {regs : ScuHardware H}.
Implicit Types b : board H.

(** The counter of the slot goes on whether or not it agrees with that of the slave;
    only an interrupt whose count agrees is acknowledged. *)
Lemma isr1_spec m b count : 1 <= irq_source m <= MAX_SCU_SLAVES -> length (icounter b) = 13%nat ->
  get_at (icounter b) (irq_source m - 1) = Some count ->
  let act := (irq_source m .<< 16) + SLAVE_INT_ACT in
  let agrees := scub_read (b_hw b) ((irq_source m .<< 16) + TMR_BASE + TMR_IRQ_CNT) =? count in
  exists b', isr1 m b = Some b' /\ b_hw b' = (if agrees then scub_or act 5 (b_hw b) else b_hw b) /\
    length (icounter b') = 13%nat /\ get_at (icounter b') (irq_source m - 1) = Some (u16 (count + 1)) /\
    forall i, 0 <= i -> i <> irq_source m - 1 -> get_at (icounter b') i = get_at (icounter b) i.
Proof.
  intros Hs Hl Hc act agrees. unfold MAX_SCU_SLAVES in Hs. unfold isr1. rewrite Hc. cbn [mbind option_bind]. fold act.
  change (scub_read (b_hw b) ((irq_source m .<< 16) + TMR_BASE + TMR_IRQ_CNT) =? count) with agrees.
  assert (icounter (if agrees then on_board (scub_or act 5) b else b) = icounter b) as -> by (by destruct agrees).
  unfold set_at, get_at. rewrite (proj2 (Z.ltb_ge (irq_source m - 1) 0)) by lia. rewrite array_set_lt by lia. cbn [mbind option_bind].
  eexists. split; [reflexivity|]. cbn. split; [by destruct agrees|]. split; [by rewrite length_insert|]. split; [apply list_lookup_insert_eq; lia|].
  intros i Hi Hne. rewrite (proj2 (Z.ltb_ge i 0)) by lia. apply list_lookup_insert_ne. lia.
Qed.

(** The interrupts of one slot: the count it shows at each, and whether the handler
    acknowledges it. A count that runs ahead once is never met again before the
    counter has wrapped around. *)
Fixpoint agreed (count : Z) (seen : list Z) : list bool :=
  match seen with [] => [] | c :: seen => (c =? count) :: agreed (u16 (count + 1)) seen end.

Lemma agreed_ahead n : forall count k, 0 <= count < 2 ^ 16 -> 0 < k < 2 ^ 16 ->
  agreed count (map (fun i => u16 (count + k + Z.of_nat i)) (seq 0 n)) = repeat false n.
Proof.
  induction n as [|n IH]; intros count k Hc Hk; [done|]. cbn [seq map agreed repeat]. f_equal.
  - apply Z.eqb_neq. unfold u16, wrap. rewrite Z.add_0_r. intros E.
    assert ((count + k - count) mod 2 ^ 16 = 0) as E0 by (rewrite Zminus_mod, E, (Z.mod_small count), Z.sub_diag by lia; done).
    rewrite Z.add_simpl_l, Z.mod_small in E0; lia.
  - rewrite <- seq_shift, map_map. pose proof (Z.mod_pos_bound (count + 1) (2 ^ 16) ltac:(lia)) as Hb.
    rewrite <- (IH (u16 (count + 1)) k Hb Hk). f_equal. apply map_ext. intros i. unfold u16, wrap.
    rewrite <- (Z.add_assoc (_ mod _)), Zplus_mod_idemp_l. f_equal. lia.
Qed.

Lemma agreed_in_step n : forall count, 0 <= count < 2 ^ 16 -> agreed count (map (fun i => u16 (count + Z.of_nat i)) (seq 0 n)) = repeat true n.
Proof.
  induction n as [|n IH]; intros count Hc; [done|]. cbn [seq map agreed repeat]. f_equal.
  - rewrite Z.add_0_r, wrap_small by done. apply Z.eqb_refl.
  - rewrite <- seq_shift, map_map. pose proof (Z.mod_pos_bound (count + 1) (2 ^ 16) ltac:(lia)) as Hb.
    rewrite <- (IH (u16 (count + 1)) Hb). f_equal. apply map_ext. intros i. unfold u16, wrap.
    rewrite Zplus_mod_idemp_l. f_equal. lia.
Qed.

(** Nothing fills the array of slots: with its initial zeros no slave is configured. *)
Lemma no_slave_configured b : b_slaves b = repeat 0 13 -> configure_slots b = Some (on_board clear_selection b).
Proof.
  intros E. unfold configure_slots. rewrite E. change (length (repeat 0 13)) with 13%nat. cbn [each_slot].
  change (b_slaves (on_board clear_selection b)) with (b_slaves b). rewrite E. reflexivity.
Qed.
End isr.
