(* ===== verification/Fx2.v ===== *)
(** The USB controller of the bridges: the constants and macros of
    [src/hdl/eb_usb_core/fx2.h] and [fx2regs.h], which the three programs share
    (each keeps its own copy), and the registers they use. What the controller does
    with a register is hardware; the model keeps the values the program stored and
    the order it stored them in. *)
From stdpp Require Import base list functions.
From Stdlib Require Import ZArith Lia.
From S2P Require Import Prelude.

(** * Registers *)

(** The special function registers have addresses of their own, apart from the
    external memory. *)
Definition sfr (a : Z) : Z := 0x10000 + a.

Definition CPUCS : Z := 0xE600.
Definition IFCONFIG : Z := 0xE601.
Definition FIFORESET : Z := 0xE604.
Definition REVCTL : Z := 0xE60B.
Definition PINFLAGSAB : Z := 0xE602.
Definition PINFLAGSCD : Z := 0xE603.
Definition FIFOPINPOLAR : Z := 0xE609.
Definition PORTACFG : Z := 0xE670.
Definition EP1OUTCFG : Z := 0xE610.
Definition EP1INCFG : Z := 0xE611.
Definition EP2CFG : Z := 0xE612.
Definition EP4CFG : Z := 0xE613.
Definition EP6CFG : Z := 0xE614.
Definition EP8CFG : Z := 0xE615.
Definition EP2FIFOCFG : Z := 0xE618.
Definition EP4FIFOCFG : Z := 0xE619.
Definition EP6FIFOCFG : Z := 0xE61A.
Definition EP8FIFOCFG : Z := 0xE61B.
Definition EP2AUTOINLENH : Z := 0xE620.
Definition EP2AUTOINLENL : Z := 0xE621.
Definition EP4AUTOINLENH : Z := 0xE622.
Definition EP4AUTOINLENL : Z := 0xE623.
Definition EP6AUTOINLENH : Z := 0xE624.
Definition EP6AUTOINLENL : Z := 0xE625.
Definition EP8AUTOINLENH : Z := 0xE626.
Definition EP8AUTOINLENL : Z := 0xE627.
Definition OUTPKTEND : Z := 0xE649.
Definition USBIE : Z := 0xE65C.
Definition USBIRQ : Z := 0xE65D.
Definition EPIE : Z := 0xE65E.
Definition EPIRQ : Z := 0xE65F.
Definition INT2IVEC : Z := 0xE666.
Definition INTSETUP : Z := 0xE668.
Definition USBCS : Z := 0xE680.
Definition TOGCTL : Z := 0xE683.
Definition EP0BCH : Z := 0xE68A.
Definition EP0BCL : Z := 0xE68B.
Definition EP1OUTBC : Z := 0xE68D.
Definition EP1INBC : Z := 0xE68F.
Definition EP8BCH : Z := 0xE69C.
Definition EP8BCL : Z := 0xE69D.
Definition EP0CS : Z := 0xE6A0.
Definition EP1OUTCS : Z := 0xE6A1.
Definition EP1INCS : Z := 0xE6A2.
Definition EP8CS : Z := 0xE6A6.
Definition SUDPTRH : Z := 0xE6B3.
Definition SUDPTRL : Z := 0xE6B4.
Definition SUDPTRCTL : Z := 0xE6B5.
Definition SETUPDAT : Z := 0xE6B8.
Definition UART230 : Z := 0xE608.
Definition WAKEUPCS : Z := 0xE682.
Definition EP0BUF : Z := 0xE740.
Definition EP1OUTBUF : Z := 0xE780.
Definition EP1INBUF : Z := 0xE7C0.
Definition EP8FIFOBUF : Z := 0xFC00.
Definition IOA : Z := sfr 0x80.
Definition PCON : Z := sfr 0x87.
Definition TCON : Z := sfr 0x88.
Definition TMOD : Z := sfr 0x89.
Definition TL1 : Z := sfr 0x8B.
Definition TH0 : Z := sfr 0x8C.
Definition TL0 : Z := sfr 0x8A.
Definition TH1 : Z := sfr 0x8D.
Definition CKCO : Z := sfr 0x8E.
Definition EXIF : Z := sfr 0x91.
Definition IE : Z := sfr 0xA8.
Definition EP2468STAT : Z := sfr 0xAA.
Definition IOD : Z := sfr 0xB0.
Definition OEA : Z := sfr 0xB2.
Definition OED : Z := sfr 0xB5.
Definition T2CON : Z := sfr 0xC8.
Definition RCAP2L : Z := sfr 0xCA.
Definition RCAP2H : Z := sfr 0xCB.
Definition TL2 : Z := sfr 0xCC.
Definition TH2 : Z := sfr 0xCD.
Definition EICON : Z := sfr 0xD8.
Definition EIE : Z := sfr 0xE8.
Definition SCO : Z := sfr 0x98.
(** The memory of the registers, and every value stored in it, oldest first. *)
Record chip := mk_chip { regs : Z -> Z; log : list (Z * Z) }.

Definition rd (r : Z) (c : chip) : Z := regs c r.
Definition wr (r v : Z) (c : chip) : chip := mk_chip (<[r := u8 v]> (regs c)) (log c ++ [(r, u8 v)]).

(** What the hardware or the host puts into a register. *)
Definition hw (r v : Z) (c : chip) : chip := mk_chip (<[r := u8 v]> (regs c)) (log c).

Fixpoint hw_bytes (r : Z) (l : list Z) (c : chip) : chip :=
  match l with [] => c | v :: l => hw_bytes (r + 1) l (hw r v c) end.

(** [a |= v], [a &= ~v] *)
Definition wr_or (r v : Z) (c : chip) : chip := wr r (rd r c .| v) c.
Definition wr_clear (r v : Z) (c : chip) : chip := wr r (rd r c .& Z.lnot v) c.

(** Consecutive bytes from [r] on. *)
Fixpoint wr_bytes (r : Z) (l : list Z) (c : chip) : chip :=
  match l with [] => c | v :: l => wr_bytes (r + 1) l (wr r v c) end.
Definition wr_all (l : list (Z * Z)) (c : chip) : chip := fold_left (fun c w => wr w.1 w.2 c) l c.
Definition rd_bytes (r : Z) (n : nat) (c : chip) : list Z := map (fun i => rd (r + Z.of_nat i) c) (seq 0 n).

(** * Constants *)

Definition DEVICE_DSCR : Z := 0x01.
Definition CONFIG_DSCR : Z := 0x02.
Definition STRING_DSCR : Z := 0x03.
Definition INTRFC_DSCR : Z := 0x04.
Definition ENDPNT_DSCR : Z := 0x05.
Definition DEVQUAL_DSCR : Z := 0x06.
Definition OTHERSPEED_DSCR : Z := 0x07.
Definition bmBUSPWR : Z := 128.
Definition bmRWU : Z := 32.
Definition EP_BULK : Z := 0x02.
Definition EP_INT : Z := 0x03.
Definition SETUP_MASK : Z := 0x60.
Definition SETUP_STANDARD_REQUEST : Z := 0.
Definition SETUP_CLASS_REQUEST : Z := 0x20.
Definition SETUP_VENDOR_REQUEST : Z := 0x40.
Definition SC_GET_STATUS : Z := 0x00.
Definition SC_CLEAR_FEATURE : Z := 0x01.
Definition SC_SET_FEATURE : Z := 0x03.
Definition SC_GET_DESCRIPTOR : Z := 0x06.
Definition SC_GET_CONFIGURATION : Z := 0x08.
Definition SC_SET_CONFIGURATION : Z := 0x09.
Definition SC_GET_INTERFACE : Z := 0x0a.
Definition SC_SET_INTERFACE : Z := 0x0b.
Definition GD_DEVICE : Z := 0x01.
Definition GD_CONFIGURATION : Z := 0x02.
Definition GD_STRING : Z := 0x03.
Definition GD_DEVICE_QUALIFIER : Z := 0x06.
Definition GD_OTHER_SPEED_CONFIGURATION : Z := 0x07.
Definition GS_DEVICE : Z := 0x80.
Definition GS_INTERFACE : Z := 0x81.
Definition GS_ENDPOINT : Z := 0x82.
Definition FT_DEVICE : Z := 0x00.
Definition FT_ENDPOINT : Z := 0x02.
Definition bmHSM : Z := 128.
Definition bmHSNAK : Z := 128.
Definition bmEPBUSY : Z := 2.
Definition bmEPSTALL : Z := 1.
Definition bmRESETTOGGLE : Z := 32.
Definition bmEP8EMPTY : Z := 64.

Definition MSB (word : Z) : Z := u8 ((u16 word .>> 8) .& 0xff).
Definition LSB (word : Z) : Z := u8 (u16 word .& 0xff).

Definition EZUSB_STALL_EP0 : chip -> chip := wr_or EP0CS bmEPSTALL.
Definition EZUSB_IRQ_CLEAR : chip -> chip := wr_clear EXIF 0x10.
Definition EZUSB_RESET_DATA_TOGGLE (ep : Z) (c : chip) : chip :=
  wr_or TOGCTL bmRESETTOGGLE (wr TOGCTL (((ep .& 0x80) .>> 3) + (ep .& 0x0F)) c).

(** ** What the programs share *)

Definition set_SUDPTR (a : Z) : chip -> chip := wr_all [(SUDPTRH, MSB a); (SUDPTRL, LSB a)].

(** The characters of a string from the [i]-th on, each with a zero byte. *)
Fixpoint string_loop (n : nat) (i : Z) (str : list Z) (c : chip) : option (Z * chip) :=
  match n with
  | O => Some (i, c)
  | S n =>
    match str with
    | [] => None
    | ch :: str =>
      if ch =? 0 then Some (i, c)
      else string_loop n (i + 1) str (wr_all [(EP0BUF + (2 * i + 2), ch); (EP0BUF + (2 * i + 3), 0)] c)
    end
  end.

(** [n] bytes in the buffer of endpoint 0. *)
Definition ep0_answer (l : list Z) (c : chip) : chip :=
  wr_all [(EP0BCH, 0); (EP0BCL, Z.of_nat (length l))] (wr_bytes EP0BUF l c).

(** [switch]: the first case with the value. *)
Fixpoint switch {A} (x : Z) (cases : list (Z * A)) (default : A) : A :=
  match cases with [] => default | (k, a) :: cases => if x =? k then a else switch x cases default end.

(** * Laws *)

Lemma rd_wr r r' v c : rd r (wr r' v c) = if r' =? r then u8 v else rd r c.
Proof.
  unfold rd, wr. cbn [regs]. destruct (Z.eqb_spec r' r) as [->|Hne]; [by rewrite fn_lookup_insert|by rewrite fn_lookup_insert_ne].
Qed.

Lemma rd_hw r r' v c : rd r (hw r' v c) = if r' =? r then u8 v else rd r c.
Proof. exact (rd_wr r r' v c). Qed.

Lemma rd_wr_eq r v c : rd r (wr r v c) = u8 v.
Proof. by rewrite rd_wr, Z.eqb_refl. Qed.

Lemma rd_hw_eq r v c : rd r (hw r v c) = u8 v.
Proof. exact (rd_wr_eq r v c). Qed.

Lemma rd_wr_ne r r' v c : r' <> r -> rd r (wr r' v c) = rd r c.
Proof. intros Hne. by rewrite rd_wr, (proj2 (Z.eqb_neq _ _)). Qed.

Lemma rd_wr_all l r c : existsb (fun w => w.1 =? r) l = false -> rd r (wr_all l c) = rd r c.
Proof.
  revert c. induction l as [|w l IH]; intros c Hl; [done|]. cbn [existsb] in Hl. apply orb_false_iff in Hl as [Hw Hl].
  change (rd r (wr_all l (wr w.1 w.2 c)) = rd r c). rewrite IH by done. by rewrite rd_wr, Hw.
Qed.

Lemma rd_wr_bytes r l x c : bytes_ok l ->
  rd x (wr_bytes r l c) = if (r <=? x) && (x <? r + Z.of_nat (length l)) then nth (Z.to_nat (x - r)) l 0 else rd x c.
Proof.
  intros Hl. revert r c. induction Hl as [|v l Hv Hl IH]; intros r c.
  - cbn [wr_bytes length]. destruct (Z.leb_spec r x), (Z.ltb_spec x (r + Z.of_nat 0)); cbn [andb]; lia || done.
  - cbn [wr_bytes length]. rewrite IH, rd_wr, (wrap_small 8 v) by lia.
    destruct (Z.leb_spec (r + 1) x), (Z.ltb_spec x (r + 1 + Z.of_nat (length l))), (Z.leb_spec r x), (Z.ltb_spec x (r + Z.of_nat (S (length l))));
      cbn [andb]; try lia; try (by rewrite (proj2 (Z.eqb_neq _ _)) by lia).
    + replace (Z.to_nat (x - r)) with (S (Z.to_nat (x - (r + 1)))) by lia. done.
    + replace x with r in * by lia. by rewrite Z.eqb_refl, Z.sub_diag.
Qed.

Lemma rd_bytes_wr_bytes r l c : bytes_ok l -> rd_bytes r (length l) (wr_bytes r l c) = l.
Proof.
  intros Hl. apply nth_ext with (d := 0) (d' := 0); [unfold rd_bytes; by rewrite length_map, length_seq|].
  intros n Hn. unfold rd_bytes in *. rewrite length_map, length_seq in Hn.
  rewrite nth_indep with (d' := rd (r + Z.of_nat 0) (wr_bytes r l c)) by (by rewrite length_map, length_seq).
  rewrite (map_nth (fun i => rd (r + Z.of_nat i) (wr_bytes r l c)) (seq 0 (length l)) 0%nat n), seq_nth by done.
  rewrite rd_wr_bytes by done. rewrite (proj2 (Z.leb_le _ _)), (proj2 (Z.ltb_lt _ _)) by lia. cbn [andb]. f_equal. lia.
Qed.

Lemma rd_bytes_ext r n c c' : (forall x, r <= x < r + Z.of_nat n -> rd x c' = rd x c) -> rd_bytes r n c' = rd_bytes r n c.
Proof. intros H. apply map_ext_in. intros i Hi. apply in_seq in Hi. apply H. lia. Qed.

(** Registers hold bytes. *)
Definition chip_ok (c : chip) : Prop := forall r, is_byte (rd r c).

Lemma chip_ok_wr r v c : chip_ok c -> chip_ok (wr r v c).
Proof. intros Hc x. rewrite rd_wr. destruct (r =? x); [apply wrap_range; lia|apply Hc]. Qed.

Lemma chip_ok_wr_bytes l r c : chip_ok c -> chip_ok (wr_bytes r l c).
Proof. revert r c. induction l as [|v l IH]; intros r c Hc; [done|]. apply IH. by apply chip_ok_wr. Qed.

Lemma chip_ok_wr_all l c : chip_ok c -> chip_ok (wr_all l c).
Proof. revert c. induction l as [|w l IH]; intros c Hc; [done|]. apply IH. by apply chip_ok_wr. Qed.

Lemma chip_ok_hw r v c : chip_ok c -> chip_ok (hw r v c).
Proof. exact (chip_ok_wr r v c). Qed.

Lemma chip_ok_hw_bytes l r c : chip_ok c -> chip_ok (hw_bytes r l c).
Proof. revert r c. induction l as [|v l IH]; intros r c Hc; [done|]. apply IH. by apply chip_ok_hw. Qed.

Ltac chip_bytes :=
  unfold wr_or, wr_clear;
  repeat match goal with
    | |- chip_ok (wr _ _ _) => apply chip_ok_wr
    | |- chip_ok (wr_all _ _) => apply chip_ok_wr_all
    | |- chip_ok (wr_bytes _ _ _) => apply chip_ok_wr_bytes
    | |- chip_ok (hw _ _ _) => apply chip_ok_hw
    | |- chip_ok (hw_bytes _ _ _) => apply chip_ok_hw_bytes
    end.

(** What a controller sends to the host on an endpoint with the byte count register
    [bc] and the buffer [buf]: the bytes that are in the buffer when the count is
    stored. *)
Definition store (w : Z * Z) (m : Z -> Z) : Z -> Z := <[w.1 := w.2]> m.
Fixpoint packets (bc buf : Z) (l : list (Z * Z)) (m : Z -> Z) : list (list Z) :=
  match l with
  | [] => []
  | w :: l => let m := store w m in
      if w.1 =? bc then map (fun i => m (buf + Z.of_nat i)) (seq 0 (Z.to_nat w.2)) :: packets bc buf l m
      else packets bc buf l m
  end.

Lemma packets_app bc buf l1 l2 m :
  packets bc buf (l1 ++ l2) m = packets bc buf l1 m ++ packets bc buf l2 (fold_left (fun m w => store w m) l1 m).
Proof.
  revert m. induction l1 as [|w l1 IH]; intros m; [done|]. cbn [app packets fold_left].
  destruct (w.1 =? bc); rewrite IH; done.
Qed.

(** The stores of [wr_bytes]. *)
Fixpoint writes (r : Z) (l : list Z) : list (Z * Z) :=
  match l with [] => [] | v :: l => (r, v) :: writes (r + 1) l end.

Lemma log_wr_bytes r l c : bytes_ok l -> log (wr_bytes r l c) = log c ++ writes r l.
Proof.
  intros Hl. revert r c. induction Hl as [|v l Hv Hl IH]; intros r c; cbn [wr_bytes writes]; [by rewrite app_nil_r|].
  rewrite IH. cbn [wr log]. rewrite (wrap_small 8 v) by lia. by rewrite <- app_assoc.
Qed.

Lemma regs_wr_bytes r l c : bytes_ok l -> regs (wr_bytes r l c) = fold_left (fun m w => store w m) (writes r l) (regs c).
Proof.
  intros Hl. revert r c. induction Hl as [|v l Hv Hl IH]; intros r c; cbn [wr_bytes writes fold_left]; [done|].
  rewrite IH. cbn [wr regs]. by rewrite (wrap_small 8 v) by lia.
Qed.

Lemma packets_writes bc buf r l m : bc < r -> packets bc buf (writes r l) m = [].
Proof.
  revert r m. induction l as [|v l IH]; intros r m Hr; [done|]. cbn [writes packets fst]. rewrite (proj2 (Z.eqb_neq _ _)) by lia. apply IH. lia.
Qed.

Lemma regs_hw_bytes l r c1 c2 : regs c1 = regs c2 -> regs (hw_bytes r l c1) = regs (wr_bytes r l c2).
Proof. revert r c1 c2. induction l as [|v l IH]; intros r c1 c2 E; [done|]. apply IH. cbn [hw wr regs]. by rewrite E. Qed.

Lemma log_hw_bytes l r c : log (hw_bytes r l c) = log c.
Proof. revert r c. induction l as [|v l IH]; intros r c; [done|]. apply (IH (r + 1) (hw r v c)). Qed.

Lemma rd_hw_bytes l r x c : rd x (hw_bytes r l c) = rd x (wr_bytes r l c).
Proof. unfold rd. by rewrite (regs_hw_bytes l r c c). Qed.
