(* ===== verification/Usb.v ===== *)
(** The USB bridge of the timing receivers: [src/hdl/eb_usb_core/cdc_acm.c]. It
    enumerates as a serial port with a second, raw interface, tells the FPGA the speed
    of the line and whether the bridge is open, and watches the link. *)
From stdpp Require Import base functions option list.
From Stdlib Require Import ZArith Lia.
From S2P Require Import Prelude Fx2.

(** * Data *)

Definition Rwuen_allowed : bool := false.
Definition Selfpwr : bool := false.
Definition NUM_INTERFACES : Z := 3.

Definition CS_DSCR : Z := 0x24.
Definition HEADER_DSCR : Z := 0.
Definition CALLM_DSCR : Z := 1.
Definition ACM_FM_DSCR : Z := 2.
Definition UNION_DSCR : Z := 6.

(** A string, with the zero byte at its end. *)
Definition USB_strings : list (list Z) := [
  [69; 78; 0];
  [71; 83; 73; 32; 72; 101; 108; 109; 104; 111; 108; 116; 122; 122; 101; 110; 116; 114; 117; 109; 0];
  [85; 83; 66; 45; 123; 83; 101; 114; 105; 97; 108; 44; 87; 105; 115; 104; 98; 111; 110; 101; 125; 32;
   97; 100; 97; 112; 116; 101; 114; 0];
  [87; 104; 105; 116; 101; 32; 82; 97; 98; 98; 105; 116; 32; 67; 111; 110; 115; 111; 108; 101; 32;
   40; 67; 111; 109; 109; 41; 0];
  [87; 104; 105; 116; 101; 32; 82; 97; 98; 98; 105; 116; 32; 67; 111; 110; 115; 111; 108; 101; 32;
   40; 68; 97; 116; 97; 41; 0];
  [85; 83; 66; 45; 87; 105; 115; 104; 98; 111; 110; 101; 32; 66; 114; 105; 100; 103; 101; 0]].

(** The addresses the descriptors are placed at, and their initial contents. *)
Definition myDeviceDscr_at : Z := 0x3c80.
Definition myDeviceQualDscr_at : Z := 0x3cc0.
Definition myConfigDscr_at : Z := 0x3d00.

Definition myDeviceDscr : list Z :=
  [18; DEVICE_DSCR; 0; 2; 2; 0; 0; 64; 0x50; 0x1d; 0x62; 0x60; 0; 1; 1; 2; 0; 1].
Definition myDeviceQualDscr : list Z := [10; DEVQUAL_DSCR; 0; 2; 2; 0; 0; 64; 1; 0].
Definition myConfigDscr_init : list Z :=
  [9; CONFIG_DSCR; LSB 90; MSB 90; NUM_INTERFACES; 1; 0; bmBUSPWR .| bmRWU; 0x1E;
   9; INTRFC_DSCR; 0; 0; 1; 0x02; 0x02; 0x00; 3;
   5; CS_DSCR; HEADER_DSCR; 0x10; 0x01;
   5; CS_DSCR; CALLM_DSCR; 0x0; 0x1;
   4; CS_DSCR; ACM_FM_DSCR; 0x2;
   5; CS_DSCR; UNION_DSCR; 0; 1;
   7; ENDPNT_DSCR; 0x81; EP_INT; 64; 0; 0x02;
   9; INTRFC_DSCR; 1; 0; 2; 0x0A; 0x0; 0x0; 4;
   7; ENDPNT_DSCR; 0x88; EP_BULK; 0; 2; 0;
   7; ENDPNT_DSCR; 0x04; EP_BULK; 0; 2; 0;
   9; INTRFC_DSCR; 2; 0; 2; 0xFF; 0xFF; 0xFF; 5;
   7; ENDPNT_DSCR; 0x86; EP_BULK; 0; 2; 0;
   7; ENDPNT_DSCR; 0x02; EP_BULK; 0; 2; 0].

(** The variables of the program. *)
Record acm := mk_acm {
  a_chip : chip; Rwuen : bool; BulkReason : Z; Configuration : Z;
  InterfaceSetting : list Z; LineCode : list Z; LinkLoss : Z; myConfigDscr : list Z }.

Definition acm_init (c : chip) : acm :=
  mk_acm c false 0 0 [0; 0; 0] [0; 194; 1; 0; 0; 0; 0x8] 0 myConfigDscr_init.

Definition on_chip (f : chip -> chip) (s : acm) : acm :=
  mk_acm (f (a_chip s)) (Rwuen s) (BulkReason s) (Configuration s) (InterfaceSetting s) (LineCode s) (LinkLoss s) (myConfigDscr s).
Definition set_Rwuen (b : bool) (s : acm) : acm :=
  mk_acm (a_chip s) b (BulkReason s) (Configuration s) (InterfaceSetting s) (LineCode s) (LinkLoss s) (myConfigDscr s).
Definition set_BulkReason (x : Z) (s : acm) : acm :=
  mk_acm (a_chip s) (Rwuen s) x (Configuration s) (InterfaceSetting s) (LineCode s) (LinkLoss s) (myConfigDscr s).
Definition set_Configuration (x : Z) (s : acm) : acm :=
  mk_acm (a_chip s) (Rwuen s) (BulkReason s) x (InterfaceSetting s) (LineCode s) (LinkLoss s) (myConfigDscr s).
Definition set_InterfaceSetting (l : list Z) (s : acm) : acm :=
  mk_acm (a_chip s) (Rwuen s) (BulkReason s) (Configuration s) l (LineCode s) (LinkLoss s) (myConfigDscr s).
Definition set_LineCode (l : list Z) (s : acm) : acm :=
  mk_acm (a_chip s) (Rwuen s) (BulkReason s) (Configuration s) (InterfaceSetting s) l (LinkLoss s) (myConfigDscr s).
Definition set_LinkLoss (x : Z) (s : acm) : acm :=
  mk_acm (a_chip s) (Rwuen s) (BulkReason s) (Configuration s) (InterfaceSetting s) (LineCode s) x (myConfigDscr s).
Definition set_ConfigDscr (l : list Z) (s : acm) : acm :=
  mk_acm (a_chip s) (Rwuen s) (BulkReason s) (Configuration s) (InterfaceSetting s) (LineCode s) (LinkLoss s) l.

(** [SETUPDAT[i]] *)
Definition setup (i : Z) (s : acm) : Z := rd (SETUPDAT + i) (a_chip s).

(** * Endpoints *)

(** The variable [epcs_noop]; the linker places it. *)
Definition EPCS_NOOP : Z := 0x20000.

Definition epcs (ep : Z) (c : chip) : Z * chip :=
  let reg off := (0xE6A1 + off, c) in
  switch ep
    [(0x01, reg 0); (0x81, reg 1); (0x02, reg 2); (0x82, reg 2); (0x04, reg 3); (0x84, reg 3);
     (0x06, reg 4); (0x86, reg 4); (0x08, reg 5); (0x88, reg 5)]
    (EPCS_NOOP, wr EPCS_NOOP bmEPSTALL c).

(** * Requests *)

Definition line_speed (LineCode : list Z) : Z :=
  let speed := nth 3 LineCode 0 in let speed := u32 (speed .<< 8) in
  let speed := speed .| nth 2 LineCode 0 in let speed := u32 (speed .<< 8) in
  let speed := speed .| nth 1 LineCode 0 in let speed := u32 (speed .<< 8) in
  speed .| nth 0 LineCode 0.

Definition divisor : Z := 1953125.

Definition line_shift (speed : Z) : Z :=
  let div_hi := speed / divisor in
  let div_lo := speed mod divisor in
  let div_hi := u32 (div_hi .<< 7) in
  let div_lo := u32 (div_lo .<< 7) in
  let div_hi := u32 (div_hi + div_lo / divisor) in
  let div_lo := div_lo mod divisor in
  let div_hi := u32 (div_hi .<< 7) in
  let div_lo := u32 (div_lo .<< 7) in
  let div_lo := u32 (div_lo + divisor / 2) in
  u32 (div_hi + div_lo / divisor).

Fixpoint shift_out (n : nat) (shift : Z) (c : chip) : chip :=
  match n with
  | O => c
  | S n =>
    let c := wr IOA ((rd IOA c .& 0xFE) .| (shift .& 1)) c in
    let c := wr_or IOA 2 c in
    let c := wr_clear IOA 2 c in
    shift_out n (shift .>> 1) c
  end.

Definition BangBaudRate (LineCode : list Z) (c : chip) : chip := shift_out 17 (line_shift (line_speed LineCode)) c.

(** [for (; s != e; s += *s)]: the walk has a fault where a length is zero or leads
    behind the end. *)
Fixpoint modify_loop (fuel : nat) (off : nat) (speed : Z) (d : list Z) : option (list Z) :=
  if (off =? length d)%nat then Some d else
  match fuel with
  | O => None
  | S fuel =>
    len ← d !! off; t ← d !! (off + 1)%nat;
    d ← (if t =? ENDPNT_DSCR then
           a ← d !! (off + 3)%nat;
           if a =? EP_BULK then d ← array_set d (off + 4) (LSB speed); array_set d (off + 5) (MSB speed) else Some d
         else Some d);
    modify_loop fuel (off + Z.to_nat len) speed d
  end.

Definition ModifyDscr (cfg speed : Z) (s : acm) : option acm :=
  d ← array_set (myConfigDscr s) 1 cfg;
  d ← modify_loop (length d) 0 speed d;
  Some (set_ConfigDscr d s).

Definition string_descriptor (s : acm) : option acm :=
  if Z.of_nat (length USB_strings) <=? setup 2 s then Some (on_chip EZUSB_STALL_EP0 s) else
  str ← USB_strings !! Z.to_nat (setup 2 s);
  '(i, c) ← string_loop 31 0 str (a_chip s);
  Some (on_chip (fun _ => wr_all [(EP0BUF + 0, 2 * i + 2); (EP0BUF + 1, STRING_DSCR); (EP0BCH, 0); (EP0BCL, 2 * i + 2)] c) s).

Definition high_speed (s : acm) : bool := negb ((rd USBCS (a_chip s) .& bmHSM) =? 0).

Definition get_descriptor (s : acm) : option acm :=
  let config cfg high full :=
    s ← ModifyDscr cfg (if high_speed s then high else full) s; Some (on_chip (set_SUDPTR myConfigDscr_at) s) in
  switch (setup 3 s)
    [(GD_DEVICE, Some (on_chip (set_SUDPTR myDeviceDscr_at) s));
     (GD_DEVICE_QUALIFIER, Some (on_chip (set_SUDPTR myDeviceQualDscr_at) s));
     (GD_CONFIGURATION, config CONFIG_DSCR 512 64);
     (GD_OTHER_SPEED_CONFIGURATION, config OTHERSPEED_DSCR 64 512);
     (GD_STRING, string_descriptor s)]
    (Some (on_chip EZUSB_STALL_EP0 s)).

Definition get_interface (s : acm) : option acm :=
  let interface := setup 4 s in
  if interface <? NUM_INTERFACES then
    x ← InterfaceSetting s !! Z.to_nat interface; Some (on_chip (ep0_answer [x]) s)
  else Some (on_chip EZUSB_STALL_EP0 s).

Definition set_interface (s : acm) : option acm :=
  let interface := setup 4 s in
  if interface <? NUM_INTERFACES then
    l ← array_set (InterfaceSetting s) (Z.to_nat interface) (setup 2 s); Some (set_InterfaceSetting l s)
  else Some (on_chip EZUSB_STALL_EP0 s).

Definition get_status (s : acm) : acm :=
  switch (setup 0 s)
    [(GS_DEVICE, on_chip (ep0_answer [(c_bool (Rwuen s) .<< 1) .| c_bool Selfpwr; 0]) s);
     (GS_INTERFACE, on_chip (ep0_answer [0; 0]) s);
     (GS_ENDPOINT, on_chip (fun c => let '(r, c) := epcs (setup 4 s) c in ep0_answer [rd r c .& bmEPSTALL; 0] c) s)]
    (on_chip EZUSB_STALL_EP0 s).

Definition clear_feature (s : acm) : acm :=
  switch (setup 0 s)
    [(FT_DEVICE, if setup 2 s =? 1 then set_Rwuen false s else on_chip EZUSB_STALL_EP0 s);
     (FT_ENDPOINT,
       if setup 2 s =? 0 then
         on_chip (fun c => let '(r, c) := epcs (setup 4 s) c in EZUSB_RESET_DATA_TOGGLE (setup 4 s) (wr_clear r bmEPSTALL c)) s
       else on_chip EZUSB_STALL_EP0 s)]
    s.

Definition set_feature (s : acm) : acm :=
  switch (setup 0 s)
    [(FT_DEVICE, if (setup 2 s =? 1) && Rwuen_allowed then set_Rwuen true s else on_chip EZUSB_STALL_EP0 s);
     (FT_ENDPOINT, on_chip (fun c => let '(r, c) := epcs (setup 4 s) c in wr_or r bmEPSTALL c) s)]
    (on_chip EZUSB_STALL_EP0 s).

Definition standard_request (s : acm) : option acm :=
  switch (setup 1 s)
    [(SC_GET_DESCRIPTOR, get_descriptor s);
     (SC_GET_INTERFACE, get_interface s);
     (SC_SET_INTERFACE, set_interface s);
     (SC_SET_CONFIGURATION, Some (set_Configuration (setup 2 s) s));
     (SC_GET_CONFIGURATION, Some (on_chip (ep0_answer [Configuration s]) s));
     (SC_GET_STATUS, Some (get_status s));
     (SC_CLEAR_FEATURE, Some (clear_feature s));
     (SC_SET_FEATURE, Some (set_feature s))]
    (Some (on_chip EZUSB_STALL_EP0 s)).

Definition class_request (s : acm) : acm :=
  switch (setup 1 s)
    [(0x00, s); (0x01, s);
     (0x20, set_BulkReason 1 (on_chip (wr EP0BCL 0) s));
     (0x21, on_chip (ep0_answer (LineCode s)) s);
     (0x22, s)]
    (on_chip EZUSB_STALL_EP0 s).

Definition vendor_request (s : acm) : acm :=
  switch (setup 1 s)
    [(0xB0, on_chip (fun c => wr IOA ((rd IOA c .& 0xF7) .| ((setup 2 s .& 1) .<< 3)) c) s)]
    (on_chip EZUSB_STALL_EP0 s).

Definition SetupCommand (s : acm) : option acm :=
  s ← switch (setup 0 s .& SETUP_MASK)
        [(SETUP_STANDARD_REQUEST, standard_request s);
         (SETUP_CLASS_REQUEST, Some (class_request s));
         (SETUP_VENDOR_REQUEST, Some (vendor_request s))]
        (Some (on_chip EZUSB_STALL_EP0 s));
  Some (on_chip (wr_or EP0CS bmHSNAK) s).

Definition BulkCommand (s : acm) : acm :=
  let s := switch (BulkReason s)
    [(1, let s := set_LineCode (rd_bytes EP0BUF 7 (a_chip s)) s in on_chip (BangBaudRate (LineCode s)) s)] s in
  set_BulkReason 0 s.

(** * Interrupts *)

Definition USB_isr (s : acm) : option acm :=
  let s := on_chip (wr_clear EXIF 0x10) s in
  switch (rd INT2IVEC (a_chip s))
    [(0x0, SetupCommand (on_chip (wr USBIRQ 0x01) s));
     (0x4, Some (set_LinkLoss 0 (on_chip (wr USBIRQ 0x02) s)));
     (0x24, Some (BulkCommand (on_chip (wr EPIRQ 0x2) s)))]
    (Some s).

Definition timer_isr (s : acm) : acm :=
  let s := on_chip (wr_clear T2CON 0xC0) s in
  if LinkLoss s <? 20 then set_LinkLoss (LinkLoss s + 1) s
  else on_chip (fun c => wr IOA (rd IOA c .& 0xF7) c) s.

(** * Start *)

Definition Initialize (s : acm) : acm :=
  let s := on_chip (wr_all
    [(CPUCS, 0x10); (IFCONFIG, 0xCB); (REVCTL, 0x03); (PINFLAGSAB, 0x00); (PINFLAGSCD, 0x00); (FIFOPINPOLAR, 0x00);
     (PORTACFG, 0x00)]) s in
  let s := on_chip (wr_clear IE 3) s in
  let s := on_chip (wr_all
    [(IOA, 0x80); (OEA, 0x8b);
     (EP2CFG, 0x00); (EP4CFG, 0x00); (EP6CFG, 0x00); (EP8CFG, 0x00);
     (EP2FIFOCFG, 0x00); (EP4FIFOCFG, 0x00); (EP6FIFOCFG, 0x00); (EP8FIFOCFG, 0x00);
     (EP1OUTCFG, 0xa0); (EP1INCFG, 0xb0); (EP2CFG, 0xa2); (EP4CFG, 0xa0); (EP6CFG, 0xe2); (EP8CFG, 0xe0);
     (FIFORESET, 0x80); (FIFORESET, 0x82); (FIFORESET, 0x84); (FIFORESET, 0x86); (FIFORESET, 0x88); (FIFORESET, 0x80);
     (FIFORESET, 0x00);
     (OUTPKTEND, 0x82); (OUTPKTEND, 0x82); (OUTPKTEND, 0x82); (OUTPKTEND, 0x82);
     (OUTPKTEND, 0x84); (OUTPKTEND, 0x84); (OUTPKTEND, 0x84); (OUTPKTEND, 0x84);
     (EP2FIFOCFG, 0x10); (EP4FIFOCFG, 0x10); (EP6FIFOCFG, 0x0C); (EP8FIFOCFG, 0x0C);
     (EP2AUTOINLENH, 0x02); (EP2AUTOINLENL, 0x00); (EP4AUTOINLENH, 0x02); (EP4AUTOINLENL, 0x00);
     (EP6AUTOINLENH, 0x02); (EP6AUTOINLENL, 0x00); (EP8AUTOINLENH, 0x02); (EP8AUTOINLENL, 0x00);
     (SUDPTRCTL, 1)]) s in
  let s := on_chip (BangBaudRate (LineCode s)) s in
  let s := on_chip (fun c => wr IOA (rd IOA c .& 0x7F) c) s in
  let s := on_chip (wr_or USBCS 0x04) s in
  let s := on_chip (wr_or CKCO 0x38) s in
  let s := on_chip (wr_all
    [(RCAP2H, Z.lnot ((12000 - 1) / 256)); (RCAP2L, Z.lnot ((12000 - 1) mod 256)); (T2CON, 0x04);
     (IE, 0xA0); (EIE, 0x01); (USBIE, 0x03); (EPIE, 0x2)]) s in
  on_chip (wr_or USBCS 0x02) s.

(** [main], up to the loop that waits for interrupts. *)
Definition boot (s : acm) : acm :=
  on_chip (wr_clear USBCS 0x08) (Initialize (on_chip (wr_or USBCS 0x08) s)).

(** * The speed of the line *)

(** The speed times 2^19 / 62.5 MHz, rounded to the nearest integer. *)
Lemma line_shift_rounds speed : 0 <= speed < 2 ^ 32 ->
  Z.abs (line_shift speed * 1953125 - speed * 2 ^ 14) <= 976562 /\ 0 <= line_shift speed < 2 ^ 26.
Proof.
  intros Hs. change (2 ^ 32) with 4294967296 in Hs. change (2 ^ 14) with 16384. change (2 ^ 26) with 67108864.
  unfold line_shift, divisor. rewrite !Z.shiftl_mul_pow2 by lia. change (2 ^ 7) with 128.
  pose proof (Z.div_mod speed 1953125 ltac:(lia)) as E1. pose proof (Z.mod_pos_bound speed 1953125 ltac:(lia)) as B1.
  set (h := speed / 1953125) in *. set (l := speed mod 1953125) in *. clearbody h l.
  rewrite (wrap_small 32 (h * _)), (wrap_small 32 (l * _)) by (change (2 ^ 32) with 4294967296; lia).
  pose proof (Z.div_mod (l * 128) 1953125 ltac:(lia)) as E2. pose proof (Z.mod_pos_bound (l * 128) 1953125 ltac:(lia)) as B2.
  set (h2 := l * 128 / 1953125) in *. set (l2 := (l * 128) mod 1953125) in *. clearbody h2 l2.
  rewrite (wrap_small 32 (h * _ + _)) by (change (2 ^ 32) with 4294967296; lia).
  rewrite (wrap_small 32 ((h * _ + _) * _)), (wrap_small 32 (l2 * _)) by (change (2 ^ 32) with 4294967296; lia).
  change (1953125 / 2) with 976562. rewrite (wrap_small 32 (l2 * _ + _)) by (change (2 ^ 32) with 4294967296; lia).
  pose proof (Z.div_mod (l2 * 128 + 976562) 1953125 ltac:(lia)) as E3.
  pose proof (Z.mod_pos_bound (l2 * 128 + 976562) 1953125 ltac:(lia)) as B3.
  set (h3 := (l2 * 128 + 976562) / 1953125) in *. set (l3 := (l2 * 128 + 976562) mod 1953125) in *. clearbody h3 l3.
  rewrite (wrap_small 32) by (change (2 ^ 32) with 4294967296; lia). lia.
Qed.

(** What the FPGA samples: pin 0 at every rising edge of pin 1. *)
Fixpoint clocked (prev : Z) (l : list (Z * Z)) : list Z :=
  match l with
  | [] => []
  | (r, v) :: l =>
    if r =? IOA then
      if (prev .& 2 =? 0) && negb (v .& 2 =? 0) then (v .& 1) :: clocked v l else clocked v l
    else clocked prev l
  end.

Definition clock_facts (ioa b : Z) : bool :=
  let v1 := u8 ((ioa .& 0xFE) .| b) in let v2 := u8 (v1 .| 2) in let v3 := u8 (v2 .& Z.lnot 2) in
  if ioa .& 2 =? 0 then
    (v1 .& 2 =? 0) && negb (v2 .& 2 =? 0) && (v2 .& 1 =? b) && (v3 .& 2 =? 0) && (v3 .& 0xFC =? ioa .& 0xFC)
  else true.

Lemma clock_facts_ok ioa b : is_byte ioa -> b = 0 \/ b = 1 -> clock_facts ioa b = true.
Proof.
  intros Hi [-> | ->]; [apply (byte_forall (fun i => clock_facts i 0))|apply (byte_forall (fun i => clock_facts i 1))];
    try done; vm_compute; reflexivity.
Qed.

Lemma bit_0 x : x .& 1 = 0 \/ x .& 1 = 1.
Proof. change 1 with (Z.ones 1) at 1 2. rewrite Z.land_ones by lia. change (2 ^ 1) with 2. pose proof (Z.mod_pos_bound x 2 ltac:(lia)). lia. Qed.

Lemma shift_out_clocks n shift c : is_byte (rd IOA c) -> rd IOA c .& 2 = 0 ->
  exists l, log (shift_out n shift c) = log c ++ l /\
    clocked (rd IOA c) l = map (fun i => (shift .>> Z.of_nat i) .& 1) (seq 0 n) /\
    (forall r, r <> IOA -> rd r (shift_out n shift c) = rd r c) /\
    is_byte (rd IOA (shift_out n shift c)) /\ rd IOA (shift_out n shift c) .& 2 = 0 /\
    rd IOA (shift_out n shift c) .& 0xFC = rd IOA c .& 0xFC.
Proof.
  revert shift c. induction n as [|n IH]; intros shift c Hb H2.
  - exists []. cbn. by rewrite app_nil_r.
  - pose proof (clock_facts_ok _ (shift .& 1) Hb (bit_0 shift)) as F. unfold clock_facts in F. rewrite H2 in F. cbn [Z.eqb] in F.
    cbn [shift_out]. unfold wr_or, wr_clear. rewrite !rd_wr_eq.
    set (v1 := u8 ((rd IOA c .& 0xFE) .| (shift .& 1))) in *. set (v2 := u8 (v1 .| 2)) in *. set (v3 := u8 (v2 .& Z.lnot 2)) in *.
    repeat (apply andb_prop in F as [F ?]). bool_hyps.
    match goal with |- context [shift_out n _ ?c'] => set (c3 := c') end.
    assert (rd IOA c3 = v3) as E3 by (unfold c3; by rewrite rd_wr_eq).
    destruct (IH (shift .>> 1) c3) as (l & El & Cl & Hr & Hb' & H2' & Hk); [rewrite E3; apply wrap_range; lia|by rewrite E3|].
    exists ([(IOA, v1); (IOA, v2); (IOA, v3)] ++ l).
    split; [rewrite El; unfold c3, wr; cbn [log]; rewrite <- !app_assoc; reflexivity|].
    split; [|split; [|split; [done|split; [done|by rewrite Hk, E3]]]].
    + cbn [app clocked]. rewrite Z.eqb_refl, H2. change (0 =? 0) with true.
      match goal with H : v1 .& 2 = 0 |- _ => rewrite H end. change (0 =? 0) with true. cbn [negb andb].
      rewrite (proj2 (Z.eqb_neq (v2 .& 2) 0)) by done. cbn [negb andb].
      cbn [seq]. rewrite <- seq_shift, map_cons, map_map. f_equal; [done|]. rewrite E3 in Cl. rewrite Cl. apply map_ext. intros i.
      rewrite Z.shiftr_shiftr by lia. do 2 f_equal. lia.
    + intros r Hr'. rewrite Hr by done. unfold c3. by rewrite !rd_wr_ne by done.
Qed.

Lemma line_speed_value b0 b1 b2 b3 rest : is_byte b0 -> is_byte b1 -> is_byte b2 -> is_byte b3 ->
  line_speed (b0 :: b1 :: b2 :: b3 :: rest) = b0 + 256 * b1 + 65536 * b2 + 16777216 * b3.
Proof.
  intros H0 H1 H2 H3. unfold line_speed. cbn [nth]. rewrite !Z.shiftl_mul_pow2 by lia.
  rewrite (wrap_small 32 (b3 * 2 ^ 8)) by lia. rewrite (lor_join b3 8 b2) by lia.
  rewrite (wrap_small 32 ((b3 * 2 ^ 8 + b2) * _)) by lia. rewrite (lor_join (b3 * 2 ^ 8 + b2) 8 b1) by lia.
  rewrite (wrap_small 32 (((b3 * 2 ^ 8 + b2) * _ + b1) * _)) by lia. rewrite (lor_join ((b3 * 2 ^ 8 + b2) * 2 ^ 8 + b1) 8 b0) by lia.
  change (2 ^ 8) with 256. lia.
Qed.

(** * Invariants *)

(** The configuration descriptor for a type and a packet size. *)
Definition config_dscr (cfg speed : Z) : list Z :=
  take 1 myConfigDscr_init ++ [cfg] ++ slice myConfigDscr_init 2 55 ++ [LSB speed; MSB speed] ++ slice myConfigDscr_init 59 5 ++
  [LSB speed; MSB speed] ++ slice myConfigDscr_init 66 14 ++ [LSB speed; MSB speed] ++ slice myConfigDscr_init 82 5 ++
  [LSB speed; MSB speed] ++ [0].

Definition configs : list (Z * Z) := [(CONFIG_DSCR, 512); (CONFIG_DSCR, 64); (OTHERSPEED_DSCR, 64); (OTHERSPEED_DSCR, 512)].

Record acm_ok (s : acm) : Prop := {
  ok_chip : chip_ok (a_chip s);
  ok_settings : length (InterfaceSetting s) = 3%nat;
  ok_code : length (LineCode s) = 7%nat /\ bytes_ok (LineCode s);
  ok_loss : 0 <= LinkLoss s <= 20;
  ok_config : exists cs, In cs configs /\ myConfigDscr s = config_dscr cs.1 cs.2 }.

Lemma chip_ok_answer l c : chip_ok c -> chip_ok (ep0_answer l c).
Proof. intros Hc. by apply chip_ok_wr_all, chip_ok_wr_bytes. Qed.

Lemma chip_ok_shift_out n shift c : chip_ok c -> chip_ok (shift_out n shift c).
Proof. revert shift c. induction n as [|n IH]; intros shift c Hc; [done|]. apply IH. by do 3 apply chip_ok_wr. Qed.

Lemma chip_ok_epcs ep c : chip_ok c -> chip_ok (epcs ep c).2.
Proof. intros Hc. unfold epcs. cbn [switch]. repeat case_match; try done. by apply chip_ok_wr. Qed.

Lemma acm_ok_chip f s : acm_ok s -> chip_ok (f (a_chip s)) -> acm_ok (on_chip f s).
Proof. intros [] Hf. by split. Qed.

(** ** The registers a request leaves alone *)

Lemma rd_wr_bytes_below l x r c : x < r -> rd x (wr_bytes r l c) = rd x c.
Proof.
  revert r c. induction l as [|v l IH]; intros r c Hx; [done|]. cbn [wr_bytes]. rewrite IH by lia. apply rd_wr_ne. lia.
Qed.

Lemma answer_cs l c : rd EP0CS (ep0_answer l c) = rd EP0CS c.
Proof.
  unfold ep0_answer, wr_all. cbn [fold_left fst snd]. rewrite !rd_wr_ne by (unfold EP0BCL, EP0BCH, EP0CS; lia).
  apply rd_wr_bytes_below. unfold EP0CS, EP0BUF. lia.
Qed.

(** The request is in the state [s]; the outcome [o] leaves a good state, with the
    stall bit of endpoint 0 set as [stalled] says. *)
Definition outcome (stalled : bool) (s : acm) (o : option acm) : Prop :=
  exists s', o = Some s' /\ acm_ok s' /\
    rd EP0CS (a_chip s') = if stalled then u8 (rd EP0CS (a_chip s) .| bmEPSTALL) else rd EP0CS (a_chip s).

Lemma outcome_stall s : acm_ok s -> outcome true s (Some (on_chip EZUSB_STALL_EP0 s)).
Proof. intros Hs. eexists. split; [done|]. split; [apply acm_ok_chip; [done|]; apply chip_ok_wr, Hs|]. apply rd_wr_eq. Qed.

Lemma outcome_chip f s : acm_ok s -> (chip_ok (a_chip s) -> chip_ok (f (a_chip s))) ->
  rd EP0CS (f (a_chip s)) = rd EP0CS (a_chip s) -> outcome false s (Some (on_chip f s)).
Proof. intros Hs Hf Hr. eexists. split; [done|]. split; [apply acm_ok_chip; [done|]; apply Hf, Hs|done]. Qed.

Lemma outcome_answer l s : acm_ok s -> outcome false s (Some (on_chip (ep0_answer l) s)).
Proof. intros Hs. apply outcome_chip; [done|apply chip_ok_answer|apply answer_cs]. Qed.

Lemma outcome_var f s : acm_ok (f s) -> a_chip (f s) = a_chip s -> outcome false s (Some (f s)).
Proof. intros Hs E. eexists. split; [done|]. by rewrite E. Qed.

(** ** Descriptors *)

Lemma ModifyDscr_spec cfg speed s : In (cfg, speed) configs -> acm_ok s ->
  ModifyDscr cfg speed s = Some (set_ConfigDscr (config_dscr cfg speed) s).
Proof.
  intros Hin [_ _ _ _ ([cfg' speed'] & Hin' & E)]. unfold ModifyDscr. rewrite E. cbn [fst snd].
  cbn in Hin, Hin'. destruct Hin as [[= <- <-]|[[= <- <-]|[[= <- <-]|[[= <- <-]|[]]]]], Hin' as [[= <- <-]|[[= <- <-]|[[= <- <-]|[[= <- <-]|[]]]]];
    match goal with |- context [array_set ?d 1 ?x] => let v := eval vm_compute in (array_set d 1 x) in change (array_set d 1 x) with v end;
    cbn [mbind option_bind];
    match goal with |- context [modify_loop ?n 0 ?x ?d] => let v := eval vm_compute in (modify_loop n 0 x d) in
      replace (modify_loop n 0 x d) with v by (vm_compute; reflexivity) end; reflexivity.
Qed.

Lemma outcome_config cfg speed s : In (cfg, speed) configs -> acm_ok s ->
  outcome false s (s ← ModifyDscr cfg speed s; Some (on_chip (set_SUDPTR myConfigDscr_at) s)).
Proof.
  intros Hin Hs. rewrite (ModifyDscr_spec _ _ _ Hin Hs). cbn [mbind option_bind]. eexists. split; [done|]. destruct Hs as [Hc ? ? ? ?]. split.
  - split; try done; [by apply chip_ok_wr_all|]. by exists (cfg, speed).
  - reflexivity.
Qed.

(** A string ends within the buffer. *)
Lemma string_loop_spec n i str c : In 0 str -> exists j c', string_loop n i str c = Some (j, c') /\
  i <= j <= i + Z.of_nat n /\ (chip_ok c -> chip_ok c') /\ (0 <= i -> rd EP0CS c' = rd EP0CS c).
Proof.
  revert i str c. induction n as [|n IH]; intros i str c Hz; [exists i, c; split_and!; [done|lia|lia|done|done]|].
  destruct str as [|ch str]; [done|]. cbn [string_loop]. destruct (Z.eqb_spec ch 0) as [->|Hch].
  - exists i, c. split_and!; [done|lia|lia|done|done].
  - destruct Hz as [Hz|Hz]; [done|].
    destruct (IH (i + 1) str (wr_all [(EP0BUF + (2 * i + 2), ch); (EP0BUF + (2 * i + 3), 0)] c) Hz) as (j & c' & R & Hj & Hc & Hr).
    exists j, c'. split_and!; [done|lia|lia|intros Hc0; by apply Hc, chip_ok_wr_all|]. intros Hi. rewrite Hr by lia.
    unfold wr_all. cbn [fold_left fst snd]. by rewrite !rd_wr_ne by (unfold EP0BUF, EP0CS; lia).
Qed.

Lemma strings_end : Forall (fun str => In 0 str) USB_strings.
Proof. repeat (constructor; [cbn; tauto|]). constructor. Qed.

Lemma outcome_string s : acm_ok s -> outcome (6 <=? setup 2 s) s (string_descriptor s).
Proof.
  intros Hs. unfold string_descriptor. change (Z.of_nat (length USB_strings)) with 6.
  destruct (Z.leb_spec 6 (setup 2 s)) as [_|Hlt]; [by apply outcome_stall|].
  pose proof (ok_chip s Hs (SETUPDAT + 2)) as Hb. fold (setup 2 s) in Hb.
  destruct (lookup_lt_is_Some_2 USB_strings (Z.to_nat (setup 2 s))) as (str & Hstr); [change (length USB_strings) with 6%nat; lia|].
  rewrite Hstr. cbn [mbind option_bind].
  destruct (string_loop_spec 31 0 str (a_chip s)) as (j & c & R & Hj & Hc & Hr); [exact (Forall_lookup_1 _ _ _ _ strings_end Hstr)|].
  rewrite R. cbn [mbind option_bind]. apply outcome_chip; [done|intros Hc0; by apply chip_ok_wr_all, Hc|].
  rewrite <- Hr by lia. unfold wr_all. cbn [fold_left fst snd]. by rewrite !rd_wr_ne by (unfold EP0BUF, EP0BCH, EP0BCL, EP0CS; lia).
Qed.

(** * Requests *)

(** Which requests are refused: [rt] is the request type, [rq] the request, [lo] and
    [hi] its value, [ix] its index. *)
Definition refused_standard (rt rq lo hi ix : Z) : bool :=
  if rq =? SC_GET_DESCRIPTOR then
    if hi =? GD_STRING then 6 <=? lo
    else negb (existsb (Z.eqb hi) [GD_DEVICE; GD_DEVICE_QUALIFIER; GD_CONFIGURATION; GD_OTHER_SPEED_CONFIGURATION])
  else if (rq =? SC_GET_INTERFACE) || (rq =? SC_SET_INTERFACE) then 3 <=? ix
  else if rq =? SC_GET_STATUS then negb (existsb (Z.eqb rt) [GS_DEVICE; GS_INTERFACE; GS_ENDPOINT])
  else if rq =? SC_CLEAR_FEATURE then (rt =? FT_DEVICE) && negb (lo =? 1) || (rt =? FT_ENDPOINT) && negb (lo =? 0)
  else if rq =? SC_SET_FEATURE then negb (rt =? FT_ENDPOINT)
  else negb ((rq =? SC_SET_CONFIGURATION) || (rq =? SC_GET_CONFIGURATION)).

Definition refused (rt rq lo hi ix : Z) : bool :=
  let kind := rt .& SETUP_MASK in
  if kind =? SETUP_STANDARD_REQUEST then refused_standard rt rq lo hi ix
  else if kind =? SETUP_CLASS_REQUEST then negb (existsb (Z.eqb rq) [0x00; 0x01; 0x20; 0x21; 0x22])
  else if kind =? SETUP_VENDOR_REQUEST then negb (rq =? 0xB0) else true.

Lemma epcs_place ep c : (epcs ep c).1 <> EP0CS /\ rd EP0CS (epcs ep c).2 = rd EP0CS c.
Proof.
  unfold epcs. cbn [switch]. repeat case_match; cbn [fst snd]; (split; [unfold EP0CS, EPCS_NOOP; lia|done]).
Qed.

Lemma outcome_endpoint f s : acm_ok s ->
  (forall r c, r <> EP0CS -> (chip_ok c -> chip_ok (f r c)) /\ rd EP0CS (f r c) = rd EP0CS c) ->
  outcome false s (Some (on_chip (fun c => let '(r, c) := epcs (setup 4 s) c in f r c) s)).
Proof.
  intros Hs Hf. destruct (epcs_place (setup 4 s) (a_chip s)) as [Hr He]. pose proof (chip_ok_epcs (setup 4 s) (a_chip s)) as Hc.
  destruct (epcs (setup 4 s) (a_chip s)) as [r c] eqn:E. cbn [fst snd] in *. destruct (Hf r c Hr) as [F1 F2].
  apply outcome_chip; [done|rewrite E; intros Hok; by apply F1, Hc|rewrite E; by rewrite F2].
Qed.

Lemma outcome_descriptor s : acm_ok s ->
  outcome (refused_standard (setup 0 s) SC_GET_DESCRIPTOR (setup 2 s) (setup 3 s) (setup 4 s)) s (get_descriptor s).
Proof.
  intros Hs. unfold get_descriptor, refused_standard, SC_GET_DESCRIPTOR, GD_DEVICE, GD_DEVICE_QUALIFIER, GD_CONFIGURATION, GD_OTHER_SPEED_CONFIGURATION, GD_STRING.
  cbn [switch existsb Z.eqb Pos.eqb].
  destruct (Z.eqb_spec (setup 3 s) 1) as [->|N1]; [by apply outcome_chip; [|apply chip_ok_wr_all|]|].
  destruct (Z.eqb_spec (setup 3 s) 6) as [->|N6]; [by apply outcome_chip; [|apply chip_ok_wr_all|]|].
  destruct (Z.eqb_spec (setup 3 s) 2) as [->|N2]; [by destruct (high_speed s); apply outcome_config; [cbn; tauto| |cbn; tauto|]|].
  destruct (Z.eqb_spec (setup 3 s) 7) as [->|N7]; [by destruct (high_speed s); apply outcome_config; [cbn; tauto| |cbn; tauto|]|].
  destruct (Z.eqb_spec (setup 3 s) 3) as [_|N3]; [by apply outcome_string|]. by apply outcome_stall.
Qed.

Lemma outcome_get_interface s : acm_ok s -> outcome (3 <=? setup 4 s) s (get_interface s).
Proof.
  intros Hs. unfold get_interface, NUM_INTERFACES. pose proof (ok_chip s Hs (SETUPDAT + 4)) as Hb. fold (setup 4 s) in Hb.
  destruct (Z.leb_spec 3 (setup 4 s)), (Z.ltb_spec (setup 4 s) 3); try lia; [by apply outcome_stall|].
  destruct (lookup_lt_is_Some_2 (InterfaceSetting s) (Z.to_nat (setup 4 s))) as (x & ->); [rewrite ok_settings by done; lia|].
  by apply outcome_answer.
Qed.

Lemma outcome_set_interface s : acm_ok s -> outcome (3 <=? setup 4 s) s (set_interface s).
Proof.
  intros Hs. unfold set_interface, NUM_INTERFACES. pose proof (ok_chip s Hs (SETUPDAT + 4)) as Hb. fold (setup 4 s) in Hb.
  destruct (Z.leb_spec 3 (setup 4 s)), (Z.ltb_spec (setup 4 s) 3); try lia; [by apply outcome_stall|].
  rewrite array_set_lt by (rewrite ok_settings by done; lia). cbn [mbind option_bind].
  apply (outcome_var (set_InterfaceSetting _)); [|done]. destruct Hs. split; try done. cbn [InterfaceSetting set_InterfaceSetting]. by rewrite length_insert.
Qed.

Lemma outcome_status s : acm_ok s ->
  outcome (refused_standard (setup 0 s) SC_GET_STATUS (setup 2 s) (setup 3 s) (setup 4 s)) s (Some (get_status s)).
Proof.
  intros Hs. unfold get_status, refused_standard, SC_GET_STATUS, GS_DEVICE, GS_INTERFACE, GS_ENDPOINT. cbn [switch existsb].
  destruct (Z.eqb_spec (setup 0 s) 0x80); [by apply outcome_answer|].
  destruct (Z.eqb_spec (setup 0 s) 0x81); [by apply outcome_answer|].
  destruct (Z.eqb_spec (setup 0 s) 0x82); [|by apply outcome_stall].
  apply (outcome_endpoint (fun r c => ep0_answer [rd r c .& bmEPSTALL; 0] c)); [done|]. intros r c _. split; [apply chip_ok_answer|apply answer_cs].
Qed.

Lemma outcome_clear_feature s : acm_ok s ->
  outcome (refused_standard (setup 0 s) SC_CLEAR_FEATURE (setup 2 s) (setup 3 s) (setup 4 s)) s (Some (clear_feature s)).
Proof.
  intros Hs. unfold clear_feature, refused_standard, SC_CLEAR_FEATURE, FT_DEVICE, FT_ENDPOINT. cbn [switch].
  destruct (Z.eqb_spec (setup 0 s) 0) as [->|N0].
  - destruct (setup 2 s =? 1); [|by apply outcome_stall]. apply (outcome_var (set_Rwuen _)); [|done]. by destruct Hs.
  - destruct (Z.eqb_spec (setup 0 s) 2) as [->|N2]; [|by apply (outcome_var (fun s => s))].
    destruct (setup 2 s =? 0); [|by apply outcome_stall].
    apply (outcome_endpoint (fun r c => EZUSB_RESET_DATA_TOGGLE (setup 4 s) (wr_clear r bmEPSTALL c))); [done|].
    intros r c Hr. split; [intros Hc; by do 3 apply chip_ok_wr|].
    unfold EZUSB_RESET_DATA_TOGGLE, wr_or, wr_clear. by rewrite !rd_wr_ne by (done || (unfold TOGCTL, EP0CS; lia)).
Qed.

Lemma outcome_set_feature s : acm_ok s ->
  outcome (refused_standard (setup 0 s) SC_SET_FEATURE (setup 2 s) (setup 3 s) (setup 4 s)) s (Some (set_feature s)).
Proof.
  intros Hs. unfold set_feature, refused_standard, SC_SET_FEATURE, FT_DEVICE, FT_ENDPOINT. cbn [switch].
  destruct (Z.eqb_spec (setup 0 s) 0) as [->|N0]; [rewrite andb_false_r; by apply outcome_stall|].
  destruct (Z.eqb_spec (setup 0 s) 2) as [->|N2]; [|by apply outcome_stall].
  apply (outcome_endpoint (fun r c => wr_or r bmEPSTALL c)); [done|]. intros r c Hr. split; [by apply chip_ok_wr|by apply rd_wr_ne].
Qed.

Lemma outcome_standard s : acm_ok s ->
  outcome (refused_standard (setup 0 s) (setup 1 s) (setup 2 s) (setup 3 s) (setup 4 s)) s (standard_request s).
Proof.
  intros Hs. unfold standard_request, SC_GET_DESCRIPTOR, SC_GET_INTERFACE, SC_SET_INTERFACE, SC_SET_CONFIGURATION, SC_GET_CONFIGURATION, SC_GET_STATUS, SC_CLEAR_FEATURE, SC_SET_FEATURE.
  cbn [switch].
  destruct (Z.eqb_spec (setup 1 s) 6) as [->|N6]; [by apply outcome_descriptor|].
  destruct (Z.eqb_spec (setup 1 s) 10) as [->|NA]; [by apply outcome_get_interface|].
  destruct (Z.eqb_spec (setup 1 s) 11) as [->|NB]; [by apply outcome_set_interface|].
  destruct (Z.eqb_spec (setup 1 s) 9) as [->|N9]; [by apply (outcome_var (set_Configuration _)); [destruct Hs|]|].
  destruct (Z.eqb_spec (setup 1 s) 8) as [->|N8]; [by apply outcome_answer|].
  destruct (Z.eqb_spec (setup 1 s) 0) as [->|N0]; [by apply outcome_status|].
  destruct (Z.eqb_spec (setup 1 s) 1) as [->|N1]; [by apply outcome_clear_feature|].
  destruct (Z.eqb_spec (setup 1 s) 3) as [->|N3]; [by apply outcome_set_feature|].
  unfold refused_standard, SC_GET_DESCRIPTOR, SC_GET_INTERFACE, SC_SET_INTERFACE, SC_SET_CONFIGURATION, SC_GET_CONFIGURATION, SC_GET_STATUS, SC_CLEAR_FEATURE, SC_SET_FEATURE.
  rewrite !(proj2 (Z.eqb_neq (setup 1 s) _)) by done. by apply outcome_stall.
Qed.

Lemma outcome_class s : acm_ok s ->
  outcome (negb (existsb (Z.eqb (setup 1 s)) [0x00; 0x01; 0x20; 0x21; 0x22])) s (Some (class_request s)).
Proof.
  intros Hs. unfold class_request. cbn [switch existsb].
  destruct (setup 1 s =? 0); [by apply (outcome_var (fun s => s))|].
  destruct (setup 1 s =? 1); [by apply (outcome_var (fun s => s))|].
  destruct (setup 1 s =? 0x20).
  - eexists. split; [done|]. split; [|by apply rd_wr_ne]. destruct Hs. split; try done. by apply chip_ok_wr.
  - destruct (setup 1 s =? 0x21); [by apply outcome_answer|].
    destruct (setup 1 s =? 0x22); [by apply (outcome_var (fun s => s))|]. by apply outcome_stall.
Qed.

(** Every setup packet is handled without a fault, whatever its bytes: the invariant
    holds again, the handshake is acknowledged, and endpoint 0 is stalled for exactly
    the requests that [refused] lists. *)
Theorem setup_answered (s : acm) (Hs : acm_ok s) (Hidle : rd EP0CS (a_chip s) = 0) :
  exists s', SetupCommand s = Some s' /\ acm_ok s' /\
    rd EP0CS (a_chip s') = bmHSNAK .| (if refused (setup 0 s) (setup 1 s) (setup 2 s) (setup 3 s) (setup 4 s) then bmEPSTALL else 0).
Proof.
  assert (outcome (refused (setup 0 s) (setup 1 s) (setup 2 s) (setup 3 s) (setup 4 s)) s
    (switch (setup 0 s .& SETUP_MASK)
        [(SETUP_STANDARD_REQUEST, standard_request s);
         (SETUP_CLASS_REQUEST, Some (class_request s));
         (SETUP_VENDOR_REQUEST, Some (vendor_request s))]
        (Some (on_chip EZUSB_STALL_EP0 s)))) as (s1 & E & Hs1 & Hcs).
  { unfold refused. cbn [switch]. destruct (_ =? SETUP_STANDARD_REQUEST); [by apply outcome_standard|].
    destruct (_ =? SETUP_CLASS_REQUEST); [by apply outcome_class|]. destruct (_ =? SETUP_VENDOR_REQUEST); [|by apply outcome_stall].
    unfold vendor_request. cbn [switch]. destruct (setup 1 s =? 0xB0); [|by apply outcome_stall].
    apply outcome_chip; [done|by apply chip_ok_wr|by apply rd_wr_ne]. }
  unfold SetupCommand. rewrite E. cbn [mbind option_bind]. eexists. split; [done|]. split; [apply acm_ok_chip; [done|]; apply chip_ok_wr, Hs1|].
  cbn [a_chip on_chip]. unfold wr_or. rewrite rd_wr_eq, Hcs, Hidle. by destruct (refused _ _ _ _ _).
Qed.

(** ** What the host receives *)

Lemma packets_answer l c : bytes_ok l -> (length l <= 64)%nat ->
  exists lg, log (ep0_answer l c) = log c ++ lg /\ packets EP0BCL EP0BUF lg (regs c) = [l].
Proof.
  intros Hl Hn. exists (writes EP0BUF l ++ [(EP0BCH, 0); (EP0BCL, Z.of_nat (length l))]). split.
  - unfold ep0_answer, wr_all. cbn [fold_left fst snd wr log]. rewrite (wrap_small 8 (Z.of_nat _)) by lia.
    rewrite log_wr_bytes by done. by rewrite <- !app_assoc.
  - rewrite packets_app, packets_writes by (unfold EP0BCL, EP0BUF; lia). rewrite <- regs_wr_bytes by done.
    cbn [packets app fst snd]. change (EP0BCH =? EP0BCL) with false. rewrite Z.eqb_refl, Nat2Z.id. f_equal.
    rewrite <- (rd_bytes_wr_bytes EP0BUF l c Hl) at 2. apply map_ext_in. intros i Hi. apply in_seq in Hi. unfold store, rd. cbn [fst snd].
    by rewrite !fn_lookup_insert_ne by (unfold EP0BCL, EP0BCH, EP0BUF; lia).
Qed.

(** The parts of a descriptor, each with its length in front. *)
Fixpoint dscr_parts (fuel : nat) (d : list Z) : option (list (list Z)) :=
  match d, fuel with
  | [], _ => Some []
  | _, O => None
  | n :: _, S fuel =>
      if (n =? 0) || (Z.of_nat (length d) <? n) then None
      else ps ← dscr_parts fuel (drop (Z.to_nat n) d); Some (take (Z.to_nat n) d :: ps)
  end.

Definition dscr_byte (p : list Z) (i : nat) : Z := nth i p 0.
Definition is_part (t : Z) (p : list Z) : bool := dscr_byte p 1 =? t.

(** Every interface is followed by as many endpoints as it announces. *)
Fixpoint endpoints_follow (owed : Z) (ps : list (list Z)) : bool :=
  match ps with
  | [] => owed =? 0
  | p :: ps =>
      if is_part INTRFC_DSCR p then (owed =? 0) && endpoints_follow (dscr_byte p 4) ps
      else if is_part ENDPNT_DSCR p then endpoints_follow (owed - 1) ps else endpoints_follow owed ps
  end.

Definition config_formed (cfg speed : Z) (d : list Z) : bool :=
  match dscr_parts (length d) d with
  | None => false
  | Some ps =>
      (dscr_byte d 1 =? cfg) && (dscr_byte d 2 + 256 * dscr_byte d 3 =? Z.of_nat (length d)) &&
      (Z.of_nat (length (List.filter (is_part INTRFC_DSCR) ps)) =? dscr_byte d 4) && endpoints_follow 0 ps &&
      forallb (fun p => negb (is_part ENDPNT_DSCR p && (dscr_byte p 3 =? EP_BULK)) || (dscr_byte p 4 + 256 * dscr_byte p 5 =? speed)) ps
  end.

Lemma configs_formed cfg speed : In (cfg, speed) configs -> config_formed cfg speed (config_dscr cfg speed) = true.
Proof. cbn. intros [[= <- <-]|[[= <- <-]|[[= <- <-]|[[= <- <-]|[]]]]]; vm_compute; reflexivity. Qed.

(** The configuration, or that for the other speed, is handed out whole: its lengths
    and counts agree, and the packets of the bulk endpoints fit the speed. *)
Theorem config_descriptor_sent (s : acm) (Hs : acm_ok s) (Hrt : setup 0 s = 0x80) (Hrq : setup 1 s = SC_GET_DESCRIPTOR)
    (Hhi : setup 3 s = GD_CONFIGURATION \/ setup 3 s = GD_OTHER_SPEED_CONFIGURATION) :
  exists s', SetupCommand s = Some s' /\
    rd SUDPTRH (a_chip s') = MSB myConfigDscr_at /\ rd SUDPTRL (a_chip s') = LSB myConfigDscr_at /\
    config_formed (if setup 3 s =? GD_CONFIGURATION then CONFIG_DSCR else OTHERSPEED_DSCR)
      (if Bool.eqb (high_speed s) (setup 3 s =? GD_CONFIGURATION) then 512 else 64) (myConfigDscr s') = true.
Proof.
  assert (forall cfg speed, In (cfg, speed) configs ->
    (s ← ModifyDscr cfg speed s; Some (on_chip (set_SUDPTR myConfigDscr_at) s)) =
      Some (on_chip (set_SUDPTR myConfigDscr_at) (set_ConfigDscr (config_dscr cfg speed) s))) as Hm
    by (intros cfg speed Hin; by rewrite (ModifyDscr_spec _ _ _ Hin Hs)).
  unfold SetupCommand, standard_request. rewrite Hrt, Hrq. cbn [switch]. change (0x80 .& SETUP_MASK =? SETUP_STANDARD_REQUEST) with true.
  change (SC_GET_DESCRIPTOR =? SC_GET_DESCRIPTOR) with true. cbn iota. unfold get_descriptor.
  destruct Hhi as [E|E]; rewrite E; cbn [switch]; change (GD_CONFIGURATION =? GD_DEVICE) with false;
    change (GD_OTHER_SPEED_CONFIGURATION =? GD_DEVICE) with false; change (GD_CONFIGURATION =? GD_DEVICE_QUALIFIER) with false;
    change (GD_OTHER_SPEED_CONFIGURATION =? GD_DEVICE_QUALIFIER) with false; change (GD_CONFIGURATION =? GD_CONFIGURATION) with true;
    change (GD_OTHER_SPEED_CONFIGURATION =? GD_CONFIGURATION) with false; change (GD_OTHER_SPEED_CONFIGURATION =? GD_OTHER_SPEED_CONFIGURATION) with true;
    cbn iota; destruct (high_speed s); rewrite Hm by (cbn; tauto); cbn [mbind option_bind];
    (eexists; split; [reflexivity|]; split; [reflexivity|]; split; [reflexivity|]; apply configs_formed; cbn; tauto).
Qed.

(** ** The line coding *)

(** A setup packet arrives; the data of a request arrive. *)
Definition request (l : list Z) (s : acm) : acm := on_chip (hw_bytes SETUPDAT l) s.
Definition data_stage (l : list Z) (s : acm) : acm := BulkCommand (on_chip (hw_bytes EP0BUF l) s).

Lemma request_setup l s i : bytes_ok l -> 0 <= i < Z.of_nat (length l) -> setup i (request l s) = nth (Z.to_nat i) l 0.
Proof.
  intros Hl Hi. unfold setup, request. cbn [a_chip on_chip]. rewrite rd_hw_bytes, rd_wr_bytes by done.
  rewrite (proj2 (Z.leb_le _ _)), (proj2 (Z.ltb_lt _ _)) by lia. cbn [andb]. f_equal. lia.
Qed.

Lemma rd_bytes_hw_bytes r l c : bytes_ok l -> rd_bytes r (length l) (hw_bytes r l c) = l.
Proof. intros Hl. transitivity (rd_bytes r (length l) (wr_bytes r l c)); [|by apply rd_bytes_wr_bytes]. apply map_ext. intros i. apply rd_hw_bytes. Qed.

Definition set_line_packet : list Z := [0x21; 0x20; 0; 0; 0; 0; 7; 0].
Definition get_line_packet : list Z := [0xA1; 0x21; 0; 0; 0; 0; 7; 0].

Lemma set_line_request s : SetupCommand (request set_line_packet s) =
  Some (on_chip (wr_or EP0CS bmHSNAK) (set_BulkReason 1 (on_chip (wr EP0BCL 0) (request set_line_packet s)))).
Proof.
  assert (bytes_ok set_line_packet) as Hb by (repeat (constructor; [lia|]); constructor).
  unfold SetupCommand, class_request. rewrite (request_setup _ s 0 Hb), (request_setup _ s 1 Hb) by (cbn; lia). reflexivity.
Qed.

Lemma get_line_request s : SetupCommand (request get_line_packet s) =
  Some (on_chip (wr_or EP0CS bmHSNAK) (on_chip (ep0_answer (LineCode s)) (request get_line_packet s))).
Proof.
  assert (bytes_ok get_line_packet) as Hb by (repeat (constructor; [lia|]); constructor).
  unfold SetupCommand, class_request. rewrite (request_setup _ s 0 Hb), (request_setup _ s 1 Hb) by (cbn; lia). reflexivity.
Qed.

(** C39: a host sets the line coding and asks for it: the device stores the seven bytes,
    clocks 17 bits of the rounded divisor of their speed into the FPGA, lowest bit
    first, touches no other pin, and hands the same seven bytes back. *)
Theorem line_coding_applied (s : acm) (b0 b1 b2 b3 : Z) (rest : list Z)
    (Hs : acm_ok s) (Hpin : rd IOA (a_chip s) .& 2 = 0) (Hl : bytes_ok (b0 :: b1 :: b2 :: b3 :: rest)) (Hn : length rest = 3%nat) :
  let l := b0 :: b1 :: b2 :: b3 :: rest in
  exists s1 s2 lg q, SetupCommand (request set_line_packet s) = Some s1 /\
    log (a_chip (data_stage l s1)) = log (a_chip s1) ++ lg /\
    clocked (rd IOA (a_chip s)) lg = map (fun i => (q .>> Z.of_nat i) .& 1) (seq 0 17) /\
    Z.abs (q * 1953125 - (b0 + 256 * b1 + 65536 * b2 + 16777216 * b3) * 2 ^ 14) <= 976562 /\
    rd IOA (a_chip (data_stage l s1)) .& 0xFC = rd IOA (a_chip s) .& 0xFC /\
    LineCode (data_stage l s1) = l /\
    SetupCommand (request get_line_packet (data_stage l s1)) = Some s2 /\
    (exists lg', log (a_chip s2) = log (a_chip (data_stage l s1)) ++ lg' /\
       packets EP0BCL EP0BUF lg' (regs (a_chip (request get_line_packet (data_stage l s1)))) = [l]).
Proof.
  intros l. pose proof (set_line_request s) as R1. set (s1 := on_chip _ (set_BulkReason 1 _)) in R1.
  set (c1 := hw_bytes EP0BUF l (a_chip s1)).
  assert (rd_bytes EP0BUF 7 c1 = l) as Hdata.
  { unfold c1. rewrite <- (rd_bytes_hw_bytes EP0BUF l (a_chip s1) Hl) at 2. f_equal. unfold l. cbn [length]. by rewrite Hn. }
  assert (data_stage l s1 = set_BulkReason 0 (on_chip (BangBaudRate l) (set_LineCode l (on_chip (fun _ => c1) s1)))) as Ed.
  { unfold data_stage, BulkCommand. change (BulkReason (on_chip (hw_bytes EP0BUF l) s1)) with 1. cbn [switch]. change (1 =? 1) with true. cbn iota.
    change (a_chip (on_chip (hw_bytes EP0BUF l) s1)) with c1. by rewrite Hdata. }
  assert (rd IOA c1 = rd IOA (a_chip s)) as Hpins.
  { unfold c1. rewrite rd_hw_bytes, rd_wr_bytes by done. rewrite (proj2 (Z.ltb_ge IOA _)), andb_false_r by (unfold l; cbn [length]; rewrite Hn; unfold IOA, sfr, EP0BUF; lia).
    unfold s1. cbn [a_chip on_chip set_BulkReason request]. unfold wr_or. rewrite !rd_wr_ne by (unfold IOA, sfr, EP0CS, EP0BCL; lia).
    rewrite rd_hw_bytes, rd_wr_bytes by (repeat (constructor; [lia|]); constructor). done. }
  set (q := line_shift (line_speed l)).
  destruct (shift_out_clocks 17 q c1) as (lg & El & Cl & _ & _ & _ & Hk); [rewrite Hpins; apply Hs|by rewrite Hpins|].
  assert (is_byte b0 /\ is_byte b1 /\ is_byte b2 /\ is_byte b3) as (H0 & H1 & H2 & H3).
  { clear - Hl. rewrite !Forall_cons in Hl. tauto. }
  assert (0 <= line_speed l < 2 ^ 32) as Hspeed by (unfold l; rewrite line_speed_value by done; change (2 ^ 32) with 4294967296; lia).
  destruct (packets_answer l (a_chip (request get_line_packet (data_stage l s1)))) as (la & Ea & Pa);
    [exact Hl|unfold l; cbn [length]; lia|].
  exists s1, (on_chip (wr_or EP0CS bmHSNAK) (on_chip (ep0_answer l) (request get_line_packet (data_stage l s1)))), lg, q.
  split; [exact R1|]. split; [rewrite Ed; cbn [a_chip on_chip set_BulkReason set_LineCode]; unfold BangBaudRate; fold q; rewrite El; unfold c1; by rewrite log_hw_bytes|].
  split; [by rewrite <- Hpins|]. split; [unfold q; rewrite <- (line_speed_value b0 b1 b2 b3 rest) by done; by apply line_shift_rounds|].
  split; [rewrite Ed, <- Hpins; exact Hk|]. split; [by rewrite Ed|].
  split; [rewrite get_line_request; by rewrite Ed|].
  exists (la ++ [(EP0CS, u8 (rd EP0CS (ep0_answer l (a_chip (request get_line_packet (data_stage l s1)))) .| bmHSNAK))]).
  split.
  - cbn [a_chip on_chip wr_or wr log]. rewrite Ea. cbn [request a_chip on_chip]. rewrite log_hw_bytes. by rewrite <- app_assoc.
  - rewrite packets_app, Pa. reflexivity.
Qed.

(** ** The link *)

Lemma clear_bit_3 x : x .& 0xF7 .& 0xF7 = x .& 0xF7.
Proof. by rewrite <- Z.land_assoc. Qed.

(** Timer interrupts without a frame from the host between them: the line that tells
    the FPGA of an open bridge stays as it is for the first 20 and is low after the
    21st. A frame starts the count again ([USB_isr]). *)
Lemma timers_spec n s : acm_ok s ->
  let s' := Nat.iter n timer_isr s in
  acm_ok s' /\ LinkLoss s' = Z.min 20 (LinkLoss s + Z.of_nat n) /\
  rd IOA (a_chip s') = if LinkLoss s + Z.of_nat n <=? 20 then rd IOA (a_chip s) else rd IOA (a_chip s) .& 0xF7.
Proof.
  intros Hs. induction n as [|n IH]; cbn zeta in *.
  - change (Nat.iter 0 timer_isr s) with s. pose proof (ok_loss s Hs). rewrite (proj2 (Z.leb_le _ _)) by lia. split; [done|]. split; [lia|done].
  - change (Nat.iter (S n) timer_isr s) with (timer_isr (Nat.iter n timer_isr s)). destruct IH as ([Hc H1 H2 H3 H4] & Hl & Hi).
    set (s' := Nat.iter n timer_isr s) in *. clearbody s'.
    assert (forall v, rd IOA (wr T2CON v (a_chip s')) = rd IOA (a_chip s')) as Ht by (intros v; apply rd_wr_ne; unfold T2CON, IOA, sfr; lia).
    pose proof (ok_loss s Hs). unfold timer_isr. cbn [LinkLoss on_chip]. destruct (Z.ltb_spec (LinkLoss s') 20).
    + rewrite (proj2 (Z.leb_le (LinkLoss s + Z.of_nat n) 20)) in Hi by lia. rewrite (proj2 (Z.leb_le (LinkLoss s + Z.of_nat (S n)) 20)) by lia. split; [|split; [cbn [LinkLoss set_LinkLoss on_chip]; lia|cbn [a_chip set_LinkLoss on_chip]; unfold wr_clear; by rewrite Ht]].
      split; try done; [by apply chip_ok_wr|cbn [LinkLoss set_LinkLoss on_chip]; lia].
    + rewrite (proj2 (Z.leb_gt (LinkLoss s + Z.of_nat (S n)) 20)) by lia.
      assert (rd IOA (a_chip s') .& 0xF7 = rd IOA (a_chip s) .& 0xF7) as E by (rewrite Hi; destruct (_ <=? 20); [done|apply clear_bit_3]).
      assert (forall x, is_byte x -> u8 (x .& 0xF7) = x .& 0xF7) as Hu.
      { intros x Hx. apply Z.eqb_eq. by apply (byte_forall (fun x => u8 (x .& 0xF7) =? x .& 0xF7)). }
      split; [split; try done; by do 2 apply chip_ok_wr|]. split; [cbn [LinkLoss on_chip]; lia|].
      cbn [a_chip on_chip]. unfold wr_clear. rewrite rd_wr_eq, Ht, Hu by apply Hc. done.
Qed.

Lemma on_chip_init f c : on_chip f (acm_init c) = acm_init (f c).
Proof. done. Qed.

Lemma code_init c : LineCode (acm_init c) = [0; 194; 1; 0; 0; 0; 0x8].
Proof. done. Qed.

(** After the start the invariant holds, the link counts as fresh, and the FPGA sees
    that the program runs (pin 7) and no bridge is open (pin 3). *)
Lemma boot_spec c : chip_ok c ->
  let s := boot (acm_init c) in
  acm_ok s /\ LinkLoss s = 0 /\ rd IOA (a_chip s) .& 0x8A = 0 /\ rd EP0CS (a_chip s) = rd EP0CS c /\ rd USBCS (a_chip s) .& 0x0A = 0x02.
Proof.
  intros Hc s. subst s. unfold boot, Initialize. rewrite !on_chip_init, code_init. cbn [a_chip LinkLoss acm_init].
  match goal with |- context [BangBaudRate _ ?c'] => set (c1 := c') end.
  assert (chip_ok c1) as H1 by (apply chip_ok_wr_all, chip_ok_wr, chip_ok_wr_all, chip_ok_wr, Hc).
  assert (rd IOA c1 = 0x80) as E1 by reflexivity.
  assert (rd EP0CS c1 = rd EP0CS c) as E2 by (unfold c1, wr_clear, wr_or; by rewrite rd_wr_all, rd_wr_ne, rd_wr_all, rd_wr_ne).
  assert (rd USBCS c1 = u8 (rd USBCS c .| 0x08)) as E3 by (unfold c1, wr_clear, wr_or; by rewrite rd_wr_all, rd_wr_ne, rd_wr_all, rd_wr_eq).
  destruct (shift_out_clocks 17 (line_shift (line_speed [0; 194; 1; 0; 0; 0; 0x8])) c1) as (lg & _ & _ & Hr & Hb & H2 & Hk);
    [by rewrite E1; lia|by rewrite E1|]. fold (BangBaudRate [0; 194; 1; 0; 0; 0; 0x8] c1) in Hr, Hb, H2, Hk.
  pose proof (chip_ok_shift_out 17 (line_shift (line_speed [0; 194; 1; 0; 0; 0; 0x8])) c1 H1) as Hok.
  fold (BangBaudRate [0; 194; 1; 0; 0; 0; 0x8] c1) in Hok. set (c2 := BangBaudRate _ c1) in *. clearbody c2.
  unfold wr_or, wr_clear. split; [|split; [done|split; [|split]]].
  - split; [|done|split; [done|repeat (constructor; [lia|]); constructor]|cbn; lia|exists (CONFIG_DSCR, 512); split; [cbn; tauto|reflexivity]].
    repeat first [exact Hok | apply chip_ok_wr | apply chip_ok_wr_all].
  - rewrite !rd_wr_ne, rd_wr_all, !rd_wr_ne, rd_wr_eq by done. rewrite E1 in Hk. apply Z.eqb_eq.
    apply (byte_forall (fun x => if (x .& 2 =? 0) && (x .& 0xFC =? 0x80 .& 0xFC) then u8 (x .& 0x7F) .& 0x8A =? 0 else true)) in Hb;
      [|vm_compute; reflexivity]. by rewrite H2, Hk in Hb.
  - rewrite !rd_wr_ne, rd_wr_all, !rd_wr_ne by done. by rewrite Hr, E2.
  - rewrite !rd_wr_eq, rd_wr_all, rd_wr_ne, rd_wr_eq, rd_wr_ne by done. rewrite Hr, E3 by done. apply Z.eqb_eq.
    by apply (byte_forall (fun x => u8 (u8 (u8 (u8 (x .| 8) .| 4) .| 2) .& Z.lnot 8) .& 0x0A =? 0x02)).
Qed.

(** ** Instances *)

Definition fresh : acm := boot (acm_init (mk_chip (fun _ => 0) [])).

Lemma fresh_ok : acm_ok fresh /\ rd IOA (a_chip fresh) = 0 /\ rd EP0CS (a_chip fresh) = 0.
Proof. split; [apply boot_spec; intros r; cbn; lia|]. split; vm_compute; reflexivity. Qed.

(** 9600 baud, 8N1. *)
Definition coding_9600 : list Z := [128; 37; 0; 0; 0; 0; 8].

Lemma line_coding_applied_witness :
  (exists s1 s2, SetupCommand (request set_line_packet fresh) = Some s1 /\ LineCode (data_stage coding_9600 s1) = coding_9600 /\
     SetupCommand (request get_line_packet (data_stage coding_9600 s1)) = Some s2) /\
  line_shift (line_speed coding_9600) = 81 /\
  option_map (fun s1 => clocked 0 (drop (length (log (a_chip s1))) (log (a_chip (data_stage coding_9600 s1)))))
    (SetupCommand (request set_line_packet fresh)) = Some [1; 0; 0; 0; 1; 0; 1; 0; 0; 0; 0; 0; 0; 0; 0; 0; 0].
Proof.
  split; [|split; vm_compute; reflexivity].
  destruct (line_coding_applied fresh 128 37 0 0 [0; 0; 8]) as (s1 & s2 & lg & q & R1 & _ & _ & _ & _ & Hc & R2 & _).
  - exact (proj1 fresh_ok).
  - rewrite (proj1 (proj2 fresh_ok)). reflexivity.
  - repeat (constructor; [lia|]). constructor.
  - reflexivity.
  - exists s1, s2. split; [exact R1|]. split; [exact Hc|exact R2].
Defined.

(** The endpoint of a request that nobody knows is stalled. *)
Definition strange : acm := request [0x80; 0x42; 0; 0; 0; 0; 0; 0] fresh.

Lemma setup_answered_witness : exists s', SetupCommand strange = Some s' /\ acm_ok s' /\ rd EP0CS (a_chip s') = 0x81.
Proof.
  apply (setup_answered strange).
  - assert (bytes_ok [0x80; 0x42; 0; 0; 0; 0; 0; 0]) as Hb by (repeat (constructor; [lia|]); constructor).
    destruct fresh_ok as [Hf _]. apply acm_ok_chip; [exact Hf|]. intros r. rewrite rd_hw_bytes. apply chip_ok_wr_bytes, Hf.
  - vm_compute. reflexivity.
Defined.

Lemma config_descriptor_sent_witness : exists s', SetupCommand (request [0x80; 6; 0; 2; 0; 0; 90; 0] fresh) = Some s' /\
  config_formed CONFIG_DSCR 64 (myConfigDscr s') = true.
Proof.
  destruct (config_descriptor_sent (request [0x80; 6; 0; 2; 0; 0; 90; 0] fresh)) as (s' & R & _ & _ & Hf).
  - destruct fresh_ok as [Hf _]. apply acm_ok_chip; [exact Hf|]. intros r. rewrite rd_hw_bytes. apply chip_ok_wr_bytes, Hf.
  - vm_compute. reflexivity.
  - vm_compute. reflexivity.
  - left. vm_compute. reflexivity.
  - exists s'. split; [exact R|]. exact Hf.
Defined.
