(* ===== verification/UsbSerial.v ===== *)
(** The USB serial port of the exploder board: [src/cy7/cyfx2usbuart/convert_serial.c]
    with its software UART, [softuart.c]. The host's bytes go to the UART and are
    echoed; bytes of the UART and echoes are collected for a while and sent to the host
    in packets behind two status bytes. Fx2 has the registers. *)
From stdpp Require Import base functions option list.
From Stdlib Require Import ZArith Lia.
From S2P Require Import Prelude SoftUart Fx2.

(** * The software UART *)

Definition UART_BUFFER_LENGTH : Z := 32.
Definition tmr_preload_value : Z := 0x98.
Definition tmr_preload_start_bit : Z := 0xCC.

(** Its states are those of the other driver. Its variables; [uart_tx_byte] and [uart_rx_bit_count] are never used. *)
Record uart_vars := mk_uart {
  uart_rx_byte : Z; uart_byte_received : Z; uart_state : Z; uart_next_state : Z; uart_bit_count : Z;
  uart_transmit_buffer : list Z; uart_buffer_filled_to : Z; uart_buffer_transmitted_to : Z; uart_tx_busy : Z }.

Definition uart_zero : uart_vars := mk_uart 0 0 0 0 0 (replicate 32 0) 0 0 0.

Definition set_received (x : Z) (u : uart_vars) : uart_vars :=
  mk_uart (uart_rx_byte u) x (uart_state u) (uart_next_state u) (uart_bit_count u)
    (uart_transmit_buffer u) (uart_buffer_filled_to u) (uart_buffer_transmitted_to u) (uart_tx_busy u).
Definition set_rx (x : Z) (u : uart_vars) : uart_vars :=
  mk_uart x (uart_byte_received u) (uart_state u) (uart_next_state u) (uart_bit_count u)
    (uart_transmit_buffer u) (uart_buffer_filled_to u) (uart_buffer_transmitted_to u) (uart_tx_busy u).
Definition set_state (x : Z) (u : uart_vars) : uart_vars :=
  mk_uart (uart_rx_byte u) (uart_byte_received u) x (uart_next_state u) (uart_bit_count u)
    (uart_transmit_buffer u) (uart_buffer_filled_to u) (uart_buffer_transmitted_to u) (uart_tx_busy u).
Definition set_next_state (x : Z) (u : uart_vars) : uart_vars :=
  mk_uart (uart_rx_byte u) (uart_byte_received u) (uart_state u) x (uart_bit_count u)
    (uart_transmit_buffer u) (uart_buffer_filled_to u) (uart_buffer_transmitted_to u) (uart_tx_busy u).
Definition set_bit_count (x : Z) (u : uart_vars) : uart_vars :=
  mk_uart (uart_rx_byte u) (uart_byte_received u) (uart_state u) (uart_next_state u) x
    (uart_transmit_buffer u) (uart_buffer_filled_to u) (uart_buffer_transmitted_to u) (uart_tx_busy u).
Definition set_buffer (l : list Z) (filled transmitted busy : Z) (u : uart_vars) : uart_vars :=
  mk_uart (uart_rx_byte u) (uart_byte_received u) (uart_state u) (uart_next_state u) (uart_bit_count u)
    l filled transmitted busy.

Definition cv_int0_init (c : chip) : chip := wr_or IE 1 (wr_or TCON 1 (wr PORTACFG 1 c)).

Definition tmr1_init (c : chip) : chip :=
  let c := wr_clear TCON 64 c in
  let c := wr_or TMOD 32 c in
  let c := wr TH1 tmr_preload_value c in
  let c := wr_clear CKCO 16 c in
  wr_or IE 8 c.

Definition cv_software_uart_init (c : chip) : chip :=
  let c := wr_or IOA 0x02 (wr OEA 0xFE c) in
  cv_int0_init (tmr1_init (wr_all [(OED, 0xFF); (IOD, 0xFF)] c)).

(** A byte that finds the buffer full is dropped. *)
Definition cv_uart_transmit_byte (tx_byte_from_usb : Z) (u : uart_vars) (c : chip) : option (uart_vars * chip) :=
  if uart_buffer_filled_to u <? UART_BUFFER_LENGTH then
    l ← array_set (uart_transmit_buffer u) (Z.to_nat (uart_buffer_filled_to u)) tx_byte_from_usb;
    Some (set_buffer l (u8 (uart_buffer_filled_to u + 1)) (uart_buffer_transmitted_to u) (uart_tx_busy u) u, wr_or TCON 64 c)
  else Some (u, c).

Definition cv_int0_isr (u : uart_vars) (c : chip) : uart_vars * chip :=
  if uart_state u =? SoftUart.UART_STATE_IDLE then
    let c := wr_or TCON 64 (wr TL1 tmr_preload_start_bit c) in
    (set_state SoftUart.UART_STATE_RX_START u, wr PORTACFG 0x00 c)
  else (u, c).

Definition rx_start (u : uart_vars) (c : chip) : uart_vars * chip :=
  if (rd IOA c .& 0x01) =? 0x00
  then (set_rx 0x00 (set_bit_count 0 (set_next_state SoftUart.UART_STATE_RX_GET_DATA u)), wr PORTACFG 0x00 c)
  else (set_next_state SoftUart.UART_STATE_IDLE u, c).

Definition rx_get_data (u : uart_vars) (c : chip) : uart_vars * chip :=
  let u := if uart_bit_count u <? 8
           then set_bit_count (u8 (uart_bit_count u + 1))
                  (set_rx (u8 (uart_rx_byte u .| ((rd IOA c .& 0x01) .<< uart_bit_count u))) u)
           else u in
  if uart_bit_count u =? 8
  then (set_received 1 (set_next_state SoftUart.UART_STATE_IDLE u), wr_clear TCON 64 (wr PORTACFG 1 c))
  else (u, c).

Definition tx_start (u : uart_vars) (c : chip) : uart_vars * chip :=
  (set_next_state SoftUart.UART_STATE_TX_TRANSMIT_DATA (set_bit_count 0 u), wr_clear IOA 0x02 c).

Definition tx_data (u : uart_vars) (c : chip) : option (uart_vars * chip) :=
  c ← (if uart_bit_count u <? 8 then
         b ← uart_transmit_buffer u !! Z.to_nat (uart_buffer_transmitted_to u);
         Some (if 0x01 =? (0x01 .& (b .>> uart_bit_count u)) then wr_or IOA 0x02 c else wr_clear IOA 0x02 c)
       else Some c);
  let '(u, c) :=
    if uart_bit_count u =? 8 then
      let c := wr_or IOA 0x02 c in
      let sent := if uart_buffer_transmitted_to u <? UART_BUFFER_LENGTH then u8 (uart_buffer_transmitted_to u + 1)
                  else uart_buffer_transmitted_to u in
      let u := set_buffer (uart_transmit_buffer u) (uart_buffer_filled_to u) sent (uart_tx_busy u) u in
      if sent <? uart_buffer_filled_to u then (set_next_state SoftUart.UART_STATE_IDLE u, c)
      else (set_buffer (uart_transmit_buffer u) 0 0 0 (set_next_state SoftUart.UART_STATE_IDLE u), wr_clear TCON 64 c)
    else (u, c) in
  Some (set_bit_count (u8 (uart_bit_count u + 1)) u, c).

Definition tmr1_isr (u : uart_vars) (c : chip) : option (uart_vars * chip) :=
  let u := if (uart_tx_busy u =? 0) && (uart_buffer_transmitted_to u <? uart_buffer_filled_to u)
           then set_state SoftUart.UART_STATE_TX_START
                  (set_buffer (uart_transmit_buffer u) (uart_buffer_filled_to u) (uart_buffer_transmitted_to u) 1 u)
           else u in
  '(u, c) ← switch (uart_state u)
    [(SoftUart.UART_STATE_RX_START, Some (rx_start u c));
     (SoftUart.UART_STATE_RX_GET_DATA, Some (rx_get_data u c));
     (SoftUart.UART_STATE_IDLE, Some (if uart_tx_busy u =? 1 then set_next_state SoftUart.UART_STATE_TX_START u else u, c));
     (SoftUart.UART_STATE_TX_START, Some (tx_start u c));
     (SoftUart.UART_STATE_TX_TRANSMIT_DATA, tx_data u c)]
    (Some (u, c));
  Some (set_state (uart_next_state u) u, c).

(** Of timer 2, which is not started. *)
Definition tmr2_init (c : chip) : chip :=
  let c := wr_or CKCO 32 c in
  let c := wr_all [(RCAP2L, 0x00); (RCAP2H, 0xFF)] c in
  wr_or T2CON 4 (wr_or IE 32 c).
Definition tmr2_isr (c : chip) : chip := wr IOD (Z.lxor (rd IOD c) 0x01) c.

(** * The serial port *)

Record serial := mk_serial {
  s_chip : chip; s_uart : uart_vars; Rwuen : bool; Configuration : Z; InterfaceSetting : list Z;
  cfg_type : Z; in_mp : Z; out_mp : Z; bytes_waiting_for_xmit : Z }.

Definition serial_zero (c : chip) : serial := mk_serial c uart_zero false 0 [0] CONFIG_DSCR 512 512 0.

Definition on_chip (f : chip -> chip) (s : serial) : serial :=
  mk_serial (f (s_chip s)) (s_uart s) (Rwuen s) (Configuration s) (InterfaceSetting s) (cfg_type s) (in_mp s) (out_mp s) (bytes_waiting_for_xmit s).
Definition put_uart (uc : uart_vars * chip) (s : serial) : serial :=
  mk_serial uc.2 uc.1 (Rwuen s) (Configuration s) (InterfaceSetting s) (cfg_type s) (in_mp s) (out_mp s) (bytes_waiting_for_xmit s).
Definition set_Rwuen (b : bool) (s : serial) : serial :=
  mk_serial (s_chip s) (s_uart s) b (Configuration s) (InterfaceSetting s) (cfg_type s) (in_mp s) (out_mp s) (bytes_waiting_for_xmit s).
Definition set_Configuration (x : Z) (s : serial) : serial :=
  mk_serial (s_chip s) (s_uart s) (Rwuen s) x (InterfaceSetting s) (cfg_type s) (in_mp s) (out_mp s) (bytes_waiting_for_xmit s).
Definition set_InterfaceSetting (l : list Z) (s : serial) : serial :=
  mk_serial (s_chip s) (s_uart s) (Rwuen s) (Configuration s) l (cfg_type s) (in_mp s) (out_mp s) (bytes_waiting_for_xmit s).
Definition set_dscr (t i o : Z) (s : serial) : serial :=
  mk_serial (s_chip s) (s_uart s) (Rwuen s) (Configuration s) (InterfaceSetting s) t i o (bytes_waiting_for_xmit s).
Definition set_waiting (x : Z) (s : serial) : serial :=
  mk_serial (s_chip s) (s_uart s) (Rwuen s) (Configuration s) (InterfaceSetting s) (cfg_type s) (in_mp s) (out_mp s) x.

Definition cv_setup (i : Z) (s : serial) : Z := rd (SETUPDAT + i) (s_chip s).

Definition cv_Rwuen_allowed : bool := false.
Definition cv_Selfpwr : bool := false.
Definition cv_NUM_INTERFACES : Z := 1.
Definition latency_us : Z := 40000.

(** A string, with the zero byte at its end; the array has no null pointer. *)
Definition cv_USB_strings : list (option (list Z)) :=
  [Some [69; 78; 0]; Some [71; 83; 73; 0];
   Some [85; 83; 66; 32; 83; 101; 114; 105; 97; 108; 32; 67; 111; 110; 118; 101; 114; 116; 101; 114; 0]].

Definition EPCS_Offset_Lookup_Table : list Z := [0; 1; 2; 2; 3; 3; 4; 4; 5; 5].

(** The macro reads the table without a look at its length. *)
Definition cv_epcs (EP : Z) : option Z :=
  off ← EPCS_Offset_Lookup_Table !! Z.to_nat ((EP .& 0x7E) .| c_bool (128 <? EP)); Some (off + 0xE6A1).

(** The size is the index of the first null pointer. *)
Fixpoint count_array_size (array : list (option (list Z))) : option Z :=
  match array with
  | [] => None
  | None :: _ => Some 0
  | Some _ :: array => size ← count_array_size array; Some (size + 1)
  end.

(** The descriptors as the structures lie in memory, words with the low byte first. *)
Definition le16 (v : Z) : list Z := [LSB v; MSB v].
Definition cv_myDeviceDscr_at : Z := 0x3d00.
Definition cv_myDeviceQualDscr_at : Z := 0x3d20.
Definition cv_myConfigDscr_at : Z := 0x3d30.
Definition DSCR_OFFSET (intrfc endpnt : Z) : Z := 9 + intrfc * 9 + endpnt * 7.

Definition cv_myDeviceDscr : list Z :=
  [18; DEVICE_DSCR] ++ le16 0x200 ++ [0; 0; 0; 64] ++ le16 0x0403 ++ le16 0x8372 ++ le16 0x0100 ++ [1; 2; 0; 1].
Definition cv_myDeviceQualDscr : list Z := [10; DEVQUAL_DSCR] ++ le16 0x200 ++ [0; 0; 0; 64; 1; 0].
Definition myConfigDscr (s : serial) : list Z := [9; cfg_type s] ++ le16 (DSCR_OFFSET 1 2) ++ [1; 1; 0; bmBUSPWR .| bmRWU; 0x1E].
Definition myIntrfcDscr : list Z := [9; INTRFC_DSCR; 0; 0; 2; 0xFF; 0xFF; 0xFF; 0].
Definition myInEndpntDscr (s : serial) : list Z := [7; ENDPNT_DSCR; 0x81; EP_BULK] ++ le16 (in_mp s) ++ [0].
Definition myOutEndpntDscr (s : serial) : list Z := [7; ENDPNT_DSCR; 0x01; EP_BULK] ++ le16 (out_mp s) ++ [0].

(** ** Requests *)

Definition cv_string_descriptor (s : serial) : option serial :=
  size ← count_array_size cv_USB_strings;
  if size <=? cv_setup 2 s then Some (on_chip EZUSB_STALL_EP0 s) else
  p ← cv_USB_strings !! Z.to_nat (cv_setup 2 s);
  str ← p;
  '(i, c) ← string_loop 31 0 str (s_chip s);
  Some (on_chip (fun _ => wr_all [(EP0BUF + 0, 2 * i + 2); (EP0BUF + 1, STRING_DSCR); (EP0BCH, 0); (EP0BCL, 2 * i + 2)] c) s).

(** Both branches of the test of the speed store the same sizes. *)
Definition cv_get_descriptor (s : serial) : option serial :=
  switch (cv_setup 3 s)
    [(GD_DEVICE, Some (on_chip (set_SUDPTR cv_myDeviceDscr_at) s));
     (GD_DEVICE_QUALIFIER, Some (on_chip (set_SUDPTR cv_myDeviceQualDscr_at) s));
     (GD_CONFIGURATION, Some (on_chip (set_SUDPTR cv_myConfigDscr_at)
        (if negb ((rd USBCS (s_chip s) .& bmHSM) =? 0) then set_dscr CONFIG_DSCR 64 64 s else set_dscr CONFIG_DSCR 64 64 s)));
     (GD_OTHER_SPEED_CONFIGURATION, Some (on_chip (set_SUDPTR cv_myConfigDscr_at)
        (if negb ((rd USBCS (s_chip s) .& bmHSM) =? 0) then set_dscr OTHERSPEED_DSCR 64 64 s else set_dscr OTHERSPEED_DSCR 64 64 s)));
     (GD_STRING, cv_string_descriptor s)]
    (Some (on_chip EZUSB_STALL_EP0 s)).

Definition cv_get_interface (s : serial) : option serial :=
  let interface := cv_setup 4 s in
  if interface <? cv_NUM_INTERFACES then
    x ← InterfaceSetting s !! Z.to_nat interface; Some (on_chip (ep0_answer [x]) s)
  else Some s.

Definition cv_set_interface (s : serial) : option serial :=
  let interface := cv_setup 4 s in
  if interface <? cv_NUM_INTERFACES then
    l ← array_set (InterfaceSetting s) (Z.to_nat interface) (cv_setup 2 s); Some (set_InterfaceSetting l s)
  else Some s.

Definition cv_get_status (s : serial) : option serial :=
  switch (cv_setup 0 s)
    [(GS_DEVICE, Some (on_chip (ep0_answer [(c_bool (Rwuen s) .<< 1) .| c_bool cv_Selfpwr; 0]) s));
     (GS_INTERFACE, Some (on_chip (ep0_answer [0; 0]) s));
     (GS_ENDPOINT, r ← cv_epcs (cv_setup 4 s); Some (on_chip (fun c => ep0_answer [rd r c .& bmEPSTALL; 0] c) s))]
    (Some (on_chip EZUSB_STALL_EP0 s)).

Definition cv_clear_feature (s : serial) : option serial :=
  switch (cv_setup 0 s)
    [(FT_DEVICE, Some (if cv_setup 2 s =? 1 then set_Rwuen false s else on_chip EZUSB_STALL_EP0 s));
     (FT_ENDPOINT,
       if cv_setup 2 s =? 0 then
         r ← cv_epcs (cv_setup 4 s);
         Some (on_chip (fun c => EZUSB_RESET_DATA_TOGGLE (cv_setup 4 s) (wr_clear r bmEPSTALL c)) s)
       else Some (on_chip EZUSB_STALL_EP0 s))]
    (Some s).

Definition cv_set_feature (s : serial) : option serial :=
  switch (cv_setup 0 s)
    [(FT_DEVICE, Some (if (cv_setup 2 s =? 1) && cv_Rwuen_allowed then set_Rwuen true s
                       else if cv_setup 2 s =? 2 then s else on_chip EZUSB_STALL_EP0 s));
     (FT_ENDPOINT, r ← cv_epcs (cv_setup 4 s); Some (on_chip (wr_or r bmEPSTALL) s))]
    (Some (on_chip EZUSB_STALL_EP0 s)).

Definition cv_standard_request (s : serial) : option serial :=
  switch (cv_setup 1 s)
    [(SC_GET_DESCRIPTOR, cv_get_descriptor s);
     (SC_GET_INTERFACE, cv_get_interface s);
     (SC_SET_INTERFACE, cv_set_interface s);
     (SC_SET_CONFIGURATION, Some (set_Configuration (cv_setup 2 s) s));
     (SC_GET_CONFIGURATION, Some (on_chip (ep0_answer [Configuration s]) s));
     (SC_GET_STATUS, cv_get_status s);
     (SC_CLEAR_FEATURE, cv_clear_feature s);
     (SC_SET_FEATURE, cv_set_feature s)]
    (Some (on_chip EZUSB_STALL_EP0 s)).

Definition cv_SetupCommand (s : serial) : option serial :=
  s ← switch (cv_setup 0 s .& SETUP_MASK)
        [(SETUP_STANDARD_REQUEST, cv_standard_request s)]
        (Some (on_chip EZUSB_STALL_EP0 s));
  Some (on_chip (wr_or EP0CS bmHSNAK) s).

Definition cv_USB_isr (s : serial) : option serial :=
  cv_SetupCommand (on_chip (wr USBIRQ 0x01) (on_chip (wr_clear EXIF 0x10) s)).

(** ** Data *)

Definition FTDI_RS0_CTS : Z := 1 .<< 4.
Definition FTDI_RS0_DSR : Z := 1 .<< 5.
Definition FTDI_RS_DR : Z := 1.

Definition ProcessXmitData (s : serial) : serial :=
  let s := on_chip (wr_clear TCON 0x30) s in
  let s := on_chip (wr_all [(EP1INBUF + 0, FTDI_RS0_CTS .| FTDI_RS0_DSR .| 1); (EP1INBUF + 1, FTDI_RS_DR)]) s in
  let s := on_chip (wr EP1INBC (u16 (bytes_waiting_for_xmit s + 2))) s in
  set_waiting 0 s.

(** [while (EP1INCS & 0x02);] ends when the controller clears the bit. *)
Definition wait_in (c : chip) : chip := hw EP1INCS (rd EP1INCS c .& 0xFD) c.

(** The timer is set for the latency when bytes wait and it does not run. *)
Definition start_latency (c : chip) : chip :=
  wr_or TCON 0x10 (wr_all [(TH0, MSB (0xffff - latency_us)); (TL0, LSB (0xffff - latency_us))] c).

Definition putchar (ch : Z) (s : serial) : serial :=
  let dest := EP1INBUF + bytes_waiting_for_xmit s + 2 in
  let s := on_chip wait_in s in
  let s := on_chip (wr dest ch) s in
  let s := set_waiting (u16 (bytes_waiting_for_xmit s + 1)) s in
  let s := if 62 <=? bytes_waiting_for_xmit s then ProcessXmitData s else s in
  if negb (bytes_waiting_for_xmit s =? 0) && ((rd TCON (s_chip s) .& 0x10) =? 0) then on_chip start_latency s else s.

(** [len] is unsigned: a packet without a byte makes it 65535. *)
Fixpoint recv_loop (n : nat) (src : Z) (s : serial) : option serial :=
  match n with
  | O => Some s
  | S n =>
    let ch := rd (u16 src) (s_chip s) in
    uc ← cv_uart_transmit_byte ch (s_uart s) (s_chip s);
    recv_loop n (src + 1) (putchar (rd (u16 src) uc.2) (put_uart uc s))
  end.

Definition recv_length (s : serial) : nat := Z.to_nat (u16 (rd EP1OUTBC (s_chip s) - 1)).

Definition ProcessRecvData (s : serial) : option serial :=
  s ← recv_loop (recv_length s) (EP1OUTBUF + 1) s;
  Some (on_chip (wr EP1OUTBC 0xff) s).

Definition cv_Initialize (c : chip) : chip :=
  wr_all [(IFCONFIG, 0xc0); (REVCTL, 0x03); (EP1OUTCFG, 0xa0); (EP1INCFG, 0xa0); (EP2CFG, 0); (EP4CFG, 0); (EP6CFG, 0); (EP8CFG, 0);
          (EP1OUTBC, 0xff); (SUDPTRCTL, 1); (IE, 0x80); (EIE, 0x01); (USBIE, 0x01)] (wr_or CPUCS 0x10 c).

(** [main], up to its loop. *)
Definition cv_boot (c : chip) : chip :=
  let c := cv_Initialize (wr_or USBCS 0x08 c) in
  let c := wr_clear USBCS 0x08 (wr_or USBCS 0x02 c) in
  let c := wr_clear CKCO 0x08 c in
  let c := wr_clear TCON 0x30 (wr TMOD 0x01 c) in
  cv_software_uart_init c.

(** One pass of the loop. *)
Definition cv_main_pass (s : serial) : option serial :=
  let s := if uart_byte_received (s_uart s) =? 1
           then let s := putchar (uart_rx_byte (s_uart s)) s in put_uart (set_received 0 (s_uart s), s_chip s) s
           else s in
  s ← (if (rd EP1OUTCS (s_chip s) .& bmEPBUSY) =? 0 then ProcessRecvData s else Some s);
  Some (if negb ((rd TCON (s_chip s) .& 0x20) =? 0) then ProcessXmitData s else s).

(** * The UART on the line *)

(** The timer overflows when it runs; the level of the transmit pin after each
    overflow. *)
Definition tick (uc : uart_vars * chip) : option (uart_vars * chip) :=
  if (rd TCON uc.2 .& 64) =? 0 then Some uc else tmr1_isr uc.1 uc.2.
Definition tx_pin (c : chip) : Z := (rd IOA c .>> 1) .& 1.

Fixpoint run (n : nat) (uc : uart_vars * chip) : option (list Z * (uart_vars * chip)) :=
  match n with
  | O => Some ([], uc)
  | S n => uc ← tick uc; '(l, uc') ← run n uc; Some (tx_pin uc.2 :: l, uc')
  end.

Lemma run_app n m uc uc1 uc2 l1 l2 : run n uc = Some (l1, uc1) -> run m uc1 = Some (l2, uc2) -> run (n + m) uc = Some (l1 ++ l2, uc2).
Proof.
  revert uc l1. induction n as [|n IH]; intros uc l1 H1 H2; cbn [run Nat.add] in *; [by simplify_eq|].
  destruct (tick uc) as [uc'|]; [|done]. cbn [mbind option_bind] in *. destruct (run n uc') as [[l uc'']|] eqn:E; [|done].
  cbn [mbind option_bind] in H1. simplify_eq. rewrite (IH uc' l E H2). done.
Qed.

(** A byte on the line: start bit, data from the lowest bit on, stop bit. *)
Definition data_bits (b : Z) : list Z := map (fun k => (b .>> Z.of_nat k) .& 1) (seq 0 8).
Definition frame (b : Z) : list Z := 0 :: data_bits b ++ [1].

(** Frames with the idle level for one bit between them. *)
Fixpoint frames (bs : list Z) : list Z :=
  match bs with [] => [] | [b] => frame b | b :: bs => frame b ++ [1] ++ frames bs end.

(** ** Levels *)

Lemma testbit_1 x : x .& 1 = Z.b2z (Z.testbit x 0).
Proof. rewrite Z.bit0_mod. change 1 with (Z.ones 1) at 1. by rewrite Z.land_ones. Qed.

Lemma pin_wr v c : tx_pin (wr IOA v c) = Z.b2z (Z.testbit v 1).
Proof. unfold tx_pin. rewrite rd_wr_eq, testbit_1, Z.shiftr_spec by lia. unfold wrap. by rewrite Z.mod_pow2_bits_low. Qed.

Lemma pin_high c : tx_pin (wr_or IOA 0x02 c) = 1.
Proof. unfold wr_or. by rewrite pin_wr, Z.lor_spec, orb_true_r. Qed.

Lemma pin_low c : tx_pin (wr_clear IOA 0x02 c) = 0.
Proof. unfold wr_clear. by rewrite pin_wr, Z.land_spec, Z.lnot_spec, andb_false_r. Qed.

Definition put_level (b k : Z) (c : chip) : chip :=
  if 0x01 =? (0x01 .& (b .>> k)) then wr_or IOA 0x02 c else wr_clear IOA 0x02 c.

Lemma pin_level b k c : tx_pin (put_level b k c) = (b .>> k) .& 1.
Proof.
  unfold put_level. rewrite (Z.land_comm 0x01). rewrite testbit_1. destruct (Z.testbit _ _); [apply pin_high|apply pin_low].
Qed.

Lemma tcon_level b k c : rd TCON (put_level b k c) = rd TCON c.
Proof. unfold put_level. by destruct (_ =? _). Qed.

Lemma or_64 x : (u8 (x .| 64) .& 64) <> 0.
Proof.
  intros H. apply (f_equal (fun z => Z.testbit z 6)) in H. rewrite Z.land_spec, Z.bits_0 in H. unfold wrap in H.
  rewrite Z.mod_pow2_bits_low, Z.lor_spec in H by lia. change (Z.testbit 64 6) with true in H. by rewrite orb_true_r in H.
Qed.

Lemma clear_64 x : u8 (x .& Z.lnot 64) .& 64 = 0.
Proof.
  apply Z.bits_inj'. intros n Hn. rewrite Z.land_spec, Z.bits_0. change 64 with (2 ^ 6) at 2. rewrite Z.pow2_bits_eqb by lia.
  destruct (Z.eqb_spec 6 n) as [<-|]; [|by rewrite andb_false_r]. unfold wrap. rewrite Z.mod_pow2_bits_low by lia.
  by rewrite Z.land_spec, Z.lnot_spec, andb_false_r.
Qed.

(** ** Steps of the transmitter *)

Lemma tick_busy u c : (rd TCON c .& 64) <> 0 -> tick (u, c) = tmr1_isr u c.
Proof. intros H. unfold tick. cbn [fst snd]. by rewrite (proj2 (Z.eqb_neq _ _) H). Qed.

Section steps.
Context (rx rc : Z) (buf : list Z).

Definition sender (st bc f t busy : Z) : uart_vars := mk_uart rx rc st st bc buf f t busy.

Lemma step_start bc f t busy st nx c : busy = 1 /\ st = SoftUart.UART_STATE_TX_START \/ busy = 0 /\ t < f ->
  tmr1_isr (mk_uart rx rc st nx bc buf f t busy) c = Some (sender SoftUart.UART_STATE_TX_TRANSMIT_DATA 0 f t 1, wr_clear IOA 0x02 c).
Proof.
  intros [[-> ->]|[-> Hf]]; [reflexivity|]. unfold tmr1_isr. cbn [uart_tx_busy uart_buffer_transmitted_to uart_buffer_filled_to].
  rewrite (proj2 (Z.ltb_lt _ _) Hf). reflexivity.
Qed.

Lemma step_data k f t b c : (k < 8)%nat -> buf !! Z.to_nat t = Some b ->
  tmr1_isr (sender SoftUart.UART_STATE_TX_TRANSMIT_DATA (Z.of_nat k) f t 1) c =
    Some (sender SoftUart.UART_STATE_TX_TRANSMIT_DATA (Z.of_nat (S k)) f t 1, put_level b (Z.of_nat k) c).
Proof.
  intros Hk Hb. unfold tmr1_isr, sender. cbn -[Z.of_nat tx_data set_state]. unfold tx_data. cbn -[Z.of_nat put_level Z.eqb Z.ltb].
  rewrite Hb. rewrite (proj2 (Z.ltb_lt (Z.of_nat k) 8)), (proj2 (Z.eqb_neq (Z.of_nat k) 8)) by lia. cbn -[Z.of_nat]. rewrite (wrap_small 8) by lia.
  by replace (Z.of_nat k + 1) with (Z.of_nat (S k)) by lia.
Qed.

Lemma step_stop f t c : 0 <= t < f -> f <= 32 ->
  tmr1_isr (sender SoftUart.UART_STATE_TX_TRANSMIT_DATA 8 f t 1) c =
    Some (if t + 1 <? f then (sender SoftUart.UART_STATE_IDLE 9 f (t + 1) 1, wr_or IOA 0x02 c)
          else (sender SoftUart.UART_STATE_IDLE 9 0 0 0, wr_clear TCON 64 (wr_or IOA 0x02 c))).
Proof.
  intros Ht Hf. unfold tmr1_isr, sender. cbn -[tx_data set_state]. unfold tx_data. cbn -[wrap Z.ltb Z.add wr_or wr_clear].
  change (8 <? 8) with false. cbn -[wrap Z.ltb Z.add wr_or wr_clear]. unfold UART_BUFFER_LENGTH. rewrite (proj2 (Z.ltb_lt t 32)) by lia.
  rewrite (wrap_small 8 (t + 1)) by lia. destruct (t + 1 <? f); reflexivity.
Qed.

Lemma step_idle bc f t c : tmr1_isr (sender SoftUart.UART_STATE_IDLE bc f t 1) c = Some (sender SoftUart.UART_STATE_TX_START bc f t 1, c).
Proof. reflexivity. Qed.

(** The data bits from the [k]-th on. *)
Lemma run_data m k f t b c : (k + m = 8)%nat -> buf !! Z.to_nat t = Some b -> (rd TCON c .& 64) <> 0 ->
  exists c', run m (sender SoftUart.UART_STATE_TX_TRANSMIT_DATA (Z.of_nat k) f t 1, c) =
    Some (map (fun k => (b .>> Z.of_nat k) .& 1) (seq k m), (sender SoftUart.UART_STATE_TX_TRANSMIT_DATA 8 f t 1, c')) /\ rd TCON c' = rd TCON c.
Proof.
  revert k c. induction m as [|m IH]; intros k c Hkm Hb Hc.
  - exists c. assert (k = 8)%nat as -> by lia. done.
  - cbn [run seq map]. rewrite tick_busy, (step_data k f t b) by (done || lia). cbn [mbind option_bind].
    destruct (IH (S k) (put_level b (Z.of_nat k) c)) as (c' & -> & Ht); [lia|done|by rewrite tcon_level|].
    exists c'. cbn [mbind option_bind fst snd]. rewrite pin_level, Ht, tcon_level. done.
Qed.

(** A byte, from the start bit on. *)
Lemma run_frame bc f t busy st nx b c : busy = 1 /\ st = SoftUart.UART_STATE_TX_START \/ busy = 0 /\ t < f ->
  0 <= t < f -> f <= 32 -> buf !! Z.to_nat t = Some b -> (rd TCON c .& 64) <> 0 ->
  exists c', run 10 (mk_uart rx rc st nx bc buf f t busy, c) =
    Some (frame b, (if t + 1 <? f then (sender SoftUart.UART_STATE_IDLE 9 f (t + 1) 1, wr_or IOA 0x02 c')
                    else (sender SoftUart.UART_STATE_IDLE 9 0 0 0, wr_clear TCON 64 (wr_or IOA 0x02 c')))) /\ rd TCON c' = rd TCON c.
Proof.
  intros Hst Ht Hf Hb Hc.
  assert (rd TCON (wr_clear IOA 0x02 c) = rd TCON c) as E1 by done.
  destruct (run_data 8 0 f t b (wr_clear IOA 0x02 c) eq_refl Hb) as (c' & Hd & E2); [by rewrite E1|].
  assert (run 1 (mk_uart rx rc st nx bc buf f t busy, c) = Some ([0], (sender SoftUart.UART_STATE_TX_TRANSMIT_DATA 0 f t 1, wr_clear IOA 0x02 c))) as H1.
  { cbn [run]. rewrite tick_busy, step_start by done. cbn [mbind option_bind fst snd]. by rewrite pin_low. }
  assert (run 1 (sender SoftUart.UART_STATE_TX_TRANSMIT_DATA 8 f t 1, c') = Some ([1],
      (if t + 1 <? f then (sender SoftUart.UART_STATE_IDLE 9 f (t + 1) 1, wr_or IOA 0x02 c')
       else (sender SoftUart.UART_STATE_IDLE 9 0 0 0, wr_clear TCON 64 (wr_or IOA 0x02 c'))))) as H3.
  { cbn [run]. rewrite tick_busy, step_stop by (done || by rewrite E2, E1). cbn [mbind option_bind]. do 3 f_equal.
    destruct (t + 1 <? f); cbn [snd]; [apply pin_high|]. exact (pin_high c'). }
  exists c'. split; [|by rewrite E2]. exact (run_app 1 9 _ _ _ _ _ H1 (run_app 8 1 _ _ _ _ _ Hd H3)).
Qed.

(** Everything from the [t]-th byte of the buffer on. *)
Lemma run_frames bs : forall bc t busy st nx c, bs <> [] -> busy = 1 /\ st = SoftUart.UART_STATE_TX_START \/ busy = 0 ->
  0 <= t -> t + Z.of_nat (length bs) <= 32 -> (forall i, (i < length bs)%nat -> buf !! (Z.to_nat t + i)%nat = bs !! i) ->
  (rd TCON c .& 64) <> 0 ->
  exists c', run (11 * length bs - 1) (mk_uart rx rc st nx bc buf (t + Z.of_nat (length bs)) t busy, c) =
    Some (frames bs, (sender SoftUart.UART_STATE_IDLE 9 0 0 0, c')) /\ (rd TCON c' .& 64) = 0.
Proof.
  induction bs as [|b bs IH]; intros bc t busy st nx c Hne Hst Ht Hlen Hbuf Hc; [done|].
  pose proof (Hbuf 0%nat ltac:(cbn; lia)) as Hb. rewrite Nat.add_0_r in Hb. cbn [lookup list_lookup length] in *.
  destruct (run_frame bc (t + Z.of_nat (S (length bs))) t busy st nx b c) as (c' & Hr & Ec); [intuition lia|lia|lia|done|done|].
  destruct bs as [|b' bs].
  - cbn [length] in Hr |- *. rewrite (proj2 (Z.ltb_ge (t + 1) (t + Z.of_nat 1))) in Hr by lia.
    exists (wr_clear TCON 64 (wr_or IOA 0x02 c')). split; [exact Hr|]. unfold wr_clear. rewrite rd_wr_eq. apply clear_64.
  - cbn [length] in Hr. rewrite (proj2 (Z.ltb_lt (t + 1) _)) in Hr by lia.
    destruct (IH 9 (t + 1) 1 SoftUart.UART_STATE_TX_START SoftUart.UART_STATE_TX_START (wr_or IOA 0x02 c')) as (c2 & H2 & E2); [done|by left|lia|cbn [length] in *; lia| | |].
    { intros i Hi. transitivity ((b :: b' :: bs) !! S i); [|done]. rewrite <- (Hbuf (S i)) by (cbn [length] in *; lia). f_equal. lia. }
    { change (rd TCON (wr_or IOA 0x02 c')) with (rd TCON c'). by rewrite Ec. }
    exists c2. split; [|done].
    assert (run 1 (sender SoftUart.UART_STATE_IDLE 9 (t + Z.of_nat (S (S (length bs)))) (t + 1) 1, wr_or IOA 0x02 c') =
      Some ([1], (sender SoftUart.UART_STATE_TX_START 9 (t + Z.of_nat (S (S (length bs)))) (t + 1) 1, wr_or IOA 0x02 c'))) as H1.
    { cbn [run]. rewrite tick_busy, step_idle by (change (rd TCON (wr_or IOA 0x02 c')) with (rd TCON c'); by rewrite Ec).
      cbn [mbind option_bind fst snd]. by rewrite pin_high. }
    change (frames (b :: b' :: bs)) with (frame b ++ [1] ++ frames (b' :: bs)). cbn [length] in *.
    replace (11 * S (S (length bs)) - 1)%nat with (10 + (1 + (11 * S (length bs) - 1)))%nat by lia.
    replace (t + 1 + Z.of_nat (S (length bs))) with (t + Z.of_nat (S (S (length bs)))) in H2 by lia.
    exact (run_app 10 _ _ _ _ _ _ Hr (run_app 1 _ _ _ _ _ _ H1 H2)).
Qed.
End steps.

(** Bytes are handed to an idle UART one after the other. *)
Fixpoint enqueue (bs : list Z) (uc : uart_vars * chip) : option (uart_vars * chip) :=
  match bs with [] => Some uc | b :: bs => uc ← cv_uart_transmit_byte b uc.1 uc.2; enqueue bs uc end.

Lemma enqueue_spec bs : forall rx rc st nx bc buf f busy c, length buf = 32%nat -> 0 <= f -> f + Z.of_nat (length bs) <= 32 ->
  exists c' buf', enqueue bs (mk_uart rx rc st nx bc buf f 0 busy, c) =
    Some (mk_uart rx rc st nx bc buf' (f + Z.of_nat (length bs)) 0 busy, c') /\ length buf' = 32%nat /\
    take (Z.to_nat f) buf' = take (Z.to_nat f) buf /\
    (forall i, (i < length bs)%nat -> buf' !! (Z.to_nat f + i)%nat = bs !! i) /\
    (bs <> [] -> (rd TCON c' .& 64) <> 0) /\ ((rd TCON c .& 64) <> 0 -> (rd TCON c' .& 64) <> 0).
Proof.
  induction bs as [|b bs IH]; intros rx rc st nx bc buf f busy c Hl Hf Hn.
  - exists c, buf. cbn [length enqueue]. rewrite Z.add_0_r. split_and!; try done. cbn. lia.
  - cbn [length] in Hn. cbn [enqueue fst snd]. unfold cv_uart_transmit_byte, UART_BUFFER_LENGTH.
    cbn [uart_buffer_filled_to uart_transmit_buffer uart_buffer_transmitted_to uart_tx_busy].
    rewrite (proj2 (Z.ltb_lt f 32)), array_set_lt, (wrap_small 8 (f + 1)) by lia. cbn [mbind option_bind fst snd]. unfold set_buffer. cbn [uart_rx_byte uart_byte_received uart_state uart_next_state uart_bit_count].
    destruct (IH rx rc st nx bc (<[Z.to_nat f := b]> buf) (f + 1) busy (wr_or TCON 64 c)) as (c' & buf' & E & Hl' & Htk & Hb & H1 & H2);
      [by rewrite length_insert|lia|lia|].
    exists c', buf'. rewrite E. cbn [length]. split; [do 3 f_equal; lia|]. split; [done|].
    assert (Z.to_nat (f + 1) = S (Z.to_nat f)) as Ef by lia. rewrite Ef in Htk, Hb.
    assert (rd TCON (wr_or TCON 64 c) .& 64 <> 0) as Hset by (unfold wr_or; rewrite rd_wr_eq; apply or_64).
    split; [|split; [|split; intros _; by apply H2]].
    + apply (f_equal (take (Z.to_nat f))) in Htk. rewrite !take_take, !Nat.min_l in Htk by lia. rewrite Htk. by apply take_insert_ge.
    + intros [|i] Hi; [|transitivity (bs !! i); [rewrite <- (Hb i) by lia; f_equal; lia|done]]. rewrite Nat.add_0_r.
      rewrite <- (lookup_take_lt _ (S (Z.to_nat f))), Htk, lookup_take_lt, list_lookup_insert_eq by lia. done.
Qed.

(** Bytes handed to the idle UART, 32 at most, leave it as frames, in order and with
    the idle level for one bit between two of them; then the timer stops and the
    buffer is empty again. *)
Theorem uart_sends_text (bs : list Z) (rx rc nx bc : Z) (buf : list Z) (c : chip)
    (Hne : bs <> []) (Hn : (length bs <= 32)%nat) (Hbuf : length buf = 32%nat) :
  exists uc c', enqueue bs (mk_uart rx rc SoftUart.UART_STATE_IDLE nx bc buf 0 0 0, c) = Some uc /\
    exists buf', run (11 * length bs - 1) uc = Some (frames bs, (mk_uart rx rc SoftUart.UART_STATE_IDLE SoftUart.UART_STATE_IDLE 9 buf' 0 0 0, c')) /\
    (rd TCON c' .& 64) = 0.
Proof.
  destruct (enqueue_spec bs rx rc SoftUart.UART_STATE_IDLE nx bc buf 0 0 c Hbuf) as (c1 & buf' & E & _ & _ & Hb & Ht & _); [lia|lia|].
  destruct (run_frames rx rc buf' bs bc 0 0 SoftUart.UART_STATE_IDLE nx c1 Hne) as (c' & R & Hc); [by right|lia|lia|exact Hb|by apply Ht|].
  exists (mk_uart rx rc SoftUart.UART_STATE_IDLE nx bc buf' (0 + Z.of_nat (length bs)) 0 0, c1), c'. split; [exact E|]. by exists buf'.
Qed.

(** ** Reception *)

(** A level on the receive pin, then the timer. *)
Definition sample (level : Z) (uc : uart_vars * chip) : option (uart_vars * chip) :=
  tick (uc.1, hw IOA ((rd IOA uc.2 .& 0xFE) .| level) uc.2).
Fixpoint samples (ls : list Z) (uc : uart_vars * chip) : option (uart_vars * chip) :=
  match ls with [] => Some uc | l :: ls => uc ← sample l uc; samples ls uc end.

Lemma read_level x l : l = 0 \/ l = 1 -> u8 ((x .& 0xFE) .| l) .& 0x01 = l.
Proof.
  intros Hl. rewrite testbit_1. unfold wrap. rewrite Z.mod_pow2_bits_low, Z.lor_spec, Z.land_spec, andb_false_r by lia.
  destruct Hl as [-> | ->]; done.
Qed.

Definition receiver (st rx rc bc : Z) (buf : list Z) : uart_vars := mk_uart rx rc st st bc buf 0 0 0.

Lemma sample_bit rx rc bc buf l c : 0 <= bc < 7 -> l = 0 \/ l = 1 -> (rd TCON c .& 64) <> 0 ->
  exists c', sample l (receiver SoftUart.UART_STATE_RX_GET_DATA rx rc bc buf, c) =
    Some (receiver SoftUart.UART_STATE_RX_GET_DATA (u8 (rx .| (l .<< bc))) rc (bc + 1) buf, c') /\ rd TCON c' = rd TCON c.
Proof.
  intros Hb Hl Hc. exists (hw IOA ((rd IOA c .& 0xFE) .| l) c). unfold sample. cbn [fst snd]. rewrite tick_busy by done. split; [|reflexivity].
  unfold tmr1_isr, receiver. cbn -[rx_get_data hw set_state]. unfold rx_get_data. cbn -[Z.eqb Z.ltb hw wrap Z.add Z.shiftl Z.lor].
  rewrite rd_hw_eq, read_level by done. rewrite (proj2 (Z.ltb_lt bc 8)) by lia. cbn -[Z.eqb Z.ltb hw wrap Z.add Z.shiftl Z.lor].
  rewrite (wrap_small 8 (bc + 1)), (proj2 (Z.eqb_neq (bc + 1) 8)) by lia. reflexivity.
Qed.

Lemma sample_last rx rc buf l c : l = 0 \/ l = 1 -> (rd TCON c .& 64) <> 0 ->
  exists c', sample l (receiver SoftUart.UART_STATE_RX_GET_DATA rx rc 7 buf, c) =
    Some (receiver SoftUart.UART_STATE_IDLE (u8 (rx .| (l .<< 7))) 1 8 buf, c') /\ rd PORTACFG c' = 1 /\ rd TCON c' = u8 (rd TCON c .& Z.lnot 64).
Proof.
  intros Hl Hc. exists (wr_clear TCON 64 (wr PORTACFG 1 (hw IOA ((rd IOA c .& 0xFE) .| l) c))). unfold sample. cbn [fst snd]. rewrite tick_busy by done. split; [|split; reflexivity].
  unfold tmr1_isr, receiver. cbn -[rx_get_data hw set_state]. unfold rx_get_data. cbn -[hw wrap Z.shiftl Z.lor wr_clear wr].
  rewrite rd_hw_eq, read_level by done. reflexivity.
Qed.

Lemma low_or_high x : x .& 1 = 0 \/ x .& 1 = 1.
Proof. rewrite testbit_1. destruct (Z.testbit x 0); [by right|by left]. Qed.

(** A start bit and eight data bits on the receive pin, after the falling edge, leave
    the byte in [uart_rx_byte]; the timer stops and the pin interrupts again. *)
Theorem uart_receives_byte (b rx rc nx bc : Z) (buf : list Z) (c : chip) (Hb : is_byte b) :
  exists c', samples (0 :: data_bits b) (cv_int0_isr (mk_uart rx rc SoftUart.UART_STATE_IDLE nx bc buf 0 0 0) c) =
    Some (receiver SoftUart.UART_STATE_IDLE b 1 8 buf, c') /\ rd PORTACFG c' = 1 /\ (rd TCON c' .& 64) = 0.
Proof.
  unfold cv_int0_isr. cbn [uart_state]. change (SoftUart.UART_STATE_IDLE =? SoftUart.UART_STATE_IDLE) with true. cbn iota.
  set (c0 := wr PORTACFG 0 _). assert (rd TCON c0 .& 64 <> 0) as H0 by (apply or_64).
  assert (exists c1, sample 0 (set_state SoftUart.UART_STATE_RX_START (mk_uart rx rc SoftUart.UART_STATE_IDLE nx bc buf 0 0 0), c0) =
    Some (receiver SoftUart.UART_STATE_RX_GET_DATA 0 rc 0 buf, c1) /\ rd TCON c1 = rd TCON c0) as (c1 & E1 & T1).
  { exists (wr PORTACFG 0 (hw IOA ((rd IOA c0 .& 0xFE) .| 0) c0)). unfold sample. cbn [fst snd]. rewrite tick_busy by done. split; [|reflexivity].
    unfold tmr1_isr, set_state. cbn -[rx_start hw]. unfold rx_start. rewrite rd_hw_eq, read_level by (by left). reflexivity. }
  cbn [samples data_bits map seq]. rewrite E1. cbn [mbind option_bind].
  do 7 (cbn [samples]; match goal with |- context [sample ?l (receiver SoftUart.UART_STATE_RX_GET_DATA ?r rc ?k buf, ?x)] =>
    let c' := fresh "c" in let E := fresh "E" in let T := fresh "T" in
    destruct (sample_bit r rc k buf l x) as (c' & E & T); [lia|apply low_or_high|congruence|];
    rewrite E; clear E; cbn [mbind option_bind]; let k' := eval vm_compute in (k + 1) in change (k + 1) with k' end).
  cbn [samples].
  match goal with |- context [sample ?l (receiver SoftUart.UART_STATE_RX_GET_DATA ?r rc 7 buf, ?x)] =>
    destruct (sample_last r rc buf l x) as (c' & E' & P & TL); [apply low_or_high|congruence|] end.
  rewrite E'. cbn [mbind option_bind]. exists c'. split; [|split; [done|]].
  - do 3 f_equal. unfold receiver. f_equal. apply Z.eqb_eq.
    apply (byte_forall (fun b => u8 (u8 (u8 (u8 (u8 (u8 (u8 (u8 (0 .| (((b .>> 0) .& 1) .<< 0)) .| (((b .>> 1) .& 1) .<< 1)) .| (((b .>> 2) .& 1) .<< 2))
      .| (((b .>> 3) .& 1) .<< 3)) .| (((b .>> 4) .& 1) .<< 4)) .| (((b .>> 5) .& 1) .<< 5)) .| (((b .>> 6) .& 1) .<< 6)) .| (((b .>> 7) .& 1) .<< 7)) =? b));
      [vm_compute; reflexivity|exact Hb].
  - rewrite TL. apply clear_64.
Qed.

(** * The stream to the host *)

(** What the controller has sent: [c0] are its registers before the first store. The
    characters [chars] were put; the packets are in [pk]. *)
Definition replay (c0 : Z -> Z) (c : chip) : Z -> Z := fold_left (fun m w => store w m) (log c) c0.

Record streamed (c0 : Z -> Z) (pk : list (list Z)) (c : chip) : Prop := {
  st_packets : packets EP1INBC EP1INBUF (log c) c0 = pk;
  st_buffer : forall r, EP1INBUF <= r < EP1INBUF + 64 -> replay c0 c r = rd r c }.

Lemma streamed_wr c0 pk c r v : streamed c0 pk c -> r <> EP1INBC -> streamed c0 pk (wr r v c).
Proof.
  intros [Hp Hb] Hr. split.
  - cbn [log wr]. rewrite packets_app, Hp. cbn [packets fst]. rewrite (proj2 (Z.eqb_neq _ _) Hr). apply app_nil_r.
  - intros x Hx. unfold replay. cbn [log wr]. rewrite fold_left_app. cbn [fold_left]. unfold store at 1. cbn [fst snd].
    rewrite rd_wr. destruct (Z.eqb_spec r x) as [->|Hne]; [by rewrite fn_lookup_insert|]. rewrite fn_lookup_insert_ne by done. by apply Hb.
Qed.

Lemma streamed_hw c0 pk c r v : streamed c0 pk c -> ~ EP1INBUF <= r < EP1INBUF + 64 -> streamed c0 pk (hw r v c).
Proof.
  intros [Hp Hb] Hr. split; [done|]. intros x Hx. unfold replay. cbn [log hw]. rewrite rd_hw.
  rewrite (proj2 (Z.eqb_neq _ _)) by lia. by apply Hb.
Qed.

Lemma streamed_commit c0 pk c n : streamed c0 pk c -> 0 <= n <= 64 ->
  streamed c0 (pk ++ [rd_bytes EP1INBUF (Z.to_nat n) c]) (wr EP1INBC n c).
Proof.
  intros [Hp Hb] Hn. split.
  - cbn [log wr]. rewrite packets_app, Hp, (wrap_small 8 n) by lia. cbn [packets fst snd]. rewrite Z.eqb_refl. do 2 f_equal.
    apply map_ext_in. intros i Hi. apply in_seq in Hi. unfold store. cbn [fst snd].
    rewrite fn_lookup_insert_ne by (unfold EP1INBC, EP1INBUF; lia). apply Hb. lia.
  - intros x Hx. unfold replay. cbn [log wr]. rewrite fold_left_app. cbn [fold_left]. unfold store at 1. cbn [fst snd].
    rewrite rd_wr_ne, fn_lookup_insert_ne by (unfold EP1INBC, EP1INBUF in *; lia). by apply Hb.
Qed.

(** The status bytes in front of every packet. *)
Definition STATUS : list Z := [FTDI_RS0_CTS .| FTDI_RS0_DSR .| 1; FTDI_RS_DR].

(** The invariant of the serial port: the characters put so far are those in the
    packets, without the status bytes, and then those in the buffer. *)
Record carries (c0 : Z -> Z) (chars : list Z) (s : serial) : Prop := {
  ca_waiting : 0 <= bytes_waiting_for_xmit s < 62;
  ca_stream : exists pk, streamed c0 (map (app STATUS) pk) (s_chip s) /\ Forall (fun p => length p <= 62)%nat pk /\
    chars = concat pk ++ rd_bytes (EP1INBUF + 2) (Z.to_nat (bytes_waiting_for_xmit s)) (s_chip s) }.

Lemma rd_bytes_snoc r n c : rd_bytes r (S n) c = rd_bytes r n c ++ [rd (r + Z.of_nat n) c].
Proof. unfold rd_bytes. rewrite seq_S, map_app. done. Qed.

(** Stores elsewhere keep it. *)
Lemma carries_chip c0 chars s f : carries c0 chars s -> (forall pk, streamed c0 pk (s_chip s) -> streamed c0 pk (f (s_chip s))) ->
  (forall x, EP1INBUF <= x < EP1INBUF + 64 -> rd x (f (s_chip s)) = rd x (s_chip s)) -> carries c0 chars (on_chip f s).
Proof.
  intros [Hw (pk & Hs & Hn & E)] Hf Hr. split; [done|]. exists pk. split; [by apply Hf|]. split; [done|].
  rewrite E. cbn [s_chip on_chip bytes_waiting_for_xmit]. f_equal. symmetry. apply rd_bytes_ext. intros x Hx. apply Hr. unfold EP1INBUF in *. lia.
Qed.

Lemma carries_wr c0 chars s r v : carries c0 chars s -> r <> EP1INBC -> ~ EP1INBUF <= r < EP1INBUF + 64 ->
  carries c0 chars (on_chip (fun c => wr r (v c) c) s).
Proof. intros Hc Hr Hb. apply carries_chip; [done|intros pk Hs; by apply streamed_wr|]. intros x Hx. apply rd_wr_ne. lia. Qed.

(** The packet holds what the buffer held, behind the status. *)
Lemma xmit_spec c0 chars s n : n = bytes_waiting_for_xmit s -> 0 <= n <= 62 ->
  (exists pk, streamed c0 (map (app STATUS) pk) (s_chip s) /\ Forall (fun p => length p <= 62)%nat pk /\
    chars = concat pk ++ rd_bytes (EP1INBUF + 2) (Z.to_nat n) (s_chip s)) ->
  carries c0 chars (ProcessXmitData s).
Proof.
  intros En Hn (pk & Hs & Hl & E).
  set (c1 := wr_all [(EP1INBUF + 0, FTDI_RS0_CTS .| FTDI_RS0_DSR .| 1); (EP1INBUF + 1, FTDI_RS_DR)] (wr_clear TCON 0x30 (s_chip s))).
  assert (ProcessXmitData s = set_waiting 0 (on_chip (fun _ => wr EP1INBC (n + 2) c1) s)) as ->.
  { unfold ProcessXmitData. cbn [on_chip bytes_waiting_for_xmit s_chip]. rewrite <- En. by rewrite (wrap_small 16 (n + 2)) by lia. }
  assert (streamed c0 (map (app STATUS) pk) c1) as Hs1 by (do 3 (apply streamed_wr; [|done]); exact Hs).
  assert (forall x, EP1INBUF + 2 <= x -> x <> TCON -> rd x c1 = rd x (s_chip s)) as Hr.
  { intros x Hx Ht. unfold c1, wr_all. cbn [fold_left fst snd]. unfold wr_clear. by rewrite !rd_wr_ne by lia. }
  assert (rd_bytes EP1INBUF (Z.to_nat (n + 2)) c1 = STATUS ++ rd_bytes (EP1INBUF + 2) (Z.to_nat n) (s_chip s)) as Eb.
  { replace (Z.to_nat (n + 2)) with (2 + Z.to_nat n)%nat by lia. unfold rd_bytes at 1. rewrite seq_app, map_app. f_equal.
    cbn [Nat.add]. rewrite <- !seq_shift, !map_map. apply map_ext_in. intros i Hi. apply in_seq in Hi.
    rewrite <- Hr by (unfold EP1INBUF, TCON, sfr; lia). f_equal. lia. }
  split; [cbn; lia|]. exists (pk ++ [rd_bytes (EP1INBUF + 2) (Z.to_nat n) (s_chip s)]). cbn [s_chip set_waiting bytes_waiting_for_xmit].
  split; [rewrite map_app; cbn [map]; rewrite <- Eb; by apply streamed_commit; [|lia]|].
  split; [apply Forall_app_2; [done|constructor; [unfold rd_bytes; rewrite length_map, length_seq; lia|constructor]]|].
  rewrite concat_app. cbn [concat]. rewrite !app_nil_r. exact E.
Qed.

Lemma wait_in_keeps c0 pk c : streamed c0 pk c -> streamed c0 pk (wait_in c).
Proof. intros Hs. apply streamed_hw; [done|]. unfold EP1INCS, EP1INBUF. lia. Qed.

Lemma start_latency_keeps c0 chars s : carries c0 chars s -> carries c0 chars (on_chip start_latency s).
Proof.
  intros Hc. apply carries_chip; [done|intros pk Hs; by do 3 (apply streamed_wr; [|done])|].
  intros x Hx. unfold start_latency, wr_all, wr_or. cbn [fold_left fst snd]. unfold EP1INBUF in Hx.
  by rewrite !rd_wr_ne by (unfold TCON, TH0, TL0, sfr; lia).
Qed.

Lemma putchar_carries c0 chars ch s : is_byte ch -> carries c0 chars s -> carries c0 (chars ++ [ch]) (putchar ch s).
Proof.
  intros Hch [Hw (pk & Hs & Hl & E)]. unfold putchar.
  cbn [on_chip bytes_waiting_for_xmit set_waiting s_chip]. set (n := bytes_waiting_for_xmit s) in *.
  rewrite (wrap_small 16 (n + 1)) by lia.
  set (c1 := wr (EP1INBUF + n + 2) ch (wait_in (s_chip s))).
  match goal with |- context [set_waiting (n + 1) ?s'] => set (s1 := set_waiting (n + 1) s') end.
  assert (s_chip s1 = c1) as E1 by done. assert (bytes_waiting_for_xmit s1 = n + 1) as E2 by done.
  assert (exists pk, streamed c0 (map (app STATUS) pk) c1 /\ Forall (fun p => length p <= 62)%nat pk /\
    chars ++ [ch] = concat pk ++ rd_bytes (EP1INBUF + 2) (Z.to_nat (n + 1)) c1) as Hst.
  { exists pk. split; [apply streamed_wr; [by apply wait_in_keeps|unfold EP1INBUF, EP1INBC; lia]|]. split; [done|].
    replace (Z.to_nat (n + 1)) with (S (Z.to_nat n)) by lia. rewrite rd_bytes_snoc, app_assoc, E. f_equal; [f_equal|].
    - symmetry. apply rd_bytes_ext. intros x Hx. unfold c1. rewrite rd_wr_ne by lia. unfold wait_in. rewrite rd_hw.
      rewrite (proj2 (Z.eqb_neq _ _)) by (unfold EP1INCS, EP1INBUF in *; lia). done.
    - unfold c1. replace (EP1INBUF + 2 + Z.of_nat (Z.to_nat n)) with (EP1INBUF + n + 2) by lia. rewrite rd_wr_eq. by rewrite wrap_small by lia. }
  assert (carries c0 (chars ++ [ch]) (if 62 <=? bytes_waiting_for_xmit s1 then ProcessXmitData s1 else s1)) as H2.
  { rewrite E2. destruct (Z.leb_spec 62 (n + 1)).
    - apply (xmit_spec c0 _ s1 (n + 1)); [done|lia|by rewrite E1].
    - split; [rewrite E2; lia|by rewrite E1, E2]. }
  change (s_chip s1) with c1 in *. destruct (_ && _); [by apply start_latency_keeps|done].
Qed.

(** ** Passes of the loop *)

Lemma put_uart_carries c0 chars s uc : carries c0 chars s -> (forall pk, streamed c0 pk (s_chip s) -> streamed c0 pk uc.2) ->
  (forall x, EP1INBUF <= x < EP1INBUF + 64 -> rd x uc.2 = rd x (s_chip s)) -> carries c0 chars (put_uart uc s).
Proof. intros Hc Hs Hr. destruct (carries_chip c0 chars s (fun _ => uc.2) Hc Hs Hr) as [Hw Hst]. by split. Qed.

Lemma transmit_spec b u c : length (uart_transmit_buffer u) = 32%nat -> 0 <= uart_buffer_filled_to u ->
  exists u', cv_uart_transmit_byte b u c = Some (u', if uart_buffer_filled_to u <? 32 then wr_or TCON 64 c else c) /\
    length (uart_transmit_buffer u') = 32%nat /\ 0 <= uart_buffer_filled_to u' /\
    uart_rx_byte u' = uart_rx_byte u /\ uart_byte_received u' = uart_byte_received u.
Proof.
  intros Hl Hf. unfold cv_uart_transmit_byte, UART_BUFFER_LENGTH. destruct (Z.ltb_spec (uart_buffer_filled_to u) 32).
  - rewrite array_set_lt by lia. cbn [mbind option_bind]. eexists. split; [done|]. cbn [uart_transmit_buffer uart_buffer_filled_to set_buffer].
    split; [by rewrite length_insert|]. split; [apply wrap_range; lia|done].
  - by exists u.
Qed.

Definition uart_ok (u : uart_vars) : Prop := length (uart_transmit_buffer u) = 32%nat /\ 0 <= uart_buffer_filled_to u /\ is_byte (uart_rx_byte u).

(** Outside the buffer for the host and the registers a byte passes through, memory
    stays as it is while bytes are taken over. *)
Definition source (x : Z) : Prop := EP1OUTBUF <= x < EP1OUTBUF + 64 \/ x = EP1OUTBC \/ x = EP1OUTCS.

Lemma putchar_chip ch s : chip_ok (s_chip s) -> 0 <= bytes_waiting_for_xmit s < 62 -> chip_ok (s_chip (putchar ch s)) /\
  s_uart (putchar ch s) = s_uart s /\ (forall x, source x -> rd x (s_chip (putchar ch s)) = rd x (s_chip s)).
Proof.
  intros Hc Hw.
  unfold putchar. cbn [on_chip bytes_waiting_for_xmit set_waiting s_chip]. split; [|split].
  - destruct (62 <=? _); destruct (_ && _); repeat (apply chip_ok_wr); exact Hc.
  - destruct (62 <=? _); destruct (_ && _); reflexivity.
  - intros x Hx. unfold source, EP1OUTBUF, EP1OUTBC, EP1OUTCS in Hx.
    destruct (62 <=? _); destruct (_ && _); unfold ProcessXmitData, start_latency, wr_all, wr_or, wr_clear, wait_in;
      cbn [on_chip set_waiting s_chip bytes_waiting_for_xmit fold_left fst snd];
      rewrite !rd_wr_ne by (unfold EP1INBC, EP1INBUF, TCON, TH0, TL0, sfr; lia); rewrite rd_hw;
      by rewrite (proj2 (Z.eqb_neq _ _)) by (unfold EP1INCS; lia).
Qed.

Lemma recv_loop_carries c0 n : forall src chars s, carries c0 chars s -> uart_ok (s_uart s) -> chip_ok (s_chip s) ->
  EP1OUTBUF <= src -> src + Z.of_nat n <= EP1OUTBUF + 64 ->
  exists s', recv_loop n src s = Some s' /\ carries c0 (chars ++ rd_bytes src n (s_chip s)) s' /\ uart_ok (s_uart s') /\ chip_ok (s_chip s') /\
    uart_byte_received (s_uart s') = uart_byte_received (s_uart s).
Proof.
  induction n as [|n IH]; intros src chars s Hc Hu Hk Hs Hn.
  - exists s. unfold rd_bytes. cbn. by rewrite app_nil_r.
  - cbn [recv_loop]. rewrite (wrap_small 16 src) by (unfold EP1OUTBUF in *; lia). set (ch := rd src (s_chip s)).
    destruct Hu as (Hl & Hf & Hr). destruct (transmit_spec ch (s_uart s) (s_chip s) Hl Hf) as (u' & E & Hl' & Hf' & Er & Eb).
    rewrite E. cbn [mbind option_bind snd]. set (c1 := if uart_buffer_filled_to (s_uart s) <? 32 then wr_or TCON 64 (s_chip s) else s_chip s).
    assert (chip_ok c1) as Hk1 by (unfold c1; destruct (_ <? 32); [intros x; unfold wr_or; rewrite rd_wr; destruct (_ =? x); [apply wrap_range; lia|]|]; apply Hk).
    assert (forall x, x <> TCON -> rd x c1 = rd x (s_chip s)) as Hrd by (intros x Hx; unfold c1; destruct (_ <? 32); [by apply rd_wr_ne|done]).
    rewrite Hrd by (unfold TCON, sfr, EP1OUTBUF in *; lia). fold ch.
    assert (carries c0 chars (put_uart (u', c1) s)) as Hc1.
    { apply put_uart_carries; [done|intros pk Hst; unfold c1; cbn [snd]; destruct (_ <? 32); [by apply streamed_wr|done]|].
      intros x Hx. apply Hrd. unfold TCON, sfr, EP1INBUF in *. lia. }
    destruct (putchar_chip ch (put_uart (u', c1) s) Hk1 (ca_waiting _ _ _ Hc1)) as (Hk2 & Hu2 & Hsrc).
    destruct (IH (src + 1) (chars ++ [ch]) (putchar ch (put_uart (u', c1) s))) as (s' & E' & Hc' & Hu' & Hk' & Hb'); [|..|unfold EP1OUTBUF in *; lia|lia|].
    { apply putchar_carries; [apply Hk|done]. }
    { rewrite Hu2. cbn [s_uart put_uart fst]. unfold uart_ok. by rewrite Er. }
    { exact Hk2. }
    exists s'. split; [exact E'|]. split; [|split; [done|split; [done|rewrite Hb', Hu2; exact Eb]]].
    assert (rd_bytes src (S n) (s_chip s) = ch :: rd_bytes (src + 1) n (s_chip (putchar ch (put_uart (u', c1) s)))) as ->;
      [|by rewrite <- app_assoc in Hc'].
    unfold rd_bytes. cbn [seq map]. rewrite Z.add_0_r. fold ch. f_equal. rewrite <- seq_shift, map_map. apply map_ext_in.
    intros i Hi. apply in_seq in Hi. rewrite Hsrc by (unfold source; lia). cbn [s_chip put_uart snd]. rewrite Hrd by (unfold TCON, sfr, EP1OUTBUF in *; lia).
    f_equal. lia.
Qed.

(** What a pass puts into the stream: a byte of the UART, if one came in, and the
    bytes behind the first one of a packet of the host, if there is one. *)
Definition pass_chars (s : serial) : list Z :=
  (if uart_byte_received (s_uart s) =? 1 then [uart_rx_byte (s_uart s)] else []) ++
  (if (rd EP1OUTCS (s_chip s) .& bmEPBUSY) =? 0 then rd_bytes (EP1OUTBUF + 1) (Z.to_nat (rd EP1OUTBC (s_chip s) - 1)) (s_chip s) else []).

Lemma xmit_carries c0 chars s : carries c0 chars s -> carries c0 chars (ProcessXmitData s).
Proof. intros [Hw Hst]. apply (xmit_spec c0 chars s _ eq_refl); [lia|exact Hst]. Qed.

(** The first step of a pass: a byte of the UART. *)
Lemma uart_step c0 chars s : carries c0 chars s -> uart_ok (s_uart s) -> chip_ok (s_chip s) ->
  let s1 := if uart_byte_received (s_uart s) =? 1
            then let s := putchar (uart_rx_byte (s_uart s)) s in put_uart (set_received 0 (s_uart s), s_chip s) s
            else s in
  carries c0 (chars ++ if uart_byte_received (s_uart s) =? 1 then [uart_rx_byte (s_uart s)] else []) s1 /\
  uart_ok (s_uart s1) /\ chip_ok (s_chip s1) /\ (forall x, source x -> rd x (s_chip s1) = rd x (s_chip s)) /\ uart_byte_received (s_uart s1) <> 1.
Proof.
  intros Hc Hu Hk s1. subst s1. destruct (Z.eqb_spec (uart_byte_received (s_uart s)) 1) as [E|E]; [|by rewrite app_nil_r].
  destruct (putchar_chip (uart_rx_byte (s_uart s)) s Hk (ca_waiting _ _ _ Hc)) as (Hk1 & Hu1 & Hr1). cbv zeta.
  split; [|split; [|split; [exact Hk1|split; [exact Hr1|done]]]].
  - apply put_uart_carries; [apply putchar_carries; [apply Hu|done]|done|done].
  - cbn [s_uart put_uart fst]. rewrite Hu1. exact Hu.
Qed.


(** ** What goes wrong *)

(** The array of strings has no null pointer to end it, so the search for its size
    leaves it: every request for a string. *)
Lemma string_request_leaves_array s : (cv_setup 0 s .& SETUP_MASK) = SETUP_STANDARD_REQUEST -> cv_setup 1 s = SC_GET_DESCRIPTOR -> cv_setup 3 s = GD_STRING ->
  cv_SetupCommand s = None.
Proof. intros H0 H1 H3. unfold cv_SetupCommand, cv_standard_request, cv_get_descriptor. cbn [switch]. rewrite H0, H1, H3. reflexivity. Qed.

(** The index that the host names an endpoint with is not compared with the table. *)
Lemma endpoint_leaves_table s : cv_setup 0 s = GS_ENDPOINT -> cv_setup 1 s = SC_GET_STATUS -> is_byte (cv_setup 4 s) -> 10 <= cv_setup 4 s .& 0x7E ->
  cv_SetupCommand s = None.
Proof.
  intros H0 H1 Hb H4. unfold cv_SetupCommand, cv_standard_request, cv_get_status. rewrite H0, H1. change (GS_ENDPOINT .& SETUP_MASK) with 0. cbn [switch].
  change (0 =? SETUP_STANDARD_REQUEST) with true. cbn iota. unfold cv_epcs.
  assert (10 <= (cv_setup 4 s .& 0x7E) .| c_bool (128 <? cv_setup 4 s)) as Hle.
  { apply Z.leb_le in H4. apply Z.leb_le.
    apply (byte_forall (fun x => negb (10 <=? x .& 0x7E) || (10 <=? (x .& 0x7E) .| c_bool (128 <? x)))) in Hb; [|vm_compute; reflexivity].
    by rewrite H4 in Hb. }
  rewrite lookup_ge_None_2; [reflexivity|]. change (length EPCS_Offset_Lookup_Table) with 10%nat. lia.
Qed.

(** A packet without a byte is taken for 65535 bytes. *)
Lemma empty_packet_runs_away s : rd EP1OUTBC (s_chip s) = 0 -> recv_length s = Z.to_nat 65535.
Proof. intros E. unfold recv_length. rewrite E. reflexivity. Qed.

(** A start bit that is no longer there when the timer looks for it: the interrupt of
    the pin stays off, so that no byte is received any more. *)
Lemma glitch_deafens rx rc nx bc buf c :
  exists u' c', sample 1 (cv_int0_isr (mk_uart rx rc SoftUart.UART_STATE_IDLE nx bc buf 0 0 0) c) = Some (u', c') /\
    uart_state u' = SoftUart.UART_STATE_IDLE /\ rd PORTACFG c' = 0.
Proof.
  unfold cv_int0_isr. cbn [uart_state]. change (SoftUart.UART_STATE_IDLE =? SoftUart.UART_STATE_IDLE) with true. cbn iota. unfold sample. cbn [fst snd].
  rewrite tick_busy by (apply or_64). eexists _, _. unfold tmr1_isr, set_state. cbn -[rx_start hw]. unfold rx_start.
  rewrite rd_hw_eq, read_level by (by right). split; [reflexivity|]. by split.
Qed.

(** A byte from the host while one comes in: the next interrupt starts to send, the
    reception is lost, and the interrupt of the pin stays off here too. *)
Lemma sending_breaks_reception rx rc bc buf f c : 0 < f -> (rd TCON c .& 64) <> 0 ->
  sample 1 (mk_uart rx rc SoftUart.UART_STATE_RX_GET_DATA SoftUart.UART_STATE_RX_GET_DATA bc buf f 0 0, c) =
    Some (mk_uart rx rc SoftUart.UART_STATE_TX_TRANSMIT_DATA SoftUart.UART_STATE_TX_TRANSMIT_DATA 0 buf f 0 1, wr_clear IOA 0x02 (hw IOA ((rd IOA c .& 0xFE) .| 1) c)).
Proof. intros Hf Hc. unfold sample. cbn [fst snd]. rewrite tick_busy by done. by rewrite (step_start rx rc buf) by (by right). Qed.

(** ** Instances *)

Definition start : serial := serial_zero (cv_boot (mk_chip (fun _ => 0) [])).

Lemma uart_sends_text_witness : exists uc c' buf',
  enqueue [72; 105] (mk_uart 0 0 SoftUart.UART_STATE_IDLE 0 0 (replicate 32 0) 0 0 0, s_chip start) = Some uc /\
  run 21 uc = Some ([0; 0; 0; 0; 1; 0; 0; 1; 0; 1; 1; 0; 1; 0; 0; 1; 0; 1; 1; 0; 1], (mk_uart 0 0 SoftUart.UART_STATE_IDLE SoftUart.UART_STATE_IDLE 9 buf' 0 0 0, c')).
Proof.
  destruct (uart_sends_text [72; 105] 0 0 0 0 (replicate 32 0) (s_chip start)) as (uc & c' & E & buf' & R & _); [done|cbn; lia|reflexivity|].
  exists uc, c', buf'. split; [exact E|exact R].
Defined.

Lemma uart_receives_byte_witness : exists c',
  samples [0; 1; 0; 1; 0; 0; 1; 0; 1] (cv_int0_isr uart_zero (s_chip start)) =
    Some (receiver SoftUart.UART_STATE_IDLE 0xA5 1 8 (replicate 32 0), c') /\ rd PORTACFG c' = 1.
Proof.
  destruct (uart_receives_byte 0xA5 0 0 0 0 (replicate 32 0) (s_chip start)) as (c' & R & P & _); [lia|].
  exists c'. split; [exact R|exact P].
Defined.

(** The host sends a packet with "Hi" behind the first byte, and a pass takes it. *)
Definition greeted : serial :=
  on_chip (fun c => hw EP1OUTBC 3 (hw EP1OUTCS 0 (hw_bytes EP1OUTBUF [2; 72; 105] c))) start.

Lemma greeted_start : exists c0, carries c0 [] greeted /\ uart_ok (s_uart greeted) /\ chip_ok (s_chip greeted).
Proof.
  exists (fun _ => 0). split; [|split].
  - split; [vm_compute; by split|]. exists []. split; [|split; [constructor|reflexivity]]. split; [vm_compute; reflexivity|].
    intros r Hr. assert (exists k, (k < 64)%nat /\ r = EP1INBUF + Z.of_nat k) as (k & Hk & ->) by (exists (Z.to_nat (r - EP1INBUF)); lia).
    assert (forallb (fun k => replay (fun _ => 0) (s_chip greeted) (EP1INBUF + Z.of_nat k) =? rd (EP1INBUF + Z.of_nat k) (s_chip greeted)) (seq 0 64) = true) as H
      by (vm_compute; reflexivity).
    rewrite forallb_forall in H. apply Z.eqb_eq, H, in_seq. lia.
  - repeat split; vm_compute; done.
  - unfold greeted, start, serial_zero. cbn [s_chip on_chip]. unfold cv_boot, cv_software_uart_init, cv_int0_init, tmr1_init, cv_Initialize.
    chip_bytes. intros r. cbn. lia.
Qed.

