(* ===== verification/UsbFw.v ===== *)
(** The older firmware of the exploder board, written on the frame of the maker of the
    controller: [src/cy7/softuart/fw.c] and [Virtual.c]. Its software UART is file
    SoftUart; the functions of the maker's library and the places of the descriptors
    (an assembler file) are parameters. *)
From stdpp Require Import base functions option list.
From Stdlib Require Import ZArith Lia.
From S2P Require Import Prelude SoftUart Fx2.

Definition SET_LINE_CODING : Z := 0x20.
Definition GET_LINE_CODING : Z := 0x21.
Definition SET_CONTROL_STATE : Z := 0x22.
Definition INTERNAL_DSCR_ADDR : Z := 0x0080.

Record fw := mk_fw {
  f_chip : chip; f_uart : SoftUart.uart; GotSUD : bool; Sleep : bool; Rwuen : bool; Selfpwr : bool;
  Configuration : Z; AlternateSetting : Z; LineCode : list Z;
  pDeviceDscr : Z; pDeviceQualDscr : Z; pHighSpeedConfigDscr : Z; pFullSpeedConfigDscr : Z;
  pConfigDscr : Z; pOtherConfigDscr : Z; pStringDscr : Z }.

Definition on_chip (f : chip -> chip) (s : fw) : fw :=
  mk_fw (f (f_chip s)) (f_uart s) (GotSUD s) (Sleep s) (Rwuen s) (Selfpwr s) (Configuration s) (AlternateSetting s) (LineCode s)
    (pDeviceDscr s) (pDeviceQualDscr s) (pHighSpeedConfigDscr s) (pFullSpeedConfigDscr s) (pConfigDscr s) (pOtherConfigDscr s) (pStringDscr s).
Definition on_uart (f : SoftUart.uart -> SoftUart.uart) (s : fw) : fw :=
  mk_fw (f_chip s) (f (f_uart s)) (GotSUD s) (Sleep s) (Rwuen s) (Selfpwr s) (Configuration s) (AlternateSetting s) (LineCode s)
    (pDeviceDscr s) (pDeviceQualDscr s) (pHighSpeedConfigDscr s) (pFullSpeedConfigDscr s) (pConfigDscr s) (pOtherConfigDscr s) (pStringDscr s).
Definition set_flags (got sleep rwuen self : bool) (s : fw) : fw :=
  mk_fw (f_chip s) (f_uart s) got sleep rwuen self (Configuration s) (AlternateSetting s) (LineCode s)
    (pDeviceDscr s) (pDeviceQualDscr s) (pHighSpeedConfigDscr s) (pFullSpeedConfigDscr s) (pConfigDscr s) (pOtherConfigDscr s) (pStringDscr s).
Definition set_settings (conf alt : Z) (lc : list Z) (s : fw) : fw :=
  mk_fw (f_chip s) (f_uart s) (GotSUD s) (Sleep s) (Rwuen s) (Selfpwr s) conf alt lc
    (pDeviceDscr s) (pDeviceQualDscr s) (pHighSpeedConfigDscr s) (pFullSpeedConfigDscr s) (pConfigDscr s) (pOtherConfigDscr s) (pStringDscr s).
Definition set_pointers (d q h f c o st : Z) (s : fw) : fw :=
  mk_fw (f_chip s) (f_uart s) (GotSUD s) (Sleep s) (Rwuen s) (Selfpwr s) (Configuration s) (AlternateSetting s) (LineCode s) d q h f c o st.

Definition fw_setup (i : Z) (s : fw) : Z := rd (SETUPDAT + i) (f_chip s).

(** * Virtual.c *)

Definition load_timer (rcap_h rcap_l : Z) (c : chip) : chip :=
  let c := wr_all [(SCO, 0x5A); (T2CON, 0x34); (RCAP2H, rcap_h); (RCAP2L, rcap_l)] c in
  let c := wr TH2 (rd RCAP2H c) c in
  wr TL2 (rd RCAP2L c) c.

(** Serial port 0 for the speed in the two lowest bytes of the line coding. *)
Definition Serial0Init (LineCode : list Z) (c : chip) : chip :=
  let c := wr UART230 (rd UART230 c .& 0x03) c in
  let rate l h := (nth 0 LineCode 0 =? l) && (nth 1 LineCode 0 =? h) in
  if rate 0x60 0x09 then load_timer 0xFD 0x90 c
  else if rate 0xC0 0x12 then load_timer 0xFE 0xC8 c
  else if rate 0x80 0x25 then load_timer 0xFF 0x64 c
  else if rate 0x00 0x4B then load_timer 0xFF 0xB2 c
  else if rate 0x80 0x70 then load_timer 0xFF 0xCC c
  else if rate 0x00 0x96 then load_timer 0xFF 0xD9 c
  else if rate 0x00 0xE1 then load_timer 0xFF 0xE6 c
  else if rate 0x00 0x84 then wr_or UART230 0x03 (wr_or PCON 0x80 c)
  else
    let c := wr_all [(SCO, 0x5A); (T2CON, 0x34); (RCAP2L, 0xF3); (RCAP2H, 0xFF)] c in
    let c := wr TH2 (rd RCAP2H c) c in
    wr TL2 (rd RCAP2L c) c.

Definition TD_Init (s : fw) : fw :=
  let s := on_chip (fun c => wr CPUCS ((rd CPUCS c .& Z.lnot 24) .| 16) c) s in
  let s := on_chip (wr_or IFCONFIG 0x40) s in
  let s := on_chip (wr_all
    [(REVCTL, 0x03); (FIFORESET, 0x80); (FIFORESET, 0x08); (FIFORESET, 0x00); (EP1OUTCFG, 0xA0); (EP1INCFG, 0xB0);
     (EP2CFG, 0x7F); (EP4CFG, 0x7F); (EP6CFG, 0x7F); (EP8CFG, 0xE0); (EP8FIFOCFG, 0x00)]) s in
  on_chip (Serial0Init (LineCode s)) s.

(** The state of the serial line, for the host. *)
Definition SERIAL_STATE : list Z := [0x0A; 0x20; 0x00; 0x00; 0x00; 0x00; 0x00; 0x02; 0x00; 0x00].

Definition poll_notification (s : fw) : fw :=
  if (rd EP1INCS (f_chip s) .& 0x02) =? 0
  then on_chip (fun c => wr EP1INBC 10 (wr_bytes EP1INBUF SERIAL_STATE c)) s else s.

Fixpoint transmit_loop (n : nat) (s : fw) : fw :=
  match n with
  | O => s
  | S n => transmit_loop n (on_uart (SoftUart.uart_transmit_byte (rd (EP1OUTBUF + 0) (f_chip s))) s)
  end.

Definition poll_host (s : fw) : fw :=
  if (rd EP1OUTCS (f_chip s) .& 0x02) =? 0 then
    let bcl := rd EP1OUTBC (f_chip s) in
    on_chip (wr EP1OUTBC 0x04) (transmit_loop (Z.to_nat bcl) s)
  else s.

Definition poll_uart (s : fw) : fw :=
  if negb ((rd EP2468STAT (f_chip s) .& bmEP8EMPTY) =? 0) then
    if SoftUart.uart_byte_received (f_uart s) =? 0x01 then
      let s := on_chip (wr (EP8FIFOBUF + 0) (SoftUart.uart_rx_byte (f_uart s))) s in
      let s := on_uart (SoftUart.set_byte_received 0) s in
      on_chip (wr_all [(EP8BCH, 0); (EP8BCL, 1)]) s
    else s
  else s.

Definition TD_Poll (s : fw) : fw := poll_uart (poll_host (poll_notification s)).

Definition DR_SetConfiguration (s : fw) : fw := set_settings (fw_setup 2 s) (AlternateSetting s) (LineCode s) s.
Definition DR_GetConfiguration (s : fw) : fw := on_chip (ep0_answer [Configuration s]) s.
Definition DR_SetInterface (s : fw) : fw := set_settings (Configuration s) (fw_setup 2 s) (LineCode s) s.
Definition DR_GetInterface (s : fw) : fw := on_chip (ep0_answer [AlternateSetting s]) s.

(** The configuration that fits the speed, and the other one. *)
Definition pick_config (s : fw) : fw :=
  let h := pHighSpeedConfigDscr s in let f := pFullSpeedConfigDscr s in
  let high := negb ((rd USBCS (f_chip s) .& bmHSM) =? 0) in
  set_pointers (pDeviceDscr s) (pDeviceQualDscr s) h f (if high then h else f) (if high then f else h) (pStringDscr s) s.

Definition ISR_Sudav (s : fw) : fw :=
  on_chip (wr USBIRQ 1) (on_chip EZUSB_IRQ_CLEAR (set_flags true (Sleep s) (Rwuen s) (Selfpwr s) s)).
Definition ISR_Sutok (s : fw) : fw := on_chip (wr USBIRQ 4) (on_chip EZUSB_IRQ_CLEAR s).
Definition ISR_Sof (s : fw) : fw := on_chip (wr USBIRQ 2) (on_chip EZUSB_IRQ_CLEAR s).
Definition ISR_Ures (s : fw) : fw := on_chip (wr USBIRQ 16) (on_chip EZUSB_IRQ_CLEAR (pick_config s)).
Definition ISR_Susp (s : fw) : fw :=
  on_chip (wr USBIRQ 8) (on_chip EZUSB_IRQ_CLEAR (set_flags (GotSUD s) true (Rwuen s) (Selfpwr s) s)).
Definition ISR_Highspeed (s : fw) : fw := on_chip (wr USBIRQ 32) (on_chip EZUSB_IRQ_CLEAR (pick_config s)).
Definition resume_isr (s : fw) : fw := on_chip (wr_clear EICON 0x10) s.

(** * fw.c *)

Section firmware.
(** Where the linker puts the descriptors, and the maker's library. *)
Context (DeviceDscr DeviceQualDscr HighSpeedConfigDscr FullSpeedConfigDscr StringDscr UserDscr : Z).
Context (EZUSB_GetStringDscr : Z -> chip -> Z) (EZUSB_Discon EZUSB_Susp EZUSB_Resume : chip -> chip).

(** The data stage brings [data]; the loop that waits for seven bytes ends with no
    other number. *)
Definition set_line_coding (data : list Z) (s : fw) : option fw :=
  let s := on_chip (wr_clear EIE 1) s in
  let s := on_chip (wr_all [(SUDPTRCTL, 0x01); (EP0BCL, 0x00); (SUDPTRCTL, 0x00)]) s in
  let s := on_chip (wr_or EIE 1) s in
  let s := on_chip (fun c => hw EP0BCL (Z.of_nat (length data)) (hw_bytes EP0BUF data c)) s in
  if negb (rd EP0BCL (f_chip s) =? 7) then None else
  let s := set_settings (Configuration s) (AlternateSetting s) (rd_bytes EP0BUF 7 (f_chip s)) s in
  Some (on_chip (Serial0Init (LineCode s)) s).

(** [while (EP0CS & 0x02);] ends when the controller clears the bit. *)
Definition get_line_coding (s : fw) : fw :=
  let s := on_chip (wr SUDPTRCTL 0x01) s in
  let s := on_chip (ep0_answer (LineCode s)) s in
  let s := on_chip (fun c => hw EP0CS (rd EP0CS c .& 0xFD) c) s in
  on_chip (wr SUDPTRCTL 0x00) s.

Definition fw_get_descriptor (s : fw) : fw :=
  let s := on_chip (wr SUDPTRCTL 0x01) s in
  switch (fw_setup 3 s)
    [(GD_DEVICE, on_chip (set_SUDPTR (pDeviceDscr s)) s);
     (GD_DEVICE_QUALIFIER, on_chip (set_SUDPTR (pDeviceQualDscr s)) s);
     (GD_CONFIGURATION, on_chip (set_SUDPTR (pConfigDscr s)) s);
     (GD_OTHER_SPEED_CONFIGURATION, on_chip (set_SUDPTR (pOtherConfigDscr s)) s);
     (GD_STRING,
       let dscr_ptr := EZUSB_GetStringDscr (fw_setup 2 s) (f_chip s) in
       if negb (dscr_ptr =? 0) then on_chip (set_SUDPTR dscr_ptr) s else on_chip EZUSB_STALL_EP0 s)]
    (on_chip EZUSB_STALL_EP0 s).

(** The first byte of the ep0_answer for an endpoint is what the buffer held. *)
Definition fw_get_status (s : fw) : fw :=
  switch (fw_setup 0 s)
    [(GS_DEVICE, on_chip (ep0_answer [(c_bool (Rwuen s) .<< 1) .| c_bool (Selfpwr s); 0]) s);
     (GS_INTERFACE, on_chip (ep0_answer [0; 0]) s);
     (GS_ENDPOINT, on_chip (wr_all [(EP0BUF + 1, 0); (EP0BCH, 0); (EP0BCL, 2)]) s)]
    (on_chip EZUSB_STALL_EP0 s).

Definition fw_clear_feature (s : fw) : fw :=
  switch (fw_setup 0 s)
    [(FT_DEVICE, if fw_setup 2 s =? 1 then set_flags (GotSUD s) (Sleep s) false (Selfpwr s) s else on_chip EZUSB_STALL_EP0 s);
     (FT_ENDPOINT, if fw_setup 2 s =? 0 then s else on_chip EZUSB_STALL_EP0 s)]
    s.

Definition fw_set_feature (s : fw) : fw :=
  switch (fw_setup 0 s)
    [(FT_DEVICE, if fw_setup 2 s =? 1 then set_flags (GotSUD s) (Sleep s) true (Selfpwr s) s else on_chip EZUSB_STALL_EP0 s);
     (FT_ENDPOINT, on_chip EZUSB_STALL_EP0 s)]
    s.

(** [data] is what the host sends after the request. *)
Definition fw_SetupCommand (data : list Z) (s : fw) : option fw :=
  s ← switch (fw_setup 1 s)
    [(SET_LINE_CODING, set_line_coding data s);
     (GET_LINE_CODING, Some (get_line_coding s));
     (SET_CONTROL_STATE, Some s);
     (SC_GET_DESCRIPTOR, Some (fw_get_descriptor s));
     (SC_GET_INTERFACE, Some (DR_GetInterface s));
     (SC_SET_INTERFACE, Some (DR_SetInterface s));
     (SC_SET_CONFIGURATION, Some (DR_SetConfiguration s));
     (SC_GET_CONFIGURATION, Some (DR_GetConfiguration s));
     (SC_GET_STATUS, Some (fw_get_status s));
     (SC_CLEAR_FEATURE, Some (fw_clear_feature s));
     (SC_SET_FEATURE, Some (fw_set_feature s))]
    (Some (on_chip EZUSB_STALL_EP0 s));
  Some (on_chip (wr_or EP0CS bmHSNAK) s).

(** The two loops of [main] over the bytes of the table. *)
Fixpoint fw_fill_loop (n : nat) (dst : Z) (c : chip) : chip :=
  match n with O => c | S n => fw_fill_loop n (dst + 1) (wr dst 0xCD c) end.
Fixpoint copy_loop (n : nat) (dst src : Z) (c : chip) : chip :=
  match n with O => c | S n => copy_loop n (dst + 1) (src + 1) (wr dst (rd src c) c) end.

(** Tables in external memory are moved to [INTERNAL_DSCR_ADDR]. *)
Definition relocate (s : fw) : fw :=
  if negb ((u16 DeviceDscr .& 0xe000) =? 0) then
    let DevDescrLen := u32 (u16 UserDscr - u16 DeviceDscr + 2) in
    let s := on_chip (fun c => copy_loop (Z.to_nat DevDescrLen) INTERNAL_DSCR_ADDR (u16 DeviceDscr)
                                 (fw_fill_loop (Z.to_nat DevDescrLen) INTERNAL_DSCR_ADDR c)) s in
    let offset := u16 (u16 DeviceDscr - INTERNAL_DSCR_ADDR) in
    set_pointers INTERNAL_DSCR_ADDR (u16 (pDeviceQualDscr s - offset)) (u16 (pHighSpeedConfigDscr s - offset))
      (u16 (pFullSpeedConfigDscr s - offset)) (u16 (pConfigDscr s - offset)) (u16 (pOtherConfigDscr s - offset))
      (u16 (pStringDscr s - offset)) s
  else s.

(** [main], up to its loop. *)
Definition fw_boot (s : fw) : fw :=
  let s := set_flags false false false false s in
  let s := TD_Init s in
  let s := on_uart SoftUart.software_uart_init s in
  let s := set_pointers (u16 DeviceDscr) (u16 DeviceQualDscr) (u16 HighSpeedConfigDscr) (u16 FullSpeedConfigDscr)
             (pConfigDscr s) (pOtherConfigDscr s) (u16 StringDscr) s in
  let s := pick_config s in
  let s := relocate s in
  let s := on_chip (wr_or EIE 1) s in
  let s := on_chip (wr_or EICON 0x20) s in
  let s := on_chip (wr_or INTSETUP (8 .| 1)) s in
  let s := on_chip (wr_or USBIE (1 .| 4 .| 8 .| 16 .| 32)) s in
  let s := on_chip (wr_or IE 0x80) s in
  let s := on_chip EZUSB_Discon s in
  let s := on_uart (fun u => SoftUart.mk_uart (SoftUart.uart_state u) (SoftUart.uart_rx_byte u) (SoftUart.uart_tx_byte u)
             (SoftUart.uart_bit_count u) (SoftUart.uart_byte_received u) (SoftUart.uart_byte_to_transmit u) (SoftUart.OEA u) (SoftUart.IOA u)
             (SoftUart.OED u) (SoftUart.IOD u) (SoftUart.PORTACFG u) (SoftUart.TCON u) (SoftUart.TMOD u) (SoftUart.TH0 u) (SoftUart.TL0 u)
             ((SoftUart.CKCON u .& Z.lnot 0x07) .| 0x0) (SoftUart.IT0 u) (SoftUart.EX0 u) (SoftUart.ET0 u)) s in
  set_flags (GotSUD s) false (Rwuen s) (Selfpwr s) s.

Definition EXTWAKEUP (c : chip) : bool :=
  let w := rd WAKEUPCS c in
  (negb ((w .& 128) =? 0) && negb ((w .& 2) =? 0)) || (negb ((w .& 64) =? 0) && negb ((w .& 1) =? 0)).

(** [do EZUSB_Susp(); while (!Rwuen && EZUSB_EXTWAKEUP());]; [n] bounds the wake-ups
    by the pin. *)
Fixpoint susp_loop (n : nat) (s : fw) : option fw :=
  match n with
  | O => None
  | S n =>
    let s := on_chip EZUSB_Susp s in
    if negb (Rwuen s) && EXTWAKEUP (f_chip s) then susp_loop n s else Some s
  end.

Definition fw_main_pass (n : nat) (data : list Z) (s : fw) : option fw :=
  s ← (if GotSUD s then s ← fw_SetupCommand data s; Some (set_flags false (Sleep s) (Rwuen s) (Selfpwr s) s) else Some s);
  s ← (if Sleep s then
         s ← susp_loop n (set_flags (GotSUD s) false (Rwuen s) (Selfpwr s) s); Some (on_chip EZUSB_Resume s)
       else Some s);
  Some (TD_Poll s).
End firmware.

(** * Theorems *)

(** ** The speed of the line *)

(** The speeds in bits per second that [Serial0Init] knows, by the bytes of the coding,
    and the reload value of timer 2 for each. *)
Definition rates : list (Z * Z) :=
  [(2400, 0xFD90); (4800, 0xFEC8); (9600, 0xFF64); (19200, 0xFFB2); (28800, 0xFFCC); (38400, 0xFFD9); (57600, 0xFFE6); (115200, 0xFFF3)].

Definition timer2 (c : chip) : Z := rd RCAP2H c * 256 + rd RCAP2L c.
Definition coding (rate : Z) (rest : list Z) : list Z := rate mod 256 :: rate / 256 mod 256 :: rest.

Lemma load_timer_spec h l c : is_byte h -> is_byte l ->
  timer2 (load_timer h l c) = h * 256 + l /\ rd TH2 (load_timer h l c) = h /\ rd TL2 (load_timer h l c) = l.
Proof.
  intros Hh Hl. unfold timer2, load_timer, wr_all. cbn [fold_left fst snd].
  rewrite (rd_wr_ne RCAP2H TL2), (rd_wr_ne RCAP2H TH2), (rd_wr_ne RCAP2H RCAP2L), !rd_wr_eq by done.
  rewrite (rd_wr_ne RCAP2L TL2), (rd_wr_ne RCAP2L TH2), !rd_wr_eq by done.
  rewrite (rd_wr_ne TH2 TL2), !rd_wr_eq by done.
  rewrite !(wrap_small 8 (u8 _)) by (apply wrap_range; lia). by rewrite !wrap_small by lia.
Qed.

(** The reload value reaches the timer, and the time of a bit, counted in its steps, is
    the same fraction of the speed for every speed: 1497600 steps a second. *)
Theorem speed_reaches_timer (rate reload : Z) (rest : list Z) (c : chip) (Hin : In (rate, reload) rates) :
  let c' := Serial0Init (coding rate rest) c in
  timer2 c' = reload /\ rd TH2 c' * 256 + rd TL2 c' = reload /\ (65536 - reload) * rate = 1497600.
Proof.
  assert (forall h l c, is_byte h -> is_byte l -> h * 256 + l = reload ->
    timer2 (load_timer h l c) = reload /\ rd TH2 (load_timer h l c) * 256 + rd TL2 (load_timer h l c) = reload) as K.
  { intros h l c0 Hh Hl <-. destruct (load_timer_spec h l c0 Hh Hl) as (-> & -> & ->). done. }
  cbv zeta. cbn [In rates] in Hin.
  assert (forall A B C : Prop, A /\ B -> C -> A /\ B /\ C) as and3 by tauto.
  destruct Hin as [E|[E|[E|[E|[E|[E|[E|[E|[]]]]]]]]]; injection E as <- <-; (apply and3; [|reflexivity]).
  - apply (K 0xFD 0x90); lia.
  - apply (K 0xFE 0xC8); lia.
  - apply (K 0xFF 0x64); lia.
  - apply (K 0xFF 0xB2); lia.
  - apply (K 0xFF 0xCC); lia.
  - apply (K 0xFF 0xD9); lia.
  - apply (K 0xFF 0xE6); lia.
  - change (Serial0Init (coding 115200 rest) c) with
      (let c := wr_all [(SCO, 0x5A); (T2CON, 0x34); (RCAP2L, 0xF3); (RCAP2H, 0xFF)] (wr UART230 (rd UART230 c .& 0x03) c) in
       let c := wr TH2 (rd RCAP2H c) c in wr TL2 (rd RCAP2L c) c). split; reflexivity.
Qed.

(** A speed that is not in the table is taken for 115200, without a word to the host. *)
Lemma unknown_speed_taken rest c : timer2 (Serial0Init (coding 1200 rest) c) = 0xFFF3.
Proof. reflexivity. Qed.

(** ** The line coding *)

(** A coding of seven bytes is stored and handed back; any other number leaves the
    firmware in its waiting loop. *)
Theorem line_coding_kept (data : list Z) (s : fw) (Hb : bytes_ok data) (Hn : length data = 7%nat) :
  exists s1, set_line_coding data s = Some s1 /\ LineCode s1 = data /\
    rd_bytes EP0BUF 7 (f_chip (get_line_coding s1)) = data.
Proof.
  unfold set_line_coding. cbn [on_chip f_chip]. rewrite rd_hw_eq, Hn. change (negb (u8 (Z.of_nat 7) =? 7)) with false. cbn iota.
  match goal with |- context [hw EP0BCL (Z.of_nat 7) (hw_bytes EP0BUF data ?c)] => set (c0 := c) end.
  assert (rd_bytes EP0BUF 7 (hw EP0BCL (Z.of_nat 7) (hw_bytes EP0BUF data c0)) = data) as E.
  { rewrite (rd_bytes_ext _ _ (wr_bytes EP0BUF data c0)); [rewrite <- Hn; by apply rd_bytes_wr_bytes|].
    intros x Hx. rewrite rd_hw, (proj2 (Z.eqb_neq _ _)) by (unfold EP0BCL, EP0BUF in *; lia). apply rd_hw_bytes. }
  eexists. split; [reflexivity|]. cbn [LineCode set_settings on_chip f_chip]. rewrite E. split; [done|].
  unfold get_line_coding. cbn [on_chip f_chip LineCode set_settings]. unfold ep0_answer, wr_all. cbn [fold_left fst snd].
  match goal with |- context [wr_bytes EP0BUF data ?c] => rewrite (rd_bytes_ext _ _ (wr_bytes EP0BUF data c)) end; [rewrite <- Hn; by apply rd_bytes_wr_bytes|].
  intros x Hx. rewrite rd_wr_ne, rd_hw, (proj2 (Z.eqb_neq EP0CS x)), !rd_wr_ne by (unfold SUDPTRCTL, EP0CS, EP0BCL, EP0BCH, EP0BUF in *; lia). done.
Qed.

Lemma short_coding_hangs data s : (length data < 256)%nat -> length data <> 7%nat -> set_line_coding data s = None.
Proof.
  intros Hl Hn. unfold set_line_coding. cbn [on_chip f_chip]. rewrite rd_hw_eq, (wrap_small 8) by lia.
  by rewrite (proj2 (Z.eqb_neq _ _)) by lia.
Qed.

(** ** Polling *)

Lemma transmit_loop_spec n s : transmit_loop n s =
  on_uart (fun u => Nat.iter n (SoftUart.uart_transmit_byte (rd EP1OUTBUF (f_chip s))) u) s.
Proof.
  revert s. induction n as [|n IH]; intros s; [by destruct s|]. cbn [transmit_loop]. rewrite IH. cbn [f_chip on_uart].
  unfold on_uart. cbn [f_chip f_uart GotSUD Sleep Rwuen Selfpwr Configuration AlternateSetting LineCode pDeviceDscr pDeviceQualDscr
    pHighSpeedConfigDscr pFullSpeedConfigDscr pConfigDscr pOtherConfigDscr pStringDscr]. f_equal. change (EP1OUTBUF + 0) with EP1OUTBUF.
  by rewrite Nat.iter_succ_r.
Qed.

Lemma transmit_eq b st rx tx bc rc tt oea ioa oed iod pc tcon tmod th tl ck it ex et :
  SoftUart.uart_transmit_byte b (SoftUart.mk_uart st rx tx bc rc tt oea ioa oed iod pc tcon tmod th tl ck it ex et) =
  SoftUart.mk_uart SoftUart.UART_STATE_TX_START rx b bc rc tt oea ioa oed iod pc (tcon .| 0x10) tmod th 0xF0 ck it ex et.
Proof. reflexivity. Qed.

Lemma transmit_twice b u : SoftUart.uart_transmit_byte b (SoftUart.uart_transmit_byte b u) = SoftUart.uart_transmit_byte b u.
Proof. destruct u. rewrite !transmit_eq. by rewrite <- Z.lor_assoc. Qed.

(** Of a packet of the host only the first byte is sent: the loop hands it to the UART
    once for every byte of the packet. *)
Theorem poll_sends_first_byte (n : nat) (s : fw) (Hfree : (rd EP1OUTCS (f_chip s) .& 0x02) = 0) (Hn : rd EP1OUTBC (f_chip s) = Z.of_nat (S n)) :
  poll_host s = on_chip (wr EP1OUTBC 0x04) (on_uart (SoftUart.uart_transmit_byte (rd EP1OUTBUF (f_chip s))) s).
Proof.
  unfold poll_host. rewrite Hfree, Hn, Nat2Z.id. change (0 =? 0) with true. cbn iota. rewrite transmit_loop_spec. f_equal.
  unfold on_uart. f_equal. set (b := rd EP1OUTBUF (f_chip s)). generalize (f_uart s). clear. induction n as [|n IH]; intros u; [done|].
  rewrite Nat.iter_succ_r, IH. apply transmit_twice.
Qed.

(** A byte of the UART goes to the host in a packet of its own when there is room. *)
Theorem poll_forwards_byte (s : fw) (Hroom : (rd EP2468STAT (f_chip s) .& bmEP8EMPTY) <> 0)
    (Hgot : SoftUart.uart_byte_received (f_uart s) = 1) (Hb : is_byte (SoftUart.uart_rx_byte (f_uart s))) :
  exists lg, log (f_chip (poll_uart s)) = log (f_chip s) ++ lg /\
    packets EP8BCL EP8FIFOBUF lg (regs (f_chip s)) = [[SoftUart.uart_rx_byte (f_uart s)]] /\
    SoftUart.uart_byte_received (f_uart (poll_uart s)) = 0.
Proof.
  unfold poll_uart. rewrite (proj2 (Z.eqb_neq _ _) Hroom), Hgot. cbn [negb]. change (1 =? 1) with true. cbn iota.
  eexists. split; [cbn [f_chip on_chip on_uart wr_all fold_left fst snd wr log]; rewrite <- !app_assoc; reflexivity|]. split; [|done].
  rewrite (wrap_small 8 (SoftUart.uart_rx_byte _)) by lia. reflexivity.
Qed.

(** ** The descriptors *)

Lemma rd_fill_loop n : forall dst x c, ~ (dst <= x < dst + Z.of_nat n) -> rd x (fw_fill_loop n dst c) = rd x c.
Proof. induction n as [|n IH]; intros dst x c Hx; [done|]. cbn [fw_fill_loop]. rewrite IH by lia. apply rd_wr_ne. lia. Qed.

Lemma chip_ok_fill_loop n : forall dst c, chip_ok c -> chip_ok (fw_fill_loop n dst c).
Proof. induction n as [|n IH]; intros dst c Hc; [done|]. cbn [fw_fill_loop]. apply IH. by apply chip_ok_wr. Qed.

Lemma rd_copy_loop n : forall dst src c, chip_ok c -> dst + Z.of_nat n <= src ->
  (forall i, 0 <= i < Z.of_nat n -> rd (dst + i) (copy_loop n dst src c) = rd (src + i) c) /\
  (forall x, ~ (dst <= x < dst + Z.of_nat n) -> rd x (copy_loop n dst src c) = rd x c).
Proof.
  induction n as [|n IH]; intros dst src c Hc Hd; [split; [lia|done]|]. cbn [copy_loop].
  destruct (IH (dst + 1) (src + 1) (wr dst (rd src c) c)) as [H1 H2]; [by apply chip_ok_wr|lia|]. split.
  - intros i Hi. destruct (Z.eq_dec i 0) as [->|Hne].
    + rewrite Z.add_0_r, H2, rd_wr_eq, Z.add_0_r by lia. apply wrap_small. apply Hc.
    + replace (dst + i) with (dst + 1 + (i - 1)) by lia. rewrite H1, rd_wr_ne by lia. f_equal. lia.
  - intros x Hx. rewrite H2, rd_wr_ne by lia. done.
Qed.

Lemma high_bits a : 0x2000 <= a < 0x10000 -> (a .& 0xe000) <> 0.
Proof.
  intros Ha H. assert (a .& 0xe000 = (a .>> 13) .<< 13) as E.
  { apply Z.bits_inj'. intros k Hk. rewrite Z.land_spec. destruct (Z.lt_ge_cases k 13) as [Hlt|Hge].
    - rewrite Z.shiftl_spec_low by done. change 0xe000 with (7 .<< 13). rewrite Z.shiftl_spec_low by done. apply andb_false_r.
    - rewrite Z.shiftl_spec, Z.shiftr_spec by lia. replace (k - 13 + 13) with k by lia.
      change 0xe000 with (Z.ones 3 .<< 13). rewrite Z.shiftl_spec, Z.testbit_ones_nonneg by lia.
      destruct (Z.ltb_spec (k - 13) 3); [apply andb_true_r|]. rewrite andb_false_r. symmetry. apply (testbit_above a 16); lia. }
  rewrite E, Z.shiftl_mul_pow2, Z.shiftr_div_pow2 in H by lia. change (2 ^ 13) with 8192 in H.
  assert (1 <= a / 8192) by (apply Z.div_le_lower_bound; lia). lia.
Qed.

(** Tables in external memory are moved whole, and every pointer moves with them. *)
Theorem relocate_moves (DeviceDscr UserDscr p : Z) (s : fw) (Hc : chip_ok (f_chip s)) (Hd : 0x2000 <= DeviceDscr < 0x10000)
    (Hu : DeviceDscr <= UserDscr <= DeviceDscr + 0x1000) (Hu16 : UserDscr < 0x10000) (Hp : DeviceDscr <= p <= UserDscr) :
  let s' := relocate DeviceDscr UserDscr s in
  rd (u16 (p - u16 (DeviceDscr - INTERNAL_DSCR_ADDR))) (f_chip s') = rd p (f_chip s) /\
  (pConfigDscr s = p -> pConfigDscr s' = u16 (p - u16 (DeviceDscr - INTERNAL_DSCR_ADDR))) /\
  (pStringDscr s = p -> pStringDscr s' = u16 (p - u16 (DeviceDscr - INTERNAL_DSCR_ADDR))) /\
  pDeviceDscr s' = INTERNAL_DSCR_ADDR.
Proof.
  assert (u16 DeviceDscr = DeviceDscr) as Ed by (apply wrap_small; lia). assert (u16 UserDscr = UserDscr) as Eu by (apply wrap_small; lia).
  assert (u16 (p - u16 (DeviceDscr - INTERNAL_DSCR_ADDR)) = p - (DeviceDscr - INTERNAL_DSCR_ADDR)) as Ep.
  { unfold INTERNAL_DSCR_ADDR in *. rewrite (wrap_small 16 (DeviceDscr - _)) by lia. apply wrap_small. lia. }
  unfold relocate. rewrite Ed, Eu. pose proof (high_bits DeviceDscr Hd) as Hext.
  rewrite (proj2 (Z.eqb_neq _ _) Hext). cbn [negb]. rewrite Ep.
  split; [|split; [intros <-; cbn [pConfigDscr set_pointers on_chip]; exact Ep|split; [intros <-; cbn [pStringDscr set_pointers on_chip]; exact Ep|done]]].
  cbn [f_chip set_pointers on_chip]. rewrite (wrap_small 32) by lia. set (n := Z.to_nat (UserDscr - DeviceDscr + 2)).
  unfold INTERNAL_DSCR_ADDR in *.
  destruct (rd_copy_loop n 0x0080 DeviceDscr (fw_fill_loop n 0x0080 (f_chip s)) (chip_ok_fill_loop n _ _ Hc)) as [H1 _]; [lia|].
  replace (p - (DeviceDscr - 128)) with (0x0080 + (p - DeviceDscr)) by lia. rewrite H1 by lia.
  replace (DeviceDscr + (p - DeviceDscr)) with p by lia. apply rd_fill_loop. lia.
Qed.
